(* ===== verification/_CoqProject ===== *)
-Q . S2P
Prelude.v
Queue.v
Data.v
Bits.v
Kmonad.v
TimeEvent.v
Task.v
Wait.v
Core.v
Release.v
Priority.v
Service.v
Transit.v
Object.v
Handler.v
Kmm.v
Semaphore.v
Eventflag.v
Dataqueue.v
Mutex.v
MutexProof.v
MutexCalls.v
TaskManage.v
TaskManageProof.v
TaskSync.v
TaskExcept.v
SysManage.v
TaskRefer.v
Mempfix.v
MempfixProof.v
Pridataq.v
PridataqProof.v
Mailbox.v
MailboxProof.v
Cyclic.v
Alarm.v
SignalTime.v
Interrupt.v
Startup.v
Kernel.v
Init.v
StartupProof.v
Scheduling.v
Calls.v
Behaviour.v
Storage.v
Ring.v
Syslog.v
SyslogProof.v
Serial.v
SerialProof.v
SerialSystem.v
SerialCorrect.v
Logtask.v
Scif.v
ScifProof.v
Gic.v
GicProof.v
IntLines.v
Exception.v
Messagebuf.v
MessagebufProof.v
MessagebufCorrect.v
Histogram.v
