(* ===== verification/Prelude.v ===== *)
(** * TOPPERS/ASP kernel (src/asp-1.9.2-utf8): verification development

    The program is the real-time kernel TOPPERS/ASP 1.9.2: a scheduler with
    fixed priorities, wait queues, a heap of time events, the objects tasks
    synchronize with (semaphores, event flags, data queues, priority data
    queues, mailboxes, mutexes, fixed-sized memory pools), cyclic and alarm
    handlers, interrupt service routines, task exception routines, and the
    service calls on all of them; two system services on top of it, the system
    log and the driver of the serial interface; below it the serial device and
    the interrupt controller of the RZ/A1; and two additions, the message
    buffer extension and the execution time histograms.  The rest of the
    repository (the remaining processor and target support, configurator, mbed
    and network libraries) is not modelled.

    ** How the code is modelled

    - Queue.v: [include/queue.h] twice, as operations on [p_next]/[p_prev]
      links (Module Ptr) and on a family of lists (Module Fam), with the
      refinement between the two.  The rest uses the family of lists.
    - Data.v: the constants, the control blocks and initialization blocks of
      every kind of object as records, the configuration as the class [Config]
      (what the configurator writes into kernel_cfg.c, and what the target
      decides), and the global state [State].  A pointer into a table is the
      index of the block; 32-bit counters are [Z] with their wrap-around
      written out by [u32].
    - Kmonad.v: a kernel function is a [K A]: it returns ([RET]), gives the
      processor away and continues from the state it then finds ([YIELD]), or
      does what the C code must not do ([UB]: a failed assertion, a NULL
      pointer followed, a wrong member of a union read, a division by zero, an
      entry taken from an empty queue).  The calls of user code, the
      dispatcher and the windows in which interrupts are accepted are yields.
      [wp] is the weakest precondition under a rely and a guarantee.
    - One file per component with its data and operations, under the names of
      the C functions: TimeEvent.v, Task.v, Wait.v (task.c, wait.c,
      time_event.c), Semaphore.v, Eventflag.v, Dataqueue.v, Pridataq.v,
      Mailbox.v, Mutex.v, Mempfix.v, Cyclic.v, Alarm.v, TaskManage.v,
      TaskSync.v, TaskExcept.v, TaskRefer.v, SysManage.v, SignalTime.v
      (time_manage.c, signal_time), Interrupt.v (interrupt.c, exception.c),
      Kmm.v and Startup.v (startup.c, kernel.tf).
    - Syslog.v: syssvc/syslog.c, library/log_output.c, library/vasyslog.c and
      include/t_syslog.h, as functions on the state of the log, which no kernel
      function touches; the memory of strings is a parameter.  Ring.v: ring
      buffers as lists.
    - Serial.v: syssvc/serial.c, one port.  The pieces of code that run without
      interruption and the callbacks are functions on the control block; the
      service calls are programs ([prog]) of such pieces and of [wai_sem] and
      [sig_sem].  The device driver is the class [SIO].  Logtask.v: the end of
      the log task (syssvc/logtask.c).
    - Scif.v: arch/arm_gcc/rza1/scif.c, the device driver of the RZ/A1, over
      the class [REGS] of register accesses.
    - Gic.v: arch/arm_gcc/rza1/gic.c, gic.h and the part of chip_config that
      drives the interrupt controller, with [initialize_interrupt] of
      interrupt.c, over the class [GICREGS] of register accesses; integer
      arguments are cut to the width of the C parameter.  Bits.v: bit fields.
    - Exception.v: the exception frame of the processor
      (arch/arm_gcc/common) behind [xsns_dpn] and [xsns_xpn].
    - Messagebuf.v: extension/messagebuf/kernel/messagebuf.c, the ring of bytes
      of a message buffer and the calls inside the lock of the processor, over
      the class [MBFKERNEL] of what they use of the kernel.
    - Histogram.v: library/histogram.c, with its theorem.

    ** How it is proved

    - Core.v: the abstract state [tst] of a task and [KInv g s]: the state [s]
      implements the abstract states [g].  Release.v, Priority.v, Transit.v:
      what the functions of task.c and wait.c do under [KInv].
    - Service.v: [Inv] and [OK], the invariant between service calls; [rely]
      and [guar], what a call expects of the others when it yields and what it
      gives them; the rules for the common shapes of service calls.  The
      invariant of the objects is a parameter [OInv] there, which a component
      sees through the classes [Objects], [Component], [TimerComponent] and
      [TaskComponent]; so the proofs of a component mention no other.
    - Object.v: what all kinds of objects share (tables with a free list, wait
      queues, creation and deletion), as the class [Kind].  Handler.v: the same
      for the handlers with a time event.  Kmm.v: areas of memory that
      different objects must not share.
    - MutexProof.v, MutexCalls.v, TaskManageProof.v, MempfixProof.v,
      PridataqProof.v, MailboxProof.v: the invariants and proofs of the
      components that are too large for one file; the others have theirs in
      the file of the component.
    - Kernel.v: [kernel_inv], all the invariants together, the instances of the
      classes, and an example kernel that satisfies it.
    - Init.v: the loops that initialize a table of control blocks, for every
      kind at once (class [Table]).  StartupProof.v: what the configurator
      guarantees ([wf_config]), the cleared memory ([boot]), and the state the
      initialization routines build ([kernel_started]).

    ** What the theorems show

    - Calls.v: each service call, from a state that satisfies the invariant
      and in any context, avoids undefined behaviour, yields only in states
      that satisfy the guarantee, and returns in the context it was called in
      with the invariant kept.  The few calls that need more say so
      ([del_mtx], [ini_mtx], [acre_mpf], [acre_pdq], [snd_mbx]).
      The calls that lock the processor, the sns_ calls and [ext_ker] are
      given exactly.
      [signal_time] moreover handles every event that is due.
    - StartupProof.v: [sta_ker] reaches the dispatcher from a cleared memory,
      and the invariant that Calls.v assumes holds there.
    - Scheduling.v: the operations of the scheduler, the waits and the heap as
      functions from state to state.
    - Behaviour.v, Storage.v: the objects as counters, lists and sets
      (refinement of an abstract object, error codes, round trips), and three
      theorems that show faults of mutex.c.
    - SyslogProof.v: numbers are printed so that they can be read back, an
      entry prints later what its format prints at once, and no entry of the
      log disappears without being counted.
    - SerialProof.v: what each piece of the serial driver does to the two
      buffers.  SerialSystem.v: tasks, interrupts and the device as steps
      ([step]), the right to a buffer that a semaphore stands for, and the
      invariant.  SerialCorrect.v: order and completeness of what is written
      and read, absence of errors, why a task waits, the emptying of the
      transmit buffer, and two faults: a driver that stalls after STOP and
      START, and a receive semaphore that is lost.  Logtask.v: the buffers are
      empty at the end.
    - ScifProof.v: with the documented behaviour of the registers ([SCIFHW]),
      scif.c is a device driver as serial.c needs it, so that the theorems of
      SerialCorrect.v hold of both together.
    - GicProof.v: with the documented behaviour of the controller ([GICHW]),
      what each function of gic.c does to the lines.  IntLines.v: the
      configured lines after [initialize_interrupt], the priority mask, the
      interrupts from 256 on, which are never enabled, and a relation [IntRel]
      under which the interrupt state in [State], on which dis_int, ena_int,
      chg_ipm and get_ipm work, is implemented by the controller.
    - Exception.v: [xsns_dpn] on the frame of the processor answers what
      [sns_dpn] answered in the state interrupted.
    - MessagebufProof.v: the ring of bytes as a queue of messages.
      MessagebufCorrect.v: the order of messages through buffer and waiting
      senders, well-formedness after any calls, and that nobody waits without
      need when the area can hold the longest message, with the case where a
      sender does when it cannot.
    - Histogram.v: which counter [end_measure] increments, and when it writes
      outside the histogram.

    ** Bounds

    Loops that the code bounds by a list take that list; [find_pridata] may
    take as many steps as there are data, which is enough ([pdq_buf]).  The
    walk of [snd_mbx], whose length nothing in the control block tells, has a
    parameter and a theorem that the number of messages is enough.  The rounds
    of [signal_time], [call_texrtn] and [call_isr], where called code can
    prolong the loop forever, are parameters of the theorems.  The fuel of
    [syslog_printf], [syslog] and [logtask_terminate] is computed from the
    length of the format and from what the buffers hold.

    ** Not modelled

    Assembly (the dispatcher is the yield [Dispatch]; in the kernel's files
    the CPU lock and the interrupt mask are fields of the state); the log
    macros; the caches, the MMU and the timer of the processor; the entry code
    of interrupts and exceptions; closing a serial port while tasks use it; the
    endless loop of the log task, the banner and the rest of the support
    library; for message buffers the checks of context and identifier and the
    extension's own copies of wait.c and task.c, whose calls of the two hooks
    are steps of the theorems; the other extensions; the addresses of blocks
    inside a ring buffer, and areas that overlap without being equal. *)

From Stdlib Require Export ZArith Lia.
From stdpp Require Export base tactics functions sorting decidable option numbers sets list.

(** ** Record update

    [set f g r] is [r] with field [f] mapped through [g]; [r <| f := v |>]
    writes a field.  An instance of [Setter f] is found by abstracting the
    projection out of the eta-expanded record, for which each record type
    declares its expansion as an instance of [Eta]. *)

Class Eta (R : Type) := eta : R → R.

Class Setter {R T : Type} (f : R → T) := set_field : (T → T) → R → R.

Definition set {R T : Type} (f : R → T) {S : Setter f} : (T → T) → R → R := S.

Ltac find_setter f :=
  match type of f with
  | ?R → ?T =>
      let e := constr:(fun (setter_fun : T → T) (setter_rec : R) =>
        ltac:(let b := eval hnf in (@eta R _ setter_rec) in
              match eval pattern (f setter_rec) in b with
              | ?k _ => let c := eval cbv beta in (k (setter_fun (f setter_rec))) in exact c
              end)) in
      exact e
  end.

#[export] Hint Extern 1 (Setter ?f) => find_setter f : typeclass_instances.

Declare Scope asp_scope.
Delimit Scope asp_scope with asp.
Notation "r <| f := v |>" := (set f (fun _ => v) r)
  (at level 1, f at level 9, v at level 200, left associativity,
   format "r  <| f  :=  v |>") : asp_scope.
Notation "r <| f ::= g |>" := (set f g r)
  (at level 1, f at level 9, g at level 200, left associativity,
   format "r  <| f  ::=  g |>") : asp_scope.
Open Scope asp_scope.

(** ** Lists *)

(** [l] without its occurrences of [x]. *)
Definition without {A} `{EqDecision A} (x : A) (l : list A) : list A :=
  filter (fun y => y ≠ x) l.

(** [e] placed just before the first element of [l] that satisfies [stop],
    at the end when there is none. *)
Fixpoint insert_before_first {A} (stop : A → bool) (e : A) (l : list A) : list A :=
  match l with
  | [] => [e]
  | x :: l' => if stop x then e :: l else x :: insert_before_first stop e l'
  end.

Section lists.
Context {A : Type} `{EqDecision A}.
Implicit Types l : list A.

Lemma elem_of_without (x y : A) l : y ∈ without x l ↔ y ∈ l ∧ y ≠ x.
Proof. unfold without. rewrite list_elem_of_filter. tauto. Qed.

Lemma without_id (x : A) l : x ∉ l → without x l = l.
Proof.
  unfold without. induction l as [|y l IH]; intros Hx; [done|].
  apply not_elem_of_cons in Hx as [??].
  rewrite filter_cons_True by done. by rewrite IH.
Qed.

Lemma without_twice (x : A) l : without x (without x l) = without x l.
Proof. apply without_id. rewrite elem_of_without. tauto. Qed.

Lemma NoDup_without (x : A) l : NoDup l → NoDup (without x l).
Proof. apply NoDup_filter. Qed.

Lemma without_app (x : A) l1 l2 : without x (l1 ++ l2) = without x l1 ++ without x l2.
Proof. apply filter_app. Qed.

Lemma without_middle (x : A) l1 l2 :
  NoDup (l1 ++ x :: l2) → without x (l1 ++ x :: l2) = l1 ++ l2.
Proof.
  rewrite NoDup_app, NoDup_cons. intros (H1 & H2 & H3 & H4).
  rewrite without_app. unfold without at 2.
  rewrite filter_cons_False by (intros Hn; by apply Hn).
  fold (without x l2). rewrite !without_id; [done|done|].
  intros Hx. apply (H2 x Hx). left.
Qed.

Lemma without_head (x : A) l : NoDup (x :: l) → without x (x :: l) = l.
Proof. intros H. by apply (without_middle x [] l). Qed.

Lemma insert_before_first_split (stop : A → bool) (e : A) l :
  ∃ l1 l2, l = l1 ++ l2 ∧ insert_before_first stop e l = l1 ++ e :: l2 ∧
    Forall (fun x => stop x = false) l1 ∧
    (∀ x l', l2 = x :: l' → stop x = true).
Proof.
  induction l as [|x l IH]; simpl.
  - exists [], []. by repeat split.
  - destruct (stop x) eqn:Hs.
    + exists [], (x :: l). repeat split; try done. intros ? ? [= <- <-]. done.
    + destruct IH as (l1 & l2 & -> & -> & Hf & Hh).
      exists (x :: l1), l2. repeat split; try done. by constructor.
Qed.

Lemma elem_of_insert_before_first (stop : A → bool) (e x : A) l :
  x ∈ insert_before_first stop e l ↔ x = e ∨ x ∈ l.
Proof.
  destruct (insert_before_first_split stop e l) as (l1 & l2 & -> & -> & _ & _).
  rewrite !elem_of_app, elem_of_cons. tauto.
Qed.

Lemma NoDup_insert_before_first (stop : A → bool) (e : A) l :
  e ∉ l → NoDup l → NoDup (insert_before_first stop e l).
Proof.
  destruct (insert_before_first_split stop e l) as (l1 & l2 & -> & -> & _ & _).
  rewrite not_elem_of_app. intros [He1 He2].
  rewrite !NoDup_app. intros (H1 & H2 & H3). split_and!; [done| |].
  - intros x Hx [->|Hx']%elem_of_cons; [done|]. by apply (H2 x).
  - by apply NoDup_cons.
Qed.

Lemma insert_before_first_fmap {B} (f : A → B) (stop : B → bool) (e : A) l :
  f <$> insert_before_first (fun x => stop (f x)) e l = insert_before_first stop (f e) (f <$> l).
Proof. induction l as [|x l IH]; [done|]. simpl. destruct (stop (f x)); [done|]. by rewrite fmap_cons, IH. Qed.

(** Insertion in the order of priorities [f]. *)
Definition prio_sorted (f : A → Z) : list A → Prop := StronglySorted (fun x y => (f x ≤ f y)%Z).

Lemma prio_sorted_ext (f f' : A → Z) l : (∀ x, x ∈ l → f' x = f x) → prio_sorted f l → prio_sorted f' l.
Proof.
  intros Hf Hs. induction Hs as [|x l Hs IH HF]; constructor.
  - apply IH. intros y Hy. apply Hf. by right.
  - rewrite Forall_forall in *. intros y Hy. rewrite !Hf by (by left || by right). by apply HF.
Qed.

Lemma prio_sorted_insert (f : A → Z) (e : A) l :
  prio_sorted f l → prio_sorted f (insert_before_first (fun x => f e <? f x)%Z e l).
Proof.
  intros Hs. induction Hs as [|x l Hs IH HF]; simpl; [repeat constructor|].
  rewrite Forall_forall in HF. destruct (Z.ltb_spec (f e) (f x)) as [Hlt|Hle].
  - constructor; [by constructor; [|rewrite Forall_forall]|]. rewrite Forall_forall.
    intros y [->|Hy]%elem_of_cons; [lia|]. specialize (HF y Hy). lia.
  - constructor; [done|]. rewrite Forall_forall. intros y [->|Hy]%elem_of_insert_before_first; [lia|by apply HF].
Qed.

Lemma insert_before_first_not_nil (stop : A → bool) (e : A) l :
  insert_before_first stop e l ≠ [].
Proof. destruct l as [|x l]; simpl; [done|]. by destruct (stop x). Qed.

End lists.

(** Case analysis on the comparisons of integers in the goal. *)
Ltac leb_cases :=
  repeat match goal with
  | |- context [(?a <=? ?b)%Z] => destruct (Z.leb_spec a b)
  | |- context [(?a <? ?b)%Z] => destruct (Z.ltb_spec a b)
  end.
