(* ===== verification/Queue.v ===== *)
(** * The queue library (include/queue.h)

    [queue.h] keeps every queue of the kernel as a ring of doubly linked
    nodes that goes through a header.  The same links are the node of a TCB
    ([task_queue]) whatever queue the task is in, so a node belongs to at most
    one ring and [queue_delete] needs no header.

    [Module Ptr] is the code: a store of [p_next]/[p_prev] links over nodes
    that are either headers [inl q] or entries [inr e], and the functions of
    [queue.h] as the sequences of assignments they are.  [Module Fam] is what
    the rest of the development uses: a family of lists indexed by the
    headers.  The second half of the file proves that [Ptr] implements [Fam]
    ([rep]), for every function and for the two insertion loops of the kernel
    that walk the links ([queue_insert_tpri], [enqueue_isr]). *)

From S2P Require Import Prelude.

Module Fam.
Section fam.
Context {Q E : Type} `{EqDecision Q} `{EqDecision E}.
Implicit Types (F : Q → list E) (q : Q) (e : E).

Definition queue_initialize q F : Q → list E := <[q := []]> F.

(** Insertion at the end, the meaning of [queue_insert_prev] on a header. *)
Definition queue_insert_prev q e F : Q → list E := <[q := F q ++ [e]]> F.

(** Insertion at the head, the meaning of [queue_insert_next] on a header. *)
Definition queue_insert_next q e F : Q → list E := <[q := e :: F q]> F.

Definition queue_delete e F : Q → list E := fun q => without e (F q).

Definition queue_delete_next q F : option (E * (Q → list E)) :=
  match F q with
  | [] => None
  | e :: l => Some (e, <[q := l]> F)
  end.

Definition queue_empty q F : bool := match F q with [] => true | _ => false end.

(** The loops of [queue_insert_tpri] and [enqueue_isr]: insertion before the
    first entry [x] with [stop x]. *)
Definition queue_insert_sorted (stop : E → bool) q e F : Q → list E :=
  <[q := insert_before_first stop e (F q)]> F.
End fam.
End Fam.

Module Ptr.
Section ptr.
Context {Q E : Type} `{EqDecision Q} `{EqDecision E}.

(** A QUEUE object: a header or the node of an entry. *)
Notation node := (Q + E)%type.

Record QUEUE := mkQUEUE { p_next : node → node; p_prev : node → node }.

Definition set_next (a v : node) (h : QUEUE) : QUEUE :=
  mkQUEUE (<[a := v]> (p_next h)) (p_prev h).
Definition set_prev (a v : node) (h : QUEUE) : QUEUE :=
  mkQUEUE (p_next h) (<[a := v]> (p_prev h)).

Definition queue_initialize (p_queue : node) (h : QUEUE) : QUEUE :=
  let h := set_prev p_queue p_queue h in
  set_next p_queue p_queue h.

Definition queue_insert_prev (p_queue p_entry : node) (h : QUEUE) : QUEUE :=
  let h := set_prev p_entry (p_prev h p_queue) h in
  let h := set_next p_entry p_queue h in
  let h := set_next (p_prev h p_queue) p_entry h in
  set_prev p_queue p_entry h.

Definition queue_insert_next (p_queue p_entry : node) (h : QUEUE) : QUEUE :=
  let h := set_prev p_entry p_queue h in
  let h := set_next p_entry (p_next h p_queue) h in
  let h := set_prev (p_next h p_queue) p_entry h in
  set_next p_queue p_entry h.

Definition queue_delete (p_entry : node) (h : QUEUE) : QUEUE :=
  let h := set_next (p_prev h p_entry) (p_next h p_entry) h in
  set_prev (p_next h p_entry) (p_prev h p_entry) h.

(** [None] is the failure of the assertion. *)
Definition queue_delete_next (p_queue : node) (h : QUEUE) : option (node * QUEUE) :=
  if decide (p_next h p_queue = p_queue) then None
  else
    let p_entry := p_next h p_queue in
    let h := set_next p_queue (p_next h p_entry) h in
    let h := set_prev (p_next h p_entry) p_queue h in
    Some (p_entry, h).

Definition queue_empty (p_queue : node) (h : QUEUE) : option bool :=
  if decide (p_next h p_queue = p_queue) then
    if decide (p_prev h p_queue = p_queue) then Some true else None
  else Some false.

(** The common loop of [queue_insert_tpri] (wait.h) and [enqueue_isr]
    (interrupt.c): follow [p_next] until the header or an entry that
    satisfies [stop], and insert before it.  [None]: out of fuel. *)
Fixpoint find_from (fuel : nat) (stop : node → bool) (p_queue p_entry : node) (h : QUEUE)
  : option node :=
  match fuel with
  | O => None
  | S fuel =>
      if decide (p_entry = p_queue) then Some p_entry
      else if stop p_entry then Some p_entry
      else find_from fuel stop p_queue (p_next h p_entry) h
  end.

Definition queue_insert_sorted (fuel : nat) (stop : node → bool)
    (p_queue p_new : node) (h : QUEUE) : option QUEUE :=
  match find_from fuel stop p_queue (p_next h p_queue) h with
  | Some p_entry => Some (queue_insert_prev p_entry p_new h)
  | None => None
  end.
End ptr.
Arguments QUEUE : clear implicits.
End Ptr.

(** ** [Ptr] implements [Fam] *)

Section refinement.
Context {Q E : Type} `{EqDecision Q} `{EqDecision E}.
Import Ptr.
Notation node := (Q + E)%type.
Implicit Types (h : QUEUE Q E) (F : Q → list E) (a x y z : node) (l : list node).

Definition linked h x y : Prop := p_next h x = y ∧ p_prev h y = x.

(** The links lead from [x] through [l] to [z], in both directions. *)
Fixpoint chain h x l z : Prop :=
  match l with
  | [] => linked h x z
  | y :: l' => linked h x y ∧ chain h y l' z
  end.

(** The nodes of the family's lists are the rings of the store. *)
Record rep h F : Prop := {
  rep_ring : ∀ q, chain h (inl q) (inr <$> F q) (inl q);
  rep_nodup : ∀ q, NoDup (F q);
  rep_disj : ∀ q1 q2 e, e ∈ F q1 → e ∈ F q2 → q1 = q2 }.

(** The node after a prefix of the list of [q] whose rest is [l]. *)
Definition node_of q (l : list E) : node :=
  match l with [] => inl q | e :: _ => inr e end.

Definition fresh e F : Prop := ∀ q, e ∉ F q.

Lemma chain_app h x l1 y l2 z :
  chain h x (l1 ++ y :: l2) z ↔ chain h x l1 y ∧ chain h y l2 z.
Proof. revert x. induction l1 as [|w l1 IH]; intros x; simpl; [done|]. rewrite IH. tauto. Qed.

Lemma chain_frame h h' x l z :
  (∀ a, a ∈ x :: l → p_next h' a = p_next h a) →
  (∀ a, a ∈ l ++ [z] → p_prev h' a = p_prev h a) →
  chain h x l z → chain h' x l z.
Proof.
  revert x. induction l as [|y l IH]; intros x Hn Hp; simpl.
  - intros [H1 H2]. split; [rewrite Hn by left | rewrite Hp by left]; done.
  - intros [[H1 H2] Hc]. split.
    + split; [rewrite Hn by left | rewrite Hp by left]; done.
    + apply IH; [| |done]; intros a Ha; [apply Hn|apply Hp]; by right.
Qed.

Lemma rep_ext h F F' : (∀ q, F q = F' q) → rep h F → rep h F'.
Proof.
  intros HF [H1 H2 H3]. split; intros *; rewrite <- ?HF; [apply H1|apply H2|apply H3].
Qed.

#[global] Instance rep_proper h :
  Proper (pointwise_relation Q (=) ==> iff) (rep h).
Proof. intros F F' HF. split; apply rep_ext; intros q; [|symmetry]; apply HF. Qed.

Lemma rep_heap_ext h h' F :
  (∀ a, p_next h' a = p_next h a) → (∀ a, p_prev h' a = p_prev h a) →
  rep h F → rep h' F.
Proof.
  intros Hn Hp [H1 H2 H3]. split; [|done|done].
  intros q. eapply chain_frame; [| |apply H1]; eauto.
Qed.

Lemma chain_next h x l z : chain h x l z → p_next h x = default z (head l).
Proof. destruct l; simpl; [|intros [? _]; revert H]; by intros [? ?]. Qed.

Lemma chain_prev h x l z : chain h x l z → p_prev h z = default x (last l).
Proof.
  destruct l as [|w l _] using rev_ind; [by intros []|].
  rewrite chain_app, last_snoc. intros [_ []]. done.
Qed.

(** Replacing the end node of a chain. *)
Lemma chain_new_end h h' x l y z :
  chain h x l y → NoDup (x :: l) →
  (∀ a, a ∈ x :: l → a ≠ default x (last l) → p_next h' a = p_next h a) →
  (∀ a, a ∈ l → p_prev h' a = p_prev h a) →
  linked h' (default x (last l)) z → chain h' x l z.
Proof.
  destruct l as [|w l _] using rev_ind; [done|].
  rewrite !chain_app, last_snoc; simpl. intros [Hc _] Hnd Hn Hp Hl. split; [|done].
  apply NoDup_cons in Hnd as [Hx Hnd]. apply NoDup_app in Hnd as (_ & Hd & _).
  eapply chain_frame; [| |done].
  - intros a Ha. apply Hn; [set_solver|]. intros ->.
    apply elem_of_cons in Ha as [->|Ha]; [set_solver|]. apply (Hd w Ha). left.
  - intros a Ha. apply Hp. done.
Qed.

(** Replacing the start node of a chain. *)
Lemma chain_new_start h h' x l y z :
  chain h y l z → NoDup (l ++ [z]) →
  (∀ a, a ∈ l → p_next h' a = p_next h a) →
  (∀ a, a ∈ l ++ [z] → a ≠ default z (head l) → p_prev h' a = p_prev h a) →
  linked h' x (default z (head l)) → chain h' x l z.
Proof.
  destruct l as [|w l]; simpl; [done|]. intros [_ Hc] Hnd Hn Hp Hl. split; [done|].
  apply NoDup_cons in Hnd as [Hw _].
  eapply chain_frame; [| |done].
  - intros a Ha. by apply Hn.
  - intros a Ha. apply Hp; [by right|]. intros ->. done.
Qed.

Lemma chain_prefix h x l1 l2 z :
  chain h x (l1 ++ l2) z → chain h x l1 (default z (head l2)).
Proof.
  destruct l2 as [|y l2]; simpl; [by rewrite app_nil_r|].
  rewrite chain_app. by intros [].
Qed.

Lemma chain_suffix h x l1 l2 z :
  chain h x (l1 ++ l2) z → chain h (default x (last l1)) l2 z.
Proof.
  destruct l1 as [|y l1 _] using rev_ind; simpl; [done|].
  rewrite last_snoc, <- app_assoc; simpl. rewrite chain_app. by intros [].
Qed.

(** What an insertion writes, for an entry [e] outside the ring. *)
Lemma insert_prev_links h y e (x := p_prev h y) (h' := queue_insert_prev y e h) :
  e ≠ y → e ≠ x →
  linked h' x e ∧ linked h' e y ∧
  (∀ a, a ≠ x → a ≠ e → p_next h' a = p_next h a) ∧
  (∀ a, a ≠ y → a ≠ e → p_prev h' a = p_prev h a).
Proof.
  intros Hy Hx. subst h' x. unfold linked, queue_insert_prev. simpl.
  rewrite (fn_lookup_insert_ne _ e y) by done.
  split_and!; intros; rewrite ?fn_lookup_insert; rewrite ?fn_lookup_insert_ne by done;
    rewrite ?fn_lookup_insert; rewrite ?fn_lookup_insert_ne by done; done.
Qed.

(** What a deletion writes. *)
Lemma delete_links h e (x := p_prev h e) (y := p_next h e) (h' := queue_delete e h) :
  e ≠ x → e ≠ y →
  linked h' x y ∧
  (∀ a, a ≠ x → p_next h' a = p_next h a) ∧
  (∀ a, a ≠ y → p_prev h' a = p_prev h a).
Proof.
  intros Hx Hy. subst h' x y. unfold linked, queue_delete. simpl.
  rewrite (fn_lookup_insert_ne _ (p_prev h e) e) by done.
  split_and!; intros; rewrite ?fn_lookup_insert; rewrite ?fn_lookup_insert_ne by done; done.
Qed.

Lemma inr_elem (e : E) (l : list E) : (inr e : node) ∈ (inr <$> l : list node) ↔ e ∈ l.
Proof. rewrite list_elem_of_fmap. split; [by intros (? & [= ->] & ?)|eauto]. Qed.

Lemma inl_not_elem q (l : list E) : (inl q : node) ∉ (inr <$> l : list node).
Proof. rewrite list_elem_of_fmap. by intros (? & [=] & ?). Qed.

Lemma NoDup_nodes (l : list E) : NoDup l → NoDup (inr <$> l : list node).
Proof. apply NoDup_fmap_2. intros ?? [=]; done. Qed.

Lemma last_node q (l : list E) :
  default (inl q : node) (last (inr <$> l : list node)) = match last l with None => inl q | Some e => inr e end.
Proof. rewrite fmap_last. by destruct (last l). Qed.

Lemma head_node q (l : list E) :
  default (inl q : node) (head (inr <$> l : list node)) = node_of q l.
Proof. by destruct l. Qed.

(** The node before the rest of the list. *)
Definition node_before q (l : list E) : node :=
  match last l with None => inl q | Some e => inr e end.

Lemma node_of_cases q (l : list E) a :
  a = node_of q l → a = inl q ∨ ∃ e, e ∈ l ∧ a = inr e.
Proof. destruct l as [|e l]; simpl; intros ->; [by left|right; exists e; set_solver]. Qed.

Lemma node_before_cases q (l : list E) a :
  a = node_before q l → a = inl q ∨ ∃ e, e ∈ l ∧ a = inr e.
Proof.
  unfold node_before. destruct (last l) as [e|] eqn:He; intros ->; [right|by left].
  exists e. split; [by apply last_Some_elem_of|done].
Qed.

(** Nodes of the ring of [q] are not nodes of other rings. *)
Lemma rep_other_ring h h' F q q' :
  rep h F → q' ≠ q →
  (∀ a, a ≠ inl q → (∀ e, e ∈ F q → a ≠ inr e) → (∀ e, fresh e F → a ≠ inr e) →
     p_next h' a = p_next h a ∧ p_prev h' a = p_prev h a) →
  chain h' (inl q') (inr <$> F q') (inl q').
Proof.
  intros [Hr _ Hd] Hq Hsame. eapply chain_frame; [| |apply Hr].
  - intros a [->|(e & -> & He)%list_elem_of_fmap]%elem_of_cons; apply Hsame;
      try (intros ??; congruence); try done.
    + intros [= ->]. done.
    + intros e' He' [= <-]. by apply Hq, (Hd _ _ e).
    + intros e' He' [= <-]. by apply (He' q').
  - intros a [(e & -> & He)%list_elem_of_fmap| ->%list_elem_of_singleton]%elem_of_app; apply Hsame;
      try (intros ??; congruence); try done.
    + intros e' He' [= <-]. by apply Hq, (Hd _ _ e).
    + intros e' He' [= <-]. by apply (He' q').
    + intros [= ->]. done.
Qed.

Lemma insert_ring h F q (l1 l2 : list E) e :
  rep h F → fresh e F → F q = l1 ++ l2 →
  chain (queue_insert_prev (node_of q l2) (inr e) h) (inl q) (inr <$> (l1 ++ e :: l2)) (inl q).
Proof.
  intros [Hr Hn _] He HF. pose proof (Hr q) as Hc. pose proof (Hn q) as Hnd.
  pose proof (He q) as Heq. rewrite HF in Hc, Hnd, Heq. rewrite fmap_app in Hc.
  apply not_elem_of_app in Heq as [He1 He2].
  pose proof (chain_prefix _ _ _ _ _ Hc) as Hc1. pose proof (chain_suffix _ _ _ _ _ Hc) as Hc2.
  rewrite head_node in Hc1. rewrite last_node in Hc2. fold (node_before q l1) in Hc2.
  assert (Hx : p_prev h (node_of q l2) = node_before q l1).
  { rewrite (chain_prev _ _ _ _ Hc1), last_node. done. }
  destruct (insert_prev_links h (node_of q l2) (inr e)) as (Lx & Ly & Ln & Lp).
  { intros Hq%node_of_cases. destruct Hq as [|(? & ? & [= ->])]; done. }
  { rewrite Hx. intros Hq%node_before_cases. destruct Hq as [|(? & ? & [= ->])]; done. }
  rewrite Hx in Lx, Ln. apply NoDup_app in Hnd as (Hnd1 & Hdis & Hnd2).
  rewrite fmap_app, fmap_cons, chain_app. split.
  - eapply chain_new_end; [apply Hc1|..].
    + apply NoDup_cons. split; [apply inl_not_elem|by apply NoDup_nodes].
    + rewrite last_node. fold (node_before q l1). intros a Ha Hne. apply Ln; [done|].
      intros ->. apply elem_of_cons in Ha as [|Ha%inr_elem]; done.
    + intros a Ha. apply Lp.
      * intros ->. destruct (node_of_cases q l2 _ eq_refl) as [Hq|(e' & He' & Hq)];
          rewrite Hq in Ha; [by apply inl_not_elem in Ha|apply inr_elem in Ha; by apply (Hdis e')].
      * intros ->. by apply inr_elem in Ha.
    + by rewrite last_node.
  - eapply chain_new_start; [apply Hc2|..].
    + apply NoDup_app. split_and!; [by apply NoDup_nodes| |apply NoDup_singleton].
      intros a (e' & -> & _)%list_elem_of_fmap. by intros ?%list_elem_of_singleton.
    + intros a Ha. apply Ln.
      * intros ->. destruct (node_before_cases q l1 _ eq_refl) as [Hq|(e' & He' & Hq)];
          rewrite Hq in Ha; [by apply inl_not_elem in Ha|apply inr_elem in Ha; by apply (Hdis e')].
      * intros ->. by apply inr_elem in Ha.
    + rewrite head_node. intros a Ha Hne. apply Lp; [done|].
      intros ->. apply elem_of_app in Ha as [Ha%inr_elem| Ha%list_elem_of_singleton]; done.
    + by rewrite head_node.
Qed.

(** Changing the list of one header to entries that were there or fresh. *)
Lemma rep_update h h' F q (l : list E) :
  rep h F → chain h' (inl q) (inr <$> l) (inl q) → NoDup l →
  (∀ e, e ∈ l → e ∈ F q ∨ fresh e F) →
  (∀ q', q' ≠ q → chain h' (inl q') (inr <$> F q') (inl q')) →
  rep h' (<[q := l]> F).
Proof.
  intros [Hr Hn Hd] Hc Hl Hin Hoth. split.
  - intros q'. destruct (decide (q' = q)) as [->|]; [by rewrite fn_lookup_insert|].
    rewrite fn_lookup_insert_ne by done. by apply Hoth.
  - intros q'. destruct (decide (q' = q)) as [->|]; [by rewrite fn_lookup_insert|].
    by rewrite fn_lookup_insert_ne.
  - assert (Hone : ∀ q' e, q' ≠ q → e ∈ l → e ∈ F q' → False).
    { intros q' e Hq He He'. destruct (Hin e He) as [He''|Hf].
      - by apply Hq, (Hd _ _ e).
      - by apply (Hf q'). }
    intros q1 q2 e.
    destruct (decide (q1 = q)) as [->|], (decide (q2 = q)) as [->|]; try done;
      rewrite ?fn_lookup_insert; rewrite ?fn_lookup_insert_ne by done;
      solve [apply Hd | intros; exfalso; eauto].
Qed.

Lemma insert_refines h F q (l1 l2 : list E) e :
  rep h F → fresh e F → F q = l1 ++ l2 →
  rep (queue_insert_prev (node_of q l2) (inr e) h) (<[q := l1 ++ e :: l2]> F).
Proof.
  intros Hrep He HF. pose proof (He q) as Heq. pose proof (rep_nodup _ _ Hrep q) as Hnd.
  pose proof (rep_ring _ _ Hrep q) as Hc. rewrite HF in Heq, Hnd, Hc.
  eapply rep_update; [done|by apply (insert_ring h F)| | |].
  - apply not_elem_of_app in Heq as [He1 He2]. apply NoDup_app in Hnd as (H1 & H2 & H3).
    apply NoDup_app. split_and!; [done| |by apply NoDup_cons].
    intros x Hx [->|Hx']%elem_of_cons; [done|by apply (H2 x)].
  - intros x. rewrite HF, elem_of_app, elem_of_cons, elem_of_app.
    intros [|[->|]]; [left|right|left]; set_solver.
  - intros q' Hq. eapply rep_other_ring; [done|done|].
    intros a Ha1 Ha2 Ha3. rewrite HF in Ha2. rewrite fmap_app in Hc.
    pose proof (chain_prefix _ _ _ _ _ Hc) as Hc1. rewrite head_node in Hc1.
    assert (Hx : p_prev h (node_of q l2) = node_before q l1).
    { rewrite (chain_prev _ _ _ _ Hc1), last_node. done. }
    apply not_elem_of_app in Heq as [He1 He2].
    destruct (insert_prev_links h (node_of q l2) (inr e)) as (_ & _ & Ln & Lp).
    { intros [|(? & ? & [= ->])]%node_of_cases; done. }
    { rewrite Hx. intros [|(? & ? & [= ->])]%node_before_cases; done. }
    rewrite Hx in Ln. split; [apply Ln|apply Lp]; try by apply Ha3.
    + intros [->|(e' & ? & ->)]%node_before_cases; [done|]. by apply (Ha2 e'); [set_solver|].
    + intros [->|(e' & ? & ->)]%node_of_cases; [done|]. by apply (Ha2 e'); [set_solver|].
Qed.

Lemma delete_ring h F q (l1 l2 : list E) e :
  rep h F → F q = l1 ++ e :: l2 →
  chain (queue_delete (inr e) h) (inl q) (inr <$> (l1 ++ l2)) (inl q) ∧
  (∀ q', q' ≠ q → chain (queue_delete (inr e) h) (inl q') (inr <$> F q') (inl q')).
Proof.
  intros Hrep HF. pose proof (rep_nodup _ _ Hrep q) as Hnd.
  pose proof (rep_ring _ _ Hrep q) as Hc. rewrite HF in Hnd, Hc.
  rewrite fmap_app, fmap_cons, chain_app in Hc. destruct Hc as [Hc1 Hc2].
  pose proof (chain_prev _ _ _ _ Hc1) as Hx. rewrite last_node in Hx. fold (node_before q l1) in Hx.
  pose proof (chain_next _ _ _ _ Hc2) as Hy. rewrite head_node in Hy.
  apply NoDup_app in Hnd as (Hnd1 & Hdis & [He2 Hnd2]%NoDup_cons).
  assert (He1 : e ∉ l1) by (intros He; apply (Hdis e He); left).
  destruct (delete_links h (inr e)) as (L & Ln & Lp).
  { rewrite Hx. intros [|(? & ? & [= ->])]%node_before_cases; done. }
  { rewrite Hy. intros [|(? & ? & [= ->])]%node_of_cases; done. }
  rewrite Hx in L, Ln. rewrite Hy in L, Lp. split.
  - assert (Hc3 : chain (queue_delete (inr e) h) (inl q) (inr <$> l1) (node_of q l2)).
    { eapply chain_new_end; [apply Hc1|..].
      - apply NoDup_cons. split; [apply inl_not_elem|by apply NoDup_nodes].
      - rewrite last_node. fold (node_before q l1). intros a _ Hne. by apply Ln.
      - intros a Ha. apply Lp. intros ->.
        destruct (node_of_cases q l2 _ eq_refl) as [Hq|(e' & He' & Hq)]; rewrite Hq in Ha;
          [by apply inl_not_elem in Ha|apply inr_elem in Ha]. apply (Hdis e' Ha). by right.
      - by rewrite last_node. }
    destruct l2 as [|w l2]; [by rewrite app_nil_r|].
    rewrite fmap_app, fmap_cons, chain_app. split; [done|].
    apply (chain_frame h); [| |apply Hc2].
    + intros a Ha. apply Ln. intros ->.
      destruct (node_before_cases q l1 _ eq_refl) as [Hq|(e' & He' & Hq)]; rewrite Hq in Ha.
      * by apply (inl_not_elem q (w :: l2)) in Ha.
      * apply (inr_elem e' (w :: l2)) in Ha. apply (Hdis e' He'). by right.
    + intros a Ha. apply Lp. intros ->. simpl in Ha. apply NoDup_cons in Hnd2 as [Hw _].
      apply elem_of_app in Ha as [Ha%inr_elem|[=]%list_elem_of_singleton]; done.
  - intros q' Hq. eapply rep_other_ring; [done|done|].
    intros a Ha1 Ha2 _. rewrite HF in Ha2. split; [apply Ln|apply Lp].
    + intros [->|(e' & ? & ->)]%node_before_cases; [done|]. by apply (Ha2 e'); [set_solver|].
    + intros [->|(e' & ? & ->)]%node_of_cases; [done|]. by apply (Ha2 e'); [set_solver|].
Qed.

Lemma queue_initialize_refines h F q :
  rep h F → rep (queue_initialize (inl q) h) (Fam.queue_initialize q F).
Proof.
  intros Hrep. eapply rep_update; [done| |constructor|by intros ? ?%not_elem_of_nil|].
  - split; apply fn_lookup_insert.
  - intros q' Hq. eapply rep_other_ring; [done|done|].
    intros a Ha _ _. split; by apply fn_lookup_insert_ne.
Qed.

Lemma queue_insert_prev_refines h F q e :
  rep h F → fresh e F → rep (queue_insert_prev (inl q) (inr e) h) (Fam.queue_insert_prev q e F).
Proof. intros Hrep He. apply (insert_refines h F q (F q) [] e Hrep He). by rewrite app_nil_r. Qed.

(** [queue_insert_next] on a header writes what [queue_insert_prev] on the
    node after it writes. *)
Lemma insert_next_insert_prev h x e a :
  linked h x (p_next h x) → e ≠ x → e ≠ p_next h x →
  p_next (queue_insert_next x e h) a = p_next (queue_insert_prev (p_next h x) e h) a ∧
  p_prev (queue_insert_next x e h) a = p_prev (queue_insert_prev (p_next h x) e h) a.
Proof.
  intros [_ Hp] Hx Hy. unfold queue_insert_next, queue_insert_prev; simpl.
  rewrite !(fn_lookup_insert_ne _ e) by done. rewrite Hp.
  unfold insert, fn_insert. split; repeat case_decide; congruence.
Qed.

Lemma queue_insert_next_refines h F q e :
  rep h F → fresh e F → rep (queue_insert_next (inl q) (inr e) h) (Fam.queue_insert_next q e F).
Proof.
  intros Hrep He. pose proof (insert_refines h F q [] (F q) e Hrep He eq_refl) as H.
  pose proof (rep_ring _ _ Hrep q) as Hc. pose proof (chain_next _ _ _ _ Hc) as Hn.
  rewrite head_node in Hn. rewrite <- Hn in H.
  assert (Hl : linked h (inl q) (p_next h (inl q))).
  { split; [done|]. rewrite Hn. destruct (F q); simpl in Hc; [apply Hc|apply Hc]. }
  assert (Hy : (inr e : node) ≠ p_next h (inl q)).
  { rewrite Hn. intros [|(? & ? & [= ->])]%node_of_cases; [done|]. by apply (He q). }
  eapply rep_heap_ext; [| |apply H]; intros a;
    by apply (insert_next_insert_prev h (inl q) (inr e) a Hl).
Qed.

Lemma queue_delete_refines_at h F q (l1 l2 : list E) e :
  rep h F → F q = l1 ++ e :: l2 → rep (queue_delete (inr e) h) (<[q := l1 ++ l2]> F).
Proof.
  intros Hrep HF. destruct (delete_ring h F q l1 l2 e Hrep HF) as [Hq Ho].
  pose proof (rep_nodup _ _ Hrep q) as Hnd. rewrite HF in Hnd.
  eapply rep_update; [done|done| | |done].
  - apply NoDup_app in Hnd as (H1 & H2 & [H3 H4]%NoDup_cons).
    apply NoDup_app. split_and!; [done| |done]. intros x Hx Hx'. apply (H2 x Hx). by right.
  - intros x Hx. left. rewrite HF. set_solver.
Qed.

(** [queue_delete] takes an entry out of the queue it is in, whichever that is. *)
Lemma queue_delete_refines h F q e :
  rep h F → e ∈ F q → rep (queue_delete (inr e) h) (Fam.queue_delete e F).
Proof.
  intros Hrep He. destruct (list_elem_of_split _ _ He) as (l1 & l2 & HF).
  eapply rep_ext; [|by apply queue_delete_refines_at]. intros q'.
  destruct (decide (q' = q)) as [->|Hq].
  - rewrite fn_lookup_insert. unfold Fam.queue_delete. rewrite HF, without_middle; [done|].
    rewrite <- HF. apply Hrep.
  - rewrite fn_lookup_insert_ne by done. unfold Fam.queue_delete. rewrite without_id; [done|].
    intros He'. by apply Hq, (rep_disj _ _ Hrep _ _ e).
Qed.

Lemma rep_head h F q : rep h F → p_next h (inl q) = node_of q (F q).
Proof. intros Hrep. by rewrite (chain_next _ _ _ _ (rep_ring _ _ Hrep q)), head_node. Qed.

Lemma queue_empty_refines h F q :
  rep h F → queue_empty (inl q) h = Some (Fam.queue_empty q F).
Proof.
  intros Hrep. unfold queue_empty, Fam.queue_empty.
  rewrite (rep_head _ _ q Hrep), (chain_prev _ _ _ _ (rep_ring _ _ Hrep q)), last_node.
  destruct (F q) as [|x l]; repeat case_decide; done.
Qed.

(** What [queue_delete_next] does to a nonempty ring is [queue_delete] of its
    first entry; on an empty one the assertion fails. *)
Lemma queue_delete_next_refines h F q :
  rep h F →
  match Ptr.queue_delete_next (inl q) h, Fam.queue_delete_next q F with
  | Some (a, h'), Some (e, F') => a = inr e ∧ rep h' F'
  | None, None => True
  | _, _ => False
  end.
Proof.
  intros Hrep. unfold queue_delete_next, Fam.queue_delete_next.
  pose proof (rep_ring _ _ Hrep q) as Hc. pose proof (rep_nodup _ _ Hrep q) as Hnd.
  rewrite (rep_head _ _ q Hrep).
  destruct (F q) as [|e l] eqn:HF; case_decide; try done. split; [done|].
  destruct Hc as [[Hc1 Hc2] _].
  eapply rep_heap_ext; [| |apply (queue_delete_refines_at h F q [] l e Hrep HF)];
    intros a; unfold queue_delete; simpl; rewrite Hc2; [done|].
  unfold insert, fn_insert. repeat case_decide; congruence.
Qed.

Lemma find_from_refines h q (stop : E → bool) (stopn : node → bool) (e : E) (l : list E) fuel x :
  (∀ e, stopn (inr e) = stop e) →
  chain h x (inr <$> l) (inl q) → length l < fuel →
  ∃ l1 l2 : list E, l = l1 ++ l2 ∧ insert_before_first stop e l = l1 ++ e :: l2 ∧
    find_from fuel stopn (inl q) (p_next h x) h = Some (node_of q l2).
Proof.
  intros Hst. revert l x. induction fuel as [|fuel IH]; [lia|]. intros l x Hc Hfuel.
  simpl. rewrite (chain_next _ _ _ _ Hc), head_node. destruct l as [|y l]; case_decide; try done.
  - by exists [], [].
  - simpl. rewrite Hst. destruct (stop y); [by exists [], (y :: l)|].
    destruct Hc as [_ Hc]. simpl in Hfuel.
    destruct (IH l (inr y) Hc) as (l1 & l2 & -> & -> & ->); [lia|]. by exists (y :: l1), l2.
Qed.

(** The insertion loops reach the entry they look for, or the header, with
    one iteration more than the length of the queue. *)
Lemma queue_insert_sorted_refines h F q (stop : E → bool) (stopn : node → bool) e fuel :
  rep h F → fresh e F → (∀ e, stopn (inr e) = stop e) → length (F q) < fuel →
  ∃ h', queue_insert_sorted fuel stopn (inl q) (inr e) h = Some h' ∧
    rep h' (Fam.queue_insert_sorted stop q e F).
Proof.
  intros Hrep He Hst Hfuel.
  destruct (find_from_refines h q stop stopn e (F q) fuel (inl q)) as (l1 & l2 & HF & Hi & Hf);
    [done|apply Hrep|done|].
  unfold queue_insert_sorted, Fam.queue_insert_sorted. rewrite Hf, Hi.
  eexists. split; [done|]. by apply insert_refines.
Qed.
End refinement.

(** ** Sequences of calls

    A program over [queue.h], as the kernel uses it: headers are fixed, an
    entry is inserted when it is in no queue and deleted when it is in one. *)
Section programs.
Context {Q E : Type} `{EqDecision Q} `{EqDecision E}.

Inductive op :=
  | Initialize (q : Q)
  | InsertPrev (q : Q) (e : E)
  | InsertNext (q : Q) (e : E)
  | InsertSorted (stop : E → bool) (q : Q) (e : E)
  | Delete (e : E)
  | DeleteNext (q : Q).

(** The meaning of an operation on the family of lists, when its use respects
    the contract of [queue.h]. *)
Inductive op_spec : op → (Q → list E) → (Q → list E) → Prop :=
  | spec_initialize q F : op_spec (Initialize q) F (Fam.queue_initialize q F)
  | spec_insert_prev q e F : fresh e F →
      op_spec (InsertPrev q e) F (Fam.queue_insert_prev q e F)
  | spec_insert_next q e F : fresh e F →
      op_spec (InsertNext q e) F (Fam.queue_insert_next q e F)
  | spec_insert_sorted stop q e F : fresh e F →
      op_spec (InsertSorted stop q e) F (Fam.queue_insert_sorted stop q e F)
  | spec_delete q e F : e ∈ F q → op_spec (Delete e) F (Fam.queue_delete e F)
  | spec_delete_next q e F F' : Fam.queue_delete_next q F = Some (e, F') →
      op_spec (DeleteNext q) F F'.

(** What the code does, with [fuel] iterations for a loop. *)
Definition op_run (fuel : nat) (o : op) (h : Ptr.QUEUE Q E) : option (Ptr.QUEUE Q E) :=
  match o with
  | Initialize q => Some (Ptr.queue_initialize (inl q) h)
  | InsertPrev q e => Some (Ptr.queue_insert_prev (inl q) (inr e) h)
  | InsertNext q e => Some (Ptr.queue_insert_next (inl q) (inr e) h)
  | InsertSorted stop q e =>
      Ptr.queue_insert_sorted fuel
        (fun a => match a with inl _ => false | inr x => stop x end) (inl q) (inr e) h
  | Delete e => Some (Ptr.queue_delete (inr e) h)
  | DeleteNext q => snd <$> Ptr.queue_delete_next (inl q) h
  end.

Inductive ops_spec : list op → (Q → list E) → (Q → list E) → Prop :=
  | specs_nil F : ops_spec [] F F
  | specs_cons o os F F' F'' : op_spec o F F' → ops_spec os F' F'' → ops_spec (o :: os) F F''.

Fixpoint ops_run (fuel : nat) (os : list op) (h : Ptr.QUEUE Q E) : option (Ptr.QUEUE Q E) :=
  match os with
  | [] => Some h
  | o :: os => match op_run fuel o h with Some h' => ops_run fuel os h' | None => None end
  end.

(** The entries an operation adds at most. *)
Lemma op_spec_length o F F' q : op_spec o F F' → length (F' q) ≤ S (length (F q)).
Proof.
  destruct 1 as [q' F|q' e F|q' e F|stop q' e F|q' e F|q' e F F' H].
  1-4: unfold Fam.queue_initialize, Fam.queue_insert_prev, Fam.queue_insert_next,
    Fam.queue_insert_sorted; destruct (decide (q = q')) as [->|];
    [rewrite fn_lookup_insert|rewrite fn_lookup_insert_ne by done; lia].
  - simpl; lia.
  - rewrite length_app; simpl; lia.
  - simpl; lia.
  - destruct (insert_before_first_split stop e (F q')) as (l1 & l2 & -> & -> & _).
    rewrite !length_app; simpl; lia.
  - unfold Fam.queue_delete, without. etrans; [apply length_filter|lia].
  - unfold Fam.queue_delete_next in H. destruct (F q') as [|x l] eqn:HF; [done|].
    injection H as <- <-. destruct (decide (q = q')) as [->|].
    + rewrite fn_lookup_insert, HF. simpl; lia.
    + rewrite fn_lookup_insert_ne by done; lia.
Qed.

Lemma op_run_refines fuel o F F' h :
  rep h F → op_spec o F F' → (∀ q, length (F q) < fuel) →
  ∃ h', op_run fuel o h = Some h' ∧ rep h' F'.
Proof.
  intros Hrep Ho Hfuel. destruct Ho as [q F|q e F He|q e F He|stop q e F He|q e F He|q e F F' Hd]; simpl.
  - eexists. split; [done|]. by apply queue_initialize_refines.
  - eexists. split; [done|]. by apply queue_insert_prev_refines.
  - eexists. split; [done|]. by apply queue_insert_next_refines.
  - by apply queue_insert_sorted_refines.
  - eexists. split; [done|]. by eapply queue_delete_refines.
  - pose proof (queue_delete_next_refines h F q Hrep) as H. rewrite Hd in H.
    destruct (Ptr.queue_delete_next (inl q) h) as [[a h']|]; [|done].
    eexists. split; [done|]. apply H.
Qed.

(** C1: [queue.h] on linked nodes implements the family of lists: from links
    that represent a family, every sequence of calls that respects the
    contract (an entry is inserted only when it is in no queue, deleted only
    when it is in one, [queue_delete_next] only on a nonempty queue) runs to
    the end with no failed assertion, its loops end, and the links represent
    the family the list operations give. *)
Theorem queue_refinement (fuel : nat) (os : list op) (F F' : Q → list E) (h : Ptr.QUEUE Q E)
    (Hrep : rep h F) (Hos : ops_spec os F F')
    (Hfuel : ∀ q, length (F q) + length os < fuel) :
  ∃ h', ops_run fuel os h = Some h' ∧ rep h' F' ∧
    ∀ q, Ptr.queue_empty (inl q) h' = Some (Fam.queue_empty q F').
Proof.
  revert h Hrep Hfuel. induction Hos as [F|o os F F' F'' Ho _ IH]; simpl; intros h Hrep Hfuel.
  - exists h. split_and!; [done..|]. intros q. by apply queue_empty_refines.
  - destruct (op_run_refines fuel o F F' h Hrep Ho) as (h' & -> & Hrep').
    { intros q. specialize (Hfuel q). lia. }
    apply IH; [done|]. intros q. specialize (Hfuel q).
    pose proof (op_spec_length o F F' q Ho). lia.
Qed.
End programs.
Arguments op : clear implicits.

(** Two headers and the entries 1, 2, 3. *)
Definition empty_links : Ptr.QUEUE bool nat := Ptr.mkQUEUE (fun a => a) (fun a => a).

Lemma empty_links_rep : rep empty_links (fun _ => []).
Proof. split; [done|constructor|]. by intros ???[]%not_elem_of_nil. Qed.

Definition example_ops : list (op bool nat) :=
  [InsertPrev true 1; InsertSorted (fun x => x =? 1) true 2; InsertNext false 3;
   Delete 1; DeleteNext false].

Lemma example_ops_spec :
  ∃ F', ops_spec example_ops (fun _ => []) F' ∧ F' true = [2] ∧ F' false = [].
Proof.
  eexists. split; [|split].
  - eapply specs_cons; [apply spec_insert_prev; by intros []; vm_compute; set_solver|].
    eapply specs_cons; [apply spec_insert_sorted; intros []; vm_compute; set_solver|].
    eapply specs_cons; [apply spec_insert_next; intros []; vm_compute; set_solver|].
    eapply specs_cons; [apply (spec_delete true); vm_compute; set_solver|].
    eapply specs_cons; [|apply specs_nil].
    apply (spec_delete_next _ 3). vm_compute. reflexivity.
  - vm_compute. reflexivity.
  - vm_compute. reflexivity.
Qed.

Lemma queue_refinement_witness :
  ∃ h' F', ops_run 10 example_ops empty_links = Some h' ∧ rep h' F' ∧
    F' true = [2] ∧ F' false = [].
Proof.
  destruct example_ops_spec as (F' & Hos & H1 & H2).
  destruct (queue_refinement 10 example_ops (fun _ => []) F' empty_links empty_links_rep Hos)
    as (h' & Hh & Hrep & _); [intros []; simpl; lia|].
  exists h', F'. split; [exact Hh|]. split; [exact Hrep|]. split; [exact H1|exact H2].
Defined.
