(* ===== verification/Data.v ===== *)
(** * Data of the kernel

    The constants of [kernel.h], [t_stddef.h] and [kernel_impl.h], the control
    blocks of every kernel object, the configuration the configurator
    generates ([kernel_cfg.c], a parameter) and the global state.

    A pointer into a control block table is the index of the block; NULL is
    [None].  The content of an initialization block ([TINIB], [SEMINIB], ...)
    is a field of the control block that points to it.  All task queues
    ([ready_queue], the wait queues inside the object control blocks) are one
    family [wq] indexed by [qid] (file Queue: the links implement it); the
    lists of free control blocks are separate lists. *)

From S2P Require Import Prelude.

(** ** Integers *)

Definition u32 (x : Z) : Z := x `mod` 2^32.
Definition u16 (x : Z) : Z := x `mod` 2^16.

(** Test of a bit field: [(x & m) != 0]. *)
Definition bits (x m : Z) : bool := negb (Z.land x m =? 0)%Z.

Open Scope Z_scope.

(** ** Error codes (include/t_stddef.h) *)
Definition E_OK := 0.
Definition E_SYS := -5.
Definition E_NOSPT := -9.
Definition E_RSATR := -11.
Definition E_PAR := -17.
Definition E_ID := -18.
Definition E_CTX := -25.
Definition E_ILUSE := -28.
Definition E_NOMEM := -33.
Definition E_NOID := -34.
Definition E_OBJ := -41.
Definition E_NOEXS := -42.
Definition E_QOVR := -43.
Definition E_RLWAI := -49.
Definition E_TMOUT := -50.
Definition E_DLT := -51.

(** ** Constants of the service calls (include/kernel.h) *)
Definition TMO_POL := 0.
Definition TMO_FEVR := -1.
Definition TA_NULL := 0.
Definition TA_ACT := 2.
Definition TA_TPRI := 1.
Definition TA_MPRI := 2.
Definition TA_WMUL := 2.
Definition TA_CLR := 4.
Definition TA_CEILING := 3.
Definition TA_STA := 2.
Definition TA_NOEXS := 2^32 - 1.
Definition TA_MEMALLOC := 0x8000.
Definition TA_MBALLOC := 0x4000.
Definition TWF_ORW := 1.
Definition TWF_ANDW := 2.
Definition TTS_RUN := 1.
Definition TTS_RDY := 2.
Definition TTS_WAI := 4.
Definition TTS_SUS := 8.
Definition TTS_WAS := 0xc.
Definition TTS_DMT := 0x10.
Definition TTW_SLP := 1.
Definition TTW_DLY := 2.
Definition TTW_SEM := 4.
Definition TTW_FLG := 8.
Definition TTW_SDTQ := 0x10.
Definition TTW_RDTQ := 0x20.
Definition TTW_SPDQ := 0x100.
Definition TTW_RPDQ := 0x200.
Definition TTW_MBX := 0x40.
Definition TTW_MTX := 0x80.
Definition TTW_MPF := 0x2000.
Definition TTEX_ENA := 1.
Definition TTEX_DIS := 2.
Definition TCYC_STP := 1.
Definition TCYC_STA := 2.
Definition TALM_STP := 1.
Definition TALM_STA := 2.
Definition TSK_SELF := 0.
Definition TSK_NONE := 0.
Definition TPRI_SELF := 0.
Definition TPRI_INI := 0.
Definition TIPM_ENAALL := 0.
Definition TMIN_TPRI := 1.
Definition TMAX_TPRI := 16.
Definition TNUM_TPRI := TMAX_TPRI - TMIN_TPRI + 1.
Definition TMIN_DPRI := 1.
Definition TMAX_DPRI := 16.
Definition TMIN_MPRI := 1.
Definition TMAX_MPRI := 16.
Definition TMIN_ISRPRI := 1.
Definition TMAX_ISRPRI := 16.
Definition TMAX_RELTIM := 2^31 - 1.
Definition TMAX_MAXSEM := 2^32 - 1.

(** ** Task states (kernel/task.h) *)
Definition TS_DORMANT := 0.
Definition TS_RUNNABLE := 1.
Definition TS_WAITING := 2.
Definition TS_SUSPENDED := 4.
Definition TS_WAIT_DLY := Z.shiftl 0 3.
Definition TS_WAIT_SLP := Z.shiftl 1 3.
Definition TS_WAIT_RDTQ := Z.shiftl 2 3.
Definition TS_WAIT_RPDQ := Z.shiftl 3 3.
Definition TS_WAIT_SEM := Z.shiftl 4 3.
Definition TS_WAIT_FLG := Z.shiftl 5 3.
Definition TS_WAIT_SDTQ := Z.shiftl 6 3.
Definition TS_WAIT_SPDQ := Z.shiftl 7 3.
Definition TS_WAIT_MBX := Z.shiftl 8 3.
Definition TS_WAIT_MPF := Z.shiftl 9 3.
Definition TS_WAIT_MTX := Z.shiftl 0xa 3.
Definition TS_WAIT_MASK := Z.shiftl 0xf 3.

Definition TSTAT_DORMANT (tstat : Z) : bool := tstat =? TS_DORMANT.
Definition TSTAT_RUNNABLE (tstat : Z) : bool := bits tstat TS_RUNNABLE.
Definition TSTAT_WAITING (tstat : Z) : bool := bits tstat TS_WAITING.
Definition TSTAT_SUSPENDED (tstat : Z) : bool := bits tstat TS_SUSPENDED.
Definition TSTAT_WAIT_SLP (tstat : Z) : bool := Z.land tstat TS_WAIT_MASK =? TS_WAIT_SLP.
Definition TSTAT_WAIT_MTX (tstat : Z) : bool := Z.land tstat TS_WAIT_MASK =? TS_WAIT_MTX.
Definition TSTAT_WAIT_WOBJ (tstat : Z) : bool := TS_WAIT_RDTQ <=? Z.land tstat TS_WAIT_MASK.
Definition TSTAT_WAIT_WOBJCB (tstat : Z) : bool := TS_WAIT_SEM <=? Z.land tstat TS_WAIT_MASK.

Definition INT_PRIORITY (x : Z) : Z := u32 (x - TMIN_TPRI).
Definition EXT_TSKPRI (x : Z) : Z := x + TMIN_TPRI.

(** ** Queues *)

(** The queue headers a TCB can be linked to. *)
Inductive qid :=
  | RDQ (pri : Z)                        (* ready_queue[pri] *)
  | SEMQ (i : nat) | FLGQ (i : nat)      (* wait_queue of an object *)
  | SDTQ (i : nat) | RDTQ (i : nat)      (* swait_queue, rwait_queue *)
  | SPDQ (i : nat) | RPDQ (i : nat)
  | MBXQ (i : nat) | MPFQ (i : nat) | MTXQ (i : nat).

#[export] Instance qid_eq_dec : EqDecision qid.
Proof. solve_decision. Defined.

(** ** Time events (kernel/time_event.h) *)

(** A TMEVTB is a local variable of the service call that waits (its frame),
    or a field of a cyclic or alarm handler control block. *)
Inductive tmid := TM_TSK (frame : nat) | TM_CYC (i : nat) | TM_ALM (i : nat).

#[export] Instance tmid_eq_dec : EqDecision tmid.
Proof. solve_decision. Defined.

(** The callback functions the kernel registers. *)
Inductive CBACK := wait_tmout_cb | wait_tmout_ok_cb | call_cychdr_cb | call_almhdr_cb.

Record TMEVTB := mkTMEVTB { index : Z; callback : CBACK; arg : nat }.
#[export] Instance eta_TMEVTB : Eta TMEVTB := fun r => mkTMEVTB (index r) (callback r) (arg r).

Record TMEVTN := mkTMEVTN { ev_time : Z; p_tmevtb : tmid }.
#[export] Instance eta_TMEVTN : Eta TMEVTN := fun r => mkTMEVTN (ev_time r) (p_tmevtb r).

Record TM := mkTM {
  tm_current_time : Z; tm_min_time : Z; tm_next_time : Z; tm_next_subtime : Z;
  tm_last_index : Z;
  tm_heap : Z → TMEVTN;       (* tmevt_heap[index - 1] *)
  tm_tmevtb : tmid → TMEVTB }.
#[export] Instance eta_TM : Eta TM := fun r =>
  mkTM (tm_current_time r) (tm_min_time r) (tm_next_time r) (tm_next_subtime r)
    (tm_last_index r) (tm_heap r) (tm_tmevtb r).

(** ** Wait information (kernel/task.h, wait.h and the WINFO_xxx types) *)

(** The union of the error code and the pointer to the time event block. *)
Inductive WINFO := WERCD (wercd : Z) | P_TMEVTB (p : option tmid).

(** The local variable [winfo_xxx] of a service call that waits: the WINFO
    and the fields the object adds. *)
Record WINFO_WOBJ := mkWINFO_WOBJ {
  winfo : WINFO;
  p_wobjcb : option qid;   (* the object, named by its first wait queue *)
  w_data : Z;              (* WINFO_DTQ.data, WINFO_PDQ.data *)
  w_datapri : Z;           (* WINFO_PDQ.datapri *)
  w_waiptn : Z; w_wfmode : Z; w_flgptn : Z;   (* WINFO_FLG *)
  w_pk_msg : Z;            (* WINFO_MBX.pk_msg *)
  w_blk : Z }.             (* WINFO_MPF.blk *)
#[export] Instance eta_WINFO_WOBJ : Eta WINFO_WOBJ := fun r =>
  mkWINFO_WOBJ (winfo r) (p_wobjcb r) (w_data r) (w_datapri r) (w_waiptn r)
    (w_wfmode r) (w_flgptn r) (w_pk_msg r) (w_blk r).

(** ** Tasks *)

Record TINIB := mkTINIB {
  tskatr : Z; exinf : Z; task : Z; ipriority : Z; stksz : Z; stk : Z;
  texatr : Z; texrtn : Z }.
#[export] Instance eta_TINIB : Eta TINIB := fun r =>
  mkTINIB (tskatr r) (exinf r) (task r) (ipriority r) (stksz r) (stk r) (texatr r) (texrtn r).

Record TCB := mkTCB {
  p_tinib : TINIB;
  tstat : Z; bpriority : Z; priority : Z;
  actque : bool; wupque : bool; enatex : bool;
  texptn : Z;
  p_winfo : option nat;           (* the frame of the WINFO *)
  mutex_queue : list nat;         (* the mutexes the task has locked *)
  tskctxb : bool }.               (* a context is prepared (activate_context) *)
#[export] Instance eta_TCB : Eta TCB := fun r =>
  mkTCB (p_tinib r) (tstat r) (bpriority r) (priority r) (actque r) (wupque r)
    (enatex r) (texptn r) (p_winfo r) (mutex_queue r) (tskctxb r).

(** ** Objects *)

Record SEMINIB := mkSEMINIB { sematr : Z; isemcnt : Z; maxsem : Z }.
#[export] Instance eta_SEMINIB : Eta SEMINIB := fun r =>
  mkSEMINIB (sematr r) (isemcnt r) (maxsem r).
Record SEMCB := mkSEMCB { p_seminib : SEMINIB; semcnt : Z }.
#[export] Instance eta_SEMCB : Eta SEMCB := fun r => mkSEMCB (p_seminib r) (semcnt r).

Record FLGINIB := mkFLGINIB { flgatr : Z; iflgptn : Z }.
#[export] Instance eta_FLGINIB : Eta FLGINIB := fun r => mkFLGINIB (flgatr r) (iflgptn r).
Record FLGCB := mkFLGCB { p_flginib : FLGINIB; flgptn : Z }.
#[export] Instance eta_FLGCB : Eta FLGCB := fun r => mkFLGCB (p_flginib r) (flgptn r).

(** [p_dtqmb] is the address of the management area, 0 for NULL. *)
Record DTQINIB := mkDTQINIB { dtqatr : Z; dtqcnt : Z; p_dtqmb : Z }.
#[export] Instance eta_DTQINIB : Eta DTQINIB := fun r =>
  mkDTQINIB (dtqatr r) (dtqcnt r) (p_dtqmb r).
Record DTQCB := mkDTQCB { p_dtqinib : DTQINIB; dtq_count : Z; dtq_head : Z; dtq_tail : Z }.
#[export] Instance eta_DTQCB : Eta DTQCB := fun r =>
  mkDTQCB (p_dtqinib r) (dtq_count r) (dtq_head r) (dtq_tail r).

(** A pointer to a PDQMB is its index in the area of its queue. *)
Record PDQMB := mkPDQMB { pd_next : option Z; pd_data : Z; pd_datapri : Z }.
#[export] Instance eta_PDQMB : Eta PDQMB := fun r =>
  mkPDQMB (pd_next r) (pd_data r) (pd_datapri r).
Record PDQINIB := mkPDQINIB { pdqatr : Z; pdqcnt : Z; maxdpri : Z; p_pdqmb : Z }.
#[export] Instance eta_PDQINIB : Eta PDQINIB := fun r =>
  mkPDQINIB (pdqatr r) (pdqcnt r) (maxdpri r) (p_pdqmb r).
Record PDQCB := mkPDQCB {
  p_pdqinib : PDQINIB; pdq_count : Z; pdq_p_head : option Z; pdq_unused : Z; p_freelist : option Z }.
#[export] Instance eta_PDQCB : Eta PDQCB := fun r =>
  mkPDQCB (p_pdqinib r) (pdq_count r) (pdq_p_head r) (pdq_unused r) (p_freelist r).

(** A message is named by its address, 0 for NULL. *)
Record T_MSG_PRI := mkT_MSG_PRI { pk_next : Z; msgpri : Z }.
#[export] Instance eta_T_MSG_PRI : Eta T_MSG_PRI := fun r =>
  mkT_MSG_PRI (pk_next r) (msgpri r).
Record MBXINIB := mkMBXINIB { mbxatr : Z; maxmpri : Z }.
#[export] Instance eta_MBXINIB : Eta MBXINIB := fun r => mkMBXINIB (mbxatr r) (maxmpri r).
Record MBXCB := mkMBXCB { p_mbxinib : MBXINIB; pk_head : Z; pk_last : Z }.
#[export] Instance eta_MBXCB : Eta MBXCB := fun r =>
  mkMBXCB (p_mbxinib r) (pk_head r) (pk_last r).

Record MPFINIB := mkMPFINIB { mpfatr : Z; blkcnt : Z; blksz : Z; mpf : Z; p_mpfmb : Z }.
#[export] Instance eta_MPFINIB : Eta MPFINIB := fun r =>
  mkMPFINIB (mpfatr r) (blkcnt r) (blksz r) (mpf r) (p_mpfmb r).
Record MPFCB := mkMPFCB { p_mpfinib : MPFINIB; fblkcnt : Z; mpf_unused : Z; freelist : Z }.
#[export] Instance eta_MPFCB : Eta MPFCB := fun r =>
  mkMPFCB (p_mpfinib r) (fblkcnt r) (mpf_unused r) (freelist r).

Record MTXINIB := mkMTXINIB { mtxatr : Z; ceilpri : Z }.
#[export] Instance eta_MTXINIB : Eta MTXINIB := fun r => mkMTXINIB (mtxatr r) (ceilpri r).
Record MTXCB := mkMTXCB { p_mtxinib : MTXINIB; p_loctsk : option nat }.
#[export] Instance eta_MTXCB : Eta MTXCB := fun r => mkMTXCB (p_mtxinib r) (p_loctsk r).

Record CYCINIB := mkCYCINIB {
  cycatr : Z; cyc_exinf : Z; cychdr : Z; cyctim : Z; cycphs : Z }.
#[export] Instance eta_CYCINIB : Eta CYCINIB := fun r =>
  mkCYCINIB (cycatr r) (cyc_exinf r) (cychdr r) (cyctim r) (cycphs r).
Record CYCCB := mkCYCCB { p_cycinib : CYCINIB; cycsta : bool; evttim : Z }.
#[export] Instance eta_CYCCB : Eta CYCCB := fun r =>
  mkCYCCB (p_cycinib r) (cycsta r) (evttim r).

Record ALMINIB := mkALMINIB { almatr : Z; alm_exinf : Z; almhdr : Z }.
#[export] Instance eta_ALMINIB : Eta ALMINIB := fun r =>
  mkALMINIB (almatr r) (alm_exinf r) (almhdr r).
Record ALMCB := mkALMCB { p_alminib : ALMINIB; almsta : bool }.
#[export] Instance eta_ALMCB : Eta ALMCB := fun r => mkALMCB (p_alminib r) (almsta r).

Record ISRINIB := mkISRINIB {
  isratr : Z; isr_exinf : Z; intno : Z; p_isr_queue : nat; isr : Z; isrpri : Z }.
#[export] Instance eta_ISRINIB : Eta ISRINIB := fun r =>
  mkISRINIB (isratr r) (isr_exinf r) (intno r) (p_isr_queue r) (isr r) (isrpri r).

(** ** The state *)

Record SCH := mkSCH { sc_p_schedtsk : option nat; sc_ready_primap : Z }.
#[export] Instance eta_SCH : Eta SCH := fun r => mkSCH (sc_p_schedtsk r) (sc_ready_primap r).

Record VAR := mkVAR {
  v_p_runtsk : option nat; v_reqflg : bool; v_ipmflg : bool; v_disdsp : bool; v_dspflg : bool }.
#[export] Instance eta_VAR : Eta VAR := fun r =>
  mkVAR (v_p_runtsk r) (v_reqflg r) (v_ipmflg r) (v_disdsp r) (v_dspflg r).

(** The part of the processor the kernel reads and writes: the nesting of
    exceptions, the CPU lock, the interrupt mask, the disabled interrupts. *)
Record CPU := mkCPU {
  c_sense_context : bool; c_lock : bool; c_ipm : Z; c_int_disabled : Z → bool; c_kerflg : bool }.
#[export] Instance eta_CPU : Eta CPU := fun r =>
  mkCPU (c_sense_context r) (c_lock r) (c_ipm r) (c_int_disabled r) (c_kerflg r).

Record OBJ := mkOBJ {
  o_semcb : nat → SEMCB; o_free_semcb : list nat;
  o_flgcb : nat → FLGCB; o_free_flgcb : list nat;
  o_dtqcb : nat → DTQCB; o_free_dtqcb : list nat; o_dtqmb : Z → Z → Z;
  o_pdqcb : nat → PDQCB; o_free_pdqcb : list nat; o_pdqmb : Z → Z → PDQMB;
  o_mbxcb : nat → MBXCB; o_free_mbxcb : list nat; o_msg : Z → T_MSG_PRI;
  o_mpfcb : nat → MPFCB; o_free_mpfcb : list nat; o_mpfmb : Z → Z → Z;
  o_mtxcb : nat → MTXCB; o_free_mtxcb : list nat;
  o_cyccb : nat → CYCCB; o_free_cyccb : list nat;
  o_almcb : nat → ALMCB; o_free_almcb : list nat;
  o_isrcb : nat → ISRINIB; o_free_isrcb : list nat; o_isr_queue : nat → list nat;
  o_free_tcb : list nat;
  o_kmm_brk : Z }.
#[export] Instance eta_OBJ : Eta OBJ := fun r =>
  mkOBJ (o_semcb r) (o_free_semcb r) (o_flgcb r) (o_free_flgcb r)
    (o_dtqcb r) (o_free_dtqcb r) (o_dtqmb r) (o_pdqcb r) (o_free_pdqcb r) (o_pdqmb r)
    (o_mbxcb r) (o_free_mbxcb r) (o_msg r) (o_mpfcb r) (o_free_mpfcb r) (o_mpfmb r)
    (o_mtxcb r) (o_free_mtxcb r) (o_cyccb r) (o_free_cyccb r) (o_almcb r) (o_free_almcb r)
    (o_isrcb r) (o_free_isrcb r) (o_isr_queue r) (o_free_tcb r) (o_kmm_brk r).

(** [winfos] holds the WINFO_xxx local variables, indexed by the call's
    frame; [next_frame] is the first frame not yet used. *)
Record State := mkState {
  tcb_table : nat → TCB;
  wq : qid → list nat;
  winfos : nat → WINFO_WOBJ; next_frame : nat;
  sch : SCH; var : VAR; cpu : CPU; tm : TM; obj : OBJ }.
#[export] Instance eta_State : Eta State := fun r =>
  mkState (tcb_table r) (wq r) (winfos r) (next_frame r) (sch r) (var r) (cpu r) (tm r) (obj r).

(** The global variables under the names the code uses. *)
Notation p_schedtsk s := (sc_p_schedtsk (sch s)).
Notation ready_primap s := (sc_ready_primap (sch s)).
Notation p_runtsk s := (v_p_runtsk (var s)).
Notation reqflg s := (v_reqflg (var s)).
Notation ipmflg s := (v_ipmflg (var s)).
Notation disdsp s := (v_disdsp (var s)).
Notation dspflg s := (v_dspflg (var s)).
Notation semcb s := (o_semcb (obj s)).
Notation flgcb s := (o_flgcb (obj s)).
Notation dtqcb s := (o_dtqcb (obj s)).
Notation pdqcb s := (o_pdqcb (obj s)).
Notation mbxcb s := (o_mbxcb (obj s)).
Notation mpfcb s := (o_mpfcb (obj s)).
Notation mtxcb s := (o_mtxcb (obj s)).
Notation cyccb s := (o_cyccb (obj s)).
Notation almcb s := (o_almcb (obj s)).
Notation isrcb s := (o_isrcb (obj s)).

(** ** The configuration (kernel_cfg.c, target_config.h) *)

Class Config := {
  tmax_tskid : Z; tmax_stskid : Z; tinib_table : nat → TINIB; torder_table : list Z;
  tmax_semid : Z; tmax_ssemid : Z; seminib_table : nat → SEMINIB;
  tmax_flgid : Z; tmax_sflgid : Z; flginib_table : nat → FLGINIB;
  tmax_dtqid : Z; tmax_sdtqid : Z; dtqinib_table : nat → DTQINIB;
  tmax_pdqid : Z; tmax_spdqid : Z; pdqinib_table : nat → PDQINIB;
  tmax_mbxid : Z; tmax_smbxid : Z; mbxinib_table : nat → MBXINIB;
  tmax_mpfid : Z; tmax_smpfid : Z; mpfinib_table : nat → MPFINIB;
  tmax_mtxid : Z; tmax_smtxid : Z; mtxinib_table : nat → MTXINIB;
  tmax_cycid : Z; tmax_scycid : Z; cycinib_table : nat → CYCINIB;
  tmax_almid : Z; tmax_salmid : Z; alminib_table : nat → ALMINIB;
  tmax_isrid : Z; tnum_sisr : nat; sisrinib_table : nat → ISRINIB;
  isr_queue_list : list (Z * nat);       (* intno, isr_queue_table index *)
  TIC_NUME : Z; TIC_DENO : Z;
  kmm : Z; kmmsz : Z;
  TARGET_TSKATR : Z; TARGET_ISRATR : Z;
  VALID_INTNO_CREISR : Z → bool; VALID_INTNO_DISINT : Z → bool;
  TMIN_INTPRI : Z;
  (* the interrupt lines with attributes (cfgint_tbl of the chip) *)
  cfgint_tbl : Z → bool;
  (* the CHECK_xxx_ALIGN and CHECK_FUNC_NONNULL macros of the target *)
  FUNC_ALIGNED : Z → bool; FUNC_NONNULL : Z → bool; STKSZ_ALIGNED : Z → bool;
  STACK_ALIGNED : Z → bool; MPF_ALIGNED : Z → bool; MB_ALIGNED : Z → bool;
  TARGET_MIN_STKSZ : Z;
  ROUND_STK_T : Z → Z; ROUND_MPF_T : Z → Z }.

(** Number of objects, and identifiers to indices and back; the smallest
    identifier of every kind of object is 1. *)
Definition tnum (tmax_id : Z) : nat := Z.to_nat (tmax_id - 1 + 1).
Definition INDEX (id : Z) : nat := Z.to_nat (id - 1).
Definition IDOF (i : nat) : Z := Z.of_nat i + 1.
Definition VALID_ID (tmax_id id : Z) : bool := (1 <=? id) && (id <=? tmax_id).

(** ** Updates *)

Definition upd_tcb (t : nat) (f : TCB → TCB) (s : State) : State :=
  s <| tcb_table ::= fun T => <[t := f (T t)]> T |>.
Definition upd_winfo (w : nat) (f : WINFO_WOBJ → WINFO_WOBJ) (s : State) : State :=
  s <| winfos ::= fun W => <[w := f (W w)]> W |>.
Definition upd_wq (f : (qid → list nat) → qid → list nat) (s : State) : State :=
  s <| wq ::= f |>.
Definition upd_sch (f : SCH → SCH) (s : State) : State := s <| sch ::= f |>.
Definition upd_var (f : VAR → VAR) (s : State) : State := s <| var ::= f |>.
Definition upd_cpu (f : CPU → CPU) (s : State) : State := s <| cpu ::= f |>.
Definition upd_tm (f : TM → TM) (s : State) : State := s <| tm ::= f |>.
Definition upd_obj (f : OBJ → OBJ) (s : State) : State := s <| obj ::= f |>.
Close Scope Z_scope.
