(* ===== verification/Bits.v ===== *)
(** * Bit fields of machine words

    Single bits and fields of a word that is a [Z], and the word that is left
    when one field is replaced: what drivers do to device registers. *)

From S2P Require Import Prelude Data.
Open Scope Z_scope.

Definition u8 (x : Z) : Z := x `mod` 2^8.

(** ** Single bits *)

Lemma bits_testbit x k : 0 ≤ k → bits x (2^k) = Z.testbit x k.
Proof.
  intros Hk. unfold bits. destruct (Z.testbit x k) eqn:E.
  - apply negb_true_iff, Z.eqb_neq. intros E0. assert (Ht : Z.testbit (Z.land x (2^k)) k = false) by (by rewrite E0, Z.bits_0).
    rewrite Z.land_spec, E, Z.pow2_bits_true in Ht by done. done.
  - apply negb_false_iff, Z.eqb_eq, Z.bits_inj_0. intros n. rewrite Z.land_spec.
    destruct (Z.eq_dec k n) as [<-|Hne]; [by rewrite E|]. rewrite Z.pow2_bits_false by done. by rewrite andb_false_r.
Qed.

Lemma bits_lor x j k : 0 ≤ j → 0 ≤ k → bits (Z.lor x (2^j)) (2^k) = (k =? j) || bits x (2^k).
Proof.
  intros Hj Hk. rewrite !bits_testbit, Z.lor_spec, Z.pow2_bits_eqb by done. rewrite orb_comm. f_equal. lia.
Qed.

Lemma bits_clear x j k : 0 ≤ j → 0 ≤ k → bits (Z.land x (Z.lnot (2^j))) (2^k) = negb (k =? j) && bits x (2^k).
Proof.
  intros Hj Hk. rewrite !bits_testbit, Z.land_spec, Z.lnot_spec, Z.pow2_bits_eqb by done. rewrite andb_comm. do 2 f_equal. lia.
Qed.

Lemma land_pow2 x k : 0 ≤ k → Z.land x (2^k) = if Z.testbit x k then 2^k else 0.
Proof.
  intros Hk. apply Z.bits_inj'. intros i Hi. rewrite Z.land_spec, Z.pow2_bits_eqb by done.
  destruct (Z.eqb_spec k i) as [<-|Hne].
  - destruct (Z.testbit x k); [by rewrite Z.pow2_bits_true|by rewrite Z.bits_0].
  - rewrite andb_false_r. destruct (Z.testbit x k); [by rewrite Z.pow2_bits_false|by rewrite Z.bits_0].
Qed.

(** ** Ranges *)

Lemma shiftr_small x n : 0 ≤ n → 0 ≤ x < 2^n ↔ 0 ≤ x ∧ Z.shiftr x n = 0.
Proof.
  intros Hn. pose proof (Z.pow_pos_nonneg 2 n). rewrite Z.shiftr_div_pow2 by done. split.
  - intros Hx. split; [lia|]. by apply Z.div_small.
  - intros [Hx Hd]. apply Z.div_small_iff in Hd; lia.
Qed.

Lemma lor_range x y n : 0 ≤ n → 0 ≤ x < 2^n → 0 ≤ y < 2^n → 0 ≤ Z.lor x y < 2^n.
Proof.
  intros Hn Hx Hy. apply shiftr_small in Hx as [Hx Hx'], Hy as [Hy Hy']; [|done..]. apply shiftr_small; [done|].
  rewrite Z.shiftr_lor, Hx', Hy'. split; [by apply Z.lor_nonneg|done].
Qed.

Lemma land_range x y n : 0 ≤ n → 0 ≤ x < 2^n → 0 ≤ Z.land x y < 2^n.
Proof.
  intros Hn Hx. apply shiftr_small in Hx as [Hx Hx']; [|done]. apply shiftr_small; [done|].
  rewrite Z.shiftr_land, Hx', Z.land_0_l. split; [apply Z.land_nonneg; by left|done].
Qed.

Lemma u32_range x : 0 ≤ u32 x < 2^32.
Proof. apply Z.mod_pos_bound. lia. Qed.
Lemma u8_range x : 0 ≤ u8 x < 2^8.
Proof. apply Z.mod_pos_bound. lia. Qed.
Lemma u32_id x : 0 ≤ x < 2^32 → u32 x = x.
Proof. apply Z.mod_small. Qed.
Lemma u8_id x : 0 ≤ x < 2^8 → u8 x = x.
Proof. apply Z.mod_small. Qed.

(** ** Equality bit by bit *)

Lemma testbit_high x n i : 0 ≤ n → 0 ≤ x < 2^n → n ≤ i → Z.testbit x i = false.
Proof.
  intros Hn Hx Hi. rewrite <- (Z.mod_small x (2^n)) by done. apply Z.mod_pow2_bits_high. lia.
Qed.

Lemma testbit_u32 x i : 0 ≤ i → Z.testbit (u32 x) i = (i <? 32) && Z.testbit x i.
Proof.
  intros Hi. unfold u32. destruct (Z.ltb_spec i 32); simpl.
  - apply Z.mod_pow2_bits_low. lia.
  - apply Z.mod_pow2_bits_high. lia.
Qed.

(** The bits of an expression of masks and shifts. *)
Ltac bit_spec :=
  repeat first
    [ rewrite Z.land_spec | rewrite Z.lor_spec | rewrite Z.lnot_spec by lia
    | rewrite testbit_u32 by lia | rewrite Z.shiftl_spec by lia | rewrite Z.shiftr_spec by lia
    | rewrite Z.testbit_ones by lia | rewrite Z.bits_0 ].

Ltac bit_cases :=
  repeat match goal with
  | |- context [?a <? ?b] => destruct (Z.ltb_spec a b); try lia
  | |- context [?a <=? ?b] => destruct (Z.leb_spec a b); try lia
  | |- context [Z.testbit _ ?i] => rewrite (Z.testbit_neg_r _ i) by lia
  end; rewrite ?andb_false_l, ?andb_false_r, ?andb_true_l, ?andb_true_r, ?orb_false_l, ?orb_false_r, ?orb_true_r; simpl.

Ltac bitwise i := apply Z.bits_inj'; intros i ?; bit_spec; bit_cases.

(** ** Fields *)

(** The [w] bits of [x] from bit [o] on. *)
Definition field (o w x : Z) : Z := Z.land (Z.shiftr x o) (Z.ones w).

(** [x &= ~(mask << o); x |= (mask & v) << o], in 32-bit arithmetic. *)
Definition put_field (o w v x : Z) : Z :=
  Z.lor (Z.land x (u32 (Z.lnot (Z.shiftl (Z.ones w) o)))) (u32 (Z.shiftl (Z.land (Z.ones w) v) o)).

Section fields.
Implicit Types o w v x : Z.

Lemma put_field_range o w v x : 0 ≤ o → 0 ≤ w → 0 ≤ x < 2^32 → 0 ≤ put_field o w v x < 2^32.
Proof. intros Ho Hw Hx. apply lor_range; [done|by apply land_range|apply u32_range]. Qed.

Lemma field_put_same o w v x : 0 ≤ o → 0 ≤ w → o + w ≤ 32 → 0 ≤ v < 2^w → field o w (put_field o w v x) = v.
Proof.
  intros Ho Hw How Hv. unfold field, put_field. bitwise i.
  - f_equal. lia.
  - symmetry. apply (testbit_high v w); lia.
  - symmetry. apply (testbit_high v w); lia.
Qed.

Lemma field_put_other o w v x o' w' :
  0 ≤ o → 0 ≤ w → 0 ≤ o' → 0 ≤ w' → o + w ≤ 32 → o' + w' ≤ 32 → o + w ≤ o' ∨ o' + w' ≤ o →
  field o' w' (put_field o w v x) = field o' w' x.
Proof. intros ?????? [?|?]; unfold field, put_field; bitwise i; done.
Qed.

Lemma field_land o w x y : 0 ≤ o → 0 ≤ w → field o w (Z.land x y) = Z.land (field o w x) (field o w y).
Proof.
  intros Ho Hw. unfold field. apply Z.bits_inj'; intros i Hi. bit_spec.
  destruct ((0 <=? i) && (i <? w)); by rewrite ?andb_true_r, ?andb_false_r.
Qed.

Lemma field_range o w x : 0 ≤ w → 0 ≤ field o w x < 2^w.
Proof.
  intros Hw. unfold field. rewrite Z.land_ones by done. apply Z.mod_pos_bound. by apply Z.pow_pos_nonneg.
Qed.
End fields.
