(* ===== verification/Kmonad.v ===== *)
(** * Kernel code as a monad

    A kernel function is a [K A]: from a state it returns a value and a state
    ([RET]), gives the processor away and goes on from the state it finds when
    it is resumed ([YIELD]), or does what the C code must not do ([UB]: a
    failed assertion, a NULL [p_runtsk], a read of the wrong member of WINFO,
    an entry taken from an empty queue, a loop that exceeds its bound).

    The places where the code yields are [dispatch()], [exit_and_dispatch()],
    the window in [wait_tmout] where interrupts are accepted, and the calls of
    user code (task exception routines, cyclic and alarm handlers, interrupt
    service routines). *)

From S2P Require Import Prelude Data.

Inductive event :=
  | Dispatch                                  (* dispatch() *)
  | ExitAndDispatch                           (* exit_and_dispatch(), no return *)
  | Window                                    (* i_unlock_cpu(); i_lock_cpu() *)
  | CallTex (t : nat) (texptn exinf : Z)      (* call of a task exception routine *)
  | CallCyc (i : nat) (exinf : Z)             (* call of a cyclic handler *)
  | CallAlm (i : nat) (exinf : Z)             (* call of an alarm handler *)
  | CallIsr (i : nat) (exinf : Z)             (* call of an interrupt service routine *)
  | StartDispatch                             (* start_dispatch(), no return *)
  | CallExitKernel                            (* call_exit_kernel(), no return *)
  | OutOfRounds.                              (* the bound on calls of user code is reached *)

Inductive res (A : Type) :=
  | RET (a : A) (s : State)
  | YIELD (e : event) (s : State) (k : State → res A)
  | UB.
Arguments RET {A}. Arguments YIELD {A}. Arguments UB {A}.

Definition K (A : Type) := State → res A.

Definition ret {A} (a : A) : K A := fun s => RET a s.

Fixpoint rbind {A B} (m : res A) (f : A → K B) : res B :=
  match m with
  | RET a s => f a s
  | YIELD e s k => YIELD e s (fun s' => rbind (k s') f)
  | UB => UB
  end.

Definition bind {A B} (m : K A) (f : A → K B) : K B := fun s => rbind (m s) f.

(** Reading, updating, asserting, yielding. *)
Definition kget {B} (f : State → K B) : K B := fun s => f s s.
Definition upd (f : State → State) : K () := fun s => RET () (f s).
Definition kassert (b : State → bool) : K () := fun s => if b s then RET () s else UB.
Definition undef {A} : K A := fun _ => UB.
Definition yield (e : event) : K () := fun s => YIELD e s (RET ()).
(** A call that does not return: whatever resumes it is undefined. *)
Definition yield_noreturn {A} (e : event) : K A := fun s => YIELD e s (fun _ => UB).

Notation "x <- m ;; k" := (bind m (fun x => k))
  (at level 100, m at next level, right associativity) : asp_scope.
Notation "' p <- m ;; k" := (bind m (fun x => match x with p => k end))
  (at level 100, p pattern, m at next level, right associativity) : asp_scope.
Notation "m ;;; k" := (bind m (fun _ => k))
  (at level 100, right associativity) : asp_scope.
(** [get s ;; k]: [k] with [s] the current state. *)
Notation "'get' s ;; k" := (kget (fun s => k))
  (at level 100, s name, right associativity) : asp_scope.
(** A check macro of [check.h]: an early return around the rest. *)
Notation "! c ;; k" := (c k) (at level 100, c at level 99, right associativity, only parsing) : asp_scope.

Section optional.
Context {A B : Type}.
(** Dereference of a pointer that must not be NULL. *)
Definition deref (o : option A) (f : A → K B) : K B :=
  match o with Some a => f a | None => undef end.
End optional.
Notation "'the' x ':=' o ;; k" := (deref o (fun x => k))
  (at level 100, x name, o at next level, right associativity) : asp_scope.

(** ** The processor (arch/arm_gcc/common/core_config.h)

    [t_lock_cpu] and [i_lock_cpu] are the same function on the target, and so
    are the other pairs. *)
Definition lock_cpu : K () := upd (upd_cpu (fun c => c <| c_lock := true |>)).
Definition unlock_cpu : K () := upd (upd_cpu (fun c => c <| c_lock := false |>)).
Definition sense_lock (s : State) : bool := c_lock (cpu s).
Definition sense_context (s : State) : bool := c_sense_context (cpu s).
Definition set_ipm (ipm : Z) : K () := upd (upd_cpu (fun c => c <| c_ipm := ipm |>)).
Definition get_ipm_ (s : State) : Z := c_ipm (cpu s).

Definition dispatch : K () := yield Dispatch.

(** ** The check macros (kernel/check.h)

    Each takes the rest of the function and skips it when the check fails. *)
(** How a service call that only returns an error code does it; one that has
    an out parameter leaves it unset. *)
Class Err (A : Type) := err : Z → A.
#[export] Instance err_Z : Err Z := fun e => e.
#[export] Instance err_out {B} : Err (Z * option B) := fun e => (e, None).

Section check.
Context {cfg : Config}.
Open Scope Z_scope.

Context {A : Type} `{Err A}.

Definition check (bad : State → bool) (ercd : Z) (k : K A) : K A :=
  fun s => if bad s then RET (err ercd) s else k s.

Definition CHECK_TSKCTX : K A → K A := check sense_context E_CTX.
Definition CHECK_INTCTX : K A → K A := check (fun s => negb (sense_context s)) E_CTX.
Definition CHECK_TSKCTX_UNL : K A → K A :=
  check (fun s => sense_context s || sense_lock s) E_CTX.
Definition CHECK_INTCTX_UNL : K A → K A :=
  check (fun s => negb (sense_context s) || sense_lock s) E_CTX.
Definition CHECK_DISPATCH : K A → K A :=
  check (fun s => sense_context s || sense_lock s || negb (dspflg s)) E_CTX.
Definition CHECK_CTX (b : State → bool) : K A → K A := check (fun s => negb (b s)) E_CTX.
Definition CHECK_ILUSE (b : State → bool) : K A → K A := check (fun s => negb (b s)) E_ILUSE.
Definition CHECK_NONSELF (p_tcb : option nat) : K A → K A :=
  check (fun s => bool_decide (p_tcb = p_runtsk s)) E_ILUSE.
Definition CHECK_PAR (b : bool) : K A → K A := check (fun _ => negb b) E_PAR.
Definition CHECK_ID (b : bool) : K A → K A := check (fun _ => negb b) E_ID.
Definition CHECK_OBJ (b : bool) : K A → K A := check (fun _ => negb b) E_OBJ.
Definition CHECK_NOSPT (b : bool) : K A → K A := check (fun _ => negb b) E_NOSPT.
Definition CHECK_RSATR (atr valid_atr : Z) : K A → K A :=
  check (fun _ => bits atr (u32 (Z.lnot valid_atr))) E_RSATR.

Definition VALID_TPRI (p : Z) : bool := (TMIN_TPRI <=? p) && (p <=? TMAX_TPRI).
Definition VALID_DPRI (p : Z) : bool := (TMIN_DPRI <=? p) && (p <=? TMAX_DPRI).
Definition VALID_MPRI (p : Z) : bool := (TMIN_MPRI <=? p) && (p <=? TMAX_MPRI).
Definition VALID_ISRPRI (p : Z) : bool := (TMIN_ISRPRI <=? p) && (p <=? TMAX_ISRPRI).
Definition VALID_INTPRI_CHGIPM (p : Z) : bool := (TMIN_INTPRI <=? p) && (p <=? TIPM_ENAALL).

Definition CHECK_TPRI (p : Z) : K A → K A := CHECK_PAR (VALID_TPRI p).
Definition CHECK_TPRI_INI (p : Z) : K A → K A := CHECK_PAR (VALID_TPRI p || (p =? TPRI_INI)).
Definition CHECK_TPRI_SELF (p : Z) : K A → K A := CHECK_PAR (VALID_TPRI p || (p =? TPRI_SELF)).
Definition CHECK_DPRI (p : Z) : K A → K A := CHECK_PAR (VALID_DPRI p).
Definition CHECK_MPRI (p : Z) : K A → K A := CHECK_PAR (VALID_MPRI p).
Definition CHECK_ISRPRI (p : Z) : K A → K A := CHECK_PAR (VALID_ISRPRI p).
Definition CHECK_TMOUT (tmout : Z) : K A → K A := CHECK_PAR (TMO_FEVR <=? tmout).
Definition CHECK_INTPRI_CHGIPM (p : Z) : K A → K A := CHECK_PAR (VALID_INTPRI_CHGIPM p).
Definition CHECK_INTNO_CREISR (n : Z) : K A → K A := CHECK_PAR (VALID_INTNO_CREISR n).
Definition CHECK_INTNO_DISINT (n : Z) : K A → K A := CHECK_PAR (VALID_INTNO_DISINT n).
Definition CHECK_ALIGN_FUNC (f : Z) : K A → K A := CHECK_PAR (FUNC_ALIGNED f).
Definition CHECK_NONNULL_FUNC (f : Z) : K A → K A := CHECK_PAR (FUNC_NONNULL f).
Definition CHECK_ALIGN_STKSZ (x : Z) : K A → K A := CHECK_PAR (STKSZ_ALIGNED x).
Definition CHECK_ALIGN_STACK (x : Z) : K A → K A := CHECK_PAR (STACK_ALIGNED x).
Definition CHECK_ALIGN_MPF (x : Z) : K A → K A := CHECK_PAR (MPF_ALIGNED x).
Definition CHECK_ALIGN_MB (x : Z) : K A → K A := CHECK_PAR (MB_ALIGNED x).
Definition CHECK_TSKID (id : Z) : K A → K A := CHECK_ID (VALID_ID tmax_tskid id).
Definition CHECK_TSKID_SELF (id : Z) : K A → K A :=
  CHECK_ID (VALID_ID tmax_tskid id || (id =? TSK_SELF)).
Definition CHECK_SEMID (id : Z) : K A → K A := CHECK_ID (VALID_ID tmax_semid id).
Definition CHECK_FLGID (id : Z) : K A → K A := CHECK_ID (VALID_ID tmax_flgid id).
Definition CHECK_DTQID (id : Z) : K A → K A := CHECK_ID (VALID_ID tmax_dtqid id).
Definition CHECK_PDQID (id : Z) : K A → K A := CHECK_ID (VALID_ID tmax_pdqid id).
Definition CHECK_MBXID (id : Z) : K A → K A := CHECK_ID (VALID_ID tmax_mbxid id).
Definition CHECK_MTXID (id : Z) : K A → K A := CHECK_ID (VALID_ID tmax_mtxid id).
Definition CHECK_MPFID (id : Z) : K A → K A := CHECK_ID (VALID_ID tmax_mpfid id).
Definition CHECK_CYCID (id : Z) : K A → K A := CHECK_ID (VALID_ID tmax_cycid id).
Definition CHECK_ALMID (id : Z) : K A → K A := CHECK_ID (VALID_ID tmax_almid id).
Definition CHECK_ISRID (id : Z) : K A → K A := CHECK_ID (VALID_ID tmax_isrid id).
End check.

(** ** Weakest preconditions

    [wp R G Q m]: every run of [m] avoids [UB], yields only in states that
    satisfy [G], and, when each resumption state is related to the yield
    state by [R], returns in a state that satisfies [Q]. *)
Section wp.
Context (R : event → State → State → Prop) (G : event → State → Prop).

Fixpoint wp {A} (Q : A → State → Prop) (m : res A) : Prop :=
  match m with
  | RET a s => Q a s
  | YIELD e s k => G e s ∧ ∀ s', R e s s' → wp Q (k s')
  | UB => False
  end.

Lemma wp_rbind {A B} (Q : B → State → Prop) (m : res A) (f : A → K B) :
  wp (fun a s => wp Q (f a s)) m → wp Q (rbind m f).
Proof.
  induction m as [a s|e s k IH|]; simpl; [done| |done].
  intros [HG Hk]. split; [done|]. intros s' HR. apply IH. by apply Hk.
Qed.

Lemma wp_bind {A B} (Q : B → State → Prop) (m : K A) (f : A → K B) s :
  wp (fun a s => wp Q (f a s)) (m s) → wp Q (bind m f s).
Proof. apply wp_rbind. Qed.

(** A part [bind m f] of a longer computation is proved on its own. *)
Lemma wp_part {A B C} (Q : C → State → Prop) (m : K A) (f : A → K B) (h : B → K C) (f' : A → K C) s :
  (∀ a s, f' a s = bind (f a) h s) → wp (fun b s => wp Q (h b s)) (bind m f s) → wp Q (bind m f' s).
Proof.
  intros Hf. unfold bind in *. induction (m s) as [a s'|e s' k IH|]; simpl; [| |done].
  - rewrite Hf. apply wp_rbind.
  - intros [HG Hk]. split; [done|]. intros s2 HR. by apply IH, Hk.
Qed.

Lemma wp_mono {A} (P Q : A → State → Prop) (m : res A) :
  wp P m → (∀ a s, P a s → Q a s) → wp Q m.
Proof.
  intros Hm HPQ. induction m as [a s|e s k IH|]; simpl in *; [by apply HPQ| |done].
  destruct Hm as [HG Hk]. split; [done|]. intros s' HR. apply IH. by apply Hk.
Qed.

Lemma wp_check {A} `{Err A} (bad : State → bool) (ercd : Z) (k : K A) s Q :
  (bad s = true → Q (err ercd) s) → (bad s = false → wp Q (k s)) → wp Q (check bad ercd k s).
Proof. unfold check. destruct (bad s); simpl; auto. Qed.

Lemma wp_yield e s (Q : () → State → Prop) :
  G e s → (∀ s', R e s s' → Q () s') → wp Q (yield e s).
Proof. by split. Qed.
End wp.
