(* ===== verification/TimeEvent.v ===== *)
(** * Time event heap (kernel/time_event.c, time_event.h)

    A binary heap of nodes (event time, pointer to TMEVTB), numbered from 1, ordered by the
    event time relative to [min_time] modulo 2^32; every registered TMEVTB
    holds the index of its node.  The insertion and the deletions move an
    empty node up or down to the place where the new or the last node goes.

    [heap_ok] is the invariant; [evt] reads the heap as a finite map from
    registered blocks to event times, and the specifications of the operations
    are the map operations.  [signal_time], which calls the handlers, is in
    file TimeManage. *)

From Stdlib Require Import Zwf.
From S2P Require Import Prelude Data Kmonad.
Open Scope Z_scope.

Local Ltac Zify.zify_post_hook ::= Z.to_euclidean_division_equations.

Section time_event.
Context {cfg : Config}.
Implicit Types (m : TM) (b : tmid) (i : Z).

Definition PARENT (index : Z) : Z := Z.shiftr index 1.
Definition LCHILD (index : Z) : Z := Z.shiftl index 1.

(** Event time relative to [min_time]. *)
Definition evtkey m (t : Z) : Z := u32 (t - tm_min_time m).
Definition EVTTIM_LT m (t1 t2 : Z) : bool := evtkey m t1 <? evtkey m t2.
Definition EVTTIM_LE m (t1 t2 : Z) : bool := evtkey m t1 <=? evtkey m t2.

Definition set_node i (n : TMEVTN) m : TM := m <| tm_heap ::= fun h => <[i := n]> h |>.
Definition upd_tmevtb b (f : TMEVTB → TMEVTB) m : TM :=
  m <| tm_tmevtb ::= fun T => <[b := f (T b)]> T |>.

(** [TMEVT_NODE(index) = n; TMEVT_NODE(index).p_tmevtb->index = index;] *)
Definition put_node i (n : TMEVTN) m : TM :=
  upd_tmevtb (p_tmevtb n) (fun r => r <| index := i |>) (set_node i n m).

(** The loop of [tmevt_up]; [None] when [fuel] iterations are not enough. *)
Fixpoint tmevt_up_loop (fuel : nat) (index time : Z) m : option (Z * TM) :=
  match fuel with
  | O => None
  | S fuel =>
      if 1 <? index then
        let parent := PARENT index in
        if EVTTIM_LE m (ev_time (tm_heap m parent)) time then Some (index, m)
        else tmevt_up_loop fuel parent time (put_node index (tm_heap m parent) m)
      else Some (index, m)
  end.

Definition tmevt_up (index time : Z) m : option (Z * TM) :=
  tmevt_up_loop (S (Z.to_nat index)) index time m.

(** The child of [index] with the earlier event time. *)
Definition early_child index m : Z :=
  let child := LCHILD index in
  if (child + 1 <=? tm_last_index m)
     && EVTTIM_LT m (ev_time (tm_heap m (child + 1))) (ev_time (tm_heap m child))
  then child + 1 else child.

Fixpoint tmevt_down_loop (fuel : nat) (index time : Z) m : option (Z * TM) :=
  match fuel with
  | O => None
  | S fuel =>
      if LCHILD index <=? tm_last_index m then
        let child := early_child index m in
        if EVTTIM_LE m time (ev_time (tm_heap m child)) then Some (index, m)
        else tmevt_down_loop fuel child time (put_node index (tm_heap m child) m)
      else Some (index, m)
  end.

Definition tmevt_down (index time : Z) m : option (Z * TM) :=
  tmevt_down_loop (S (Z.to_nat (tm_last_index m))) index time m.

Definition tmevtb_insert (p_tmevtb : tmid) (time : Z) m : option TM :=
  let m := m <| tm_last_index ::= Z.add 1 |> in
  match tmevt_up (tm_last_index m) time m with
  | Some (index, m) => Some (put_node index (mkTMEVTN time p_tmevtb) m)
  | None => None
  end.

Definition tmevtb_delete (p_tmevtb : tmid) m : option TM :=
  let index := index (tm_tmevtb m p_tmevtb) in
  let event_time := ev_time (tm_heap m (tm_last_index m)) in
  let m := m <| tm_last_index ::= fun n => n - 1 |> in
  if tm_last_index m =? 0 then Some m
  else
    let parent := PARENT index in
    match (if (1 <? index) && EVTTIM_LT m event_time (ev_time (tm_heap m parent))
           then tmevt_up parent event_time (put_node index (tm_heap m parent) m)
           else tmevt_down index event_time m) with
    | Some (index, m) => Some (put_node index (tm_heap m (tm_last_index m + 1)) m)
    | None => None
    end.

Definition tmevtb_delete_top m : option TM :=
  let event_time := ev_time (tm_heap m (tm_last_index m)) in
  let m := m <| tm_last_index ::= fun n => n - 1 |> in
  if tm_last_index m =? 0 then Some m
  else
    match tmevt_down 1 event_time m with
    | Some (index, m) => Some (put_node index (tm_heap m (tm_last_index m + 1)) m)
    | None => None
    end.

Definition base_time m : Z :=
  if TIC_DENO =? 1 then tm_next_time m
  else u32 (tm_next_time m + (if 0 <? tm_next_subtime m then 1 else 0)).

Definition initialize_tmevt m : TM :=
  let m := m <| tm_current_time := 0 |> in
  let m := m <| tm_min_time := 0 |> in
  let m := m <| tm_next_time := u32 (tm_current_time m + TIC_NUME / TIC_DENO) |> in
  let m := m <| tm_next_subtime := TIC_NUME `mod` TIC_DENO |> in
  m <| tm_last_index := 0 |>.

Definition tmevt_lefttim (p_tmevtb : tmid) m : Z :=
  let time := ev_time (tm_heap m (index (tm_tmevtb m p_tmevtb))) in
  if EVTTIM_LE m time (tm_next_time m) then 0
  else u32 (time - base_time m).

(** *** The heap as kernel code *)

Definition on_tm (f : TM → option TM) : K () := fun s =>
  match f (tm s) with
  | Some m => RET () (upd_tm (fun _ => m) s)
  | None => UB
  end.

Definition tmevtb_enqueue (p_tmevtb : tmid) (time : Z) (cb : CBACK) (a : nat) : K () :=
  kassert (fun _ => time <=? TMAX_RELTIM) ;;;
  upd (upd_tm (upd_tmevtb p_tmevtb (fun r => r <| callback := cb |> <| arg := a |>))) ;;;
  on_tm (fun m => tmevtb_insert p_tmevtb (u32 (base_time m + time)) m).

Definition tmevtb_enqueue_evttim (p_tmevtb : tmid) (time : Z) (cb : CBACK) (a : nat) : K () :=
  upd (upd_tm (upd_tmevtb p_tmevtb (fun r => r <| callback := cb |> <| arg := a |>))) ;;;
  on_tm (tmevtb_insert p_tmevtb time).

Definition tmevtb_dequeue (p_tmevtb : tmid) : K () := on_tm (tmevtb_delete p_tmevtb).

(** ** The invariant and the abstract map *)

Definition slot m i : Prop := 1 ≤ i ≤ tm_last_index m.
Definition key m i : Z := evtkey m (ev_time (tm_heap m i)).

Record heap_ok m : Prop := {
  heap_last : 0 ≤ tm_last_index m;
  heap_index : ∀ i, slot m i → index (tm_tmevtb m (p_tmevtb (tm_heap m i))) = i;
  heap_order : ∀ i, slot m i → 2 ≤ i → key m (PARENT i) ≤ key m i }.

(** The event time a block is registered with. *)
Definition evt m b : option Z :=
  let i := index (tm_tmevtb m b) in
  if (1 <=? i) && (i <=? tm_last_index m) && bool_decide (p_tmevtb (tm_heap m i) = b)
  then Some (ev_time (tm_heap m i)) else None.

(** ** Proofs *)

Lemma PARENT_div i : PARENT i = i / 2.
Proof. unfold PARENT. by rewrite Z.shiftr_div_pow2. Qed.
Lemma LCHILD_mul i : LCHILD i = 2 * i.
Proof. unfold LCHILD. rewrite Z.shiftl_mul_pow2 by lia. lia. Qed.

Lemma evt_Some m b t :
  heap_ok m → evt m b = Some t ↔ ∃ i, slot m i ∧ tm_heap m i = mkTMEVTN t b.
Proof.
  intros [_ Hi _]. unfold evt. split.
  - set (i := index (tm_tmevtb m b)).
    destruct (1 <=? i) eqn:H1; simpl; [|done]. destruct (i <=? tm_last_index m) eqn:H2; simpl; [|done].
    case_bool_decide as Hb; [|done]. intros [= <-]. exists i. split; [unfold slot; lia|].
    rewrite <- Hb. by destruct (tm_heap m i).
  - intros (i & Hs & Hn). pose proof (Hi i Hs) as Hx. rewrite Hn in Hx; simpl in Hx. rewrite Hx.
    unfold slot in Hs. rewrite (proj2 (Z.leb_le 1 i)), (proj2 (Z.leb_le i _)) by lia; simpl.
    rewrite Hn; simpl. by rewrite bool_decide_true.
Qed.

Lemma evt_None m b :
  heap_ok m → evt m b = None ↔ ∀ i, slot m i → p_tmevtb (tm_heap m i) ≠ b.
Proof.
  intros Hok. split.
  - intros Hn i Hs Hb. assert (evt m b = Some (ev_time (tm_heap m i))) as Hx; [|congruence].
    apply evt_Some; [done|]. exists i. split; [done|]. rewrite <- Hb. by destruct (tm_heap m i).
  - intros Hall. destruct (evt m b) as [t|] eqn:Ht; [|done].
    apply evt_Some in Ht as (i & Hs & Hn); [|done]. exfalso. apply (Hall i Hs). by rewrite Hn.
Qed.

(** The heap with an empty node: [hole] holds no event. *)
Record hole_ok m hole : Prop := {
  hole_pos : 1 ≤ hole;
  hole_index : ∀ i, slot m i → i ≠ hole → index (tm_tmevtb m (p_tmevtb (tm_heap m i))) = i;
  hole_order : ∀ i, slot m i → 2 ≤ i → i ≠ hole → i / 2 ≠ hole → key m (i / 2) ≤ key m i;
  hole_skip : ∀ i, slot m i → i / 2 = hole → 2 ≤ hole → key m (hole / 2) ≤ key m i }.

Definition holds m hole (n : TMEVTN) : Prop := ∃ i, slot m i ∧ i ≠ hole ∧ tm_heap m i = n.

(** What the moves of the empty node keep. *)
Record same_events m m' : Prop := {
  same_last : tm_last_index m' = tm_last_index m;
  same_min : tm_min_time m' = tm_min_time m;
  same_time : tm_current_time m' = tm_current_time m ∧ tm_next_time m' = tm_next_time m ∧
    tm_next_subtime m' = tm_next_subtime m;
  same_callback : ∀ b, callback (tm_tmevtb m' b) = callback (tm_tmevtb m b) ∧
    arg (tm_tmevtb m' b) = arg (tm_tmevtb m b);
  same_above : ∀ i, tm_last_index m < i → tm_heap m' i = tm_heap m i }.

Lemma same_events_refl m : same_events m m.
Proof. by split. Qed.

Lemma same_events_trans m1 m2 m3 : same_events m1 m2 → same_events m2 m3 → same_events m1 m3.
Proof.
  intros [A1 A2 (A3 & A4 & A5) A6 A7] [B1 B2 (B3 & B4 & B5) B6 B7].
  split; [congruence..| | |].
  - split_and!; congruence.
  - intros b. destruct (A6 b), (B6 b). split; congruence.
  - intros i Hi. rewrite B7, A7; [done|lia|lia].
Qed.

Lemma put_node_heap i n m j : tm_heap (put_node i n m) j = if decide (i = j) then n else tm_heap m j.
Proof. reflexivity. Qed.

Lemma put_node_index i n m b :
  index (tm_tmevtb (put_node i n m) b) =
  if decide (p_tmevtb n = b) then i else index (tm_tmevtb m b).
Proof. unfold put_node; simpl. unfold insert, fn_insert. case_decide; [|done]. by subst. Qed.

Lemma put_node_callback i n m b :
  callback (tm_tmevtb (put_node i n m) b) = callback (tm_tmevtb m b) ∧
  arg (tm_tmevtb (put_node i n m) b) = arg (tm_tmevtb m b).
Proof.
  unfold put_node; simpl. unfold insert, fn_insert. case_decide; [|done]. subst.
  by destruct (tm_tmevtb m (p_tmevtb n)).
Qed.

Lemma put_node_same i n m : i ≤ tm_last_index m → same_events m (put_node i n m).
Proof.
  intros Hi. split; [done|done|done| |].
  - intros b. apply put_node_callback.
  - intros j Hj. rewrite put_node_heap. case_decide; [lia|done].
Qed.

Lemma put_node_key i n m j :
  key (put_node i n m) j = if decide (i = j) then evtkey m (ev_time n) else key m j.
Proof. unfold key. rewrite put_node_heap. by case_decide. Qed.

Lemma move_index m hole j :
  hole_ok m hole → slot m j → j ≠ hole →
  ∀ i, slot m i → i ≠ j →
    index (tm_tmevtb (put_node hole (tm_heap m j) m)
             (p_tmevtb (tm_heap (put_node hole (tm_heap m j) m) i))) = i.
Proof.
  intros [_ Hi _ _] Hj Hjh i Hs Hij. rewrite put_node_index, put_node_heap.
  destruct (decide (hole = i)) as [<-|Hih]; [by rewrite decide_True|].
  rewrite decide_False; [by apply Hi|]. intros Heq.
  pose proof (Hi i Hs ltac:(done)). pose proof (Hi j Hj Hjh). congruence.
Qed.

Lemma move_holds m hole j n :
  slot m hole → slot m j → j ≠ hole →
  holds (put_node hole (tm_heap m j) m) j n ↔ holds m hole n.
Proof.
  intros Hh Hj Hjh. unfold holds. split.
  - intros (i & Hs & Hij & Hn). rewrite put_node_heap in Hn. case_decide as Hd.
    + by exists j.
    + exists i. split_and!; [done|congruence|done].
  - intros (i & Hs & Hih & Hn). destruct (decide (i = j)) as [->|Hij].
    + exists hole. split_and!; [done|congruence|]. rewrite put_node_heap. by rewrite decide_True.
    + exists i. split_and!; [done..|]. rewrite put_node_heap. by rewrite decide_False by congruence.
Qed.

(** The parent of the hole moves into the hole. *)
Lemma move_up_hole m hole :
  hole_ok m hole → slot m hole → 2 ≤ hole →
  hole_ok (put_node hole (tm_heap m (hole / 2)) m) (hole / 2).
Proof.
  intros Hok Hh H2. pose proof Hok as [Hp _ Ho Hs].
  assert (Hj : slot m (hole / 2)) by (unfold slot in *; lia).
  split; [lia|exact (move_index m hole (hole / 2) Hok Hj ltac:(lia))| |]; intros i Hsl; change (slot m i) in Hsl;
    rewrite !put_node_key; fold (key m (hole / 2)).
  - intros Hi2 Hij Hi2j.
    destruct (decide (hole = i / 2)) as [Ha|Ha], (decide (hole = i)) as [Hb|Hb]; try lia.
    + by apply Hs.
    + apply Ho; unfold slot in *; lia.
  - intros Hi2 Hj2.
    destruct (decide (hole = hole / 2 / 2)) as [Ha|Ha], (decide (hole = i)) as [Hb|Hb]; try lia.
    + apply Ho; unfold slot in *; lia.
    + trans (key m (hole / 2)); [apply Ho; unfold slot in *; lia|].
      rewrite <- Hi2. apply Ho; unfold slot in *; lia.
Qed.

(** The earlier child of the hole moves into the hole. *)
Lemma move_down_hole m hole j :
  hole_ok m hole → slot m hole → slot m j → j / 2 = hole →
  (∀ i, slot m i → i / 2 = hole → key m j ≤ key m i) →
  hole_ok (put_node hole (tm_heap m j) m) j.
Proof.
  intros Hok Hh Hj Hjh Hmin. pose proof Hok as [Hp _ Ho Hs].
  split; [unfold slot in *; lia|exact (move_index m hole j Hok Hj ltac:(lia))| |]; intros i Hsl; change (slot m i) in Hsl;
    rewrite !put_node_key; fold (key m j).
  - intros Hi2 Hij Hi2j.
    destruct (decide (hole = i / 2)) as [Ha|Ha], (decide (hole = i)) as [Hb|Hb]; try lia.
    + by apply Hmin.
    + rewrite <- Hb in *. apply Hs; [done|done|lia].
    + apply Ho; unfold slot in *; lia.
  - intros Hi2 Hj2.
    destruct (decide (hole = j / 2)) as [Ha|Ha], (decide (hole = i)) as [Hb|Hb]; try lia.
    rewrite <- Hi2. apply Ho; unfold slot in *; lia.
Qed.

(** *** The search loops *)

Lemma tmevt_up_loop_ok fuel : ∀ m index time,
  hole_ok m index → slot m index → index < Z.of_nat fuel →
  (∀ i, slot m i → i / 2 = index → evtkey m time ≤ key m i) →
  ∃ index' m', tmevt_up_loop fuel index time m = Some (index', m') ∧
    hole_ok m' index' ∧ slot m' index' ∧ same_events m m' ∧
    (∀ n, holds m' index' n ↔ holds m index n) ∧
    (∀ i, slot m' i → i / 2 = index' → evtkey m time ≤ key m' i) ∧
    (2 ≤ index' → key m' (index' / 2) ≤ evtkey m time).
Proof.
  induction fuel as [|fuel IH]; intros m index time Hok Hsl Hfuel Hch; [unfold slot in *; lia|].
  cbn [tmevt_up_loop]. destruct (1 <? index) eqn:H1.
  2:{ exists index, m. split_and!; try done. lia. }
  rewrite PARENT_div. unfold EVTTIM_LE. fold (key m (index / 2)).
  destruct (key m (index / 2) <=? evtkey m time) eqn:Hle.
  { exists index, m. split_and!; try done. lia. }
  assert (Hj : slot m (index / 2)) by (unfold slot in *; lia).
  destruct (IH (put_node index (tm_heap m (index / 2)) m) (index / 2) time)
    as (i' & m' & -> & Hok' & Hsl' & Hsame & Hh & Hch' & Hpar).
  - apply move_up_hole; [done|done|lia].
  - done.
  - lia.
  - intros i Hs Hi2. change (evtkey (put_node _ _ _) time) with (evtkey m time).
    rewrite put_node_key. fold (key m (index / 2)). case_decide as Hd; [lia|].
    trans (key m (index / 2)); [lia|]. rewrite <- Hi2. apply Hok; [done|lia|done|lia].
  - exists i', m'. split_and!; try done.
    + eapply same_events_trans; [|done]. apply put_node_same, Hsl.
    + intros n. rewrite Hh. apply move_holds; [done|done|lia].
Qed.

Lemma early_child_ok m index :
  1 ≤ index → LCHILD index ≤ tm_last_index m →
  slot m (early_child index m) ∧ early_child index m / 2 = index ∧
  ∀ i, slot m i → i / 2 = index → key m (early_child index m) ≤ key m i.
Proof.
  rewrite LCHILD_mul. intros H1 Hl. unfold early_child. rewrite LCHILD_mul. unfold EVTTIM_LT.
  fold (key m (2 * index + 1)) (key m (2 * index)).
  destruct (2 * index + 1 <=? tm_last_index m) eqn:H2; simpl;
    [destruct (key m (2 * index + 1) <? key m (2 * index)) eqn:H3|].
  all: split_and!; [unfold slot; lia|lia|]; intros i Hs Hi;
    assert (i = 2 * index ∨ i = 2 * index + 1) as [->| ->] by lia; unfold slot in *; lia.
Qed.

Lemma tmevt_down_loop_ok fuel : ∀ m index time,
  hole_ok m index → slot m index → tm_last_index m - index < Z.of_nat fuel →
  (2 ≤ index → key m (index / 2) ≤ evtkey m time) →
  ∃ index' m', tmevt_down_loop fuel index time m = Some (index', m') ∧
    hole_ok m' index' ∧ slot m' index' ∧ same_events m m' ∧
    (∀ n, holds m' index' n ↔ holds m index n) ∧
    (∀ i, slot m' i → i / 2 = index' → evtkey m time ≤ key m' i) ∧
    (2 ≤ index' → key m' (index' / 2) ≤ evtkey m time).
Proof.
  induction fuel as [|fuel IH]; intros m index time Hok Hsl Hfuel Hpar; [unfold slot in *; lia|].
  cbn [tmevt_down_loop]. destruct (LCHILD index <=? tm_last_index m) eqn:H1.
  2:{ exists index, m. split_and!; try done. intros i Hs Hi. rewrite LCHILD_mul in H1.
      unfold slot in Hs. lia. }
  apply Z.leb_le in H1. destruct (early_child_ok m index) as (Hj & Hj2 & Hmin); [apply Hok|done|].
  set (j := early_child index m) in *. clearbody j. rewrite LCHILD_mul in H1.
  unfold EVTTIM_LE. fold (key m j). destruct (evtkey m time <=? key m j) eqn:Hle.
  { exists index, m. split_and!; try done. intros i Hs Hi. specialize (Hmin i Hs Hi). lia. }
  pose proof (hole_pos _ _ Hok).
  destruct (IH (put_node index (tm_heap m j) m) j time)
    as (i' & m' & -> & Hok' & Hsl' & Hsame & Hh & Hch' & Hpar').
  - by apply move_down_hole.
  - done.
  - simpl. lia.
  - intros _. change (evtkey (put_node _ _ _) time) with (evtkey m time).
    rewrite put_node_key. fold (key m j). rewrite decide_True by lia. lia.
  - exists i', m'. split_and!; try done.
    + eapply same_events_trans; [|done]. apply put_node_same, Hsl.
    + intros n. rewrite Hh. apply move_holds; [done|done|lia].
Qed.

(** Filling the hole. *)
Lemma fill_hole m hole n :
  hole_ok m hole → slot m hole →
  (∀ i, slot m i → i / 2 = hole → evtkey m (ev_time n) ≤ key m i) →
  (2 ≤ hole → key m (hole / 2) ≤ evtkey m (ev_time n)) →
  (∀ n', holds m hole n' → p_tmevtb n' ≠ p_tmevtb n) →
  heap_ok (put_node hole n m) ∧
  (∀ b t, evt (put_node hole n m) b = Some t ↔
     mkTMEVTN t b = n ∨ holds m hole (mkTMEVTN t b)).
Proof.
  intros [Hp Hi Ho Hs] Hsl Hch Hpar Hnew.
  assert (Hok : heap_ok (put_node hole n m)).
  { split.
    - simpl. unfold slot in Hsl. lia.
    - intros i Hsi. rewrite put_node_index, put_node_heap.
      destruct (decide (hole = i)) as [->|Hne]; [by rewrite decide_True|].
      rewrite decide_False; [by apply Hi|]. intros Heq.
      apply (Hnew (tm_heap m i)); [by exists i|done].
    - intros i Hsi H2. rewrite PARENT_div. rewrite !put_node_key. change (slot m i) in Hsi.
      destruct (decide (hole = i / 2)) as [Ha|Ha], (decide (hole = i)) as [Hb|Hb]; [lia|..].
      + by apply Hch.
      + rewrite <- Hb in *. by apply Hpar.
      + apply Ho; congruence. }
  split; [done|]. intros b t. rewrite evt_Some by done. split.
  - intros (i & Hsi & Hn). rewrite put_node_heap in Hn. case_decide as Hd; [by left|right].
    by exists i.
  - intros [Hn|(i & Hsi & Hne & Hn)].
    + exists hole. split; [done|]. rewrite put_node_heap. by rewrite decide_True.
    + exists i. split; [done|]. rewrite put_node_heap. by rewrite decide_False by done.
Qed.

Lemma evt_ext m m' b : heap_ok m → heap_ok m' → (∀ t, evt m b = Some t ↔ evt m' b = Some t) →
  evt m b = evt m' b.
Proof.
  intros H1 H2 Hi. destruct (evt m b) as [t|] eqn:Ht; [by symmetry; apply Hi|].
  destruct (evt m' b) as [t|]; [|done]. by apply Hi.
Qed.

(** *** Insertion and deletion as map operations *)

(** What insertion and deletion keep. *)
Record same_clock m m' : Prop := {
  sc_min : tm_min_time m' = tm_min_time m;
  sc_current : tm_current_time m' = tm_current_time m;
  sc_next : tm_next_time m' = tm_next_time m;
  sc_subtime : tm_next_subtime m' = tm_next_subtime m;
  sc_callback : ∀ b, callback (tm_tmevtb m' b) = callback (tm_tmevtb m b);
  sc_arg : ∀ b, arg (tm_tmevtb m' b) = arg (tm_tmevtb m b) }.

Lemma tmevtb_insert_ok m b t :
  heap_ok m → evt m b = None →
  ∃ m', tmevtb_insert b t m = Some m' ∧ heap_ok m' ∧
    (∀ b', evt m' b' = if decide (b' = b) then Some t else evt m b') ∧
    tm_last_index m' = tm_last_index m + 1 ∧ same_clock m m'.
Proof.
  intros Hok Hb. unfold tmevtb_insert.
  set (m1 := m <| tm_last_index ::= Z.add 1 |>).
  assert (Hl : tm_last_index m1 = tm_last_index m + 1) by (simpl; lia).
  pose proof (heap_last _ Hok) as H0.
  assert (Hslot : ∀ i, slot m1 i ∧ i ≠ tm_last_index m1 ↔ slot m i).
  { intros i. unfold slot. rewrite Hl. lia. }
  assert (Hhole : hole_ok m1 (tm_last_index m1)).
  { split; [lia|..].
    - intros i Hs Hi. by apply (heap_index _ Hok), Hslot.
    - intros i Hs H2 Hi _. rewrite <- PARENT_div. apply (heap_order _ Hok); [by apply Hslot|done].
    - intros i Hs Hi _. unfold slot in Hs. lia. }
  destruct (tmevt_up_loop_ok (S (Z.to_nat (tm_last_index m1))) m1 (tm_last_index m1) t)
    as (i' & m' & Heq & Hok' & Hsl' & [S1 S2 (S3 & S4 & S5) S6 S7] & Hh & Hch & Hpar).
  { done. } { unfold slot. lia. } { lia. } { intros i Hs Hi. unfold slot in Hs. lia. }
  unfold tmevt_up. rewrite Heq.
  assert (Hev : ∀ x, evtkey m' x = evtkey m1 x) by (intros x; unfold evtkey; by rewrite S2).
  assert (Hold : ∀ n, holds m' i' n ↔ ∃ i, slot m i ∧ tm_heap m i = n).
  { intros n. rewrite Hh. split.
    - intros (i & Hs & Hi & Hn). exists i. split; [by apply Hslot|done].
    - intros (i & Hs & Hn). exists i. apply Hslot in Hs as [??]. done. }
  destruct (fill_hole m' i' (mkTMEVTN t b)) as [Hok'' Hevt]; [done|done|..].
  { intros i Hs Hi. simpl. rewrite Hev. by apply Hch. }
  { intros H2. simpl. rewrite Hev. by apply Hpar. }
  { intros n' (i & Hs & Hn)%Hold. subst n'. by apply evt_None. }
  eexists. split; [done|]. split; [done|].
  split_and!; [|simpl; by rewrite S1|].
  - intros b'. destruct (decide (b' = b)) as [->|Hne].
    + apply Hevt. by left.
    + apply evt_ext; [done|done|]. intros t'. rewrite Hevt, Hold, evt_Some by done. split.
      * intros [[=]|?]; done.
      * by right.
  - split; [exact S2|exact S3|exact S4|exact S5|..]; intros b';
      destruct (put_node_callback i' (mkTMEVTN t b) m' b') as [H1 H2]; rewrite ?H1, ?H2; apply S6.
Qed.

(** The empty node that stays when the last node is taken off. *)
Lemma drop_last_hole m hole :
  heap_ok m → slot m hole → hole_ok (m <| tm_last_index ::= fun n => n - 1 |>) hole.
Proof.
  intros Hok Hs. assert (Hsl : ∀ i, slot (m <| tm_last_index ::= fun n => n - 1 |>) i → slot m i).
  { intros i. unfold slot. simpl. lia. }
  split; [unfold slot in Hs; lia|..].
  - intros i Hi _. by apply (heap_index _ Hok), Hsl.
  - intros i Hi H2 _ _. rewrite <- PARENT_div. by apply (heap_order _ Hok); [apply Hsl|].
  - intros i Hi Hi2 H2. trans (key m hole).
    + rewrite <- PARENT_div. by apply (heap_order _ Hok).
    + rewrite <- Hi2, <- PARENT_div. apply (heap_order _ Hok); [by apply Hsl|lia].
Qed.

(** The common end of the two deletions: the last node goes into the hole. *)
Lemma refill_hole m hole m2 hole2 :
  let m1 := m <| tm_last_index ::= fun n => n - 1 |> in
  let x := tm_heap m (tm_last_index m) in
  heap_ok m → slot m hole → slot m1 hole →
  hole_ok m2 hole2 → slot m2 hole2 → same_events m1 m2 →
  (∀ n, holds m2 hole2 n ↔ holds m1 hole n) →
  (∀ i, slot m2 i → i / 2 = hole2 → evtkey m1 (ev_time x) ≤ key m2 i) →
  (2 ≤ hole2 → key m2 (hole2 / 2) ≤ evtkey m1 (ev_time x)) →
  let m' := put_node hole2 (tm_heap m2 (tm_last_index m2 + 1)) m2 in
  heap_ok m' ∧
  (∀ b, evt m' b = if decide (b = p_tmevtb (tm_heap m hole)) then None else evt m b) ∧
  same_clock m m'.
Proof.
  intros m1 x Hok Hs Hs1 Hok2 Hs2 [S1 S2 (S3 & S4 & S5) S6 S7] Hh Hch Hpar m'.
  assert (Hl : tm_last_index m1 = tm_last_index m - 1) by done.
  assert (Hx : tm_heap m2 (tm_last_index m2 + 1) = x).
  { rewrite S7 by lia. unfold x. f_equal. lia. }
  assert (Hev : ∀ t, evtkey m2 t = evtkey m1 t) by (intros t; unfold evtkey; by rewrite S2).
  assert (Hinj : ∀ i j, slot m i → slot m j →
    p_tmevtb (tm_heap m i) = p_tmevtb (tm_heap m j) → i = j).
  { intros i j Hi Hj Hij. by rewrite <- (heap_index _ Hok i Hi), Hij, (heap_index _ Hok j Hj). }
  assert (Hlast : slot m (tm_last_index m)) by (unfold slot in *; lia).
  assert (Hold : ∀ n, n = x ∨ holds m2 hole2 n ↔ ∃ i, slot m i ∧ i ≠ hole ∧ tm_heap m i = n).
  { intros n. rewrite Hh. split.
    - intros [->|(i & Hi & Hne & Hn)].
      + exists (tm_last_index m). split_and!; [done| |done]. unfold slot in Hs1. lia.
      + exists i. split_and!; [|done..]. unfold slot in *. lia.
    - intros (i & Hi & Hne & Hn). destruct (decide (i = tm_last_index m)) as [->|Hil]; [by left|right].
      exists i. split_and!; [|done..]. unfold slot in *. lia. }
  destruct (fill_hole m2 hole2 x) as [Hok' Hevt]; [done|done|..].
  { intros i Hi Hi2. rewrite Hev. by apply Hch. }
  { intros H2. rewrite Hev. by apply Hpar. }
  { intros n' (i & Hi & Hne & Hn)%Hh Hp. subst n'.
    assert (i = tm_last_index m); [|unfold slot in Hi; lia].
    apply Hinj; [unfold slot in *; lia|done|done]. }
  subst m'. rewrite Hx. split; [done|]. split.
  - intros b. destruct (decide (b = _)) as [->|Hne].
    + apply evt_None; [done|]. intros i Hi Hb.
      assert (evt (put_node hole2 x m2) (p_tmevtb (tm_heap m hole)) =
              Some (ev_time (tm_heap (put_node hole2 x m2) i))) as He.
      { apply evt_Some; [done|]. exists i. split; [done|].
        rewrite <- Hb. by destruct (tm_heap (put_node hole2 x m2) i). }
      apply Hevt, Hold in He as (j & Hj & Hne & Hn). apply Hne, Hinj; [done..|].
      by rewrite Hn.
    + apply evt_ext; [done|done|]. intros t. rewrite Hevt, Hold, evt_Some by done. split.
      * intros (i & Hi & _ & Hn). by exists i.
      * intros (i & Hi & Hn). exists i. split_and!; [done| |done]. intros ->. by rewrite Hn in Hne.
  - split; [exact S2|exact S3|exact S4|exact S5|..]; intros b;
      destruct (put_node_callback hole2 x m2 b) as [H1 H2]; rewrite ?H1, ?H2; apply S6.
Qed.

Lemma evt_slot m b t : heap_ok m → evt m b = Some t →
  slot m (index (tm_tmevtb m b)) ∧ tm_heap m (index (tm_tmevtb m b)) = mkTMEVTN t b.
Proof.
  intros Hok (i & Hi & Hn)%evt_Some; [|done].
  pose proof (heap_index _ Hok i Hi) as Hx. rewrite Hn in Hx. simpl in Hx. by rewrite Hx.
Qed.

Lemma evt_empty m : heap_ok m → tm_last_index m = 0 → ∀ b, evt m b = None.
Proof. intros Hok H0 b. apply evt_None; [done|]. unfold slot. lia. Qed.

(** Taking off the last node when the empty node is its place. *)
Lemma drop_last_ok m m' :
  heap_ok m → slot m (tm_last_index m) → tm_last_index m' = tm_last_index m - 1 →
  (∀ i, tm_heap m' i = tm_heap m i) →
  (∀ b, index (tm_tmevtb m' b) = index (tm_tmevtb m b)) → same_clock m m' →
  heap_ok m' ∧
  (∀ b, evt m' b =
     if decide (b = p_tmevtb (tm_heap m (tm_last_index m))) then None else evt m b) ∧
  same_clock m m'.
Proof.
  intros Hok Hs Hl Hh Hi Hc.
  assert (Hsl : ∀ i, slot m' i ↔ slot m i ∧ i ≠ tm_last_index m) by (intros i; unfold slot; lia).
  assert (Hok' : heap_ok m').
  { split.
    - unfold slot in Hs. lia.
    - intros i [Hi1 _]%Hsl. rewrite Hi, Hh. by apply Hok.
    - intros i [Hi1 _]%Hsl H2. unfold key, evtkey. rewrite !Hh, (sc_min _ _ Hc). by apply Hok. }
  split_and!; [done| |done]. intros b. destruct (decide (b = _)) as [->|Hne].
  - apply evt_None; [done|]. intros i [Hi1 Hi2]%Hsl Hb. rewrite Hh in Hb. apply Hi2.
    by rewrite <- (heap_index _ Hok i Hi1), Hb, (heap_index _ Hok _ Hs).
  - apply evt_ext; [done..|]. intros t. rewrite !evt_Some by done. split; intros (i & Hi1 & Hn).
    + exists i. apply Hsl in Hi1 as [??]. by rewrite <- Hh.
    + exists i. rewrite Hh. split; [|done]. apply Hsl. split; [done|]. intros ->. by rewrite Hn in Hne.
Qed.

(** Deleting the event of the last slot moves nothing. *)
Lemma last_stays m (m1 := m <| tm_last_index ::= fun n => n - 1 |>) :
  slot m (tm_last_index m) →
  tmevt_down (tm_last_index m) (ev_time (tm_heap m (tm_last_index m))) m1 = Some (tm_last_index m, m1).
Proof.
  intros Hs. unfold tmevt_down; cbn [tmevt_down_loop]. rewrite LCHILD_mul.
  destruct (2 * tm_last_index m <=? tm_last_index m1) eqn:Hc; [simpl in Hc; unfold slot in Hs; lia|done].
Qed.

Lemma drop_last_self m (m1 := m <| tm_last_index ::= fun n => n - 1 |>) :
  heap_ok m → slot m (tm_last_index m) →
  let m' := put_node (tm_last_index m) (tm_heap m1 (tm_last_index m1 + 1)) m1 in
  heap_ok m' ∧ (∀ b, evt m' b = if decide (b = p_tmevtb (tm_heap m (tm_last_index m))) then None else evt m b) ∧
  same_clock m m'.
Proof.
  intros Hok Hs m'.
  assert (Hc : same_clock m m').
  { split; try done; intros b'; [exact (proj1 (put_node_callback _ _ m1 b'))|exact (proj2 (put_node_callback _ _ m1 b'))]. }
  assert (Hx : tm_heap m1 (tm_last_index m1 + 1) = tm_heap m (tm_last_index m)) by (simpl; f_equal; lia).
  unfold m' in *. rewrite Hx in *. apply drop_last_ok; try done.
  all: intros b'; rewrite ?put_node_heap, ?put_node_index; case_decide as Hd; try done.
  - by rewrite <- Hd.
  - rewrite <- Hd. symmetry. apply (heap_index _ Hok _ Hs).
Qed.

Lemma tmevtb_delete_ok m b t :
  heap_ok m → evt m b = Some t →
  ∃ m', tmevtb_delete b m = Some m' ∧ heap_ok m' ∧
    (∀ b', evt m' b' = if decide (b' = b) then None else evt m b') ∧ same_clock m m'.
Proof.
  intros Hok Hb. destruct (evt_slot m b t Hok Hb) as [Hs Hn].
  unfold tmevtb_delete. set (i := index (tm_tmevtb m b)) in *. clearbody i.
  set (m1 := m <| tm_last_index ::= fun n => n - 1 |>).
  assert (Hl : tm_last_index m1 = tm_last_index m - 1) by done.
  assert (Hpb : p_tmevtb (tm_heap m i) = b) by (by rewrite Hn).
  rewrite <- Hpb. destruct (tm_last_index m1 =? 0) eqn:H0.
  { eexists. split; [done|]. assert (i = 1) as -> by (unfold slot in Hs; lia).
    assert (Hlast : tm_last_index m = 1) by lia. rewrite <- Hlast.
    apply drop_last_ok; try done; by rewrite Hlast. }
  pose proof (drop_last_hole m i Hok Hs) as Hhole. fold m1 in Hhole.
  unfold EVTTIM_LT. rewrite PARENT_div.
  destruct ((1 <? i) && (evtkey m1 (ev_time (tm_heap m (tm_last_index m)))
    <? evtkey m1 (ev_time (tm_heap m1 (i / 2))))) eqn:Hup.
  - apply andb_true_iff in Hup as [H1 Hlt]. fold (key m1 (i / 2)) in Hlt.
    destruct (decide (i = tm_last_index m)) as [->|Hil].
    { pose proof (heap_order _ Hok (tm_last_index m) Hs ltac:(lia)) as Ho.
      rewrite PARENT_div in Ho. change (key m1) with (key m) in Hlt.
      change (evtkey m1) with (evtkey m) in Hlt. unfold key at 2 in Ho. lia. }
    assert (Hs1 : slot m1 i) by (unfold slot in *; lia).
    assert (Hj : slot m1 (i / 2)) by (unfold slot in *; lia).
    assert (Hok1 : hole_ok (put_node i (tm_heap m1 (i / 2)) m1) (i / 2)).
    { apply move_up_hole; [done|done|lia]. }
    destruct (tmevt_up_loop_ok (S (Z.to_nat (i / 2))) _ (i / 2)
      (ev_time (tm_heap m (tm_last_index m))) Hok1 Hj)
      as (i' & m2 & Heq & Hok2 & Hs2 & Hsame & Hh & Hch & Hpar).
    { lia. }
    { intros j Hsj Hj2. rewrite put_node_key. fold (key m1 (i / 2)).
      change (evtkey (put_node _ _ _)) with (evtkey m1). case_decide as Hd; [lia|].
      trans (key m1 (i / 2)); [lia|]. rewrite <- Hj2. apply Hhole; [done|lia|done|lia]. }
    unfold tmevt_up. rewrite Heq. eexists. split; [done|].
    eapply refill_hole; try done.
    + eapply same_events_trans; [|done]. apply put_node_same, Hs1.
    + intros n. rewrite Hh. apply move_holds; [done|done|lia].
  - assert (Hcmp : 2 ≤ i → key m1 (i / 2) ≤ evtkey m1 (ev_time (tm_heap m (tm_last_index m)))).
    { unfold key. intros H2. apply andb_false_iff in Hup as [Hup|Hup]; lia. }
    destruct (decide (i = tm_last_index m)) as [->|Hil].
    { unfold m1. rewrite last_stays by done. eexists. split; [done|]. by apply drop_last_self. }
    assert (Hs1 : slot m1 i) by (unfold slot in *; lia).
    destruct (tmevt_down_loop_ok (S (Z.to_nat (tm_last_index m1))) m1 i
      (ev_time (tm_heap m (tm_last_index m))) Hhole Hs1)
      as (i' & m2 & Heq & Hok2 & Hs2 & Hsame & Hh & Hch & Hpar); [unfold slot in Hs1; lia|done|].
    unfold tmevt_down. rewrite Heq. eexists. split; [done|]. by eapply refill_hole.
Qed.

Lemma tmevtb_delete_top_ok m :
  heap_ok m → 0 < tm_last_index m →
  ∃ m', tmevtb_delete_top m = Some m' ∧ heap_ok m' ∧
    (∀ b, evt m' b = if decide (b = p_tmevtb (tm_heap m 1)) then None else evt m b) ∧
    same_clock m m'.
Proof.
  intros Hok H0. unfold tmevtb_delete_top.
  set (m1 := m <| tm_last_index ::= fun n => n - 1 |>).
  assert (Hl : tm_last_index m1 = tm_last_index m - 1) by done.
  destruct (tm_last_index m1 =? 0) eqn:Hz.
  { eexists. split; [done|]. assert (Hlast : tm_last_index m = 1) by lia. rewrite <- Hlast.
    apply drop_last_ok; try done; unfold slot; lia. }
  assert (Hs : slot m 1) by (unfold slot; lia).
  assert (Hs1 : slot m1 1) by (unfold slot; lia).
  destruct (tmevt_down_loop_ok (S (Z.to_nat (tm_last_index m1))) m1 1
    (ev_time (tm_heap m (tm_last_index m))) (drop_last_hole m 1 Hok Hs) Hs1)
    as (i' & m2 & Heq & Hok2 & Hs2 & Hsame & Hh & Hch & Hpar); [lia|lia|].
  unfold tmevt_down. rewrite Heq. eexists. split; [done|]. by eapply refill_hole.
Qed.

(** The root has the earliest event time. *)
Lemma heap_root_min m i : heap_ok m → slot m i → key m 1 ≤ key m i.
Proof.
  intros Hok. induction i as [i IH] using (well_founded_induction (Zwf.Zwf_well_founded 0)).
  intros Hs. destruct (decide (i = 1)) as [->|Hi]; [done|].
  trans (key m (i / 2)).
  - apply IH; unfold slot, Zwf.Zwf in *; lia.
  - rewrite <- PARENT_div. apply Hok; [done|]. unfold slot in Hs. lia.
Qed.

Lemma heap_top m : heap_ok m → 0 < tm_last_index m →
  evt m (p_tmevtb (tm_heap m 1)) = Some (ev_time (tm_heap m 1)) ∧
  ∀ b t, evt m b = Some t → evtkey m (ev_time (tm_heap m 1)) ≤ evtkey m t.
Proof.
  intros Hok H0. split.
  - apply evt_Some; [done|]. exists 1. split; [unfold slot; lia|]. by destruct (tm_heap m 1).
  - intros b t (i & Hs & Hn)%evt_Some; [|done]. pose proof (heap_root_min m i Hok Hs) as Hm.
    unfold key in Hm. by rewrite Hn in Hm.
Qed.

(** *** Registering a block *)

Record registered m m' b (t : Z) (cb : CBACK) (a : nat) : Prop := {
  rg_heap : heap_ok m';
  rg_evt : evt m' b = Some t;
  rg_other : ∀ b', b' ≠ b → evt m' b' = evt m b';
  rg_tmevtb : ∀ b', b' ≠ b → callback (tm_tmevtb m' b') = callback (tm_tmevtb m b') ∧
    arg (tm_tmevtb m' b') = arg (tm_tmevtb m b');
  rg_cb : callback (tm_tmevtb m' b) = cb;
  rg_arg : arg (tm_tmevtb m' b) = a;
  rg_clock : tm_min_time m' = tm_min_time m ∧ tm_current_time m' = tm_current_time m ∧
    tm_next_time m' = tm_next_time m ∧ tm_next_subtime m' = tm_next_subtime m }.

Lemma register_ok m b t cb a :
  heap_ok m → evt m b = None →
  ∃ m', tmevtb_insert b t (upd_tmevtb b (fun r => r <| callback := cb |> <| arg := a |>) m) = Some m' ∧
    registered m m' b t cb a.
Proof.
  intros Hok Hev. set (m1 := upd_tmevtb _ _ m).
  assert (Hi : ∀ b', index (tm_tmevtb m1 b') = index (tm_tmevtb m b')).
  { intros b'. unfold m1; simpl. unfold insert, fn_insert. case_decide; [by subst|done]. }
  assert (Hev1 : ∀ b', evt m1 b' = evt m b') by (intros b'; unfold evt; rewrite Hi; done).
  assert (Hok1 : heap_ok m1).
  { destruct Hok as [O1 O2 O3]. split; [done| |done]. intros i Hs. rewrite Hi. by apply O2. }
  destruct (tmevtb_insert_ok m1 b t Hok1) as (m' & Heq & Hok' & Hevt & _ & [C1 C2 C3 C4 C5 C6]); [by rewrite Hev1|].
  exists m'. split; [done|]. split; try done.
  - by rewrite Hevt, decide_True.
  - intros b' Hb. by rewrite Hevt, decide_False, Hev1.
  - intros b' Hb. rewrite C5, C6. unfold m1; simpl. by rewrite fn_lookup_insert_ne.
  - rewrite C5. unfold m1; simpl. by rewrite fn_lookup_insert.
  - rewrite C6. unfold m1; simpl. by rewrite fn_lookup_insert.
Qed.

Lemma tmevtb_enqueue_ok s b t cb a :
  heap_ok (tm s) → evt (tm s) b = None → t ≤ TMAX_RELTIM →
  ∃ m', tmevtb_enqueue b t cb a s = RET () (upd_tm (fun _ => m') s) ∧
    registered (tm s) m' b (u32 (base_time (tm s) + t)) cb a.
Proof.
  intros Hok Hev Hle. destruct (register_ok (tm s) b (u32 (base_time (tm s) + t)) cb a Hok Hev) as (m' & E & Hr).
  exists m'. split; [|done]. unfold tmevtb_enqueue, bind, kassert. rewrite (proj2 (Z.leb_le _ _) Hle). simpl.
  unfold on_tm. simpl. change (base_time (upd_tmevtb _ _ _)) with (base_time (tm s)). rewrite E. done.
Qed.

Lemma tmevtb_enqueue_evttim_ok s b t cb a :
  heap_ok (tm s) → evt (tm s) b = None →
  ∃ m', tmevtb_enqueue_evttim b t cb a s = RET () (upd_tm (fun _ => m') s) ∧
    registered (tm s) m' b t cb a.
Proof.
  intros Hok Hev. destruct (register_ok (tm s) b t cb a Hok Hev) as (m' & E & Hr).
  exists m'. split; [|done]. unfold tmevtb_enqueue_evttim, bind, on_tm; simpl. by rewrite E.
Qed.

Lemma tmevtb_dequeue_ok s b t :
  heap_ok (tm s) → evt (tm s) b = Some t →
  ∃ m', tmevtb_dequeue b s = RET () (upd_tm (fun _ => m') s) ∧ heap_ok m' ∧
    (∀ b', evt m' b' = if decide (b' = b) then None else evt (tm s) b') ∧ same_clock (tm s) m'.
Proof.
  intros Hok Hev. destruct (tmevtb_delete_ok _ _ _ Hok Hev) as (m' & E & Hr).
  exists m'. unfold tmevtb_dequeue, on_tm. by rewrite E.
Qed.
End time_event.
