(* ===== verification/Task.v ===== *)
(** * Task management (kernel/task.c, task.h)

    The ready queue: one FIFO queue per priority, a bitmap of the nonempty
    ones, and [p_schedtsk], the head of the queue of the highest priority.
    [sched_ok] is the invariant of the three; the operations move a task
    between queues and keep [p_schedtsk] right without a search when they can.

    The inline functions of wait.h that [change_priority] calls are here too. *)

From S2P Require Import Prelude Queue Data Kmonad.
Open Scope Z_scope.

Section task.
Context {cfg : Config}.
Implicit Types (t : nat) (q : qid) (pri : Z).

(** ** Bitmap search *)

Definition PRIMAP_BIT (pri : Z) : Z := Z.shiftl 1 pri.

Definition bitmap_search_table : list Z := [0; 1; 0; 2; 0; 1; 0; 3; 0; 1; 0; 2; 0; 1; 0].

(** The body of [bitmap_search] after its assertion. *)
Definition bitmap_search (bitmap : Z) : Z :=
  let n := 0 in
  let '(bitmap, n) :=
    if Z.land bitmap 0x00ff =? 0 then (Z.shiftr bitmap 8, n + 8) else (bitmap, n) in
  let '(bitmap, n) :=
    if Z.land bitmap 0x0f =? 0 then (Z.shiftr bitmap 4, n + 4) else (bitmap, n) in
  n + nth (Z.to_nat (Z.land bitmap 0x0f - 1)) bitmap_search_table 0.

Definition primap_empty (s : State) : bool := ready_primap s =? 0.

Definition primap_search : K Z :=
  kassert (fun s => negb (ready_primap s =? 0)) ;;;
  get s;; ret (bitmap_search (ready_primap s)).

Definition primap_set (pri : Z) : K () :=
  upd (upd_sch (fun c => c <| sc_ready_primap ::= fun m => u16 (Z.lor m (PRIMAP_BIT pri)) |>)).

Definition primap_clear (pri : Z) : K () :=
  upd (upd_sch (fun c => c <| sc_ready_primap ::=
    fun m => u16 (Z.land m (u32 (Z.lnot (PRIMAP_BIT pri)))) |>)).

Definition set_schedtsk (o : option nat) : K () :=
  upd (upd_sch (fun c => c <| sc_p_schedtsk := o |>)).

(** ** Queue operations on the kernel state *)

Definition queue_delete (t : nat) : K () := upd (upd_wq (Fam.queue_delete t)).
Definition queue_insert_prev q t : K () := upd (upd_wq (Fam.queue_insert_prev q t)).
Definition queue_insert_next q t : K () := upd (upd_wq (Fam.queue_insert_next q t)).
Definition queue_empty q (s : State) : bool := Fam.queue_empty q (wq s).
Definition queue_initialize q : K () := upd (upd_wq (Fam.queue_initialize q)).
(** The assertion of [queue_delete_next] fails on an empty queue. *)
Definition queue_delete_next q : K nat := fun s =>
  match Fam.queue_delete_next q (wq s) with
  | Some (t, Q) => RET t (upd_wq (fun _ => Q) s)
  | None => UB
  end.
(** [p_queue->p_next] as a TCB. *)
Definition queue_head q : K nat :=
  get s;; match wq s q with [] => undef | t :: _ => ret t end.

(** The lists of free control blocks: [queue_empty] and [queue_delete_next] on
    them. *)
Definition no_free (l : list nat) : bool := match l with [] => true | _ => false end.
Definition take_free (free : OBJ → list nat) (set_free : (list nat → list nat) → K ()) : K nat :=
  get s;;
  match free (obj s) with
  | [] => undef
  | i :: l => set_free (fun _ => l) ;;; ret i
  end.

(** ** task.c *)

Definition search_schedtsk : K nat :=
  schedpri <- primap_search ;;
  queue_head (RDQ schedpri).

Definition make_runnable (p_tcb : nat) : K bool :=
  get s;; let pri := priority (tcb_table s p_tcb) in
  queue_insert_prev (RDQ pri) p_tcb ;;;
  primap_set pri ;;;
  get s;;
  if match p_schedtsk s with
     | None => true
     | Some p => pri <? priority (tcb_table s p)
     end
  then set_schedtsk (Some p_tcb) ;;; get s;; ret (dspflg s)
  else ret false.

Definition make_non_runnable (p_tcb : nat) : K bool :=
  get s;; let pri := priority (tcb_table s p_tcb) in
  queue_delete p_tcb ;;;
  get s;;
  if queue_empty (RDQ pri) s then
    primap_clear pri ;;;
    get s;;
    if bool_decide (p_schedtsk s = Some p_tcb) then
      (if primap_empty s then set_schedtsk None
       else (p <- search_schedtsk ;; set_schedtsk (Some p))) ;;;
      get s;; ret (dspflg s)
    else ret false
  else
    if bool_decide (p_schedtsk s = Some p_tcb) then
      p <- queue_head (RDQ pri) ;;
      set_schedtsk (Some p) ;;;
      get s;; ret (dspflg s)
    else ret false.

Definition make_dormant (p_tcb : nat) : K () :=
  upd (upd_tcb p_tcb (fun T =>
    T <| tstat := TS_DORMANT |>
      <| bpriority := ipriority (p_tinib T) |>
      <| priority := ipriority (p_tinib T) |>
      <| wupque := false |>
      <| enatex := false |>
      <| texptn := 0 |>)).

(** The context of the task is prepared by the target-dependent part. *)
Definition activate_context (p_tcb : nat) : K () :=
  upd (upd_tcb p_tcb (fun T => T <| tskctxb := true |>)).

Definition make_active (p_tcb : nat) : K bool :=
  activate_context p_tcb ;;;
  upd (upd_tcb p_tcb (fun T => T <| tstat := TS_RUNNABLE |>)) ;;;
  make_runnable p_tcb.

(** *** Wait objects (wait.h) *)

(** [p_wobjcb->p_wobjinib->wobjatr], the object named by its first queue. *)
Definition wobjatr (s : State) (q : qid) : Z :=
  match q with
  | RDQ _ => 0
  | SEMQ i => sematr (p_seminib (semcb s i))
  | FLGQ i => flgatr (p_flginib (flgcb s i))
  | SDTQ i | RDTQ i => dtqatr (p_dtqinib (dtqcb s i))
  | SPDQ i | RPDQ i => pdqatr (p_pdqinib (pdqcb s i))
  | MBXQ i => mbxatr (p_mbxinib (mbxcb s i))
  | MPFQ i => mpfatr (p_mpfinib (mpfcb s i))
  | MTXQ i => mtxatr (p_mtxinib (mtxcb s i))
  end.

Definition queue_insert_tpri q (p_tcb : nat) : K () :=
  upd (fun s => upd_wq (Fam.queue_insert_sorted
    (fun t => priority (tcb_table s p_tcb) <? priority (tcb_table s t)) q p_tcb) s).

Definition wobj_change_priority q (p_tcb : nat) : K () :=
  get s;;
  if bits (wobjatr s q) TA_TPRI then
    queue_delete p_tcb ;;;
    queue_insert_tpri q p_tcb
  else ret ().

Definition change_priority (p_tcb : nat) (newpri : Z) (mtxmode : bool) : K bool :=
  get s;; let oldpri := priority (tcb_table s p_tcb) in
  upd (upd_tcb p_tcb (fun T => T <| priority := newpri |>)) ;;;
  get s;;
  if TSTAT_RUNNABLE (tstat (tcb_table s p_tcb)) then
    queue_delete p_tcb ;;;
    get s;;
    (if queue_empty (RDQ oldpri) s then primap_clear oldpri else ret ()) ;;;
    (if mtxmode then queue_insert_next (RDQ newpri) p_tcb
     else queue_insert_prev (RDQ newpri) p_tcb) ;;;
    primap_set newpri ;;;
    get s;;
    if bool_decide (p_schedtsk s = Some p_tcb) then
      if oldpri <=? newpri then
        p <- search_schedtsk ;;
        set_schedtsk (Some p) ;;;
        get s;; ret (negb (bool_decide (p_schedtsk s = Some p_tcb)) && dspflg s)
      else ret false
    else
      the p := p_schedtsk s ;;
      if (if mtxmode then newpri <=? priority (tcb_table s p)
          else newpri <? priority (tcb_table s p))
      then set_schedtsk (Some p_tcb) ;;; get s;; ret (dspflg s)
      else ret false
  else if TSTAT_WAIT_WOBJCB (tstat (tcb_table s p_tcb)) then
    the w := p_winfo (tcb_table s p_tcb) ;;
    the q := p_wobjcb (winfos s w) ;;
    wobj_change_priority q p_tcb ;;;
    ret false
  else ret false.

Definition rotate_ready_queue (pri : Z) : K bool :=
  get s;;
  (* !queue_empty(p_queue) && p_queue->p_next->p_next != p_queue *)
  if match wq s (RDQ pri) with _ :: _ :: _ => true | _ => false end then
    p_entry <- queue_delete_next (RDQ pri) ;;
    queue_insert_prev (RDQ pri) p_entry ;;;
    get s;;
    if bool_decide (p_schedtsk s = Some p_entry) then
      p <- queue_head (RDQ pri) ;;
      set_schedtsk (Some p) ;;;
      get s;; ret (dspflg s)
    else ret false
  else ret false.

(** *** Task exception routines

    The loop goes on as long as the user's routine leaves exceptions pending;
    [rounds] bounds the number of routine calls considered. *)

Definition upd_run (f : TCB → TCB) : K () :=
  get s;; the t := p_runtsk s ;; upd (upd_tcb t f).
Definition set_ipmflg (b : bool) : K () := upd (upd_var (fun v => v <| v_ipmflg := b |>)).
Definition set_disdsp (b : bool) : K () := upd (upd_var (fun v => v <| v_disdsp := b |>)).
Definition set_dspflg (b : bool) : K () := upd (upd_var (fun v => v <| v_dspflg := b |>)).
Definition set_reqflg (b : bool) : K () := upd (upd_var (fun v => v <| v_reqflg := b |>)).

Fixpoint call_texrtn_loop (rounds : nat) (saved_disdsp : bool) : K () :=
  match rounds with
  | O => yield_noreturn OutOfRounds
  | S rounds =>
      get s;; the t := p_runtsk s ;;
      let texptn_ := texptn (tcb_table s t) in
      upd_run (fun T => T <| texptn := 0 |>) ;;;
      unlock_cpu ;;;
      yield (CallTex t texptn_ (exinf (p_tinib (tcb_table s t)))) ;;;
      get s;; (if sense_lock s then ret () else lock_cpu) ;;;
      get s;; (if ipmflg s then ret () else set_ipm TIPM_ENAALL ;;; set_ipmflg true) ;;;
      set_disdsp saved_disdsp ;;;
      set_dspflg (negb saved_disdsp) ;;;
      upd_run (fun T => T <| enatex := false |>) ;;;
      get s;;
      (if negb (bool_decide (p_runtsk s = p_schedtsk s)) && dspflg s then dispatch else ret ()) ;;;
      get s;; the t := p_runtsk s ;;
      if negb (texptn (tcb_table s t) =? 0) then call_texrtn_loop rounds saved_disdsp
      else ret ()
  end.

Definition call_texrtn (rounds : nat) : K () :=
  get s;; let saved_disdsp := disdsp s in
  upd_run (fun T => T <| enatex := false |>) ;;;
  call_texrtn_loop rounds saved_disdsp ;;;
  upd_run (fun T => T <| enatex := true |>).

Definition calltex (rounds : nat) : K () :=
  get s;; the t := p_runtsk s ;;
  if enatex (tcb_table s t) && negb (texptn (tcb_table s t) =? 0) && ipmflg s
  then call_texrtn rounds else ret ().

(** *** Initialization *)

Definition tnum_tsk : nat := tnum tmax_tskid.
Definition tnum_stsk : nat := tnum tmax_stskid.

Fixpoint kfor {A} (l : list A) (body : A → K ()) : K () :=
  match l with
  | [] => ret ()
  | a :: l => body a ;;; kfor l body
  end.

Definition initialize_task : K () :=
  upd (upd_var (fun v => v <| v_p_runtsk := None |>)) ;;;
  set_schedtsk None ;;;
  set_reqflg false ;;; set_ipmflg true ;;; set_disdsp false ;;; set_dspflg true ;;;
  kfor (seq 0 (Z.to_nat TNUM_TPRI)) (fun i => queue_initialize (RDQ (Z.of_nat i))) ;;;
  upd (upd_sch (fun c => c <| sc_ready_primap := 0 |>)) ;;;
  kfor (seq 0 tnum_stsk) (fun i =>
    let j := INDEX (nth i torder_table 0) in
    upd (upd_tcb j (fun T => T <| p_tinib := tinib_table j |>)) ;;;
    upd (upd_tcb j (fun T => T <| actque := false |>)) ;;;
    make_dormant j ;;;
    upd (upd_tcb j (fun T => T <| mutex_queue := [] |>)) ;;;
    get s;;
    if bits (tskatr (p_tinib (tcb_table s j))) TA_ACT
    then make_active j ;;; ret () else ret ()) ;;;
  upd (upd_obj (fun o => o <| o_free_tcb := [] |>)) ;;;
  kfor (seq tnum_stsk (tnum_tsk - tnum_stsk)) (fun i =>
    upd (upd_tcb i (fun T => T <| p_tinib ::= fun n => n <| tskatr := TA_NOEXS |> |>)) ;;;
    upd (upd_obj (fun o => o <| o_free_tcb ::= fun l => l ++ [i] |>))).

(** ** The invariant of the ready queue

    [ready_list] is the precedence order of the tasks that can run: by
    priority, first come first served within a priority. *)

Definition ready_list (Q : qid → list nat) : list nat :=
  mjoin ((fun i => Q (RDQ (Z.of_nat i))) <$> seq 0 16).

Definition primap_ok (m : Z) (Q : qid → list nat) : Prop :=
  0 ≤ m < 2^16 ∧ ∀ p, 0 ≤ p < 16 → Z.testbit m p = true ↔ Q (RDQ p) ≠ [].

(** Every task in a ready queue is in the one of its priority. *)
Definition pri_ok (T : nat → TCB) (Q : qid → list nat) : Prop :=
  ∀ p t, t ∈ Q (RDQ p) → priority (T t) = p ∧ 0 ≤ p < 16.

Record sched_ok (T : nat → TCB) (Q : qid → list nat) (c : SCH) : Prop := {
  sched_pri : pri_ok T Q;
  sched_primap : primap_ok (sc_ready_primap c) Q;
  sched_schedtsk : sc_p_schedtsk c = hd_error (ready_list Q) }.

(** ** Proofs *)

Lemma testbit_shl1 p i : 0 ≤ p → Z.testbit (PRIMAP_BIT p) i = bool_decide (i = p).
Proof.
  intros Hp. unfold PRIMAP_BIT. rewrite Z.shiftl_1_l, Z.pow2_bits_eqb by done.
  case_bool_decide; subst; [apply Z.eqb_refl|by apply Z.eqb_neq].
Qed.

Lemma u16_testbit x i : 0 ≤ i < 16 → Z.testbit (u16 x) i = Z.testbit x i.
Proof. intros. unfold u16. by rewrite Z.mod_pow2_bits_low by lia. Qed.

Lemma u32_testbit x i : 0 ≤ i < 32 → Z.testbit (u32 x) i = Z.testbit x i.
Proof. intros. unfold u32. by rewrite Z.mod_pow2_bits_low by lia. Qed.

Lemma testbit_mod m k i : 0 ≤ i < k → Z.testbit (m `mod` 2^k) i = Z.testbit m i.
Proof. intros. by rewrite Z.mod_pow2_bits_low by lia. Qed.

Lemma low_zero m k i : Z.land m (Z.ones k) = 0 → 0 ≤ i < k → Z.testbit m i = false.
Proof.
  intros Hz Hi. rewrite Z.land_ones in Hz by lia. by rewrite <- (testbit_mod m k), Hz, Z.bits_0.
Qed.

Lemma low_nonzero m k : 0 ≤ m → 0 ≤ k → Z.land m (Z.ones k) = 0 → Z.shiftr m k = 0 → m = 0.
Proof.
  intros Hm Hk H1 H2. rewrite Z.land_ones in H1 by lia. rewrite Z.shiftr_div_pow2 in H2 by lia.
  pose proof (Z.div_mod m (2^k)). nia.
Qed.

(** The table entry of a nonzero nibble is its lowest bit. *)
Definition lowest_bit (m r : Z) : Prop :=
  0 ≤ r ∧ Z.testbit m r = true ∧ ∀ i, 0 ≤ i < r → Z.testbit m i = false.

Lemma nibble_table n : 0 < n < 16 →
  0 ≤ nth (Z.to_nat (n - 1)) bitmap_search_table 0 < 4 ∧
  lowest_bit n (nth (Z.to_nat (n - 1)) bitmap_search_table 0).
Proof.
  intros Hn. assert (Hx : n ∈ [1;2;3;4;5;6;7;8;9;10;11;12;13;14;15]).
  { rewrite !elem_of_cons. lia. }
  repeat (apply elem_of_cons in Hx as [->|Hx]; [simpl; split; [lia|split_and!; [lia|done|]];
    intros i Hi; assert (i = 0 ∨ i = 1 ∨ i = 2) as [->|[->| ->]] by lia; done || lia|]).
  by apply not_elem_of_nil in Hx.
Qed.

Lemma nibble_search m : 0 ≤ m → Z.land m 0x0f ≠ 0 →
  lowest_bit m (nth (Z.to_nat (Z.land m 0x0f - 1)) bitmap_search_table 0) ∧
  nth (Z.to_nat (Z.land m 0x0f - 1)) bitmap_search_table 0 < 4.
Proof.
  intros Hm Hn. change 0x0f with (Z.ones 4) in *. rewrite Z.land_ones in * by lia.
  pose proof (Z.mod_pos_bound m (2^4) ltac:(lia)).
  destruct (nibble_table (m `mod` 2^4)) as (H4 & H1 & H2 & H3); [lia|].
  split; [|lia]. split; [done|]. split.
  - rewrite <- H2. symmetry. apply testbit_mod. lia.
  - intros i Hi. rewrite <- (H3 i Hi). symmetry. apply testbit_mod. lia.
Qed.

Lemma lowest_bit_shift m k r :
  0 ≤ k → Z.land m (Z.ones k) = 0 → lowest_bit (Z.shiftr m k) r → lowest_bit m (k + r).
Proof.
  intros Hk Hz (H1 & H2 & H3). split_and!; [lia| |].
  - rewrite Z.shiftr_spec in H2 by lia. by rewrite Z.add_comm.
  - intros i Hi. destruct (decide (i < k)); [apply (low_zero m k); [done|lia]|].
    specialize (H3 (i - k) ltac:(lia)). rewrite Z.shiftr_spec in H3 by lia.
    by replace (i - k + k) with i in H3 by lia.
Qed.

Lemma lowest_bit_range m r k : 0 ≤ m < 2^k → 0 ≤ k → lowest_bit m r → r < k.
Proof.
  intros Hm Hk (H1 & H2 & _). destruct (Z_lt_le_dec r k) as [|Hr]; [done|].
  rewrite Z.bits_above_log2 in H2; [done|lia|].
  destruct (decide (m = 0)) as [->|]; [rewrite Z.bits_0 in H2; done|].
  apply Z.log2_lt_pow2; [lia|]. pose proof (Z.pow_le_mono_r 2 k r). lia.
Qed.

Lemma bitmap_search_lowest m : 0 < m < 2^16 → lowest_bit m (bitmap_search m).
Proof.
  intros Hm. unfold bitmap_search. change 0x00ff with (Z.ones 8). change 0x0f with (Z.ones 4).
  assert (Hsh : ∀ k, 0 ≤ k → Z.land m (Z.ones k) = 0 → 0 < Z.shiftr m k).
  { intros k Hk Hz. assert (0 ≤ Z.shiftr m k) by (apply Z.shiftr_nonneg; lia).
    destruct (decide (Z.shiftr m k = 0)) as [Hq|]; [|lia].
    pose proof (low_nonzero m k ltac:(lia) Hk Hz Hq). lia. }
  assert (Hlast : ∀ x n, 0 < x → (Z.land x (Z.ones 4) = 0 → Z.land (Z.shiftr x 4) (Z.ones 4) ≠ 0) →
    ∃ r, (let '(b, n') := if Z.land x (Z.ones 4) =? 0 then (Z.shiftr x 4, n + 4) else (x, n) in
     n' + nth (Z.to_nat (Z.land b (Z.ones 4) - 1)) bitmap_search_table 0) = n + r ∧ lowest_bit x r).
  { intros x n Hx Hx4. destruct (Z.eqb_spec (Z.land x (Z.ones 4)) 0) as [Hz|Hz].
    - destruct (nibble_search (Z.shiftr x 4)) as [Hl _]; [apply Z.shiftr_nonneg; lia|by apply Hx4|].
      eexists. split; [rewrite <- Z.add_assoc; reflexivity|].
      apply lowest_bit_shift; [lia|done|done].
    - destruct (nibble_search x) as [Hl _]; [lia|done|]. by eexists. }
  assert (Hnib : ∀ x, 0 < x < 2^8 → Z.land x (Z.ones 4) = 0 → Z.land (Z.shiftr x 4) (Z.ones 4) ≠ 0).
  { intros x Hx Hz H0. rewrite Z.land_ones in * by lia. rewrite Z.shiftr_div_pow2 in H0 by lia.
    rewrite Z.mod_small in H0; [|split; [apply Z.div_pos; lia|apply Z.div_lt_upper_bound; lia]].
    pose proof (Z.div_mod x (2^4)). lia. }
  destruct (Z.eqb_spec (Z.land m (Z.ones 8)) 0) as [Hz|Hz].
  - destruct (Hlast (Z.shiftr m 8) (0 + 8)) as (r & -> & Hr).
    + apply Hsh; [lia|done].
    + apply Hnib. split; [apply Hsh; [lia|done]|]. rewrite Z.shiftr_div_pow2 by lia.
      apply Z.div_lt_upper_bound; lia.
    + apply lowest_bit_shift; [lia|done|done].
  - destruct (Hlast m 0) as (r & -> & Hr); [lia| |done]. intros H4 H0. apply Hz.
    rewrite Z.land_ones in * by lia. rewrite Z.shiftr_div_pow2 in H0 by lia.
    pose proof (Z.div_mod m (2^4)). pose proof (Z.div_mod (m / 2^4) (2^4)).
    apply Z.mod_divide; [lia|]. exists (m / 2^4 / 2^4). lia.
Qed.

(** *** The precedence order *)

Lemma hd_error_mjoin {A} (f : nat → list A) a n (t : A) :
  hd_error (mjoin (f <$> seq a n)) = Some t ↔
  ∃ i, (a ≤ i < a + n)%nat ∧ hd_error (f i) = Some t ∧ ∀ j, (a ≤ j < i)%nat → f j = [].
Proof.
  revert a. induction n as [|n IH]; intros a; simpl.
  - split; [done|]. intros (i & ? & _). lia.
  - destruct (f a) as [|x l] eqn:Hfa; simpl.
    + rewrite IH. split.
      * intros (i & Hi & Hh & Hj). exists i. split_and!; [lia..|done|].
        intros j Hj'. destruct (decide (j = a)) as [->|]; [done|]. apply Hj. lia.
      * intros (i & Hi & Hh & Hj). exists i. destruct (decide (i = a)) as [->|]; [by rewrite Hfa in Hh|].
        split_and!; [lia..|done|]. intros j Hj'. apply Hj. lia.
    + split.
      * intros [= <-]. exists a. rewrite Hfa. split_and!; [lia..|done|]. lia.
      * intros (i & Hi & Hh & Hj). destruct (decide (i = a)) as [->|]; [by rewrite Hfa in Hh|].
        rewrite Hj in Hfa by lia. done.
Qed.

Lemma ready_head Q t :
  hd_error (ready_list Q) = Some t ↔
  ∃ p, 0 ≤ p < 16 ∧ hd_error (Q (RDQ p)) = Some t ∧ ∀ p', 0 ≤ p' < p → Q (RDQ p') = [].
Proof.
  unfold ready_list. rewrite hd_error_mjoin. split.
  - intros (i & Hi & Hh & Hj). exists (Z.of_nat i). split_and!; [lia..|done|].
    intros p' Hp'. rewrite <- (Z2Nat.id p') by lia. apply Hj. lia.
  - intros (p & Hp & Hh & Hj). exists (Z.to_nat p). rewrite Z2Nat.id by lia.
    split_and!; [lia..|done|]. intros j Hj'. apply Hj. lia.
Qed.

Lemma elem_of_ready_list Q t : t ∈ ready_list Q ↔ ∃ p, 0 ≤ p < 16 ∧ t ∈ Q (RDQ p).
Proof.
  unfold ready_list. rewrite list_elem_of_join. split.
  - intros (l & Ht & (i & -> & Hi%elem_of_seq)%list_elem_of_fmap). exists (Z.of_nat i). split; [lia|done].
  - intros (p & Hp & Ht). exists (Q (RDQ p)). split; [done|]. apply list_elem_of_fmap.
    exists (Z.to_nat p). rewrite Z2Nat.id by lia. split; [done|]. apply elem_of_seq. lia.
Qed.

Lemma ready_none Q : hd_error (ready_list Q) = None ↔ ∀ p, 0 ≤ p < 16 → Q (RDQ p) = [].
Proof.
  split.
  - intros Hn p Hp. destruct (Q (RDQ p)) as [|x l] eqn:Hq; [done|].
    assert (Hx : x ∈ ready_list Q) by (apply elem_of_ready_list; exists p; rewrite Hq; set_solver).
    destruct (ready_list Q); [by apply not_elem_of_nil in Hx|done].
  - intros Hall. destruct (hd_error (ready_list Q)) as [t|] eqn:Ht; [|done].
    apply ready_head in Ht as (p & Hp & Hh & _). by rewrite (Hall p Hp) in Hh.
Qed.

(** *** The bitmap *)

Lemma primap_set_ok m Q Q' p :
  primap_ok m Q → 0 ≤ p < 16 → (∀ p', p' ≠ p → Q' (RDQ p') = Q (RDQ p')) → Q' (RDQ p) ≠ [] →
  primap_ok (u16 (Z.lor m (PRIMAP_BIT p))) Q'.
Proof.
  intros [Hm Hb] Hp Hoth Hne. split; [apply Z.mod_pos_bound; lia|]. intros p' Hp'.
  rewrite u16_testbit by done. rewrite Z.lor_spec, testbit_shl1 by lia.
  case_bool_decide as Hd; [subst; rewrite orb_true_r; done|]. rewrite orb_false_r, Hoth by done. by apply Hb.
Qed.

Lemma primap_clear_ok m Q Q' p :
  primap_ok m Q → 0 ≤ p < 16 → (∀ p', p' ≠ p → Q' (RDQ p') = Q (RDQ p')) → Q' (RDQ p) = [] →
  primap_ok (u16 (Z.land m (u32 (Z.lnot (PRIMAP_BIT p))))) Q'.
Proof.
  intros [Hm Hb] Hp Hoth He. split; [apply Z.mod_pos_bound; lia|]. intros p' Hp'.
  rewrite u16_testbit by done. rewrite Z.land_spec, u32_testbit by lia.
  rewrite Z.lnot_spec, testbit_shl1 by lia.
  case_bool_decide as Hd; [subst; rewrite andb_false_r, He; done|].
  rewrite andb_true_r, Hoth by done. by apply Hb.
Qed.

Lemma primap_ok_ext m Q Q' :
  primap_ok m Q → (∀ p, 0 ≤ p < 16 → Q' (RDQ p) = [] ↔ Q (RDQ p) = []) → primap_ok m Q'.
Proof. intros [Hm Hb] Hext. split; [done|]. intros p Hp. rewrite Hext by done. by apply Hb. Qed.

Lemma primap_zero m Q : primap_ok m Q → m = 0 ↔ ∀ p, 0 ≤ p < 16 → Q (RDQ p) = [].
Proof.
  intros [Hm Hb]. split.
  - intros -> p Hp. destruct (Q (RDQ p)) eqn:Hq; [done|].
    assert (Z.testbit 0 p = true) as Ht by (apply Hb; [done|by rewrite Hq]). by rewrite Z.bits_0 in Ht.
  - intros Hall. apply Z.bits_inj_0. intros i.
    destruct (decide (0 ≤ i < 16)) as [Hi|Hi].
    + destruct (Z.testbit m i) eqn:Ht; [|done]. apply Hb in Ht; [|done]. by rewrite Hall in Ht.
    + destruct (decide (i < 0)); [by apply Z.testbit_neg_r|].
      destruct (decide (m = 0)) as [->|]; [apply Z.bits_0|].
      apply Z.bits_above_log2; [lia|]. apply Z.log2_lt_pow2; [lia|].
      pose proof (Z.pow_le_mono_r 2 16 i). lia.
Qed.

(** The bitmap search finds the highest priority with a ready task. *)
Lemma primap_search_head m Q t :
  primap_ok m Q → hd_error (ready_list Q) = Some t → m ≠ 0 ∧ hd_error (Q (RDQ (bitmap_search m))) = Some t.
Proof.
  intros Hok (p & Hp & Hh & Hlow)%ready_head. pose proof Hok as [Hm Hb].
  assert (Hne : Z.testbit m p = true) by (apply Hb; [done|by destruct (Q (RDQ p))]).
  assert (m ≠ 0) as Hm0 by (intros ->; by rewrite Z.bits_0 in Hne). split; [done|].
  assert (Hl : lowest_bit m (bitmap_search m)) by (apply bitmap_search_lowest; lia).
  pose proof (lowest_bit_range m _ 16 Hm ltac:(lia) Hl) as Hr. destruct Hl as (H1 & H2 & H3).
  replace (bitmap_search m) with p; [done|].
  destruct (Z.lt_trichotomy p (bitmap_search m)) as [Hlt|[|Hgt]]; [|done|].
  - by rewrite H3 in Hne by lia.
  - apply Hb in H2; [|lia]. by rewrite Hlow in H2 by lia.
Qed.

Lemma search_schedtsk_eq s t :
  primap_ok (ready_primap s) (wq s) → hd_error (ready_list (wq s)) = Some t →
  search_schedtsk s = RET t s.
Proof.
  intros Hok Ht. destruct (primap_search_head _ _ _ Hok Ht) as [Hne Hh].
  unfold search_schedtsk, primap_search, bind, kassert, kget, ret; simpl.
  rewrite (proj2 (Z.eqb_neq _ _) Hne); simpl. unfold queue_head, kget.
  destruct (wq s (RDQ (bitmap_search (ready_primap s)))); [done|]. by injection Hh as ->.
Qed.

(** *** The operations *)

Definition with_ready (Q : qid → list nat) (c : SCH) (s : State) : State :=
  s <| wq := Q |> <| sch := c |>.

(** A dispatch is requested when the task to run changes and dispatching is
    enabled. *)
Definition resched (s : State) (c : SCH) : bool :=
  negb (bool_decide (sc_p_schedtsk c = p_schedtsk s)) && dspflg s.

Lemma make_runnable_eq s t :
  let p := priority (tcb_table s t) in
  let Q' := Fam.queue_insert_prev (RDQ p) t (wq s) in
  sched_ok (tcb_table s) (wq s) (sch s) → (∀ p, t ∉ wq s (RDQ p)) → 0 ≤ p < 16 →
  ∃ c', sched_ok (tcb_table s) Q' c' ∧
    make_runnable t s = RET (resched s c') (with_ready Q' c' s).
Proof.
  intros p Q' [Hpri Hmap Hsch] Ht Hp.
  set (m' := u16 (Z.lor (ready_primap s) (PRIMAP_BIT p))).
  assert (Hoth : ∀ p', p' ≠ p → Q' (RDQ p') = wq s (RDQ p')).
  { intros p' Hne. apply fn_lookup_insert_ne. congruence. }
  assert (Hq : Q' (RDQ p) = wq s (RDQ p) ++ [t]) by apply fn_lookup_insert.
  assert (Hmap' : primap_ok m' Q').
  { apply (primap_set_ok _ (wq s)); [done..|]. rewrite Hq. by destruct (wq s (RDQ p)). }
  assert (Hpri' : pri_ok (tcb_table s) Q').
  { intros p' t' Ht'. destruct (decide (p' = p)) as [->|Hne]; [|rewrite Hoth in Ht' by done; by apply Hpri].
    rewrite Hq in Ht'. apply elem_of_app in Ht' as [Ht'| ->%list_elem_of_singleton]; [by apply Hpri|done]. }
  assert (Hnew : hd_error (ready_list Q') =
    if match p_schedtsk s with None => true | Some x => p <? priority (tcb_table s x) end
    then Some t else p_schedtsk s).
  { rewrite Hsch. destruct (hd_error (ready_list (wq s))) as [x|] eqn:Hx.
    - apply ready_head in Hx as (px & Hpx & Hhx & Hlow).
      assert (Hpx' : priority (tcb_table s x) = px).
      { apply Hpri. destruct (wq s (RDQ px)); [done|]. injection Hhx as ->. left. }
      rewrite Hpx'. destruct (Z.ltb_spec p px) as [Hlt|Hle]; apply ready_head.
      + exists p. rewrite Hq, (Hlow p) by lia. split_and!; [lia..|done|].
        intros p' Hp'. rewrite Hoth by lia. apply Hlow. lia.
      + exists px. split_and!; [lia..| |].
        * destruct (decide (px = p)) as [->|]; [rewrite Hq|by rewrite Hoth].
          by destruct (wq s (RDQ p)).
        * intros p' Hp'. rewrite Hoth by lia. apply Hlow. lia.
    - pose proof (proj1 (ready_none _) Hx) as Hnone. apply ready_head. exists p.
      rewrite Hq, Hnone by done. split_and!; [lia..|done|].
      intros p' Hp'. rewrite Hoth by lia. apply Hnone. lia. }
  exists (mkSCH (hd_error (ready_list Q')) m'). split; [by split|].
  rewrite Hnew. unfold make_runnable, kget, bind, queue_insert_prev, primap_set, upd; simpl.
  unfold upd_sch, upd_wq, kget, set_schedtsk, upd, ret; simpl.
  destruct (match p_schedtsk s with None => true | Some x => p <? priority (tcb_table s x) end) eqn:Hc;
    fold p; rewrite Hc; simpl; unfold resched, with_ready; simpl; f_equal.
  - rewrite bool_decide_false; [done|]. intros Heq. rewrite Hsch in Heq. symmetry in Heq.
    apply ready_head in Heq as (p' & _ & Hh & _). apply (Ht p').
    destruct (wq s (RDQ p')); [done|]. injection Hh as ->. left.
  - by rewrite bool_decide_true.
Qed.

(** Taking a task out of the ready queues. *)
Lemma queue_delete_other t (Q : qid → list nat) q : t ∉ Q q → Fam.queue_delete t Q q = Q q.
Proof. apply without_id. Qed.

Lemma hd_error_elem {A} (l : list A) (x : A) : hd_error l = Some x → x ∈ l.
Proof. destruct l; [done|]. intros [= ->]. left. Qed.

Lemma hd_error_without (l : list nat) x t : hd_error l = Some x → x ≠ t → hd_error (without t l) = Some x.
Proof.
  destruct l as [|y l]; [done|]. intros [= ->] Hne. unfold without. by rewrite filter_cons_True.
Qed.

Lemma ready_delete_other Q t x :
  hd_error (ready_list Q) = Some x → x ≠ t →
  hd_error (ready_list (Fam.queue_delete t Q)) = Some x.
Proof.
  intros (p & Hp & Hh & Hlow)%ready_head Hne. apply ready_head. exists p. split_and!; [lia..| |].
  - by apply hd_error_without.
  - intros p' Hp'. unfold Fam.queue_delete. by rewrite Hlow.
Qed.

Lemma ready_delete_head Q t :
  t ∉ ready_list (Fam.queue_delete t Q).
Proof.
  intros (p & _ & Ht)%elem_of_ready_list. apply elem_of_without in Ht as [_ Ht]. done.
Qed.

Lemma pri_ok_delete T Q t : pri_ok T Q → pri_ok T (Fam.queue_delete t Q).
Proof. intros Hpri p t' [Ht _]%elem_of_without. by apply Hpri. Qed.

Lemma only_ready_queue T Q t p : pri_ok T Q → t ∈ Q (RDQ p) →
  ∀ p', p' ≠ p → Fam.queue_delete t Q (RDQ p') = Q (RDQ p').
Proof.
  intros Hpri Ht p' Hne. apply queue_delete_other. intros Ht'.
  destruct (Hpri _ _ Ht), (Hpri _ _ Ht'). congruence.
Qed.

Lemma primap_delete m T Q t p :
  primap_ok m Q → pri_ok T Q → t ∈ Q (RDQ p) → 0 ≤ p < 16 →
  primap_ok (if Fam.queue_empty (RDQ p) (Fam.queue_delete t Q)
             then u16 (Z.land m (u32 (Z.lnot (PRIMAP_BIT p)))) else m)
    (Fam.queue_delete t Q).
Proof.
  intros Hok Hpri Ht Hp. pose proof (only_ready_queue _ _ _ _ Hpri Ht) as Hoth.
  unfold Fam.queue_empty. destruct (Fam.queue_delete t Q (RDQ p)) as [|x l] eqn:Hq.
  - by apply (primap_clear_ok _ Q).
  - apply (primap_ok_ext _ Q); [done|]. intros p' Hp'. destruct (decide (p' = p)) as [->|Hne].
    + rewrite Hq. destruct (Q (RDQ p)); [by apply not_elem_of_nil in Ht|done].
    + by rewrite Hoth.
Qed.

Lemma ready_nonempty T Q t p : pri_ok T Q → t ∈ Q (RDQ p) → ∃ x, hd_error (ready_list Q) = Some x.
Proof.
  intros Hpri Ht. destruct (hd_error (ready_list Q)) as [x|] eqn:Hx; [by exists x|].
  destruct (Hpri _ _ Ht) as [_ Hp]. apply ready_none with (p := p) in Hx; [|done].
  rewrite Hx in Ht. by apply not_elem_of_nil in Ht.
Qed.

Lemma make_non_runnable_eq s t :
  let p := priority (tcb_table s t) in
  let Q' := Fam.queue_delete t (wq s) in
  sched_ok (tcb_table s) (wq s) (sch s) → t ∈ wq s (RDQ p) →
  ∃ c', sched_ok (tcb_table s) Q' c' ∧
    make_non_runnable t s = RET (resched s c') (with_ready Q' c' s).
Proof.
  intros p Q' [Hpri Hmap Hsch] Ht. destruct (Hpri _ _ Ht) as [_ Hp].
  pose proof (primap_delete _ _ _ _ _ Hmap Hpri Ht Hp) as Hmap'. fold Q' in Hmap'.
  pose proof (pri_ok_delete _ _ t Hpri) as Hpri'. fold Q' in Hpri'.
  set (m' := if Fam.queue_empty (RDQ p) Q' then _ else _) in Hmap'.
  exists (mkSCH (hd_error (ready_list Q')) m'). split; [by split|].
  destruct (ready_nonempty _ _ _ _ Hpri Ht) as [x Hx].
  assert (Hres : resched s (mkSCH (hd_error (ready_list Q')) m') =
    bool_decide (p_schedtsk s = Some t) && dspflg s).
  { unfold resched; simpl. f_equal. rewrite Hsch, Hx. destruct (decide (x = t)) as [->|Hne].
    - rewrite bool_decide_false, bool_decide_true; [done..|].
      intros Hd%hd_error_elem. by apply (ready_delete_head (wq s) t).
    - rewrite bool_decide_true, bool_decide_false; [done|congruence|by apply ready_delete_other]. }
  assert (Hother : p_schedtsk s ≠ Some t → hd_error (ready_list Q') = p_schedtsk s).
  { rewrite Hsch, Hx. intros Hne. apply ready_delete_other; [done|congruence]. }
  rewrite Hres. clear Hres. unfold make_non_runnable, kget, bind, queue_delete, upd; simpl.
  fold p. change (wq (upd_wq (Fam.queue_delete t) s)) with Q'.
  unfold queue_empty; simpl. fold Q'. subst m'. destruct (Fam.queue_empty (RDQ p) Q') eqn:Hemp.
  - unfold primap_clear, upd; simpl. set (m' := u16 _) in *.
    destruct (bool_decide (p_schedtsk s = Some t)) eqn:Hd; simpl.
    2:{ apply bool_decide_eq_false, Hother in Hd. by rewrite Hd. }
    unfold primap_empty; simpl. fold m'. destruct (m' =? 0) eqn:Hz; simpl.
    + apply Z.eqb_eq in Hz. rewrite (proj2 (ready_none Q')); [done|].
      by apply (primap_zero m').
    + apply Z.eqb_neq in Hz. destruct (hd_error (ready_list Q')) as [y|] eqn:Hy.
      * unfold bind. rewrite (search_schedtsk_eq _ y); [done|exact Hmap'|exact Hy].
      * exfalso. by apply Hz, (primap_zero m' Q' Hmap'), ready_none.
  - destruct (bool_decide (p_schedtsk s = Some t)) eqn:Hd; simpl.
    2:{ apply bool_decide_eq_false, Hother in Hd. unfold with_ready. rewrite Hd.
        unfold upd_wq, set; simpl. by destruct s as [????[]]. }
    unfold queue_head, kget; simpl. fold Q'. unfold Fam.queue_empty in Hemp.
    apply bool_decide_eq_true in Hd. rewrite Hsch in Hd.
    assert (Hnew : hd_error (ready_list Q') = hd_error (Q' (RDQ p))).
    { destruct (Q' (RDQ p)) as [|y l] eqn:Hq; [done|]. apply ready_head. exists p.
      rewrite Hq. split_and!; [lia..|done|]. apply ready_head in Hd as (p' & _ & Hh & Hlow).
      destruct (Hpri _ _ (hd_error_elem _ _ Hh)) as [<- _]. fold p in Hlow.
      intros p'' Hp''. unfold Q', Fam.queue_delete. by rewrite Hlow. }
    rewrite Hnew. unfold with_ready. destruct (Q' (RDQ p)) as [|y l] eqn:Hq; [done|]. simpl.
    done.
Qed.

Lemma rotate_ready_queue_eq s pri :
  sched_ok (tcb_table s) (wq s) (sch s) → 0 ≤ pri < 16 → NoDup (wq s (RDQ pri)) →
  let Q' := match wq s (RDQ pri) with
            | x :: y :: l => Fam.queue_insert_prev (RDQ pri) x (<[RDQ pri := y :: l]> (wq s))
            | _ => wq s
            end in
  ∃ c', sched_ok (tcb_table s) Q' c' ∧
    rotate_ready_queue pri s = RET (resched s c') (with_ready Q' c' s).
Proof.
  intros [Hpri Hmap Hsch] Hp Hnd. unfold rotate_ready_queue, kget, bind; simpl.
  destruct (wq s (RDQ pri)) as [|x [|y l]] eqn:Hq.
  1-2: exists (sch s); (split; [by split|]); unfold resched; rewrite bool_decide_true by done;
    by destruct s.

  set (Q' := Fam.queue_insert_prev _ _ _).
  assert (Hoth : ∀ p', p' ≠ pri → Q' (RDQ p') = wq s (RDQ p')).
  { intros p' Hne. unfold Q', Fam.queue_insert_prev. by rewrite !fn_lookup_insert_ne by congruence. }
  assert (Hq' : Q' (RDQ pri) = y :: l ++ [x]).
  { unfold Q', Fam.queue_insert_prev. by rewrite !fn_lookup_insert. }
  assert (Hpri' : pri_ok (tcb_table s) Q').
  { intros p' t Ht. destruct (decide (p' = pri)) as [->|Hne]; [|rewrite Hoth in Ht by done; by apply Hpri].
    apply Hpri. rewrite Hq. rewrite Hq' in Ht. set_solver. }
  assert (Hmap' : primap_ok (ready_primap s) Q').
  { apply (primap_ok_ext _ (wq s)); [done|]. intros p' _.
    destruct (decide (p' = pri)) as [->|Hne]; [by rewrite Hq, Hq'|by rewrite Hoth]. }
  exists (mkSCH (hd_error (ready_list Q')) (ready_primap s)). split; [by split|].
  apply NoDup_cons in Hnd as [Hx _].
  unfold queue_delete_next, Fam.queue_delete_next. rewrite Hq; simpl.
  unfold queue_insert_prev, upd; simpl.
  change (wq (upd_wq _ _)) with Q'. destruct (bool_decide (p_schedtsk s = Some x)) eqn:Hd; simpl.
  - apply bool_decide_eq_true in Hd. unfold queue_head, kget; simpl. fold Q'. rewrite Hq'. simpl.
    assert (Hnew : hd_error (ready_list Q') = Some y).
    { apply ready_head. exists pri. rewrite Hq'. split_and!; [lia..|done|].
      rewrite Hsch in Hd. apply ready_head in Hd as (p & _ & Hh & Hlow).
      assert (p = pri) as ->.
      { destruct (Hpri _ _ (hd_error_elem _ _ Hh)) as [<- _]. apply Hpri. rewrite Hq. left. }
      intros p' Hp'. rewrite Hoth by lia. by apply Hlow. }
    rewrite Hnew. unfold set_schedtsk, upd, ret; simpl. unfold resched, with_ready; simpl.
    rewrite bool_decide_false; [done|]. rewrite Hd. intros [= ->]. apply Hx. left.
  - apply bool_decide_eq_false in Hd.
    assert (Hnew : hd_error (ready_list Q') = p_schedtsk s).
    { rewrite Hsch in *. assert (Hy : x ∈ wq s (RDQ pri)) by (rewrite Hq; left).
      destruct (ready_nonempty _ _ _ _ Hpri Hy) as [z Hz]. rewrite Hz in *.
      apply ready_head in Hz as (p & Hp0 & Hh & Hlow). apply ready_head. exists p.
      split_and!; [lia..| |].
      - destruct (decide (p = pri)) as [->|]; [|by rewrite Hoth]. rewrite Hq in Hh. by injection Hh as ->.
      - intros p' Hp'. destruct (decide (p' = pri)) as [->|]; [|rewrite Hoth by done; by apply Hlow].
        by rewrite Hlow in Hq. }
    unfold resched, with_ready. rewrite Hnew. simpl. rewrite bool_decide_true by done.
    unfold ret. f_equal. unfold upd_wq, set; simpl. by destruct s as [????[]].
Qed.

(** The queues after a change of priority in the ready state. *)
Definition requeue (mtxmode : bool) (t : nat) (newpri : Z) (Q : qid → list nat) : qid → list nat :=
  (if mtxmode then Fam.queue_insert_next else Fam.queue_insert_prev) (RDQ newpri) t
    (Fam.queue_delete t Q).

Definition set_priority (newpri : Z) (T : TCB) : TCB := T <| priority := newpri |>.

Lemma requeue_same mtxmode t newpri Q :
  requeue mtxmode t newpri Q (RDQ newpri) =
  if mtxmode then t :: Fam.queue_delete t Q (RDQ newpri)
  else Fam.queue_delete t Q (RDQ newpri) ++ [t].
Proof. unfold requeue. destruct mtxmode; apply fn_lookup_insert. Qed.

Lemma requeue_other mtxmode t newpri Q q :
  q ≠ RDQ newpri → requeue mtxmode t newpri Q q = Fam.queue_delete t Q q.
Proof. intros. unfold requeue. destruct mtxmode; apply fn_lookup_insert_ne; congruence. Qed.

Lemma requeue_ready_ok T Q m t newpri mtxmode :
  pri_ok T Q → primap_ok m Q → t ∈ Q (RDQ (priority (T t))) → 0 ≤ newpri < 16 →
  let Q' := requeue mtxmode t newpri Q in
  let oldpri := priority (T t) in
  let m1 := if Fam.queue_empty (RDQ oldpri) (Fam.queue_delete t Q)
            then u16 (Z.land m (u32 (Z.lnot (PRIMAP_BIT oldpri)))) else m in
  pri_ok (<[t := set_priority newpri (T t)]> T) Q' ∧ primap_ok (u16 (Z.lor m1 (PRIMAP_BIT newpri))) Q'.
Proof.
  intros Hpri Hmap Ht Hnew Q' oldpri m1. destruct (Hpri _ _ Ht) as [_ Hold].
  pose proof (primap_delete _ _ _ _ _ Hmap Hpri Ht Hold) as Hmap1. fold oldpri m1 in Hmap1. split.
  - intros p x Hx. destruct (decide (p = newpri)) as [->|Hne].
    + unfold Q' in Hx. rewrite requeue_same in Hx.
      assert (x = t ∨ x ∈ Fam.queue_delete t Q (RDQ newpri)) as [->|[Hx' Hxt]%elem_of_without]
        by (destruct mtxmode; set_solver).
      * by rewrite fn_lookup_insert.
      * rewrite fn_lookup_insert_ne by done. by apply Hpri.
    + unfold Q' in Hx. rewrite requeue_other in Hx by congruence.
      apply elem_of_without in Hx as [Hx Hxt]. rewrite fn_lookup_insert_ne by done. by apply Hpri.
  - eapply primap_set_ok; [exact Hmap1|done| |].
    + intros p' Hne. apply requeue_other. congruence.
    + unfold Q'. rewrite requeue_same. destruct mtxmode; [done|]. by destruct (Fam.queue_delete _ _ _).
Qed.

(** The new highest-precedence task, by the cases of the code. *)
Lemma requeue_head_same T Q t newpri mtxmode :
  pri_ok T Q → hd_error (ready_list Q) = Some t → 0 ≤ newpri < priority (T t) →
  hd_error (ready_list (requeue mtxmode t newpri Q)) = Some t.
Proof.
  intros Hpri (p & Hp & Hh & Hlow)%ready_head Hnew.
  destruct (Hpri _ _ (hd_error_elem _ _ Hh)) as [Heq _]. apply ready_head. exists newpri.
  rewrite requeue_same. unfold Fam.queue_delete at 1 2. rewrite Hlow by lia.
  split_and!; [lia..|by destruct mtxmode|]. intros p' Hp'.
  rewrite requeue_other by (intros [= ->]; lia). unfold Fam.queue_delete. by rewrite Hlow by lia.
Qed.

Lemma requeue_head_other T Q t x newpri (mtxmode : bool) :
  pri_ok T Q → hd_error (ready_list Q) = Some x → x ≠ t → 0 ≤ newpri < 16 →
  hd_error (ready_list (requeue mtxmode t newpri Q)) =
  Some (if (if mtxmode then newpri <=? priority (T x) else newpri <? priority (T x)) then t else x).
Proof.
  intros Hpri (p & Hp & Hh & Hlow)%ready_head Hxt Hnew.
  destruct (Hpri _ _ (hd_error_elem _ _ Hh)) as [-> _]. apply ready_head.
  assert (Hlow' : ∀ p', 0 ≤ p' < p → p' ≠ newpri → requeue mtxmode t newpri Q (RDQ p') = []).
  { intros p' Hp' Hne. rewrite requeue_other by congruence. unfold Fam.queue_delete. by rewrite Hlow. }
  assert (Hd : hd_error (Fam.queue_delete t Q (RDQ p)) = Some x) by (by apply hd_error_without).
  destruct (if mtxmode then newpri <=? p else newpri <? p) eqn:Hc.
  - assert (newpri ≤ p ∧ (mtxmode = false → newpri < p)) as [H1 H2] by (destruct mtxmode; lia).
    exists newpri. rewrite requeue_same. split_and!; [lia..| |].
    + destruct mtxmode; [done|]. unfold Fam.queue_delete. rewrite Hlow by lia. done.
    + intros p' Hp'. apply Hlow'; lia.
  - assert (p ≤ newpri ∧ (mtxmode = true → p < newpri)) as [H1 H2] by (destruct mtxmode; lia).
    exists p. split_and!; [lia..| |].
    + destruct (decide (p = newpri)) as [->|Hne]; [|rewrite requeue_other by congruence; done].
      rewrite requeue_same. destruct mtxmode; [lia|].
      by destruct (Fam.queue_delete t Q (RDQ newpri)).
    + intros p' Hp'. apply Hlow'; lia.
Qed.

Lemma change_priority_ready_eq s t newpri mtxmode :
  sched_ok (tcb_table s) (wq s) (sch s) → TSTAT_RUNNABLE (tstat (tcb_table s t)) = true →
  t ∈ wq s (RDQ (priority (tcb_table s t))) → 0 ≤ newpri < 16 →
  let s1 := upd_tcb t (set_priority newpri) s in
  let Q' := requeue mtxmode t newpri (wq s) in
  ∃ c', sched_ok (tcb_table s1) Q' c' ∧
    change_priority t newpri mtxmode s = RET (resched s c') (with_ready Q' c' s1).
Proof.
  intros [Hpri Hmap Hsch] Hrun Ht Hnew s1 Q'.
  destruct (requeue_ready_ok _ _ _ _ newpri mtxmode Hpri Hmap Ht Hnew) as [Hpri' Hmap'].
  fold Q' in Hpri', Hmap'. set (m1 := if Fam.queue_empty _ _ then _ else _) in Hmap'.
  set (m' := u16 _) in Hmap'.
  exists (mkSCH (hd_error (ready_list Q')) m'). split; [by split|].
  destruct (ready_nonempty _ _ _ _ Hpri Ht) as [x Hx].
  set (s2 := with_ready Q' (mkSCH (p_schedtsk s) m') s1).
  assert (Heq : change_priority t newpri mtxmode s =
    (get s3;;
    if bool_decide (p_schedtsk s3 = Some t) then
      if priority (tcb_table s t) <=? newpri then
        p <- search_schedtsk ;;
        set_schedtsk (Some p) ;;;
        get s;; ret (negb (bool_decide (p_schedtsk s = Some t)) && dspflg s)
      else ret false
    else
      the p := p_schedtsk s3 ;;
      if (if mtxmode then newpri <=? priority (tcb_table s3 p)
          else newpri <? priority (tcb_table s3 p))
      then set_schedtsk (Some t) ;;; get s;; ret (dspflg s)
      else ret false) s2).
  { unfold change_priority, kget, bind, upd; simpl.
    unfold insert at 1, fn_insert at 1. rewrite decide_True by done. simpl. rewrite Hrun.
    unfold queue_delete, upd, kget; simpl. unfold s2, m', m1, Q', requeue, with_ready, queue_empty; simpl.
    destruct (Fam.queue_empty (RDQ (priority (tcb_table s t))) (Fam.queue_delete t (wq s)));
      destruct mtxmode; reflexivity. }
  rewrite Heq. clear Heq. unfold kget, bind.
  change (p_schedtsk s2) with (p_schedtsk s). unfold resched; simpl. rewrite Hsch, Hx.
  destruct (decide (x = t)) as [->|Hxt].
  - rewrite !(bool_decide_true (Some t = Some t)) by done. simpl.
    destruct (Z.leb_spec (priority (tcb_table s t)) newpri) as [Hle|Hlt].
    + destruct (hd_error (ready_list Q')) as [y|] eqn:Hy.
      2:{ exfalso. apply ready_none with (p := newpri) in Hy; [|done].
          unfold Q' in Hy. rewrite requeue_same in Hy. destruct mtxmode; [done|].
          by destruct (Fam.queue_delete _ _ _). }
      rewrite (search_schedtsk_eq s2 y); [|done|done]. simpl. done.
    + assert (Hy : hd_error (ready_list Q') = Some t).
      { eapply requeue_head_same; [done|congruence|lia]. }
      rewrite Hy, bool_decide_true by done. simpl. unfold s2. by rewrite Hsch, Hx.
  - rewrite (bool_decide_false (Some x = Some t)) by congruence. simpl.
    pose proof (requeue_head_other _ _ _ _ _ mtxmode Hpri Hx Hxt Hnew) as Hy. fold Q' in Hy.
    rewrite (fn_lookup_insert_ne _ t x) by done. rewrite Hy.
    destruct (if mtxmode then _ else _); simpl.
    + by rewrite bool_decide_false by congruence.
    + rewrite bool_decide_true by done. unfold s2. by rewrite Hsch, Hx.
Qed.
End task.
