(* ===== verification/Wait.v ===== *)
(** * Wait and release (kernel/wait.c, wait.h)

    A task waits with a WINFO in the frame of its service call, in the wait
    queue of an object or in none, with a time event or without.  The frame
    number names the WINFO and its TMEVTB; the object is named by its first
    wait queue. *)

From S2P Require Import Prelude Queue Data Kmonad TimeEvent Task.
Open Scope Z_scope.

Section wait.
Context {cfg : Config}.
Implicit Types (q : qid) (w : nat).

(** The local variables [winfo] and [tmevtb] of a service call. *)
Definition winfo_init : WINFO_WOBJ := mkWINFO_WOBJ (WERCD 0) None 0 0 0 0 0 0 0.
Definition new_winfo : K nat := fun s =>
  RET (next_frame s)
    (upd_winfo (next_frame s) (fun _ => winfo_init) (s <| next_frame ::= S |>)).

Definition set_winfo w (v : WINFO) : K () := upd (upd_winfo w (fun W => W <| winfo := v |>)).
Definition set_tstat (p_tcb : nat) (v : Z) : K () :=
  upd (upd_tcb p_tcb (fun T => T <| tstat := v |>)).

(** [winfo.wercd]. *)
Definition get_wercd w : K Z :=
  get s;; match winfo (winfos s w) with WERCD e => ret e | P_TMEVTB _ => undef end.

(** [p_tcb->p_winfo->wercd = ercd]. *)
Definition set_wercd (p_tcb : nat) (ercd : Z) : K () :=
  get s;; the w := p_winfo (tcb_table s p_tcb) ;; set_winfo w (WERCD ercd).

Definition make_wait w : K () :=
  get s;; the t := p_runtsk s ;;
  make_non_runnable t ;;;
  upd (upd_tcb t (fun T => T <| p_winfo := Some w |>)) ;;;
  set_winfo w (P_TMEVTB None).

Definition make_wait_tmout w (tmout : Z) : K () :=
  get s;; the t := p_runtsk s ;;
  make_non_runnable t ;;;
  upd (upd_tcb t (fun T => T <| p_winfo := Some w |>)) ;;;
  if 0 <? tmout then
    set_winfo w (P_TMEVTB (Some (TM_TSK w))) ;;;
    tmevtb_enqueue (TM_TSK w) tmout wait_tmout_cb t
  else
    kassert (fun _ => tmout =? TMO_FEVR) ;;;
    set_winfo w (P_TMEVTB None).

Definition make_non_wait (p_tcb : nat) : K bool :=
  kassert (fun s => TSTAT_WAITING (tstat (tcb_table s p_tcb))) ;;;
  get s;;
  if negb (TSTAT_SUSPENDED (tstat (tcb_table s p_tcb))) then
    set_tstat p_tcb TS_RUNNABLE ;;;
    make_runnable p_tcb
  else
    set_tstat p_tcb TS_SUSPENDED ;;;
    ret false.

Definition wait_dequeue_wobj (p_tcb : nat) : K () :=
  get s;;
  if TSTAT_WAIT_WOBJ (tstat (tcb_table s p_tcb)) then queue_delete p_tcb else ret ().

Definition wait_dequeue_tmevtb (p_tcb : nat) : K () :=
  get s;; the w := p_winfo (tcb_table s p_tcb) ;;
  match winfo (winfos s w) with
  | P_TMEVTB None => ret ()
  | P_TMEVTB (Some b) => tmevtb_dequeue b
  | WERCD _ => undef
  end.

Definition wait_complete (p_tcb : nat) : K bool :=
  wait_dequeue_tmevtb p_tcb ;;;
  set_wercd p_tcb E_OK ;;;
  make_non_wait p_tcb.

Definition wait_tmout (p_tcb : nat) : K () :=
  wait_dequeue_wobj p_tcb ;;;
  set_wercd p_tcb E_TMOUT ;;;
  b <- make_non_wait p_tcb ;;
  (if b : bool then set_reqflg true else ret ()) ;;;
  unlock_cpu ;;; yield Window ;;; lock_cpu.

Definition wait_tmout_ok (p_tcb : nat) : K () :=
  set_wercd p_tcb E_OK ;;;
  b <- make_non_wait p_tcb ;;
  (if b : bool then set_reqflg true else ret ()) ;;;
  unlock_cpu ;;; yield Window ;;; lock_cpu.

Definition wait_release (p_tcb : nat) : K bool :=
  wait_dequeue_wobj p_tcb ;;;
  wait_dequeue_tmevtb p_tcb ;;;
  set_wercd p_tcb E_RLWAI ;;;
  make_non_wait p_tcb.

Definition wait_tskid q (s : State) : Z :=
  match wq s q with [] => TSK_NONE | t :: _ => IDOF t end.

Definition wobj_queue_insert q : K () :=
  get s;; the t := p_runtsk s ;;
  if bits (wobjatr s q) TA_TPRI then queue_insert_tpri q t else queue_insert_prev q t.

(** [winfo_wobj.p_wobjcb = p_wobjcb]. *)
Definition set_wobjcb w q : K () := upd (upd_winfo w (fun W => W <| p_wobjcb := Some q |>)).

Definition wobj_make_wait q w : K () :=
  make_wait w ;;;
  wobj_queue_insert q ;;;
  set_wobjcb w q.

Definition wobj_make_wait_tmout q w (tmout : Z) : K () :=
  make_wait_tmout w tmout ;;;
  wobj_queue_insert q ;;;
  set_wobjcb w q.

(** The loop of [init_wait_queue]; every iteration takes a task off the queue,
    so its length bounds the iterations. *)
Fixpoint init_wait_queue_loop (fuel : nat) q (dspreq : bool) : K bool :=
  get s;;
  if queue_empty q s then ret dspreq
  else
    match fuel with
    | O => undef
    | S fuel =>
        p_tcb <- queue_delete_next q ;;
        wait_dequeue_tmevtb p_tcb ;;;
        set_wercd p_tcb E_DLT ;;;
        b <- make_non_wait p_tcb ;;
        init_wait_queue_loop fuel q (if b : bool then true else dspreq)
    end.

(** The header of the queue of an object that does not exist is a link of the
    list of free control blocks. *)
Definition header_ok (s : State) q : bool :=
  match q with
  | RDQ _ => true
  | SEMQ i => bool_decide (i ∉ o_free_semcb (obj s))
  | FLGQ i => bool_decide (i ∉ o_free_flgcb (obj s))
  | SDTQ i => bool_decide (i ∉ o_free_dtqcb (obj s))
  | SPDQ i => bool_decide (i ∉ o_free_pdqcb (obj s))
  | MBXQ i => bool_decide (i ∉ o_free_mbxcb (obj s))
  | MPFQ i => bool_decide (i ∉ o_free_mpfcb (obj s))
  | MTXQ i => bool_decide (i ∉ o_free_mtxcb (obj s))
  | RDTQ _ | RPDQ _ => true
  end.

Definition init_wait_queue q : K bool :=
  kassert (fun s => header_ok s q) ;;;
  get s;; init_wait_queue_loop (length (wq s q)) q false.

End wait.
