(* ===== verification/Core.v ===== *)
(** * The invariant of tasks, queues and time events

    [tst] is the abstract state of a task, with the queue it waits in and its
    timer; [enc] is its encoding in [tstat].  [KInv g s] says that the kernel
    state [s] implements the abstract task states [g]: every queue holds
    exactly the tasks whose abstract state puts them there, the ready queue
    and the time event heap satisfy their own invariants, and a timer is
    registered exactly for the tasks that wait with one.

    The intermediate states the code goes through are part of [tst]: a task
    taken off its wait queue and not yet released ([Detached]), a task whose
    timer was taken off the heap and whose callback was not yet called
    ([Fired]), and a task that is about to become dormant and was taken off
    the ready queue ([Parked]). *)

From S2P Require Import Prelude Queue Data Kmonad TimeEvent Task Wait.
Open Scope Z_scope.

Inductive cause := DLY | SLP | WOBJ (q : qid) | Detached (q : qid).
Inductive timer := NoTimer | Timer | Fired.
Inductive tst :=
  | Dormant
  | Runnable
  | Parked
  | Suspended
  | Waiting (w : nat) (c : cause) (susp : bool) (tm : timer).

#[export] Instance cause_eq_dec : EqDecision cause.
Proof. solve_decision. Defined.
#[export] Instance timer_eq_dec : EqDecision timer.
Proof. solve_decision. Defined.
#[export] Instance tst_eq_dec : EqDecision tst.
Proof. solve_decision. Defined.

(** ** Encoding *)

Definition queue_code (q : qid) : Z :=
  match q with
  | RDQ _ => 0
  | SEMQ _ => TS_WAIT_SEM | FLGQ _ => TS_WAIT_FLG
  | SDTQ _ => TS_WAIT_SDTQ | RDTQ _ => TS_WAIT_RDTQ
  | SPDQ _ => TS_WAIT_SPDQ | RPDQ _ => TS_WAIT_RPDQ
  | MBXQ _ => TS_WAIT_MBX | MPFQ _ => TS_WAIT_MPF | MTXQ _ => TS_WAIT_MTX
  end.

Definition cause_code (c : cause) : Z :=
  match c with
  | DLY => TS_WAIT_DLY
  | SLP => TS_WAIT_SLP
  | WOBJ q | Detached q => queue_code q
  end.

Definition enc (st : tst) : Z :=
  match st with
  | Dormant => TS_DORMANT
  | Runnable | Parked => TS_RUNNABLE
  | Suspended => TS_SUSPENDED
  | Waiting _ c susp _ =>
      Z.lor (Z.lor TS_WAITING (cause_code c)) (if susp then TS_SUSPENDED else 0)
  end.

(** The object of a wait queue, named by its first queue. *)
Definition wobj_of (q : qid) : qid :=
  match q with RDTQ i => SDTQ i | RPDQ i => SPDQ i | q => q end.

Definition is_ready_queue (q : qid) : bool := match q with RDQ _ => true | _ => false end.
(** The queues that are the first of their object (WOBJCB). *)
Definition is_wobjcb (q : qid) : bool :=
  match q with RDQ _ | RDTQ _ | RPDQ _ => false | _ => true end.

Definition is_waiting (st : tst) : bool := match st with Waiting _ _ _ _ => true | _ => false end.
Definition is_suspended (st : tst) : bool :=
  match st with Suspended | Waiting _ _ true _ => true | _ => false end.

Definition frame_of (st : tst) : option nat :=
  match st with Waiting w _ _ _ => Some w | _ => None end.

(** A wait in a queue is in the wait queue of an object. *)
Definition cause_wf (c : cause) : Prop :=
  match c with WOBJ q | Detached q => is_ready_queue q = false | _ => True end.
Definition tst_wf (st : tst) : Prop :=
  match st with Waiting _ c _ _ => cause_wf c | _ => True end.

Ltac enc_cases :=
  match goal with
  | |- context [enc ?st] =>
      destruct st as [| | | |? [| |[]|[]] [] ?]; simpl in *; try done; reflexivity
  end.

Lemma enc_runnable st : tst_wf st → TSTAT_RUNNABLE (enc st) = bool_decide (st = Runnable ∨ st = Parked).
Proof. intros. enc_cases. Qed.
Lemma enc_waiting st : tst_wf st → TSTAT_WAITING (enc st) = is_waiting st.
Proof. intros. enc_cases. Qed.
Lemma enc_suspended st : tst_wf st → TSTAT_SUSPENDED (enc st) = is_suspended st.
Proof. intros. enc_cases. Qed.
Lemma enc_dormant st : tst_wf st → TSTAT_DORMANT (enc st) = bool_decide (st = Dormant).
Proof. intros. enc_cases. Qed.
Lemma enc_wobj st : tst_wf st → TSTAT_WAIT_WOBJ (enc st) =
  match st with Waiting _ (WOBJ _ | Detached _) _ _ => true | _ => false end.
Proof. intros. enc_cases. Qed.
Lemma enc_wobjcb st : tst_wf st → TSTAT_WAIT_WOBJCB (enc st) =
  match st with Waiting _ (WOBJ q | Detached q) _ _ => is_wobjcb q | _ => false end.
Proof. intros. enc_cases. Qed.
Lemma enc_slp st : tst_wf st → TSTAT_WAIT_SLP (enc st) =
  match st with Waiting _ SLP _ _ => true | _ => false end.
Proof. intros. enc_cases. Qed.
Lemma enc_mtx st : tst_wf st → TSTAT_WAIT_MTX (enc st) =
  match st with Waiting _ (WOBJ (MTXQ _) | Detached (MTXQ _)) _ _ => true | _ => false end.
Proof. intros. enc_cases. Qed.

Section core.
Context {cfg : Config}.
Implicit Types (s : State) (g : nat → tst) (t w : nat) (q : qid).

(** ** The invariant *)

(** The queue an abstract state puts a task in. *)
Definition place (T : nat → TCB) g t : option qid :=
  match g t with
  | Runnable => Some (RDQ (priority (T t)))
  | Waiting _ (WOBJ q) _ _ => Some q
  | _ => None
  end.

(** The WINFO of a waiting task. *)
Definition winfo_of w (tm : timer) : WINFO :=
  P_TMEVTB (match tm with NoTimer => None | _ => Some (TM_TSK w) end).
Definition wait_cb (c : cause) : CBACK :=
  match c with DLY => wait_tmout_ok_cb | _ => wait_tmout_cb end.

Record wait_ok s t w (c : cause) (tmr : timer) : Prop := {
  wait_winfo : p_winfo (tcb_table s t) = Some w;
  wait_frame : (w < next_frame s)%nat;
  wait_tm : winfo (winfos s w) = winfo_of w tmr;
  wait_obj : ∀ q, c = WOBJ q ∨ c = Detached q → p_wobjcb (winfos s w) = Some (wobj_of q);
  wait_dly : c = DLY → tmr ≠ NoTimer;
  wait_call : tmr ≠ NoTimer →
    callback (tm_tmevtb (tm s) (TM_TSK w)) = wait_cb c ∧
    arg (tm_tmevtb (tm s) (TM_TSK w)) = t }.

Record wq_ok (W : nat → option qid) (Q : qid → list nat) : Prop := {
  wq_iff : ∀ q t, t ∈ Q q ↔ W t = Some q;
  wq_nodup : ∀ q, NoDup (Q q) }.

(** In a queue in priority order nobody stands before a task of higher
    priority. *)
Definition pri_sorted (T : nat → TCB) (l : list nat) : Prop :=
  StronglySorted (fun a b => priority (T a) ≤ priority (T b)) l.

Record KInv g s : Prop := {
  k_wf : ∀ t, tst_wf (g t);
  k_tstat : ∀ t, tstat (tcb_table s t) = enc (g t);
  k_pri : ∀ t, g t ≠ Dormant → 0 ≤ priority (tcb_table s t) < 16;
  k_wait : ∀ t w c susp tmr, g t = Waiting w c susp tmr → wait_ok s t w c tmr;
  k_frames : ∀ t1 t2 w, frame_of (g t1) = Some w → frame_of (g t2) = Some w → t1 = t2;
  k_wq : wq_ok (place (tcb_table s) g) (wq s);
  k_sched : sched_ok (tcb_table s) (wq s) (sch s);
  k_heap : heap_ok (tm s);
  k_timer : ∀ w, is_Some (evt (tm s) (TM_TSK w)) ↔
    ∃ t c susp, g t = Waiting w c susp Timer;
  k_sorted : ∀ q, is_wobjcb q = true → bits (wobjatr s q) TA_TPRI = true →
    pri_sorted (tcb_table s) (wq s q) }.

(** No task is in an intermediate state. *)
Definition settled_st (st : tst) : bool :=
  match st with
  | Parked | Waiting _ (Detached _) _ _ | Waiting _ _ _ Fired => false
  | _ => true
  end.
Definition settled g : Prop := ∀ t, settled_st (g t) = true.

(** ** The effect of an operation on the other components

    [gframe TR Y X P s s'] says that [s'] has the handler timers of [s] but
    those of [Y], objects related by [P] and tasks related by [TR], that no
    task entered a wait queue but those of [X], and that the tasks in the wait
    queues wait with what they waited with. *)

(** The fields of a TCB that waiting and releasing leave alone. *)
Definition static_tcb (T : TCB) :=
  (p_tinib T, bpriority T, priority T, actque T, mutex_queue T, TSTAT_DORMANT (tstat T)).
Definition same_static s s' : Prop :=
  ∀ t, static_tcb (tcb_table s' t) = static_tcb (tcb_table s t).
Definition no_timer : tmid → Prop := fun _ => False.

Record gframe (TR : State → State → Prop) (Y : tmid → Prop) (X : qid → Prop)
    (P : OBJ → OBJ → Prop) s s' : Prop := {
  fr_obj : P (obj s) (obj s');
  fr_var : var s' = var s;
  fr_cpu : cpu s' = cpu s;
  fr_queue : ∀ q t, is_ready_queue q = false → t ∈ wq s' q → ¬ X q →
    t ∈ wq s q ∧ p_winfo (tcb_table s' t) = p_winfo (tcb_table s t) ∧
    ∀ w, p_winfo (tcb_table s t) = Some w → winfos s' w = winfos s w;
  fr_tcb : TR s s';
  fr_timer : ∀ b, (∀ w, b ≠ TM_TSK w) → ¬ Y b → evt (tm s') b = evt (tm s) b;
  fr_tmevtb : ∀ b, (∀ w, b ≠ TM_TSK w) → ¬ Y b →
    callback (tm_tmevtb (tm s') b) = callback (tm_tmevtb (tm s) b) ∧
    arg (tm_tmevtb (tm s') b) = arg (tm_tmevtb (tm s) b);
  fr_clock : tm_min_time (tm s') = tm_min_time (tm s) ∧
    tm_current_time (tm s') = tm_current_time (tm s) ∧
    tm_next_time (tm s') = tm_next_time (tm s) ∧
    tm_next_subtime (tm s') = tm_next_subtime (tm s) }.

(** What waiting and releasing do. *)
Notation frame := (gframe same_static no_timer).

(** A change that leaves the objects alone. *)
Definition tframe (X : qid → Prop) : State → State → Prop := frame X eq.

(** ** Lists in priority order *)

Lemma StronglySorted_filter' {A} (R : A → A → Prop) (P : A → Prop) `{∀ x, Decision (P x)} (l : list A) :
  StronglySorted R l → StronglySorted R (filter P l).
Proof.
  induction 1 as [|x l Hs IH Hf]; [constructor|]. rewrite filter_cons. case_decide; [|done].
  constructor; [done|]. rewrite Forall_forall in *. intros y [_ Hy]%list_elem_of_filter. by apply Hf.
Qed.

Lemma StronglySorted_app' {A} (R : A → A → Prop) (l1 l2 : list A) :
  StronglySorted R (l1 ++ l2) ↔
  StronglySorted R l1 ∧ StronglySorted R l2 ∧ ∀ x y, x ∈ l1 → y ∈ l2 → R x y.
Proof.
  induction l1 as [|x l1 IH]; simpl.
  - split; [intros H; split_and!; [constructor|done|set_solver]|tauto].
  - split.
    + intros H. apply StronglySorted_inv in H as [(H1 & H2 & H3)%IH Hf].
      rewrite Forall_app, !Forall_forall in Hf. destruct Hf as [Hf1 Hf2]. split_and!; [|done|].
      * constructor; [done|by rewrite Forall_forall].
      * intros a b [->|Ha]%elem_of_cons Hb; [by apply Hf2|by apply H3].
    + intros (H1 & H2 & H3). apply StronglySorted_inv in H1 as [H1 Hf]. constructor.
      * apply IH. split_and!; [done|done|]. intros a b Ha Hb. apply H3; [by right|done].
      * apply Forall_app. split; [done|]. rewrite Forall_forall. intros b Hb. apply H3; [left|done].
Qed.

Lemma pri_sorted_ext T T' l :
  (∀ t, t ∈ l → priority (T' t) = priority (T t)) → pri_sorted T l → pri_sorted T' l.
Proof.
  unfold pri_sorted. induction l as [|x l IH]; intros Hext Hs; [constructor|].
  apply StronglySorted_inv in Hs as [Hs Hf]. constructor.
  - apply IH; [|done]. intros t Ht. apply Hext. by right.
  - rewrite Forall_forall in *. intros y Hy. rewrite !Hext by (by left || by right). by apply Hf.
Qed.

Lemma pri_sorted_insert T T' t l :
  pri_sorted T l → t ∉ l → (∀ t', t' ∈ l → priority (T' t') = priority (T t')) →
  pri_sorted T' (insert_before_first (fun x => priority (T' t) <? priority (T' x)) t l).
Proof.
  intros Hs Ht Hext. apply (pri_sorted_ext T T') in Hs; [|done].
  destruct (insert_before_first_split (fun x => priority (T' t) <? priority (T' x)) t l)
    as (l1 & l2 & -> & -> & Hf & Hh). unfold pri_sorted in *.
  apply StronglySorted_app' in Hs as (H1 & H2 & H3). apply StronglySorted_app'. split_and!.
  - done.
  - constructor; [done|]. rewrite Forall_forall. intros y Hy. destruct l2 as [|z l2].
    { by apply not_elem_of_nil in Hy. }
    specialize (Hh z l2 eq_refl). simpl in Hh. apply StronglySorted_inv in H2 as [_ Hz].
    rewrite Forall_forall in Hz. apply elem_of_cons in Hy as [->|Hy]; [lia|]. specialize (Hz y Hy). lia.
  - intros x y Hx [->|Hy]%elem_of_cons; [|by apply H3].
    rewrite Forall_forall in Hf. specialize (Hf x Hx). simpl in Hf. lia.
Qed.

(** ** Queues and the places of tasks *)

Lemma wq_ok_ext W W' Q : (∀ t, W' t = W t) → wq_ok W Q → wq_ok W' Q.
Proof. intros Hext [H1 H2]. split; [|done]. intros q t. by rewrite Hext. Qed.

Lemma wq_ok_delete W W' Q t :
  wq_ok W Q → (∀ t', W' t' = if decide (t' = t) then None else W t') →
  wq_ok W' (Fam.queue_delete t Q).
Proof.
  intros [H1 H2] HW. split.
  - intros q t'. unfold Fam.queue_delete. rewrite elem_of_without, HW, H1.
    destruct (decide (t' = t)); naive_solver.
  - intros q. by apply NoDup_without.
Qed.

(** Any insertion of a task that is in no queue. *)
Lemma wq_ok_insert W W' Q Q' q t :
  wq_ok W Q → W t = None → (∀ t', W' t' = if decide (t' = t) then Some q else W t') →
  (∀ q', q' ≠ q → Q' q' = Q q') → (∀ x, x ∈ Q' q ↔ x = t ∨ x ∈ Q q) → NoDup (Q' q) →
  wq_ok W' Q'.
Proof.
  intros [H1 H2] Ht HW Hoth Hq Hnd. split.
  - intros q' t'. rewrite HW. destruct (decide (q' = q)) as [->|Hne].
    + rewrite Hq, H1. destruct (decide (t' = t)); naive_solver.
    + rewrite Hoth, H1 by done. destruct (decide (t' = t)); naive_solver.
  - intros q'. destruct (decide (q' = q)) as [->|]; [done|]. by rewrite Hoth.
Qed.

Lemma wq_ok_insert_prev W W' Q q t :
  wq_ok W Q → W t = None → (∀ t', W' t' = if decide (t' = t) then Some q else W t') →
  wq_ok W' (Fam.queue_insert_prev q t Q).
Proof.
  intros HQ Ht HW. assert (t ∉ Q q) by (intros Hin%HQ; congruence).
  eapply wq_ok_insert; try done; unfold Fam.queue_insert_prev; rewrite ?fn_lookup_insert.
  - intros q' Hne. by apply fn_lookup_insert_ne.
  - intros x. set_solver.
  - apply NoDup_app. split_and!; [apply HQ| |apply NoDup_singleton]. set_solver.
Qed.

Lemma wq_ok_insert_next W W' Q q t :
  wq_ok W Q → W t = None → (∀ t', W' t' = if decide (t' = t) then Some q else W t') →
  wq_ok W' (Fam.queue_insert_next q t Q).
Proof.
  intros HQ Ht HW. assert (t ∉ Q q) by (intros Hin%HQ; congruence).
  eapply wq_ok_insert; try done; unfold Fam.queue_insert_next; rewrite ?fn_lookup_insert.
  - intros q' Hne. by apply fn_lookup_insert_ne.
  - intros x. set_solver.
  - apply NoDup_cons. split; [done|apply HQ].
Qed.

Lemma wq_ok_insert_sorted W W' Q stop q t :
  wq_ok W Q → W t = None → (∀ t', W' t' = if decide (t' = t) then Some q else W t') →
  wq_ok W' (Fam.queue_insert_sorted stop q t Q).
Proof.
  intros HQ Ht HW. assert (t ∉ Q q) by (intros Hin%HQ; congruence).
  eapply wq_ok_insert; try done; unfold Fam.queue_insert_sorted; rewrite ?fn_lookup_insert.
  - intros q' Hne. by apply fn_lookup_insert_ne.
  - intros x. apply elem_of_insert_before_first.
  - apply NoDup_insert_before_first; [done|apply HQ].
Qed.

Lemma sched_ok_ext T T' Q Q' c :
  sched_ok T Q c → (∀ p, Q' (RDQ p) = Q (RDQ p)) →
  (∀ p t, t ∈ Q (RDQ p) → priority (T' t) = priority (T t)) → sched_ok T' Q' c.
Proof.
  intros [Hp Hm Hs] HQ HT. split.
  - intros p t Ht. rewrite HQ in Ht. rewrite (HT _ _ Ht). by apply Hp.
  - eapply primap_ok_ext; [done|]. intros p _. by rewrite HQ.
  - rewrite Hs. f_equal. unfold ready_list. f_equal. apply list_fmap_ext. intros i x _. by rewrite HQ.
Qed.

(** ** Changing the abstract state of one task *)

Lemma frame_free g s t w :
  KInv g s → frame_of (g t) = Some w → ∀ t', t' ≠ t → frame_of (g t') ≠ Some w.
Proof. intros HK Hw t' Hne Hw'. by apply Hne, (k_frames _ _ HK t' t w). Qed.

Lemma fresh_frame g s : KInv g s → ∀ t, frame_of (g t) ≠ Some (next_frame s).
Proof.
  intros HK t Hw. destruct (g t) as [| | | |w c susp tmr] eqn:Hg; try done. injection Hw as ->.
  pose proof (wait_frame _ _ _ _ _ (k_wait _ _ HK _ _ _ _ _ Hg)). lia.
Qed.

Lemma KInv_upd g s s' t st w :
  KInv g s → tst_wf st →
  (frame_of (g t) = None ∨ frame_of (g t) = Some w) → (frame_of st = None ∨ frame_of st = Some w) →
  (∀ t', t' ≠ t → frame_of (g t') ≠ Some w) →
  (∀ t', t' ≠ t → tcb_table s' t' = tcb_table s t') →
  tstat (tcb_table s' t) = enc st → (st ≠ Dormant → 0 ≤ priority (tcb_table s' t) < 16) →
  (∀ w', w' ≠ w → winfos s' w' = winfos s w') → (next_frame s ≤ next_frame s')%nat →
  (∀ c susp tmr, st = Waiting w c susp tmr → wait_ok s' t w c tmr) →
  (∀ w', w' ≠ w → evt (tm s') (TM_TSK w') = evt (tm s) (TM_TSK w')) →
  (∀ w', w' ≠ w → callback (tm_tmevtb (tm s') (TM_TSK w')) = callback (tm_tmevtb (tm s) (TM_TSK w')) ∧
     arg (tm_tmevtb (tm s') (TM_TSK w')) = arg (tm_tmevtb (tm s) (TM_TSK w'))) →
  (is_Some (evt (tm s') (TM_TSK w)) ↔ ∃ c susp, st = Waiting w c susp Timer) →
  wq_ok (place (tcb_table s') (<[t := st]> g)) (wq s') →
  sched_ok (tcb_table s') (wq s') (sch s') → heap_ok (tm s') →
  (∀ q, is_wobjcb q = true → bits (wobjatr s' q) TA_TPRI = true →
     pri_sorted (tcb_table s') (wq s' q)) →
  KInv (<[t := st]> g) s'.
Proof.
  intros HK Hwf Hgw Hstw Hfree HT Htst Hpri HW Hnf Hwait Hevt Hcb Hreg Hwq Hsch Hheap Hsort.
  split; try done.
  - intros t'. destruct (decide (t' = t)) as [->|Hne]; [by rewrite fn_lookup_insert|].
    rewrite fn_lookup_insert_ne by done. apply HK.
  - intros t'. destruct (decide (t' = t)) as [->|Hne]; [by rewrite fn_lookup_insert|].
    rewrite fn_lookup_insert_ne, HT by done. apply HK.
  - intros t'. destruct (decide (t' = t)) as [->|Hne]; [by rewrite fn_lookup_insert|].
    rewrite fn_lookup_insert_ne, HT by done. apply HK.
  - intros t' w' c susp tmr. destruct (decide (t' = t)) as [->|Hne].
    + rewrite fn_lookup_insert. intros ->. destruct Hstw as [|[= ->]]; [done|]. by eapply Hwait.
    + rewrite fn_lookup_insert_ne by done. intros Hg.
      assert (w' ≠ w). { intros ->. apply (Hfree t' Hne). by rewrite Hg. }
      destruct (k_wait _ _ HK _ _ _ _ _ Hg) as [H1 H2 H3 H4 H5 H6].
      split; rewrite ?HT, ?HW by done; try done; [lia|].
      intros Hn. destruct (Hcb w') as [-> ->]; [done|]. by apply H6.
  - intros t1 t2 w'. destruct (decide (t1 = t)) as [->|H1], (decide (t2 = t)) as [->|H2];
      rewrite ?fn_lookup_insert; rewrite ?fn_lookup_insert_ne by done; try done.
    + intros Ha Hb. destruct Hstw as [|Hw]; [congruence|]. rewrite Hw in Ha. injection Ha as ->.
      by apply Hfree in Hb.
    + intros Ha Hb. destruct Hstw as [|Hw]; [congruence|]. rewrite Hw in Hb. injection Hb as ->.
      by apply Hfree in Ha.
    + apply HK.
  - intros w'. destruct (decide (w' = w)) as [->|Hne].
    + rewrite Hreg. split.
      * intros (c & susp & ->). exists t, c, susp. by rewrite fn_lookup_insert.
      * intros (t' & c & susp & Hg). destruct (decide (t' = t)) as [->|Ht].
        -- rewrite fn_lookup_insert in Hg. eauto.
        -- rewrite fn_lookup_insert_ne in Hg by done. destruct (Hfree t' Ht). by rewrite Hg.
    + rewrite Hevt by done. rewrite (k_timer _ _ HK). split; intros (t' & c & susp & Hg).
      * exists t', c, susp. rewrite fn_lookup_insert_ne; [done|]. intros <-. rewrite Hg in Hgw.
        simpl in Hgw. destruct Hgw as [?|[= ?]]; congruence.
      * exists t', c, susp. destruct (decide (t' = t)) as [->|Ht].
        -- rewrite fn_lookup_insert in Hg. subst st. simpl in Hstw. destruct Hstw as [?|[= ?]]; congruence.
        -- by rewrite fn_lookup_insert_ne in Hg by done.
Qed.
End core.
Notation frame := (gframe same_static no_timer).
Arguments fr_obj {TR Y} X P s s' _. Arguments fr_var {TR Y} X P s s' _.
Arguments fr_cpu {TR Y} X P s s' _. Arguments fr_queue {TR Y} X P s s' _.
Arguments fr_tcb {TR Y} X P s s' _. Arguments fr_timer {TR Y} X P s s' _.
Arguments fr_tmevtb {TR Y} X P s s' _. Arguments fr_clock {TR Y} X P s s' _.
