(* ===== verification/Release.v ===== *)
(** * Transitions of a task under the invariant

    Every function of wait.c and wait.h as a change of the abstract task
    states: what [KInv] becomes, what the function returns, and that the other
    components do not see it ([frame]).  The service calls are proved from
    these lemmas. *)

From S2P Require Import Prelude Queue Data Kmonad TimeEvent Task Wait Core.
Open Scope Z_scope.

Section release.
Context {cfg : Config}.
Implicit Types (s : State) (g : nat → tst) (t w : nat) (q : qid).

Lemma place_other T T' g t t' st :
  t' ≠ t → T' t' = T t' → place T' (<[t := st]> g) t' = place T g t'.
Proof. intros Hne HT. unfold place. by rewrite fn_lookup_insert_ne, HT by done. Qed.

Lemma place_upd T T' g t st :
  (∀ t', t' ≠ t → T' t' = T t') →
  ∀ t', place T' (<[t := st]> g) t' =
    if decide (t' = t) then place T' (<[t := st]> g) t else place T g t'.
Proof. intros HT t'. destruct (decide (t' = t)) as [->|Hne]; [done|]. by apply place_other, HT. Qed.

Lemma place_self T g t st :
  place T (<[t := st]> g) t =
  match st with
  | Runnable => Some (RDQ (priority (T t)))
  | Waiting _ (WOBJ q) _ _ => Some q
  | _ => None
  end.
Proof. unfold place. by rewrite fn_lookup_insert. Qed.

(** *** Taking a timer off the heap *)

Definition stop (tmr : timer) : timer := match tmr with NoTimer => NoTimer | _ => Fired end.

Lemma frame_refl X s : tframe X s s.
Proof. by split. Qed.

Lemma same_static_refl s : same_static s s.
Proof. done. Qed.

Lemma same_static_trans s1 s2 s3 : same_static s1 s2 → same_static s2 s3 → same_static s1 s3.
Proof. intros H1 H2 t. by rewrite H2, H1. Qed.

Lemma gframe_trans TR Y X P s1 s2 s3 :
  (TR s1 s2 → TR s2 s3 → TR s1 s3) → (P (obj s1) (obj s2) → P (obj s2) (obj s3) → P (obj s1) (obj s3)) →
  gframe TR Y X P s1 s2 → gframe TR Y X P s2 s3 → gframe TR Y X P s1 s3.
Proof.
  intros HT HP [A1 A2 A3 A4 A0 A5 A6 (A7&A8&A9&A10)] [B1 B2 B3 B4 B0 B5 B6 (B7&B8&B9&B10)].
  split; [auto|congruence|congruence| |auto| | |split_and!; congruence].
  - intros q t Hq Ht HX. destruct (B4 q t Hq Ht HX) as (Ht2 & Hw2 & HW2).
    destruct (A4 q t Hq Ht2 HX) as (Ht1 & Hw1 & HW1). split_and!; [done|congruence|].
    intros w Hw. rewrite HW2, HW1; [done|done|congruence].
  - intros b Hb Hy. by rewrite B5, A5.
  - intros b Hb Hy. destruct (A6 b Hb Hy), (B6 b Hb Hy). split; congruence.
Qed.

Lemma frame_trans X P `{!Transitive P} s1 s2 s3 : frame X P s1 s2 → frame X P s2 s3 → frame X P s1 s3.
Proof. apply gframe_trans; [apply same_static_trans|by etrans]. Qed.

Lemma tframe_trans X s1 s2 s3 : tframe X s1 s2 → tframe X s2 s3 → tframe X s1 s3.
Proof. apply frame_trans, _. Qed.

Lemma gframe_weaken (TR TR' : State → State → Prop) (Z Z' : tmid → Prop) (X Y : qid → Prop)
    (P P' : OBJ → OBJ → Prop) s s' :
  (TR s s' → TR' s s') → (∀ b, Z b → Z' b) →
  (∀ q, X q → Y q) → (∀ o o', P o o' → P' o o') → gframe TR Z X P s s' → gframe TR' Z' Y P' s s'.
Proof.
  intros HT HZ HXY HP [A1 A2 A3 A4 A5 A6 A7 A8]. split; auto.
Qed.

Lemma frame_weaken (X Y : qid → Prop) (P P' : OBJ → OBJ → Prop) s s' :
  (∀ q, X q → Y q) → (∀ o o', P o o' → P' o o') → frame X P s s' → frame Y P' s s'.
Proof. by apply gframe_weaken. Qed.

(** Frames that leave open what happens to the objects. *)
Definition any_obj : OBJ → OBJ → Prop := fun _ _ => True.
#[export] Instance any_obj_trans : Transitive any_obj.
Proof. done. Qed.

Lemma frame_only X (P P' : OBJ → OBJ → Prop) s s' :
  frame X P s s' → P' (obj s) (obj s') → frame X P' s s'.
Proof. by intros [] HP. Qed.

Lemma frame_any_trans X P1 P2 s1 s2 s3 :
  frame X P1 s1 s2 → frame X P2 s2 s3 → frame X any_obj s1 s3.
Proof. intros F1 F2. by eapply (frame_trans X any_obj _ s2); eapply frame_only. Qed.

(** A change of the tasks followed by a change of the objects. *)
Lemma frame_obj X (P : OBJ → OBJ → Prop) f s s1 :
  tframe X s s1 → P (obj s) (f (obj s)) → frame X P s (upd_obj f s1).
Proof. intros [A1 A2 A3 A4 A5 A6 A7 A8] HP. split; try done. simpl. by rewrite <- A1. Qed.

Lemma KInv_ext g g' s : (∀ t, g' t = g t) → KInv g s → KInv g' s.
Proof.
  intros Hext [H1 H2 H3 H4 H5 H6 H7 H8 H9 H10]. split; try done.
  - intros t. rewrite Hext. apply H1.
  - intros t. rewrite Hext. apply H2.
  - intros t. rewrite Hext. apply H3.
  - intros t. rewrite Hext. apply H4.
  - intros t1 t2. rewrite !Hext. apply H5.
  - eapply wq_ok_ext; [|done]. intros t. unfold place. by rewrite Hext.
  - intros w. rewrite H9. by setoid_rewrite Hext.
Qed.

Lemma insert_same g t st t' : g t = st → <[t := st]> g t' = g t'.
Proof. intros <-. destruct (decide (t' = t)) as [->|]; [apply fn_lookup_insert|by apply fn_lookup_insert_ne]. Qed.

Lemma KInv_same g s t st : g t = st → KInv g s → KInv (<[t := st]> g) s.
Proof. intros Hg. apply KInv_ext. intros t'. by apply insert_same. Qed.

Lemma insert_twice g t st1 st2 t' : <[t := st2]> (<[t := st1]> g) t' = <[t := st2]> g t'.
Proof.
  destruct (decide (t' = t)) as [->|]; [by rewrite !fn_lookup_insert|by rewrite !fn_lookup_insert_ne].
Qed.

Lemma KInv_twice g s t st1 st2 : KInv (<[t := st2]> (<[t := st1]> g)) s → KInv (<[t := st2]> g) s.
Proof. apply KInv_ext. intros t'. symmetry. apply insert_twice. Qed.

(** A change of the abstract state that concerns neither a queue nor a
    priority. *)
Lemma KInv_upd_stay g s s' t st w :
  KInv g s → tst_wf st →
  (frame_of (g t) = None ∨ frame_of (g t) = Some w) → (frame_of st = None ∨ frame_of st = Some w) →
  (∀ t', t' ≠ t → frame_of (g t') ≠ Some w) →
  (∀ t', t' ≠ t → tcb_table s' t' = tcb_table s t') →
  tstat (tcb_table s' t) = enc st → priority (tcb_table s' t) = priority (tcb_table s t) →
  (st ≠ Dormant → 0 ≤ priority (tcb_table s' t) < 16) →
  (∀ w', w' ≠ w → winfos s' w' = winfos s w') → (next_frame s ≤ next_frame s')%nat →
  (∀ c susp tmr, st = Waiting w c susp tmr → wait_ok s' t w c tmr) →
  (∀ w', w' ≠ w → evt (tm s') (TM_TSK w') = evt (tm s) (TM_TSK w')) →
  (∀ w', w' ≠ w → callback (tm_tmevtb (tm s') (TM_TSK w')) = callback (tm_tmevtb (tm s) (TM_TSK w')) ∧
     arg (tm_tmevtb (tm s') (TM_TSK w')) = arg (tm_tmevtb (tm s) (TM_TSK w'))) →
  (is_Some (evt (tm s') (TM_TSK w)) ↔ ∃ c susp, st = Waiting w c susp Timer) →
  wq s' = wq s → sch s' = sch s → obj s' = obj s →
  place (tcb_table s') (<[t := st]> g) t = place (tcb_table s) g t → heap_ok (tm s') →
  KInv (<[t := st]> g) s'.
Proof.
  intros HK Hwf Hgw Hstw Hfree HT Htst Hpri Hpri' HW Hnf Hwait Hevt Hcb Hreg Hq Hsc Hobj Hpl Hheap.
  assert (Hall : ∀ t', priority (tcb_table s' t') = priority (tcb_table s t')).
  { intros t'. destruct (decide (t' = t)) as [->|]; [done|]. by rewrite HT. }
  eapply KInv_upd; try done.
  - rewrite Hq. eapply wq_ok_ext; [|apply HK]. intros t'.
    destruct (decide (t' = t)) as [->|Hne]; [done|]. by apply place_other, HT.
  - rewrite Hq, Hsc. eapply sched_ok_ext; [apply HK|done|]. intros. apply Hall.
  - intros q. unfold wobjatr. rewrite Hobj, Hq. intros H1 H2.
    eapply pri_sorted_ext; [|by apply HK]. intros. apply Hall.
Qed.

(** The timer of a waiting task is taken off the heap. *)
Lemma timer_off_ok g s t w c susp m :
  KInv g s → g t = Waiting w c susp Timer → heap_ok m →
  (∀ b, evt m b = if decide (b = TM_TSK w) then None else evt (tm s) b) → same_clock (tm s) m →
  KInv (<[t := Waiting w c susp Fired]> g) (upd_tm (fun _ => m) s) ∧
  tframe (fun _ => False) s (upd_tm (fun _ => m) s).
Proof.
  intros HK Hg Hok Hevt [C1 C2 C3 C4 C5 C6]. destruct (k_wait _ _ HK _ _ _ _ _ Hg) as [H1 H2 H3 H4 H5 H6]. split.
  - eapply (KInv_upd_stay g s _ t _ w); try done.
    + pose proof (k_wf _ _ HK t) as Hwf. by rewrite Hg in Hwf.
    + right. by rewrite Hg.
    + by right.
    + apply (frame_free _ _ _ _ HK). by rewrite Hg.
    + trans (enc (g t)); [apply (k_tstat _ _ HK)|by rewrite Hg].
    + intros _. apply HK. by rewrite Hg.
    + intros c' susp' tmr' [= <- <- <-]. split; try done. intros _. simpl. rewrite C5, C6. by apply H6.
    + intros w' Hne. simpl. rewrite Hevt, decide_False by congruence. done.
    + simpl. rewrite Hevt, decide_True by done. split; [by intros []|by intros (? & ? & [=])].
    + unfold place. rewrite fn_lookup_insert, Hg. done.
  - split; try done. intros b Hb. simpl. by rewrite Hevt, decide_False by congruence.
Qed.

Lemma wait_dequeue_tmevtb_ok g s t w c susp tmr :
  KInv g s → g t = Waiting w c susp tmr → tmr ≠ Fired →
  ∃ s', wait_dequeue_tmevtb t s = RET () s' ∧
    KInv (<[t := Waiting w c susp (stop tmr)]> g) s' ∧ tframe (fun _ => False) s s' ∧
    tcb_table s' = tcb_table s ∧ wq s' = wq s ∧ winfos s' = winfos s ∧ sch s' = sch s ∧
    next_frame s' = next_frame s.
Proof.
  intros HK Hg Htmr. destruct (k_wait _ _ HK _ _ _ _ _ Hg) as [H1 H2 H3 H4 H5 H6].
  unfold wait_dequeue_tmevtb, kget, deref. rewrite H1, H3. unfold winfo_of.
  destruct tmr; [| |done]; simpl.
  - exists s. split_and!; try done. by apply KInv_same.
  - unfold tmevtb_dequeue, on_tm.
    destruct (evt (tm s) (TM_TSK w)) as [time|] eqn:Htime.
    2:{ assert (is_Some (evt (tm s) (TM_TSK w))) as [? ?]; [|congruence].
        apply (k_timer _ _ HK). by exists t, c, susp. }
    destruct (tmevtb_delete_ok _ _ _ (k_heap _ _ HK) Htime) as (m & -> & Hok & Hevt & [C1 C2 C3 C4 C5 C6]).
    destruct (timer_off_ok g s t w c susp m HK Hg Hok Hevt) as [HK' HF]; [by split|].
    by exists (upd_tm (fun _ => m) s).
Qed.

(** *** Leaving a wait queue *)

Definition off (c : cause) : cause := match c with WOBJ q => Detached q | c => c end.

Lemma off_wf c : cause_wf c → cause_wf (off c).
Proof. by destruct c. Qed.

(** The task leaves the queue it waits in; [Q'] is the family without it. *)
Lemma KInv_leave_wobj g s t w q susp tmr Q' :
  KInv g s → g t = Waiting w (WOBJ q) susp tmr →
  (∀ q', Q' q' = Fam.queue_delete t (wq s) q') →
  let s' := upd_wq (fun _ => Q') s in
  KInv (<[t := Waiting w (Detached q) susp tmr]> g) s' ∧ tframe (fun _ => False) s s'.
Proof.
  intros HK Hg HQ s'. destruct (k_wait _ _ HK _ _ _ _ _ Hg) as [H1 H2 H3 H4 H5 H6].
  pose proof (k_wf _ _ HK t) as Hwf. rewrite Hg in Hwf.
  assert (Hrdq : ∀ p, Q' (RDQ p) = wq s (RDQ p)).
  { intros p. rewrite HQ. apply queue_delete_other. intros Ht%(k_wq _ _ HK).
    unfold place in Ht. rewrite Hg in Ht. injection Ht as ->. done. }
  split.
  - eapply (KInv_upd g s s' t _ w); try done.
    + right. by rewrite Hg.
    + by right.
    + apply (frame_free _ _ _ _ HK). by rewrite Hg.
    + trans (enc (g t)); [apply (k_tstat _ _ HK)|by rewrite Hg].
    + intros _. apply HK. by rewrite Hg.
    + intros c' susp' tmr' [= <- <- <-]. split; try done.
      intros q' [[=]|[= <-]]. apply H4. by left.
    + simpl. rewrite (k_timer _ _ HK). split.
      * intros (t' & c' & susp' & Hg'). assert (t' = t) as ->.
        { apply (k_frames _ _ HK _ _ w); [by rewrite Hg'|by rewrite Hg]. }
        rewrite Hg in Hg'. injection Hg' as <- <- <-. eauto.
      * intros (c' & susp' & [= <- <- <-]). exists t, (WOBJ q), susp. done.
    + assert (Hd : wq_ok (place (tcb_table s) (<[t := Waiting w (Detached q) susp tmr]> g))
        (Fam.queue_delete t (wq s))).
      { eapply wq_ok_delete; [apply HK|]. intros t'. rewrite (place_upd (tcb_table s) (tcb_table s)) by done.
        by rewrite place_self. }
      destruct Hd as [Hd1 Hd2]. split; intros q'; simpl; rewrite HQ; auto.
    + simpl. eapply sched_ok_ext; [apply HK|apply Hrdq|done].
    + apply HK.
    + intros q' Hq' Hb. simpl. rewrite HQ. unfold Fam.queue_delete, pri_sorted.
      apply StronglySorted_filter'. by apply (k_sorted _ _ HK).
  - split; try done. intros q' t' _. simpl. rewrite HQ. intros [Ht _]%elem_of_without _. done.
Qed.

Lemma wq_waiting g s q t :
  KInv g s → is_ready_queue q = false → t ∈ wq s q → ∃ w susp tmr, g t = Waiting w (WOBJ q) susp tmr.
Proof.
  intros HK Hq Ht%(k_wq _ _ HK). unfold place in Ht.
  destruct (g t) as [| | | |w [| |q'|q'] susp tmr]; try done; injection Ht as <-; [done|eauto].
Qed.

Lemma waiting_wq g s q t w susp tmr : KInv g s → g t = Waiting w (WOBJ q) susp tmr → t ∈ wq s q.
Proof. intros HK Hg. apply (k_wq _ _ HK). unfold place. by rewrite Hg. Qed.

Lemma wait_dequeue_wobj_ok g s t w c susp tmr :
  KInv g s → g t = Waiting w c susp tmr → (∀ q, c ≠ Detached q) →
  ∃ s', wait_dequeue_wobj t s = RET () s' ∧
    KInv (<[t := Waiting w (off c) susp tmr]> g) s' ∧ tframe (fun _ => False) s s' ∧
    tcb_table s' = tcb_table s ∧ winfos s' = winfos s ∧ sch s' = sch s ∧ tm s' = tm s ∧
    next_frame s' = next_frame s ∧
    (∀ q, is_ready_queue q = false → wq s' q = without t (wq s q)).
Proof.
  intros HK Hg Hc. unfold wait_dequeue_wobj, kget. rewrite (k_tstat _ _ HK), enc_wobj by apply HK.
  rewrite Hg. destruct c as [| |q|q]; [| | |by destruct (Hc q)]; simpl.
  1-2: exists s; (split_and!; try done); [by apply KInv_same|]; intros q Hq; symmetry;
    apply without_id; intros Ht; destruct (wq_waiting _ _ _ _ HK Hq Ht) as (? & ? & ? & Hx); congruence.
  destruct (KInv_leave_wobj g s t w q susp tmr (Fam.queue_delete t (wq s)) HK Hg) as [HK' Hf]; [done|].
  by exists (upd_wq (Fam.queue_delete t) s).
Qed.

(** Taking the head of a queue is deleting that task. *)
Lemma queue_delete_head g s q t l q' :
  KInv g s → wq s q = t :: l → <[q := l]> (wq s) q' = without t (wq s q').
Proof.
  intros HK Hl. destruct (decide (q' = q)) as [->|Hne].
  - rewrite fn_lookup_insert, Hl. symmetry. apply without_head. rewrite <- Hl. apply HK.
  - rewrite fn_lookup_insert_ne by done. symmetry. apply without_id. intros Ht%(k_wq _ _ HK).
    assert (Ht2 : t ∈ wq s q) by (rewrite Hl; left). apply (k_wq _ _ HK) in Ht2. congruence.
Qed.

Lemma queue_delete_next_ok g s q t l :
  KInv g s → is_ready_queue q = false → wq s q = t :: l →
  ∃ w susp tmr s', g t = Waiting w (WOBJ q) susp tmr ∧ queue_delete_next q s = RET t s' ∧
    s' = upd_wq (fun _ => <[q := l]> (wq s)) s ∧
    KInv (<[t := Waiting w (Detached q) susp tmr]> g) s' ∧ tframe (fun _ => False) s s'.
Proof.
  intros HK Hq Hl. destruct (wq_waiting g s q t HK Hq) as (w & susp & tmr & Hg); [rewrite Hl; left|].
  exists w, susp, tmr. eexists. split; [done|].
  unfold queue_delete_next, Fam.queue_delete_next. rewrite Hl. split; [done|]. split; [done|].
  eapply KInv_leave_wobj; [done|done|]. intros q'. by apply (queue_delete_head g).
Qed.

(** *** The end of a wait *)

(** What a function that may make a task runnable returns. *)
Definition woke (b : bool) s s' : Prop :=
  (b = true → dspflg s = true) ∧ (b = false → dspflg s = true → p_schedtsk s' = p_schedtsk s).

Lemma woke_refl s : woke false s s.
Proof. by split. Qed.

Lemma resched_woke s c' s' : sch s' = c' → woke (resched s c') s s'.
Proof.
  intros <-. unfold resched. split.
  - by intros [_ ?]%andb_true_iff.
  - intros [H|H]%andb_false_iff; [|congruence]. intros _.
    apply negb_false_iff, bool_decide_eq_true in H. done.
Qed.

Lemma woke_trans b1 b2 s1 s2 s3 :
  woke b1 s1 s2 → woke b2 s2 s3 → dspflg s2 = dspflg s1 → woke (b1 || b2) s1 s3.
Proof.
  intros [A1 A2] [B1 B2] Hd. split.
  - intros [H|H]%orb_true_iff; [auto|]. rewrite <- Hd. auto.
  - intros [H1 H2]%orb_false_iff Hf. rewrite B2, A2 by congruence. done.
Qed.

(** A task that is not dormant changes its state. *)
Lemma static_tstat g s t v :
  KInv g s → g t ≠ Dormant → TSTAT_DORMANT v = false →
  static_tcb ((tcb_table s t) <| tstat := v |>) = static_tcb (tcb_table s t).
Proof.
  intros HK Hg Hv. unfold static_tcb; simpl.
  rewrite Hv, (k_tstat _ _ HK), enc_dormant by apply HK. by rewrite bool_decide_false.
Qed.

Definition after_wait (susp : bool) : tst := if susp then Suspended else Runnable.

Section end_wait.
Context (g : nat → tst) (s : State) (t w : nat) (c : cause) (susp : bool) (tmr : timer) (ercd : Z).
Context (HK : KInv g s) (Hg : g t = Waiting w c susp tmr).
Context (Hc : ∀ q, c ≠ WOBJ q) (Htmr : tmr ≠ Timer).
Let s1 := upd_winfo w (fun W => W <| winfo := WERCD ercd |>) s.

Local Lemma end_wait_no_queue q : t ∉ wq s q.
Proof. intros Ht%(k_wq _ _ HK). unfold place in Ht. rewrite Hg in Ht. destruct c; naive_solver. Qed.

Local Lemma end_wait_winfos w' : w' ≠ w → winfos s1 w' = winfos s w'.
Proof. intros Hne. by apply fn_lookup_insert_ne. Qed.

Local Lemma end_wait_frame s' :
  obj s' = obj s → var s' = var s → cpu s' = cpu s → tm s' = tm s →
  (∀ q, is_ready_queue q = false → wq s' q = wq s q) →
  (∀ t', t' ≠ t → tcb_table s' t' = tcb_table s t') →
  static_tcb (tcb_table s' t) = static_tcb (tcb_table s t) → winfos s' = winfos s1 →
  tframe (fun _ => False) s s'.
Proof.
  intros E1 E2 E3 E4 E5 E6 E6' E7. split; try done; [| |by rewrite E4..].
  - intros q t' Hq Ht _. rewrite E5 in Ht by done.
    assert (t' ≠ t) by (intros ->; by apply (end_wait_no_queue q)).
    rewrite E6 by done. split_and!; [done..|]. intros w' Hw'. rewrite E7. apply end_wait_winfos. intros ->.
    destruct (wq_waiting _ _ _ _ HK Hq Ht) as (w' & ? & ? & Hg').
    pose proof (wait_winfo _ _ _ _ _ (k_wait _ _ HK _ _ _ _ _ Hg')) as Hx.
    assert (w' = w) as -> by congruence. assert (t' = t); [|done].
    apply (k_frames _ _ HK _ _ w); [by rewrite Hg'|by rewrite Hg].
  - intros t'. destruct (decide (t' = t)) as [->|Hne]; [done|by rewrite E6].
Qed.

Local Lemma end_wait_KInv s' (st := after_wait susp) :
  obj s' = obj s → tm s' = tm s → next_frame s' = next_frame s → winfos s' = winfos s1 →
  (∀ t', t' ≠ t → tcb_table s' t' = tcb_table s t') → tstat (tcb_table s' t) = enc st →
  priority (tcb_table s' t) = priority (tcb_table s t) →
  wq_ok (place (tcb_table s') (<[t := st]> g)) (wq s') →
  sched_ok (tcb_table s') (wq s') (sch s') → (∀ q, is_wobjcb q = true → wq s' q = wq s q) →
  KInv (<[t := st]> g) s'.
Proof.
  intros E1 E2 E3 E4 E5 E6 E7 E8 E9 E10.
  assert (Hreg : ¬ is_Some (evt (tm s) (TM_TSK w))).
  { intros (t' & c' & susp' & Hg')%(k_timer _ _ HK). assert (t' = t) as ->.
    { apply (k_frames _ _ HK _ _ w); [by rewrite Hg'|by rewrite Hg]. }
    rewrite Hg in Hg'. by injection Hg' as -> -> ->. }
  eapply (KInv_upd g s s' t st w); try done.
  - unfold st. by destruct susp.
  - right. by rewrite Hg.
  - left. unfold st. by destruct susp.
  - apply (frame_free _ _ _ _ HK). by rewrite Hg.
  - intros _. rewrite E7. apply HK. by rewrite Hg.
  - intros w' Hne. rewrite E4. by apply end_wait_winfos.
  - rewrite E3. done.
  - unfold st. by destruct susp.
  - intros w' Hne. by rewrite E2.
  - by rewrite E2.
  - rewrite E2. split; [done|]. unfold st. by destruct susp; intros (? & ? & [=]).
  - rewrite E2. apply HK.
  - intros q Hq. unfold wobjatr. rewrite E1, E10 by done. intros Hb.
    eapply pri_sorted_ext; [|by apply (k_sorted _ _ HK)]. intros t' Ht'.
    destruct (decide (t' = t)) as [->|Hne]; [done|by rewrite E5].
Qed.

Local Lemma end_wait_sched T' :
  (∀ t', t' ≠ t → T' t' = tcb_table s t') → sched_ok T' (wq s) (sch s).
Proof.
  intros HT. eapply sched_ok_ext; [apply HK|done|]. intros p t' Ht'. rewrite HT; [done|].
  intros ->. by apply end_wait_no_queue in Ht'.
Qed.

Lemma end_wait_ok :
  ∃ b s', (set_wercd t ercd ;;; make_non_wait t) s = RET b s' ∧
    KInv (<[t := after_wait susp]> g) s' ∧ tframe (fun _ => False) s s' ∧ woke b s s' ∧
    winfos s' = winfos (upd_winfo w (fun W => W <| winfo := WERCD ercd |>) s) ∧
    (∀ t', t' ≠ t → tcb_table s' t' = tcb_table s t') ∧
    (∀ q, is_ready_queue q = false → wq s' q = wq s q).
Proof.
  destruct (k_wait _ _ HK _ _ _ _ _ Hg) as [H1 _ _ _ _ _].
  unfold bind, set_wercd, kget, deref. rewrite H1. unfold set_winfo, upd; simpl. fold s1.
  unfold make_non_wait, bind, kassert, kget. change (tcb_table s1) with (tcb_table s).
  rewrite (k_tstat _ _ HK), enc_waiting by apply HK. rewrite Hg; simpl.
  change (tcb_table s1) with (tcb_table s).
  rewrite (k_tstat _ _ HK), enc_suspended by apply HK. rewrite Hg.
  set (s2 := upd_tcb t (fun T => T <| tstat := if susp then TS_SUSPENDED else TS_RUNNABLE |>) s1).
  assert (HT : ∀ t', t' ≠ t → tcb_table s2 t' = tcb_table s t').
  { intros t' Hne. by apply fn_lookup_insert_ne. }
  assert (HTt : tcb_table s2 t =
    (tcb_table s t) <| tstat := if susp then TS_SUSPENDED else TS_RUNNABLE |>) by apply fn_lookup_insert.
  pose proof (end_wait_sched _ HT) as Hsched.
  pose proof end_wait_no_queue as Hnq. pose proof end_wait_KInv as HKI. pose proof end_wait_frame as HF.
  simpl. destruct susp; simpl.
  - exists false, s2. split; [done|]. split_and!; try done.
    + apply HKI; try done; [by rewrite HTt..|].
      eapply wq_ok_ext; [|apply HK]. intros t'. rewrite (place_upd (tcb_table s)) by done.
      case_decide as Hd; [subst|done]. rewrite place_self. unfold place. rewrite Hg.
      by destruct c; naive_solver.
    + apply HF; try done. rewrite HTt. eapply static_tstat; [exact HK|by rewrite Hg|done].
  - destruct (make_runnable_eq s2 t) as (c' & Hsch & Heq).
    { done. } { intros p. apply Hnq. }
    { rewrite HTt. apply HK. by rewrite Hg. }
    change (make_runnable t _) with (make_runnable t s2). rewrite Heq.
    assert (Hoth : ∀ q, is_ready_queue q = false →
      Fam.queue_insert_prev (RDQ (priority (tcb_table s2 t))) t (wq s2) q = wq s q).
    { intros q Hq. apply fn_lookup_insert_ne. by intros <-. }
    eexists _, _. split; [done|]. split_and!; try done.
    + apply HKI; try done;
        [change (tcb_table (with_ready _ _ s2)) with (tcb_table s2); by rewrite HTt..| |].
      * simpl. eapply wq_ok_insert_prev; [apply HK| |].
        -- unfold place. rewrite Hg. destruct c; naive_solver.
        -- intros t'. rewrite (place_upd (tcb_table s)) by done. by rewrite place_self.
      * intros q Hq. apply Hoth. by destruct q.
    + apply HF; try done. change (tcb_table (with_ready _ _ s2)) with (tcb_table s2).
      rewrite HTt. eapply static_tstat; [exact HK|by rewrite Hg|done].
    + change (resched s2 c') with (resched s c'). by apply resched_woke.
Qed.
End end_wait.

(** *** The functions of wait.c *)

Lemma bind_RET {A B} (m : K A) (f : A → K B) s a s' : m s = RET a s' → bind m f s = f a s'.
Proof. intros Hm. unfold bind. by rewrite Hm. Qed.

Lemma bind2_RET {A B C} (m : K A) (f : A → K B) (h : B → K C) s b s' :
  bind m f s = RET b s' → bind m (fun a => bind (f a) h) s = h b s'.
Proof. unfold bind. destruct (m s) as [a s1|e s1 k|]; simpl; [|done|done]. by intros ->. Qed.

Lemma seq4_RET {A} (m1 m2 m3 m4 : K ()) (k : K A) s s' :
  (m1 ;;; m2 ;;; m3 ;;; m4) s = RET () s' → (m1 ;;; m2 ;;; m3 ;;; m4 ;;; k) s = k s'.
Proof.
  unfold bind. destruct (m1 s) as [[] s1|e s1 k1|]; simpl; [|done|done].
  destruct (m2 s1) as [[] s2|e s2 k2|]; simpl; [|done|done].
  destruct (m3 s2) as [[] s3|e s3 k3|]; simpl; [|done|done]. by intros ->.
Qed.

Lemma seq5_RET {A B} (m1 : K ()) (m2 : K B) (m3 m4 m5 : K ()) (k : K A) s s' :
  (m1 ;;; m2 ;;; m3 ;;; m4 ;;; m5) s = RET () s' → (m1 ;;; m2 ;;; m3 ;;; m4 ;;; m5 ;;; k) s = k s'.
Proof.
  unfold bind. destruct (m1 s) as [[] s1|e s1 k1|]; simpl; [|done|done].
  destruct (m2 s1) as [b s2|e s2 k2|]; simpl; [|done|done].
  destruct (m3 s2) as [[] s3|e s3 k3|]; simpl; [|done|done].
  destruct (m4 s3) as [[] s4|e s4 k4|]; simpl; [|done|done]. by intros ->.
Qed.

(** What a release does: the wait of [t] is over with [ercd]. *)
Definition released g s t w susp ercd b s' : Prop :=
  KInv (<[t := after_wait susp]> g) s' ∧ tframe (fun _ => False) s s' ∧ woke b s s' ∧
  winfos s' = winfos (upd_winfo w (fun W => W <| winfo := WERCD ercd |>) s) ∧
  (∀ t', t' ≠ t → tcb_table s' t' = tcb_table s t') ∧
  (∀ q, is_ready_queue q = false → wq s' q = without t (wq s q)).

Lemma wait_complete_ok g s t w c susp tmr :
  KInv g s → g t = Waiting w c susp tmr → (∀ q, c ≠ WOBJ q) → tmr ≠ Fired →
  ∃ b s', wait_complete t s = RET b s' ∧ released g s t w susp E_OK b s'.
Proof.
  intros HK Hg Hc Htmr.
  destruct (wait_dequeue_tmevtb_ok _ _ _ _ _ _ _ HK Hg Htmr) as (s1 & E1 & HK1 & F1 & HT1 & HQ1 & HW1 & HS1 & _).
  destruct (end_wait_ok _ _ t w c susp (stop tmr) E_OK HK1) as (b & s2 & E2 & HK2 & F2 & W2 & Hw2 & HT2 & HQ2).
  { apply fn_lookup_insert. } { done. } { by destruct tmr. }
  exists b, s2. unfold wait_complete. rewrite (bind_RET _ _ _ _ _ E1), E2. split; [done|]. split_and!.
  - by eapply KInv_twice.
  - by eapply tframe_trans.
  - destruct W2 as [W2 W3]. split; rewrite <- ?HS1, <- (fr_var _ _ _ _ F1); done.
  - simpl in *. by rewrite Hw2, HW1.
  - intros t' Hne. rewrite HT2, HT1; done.
  - intros q Hq. rewrite HQ2, HQ1 by done. symmetry. apply without_id. intros Ht.
    destruct (wq_waiting _ _ _ _ HK Hq Ht) as (? & ? & ? & Hx). rewrite Hg in Hx. by injection Hx as -> -> _ _; destruct (Hc q).
Qed.

Lemma wait_release_ok g s t w c susp tmr :
  KInv g s → g t = Waiting w c susp tmr → (∀ q, c ≠ Detached q) → tmr ≠ Fired →
  ∃ b s', wait_release t s = RET b s' ∧ released g s t w susp E_RLWAI b s'.
Proof.
  intros HK Hg Hc Htmr.
  destruct (wait_dequeue_wobj_ok _ _ _ _ _ _ _ HK Hg Hc) as (s0 & E0 & HK0 & F0 & HT0 & HW0 & HS0 & _ & _ & HQ0).
  destruct (wait_dequeue_tmevtb_ok _ _ t w (off c) susp tmr HK0) as (s1 & E1 & HK1 & F1 & HT1 & HQ1 & HW1 & HS1 & _).
  { apply fn_lookup_insert. } { done. }
  destruct (end_wait_ok _ _ t w (off c) susp (stop tmr) E_RLWAI HK1) as (b & s2 & E2 & HK2 & F2 & W2 & Hw2 & HT2 & HQ2).
  { apply fn_lookup_insert. } { by destruct c. } { by destruct tmr. }
  exists b, s2. unfold wait_release. rewrite (bind_RET _ _ _ _ _ E0), (bind_RET _ _ _ _ _ E1), E2.
  split; [done|]. split_and!.
  - by eapply KInv_twice, KInv_twice.
  - eapply tframe_trans; [done|]. by eapply tframe_trans.
  - destruct W2 as [W2 W3]. pose proof (fr_var _ _ _ _ F1) as V1. pose proof (fr_var _ _ _ _ F0) as V0.
    split; rewrite <- V0, <- V1, <- ?HS0, <- ?HS1; done.
  - simpl in *. by rewrite Hw2, HW1, HW0.
  - intros t' Hne. rewrite HT2, HT1, HT0; done.
  - intros q Hq. by rewrite HQ2, HQ1, HQ0.
Qed.

Lemma settled_upd g t st : settled g → settled_st st = true → settled (<[t := st]> g).
Proof.
  intros Hs Hst t'. destruct (decide (t' = t)) as [->|]; [by rewrite fn_lookup_insert|].
  by rewrite fn_lookup_insert_ne.
Qed.

Lemma settled_after g t susp : settled g → settled (<[t := after_wait susp]> g).
Proof. intros Hs. apply settled_upd; [done|by destruct susp]. Qed.

Lemma settled_timer g t w c susp tmr : settled g → g t = Waiting w c susp tmr → tmr ≠ Fired.
Proof. intros Hs Hg ->. specialize (Hs t). rewrite Hg in Hs. by destruct c. Qed.
Lemma settled_cause g t w c susp tmr : settled g → g t = Waiting w c susp tmr → ∀ q, c ≠ Detached q.
Proof. intros Hs Hg q ->. specialize (Hs t). by rewrite Hg in Hs. Qed.

(** *** Emptying a wait queue *)

(** The abstract states after every task in [q] is released. *)
Definition release_all q (st : tst) : tst :=
  match st with
  | Waiting _ (WOBJ q') susp _ => if decide (q' = q) then after_wait susp else st
  | st => st
  end.

Lemma frame_shrinks g g' s s' q :
  KInv g s → KInv g' s' → tframe (fun _ => False) s s' → is_ready_queue q = false →
  (length (wq s' q) ≤ length (wq s q))%nat.
Proof.
  intros HK HK' HF Hq. apply submseteq_length, NoDup_submseteq; [apply HK'|].
  intros t Ht. by destruct (fr_queue _ _ _ _ HF q t Hq Ht) as [? _]; [intros []|].
Qed.

Lemma release_head_ok g s q t l ercd :
  KInv g s → settled g → is_ready_queue q = false → wq s q = t :: l →
  ∃ w susp tmr b s', g t = Waiting w (WOBJ q) susp tmr ∧
    (p_tcb <- queue_delete_next q ;; wait_dequeue_tmevtb p_tcb ;;; set_wercd p_tcb ercd ;;;
     make_non_wait p_tcb) s = RET b s' ∧
    released g s t w susp ercd b s' ∧ (length (wq s' q) < length (wq s q))%nat.
Proof.
  intros HK Hset Hq Hl.
  destruct (queue_delete_next_ok _ _ _ _ _ HK Hq Hl) as (w & susp & tmr & s1 & Hg & E1 & Hs1 & HK1 & F1).
  destruct (wait_dequeue_tmevtb_ok _ _ t w (Detached q) susp tmr HK1)
    as (s2 & E2 & HK2 & F2 & HT2 & HQ2 & HW2 & HS2 & _); [apply fn_lookup_insert|by eapply settled_timer|].
  destruct (end_wait_ok _ _ t w (Detached q) susp (stop tmr) ercd HK2)
    as (b & s3 & E3 & HK3 & F3 & W3 & Hw3 & HT3 & HQ3); [apply fn_lookup_insert|done|by destruct tmr|].
  exists w, susp, tmr, b, s3. split; [done|].
  rewrite (bind_RET _ _ _ _ _ E1), (bind_RET _ _ _ _ _ E2), E3. split; [done|]. split.
  - split_and!; [by eapply KInv_twice, KInv_twice|by eapply tframe_trans, tframe_trans| | | |].
    + destruct W3 as [W3 W4]. pose proof (fr_var _ _ _ _ F1) as V1. pose proof (fr_var _ _ _ _ F2) as V2.
      split; rewrite <- V1, <- V2; [done|]. intros Hb Hd. rewrite W4, HS2, Hs1 by done. done.
    + simpl in *. by rewrite Hw3, HW2, Hs1.
    + intros t' Hne. by rewrite HT3, HT2, Hs1.
    + intros q' Hq'. rewrite HQ3, HQ2, Hs1 by done. by apply (queue_delete_head g s q t l q').
  - pose proof (frame_shrinks _ _ _ _ q HK2 HK3 F3 Hq) as Hlen. rewrite HQ2, Hs1 in Hlen. simpl in Hlen.
    rewrite fn_lookup_insert in Hlen. rewrite Hl. simpl. lia.
Qed.

Lemma init_wait_queue_loop_ok fuel : ∀ g s q d,
  KInv g s → settled g → is_ready_queue q = false → (length (wq s q) ≤ fuel)%nat →
  ∃ b s' g', init_wait_queue_loop fuel q d s = RET (b || d) s' ∧ KInv g' s' ∧ settled g' ∧
    tframe (fun _ => False) s s' ∧ woke b s s' ∧ wq s' q = [] ∧
    (∀ t, g' t = release_all q (g t)).
Proof.
  induction fuel as [|fuel IH]; intros g s q d HK Hset Hq Hlen.
  all: assert (Hbase : wq s q = [] → ∃ b s' g', (if queue_empty q s then ret d else undef) s = RET (b || d) s' ∧
    KInv g' s' ∧ settled g' ∧ tframe (fun _ => False) s s' ∧ woke b s s' ∧ wq s' q = [] ∧
    (∀ t, g' t = release_all q (g t))).
  1,3: intros Hnil; exists false, s, g; unfold queue_empty, Fam.queue_empty; rewrite Hnil;
    (split_and!; try done); intros t; destruct (g t) as [| | | |w [| |q'|] susp tmr] eqn:Hg; try done; simpl;
    case_decide; [subst q'|done]; apply (waiting_wq _ s) in Hg; [|done]; rewrite Hnil in Hg;
    by apply not_elem_of_nil in Hg.
  - destruct (wq s q) as [|x l] eqn:Hwq; [|simpl in Hlen; lia]. by apply Hbase.
  - cbn [init_wait_queue_loop]. unfold kget. destruct (wq s q) as [|t l] eqn:Hwq.
    + destruct (Hbase eq_refl) as (b & s' & g' & E & Hrest). exists b, s', g'. split; [|done].
      unfold queue_empty, Fam.queue_empty in *. by rewrite Hwq in *.
    + clear Hbase. unfold queue_empty at 1, Fam.queue_empty at 1. rewrite Hwq.
      destruct (release_head_ok _ _ _ _ _ E_DLT HK Hset Hq Hwq)
        as (w & susp & tmr & b & s1 & Hg & E1 & (HK1 & F1 & W1 & Hw1 & HT1 & HQ1) & Hlen1).
      destruct (IH _ s1 q (if b then true else d) HK1) as (b2 & s2 & g2 & E2 & HK2 & Hs2 & F2 & W2 & Hq2 & Hg2).
      { by apply settled_after. } { done. } { rewrite Hwq in Hlen1. simpl in *. lia. }
      exists (b || b2), s2, g2. split_and!; [|done|done|by eapply tframe_trans| |done|].
      * transitivity (RET (b2 || (if b then true else d)) s2); [|f_equal; destruct b, b2, d; done].
        rewrite <- E2. clear - E1. unfold bind in *.
        destruct (queue_delete_next q s) as [t1 s3|?? k|]; simpl in *; [|done|done].
        destruct (wait_dequeue_tmevtb t1 s3) as [[] s4|?? k|]; simpl in *; [|done|done].
        destruct (set_wercd t1 E_DLT s4) as [[] s5|?? k|]; simpl in *; [|done|done].
        rewrite E1. by destruct b.
      * eapply woke_trans; [done|done|]. by rewrite (fr_var _ _ _ _ F1).
      * intros t'. rewrite Hg2. destruct (decide (t' = t)) as [->|Hne].
        -- rewrite fn_lookup_insert, Hg. simpl. rewrite decide_True by done. by destruct susp.
        -- by rewrite fn_lookup_insert_ne.
Qed.

Lemma init_wait_queue_ok g s q :
  KInv g s → settled g → is_ready_queue q = false → header_ok s q = true →
  ∃ b s' g', init_wait_queue q s = RET b s' ∧ KInv g' s' ∧ settled g' ∧
    tframe (fun _ => False) s s' ∧ woke b s s' ∧ wq s' q = [] ∧
    (∀ t, g' t = release_all q (g t)).
Proof.
  intros HK Hset Hq Hhd.
  destruct (init_wait_queue_loop_ok (length (wq s q)) g s q false HK Hset Hq)
    as (b & s' & g' & E & Hrest); [lia|].
  exists b, s', g'. split; [|done]. unfold init_wait_queue, bind, kassert, kget. rewrite Hhd. simpl.
  by rewrite E, orb_false_r.
Qed.

(** *** Entering a wait *)

(** The TCB of a task that waits. *)
Definition waiting_tcb w (c : cause) (T : TCB) : TCB :=
  T <| tstat := enc (Waiting w c false NoTimer) |> <| p_winfo := Some w |>.

(** The state of the time events when [t] has begun to wait: unchanged but
    for the timer of the frame. *)
Record timer_set (m m' : TM) t w (c : cause) (tmr : timer) : Prop := {
  ts_heap : heap_ok m';
  ts_evt : ∀ b, b ≠ TM_TSK w → evt m' b = evt m b;
  ts_cb : ∀ b, b ≠ TM_TSK w → callback (tm_tmevtb m' b) = callback (tm_tmevtb m b) ∧
    arg (tm_tmevtb m' b) = arg (tm_tmevtb m b);
  ts_reg : is_Some (evt m' (TM_TSK w)) ↔ tmr = Timer;
  ts_call : tmr ≠ NoTimer →
    callback (tm_tmevtb m' (TM_TSK w)) = wait_cb c ∧ arg (tm_tmevtb m' (TM_TSK w)) = t;
  ts_clock : tm_min_time m' = tm_min_time m ∧ tm_current_time m' = tm_current_time m ∧
    tm_next_time m' = tm_next_time m ∧ tm_next_subtime m' = tm_next_subtime m }.

(** The queues when [t] has left the ready queue for the queue of [c]. *)
Definition queue_entered (T' : nat → TCB) s (Q' : qid → list nat) t (c : cause) : Prop :=
  match c with
  | WOBJ q =>
      (∀ q', q' ≠ q → Q' q' = Fam.queue_delete t (wq s) q') ∧
      (∀ x, x ∈ Q' q ↔ x = t ∨ x ∈ wq s q) ∧ NoDup (Q' q) ∧
      (is_wobjcb q = true → bits (wobjatr s q) TA_TPRI = true → pri_sorted T' (Q' q))
  | _ => ∀ q', Q' q' = Fam.queue_delete t (wq s) q'
  end.

Lemma running_only g s t q :
  KInv g s → g t = Runnable → is_ready_queue q = false → t ∉ wq s q.
Proof.
  intros HK Hg Hq Ht%(k_wq _ _ HK). unfold place in Ht. rewrite Hg in Ht. injection Ht as <-. done.
Qed.

Lemma KInv_block g s s' t w c tmr :
  KInv g s → g t = Runnable → (w < next_frame s)%nat → (∀ t', frame_of (g t') ≠ Some w) →
  cause_wf c → (∀ q, c ≠ Detached q) → tmr ≠ Fired → (c = DLY → tmr ≠ NoTimer) →
  obj s' = obj s → var s' = var s → cpu s' = cpu s → next_frame s' = next_frame s →
  tcb_table s' t = waiting_tcb w c (tcb_table s t) →
  (∀ t', t' ≠ t → tcb_table s' t' = tcb_table s t') →
  (∀ w', w' ≠ w → winfos s' w' = winfos s w') → winfo (winfos s' w) = winfo_of w tmr →
  (∀ q, c = WOBJ q → p_wobjcb (winfos s' w) = Some (wobj_of q)) →
  timer_set (tm s) (tm s') t w c tmr →
  queue_entered (tcb_table s') s (wq s') t c →
  sched_ok (tcb_table s') (wq s') (sch s') →
  KInv (<[t := Waiting w c false tmr]> g) s' ∧ tframe (fun q => c = WOBJ q) s s'.
Proof.
  intros HK Hg Hwf Hfree Hcw Hdet Hfired Hdly E1 E2 E3 E4 HTt HT HW Hwi Hob [S1 S2 S3 S4 S5 S6] HQ Hsch.
  assert (Hpri : ∀ t', priority (tcb_table s' t') = priority (tcb_table s t')).
  { intros t'. destruct (decide (t' = t)) as [->|Hne]; [by rewrite HTt|by rewrite HT]. }
  assert (Hoff : ∀ q', (∀ q, c = WOBJ q → q' ≠ q) → wq s' q' = Fam.queue_delete t (wq s) q').
  { intros q' Hq'. destruct c as [| |q|q]; simpl in HQ; [apply HQ..| |apply HQ].
    destruct HQ as [HQ _]. by apply HQ, Hq'. }
  split.
  - eapply (KInv_upd g s s' t _ w); try done.
    + left. by rewrite Hg.
    + by right.
    + by rewrite HTt.
    + intros _. rewrite Hpri. apply HK. by rewrite Hg.
    + by rewrite E4.
    + intros c' susp' tmr' [= <- <- <-]. split; try done.
      * by rewrite HTt.
      * by rewrite E4.
      * intros q [Hq|Hq]; [by apply Hob|by destruct (Hdet q)].
    + intros w' Hne. apply S2. congruence.
    + intros w' Hne. apply S3. congruence.
    + rewrite S4. split; [intros ->; eauto|by intros (? & ? & [= _ _ ->])].
    + assert (Hd : wq_ok (fun t' => if decide (t' = t) then None else place (tcb_table s) g t')
        (Fam.queue_delete t (wq s))) by (eapply wq_ok_delete; [apply HK|done]).
      assert (Hplace : ∀ t', place (tcb_table s') (<[t := Waiting w c false tmr]> g) t' =
        if decide (t' = t) then match c with WOBJ q => Some q | _ => None end
        else place (tcb_table s) g t').
      { intros t'. rewrite (place_upd (tcb_table s)) by done. by rewrite place_self. }
      destruct c as [| |q|q]; [..|by destruct (Hdet q)].
      1-2: destruct Hd as [Hd1 Hd2]; split; intros q'; rewrite HQ; [|done]; intros x; rewrite Hplace; apply Hd1.
      destruct HQ as (Q1 & Q2 & Q3 & Q4). eapply (wq_ok_insert _ _ _ _ q t Hd); try done.
      * by rewrite decide_True.
      * intros t'. rewrite Hplace. by case_decide.
      * intros x. rewrite Q2. unfold Fam.queue_delete. rewrite elem_of_without.
        destruct (decide (x = t)); naive_solver.
    + intros q Hq. unfold wobjatr. rewrite E1. fold (wobjatr s q). intros Hb.
      destruct (decide (c = WOBJ q)) as [->|Hne].
      * by apply HQ.
      * rewrite Hoff by congruence. unfold Fam.queue_delete, pri_sorted. apply StronglySorted_filter'.
        eapply pri_sorted_ext; [intros; apply Hpri|]. by apply (k_sorted _ _ HK).
  - split; try done.
    + intros q x Hq Hx Hne. rewrite Hoff in Hx by (intros q'; congruence).
      apply elem_of_without in Hx as [Hx Hxt]. rewrite HT by done. split_and!; [done..|].
      intros w' Hw'. apply HW. intros ->. destruct (wq_waiting _ _ _ _ HK Hq Hx) as (w' & ? & ? & Hg').
      pose proof (wait_winfo _ _ _ _ _ (k_wait _ _ HK _ _ _ _ _ Hg')). apply (Hfree x). rewrite Hg'. simpl. congruence.
    + intros t'. destruct (decide (t' = t)) as [->|Hne]; [|by rewrite HT].
      rewrite HTt. trans (static_tcb ((tcb_table s t) <| tstat := enc (Waiting w c false tmr) |>)); [done|].
      eapply static_tstat; [exact HK|by rewrite Hg|]. by rewrite enc_dormant, bool_decide_false.
    + intros b Hb _. apply S2. naive_solver.
    + intros b Hb _. apply S3. naive_solver.
Qed.

(** The running task [t] has left the ready queue and is not yet in the queue
    it waits in. *)
Record asleep s s1 t w (c : cause) (tmr : timer) : Prop := {
  as_obj : obj s1 = obj s; as_var : var s1 = var s; as_cpu : cpu s1 = cpu s;
  as_next : next_frame s1 = next_frame s;
  as_self : tcb_table s1 t = waiting_tcb w c (tcb_table s t);
  as_tcb : ∀ t', t' ≠ t → tcb_table s1 t' = tcb_table s t';
  as_winfos : ∀ w', w' ≠ w → winfos s1 w' = winfos s w';
  as_winfo : winfos s1 w = (winfos s w) <| winfo := winfo_of w tmr |>;
  as_tm : timer_set (tm s) (tm s1) t w c tmr;
  as_wq : wq s1 = Fam.queue_delete t (wq s);
  as_sched : sched_ok (tcb_table s1) (wq s1) (sch s1) }.

Lemma timer_set_none g s t w c : KInv g s → (∀ t', frame_of (g t') ≠ Some w) →
  timer_set (tm s) (tm s) t w c NoTimer.
Proof.
  intros HK Hfree. split; try done; [apply HK|]. rewrite (k_timer _ _ HK). split; [|done].
  intros (t' & c' & susp & Hg). by destruct (Hfree t'); rewrite Hg.
Qed.

Lemma leave_ready g s s0 t :
  KInv g s → g t = Runnable → wq s0 = wq s → sch s0 = sch s →
  (∀ t', priority (tcb_table s0 t') = priority (tcb_table s t')) →
  ∃ c', sched_ok (tcb_table s0) (Fam.queue_delete t (wq s)) c' ∧
    make_non_runnable t s0 = RET (resched s0 c') (with_ready (Fam.queue_delete t (wq s)) c' s0).
Proof.
  intros HK Hg Hq Hs HT.
  destruct (make_non_runnable_eq s0 t) as (c' & Hc' & Heq).
  - rewrite Hq, Hs. eapply sched_ok_ext; [apply HK|done|]. intros. apply HT.
  - rewrite Hq, HT. apply (k_wq _ _ HK). unfold place. by rewrite Hg.
  - rewrite Hq in Hc', Heq. by exists c'.
Qed.

Lemma tcb_table_upd t f s t' : t' ≠ t → tcb_table (upd_tcb t f s) t' = tcb_table s t'.
Proof. intros Hne. by apply fn_lookup_insert_ne. Qed.
Lemma tcb_table_self t f s : tcb_table (upd_tcb t f s) t = f (tcb_table s t).
Proof. apply fn_lookup_insert. Qed.

Lemma priority_set_tstat t v s t' :
  priority (tcb_table (upd_tcb t (fun T => T <| tstat := v |>) s) t') = priority (tcb_table s t').
Proof.
  destruct (decide (t' = t)) as [->|]; [by rewrite tcb_table_self|by rewrite tcb_table_upd].
Qed.

Lemma make_wait_asleep g s t w c :
  KInv g s → g t = Runnable → p_runtsk s = Some t → (∀ t', frame_of (g t') ≠ Some w) →
  ∃ s1, (set_tstat t (enc (Waiting w c false NoTimer)) ;;; make_wait w) s = RET () s1 ∧
    asleep s s1 t w c NoTimer.
Proof.
  intros HK Hg Hrun Hfree.
  set (s0 := upd_tcb t (fun T => T <| tstat := enc (Waiting w c false NoTimer) |>) s).
  destruct (leave_ready g s s0 t HK Hg eq_refl eq_refl) as (c' & Hc' & Heq).
  { intros t'. apply priority_set_tstat. }
  eexists. split.
  { rewrite (bind_RET _ _ s () s0) by reflexivity. unfold make_wait, kget, deref.
    change (p_runtsk s0) with (p_runtsk s). rewrite Hrun. rewrite (bind_RET _ _ _ _ _ Heq). reflexivity. }
  split; try done.
  - simpl. rewrite !fn_lookup_insert. done.
  - intros t' Hne. simpl. by rewrite !fn_lookup_insert_ne.
  - intros w' Hne. simpl. by apply fn_lookup_insert_ne.
  - simpl. apply fn_lookup_insert.
  - exact (timer_set_none g s t w c HK Hfree).
  - simpl. eapply sched_ok_ext; [exact Hc'|done|]. intros p t' _. simpl.
    destruct (decide (t' = t)) as [->|]; [by rewrite fn_lookup_insert|by rewrite fn_lookup_insert_ne].
Qed.

(** A timer of the frame is registered. *)
Lemma timer_set_registered m m' t w c cb time :
  registered m m' (TM_TSK w) time cb t → cb = wait_cb c → timer_set m m' t w c Timer.
Proof.
  intros [R1 R2 R3 R4 R5 R6 RC] ->. split; try done.
Qed.

Lemma make_wait_tmout_asleep_tmr g s t w c tmout :
  KInv g s → g t = Runnable → p_runtsk s = Some t → (∀ t', frame_of (g t') ≠ Some w) →
  c ≠ DLY → -1 ≤ tmout ≤ TMAX_RELTIM → tmout ≠ 0 →
  ∃ s1, (set_tstat t (enc (Waiting w c false NoTimer)) ;;; make_wait_tmout w tmout) s = RET () s1 ∧
    asleep s s1 t w c (if 0 <? tmout then Timer else NoTimer).
Proof.
  intros HK Hg Hrun Hfree Hc Hto Hpol.
  set (s0 := upd_tcb t (fun T => T <| tstat := enc (Waiting w c false NoTimer) |>) s).
  destruct (leave_ready g s s0 t HK Hg eq_refl eq_refl) as (c' & Hc' & Heq).
  { intros t'. apply priority_set_tstat. }
  assert (Hsched : ∀ s1, wq s1 = Fam.queue_delete t (wq s) → sch s1 = c' →
    (∀ t', priority (tcb_table s1 t') = priority (tcb_table s0 t')) →
    sched_ok (tcb_table s1) (wq s1) (sch s1)).
  { intros s1 -> -> HT. eapply sched_ok_ext; [exact Hc'|done|]. intros p t' _. apply HT. }
  assert (Hnone : evt (tm s) (TM_TSK w) = None).
  { destruct (evt (tm s) (TM_TSK w)) eqn:He; [|done]. exfalso.
    destruct (proj1 (k_timer _ _ HK w)) as (t' & c1 & susp & Hg'); [by eexists|].
    apply (Hfree t'). by rewrite Hg'. }
  destruct (0 <? tmout) eqn:Hpos.
  - set (s2 := upd_winfo w (fun W => W <| winfo := P_TMEVTB (Some (TM_TSK w)) |>)
      (upd_tcb t (fun T => T <| p_winfo := Some w |>) (with_ready (Fam.queue_delete t (wq s)) c' s0))).
    destruct (tmevtb_enqueue_ok s2 (TM_TSK w) tmout wait_tmout_cb t) as (m' & Em & Hm); [apply HK|done|lia|].
    exists (upd_tm (fun _ => m') s2). split.
    { rewrite (bind_RET _ _ s () s0) by reflexivity. unfold make_wait_tmout, kget, deref.
      change (p_runtsk s0) with (p_runtsk s). rewrite Hrun. rewrite (bind_RET _ _ _ _ _ Heq).
      rewrite Hpos. exact Em. }
    split; try done.
    + simpl. rewrite !fn_lookup_insert. done.
    + intros t' Hne. simpl. by rewrite !fn_lookup_insert_ne.
    + intros w' Hne. simpl. by apply fn_lookup_insert_ne.
    + simpl. apply fn_lookup_insert.
    + simpl. eapply timer_set_registered; [exact Hm|]. by destruct c.
    + apply Hsched; [done..|]. intros t'. simpl. unfold insert, fn_insert. by repeat case_decide; subst.
  - assert (tmout = -1) as -> by lia. eexists. split.
    { rewrite (bind_RET _ _ s () s0) by reflexivity. unfold make_wait_tmout, kget, deref.
      change (p_runtsk s0) with (p_runtsk s). rewrite Hrun. rewrite (bind_RET _ _ _ _ _ Heq).
      reflexivity. }
    split; try done.
    + simpl. rewrite !fn_lookup_insert. done.
    + intros t' Hne. simpl. by rewrite !fn_lookup_insert_ne.
    + intros w' Hne. simpl. by apply fn_lookup_insert_ne.
    + simpl. apply fn_lookup_insert.
    + exact (timer_set_none g s t w c HK Hfree).
    + apply Hsched; [done..|]. intros t'. simpl. unfold insert, fn_insert. by repeat case_decide; subst.
Qed.

Lemma make_wait_tmout_asleep g s t w c tmout :
  KInv g s → g t = Runnable → p_runtsk s = Some t → (∀ t', frame_of (g t') ≠ Some w) →
  c ≠ DLY → -1 ≤ tmout ≤ TMAX_RELTIM → tmout ≠ 0 →
  ∃ s1 tmr, (set_tstat t (enc (Waiting w c false NoTimer)) ;;; make_wait_tmout w tmout) s = RET () s1 ∧
    tmr ≠ Fired ∧ asleep s s1 t w c tmr.
Proof.
  intros HK Hg Hrun Hfree Hc Hto Hpol.
  destruct (make_wait_tmout_asleep_tmr g s t w c tmout HK Hg Hrun Hfree Hc Hto Hpol) as (s1 & E & Has).
  exists s1, (if 0 <? tmout then Timer else NoTimer). split; [exact E|]. split; [by destruct (0 <? tmout)|exact Has].
Qed.

(** Falling asleep without a queue. *)
Lemma asleep_KInv g s s1 t w c tmr :
  KInv g s → g t = Runnable → (w < next_frame s)%nat → (∀ t', frame_of (g t') ≠ Some w) →
  asleep s s1 t w c tmr → (∀ q, c ≠ WOBJ q ∧ c ≠ Detached q) → tmr ≠ Fired → (c = DLY → tmr ≠ NoTimer) →
  KInv (<[t := Waiting w c false tmr]> g) s1 ∧ tframe (fun q => c = WOBJ q) s s1.
Proof.
  intros HK Hg Hw Hfree [A1 A2 A3 A4 A5 A6 A7 A8 A9 A10 A11] Hc Hf Hd.
  eapply (KInv_block g s s1 t w c tmr); try done.
  - destruct c as [| |q|q]; [done|done|by destruct (Hc q)|by destruct (Hc q)].
  - intros q. apply Hc.
  - by rewrite A8.
  - intros q Hq. by destruct (Hc q).
  - destruct c as [| |q|q]; simpl; rewrite A10; [done|done|by destruct (Hc q)|by destruct (Hc q)].
Qed.

(** Falling asleep in a wait queue: the rest of the code inserts the task and
    records the object. *)
Lemma asleep_enter g s s1 t w q tmr Q' :
  KInv g s → g t = Runnable → (w < next_frame s)%nat → (∀ t', frame_of (g t') ≠ Some w) →
  asleep s s1 t w (WOBJ q) tmr → is_ready_queue q = false → tmr ≠ Fired →
  (Q' = Fam.queue_insert_prev q t (wq s1) ∧
     (is_wobjcb q = true → bits (wobjatr s q) TA_TPRI = false) ∨
   Q' = Fam.queue_insert_sorted
     (fun x => priority (tcb_table s1 t) <? priority (tcb_table s1 x)) q t (wq s1)) →
  let s2 := upd_winfo w (fun W => W <| p_wobjcb := Some (wobj_of q) |>) (upd_wq (fun _ => Q') s1) in
  KInv (<[t := Waiting w (WOBJ q) false tmr]> g) s2 ∧ tframe (fun q' => WOBJ q = WOBJ q') s s2 ∧
  (∀ x, x ∈ wq s2 q ↔ x = t ∨ x ∈ wq s q).
Proof.
  intros HK Hg Hw Hfree [A1 A2 A3 A4 A5 A6 A7 A8 A9 A10 A11] Hq Hf HQ s2.
  assert (Hdel : Fam.queue_delete t (wq s) q = wq s q).
  { apply queue_delete_other. by eapply running_only. }
  assert (Hnd : NoDup (wq s q)) by apply HK.
  assert (Hnt : t ∉ wq s q) by (by eapply running_only).
  assert (Hoth : ∀ q', q' ≠ q → Q' q' = Fam.queue_delete t (wq s) q').
  { intros q' Hne. rewrite <- A10. destruct HQ as [[-> _]| ->]; apply fn_lookup_insert_ne; congruence. }
  assert (Hin : ∀ x, x ∈ Q' q ↔ x = t ∨ x ∈ wq s q).
  { intros x. destruct HQ as [[-> _]| ->].
    - unfold Fam.queue_insert_prev. rewrite fn_lookup_insert, A10, Hdel. set_solver.
    - unfold Fam.queue_insert_sorted. rewrite fn_lookup_insert, A10, Hdel. apply elem_of_insert_before_first. }
  assert (Hnd' : NoDup (Q' q)).
  { destruct HQ as [[-> _]| ->].
    - unfold Fam.queue_insert_prev. rewrite fn_lookup_insert, A10, Hdel.
      apply NoDup_app. split_and!; [done| |apply NoDup_singleton]. set_solver.
    - unfold Fam.queue_insert_sorted. rewrite fn_lookup_insert, A10, Hdel. by apply NoDup_insert_before_first. }
  assert (Hentered : queue_entered (tcb_table s1) s Q' t (WOBJ q)).
  { split_and!; [done..|]. intros H1 H2. destruct HQ as [[-> HQ]| ->]; [by rewrite HQ in H2|].
    unfold Fam.queue_insert_sorted. rewrite fn_lookup_insert, A10, Hdel.
    eapply pri_sorted_insert; [by apply (k_sorted _ _ HK)|done|]. intros t' Ht'.
    rewrite A6; [done|]. by intros ->. }
  destruct (KInv_block g s s2 t w (WOBJ q) tmr) as [HK' HF']; try done.
  - intros w' Hne. simpl. rewrite fn_lookup_insert_ne by done. by apply A7.
  - simpl. rewrite fn_lookup_insert. simpl. by rewrite A8.
  - intros q' [= <-]. simpl. by rewrite fn_lookup_insert.
  - simpl. eapply sched_ok_ext; [exact A11| |done]. intros p. rewrite A10. apply Hoth. by intros <-.
Qed.

Lemma wobj_queue_insert_eq s t q :
  p_runtsk s = Some t →
  wobj_queue_insert q s = RET () (upd_wq (fun _ =>
    if bits (wobjatr s q) TA_TPRI
    then Fam.queue_insert_sorted (fun x => priority (tcb_table s t) <? priority (tcb_table s x)) q t (wq s)
    else Fam.queue_insert_prev q t (wq s)) s).
Proof. intros Hrun. unfold wobj_queue_insert, kget, deref. rewrite Hrun. by destruct (bits _ _). Qed.

(** What a service call leaves behind when it has put the running task to
    sleep. *)
Record blocked g s t w (c : cause) g' s' : Prop := {
  bl_inv : KInv g' s';
  bl_g : ∃ tmr, tmr ≠ Fired ∧ ∀ t', g' t' = <[t := Waiting w c false tmr]> g t';
  bl_frame : tframe (fun q => c = WOBJ q) s s';
  bl_queue : ∀ q, c = WOBJ q → ∀ x, x ∈ wq s' q ↔ x = t ∨ x ∈ wq s q;
  bl_winfo : p_winfo (tcb_table s' t) = Some w;
  bl_tcb : ∀ t', t' ≠ t → tcb_table s' t' = tcb_table s t';
  bl_winfos : ∀ w', w' ≠ w → winfos s' w' = winfos s w';
  bl_data : ∃ v o, winfos s' w = (winfos s w) <| winfo := v |> <| p_wobjcb := o |> }.

Lemma asleep_blocked g s s1 t w q tmr :
  KInv g s → g t = Runnable → (w < next_frame s)%nat → (∀ t', frame_of (g t') ≠ Some w) →
  asleep s s1 t w (WOBJ q) tmr → is_wobjcb q = true → tmr ≠ Fired → p_runtsk s = Some t →
  ∃ s2, (wobj_queue_insert q ;;; set_wobjcb w q) s1 = RET () s2 ∧
    blocked g s t w (WOBJ q) (<[t := Waiting w (WOBJ q) false tmr]> g) s2.
Proof.
  intros HK Hg Hw Hfree Has Hq Hf Hrun. pose proof Has as [A1 A2 A3 A4 A5 A6 A7 A8 A9 A10 A11].
  assert (Hwo : wobj_of q = q) by (by destruct q).
  rewrite (bind_RET _ _ _ _ _ (wobj_queue_insert_eq s1 t q ltac:(by rewrite A2))).
  destruct (asleep_enter g s s1 t w q tmr (if bits (wobjatr s1 q) TA_TPRI
    then Fam.queue_insert_sorted (fun x => priority (tcb_table s1 t) <? priority (tcb_table s1 x)) q t (wq s1)
    else Fam.queue_insert_prev q t (wq s1))) as (HK2 & HF2 & HQ2); try done.
  { by destruct q. }
  { unfold wobjatr. rewrite A1. fold (wobjatr s q).
    destruct (bits (wobjatr s q) TA_TPRI); [by right|left]. done. }
  rewrite Hwo in *. eexists. split; [reflexivity|]. split; try done.
  - by exists tmr.
  - intros q' [= <-]. done.
  - simpl. by rewrite A5.
  - intros w' Hne. simpl. rewrite fn_lookup_insert_ne by done. by apply A7.
  - simpl. rewrite fn_lookup_insert, A8. by eexists _, _.
Qed.

(** The receive queues of the data queues are in order of arrival. *)
Lemma asleep_blocked_rcv g s s1 t w q tmr :
  KInv g s → g t = Runnable → (w < next_frame s)%nat → (∀ t', frame_of (g t') ≠ Some w) →
  asleep s s1 t w (WOBJ q) tmr → is_ready_queue q = false → is_wobjcb q = false → tmr ≠ Fired →
  p_runtsk s = Some t →
  ∃ s2, ((get s;; the t := p_runtsk s ;; queue_insert_prev q t) ;;; set_wobjcb w (wobj_of q)) s1 = RET () s2 ∧
    blocked g s t w (WOBJ q) (<[t := Waiting w (WOBJ q) false tmr]> g) s2.
Proof.
  intros HK Hg Hw Hfree Has Hq Hwq Hf Hrun. pose proof Has as [A1 A2 A3 A4 A5 A6 A7 A8 A9 A10 A11].
  destruct (asleep_enter g s s1 t w q tmr (Fam.queue_insert_prev q t (wq s1))) as (HK2 & HF2 & HQ2); try done.
  { left. split; [done|congruence]. }
  eexists. split; [unfold bind at 1, kget, deref; rewrite A2, Hrun; reflexivity|]. split; try done.
  - by exists tmr.
  - intros q' [= <-]. done.
  - simpl. by rewrite A5.
  - intros w' Hne. simpl. rewrite fn_lookup_insert_ne by done. by apply A7.
  - simpl. rewrite fn_lookup_insert, A8. by eexists _, _.
Qed.

Section block.
Context (g : nat → tst) (s : State) (t w : nat).
Context (HK : KInv g s) (Hg : g t = Runnable) (Hrun : p_runtsk s = Some t).
Context (Hw : (w < next_frame s)%nat) (Hfree : ∀ t', frame_of (g t') ≠ Some w).
Notation code q := (enc (Waiting w (WOBJ q) false NoTimer)).

Lemma wobj_make_wait_ok q :
  is_wobjcb q = true →
  ∃ s' g', (set_tstat t (code q) ;;; wobj_make_wait q w) s = RET () s' ∧ blocked g s t w (WOBJ q) g' s'.
Proof.
  intros Hq. destruct (make_wait_asleep g s t w (WOBJ q) HK Hg Hrun Hfree) as (s1 & E1 & Has).
  destruct (asleep_blocked g s s1 t w q NoTimer HK Hg Hw Hfree Has Hq) as (s2 & E2 & Hb); [done..|].
  exists s2, (<[t := Waiting w (WOBJ q) false NoTimer]> g). split; [|done].
  exact (eq_trans (bind2_RET _ _ _ _ _ _ E1) E2).
Qed.

Lemma wobj_make_wait_tmout_ok q tmout :
  is_wobjcb q = true → -1 ≤ tmout ≤ TMAX_RELTIM → tmout ≠ 0 →
  ∃ s' g', (set_tstat t (code q) ;;; wobj_make_wait_tmout q w tmout) s = RET () s' ∧
    blocked g s t w (WOBJ q) g' s'.
Proof.
  intros Hq Hto Hpol.
  destruct (make_wait_tmout_asleep g s t w (WOBJ q) tmout HK Hg Hrun Hfree) as (s1 & tmr & E1 & Hf & Has); [done..|].
  destruct (asleep_blocked g s s1 t w q tmr HK Hg Hw Hfree Has Hq) as (s2 & E2 & Hb); [done..|].
  exists s2, (<[t := Waiting w (WOBJ q) false tmr]> g). split; [|done].
  exact (eq_trans (bind2_RET _ _ _ _ _ _ E1) E2).
Qed.

Lemma rcv_make_wait_ok q :
  is_ready_queue q = false → is_wobjcb q = false →
  ∃ s' g', (set_tstat t (code q) ;;; make_wait w ;;;
      (get s;; the t := p_runtsk s ;; queue_insert_prev q t) ;;; set_wobjcb w (wobj_of q)) s = RET () s' ∧
    blocked g s t w (WOBJ q) g' s'.
Proof.
  intros Hr Hq. destruct (make_wait_asleep g s t w (WOBJ q) HK Hg Hrun Hfree) as (s1 & E1 & Has).
  destruct (asleep_blocked_rcv g s s1 t w q NoTimer HK Hg Hw Hfree Has Hr Hq) as (s2 & E2 & Hb); [done..|].
  exists s2, (<[t := Waiting w (WOBJ q) false NoTimer]> g). split; [|done].
  exact (eq_trans (bind2_RET _ _ _ _ _ _ E1) E2).
Qed.

Lemma rcv_make_wait_tmout_ok q tmout :
  is_ready_queue q = false → is_wobjcb q = false → -1 ≤ tmout ≤ TMAX_RELTIM → tmout ≠ 0 →
  ∃ s' g', (set_tstat t (code q) ;;; make_wait_tmout w tmout ;;;
      (get s;; the t := p_runtsk s ;; queue_insert_prev q t) ;;; set_wobjcb w (wobj_of q)) s = RET () s' ∧
    blocked g s t w (WOBJ q) g' s'.
Proof.
  intros Hr Hq Hto Hpol.
  destruct (make_wait_tmout_asleep g s t w (WOBJ q) tmout HK Hg Hrun Hfree) as (s1 & tmr & E1 & Hf & Has); [done..|].
  destruct (asleep_blocked_rcv g s s1 t w q tmr HK Hg Hw Hfree Has Hr Hq) as (s2 & E2 & Hb); [done..|].
  exists s2, (<[t := Waiting w (WOBJ q) false tmr]> g). split; [|done].
  exact (eq_trans (bind2_RET _ _ _ _ _ _ E1) E2).
Qed.
End block.
End release.
