(* ===== verification/Priority.v ===== *)
(** * Changing the priority of a task

    [change_priority] moves a runnable task to the ready queue of its new
    priority and a task that waits in a queue in priority order to its new
    place there. *)

From S2P Require Import Prelude Queue Data Kmonad TimeEvent Task Wait Core Release.
Open Scope Z_scope.

Section priority.
Context {cfg : Config}.
Implicit Types (s : State) (g : nat → tst) (t w : nat) (q : qid).

Record reprioritized g s t (p : Z) (b : bool) s' : Prop := {
  rp_inv : KInv g s';
  rp_tcb : tcb_table s' = <[t := set_priority p (tcb_table s t)]> (tcb_table s);
  rp_obj : obj s' = obj s; rp_var : var s' = var s; rp_cpu : cpu s' = cpu s; rp_tm : tm s' = tm s;
  rp_winfos : winfos s' = winfos s;
  rp_queue : ∀ q x, is_ready_queue q = false → x ∈ wq s' q ↔ x ∈ wq s q;
  rp_woke : woke b s s';
  rp_raise : g t = Runnable → p_schedtsk s = Some t → p < priority (tcb_table s t) → p_schedtsk s' = Some t }.

(** The parts of the invariant a new priority of [t] can break. *)
Lemma KInv_priority g s s' t p :
  KInv g s → 0 ≤ p < 16 →
  tcb_table s' = <[t := set_priority p (tcb_table s t)]> (tcb_table s) →
  obj s' = obj s → tm s' = tm s → winfos s' = winfos s → next_frame s' = next_frame s →
  wq_ok (place (tcb_table s') g) (wq s') → sched_ok (tcb_table s') (wq s') (sch s') →
  (∀ q, is_wobjcb q = true → bits (wobjatr s q) TA_TPRI = true → pri_sorted (tcb_table s') (wq s' q)) →
  KInv g s'.
Proof.
  intros [K1 K2 K3 K4 K5 K6 K7 K8 K9 K10] Hp HT Ho Htm Hw Hn Hwq Hsch Hsort.
  assert (Ht : ∀ t', tstat (tcb_table s' t') = tstat (tcb_table s t') ∧ p_winfo (tcb_table s' t') = p_winfo (tcb_table s t') ∧
    (g t' ≠ Dormant → 0 ≤ priority (tcb_table s' t') < 16)).
  { intros t'. rewrite HT. destruct (decide (t' = t)) as [->|Hne].
    - by rewrite fn_lookup_insert.
    - rewrite fn_lookup_insert_ne by done. split_and!; [done|done|apply K3]. }
  split; try done.
  - intros t'. by rewrite (proj1 (Ht t')).
  - intros t'. apply Ht.
  - intros t' w c susp tmr Hg. destruct (K4 _ _ _ _ _ Hg). split; rewrite ?Hw, ?Hn, ?Htm; try done.
    by rewrite (proj1 (proj2 (Ht t'))).
  - by rewrite Htm.
  - by rewrite Htm.
  - intros q. unfold wobjatr. rewrite Ho. apply Hsort.
Qed.

Lemma pri_sorted_other T t p l : pri_sorted T l → t ∉ l → pri_sorted (<[t := set_priority p (T t)]> T) l.
Proof.
  intros Hs Ht. eapply pri_sorted_ext; [|exact Hs]. intros x Hx. rewrite fn_lookup_insert_ne; [done|].
  by intros ->.
Qed.

Lemma place_priority_other T g t p t' : t' ≠ t → place (<[t := set_priority p (T t)]> T) g t' = place T g t'.
Proof. intros Hne. unfold place. by rewrite fn_lookup_insert_ne. Qed.

(** A task that is not in the ready queue. *)
Lemma sched_priority g s t p :
  KInv g s → g t ≠ Runnable → sched_ok (<[t := set_priority p (tcb_table s t)]> (tcb_table s)) (wq s) (sch s).
Proof.
  intros HK Hg. eapply sched_ok_ext; [apply HK|done|]. intros p' x Hx%(k_wq _ _ HK).
  rewrite fn_lookup_insert_ne; [done|]. intros ->. unfold place in Hx. destruct (g x) as [| | | |w [| |q|q] susp tmr] eqn:Hgx; try done.
  injection Hx as ->. pose proof (k_wf _ _ HK x) as Hwf. by rewrite Hgx in Hwf.
Qed.

Lemma place_not_runnable T g t p t' : g t ≠ Runnable → place (<[t := set_priority p (T t)]> T) g t' = place T g t'.
Proof.
  intros Hg. destruct (decide (t' = t)) as [->|]; [|by apply place_priority_other].
  unfold place. by destruct (g t).
Qed.

Lemma change_priority_runnable g s t p m :
  KInv g s → g t = Runnable → 0 ≤ p < 16 →
  ∃ b s', change_priority t p m s = RET b s' ∧ reprioritized g s t p b s'.
Proof.
  intros HK Hg Hp.
  assert (Hin : t ∈ wq s (RDQ (priority (tcb_table s t)))) by (apply (k_wq _ _ HK); unfold place; by rewrite Hg).
  destruct (change_priority_ready_eq s t p m) as (c' & Hc & E); [apply HK| |exact Hin|exact Hp|].
  { rewrite (k_tstat _ _ HK), enc_runnable by apply HK. rewrite bool_decide_true; [done|by left]. }
  assert (Hother : ∀ q, is_ready_queue q = false → requeue m t p (wq s) q = wq s q).
  { intros q Hq. rewrite requeue_other by (by intros ->). apply queue_delete_other. by eapply running_only. }
  eexists _, _. split; [exact E|].
  set (s' := with_ready _ _ _).
  assert (HK' : KInv g s').
  { apply (KInv_priority g s s' t p HK Hp); try done.
    - assert (HW : wq_ok (fun t' => if decide (t' = t) then None else place (tcb_table s) g t') (Fam.queue_delete t (wq s)))
        by (by eapply wq_ok_delete; [apply HK|]).
      assert (Hpl : ∀ t', place (tcb_table s') g t' = if decide (t' = t) then Some (RDQ p) else
        (if decide (t' = t) then None else place (tcb_table s) g t')).
      { intros t'. destruct (decide (t' = t)) as [->|Hne]; [|by apply place_priority_other].
        unfold place. simpl. by rewrite Hg, fn_lookup_insert. }
      simpl. unfold requeue. destruct m.
      + by eapply wq_ok_insert_next; [exact HW|by cbv beta; rewrite decide_True|exact Hpl].
      + by eapply wq_ok_insert_prev; [exact HW|by cbv beta; rewrite decide_True|exact Hpl].
    - intros q Hq Hb. simpl. rewrite Hother by (by destruct q).
      apply pri_sorted_other; [by apply (k_sorted _ _ HK)|]. eapply running_only; [exact HK|exact Hg|by destruct q]. }
  split; try done.
  - intros q x Hq. simpl. by rewrite Hother.
  - by apply resched_woke.
  - intros _ Hs Hlt. simpl. rewrite (sched_schedtsk _ _ _ Hc). destruct (k_sched _ _ HK) as [S1 S2 S3].
    apply (requeue_head_same (tcb_table s)); [exact S1|congruence|lia].
Qed.

Lemma change_priority_stay g s t p :
  KInv g s → g t ≠ Runnable → 0 ≤ p < 16 →
  (∀ q, is_wobjcb q = true → bits (wobjatr s q) TA_TPRI = true → t ∉ wq s q) →
  reprioritized g s t p false (upd_tcb t (set_priority p) s).
Proof.
  intros HK Hg Hp Hno. assert (HK' : KInv g (upd_tcb t (set_priority p) s)).
  { apply (KInv_priority g s _ t p HK Hp); try done.
    - eapply wq_ok_ext; [|apply HK]. intros t'. by apply place_not_runnable.
    - exact (sched_priority g s t p HK Hg).
    - intros q Hq Hb. apply pri_sorted_other; [by apply (k_sorted _ _ HK)|]. by apply Hno. }
  split; try done.
Qed.

Lemma change_priority_tpri g s t p w q susp tmr :
  KInv g s → g t = Waiting w (WOBJ q) susp tmr → is_wobjcb q = true → 0 ≤ p < 16 →
  let s1 := upd_tcb t (set_priority p) s in
  let s' := upd_wq (Fam.queue_insert_sorted (fun x => p <? priority (tcb_table s1 x)) q t)
    (upd_wq (Fam.queue_delete t) s1) in
  reprioritized g s t p false s'.
Proof.
  intros HK Hg Hq Hp s1 s'.
  assert (Hr : g t ≠ Runnable) by (by rewrite Hg).
  assert (HT1 : priority (tcb_table s1 t) = p) by (simpl; by rewrite fn_lookup_insert).
  pose proof (wq_ok_delete _ (fun t' => if decide (t' = t) then None else place (tcb_table s) g t') _ t (k_wq _ _ HK) (fun _ => eq_refl)) as HW.
  assert (Hin : ∀ q' x, x ∈ wq s' q' ↔ x ∈ wq s q').
  { assert (Hin_q : t ∈ wq s q) by (apply (k_wq _ _ HK); unfold place; by rewrite Hg).
    intros q' x. simpl. unfold Fam.queue_insert_sorted. destruct (decide (q' = q)) as [->|Hne].
    - rewrite fn_lookup_insert, elem_of_insert_before_first. unfold Fam.queue_delete. rewrite elem_of_without.
      destruct (decide (x = t)); naive_solver.
    - rewrite fn_lookup_insert_ne by done. unfold Fam.queue_delete. rewrite elem_of_without. split; [naive_solver|].
      intros Hx. split; [done|]. intros ->. apply (k_wq _ _ HK) in Hx, Hin_q. congruence. }
  assert (Hother : ∀ q', q' ≠ q → wq s' q' = wq s q').
  { intros q' Hne. simpl. unfold Fam.queue_insert_sorted. rewrite fn_lookup_insert_ne by done.
    apply queue_delete_other. intros Hx%(k_wq _ _ HK). unfold place in Hx. rewrite Hg in Hx. by injection Hx as ->. }
  assert (HK' : KInv g s').
  { apply (KInv_priority g s s' t p HK Hp); try done.
    - eapply wq_ok_insert_sorted; [exact HW|by cbv beta; rewrite decide_True|]. intros t'. simpl.
      rewrite (place_not_runnable (tcb_table s) g t p t' Hr). destruct (decide (t' = t)) as [->|]; [|done].
      unfold place. by rewrite Hg.
    - eapply sched_ok_ext; [by apply (sched_priority g s t p)| |done]. intros p'. apply Hother. by intros <-.
    - intros q' Hq' Hb. destruct (decide (q' = q)) as [->|Hne].
      + assert (Hl : ∀ l, insert_before_first (fun x => p <? priority (tcb_table s1 x)) t l =
          insert_before_first (fun x => priority (tcb_table s1 t) <? priority (tcb_table s1 x)) t l) by (by rewrite HT1).
        unfold s', upd_wq, set, Fam.queue_insert_sorted. cbn [wq]. rewrite fn_lookup_insert, Hl.
        apply (pri_sorted_insert (tcb_table s) (tcb_table s1)).
        * apply StronglySorted_filter', (k_sorted _ _ HK q); [done|exact Hb].
        * intros [_ Hx]%elem_of_without. done.
        * intros t' [_ Hx]%elem_of_without. simpl. by rewrite fn_lookup_insert_ne.
      + rewrite Hother by done. apply pri_sorted_other; [by apply (k_sorted _ _ HK)|].
        intros Hx%(k_wq _ _ HK). unfold place in Hx. rewrite Hg in Hx. by injection Hx as ->. }
  split; try done.
Qed.

(** *** What [change_priority] does to a task that is not runnable *)

Lemma change_priority_not_runnable g s t p m :
  KInv g s → settled_st (g t) = true → g t ≠ Dormant → g t ≠ Runnable → let s1 := upd_tcb t (set_priority p) s in
  change_priority t p m s = (get s;;
    if TSTAT_WAIT_WOBJCB (enc (g t)) then
      the w := p_winfo (tcb_table s t) ;;
      the q := p_wobjcb (winfos s w) ;;
      wobj_change_priority q t ;;;
      ret false
    else ret false) s1.
Proof.
  intros HK Hset Hd Hg s1. unfold change_priority. unfold kget at 1.
  rewrite (bind_RET _ _ s () s1) by reflexivity. unfold kget at 1.
  assert (Hts : tstat (tcb_table s1 t) = enc (g t)) by (simpl; rewrite fn_lookup_insert; apply HK).
  rewrite Hts, enc_runnable by apply HK.
  by rewrite bool_decide_false by (intros [Hx|Hx]; [done|by rewrite Hx in Hset]).
Qed.

(** A task that waits in a queue in priority order. *)
Lemma change_priority_tpri_eq g s t p m w q susp tmr :
  KInv g s → settled_st (g t) = true → g t = Waiting w (WOBJ q) susp tmr → is_wobjcb q = true →
  bits (wobjatr s q) TA_TPRI = true → let s1 := upd_tcb t (set_priority p) s in
  change_priority t p m s = RET false
    (upd_wq (Fam.queue_insert_sorted (fun x => p <? priority (tcb_table s1 x)) q t) (upd_wq (Fam.queue_delete t) s1)).
Proof.
  intros HK Hset Hg Hq Hb s1. erewrite change_priority_not_runnable; [|exact HK|done|by rewrite Hg|by rewrite Hg]. fold s1.
  destruct (k_wait _ _ HK _ _ _ _ _ Hg) as [W1 W2 W3 W4 W5 W6].
  rewrite enc_wobjcb by apply HK. rewrite Hg, Hq. unfold kget at 1, deref.
  assert (p_winfo (tcb_table s1 t) = p_winfo (tcb_table s t)) as -> by (simpl; by rewrite fn_lookup_insert).
  rewrite W1. change (winfos s1) with (winfos s). rewrite (W4 q) by (by left).
  assert (wobj_of q = q) as -> by (by destruct q). erewrite bind_RET; [reflexivity|].
  unfold wobj_change_priority, kget. change (wobjatr s1 q) with (wobjatr s q). rewrite Hb.
  unfold queue_insert_tpri, queue_delete, bind, upd. simpl. rewrite !fn_lookup_insert. done.
Qed.

(** Every other task that is not runnable stays where it is. *)
Lemma change_priority_stay_eq g s t p m :
  KInv g s → settled_st (g t) = true → g t ≠ Dormant → g t ≠ Runnable →
  (∀ q, is_wobjcb q = true → bits (wobjatr s q) TA_TPRI = true → t ∉ wq s q) →
  change_priority t p m s = RET false (upd_tcb t (set_priority p) s).
Proof.
  intros HK Hset Hd Hg Hno. rewrite (change_priority_not_runnable g) by done. set (s1 := upd_tcb _ _ _).
  rewrite enc_wobjcb by apply HK. unfold kget at 1.
  destruct (g t) as [| | | |w [| |q|q] susp tmr] eqn:Hgt; try done. destruct (is_wobjcb q) eqn:Hq; [|done].
  destruct (k_wait _ _ HK _ _ _ _ _ Hgt) as [W1 W2 W3 W4 W5 W6]. unfold deref.
  assert (p_winfo (tcb_table s1 t) = p_winfo (tcb_table s t)) as -> by (simpl; by rewrite fn_lookup_insert).
  rewrite W1. change (winfos s1) with (winfos s). rewrite (W4 q) by (by left).
  assert (wobj_of q = q) as -> by (by destruct q). erewrite bind_RET; [reflexivity|].
  unfold wobj_change_priority, kget. change (wobjatr s1 q) with (wobjatr s q).
  destruct (bits (wobjatr s q) TA_TPRI) eqn:Hb; [|done].
  destruct (Hno q Hq Hb). apply (k_wq _ _ HK). unfold place. by rewrite Hgt.
Qed.

(** Where a task stands that is not runnable. *)
Lemma sorted_waiter g s t q :
  KInv g s → t ∈ wq s q → is_wobjcb q = true → ∃ w susp tmr, g t = Waiting w (WOBJ q) susp tmr.
Proof.
  intros HK Hx%(k_wq _ _ HK) Hq. unfold place in Hx.
  destruct (g t) as [| | | |w [| |q'|q'] susp tmr]; try done; injection Hx as <-; try done. eauto.
Qed.

(** The queue in priority order a task waits in, if it waits in one. *)
Definition sorted_queue g s t : option qid :=
  match g t with
  | Waiting _ (WOBJ q) _ _ => if is_wobjcb q && bits (wobjatr s q) TA_TPRI then Some q else None
  | _ => None
  end.

Lemma sorted_queue_some g s t q : sorted_queue g s t = Some q →
  ∃ w susp tmr, g t = Waiting w (WOBJ q) susp tmr ∧ is_wobjcb q = true ∧ bits (wobjatr s q) TA_TPRI = true.
Proof.
  unfold sorted_queue. destruct (g t) as [| | | |w [| |q'|q'] susp tmr]; try done.
  destruct (is_wobjcb q' && _) eqn:Hb; [|done]. intros [= ->]. apply andb_true_iff in Hb. naive_solver.
Qed.

Lemma sorted_queue_none g s t : KInv g s → sorted_queue g s t = None →
  ∀ q, is_wobjcb q = true → bits (wobjatr s q) TA_TPRI = true → t ∉ wq s q.
Proof.
  intros HK Hn q Hq Hb Hx. destruct (sorted_waiter g s t q HK Hx Hq) as (w & susp & tmr & Hg).
  unfold sorted_queue in Hn. by rewrite Hg, Hq, Hb in Hn.
Qed.

Lemma change_priority_ok g s t p m :
  KInv g s → settled_st (g t) = true → g t ≠ Dormant → 0 ≤ p < 16 →
  ∃ b s', change_priority t p m s = RET b s' ∧ reprioritized g s t p b s'.
Proof.
  intros HK Hset Hd Hp. destruct (decide (g t = Runnable)) as [Hg|Hg]; [by apply change_priority_runnable|].
  destruct (sorted_queue g s t) as [q|] eqn:Hs.
  - apply sorted_queue_some in Hs as (w & susp & tmr & Hgt & Hq & Hb).
    eexists _, _. split; [by eapply change_priority_tpri_eq|]. by eapply change_priority_tpri.
  - pose proof (sorted_queue_none g s t HK Hs) as Hno.
    eexists _, _. split; [by eapply change_priority_stay_eq|]. by apply change_priority_stay.
Qed.

(** The place of a task in a queue in the order of priorities, its own being
    [p] there. *)
Lemma place_in_sorted T t p l :
  pri_sorted T l → let T1 := <[t := set_priority p (T t)]> T in
  ∃ l1 l2, without t l = l1 ++ l2 ∧
    insert_before_first (fun x => p <? priority (T1 x)) t (without t l) = l1 ++ t :: l2 ∧
    Forall (fun x => priority (T x) ≤ p) l1 ∧ Forall (fun x => p < priority (T x)) l2.
Proof.
  intros Hs T1. apply (StronglySorted_filter' _ (fun y => y ≠ t)) in Hs. fold (without t l) in Hs.
  destruct (insert_before_first_split (fun x => p <? priority (T1 x)) t (without t l)) as (l1 & l2 & E & -> & Hf & Hh).
  assert (HT : ∀ x, x ∈ without t l → T1 x = T x) by (intros x [_ Hx]%elem_of_without; by apply fn_lookup_insert_ne).
  rewrite E in HT, Hs. exists l1, l2. split_and!; [done|done| |].
  - rewrite Forall_forall in Hf |- *. intros x Hx. specialize (Hf x Hx). rewrite HT in Hf by set_solver. lia.
  - destruct l2 as [|x l2]; [constructor|]. specialize (Hh x l2 eq_refl). rewrite HT in Hh by set_solver.
    apply StronglySorted_app' in Hs as (_ & Hs & _). apply StronglySorted_inv in Hs as [_ Hs].
    constructor; [lia|]. eapply Forall_impl; [exact Hs|]. simpl. lia.
Qed.

(** The queues afterwards: a runnable task is the first or, without [m], the
    last of its new priority, a task in a queue in priority order stands behind
    those of its priority, and the others keep their order everywhere. *)
Definition moved_by_priority g s t (p : Z) (m : bool) s' : Prop :=
  (g t = Runnable → ∀ q, wq s' q =
    if decide (q = RDQ p) then (if m then t :: without t (wq s q) else without t (wq s q) ++ [t]) else without t (wq s q)) ∧
  (g t ≠ Runnable → ∀ q, sorted_queue g s t = Some q → ∃ l1 l2, without t (wq s q) = l1 ++ l2 ∧ wq s' q = l1 ++ t :: l2 ∧
    Forall (fun x => priority (tcb_table s x) ≤ p) l1 ∧ Forall (fun x => p < priority (tcb_table s x)) l2) ∧
  (g t ≠ Runnable → ∀ q, sorted_queue g s t ≠ Some q → wq s' q = wq s q).

Lemma change_priority_moves g s t p m b s' :
  KInv g s → settled_st (g t) = true → g t ≠ Dormant → 0 ≤ p < 16 →
  change_priority t p m s = RET b s' →
  moved_by_priority g s t p m s' ∧ b = negb (bool_decide (p_schedtsk s' = p_schedtsk s)) && dspflg s.
Proof.
  intros HK Hset Hd Hp E. destruct (decide (g t = Runnable)) as [Hg|Hg].
  - assert (Hin : t ∈ wq s (RDQ (priority (tcb_table s t)))) by (apply (k_wq _ _ HK); unfold place; by rewrite Hg).
    destruct (change_priority_ready_eq s t p m) as (c' & _ & E'); [apply HK| |exact Hin|exact Hp|].
    { rewrite (k_tstat _ _ HK), enc_runnable by apply HK. rewrite bool_decide_true; [done|by left]. }
    rewrite E' in E. injection E as <- <-. split; [|done]. split; [|by split].
    intros _ q. simpl. case_decide as Hq; [subst; apply requeue_same|by apply requeue_other].
  - unfold moved_by_priority. destruct (sorted_queue g s t) as [q|] eqn:Hs.
    + apply sorted_queue_some in Hs as (w & susp & tmr & Hgt & Hq & Hb).
      erewrite change_priority_tpri_eq in E by done. injection E as <- <-. split; [|by simpl; rewrite bool_decide_true].
      split; [done|]. simpl. split; intros _ q' Hq'.
      * injection Hq' as <-. unfold Fam.queue_insert_sorted. rewrite fn_lookup_insert.
        apply place_in_sorted. by apply (k_sorted _ _ HK).
      * unfold Fam.queue_insert_sorted. rewrite fn_lookup_insert_ne by congruence. apply queue_delete_other.
        intros Hx%(k_wq _ _ HK). unfold place in Hx. rewrite Hgt in Hx. congruence.
    + pose proof (sorted_queue_none g s t HK Hs) as Hno. rewrite (change_priority_stay_eq g s t p m HK Hset Hd Hg Hno) in E.
      injection E as <- <-. split; [by split_and!|]. simpl. by rewrite bool_decide_true.
Qed.
End priority.
