(* ===== verification/Service.v ===== *)
(** * Service calls

    The invariant of the whole kernel, what a service call may rely on when it
    gives the processor away and what it guarantees, and the rules by which
    the service calls are proved.

    [OInv] is the invariant of the objects; the components see it through the
    classes [Objects] (it does not depend on tasks, only on who is in the wait
    queues) and [Component] (one component's part of it can be taken out and
    put back). *)

From S2P Require Import Prelude Queue Data Kmonad TimeEvent Task Wait Core Release.
Open Scope Z_scope.

Class Objects `{Config} (OInv : State → Prop) := {
  objs_tframe : ∀ s s', OInv s → tframe (fun _ => False) s s' → OInv s';
  objs_ctx : ∀ s c v, OInv s → OInv (s <| cpu := c |> <| var := v |>);
  objs_clock : ∀ s s', OInv s → s' = s <| tm := tm s' |> →
    (∀ b, evt (tm s') b = evt (tm s) b) → tm_tmevtb (tm s') = tm_tmevtb (tm s) → OInv s' }.

(** [own] are the wait queues of the component, [only] relates the objects
    before and after one of its operations. *)
Class Component `{Config} (OInv : State → Prop) (inv : State → Prop)
    (own : qid → Prop) (only : OBJ → OBJ → Prop) := {
  comp_get : ∀ s, OInv s → inv s;
  comp_put : ∀ s s', OInv s → frame own only s s' → inv s' → OInv s' }.

(** The same for a component that changes the timers [ownt] of its handlers,
    and for the one that changes the attributes and priorities of tasks. *)
Class TimerComponent `{Config} (OInv : State → Prop) (inv : State → Prop)
    (ownt : tmid → Prop) (only : OBJ → OBJ → Prop) := {
  tcomp_get : ∀ s, OInv s → inv s;
  tcomp_put : ∀ s s', OInv s → gframe same_static ownt (fun _ => False) only s s' → inv s' → OInv s' }.

Definition any_static (s s' : State) : Prop := True.
Class TaskComponent `{Config} (OInv : State → Prop) (inv : State → Prop)
    (own : qid → Prop) (only : OBJ → OBJ → Prop) := {
  kcomp_get : ∀ s, OInv s → inv s;
  kcomp_put : ∀ s s', OInv s → gframe any_static no_timer own only s s' → inv s' → OInv s' }.

Section service.
Context {cfg : Config} (OInv : State → Prop) `{!Objects OInv}.
Implicit Types (s : State) (g : nat → tst) (t w : nat) (q : qid).

(** ** The invariant *)

(** Outside interrupts a task runs. *)
Definition ctx_ok g s : Prop :=
  sense_context s = false → ∃ t, p_runtsk s = Some t ∧ g t = Runnable.

(** No dispatch is missed: when dispatching is enabled the task that should
    run runs, or the exit of the interrupt handler is asked to dispatch. *)
Definition disp_ok s : Prop :=
  dspflg s = true → p_schedtsk s = p_runtsk s ∨ (sense_context s = true ∧ reqflg s = true).

Record Inv g s : Prop := {
  i_k : KInv g s;
  i_settled : settled g;
  i_obj : OInv s;
  i_ctx : ctx_ok g s;
  i_disp : disp_ok s }.

Definition OK s : Prop := ∃ g, Inv g s.

(** The invariant inside a service call, where a dispatch may be due. *)
Record Mid g s : Prop := {
  m_k : KInv g s;
  m_settled : settled g;
  m_obj : OInv s }.

(** The invariant when the running task may have stopped to be runnable. *)
Definition Yield s : Prop := ∃ g, Mid g s.

(** In a service call of task [t], CPU locked. *)
Definition in_task t s : Prop :=
  sense_context s = false ∧ sense_lock s = true ∧ p_runtsk s = Some t.
(** In a service call from an interrupt handler, CPU locked. *)
Definition in_int s : Prop := sense_context s = true ∧ sense_lock s = true.

(** ** Rely and guarantee *)

(** The wait a task had begun is over: its WINFO holds the error code. *)
Definition resumed s s' : Prop :=
  ∀ t w, p_runtsk s = Some t → TSTAT_WAITING (tstat (tcb_table s t)) = true →
    p_winfo (tcb_table s t) = Some w → ∃ ercd, winfo (winfos s' w) = WERCD ercd.

Definition guar (e : event) s : Prop :=
  match e with
  | Dispatch => Yield s ∧ dspflg s = true ∧ ∃ t, in_task t s
  | ExitAndDispatch => Yield s ∧ sense_context s = false ∧ sense_lock s = true
  | Window => OK s ∧ sense_context s = true ∧ sense_lock s = false
  | CallTex _ _ _ => OK s ∧ sense_context s = false ∧ sense_lock s = false
  | CallCyc _ _ | CallAlm _ _ | CallIsr _ _ =>
      OK s ∧ sense_context s = true ∧ sense_lock s = false
  | _ => True
  end.

(** What the time events keep while other code runs: only [signal_time]
    advances the clock. *)
Definition same_time s s' : Prop :=
  tm_min_time (tm s') = tm_min_time (tm s) ∧ tm_current_time (tm s') = tm_current_time (tm s) ∧
  tm_next_time (tm s') = tm_next_time (tm s) ∧ tm_next_subtime (tm s') = tm_next_subtime (tm s).

Lemma same_time_refl s : same_time s s.
Proof. by split_and!. Qed.
Lemma same_time_trans s1 s2 s3 : same_time s1 s2 → same_time s2 s3 → same_time s1 s3.
Proof. intros (?&?&?&?) (?&?&?&?). unfold same_time. split_and!; congruence. Qed.

Definition rely (e : event) s s' : Prop :=
  match e with
  | Dispatch =>
      OK s' ∧ (∀ t, in_task t s → in_task t s') ∧ dspflg s' = true ∧ resumed s s'
  | Window => OK s' ∧ sense_context s' = true ∧ same_time s s'
  | CallTex _ _ _ => OK s' ∧ sense_context s' = false ∧ p_runtsk s' = p_runtsk s
  | CallCyc _ _ | CallAlm _ _ | CallIsr _ _ => OK s' ∧ sense_context s' = true ∧ same_time s s'
  | _ => False
  end.

Notation WP := (wp rely guar).

(** The calling context is the one the call began with. *)
Definition same_ctx s s' : Prop :=
  sense_context s' = sense_context s ∧ sense_lock s' = sense_lock s ∧
  (sense_context s = false → p_runtsk s' = p_runtsk s).

Lemma same_ctx_refl s : same_ctx s s.
Proof. by split_and!. Qed.

(** ** Rules *)

Lemma wp_RET {A B} (Q : B → State → Prop) (m : K A) (f : A → K B) s a s' :
  m s = RET a s' → WP Q (f a s') → WP Q (bind m f s).
Proof. intros Hm Hf. by rewrite (bind_RET _ _ _ _ _ Hm). Qed.

Lemma KInv_ctx g s c v : KInv g s → KInv g (s <| cpu := c |> <| var := v |>).
Proof. intros [H1 H2 H3 H4 H5 H6 H7 H8 H9 H10]. split; try done. intros. by destruct (H4 _ _ _ _ _ H). Qed.

Lemma upd_var_ctx f s : upd_var f s = s <| cpu := cpu s |> <| var := f (var s) |>.
Proof. by destruct s. Qed.
Lemma upd_cpu_ctx f s : upd_cpu f s = s <| cpu := f (cpu s) |> <| var := var s |>.
Proof. by destruct s. Qed.

(** Taking and releasing the CPU lock. *)
Definition with_lock (b : bool) s : State := upd_cpu (fun c => c <| c_lock := b |>) s.

Lemma with_lock_ctx b s : with_lock b s = s <| cpu := (cpu s) <| c_lock := b |> |> <| var := var s |>.
Proof. by destruct s. Qed.

Lemma Inv_lock g s b : Inv g s → Inv g (with_lock b s).
Proof.
  intros [H1 H2 H3 H4 H5]. split; try done.
  - rewrite with_lock_ctx. by apply KInv_ctx.
  - rewrite with_lock_ctx. by apply objs_ctx.
Qed.

Lemma OK_cpu s f : OK s → c_sense_context (f (cpu s)) = c_sense_context (cpu s) → OK (upd_cpu f s).
Proof.
  intros [g [H1 H2 H3 H4 H5]] Hf. exists g. rewrite upd_cpu_ctx. split.
  - by apply KInv_ctx.
  - done.
  - by apply objs_ctx.
  - unfold ctx_ok, sense_context in *. simpl. by rewrite Hf.
  - unfold disp_ok, sense_context in *. simpl. by rewrite Hf.
Qed.

Lemma OK_lock s b : OK s → OK (with_lock b s).
Proof. intros [g Hg]. exists g. by apply Inv_lock. Qed.

Section calls.
Context {A : Type}.

(** The frame of a service call in task context: everything between the locks
    must end in task context with the lock taken. *)
Lemma call_task_ok s (body : K A) (Q : A → State → Prop) :
  OK s → sense_context s = false → sense_lock s = false →
  (∀ g t s1, Inv g s1 → in_task t s1 → g t = Runnable → s1 = with_lock true s →
     WP (fun a s' => OK s' ∧ in_task t s' ∧ (OK (with_lock false s') → Q a (with_lock false s'))) (body s1)) →
  WP (fun a s' => (OK s' ∧ same_ctx s s') ∧ Q a s')
    ((lock_cpu ;;; a <- body ;; unlock_cpu ;;; ret a) s).
Proof.
  intros [g HI] Hc Hl Hbody. destruct (i_ctx _ _ HI Hc) as (t & Hrun & Ht).
  unfold bind at 1; simpl. apply wp_bind.
  eapply wp_mono; [eapply (Hbody g t); [by apply Inv_lock|by split_and!|done|done]|].
  intros a s' (HOK & (H1 & H2 & H3) & HQ). cbn. change (upd_cpu _ s') with (with_lock false s').
  pose proof (OK_lock _ false HOK) as HOK'. split; [|by apply HQ]. split; [done|].
  split_and!; [by rewrite Hc|done|intros _; by rewrite Hrun].
Qed.

Lemma call_int_ok s (body : K A) (Q : A → State → Prop) :
  OK s → sense_context s = true → sense_lock s = false →
  (∀ g s1, Inv g s1 → in_int s1 → s1 = with_lock true s →
     WP (fun a s' => OK s' ∧ in_int s' ∧ (OK (with_lock false s') → Q a (with_lock false s'))) (body s1)) →
  WP (fun a s' => (OK s' ∧ same_ctx s s') ∧ Q a s')
    ((lock_cpu ;;; a <- body ;; unlock_cpu ;;; ret a) s).
Proof.
  intros [g HI] Hc Hl Hbody.
  unfold bind at 1; simpl. apply wp_bind.
  eapply wp_mono; [eapply (Hbody g); [by apply Inv_lock|by split_and!|done]|].
  intros a s' (HOK & (H1 & H2) & HQ). cbn. change (upd_cpu _ s') with (with_lock false s').
  pose proof (OK_lock _ false HOK) as HOK'. split; [|by apply HQ]. split; [done|].
  split_and!; [by rewrite Hc|done|congruence].
Qed.
End calls.

(** The end of a call that may have made a task runnable. *)
Lemma Inv_no_dispatch g g' s s' t :
  Inv g s → in_task t s → g t = Runnable → Mid g' s' → g' t = Runnable → var s' = var s → cpu s' = cpu s →
  (dspflg s = true → p_schedtsk s' = p_schedtsk s) → Inv g' s'.
Proof.
  intros HI (Hc & Hl & Hr) Ht [HK Hset HO] Ht' Hv Hcpu Hs. split; try done.
  - intros _. exists t. by rewrite Hv.
  - intros Hd. left. rewrite Hv in *. rewrite Hs by done.
    destruct (i_disp _ _ HI Hd) as [|[Hx _]]; [done|congruence].
Qed.

Lemma in_task_same t s s' : in_task t s → var s' = var s → cpu s' = cpu s → in_task t s'.
Proof. unfold in_task, sense_context, sense_lock. by intros H -> ->. Qed.
Lemma in_int_same s s' : in_int s → cpu s' = cpu s → in_int s'.
Proof. unfold in_int, sense_context, sense_lock. by intros H ->. Qed.

Lemma dispatch_ok s t (Q : () → State → Prop) :
  Yield s → in_task t s → dspflg s = true →
  (∀ s', OK s' → in_task t s' → dspflg s' = true → resumed s s' → Q () s') →
  WP Q (dispatch s).
Proof.
  intros HY Hin Hd HQ. apply wp_yield.
  - split; [done|]. split; [done|]. by exists t.
  - intros s' (HOK & Hin' & Hd' & Hres). apply HQ; auto.
Qed.

(** [if (dspreq) dispatch();] *)
Lemma dispatch_if_ok (b : bool) g g' s s' t (Q : () → State → Prop) :
  Inv g s → in_task t s → g t = Runnable → Mid g' s' →
  g' t = Runnable → var s' = var s → cpu s' = cpu s → woke b s s' →
  (∀ s'', OK s'' → in_task t s'' → Q () s'') →
  WP Q ((if b then dispatch else ret ()) s').
Proof.
  intros HI Hin Ht HM Ht' Hv Hcpu [W1 W2] HQ.
  pose proof (in_task_same _ _ _ Hin Hv Hcpu) as Hin'. destruct b.
  - eapply (dispatch_ok s' t); [by exists g'|done|rewrite Hv; auto|]. intros s'' H1 H2 _ _. by apply HQ.
  - apply HQ; [|done]. exists g'. eapply (Inv_no_dispatch g g' s s' t); try done. auto.
Qed.

(** [if (dspreq) reqflg = true;] *)
Lemma reqflg_if_ok (b : bool) g g' s s' (Q : () → State → Prop) :
  Inv g s → in_int s → Mid g' s' → var s' = var s → cpu s' = cpu s → woke b s s' → (∀ s'', OK s'' → in_int s'' → Q () s'') →
  WP Q ((if b then set_reqflg true else ret ()) s').
Proof.
  intros HI Hin [HK Hset HO] Hv Hcpu [W1 W2] HQ.
  pose proof (in_int_same _ _ Hin Hcpu) as Hin'. pose proof Hin' as [Hc Hl]. destruct b; simpl.
  - apply HQ; [|done]. exists g'. split; try done.
    + rewrite upd_var_ctx. by apply KInv_ctx.
    + rewrite upd_var_ctx. by apply objs_ctx.
    + intros Hx. unfold sense_context in *. simpl in Hx. congruence.
    + intros _. by right.
  - apply HQ; [|done]. exists g'. split; try done.
    + intros Hx. congruence.
    + intros Hd. rewrite Hv in *. rewrite W2 by done.
      destruct (i_disp _ _ HI Hd) as [|[_ Hr]]; [by left|right]. done.
Qed.

(** Requests made one by one in a loop: [h] is what the loop does each time a
    task is made runnable, nothing or [reqflg = true]. *)
Definition req_var (h : State → State) : Prop :=
  h = (fun s => s) ∨ h = upd_var (fun v => v <| v_reqflg := true |>).
Definition after (h : State → State) (d : bool) s : State := if d then h s else s.

Lemma req_var_same h s : req_var h →
  tcb_table (h s) = tcb_table s ∧ wq (h s) = wq s ∧ winfos (h s) = winfos s ∧ obj (h s) = obj s ∧
  sch (h s) = sch s ∧ dspflg (h s) = dspflg s ∧ cpu (h s) = cpu s ∧ p_runtsk (h s) = p_runtsk s.
Proof. by intros [->| ->]. Qed.

Lemma req_var_KInv h g s : req_var h → KInv g s → KInv g (h s).
Proof. intros [->| ->]; [done|]. rewrite upd_var_ctx. apply KInv_ctx. Qed.

Lemma req_var_OInv h s : req_var h → OInv s → OInv (h s).
Proof. intros [->| ->]; [done|]. rewrite upd_var_ctx. apply objs_ctx. Qed.

Lemma req_var_frame h X P s s' : req_var h → frame X P s s' → frame X P (h s) (h s').
Proof. intros [->| ->]; [done|]. intros []. split; try done. simpl. congruence. Qed.

Lemma after_frame h X P d b s0 s s' :
  req_var h → frame X P (after h d s0) s → frame X any_obj s s' →
  frame X any_obj (after h (b || d) s0) (after h b s').
Proof.
  intros Hh F1 F2. assert (F3 := frame_any_trans _ _ _ _ _ _ F1 F2). destruct b; simpl; [|done].
  destruct d; simpl in *; [|by apply req_var_frame].
  replace (h s0) with (h (h s0)) by (by destruct Hh as [->| ->]). by apply req_var_frame.
Qed.

(** The end of a call from an interrupt handler. *)
Lemma Inv_int_end g g' s s' d :
  Inv g s → in_int s → KInv g' s' → settled g' → OInv s' → cpu s' = cpu s →
  var s' = var (after (upd_var (fun v => v <| v_reqflg := true |>)) d s) → woke d s s' → Inv g' s'.
Proof.
  intros HI [Hc Hl] HK Hset HO Hcpu Hv [W1 W2].
  assert (Hc' : sense_context s' = true) by (unfold sense_context in *; by rewrite Hcpu).
  split; try done; [congruence|]. destruct d; simpl in *.
  - intros _. right. by rewrite Hv.
  - intros Hd. rewrite Hv in *. rewrite W2 by done.
    destruct (i_disp _ _ HI Hd) as [|[_ Hr]]; [by left|by right].
Qed.

Lemma take_free_eq free f s i l :
  free (obj s) = i :: l →
  take_free free (fun h => upd (upd_obj (f h))) s = RET i (upd_obj (f (fun _ => l)) s).
Proof. intros Hl. unfold take_free, kget. by rewrite Hl. Qed.

(** An attribute that passed [CHECK_RSATR] is not the mark of a free block. *)
Lemma testbit_31 x : 0 ≤ x < 2^31 → Z.testbit x 31 = false.
Proof.
  intros Hx. destruct (decide (x = 0)) as [->|]; [done|].
  apply Z.bits_above_log2; [lia|]. apply Z.log2_lt_pow2; lia.
Qed.

Lemma rsatr_alloc atr valid m :
  bits atr (u32 (Z.lnot valid)) = false → 0 ≤ valid < 2^31 → 0 ≤ m < 2^31 → Z.lor atr m ≠ TA_NOEXS.
Proof.
  intros Hb Hv Hm Heq. unfold bits in Hb. apply negb_false_iff, Z.eqb_eq in Hb.
  assert (Hx : Z.testbit (Z.land atr (u32 (Z.lnot valid))) 31 = false) by (by rewrite Hb, Z.bits_0).
  rewrite Z.land_spec, u32_testbit, Z.lnot_spec, (testbit_31 valid), andb_true_r in Hx by lia.
  assert (Hy : Z.testbit (Z.lor atr m) 31 = false) by (rewrite Z.lor_spec, Hx; by apply testbit_31).
  rewrite Heq in Hy. done.
Qed.

Lemma rsatr_exists atr valid :
  bits atr (u32 (Z.lnot valid)) = false → 0 ≤ valid < 2^31 → atr ≠ TA_NOEXS.
Proof. intros Hb Hv. rewrite <- (Z.lor_0_r atr). by eapply rsatr_alloc. Qed.

(** A change of objects only. *)
Lemma KInv_obj g s f :
  KInv g s → (∀ q, is_wobjcb q = true → wobjatr (upd_obj f s) q = wobjatr s q ∨ wq s q = []) →
  KInv g (upd_obj f s).
Proof.
  intros [H1 H2 H3 H4 H5 H6 H7 H8 H9 H10] Ha. split; try done.
  - intros t w c susp tmr Hg. by destruct (H4 _ _ _ _ _ Hg).
  - intros q Hq Hb. destruct (Ha q Hq) as [He|He].
    + rewrite He in Hb. by apply H10.
    + change (wq (upd_obj f s)) with (wq s). rewrite He. constructor.
Qed.

Lemma Inv_Mid g s : Inv g s → Mid g s.
Proof. by intros [H1 H2 H3 H4 H5]. Qed.

Lemma Mid_obj g s f :
  Mid g s → (∀ q, is_wobjcb q = true → wobjatr (upd_obj f s) q = wobjatr s q ∨ wq s q = []) →
  OInv (upd_obj f s) → Mid g (upd_obj f s).
Proof. intros [H1 H2 H3] Ha HO. split; try done. by apply KInv_obj. Qed.

(** One component changes its control blocks. *)
Lemma comp_upd {inv own only} `{!Component OInv inv own only} g s F :
  Mid g s → only (obj s) (F (obj s)) →
  (∀ q, is_wobjcb q = true → wobjatr (upd_obj F s) q = wobjatr s q ∨ wq s q = []) →
  inv (upd_obj F s) → Mid g (upd_obj F s).
Proof.
  intros HM HF Ha Hinv. apply Mid_obj; [done..|]. eapply comp_put; [apply HM| |done].
  apply frame_obj; [apply frame_refl|done].
Qed.

(** The control blocks of another component, when only the tasks moved. *)
Lemma Mid_comp {inv own only} `{!Component OInv inv own only} g s : Mid g s → inv s.
Proof. intros HM. eapply comp_get, HM. Qed.
Lemma Inv_comp {inv own only} `{!Component OInv inv own only} g s : Inv g s → inv s.
Proof. intros HM. eapply comp_get, HM. Qed.

Lemma Inv_of g s s' :
  Inv g s → Mid g s' → var s' = var s → cpu s' = cpu s → sch s' = sch s → Inv g s'.
Proof.
  intros [H1 H2 H3 H4 H5] [M1 M2 M3] E1 E2 E3. split; try done.
  - unfold ctx_ok, sense_context. by rewrite E1, E2.
  - unfold disp_ok, sense_context. by rewrite E1, E2, E3.
Qed.

(** *** Going to sleep

    [sleepy]: the running task is about to wait with the WINFO of frame [w]. *)
Record sleepy g s t w : Prop := {
  sl_inv : Inv g s; sl_task : in_task t s; sl_run : g t = Runnable; sl_dsp : dspflg s = true;
  sl_frame : (w < next_frame s)%nat; sl_fresh : ∀ t', frame_of (g t') ≠ Some w }.

(** A change of a WINFO no task waits with. *)
Lemma fresh_winfo g s w f n :
  Inv g s → (∀ t, frame_of (g t) ≠ Some w) → (next_frame s ≤ n)%nat →
  let s' := upd_winfo w f (s <| next_frame := n |>) in Inv g s' ∧ tframe (fun _ => False) s s'.
Proof.
  intros [H1 H2 H3 H4 H5] Hfresh Hn s'.
  assert (HF : tframe (fun _ => False) s s').
  { split; try done. intros q t Hq Ht _. split_and!; [done..|]. intros w' Hw. simpl.
    apply fn_lookup_insert_ne. intros <-. destruct (wq_waiting _ _ _ _ H1 Hq Ht) as (w' & ? & ? & Hg).
    pose proof (wait_winfo _ _ _ _ _ (k_wait _ _ H1 _ _ _ _ _ Hg)). apply (Hfresh t). rewrite Hg. simpl. congruence. }
  split; [|done]. split; try done; [|by eapply objs_tframe].
  destruct H1 as [K1 K2 K3 K4 K5 K6 K7 K8 K9 K10]. split; try done.
  intros t w' c susp tmr Hg. destruct (K4 _ _ _ _ _ Hg) as [L1 L2 L3 L4 L5 L6].
  assert (Hw : winfos s' w' = winfos s w').
  { apply fn_lookup_insert_ne. intros <-. apply (Hfresh t). by rewrite Hg. }
  split; rewrite ?Hw; try done. simpl. lia.
Qed.

Lemma new_winfo_ok g s t :
  Inv g s → in_task t s → g t = Runnable → dspflg s = true →
  ∃ s' w, new_winfo s = RET w s' ∧ sleepy g s' t w ∧ tframe (fun _ => False) s s' ∧
    wq s' = wq s ∧ tcb_table s' = tcb_table s ∧ winfos s' w = winfo_init.
Proof.
  intros HI Hin Hg Hd. pose proof (fresh_frame _ _ (i_k _ _ HI)) as Hfresh.
  destruct (fresh_winfo g s (next_frame s) (fun _ => winfo_init) (S (next_frame s)) HI Hfresh) as [HI' HF]; [lia|].
  eexists _, _. split; [reflexivity|]. split_and!; try done; [|by apply fn_lookup_insert].
  split; try done. simpl. lia.
Qed.

Lemma fill_winfo_ok g s t w f :
  sleepy g s t w → let s' := upd_winfo w f s in sleepy g s' t w ∧ tframe (fun _ => False) s s'.
Proof.
  intros [H1 H2 H3 H4 H5 H6].
  destruct (fresh_winfo g s w f (next_frame s) H1 H6) as [HI HF]; [lia|].
  split; [|done]. by split.
Qed.

(** The rest of a call that has put the running task to sleep. *)
Lemma sleep_ok {A} g s t w c g' s' (k : K A) Q :
  sleepy g s t w → blocked g s t w c g' s' → settled_st (Waiting w c false NoTimer) = true → OInv s' →
  (∀ s'', OK s'' → in_task t s'' → (∃ ercd, winfo (winfos s'' w) = WERCD ercd) → WP Q (k s'')) →
  WP Q ((dispatch ;;; k) s').
Proof.
  intros [HI Hin Ht Hd _ _] [B1 (tmr & B2 & B3) B4 B5 B6 _ _ B7] Hc HO HQ. apply wp_bind.
  assert (Hin' : in_task t s') by (eapply in_task_same; [done|apply B4|apply B4]).
  eapply (dispatch_ok s' t); [|done|by rewrite (fr_var _ _ _ _ B4)|].
  - exists g'. split; [done| |done]. intros t'. rewrite B3.
    destruct (decide (t' = t)) as [->|Hne]; [rewrite fn_lookup_insert|by rewrite fn_lookup_insert_ne; [apply HI|]].
    destruct c; try done; by destruct tmr.
  - intros s'' HOK Hin'' _ Hres. apply HQ; [done..|]. apply (Hres t w); [apply Hin'| |done].
    rewrite (k_tstat _ _ B1), enc_waiting by apply B1. by rewrite B3, fn_lookup_insert.
Qed.

Section wobj.
Context {A : Type} (g : nat → tst) (s : State) (t w : nat) (q : qid) (k : K A) (Q : A → State → Prop).
Context (Hsl : sleepy g s t w).
Context (HO : ∀ g' s', blocked g s t w (WOBJ q) g' s' → OInv s').
Context (HQ : ∀ s', OK s' → in_task t s' → (∃ ercd, winfo (winfos s' w) = WERCD ercd) → WP Q (k s')).
Notation run := (p_runtsk s).

Lemma queue_code_enc : is_ready_queue q = false →
  Z.lor TS_WAITING (queue_code q) = enc (Waiting w (WOBJ q) false NoTimer).
Proof. by destruct q. Qed.

Lemma wobj_sleep_ok :
  is_wobjcb q = true →
  WP Q ((get s0;; the t := p_runtsk s0 ;;
    set_tstat t (Z.lor TS_WAITING (queue_code q)) ;;; wobj_make_wait q w ;;; dispatch ;;; k) s).
Proof.
  intros Hq. destruct Hsl as [HI Hin Ht Hd Hw Hfree]. pose proof Hin as (_ & _ & Hrun).
  unfold kget, deref. rewrite Hrun.
  destruct (wobj_make_wait_ok g s t w (i_k _ _ HI) Ht Hrun Hw Hfree q Hq) as (s2 & g' & E2 & Hb).
  rewrite queue_code_enc by (by destruct q).
  rewrite (bind2_RET _ _ _ _ _ _ E2). eapply sleep_ok; [done|done|done|by eapply HO|done].
Qed.

Lemma wobj_sleep_tmout_ok tmout :
  is_wobjcb q = true → -1 ≤ tmout ≤ TMAX_RELTIM → tmout ≠ 0 →
  WP Q ((get s0;; the t := p_runtsk s0 ;;
    set_tstat t (Z.lor TS_WAITING (queue_code q)) ;;; wobj_make_wait_tmout q w tmout ;;; dispatch ;;; k) s).
Proof.
  intros Hq Hto Hpol. destruct Hsl as [HI Hin Ht Hd Hw Hfree]. pose proof Hin as (_ & _ & Hrun).
  unfold kget, deref. rewrite Hrun.
  destruct (wobj_make_wait_tmout_ok g s t w (i_k _ _ HI) Ht Hrun Hw Hfree q tmout Hq Hto Hpol) as (s2 & g' & E2 & Hb).
  rewrite queue_code_enc by (by destruct q).
  rewrite (bind2_RET _ _ _ _ _ _ E2). eapply sleep_ok; [done|done|done|by eapply HO|done].
Qed.

Lemma rcv_sleep_ok :
  is_ready_queue q = false → is_wobjcb q = false →
  WP Q ((get s0;; the t := p_runtsk s0 ;;
    set_tstat t (Z.lor TS_WAITING (queue_code q)) ;;; make_wait w ;;;
    (get s0;; the t := p_runtsk s0 ;; queue_insert_prev q t) ;;; set_wobjcb w (wobj_of q) ;;; dispatch ;;; k) s).
Proof.
  intros Hr Hq. destruct Hsl as [HI Hin Ht Hd Hw Hfree]. pose proof Hin as (_ & _ & Hrun).
  unfold kget at 1, deref at 1. rewrite Hrun.
  destruct (rcv_make_wait_ok g s t w (i_k _ _ HI) Ht Hrun Hw Hfree q Hr Hq) as (s2 & g' & E2 & Hb).
  rewrite queue_code_enc by done.
  rewrite (seq4_RET _ _ _ _ _ _ _ E2). eapply sleep_ok; [done|done|done|by eapply HO|done].
Qed.

Lemma rcv_sleep_tmout_ok tmout :
  is_ready_queue q = false → is_wobjcb q = false → -1 ≤ tmout ≤ TMAX_RELTIM → tmout ≠ 0 →
  WP Q ((get s0;; the t := p_runtsk s0 ;;
    set_tstat t (Z.lor TS_WAITING (queue_code q)) ;;; make_wait_tmout w tmout ;;;
    (get s0;; the t := p_runtsk s0 ;; queue_insert_prev q t) ;;; set_wobjcb w (wobj_of q) ;;; dispatch ;;; k) s).
Proof.
  intros Hr Hq Hto Hpol. destruct Hsl as [HI Hin Ht Hd Hw Hfree]. pose proof Hin as (_ & _ & Hrun).
  unfold kget at 1, deref at 1. rewrite Hrun.
  destruct (rcv_make_wait_tmout_ok g s t w (i_k _ _ HI) Ht Hrun Hw Hfree q tmout Hr Hq Hto Hpol) as (s2 & g' & E2 & Hb).
  rewrite queue_code_enc by done.
  rewrite (seq4_RET _ _ _ _ _ _ _ E2). eapply sleep_ok; [done|done|done|by eapply HO|done].
Qed.
End wobj.

(** From the call to the wait. *)
Lemma blocked_frame g s1 s t w q g' s' :
  tframe (fun _ => False) s1 s → blocked g s t w (WOBJ q) g' s' → tframe (fun q' => q' = q) s1 s'.
Proof.
  intros HF Hb. eapply tframe_trans; [by eapply frame_weaken; [| |exact HF]|].
  eapply frame_weaken; [| |apply Hb]; [|done]. by intros q' [= ->].
Qed.

(** A call that only returns the error code of its wait. *)
Lemma get_wercd_ok w s (Q : Z → State → Prop) :
  (∃ ercd, winfo (winfos s w) = WERCD ercd) → (∀ ercd, Q ercd s) → WP Q (get_wercd w s).
Proof. intros [ercd He] HQ. unfold get_wercd, kget. rewrite He. apply HQ. Qed.

(** *** Service calls that only promise the invariant *)

Definition call_ok {A} (m : K A) : Prop :=
  ∀ s, OK s → WP (fun _ s' => OK s' ∧ same_ctx s s') (m s).

Lemma task_call_ok {A} s (body : K A) :
  OK s → sense_context s = false → sense_lock s = false →
  (∀ g t s1, Inv g s1 → in_task t s1 → g t = Runnable → dspflg s1 = dspflg s →
     WP (fun a s' => OK s' ∧ in_task t s') (body s1)) →
  WP (fun _ s' => OK s' ∧ same_ctx s s') ((lock_cpu ;;; a <- body ;; unlock_cpu ;;; ret a) s).
Proof.
  intros HOK Hc Hl Hb. eapply wp_mono; [eapply (call_task_ok s body (fun _ _ => True)); try done|].
  - intros g t s1 HI Hin Ht ->. eapply wp_mono; [by eapply Hb|]. naive_solver.
  - by intros a s' [H1 _].
Qed.

Lemma int_call_ok {A} s (body : K A) :
  OK s → sense_context s = true → sense_lock s = false →
  (∀ g s1, Inv g s1 → in_int s1 → WP (fun a s' => OK s' ∧ in_int s') (body s1)) →
  WP (fun _ s' => OK s' ∧ same_ctx s s') ((lock_cpu ;;; a <- body ;; unlock_cpu ;;; ret a) s).
Proof.
  intros HOK Hc Hl Hb. eapply wp_mono; [eapply (call_int_ok s body (fun _ _ => True)); try done|].
  - intros g s1 HI Hin ->. eapply wp_mono; [by eapply Hb|]. naive_solver.
  - by intros a s' [H1 _].
Qed.

(** A release seen from the caller: it is not the running task that is
    released. *)
Lemma released_ok g s t w susp c tmr ercd b s' :
  Inv g s → g t = Waiting w c susp tmr → released g s t w susp ercd b s' →
  Mid (<[t := after_wait susp]> g) s' ∧ var s' = var s ∧ cpu s' = cpu s ∧ woke b s s' ∧
  (∀ r, g r = Runnable → <[t := after_wait susp]> g r = Runnable).
Proof.
  intros HI Hg (R1 & R2 & R3 & R4 & R5). split_and!; try done; try apply R2.
  - split; [done|apply settled_after, HI|]. eapply objs_tframe; [apply HI|done].
  - intros r Hr. rewrite fn_lookup_insert_ne; [done|]. intros ->. congruence.
Qed.

(** *** Handing over to a waiting task

    It is taken off its queue, then the objects and the data in its WINFO may
    change, then its wait is completed. *)

Record touch w s s' : Prop := {
  to_tcb : tcb_table s' = tcb_table s; to_wq : wq s' = wq s; to_next : next_frame s' = next_frame s;
  to_sch : sch s' = sch s; to_var : var s' = var s; to_cpu : cpu s' = cpu s; to_tm : tm s' = tm s;
  to_winfos : ∀ w', w' ≠ w → winfos s' w' = winfos s w';
  to_winfo : winfo (winfos s' w) = winfo (winfos s w);
  to_wobjcb : p_wobjcb (winfos s' w) = p_wobjcb (winfos s w);
  to_atr : ∀ q, is_wobjcb q = true → wobjatr s' q = wobjatr s q ∨ wq s q = [] }.

Lemma touch_refl w s : touch w s s.
Proof. split; auto. Qed.

Lemma touch_upd_obj w F s s' :
  touch w s s' → (∀ q, is_wobjcb q = true → wobjatr (upd_obj F s') q = wobjatr s' q) →
  touch w s (upd_obj F s').
Proof. intros [] Ha. split; try done. intros q Hq. rewrite Ha; auto. Qed.

Lemma touch_upd_winfo w f s s' :
  touch w s s' → (∀ W, winfo (f W) = winfo W ∧ p_wobjcb (f W) = p_wobjcb W) →
  touch w s (upd_winfo w f s').
Proof.
  intros [] Hf. split; try done; simpl; rewrite ?fn_lookup_insert.
  - intros w' Hne. rewrite fn_lookup_insert_ne; auto.
  - destruct (Hf (winfos s' w)). congruence.
  - destruct (Hf (winfos s' w)). congruence.
Qed.

Lemma touch_KInv g s s' w : KInv g s → touch w s s' → KInv g s'.
Proof.
  intros [K1 K2 K3 K4 K5 K6 K7 K8 K9 K10] [T1 T2 T3 T4 T5 T6 T7 T8 T9 T10 T11].
  split; rewrite ?T1, ?T2, ?T3, ?T4, ?T5, ?T6, ?T7; try done.
  - intros t w' c susp tmr Hg. destruct (K4 _ _ _ _ _ Hg) as [L1 L2 L3 L4 L5 L6].
    split; rewrite ?T1, ?T3, ?T7; try done.
    + destruct (decide (w' = w)) as [->|Hne]; [by rewrite T9|by rewrite T8].
    + destruct (decide (w' = w)) as [->|Hne]; [by rewrite T10|by rewrite T8].
  - intros q Hq Hb. destruct (T11 q Hq) as [He|He].
    + apply K10; [done|]. by rewrite <- He.
    + rewrite He. constructor.
Qed.

(** The data of a task that waits in no queue. *)
Lemma touch_frame g s s' t w q susp tmr :
  KInv g s → g t = Waiting w (Detached q) susp tmr → touch w s s' →
  frame (fun _ => False) any_obj s s'.
Proof.
  intros HK Hg [T1 T2 T3 T4 T5 T6 T7 T8 T9 T10 T11].
  split; rewrite ?T1, ?T2, ?T5, ?T6, ?T7; try done; [|intros t'; by rewrite T1].
  intros q' t' Hq Ht _. split_and!; [done..|]. intros w' Hw'. apply T8. intros ->.
  destruct (wq_waiting _ _ _ _ HK Hq Ht) as (w' & ? & ? & Hg').
  pose proof (wait_winfo _ _ _ _ _ (k_wait _ _ HK _ _ _ _ _ Hg')) as Hx.
  assert (w' = w) as -> by congruence. assert (t' = t) as ->; [|congruence].
  apply (k_frames _ _ HK _ _ w); [by rewrite Hg'|by rewrite Hg].
Qed.

(** [t] has left [q] and was released with E_OK; [s2] is the state in which
    [wait_complete] was called. *)
Record woken g s t w susp s2 (b : bool) s' : Prop := {
  wk_inv : KInv (<[t := after_wait susp]> g) s';
  wk_settled : settled (<[t := after_wait susp]> g);
  wk_frame : frame (fun _ => False) (fun _ o' => o' = obj s2) s s';
  wk_woke : woke b s s';
  wk_winfos : winfos s' = winfos (upd_winfo w (fun W => W <| winfo := WERCD E_OK |>) s2);
  wk_tcb : ∀ t', t' ≠ t → tcb_table s' t' = tcb_table s t';
  wk_queue : ∀ q', is_ready_queue q' = false → wq s' q' = without t (wq s q');
  wk_run : ∀ r, g r = Runnable → <[t := after_wait susp]> g r = Runnable }.

Lemma wake_ok g s q t Q' :
  KInv g s → settled g → is_ready_queue q = false → t ∈ wq s q →
  (∀ q', Q' q' = Fam.queue_delete t (wq s) q') →
  ∃ w susp tmr, g t = Waiting w (WOBJ q) susp tmr ∧ p_winfo (tcb_table s t) = Some w ∧
    ∀ s2, touch w (upd_wq (fun _ => Q') s) s2 →
      ∃ b s', wait_complete t s2 = RET b s' ∧ woken g s t w susp s2 b s'.
Proof.
  intros HK Hset Hq Ht HQ. destruct (wq_waiting g s q t HK Hq Ht) as (w & susp & tmr & Hg).
  exists w, susp, tmr. split; [done|]. split; [eapply wait_winfo, HK, Hg|]. intros s2 Hto.
  destruct (KInv_leave_wobj g s t w q susp tmr Q' HK Hg HQ) as [HK1 F1].
  pose proof (touch_KInv _ _ _ _ HK1 Hto) as HK2.
  assert (F2 := touch_frame _ _ _ t w q susp tmr HK1 ltac:(apply fn_lookup_insert) Hto).
  destruct (wait_complete_ok _ s2 t w (Detached q) susp tmr HK2)
    as (b & s' & E & R1 & R2 & R3 & R4 & R5 & R6);
    [apply fn_lookup_insert|done|by eapply settled_timer|].
  exists b, s'. split; [done|]. split.
  - by eapply KInv_twice.
  - by apply settled_after.
  - eapply frame_only; [|by rewrite <- (fr_obj _ _ _ _ R2)].
    eapply frame_any_trans; [exact F1|]. by eapply frame_any_trans.
  - destruct R3 as [R3 R7]. split.
    + rewrite <- (to_var _ _ _ Hto : var s2 = var s) at 1. done.
    + intros Hb Hd. rewrite R7; [by rewrite (to_sch _ _ _ Hto)|done|by rewrite (to_var _ _ _ Hto)].
  - done.
  - intros t' Hne. rewrite R5 by done. by rewrite (to_tcb _ _ _ Hto).
  - intros q' Hq'. rewrite R6 by done. rewrite (to_wq _ _ _ Hto). simpl. rewrite HQ.
    unfold Fam.queue_delete. apply without_twice.
  - intros r Hr. rewrite fn_lookup_insert_ne; [done|]. intros ->. congruence.
Qed.

(** The head of a queue. *)
Lemma wake_head_with g s q t l :
  KInv g s → settled g → is_ready_queue q = false → wq s q = t :: l →
  ∃ s1 w susp tmr, queue_delete_next q s = RET t s1 ∧ s1 = upd_wq (fun _ => <[q := l]> (wq s)) s ∧
    g t = Waiting w (WOBJ q) susp tmr ∧ p_winfo (tcb_table s t) = Some w ∧
    ∀ s2, touch w s1 s2 → ∃ b s', wait_complete t s2 = RET b s' ∧ woken g s t w susp s2 b s'.
Proof.
  intros HK Hset Hq Hl. destruct (wake_ok g s q t (<[q := l]> (wq s)) HK Hset Hq) as (w & susp & tmr & H1 & H2 & H3).
  { rewrite Hl. left. } { intros q'. by apply (queue_delete_head g). }
  eexists _, w, susp, tmr. split; [|done]. unfold queue_delete_next, Fam.queue_delete_next. by rewrite Hl.
Qed.

(** A step from a locked call: a dispatch is due if [b]. *)
Definition progress g s (b : bool) s' : Prop :=
  ∃ g', Mid g' s' ∧ var s' = var s ∧ cpu s' = cpu s ∧ woke b s s' ∧
    ∀ r, g r = Runnable → g' r = Runnable.

Lemma progress_dispatch (b : bool) g s s' t (Q : () → State → Prop) :
  Inv g s → in_task t s → g t = Runnable → progress g s b s' →
  (∀ s'', OK s'' → in_task t s'' → Q () s'') → WP Q ((if b then dispatch else ret ()) s').
Proof. intros HI Hin Ht (g' & HM & Hv & Hc & Hw & Hr) HQ. eapply dispatch_if_ok; eauto. Qed.

Lemma progress_reqflg (b : bool) g s s' (Q : () → State → Prop) :
  Inv g s → in_int s → progress g s b s' →
  (∀ s'', OK s'' → in_int s'' → Q () s'') → WP Q ((if b then set_reqflg true else ret ()) s').
Proof. intros HI Hin (g' & HM & Hv & Hc & Hw & Hr) HQ. eapply reqflg_if_ok; eauto. Qed.

(** The end of a call that made progress. *)
Lemma progress_ret_task {A} g s t b s' (a : A) :
  Inv g s → in_task t s → g t = Runnable → progress g s b s' →
  WP (fun _ s' => OK s' ∧ in_task t s') (((if b then dispatch else ret ()) ;;; ret a) s').
Proof. intros HI Hin Ht Hp. apply wp_bind. eapply progress_dispatch; [done..|]. intros s3 H3 H4. by split. Qed.

Lemma progress_ret_int {A} g s b s' (a : A) :
  Inv g s → in_int s → progress g s b s' →
  WP (fun _ s' => OK s' ∧ in_int s') (((if b then set_reqflg true else ret ()) ;;; ret a) s').
Proof. intros HI Hin Hp. apply wp_bind. eapply progress_reqflg; [done..|]. intros s3 H3 H4. by split. Qed.

Lemma progress_none g s s' : Mid g s' → var s' = var s → cpu s' = cpu s → sch s' = sch s → progress g s false s'.
Proof. intros HM Hv Hc Hs. exists g. split_and!; try done. split; [done|]. intros _ _. by rewrite Hs. Qed.

Lemma woken_progress g s t w susp s2 b s' :
  woken g s t w susp s2 b s' → OInv s' → progress g s b s'.
Proof.
  intros [W1 W2 W3 W4 W5 W6 W7 W8] HO. exists (<[t := after_wait susp]> g).
  split_and!; try done; apply W3.
Qed.

Lemma wake_head_ok g s q t l :
  Inv g s → is_ready_queue q = false → wq s q = t :: l →
  ∃ b s', (p <- queue_delete_next q ;; wait_complete p) s = RET b s' ∧ progress g s b s'.
Proof.
  intros HI Hq Hl.
  destruct (wake_head_with g s q t l (i_k _ _ HI) (i_settled _ _ HI) Hq Hl)
    as (s1 & w & susp & tmr & E1 & Hs1 & Hg & Hw & Hwk).
  destruct (Hwk s1 (touch_refl _ _)) as (b & s' & E & HW).
  exists b, s'. rewrite (bind_RET _ _ _ _ _ E1). split; [done|].
  eapply woken_progress; [done|]. eapply objs_tframe; [apply HI|]. eapply frame_only; [apply HW|].
  rewrite (fr_obj _ _ _ _ (wk_frame _ _ _ _ _ _ _ _ HW)). by subst s1.
Qed.

(** The same with something written into the WINFO of the task. *)
Lemma wake_touch_ok g s q t l :
  Inv g s → is_ready_queue q = false → wq s q = t :: l →
  ∃ w s1, queue_delete_next q s = RET t s1 ∧ p_winfo (tcb_table s1 t) = Some w ∧ p_winfo (tcb_table s t) = Some w ∧
    winfos s1 = winfos s ∧
    ∀ s2, touch w s1 s2 → obj s2 = obj s1 → ∃ b s', wait_complete t s2 = RET b s' ∧ progress g s b s' ∧
      winfos s' w = (winfos s2 w) <| winfo := WERCD E_OK |> ∧ wq s' q = l ∧ obj s' = obj s ∧
      ∀ q', is_ready_queue q' = false → q' ≠ q → wq s' q' = wq s q'.
Proof.
  intros HI Hq Hl. pose proof (i_k _ _ HI) as HK.
  destruct (wake_head_with g s q t l HK (i_settled _ _ HI) Hq Hl)
    as (s1 & w & susp & tmr & E1 & Hs1 & Hg & Hw & Hwk).
  exists w, s1. split_and!; [done|by subst s1|done|by subst s1|]. intros s2 Hto Ho2.
  destruct (Hwk s2 Hto) as (b & s' & E & HW). pose proof HW as [W1 W2 W3 W4 W5 W6 W7 W8].
  assert (Hobj : obj s' = obj s) by (rewrite (fr_obj _ _ _ _ W3), Ho2; by subst s1).
  exists b, s'. split_and!; try done.
  - eapply woken_progress; [done|]. eapply objs_tframe; [apply HI|]. by eapply frame_only.
  - rewrite W5. simpl. by rewrite fn_lookup_insert.
  - rewrite W7, Hl by done. apply without_head. rewrite <- Hl. apply HK.
  - intros q' Hq' Hne. rewrite W7 by done. apply without_id. intros Ht.
    destruct (wq_waiting g s q' t HK Hq' Ht) as (? & ? & ? & Hg'). congruence.
Qed.

Lemma wake_fill_ok g s q t l f :
  Inv g s → is_ready_queue q = false → wq s q = t :: l →
  (∀ W, winfo (f W) = winfo W ∧ p_wobjcb (f W) = p_wobjcb W) →
  ∃ w s1 b s', queue_delete_next q s = RET t s1 ∧ p_winfo (tcb_table s1 t) = Some w ∧ p_winfo (tcb_table s t) = Some w ∧
    wait_complete t (upd_winfo w f s1) = RET b s' ∧ progress g s b s' ∧
    winfos s' w = (f (winfos s w)) <| winfo := WERCD E_OK |> ∧ wq s' q = l ∧ obj s' = obj s ∧
    ∀ q', is_ready_queue q' = false → q' ≠ q → wq s' q' = wq s q'.
Proof.
  intros HI Hq Hl Hf. destruct (wake_touch_ok g s q t l HI Hq Hl) as (w & s1 & E1 & Hw1 & Hw & Hws & Hwk).
  destruct (Hwk (upd_winfo w f s1)) as (b & s' & E & Hp & HW & Hrest); [by apply touch_upd_winfo; [apply touch_refl|]|done|].
  exists w, s1, b, s'. split_and!; try done; try apply Hrest. rewrite HW. simpl. by rewrite fn_lookup_insert, Hws.
Qed.

Lemma wake_with_ok g s q t l f :
  Inv g s → is_ready_queue q = false → wq s q = t :: l →
  (∀ W, winfo (f W) = winfo W ∧ p_wobjcb (f W) = p_wobjcb W) →
  ∃ b s1 s2 s', queue_delete_next q s = RET t s1 ∧
    (get s;; the w := p_winfo (tcb_table s t) ;; upd (upd_winfo w f)) s1 = RET () s2 ∧
    wait_complete t s2 = RET b s' ∧ progress g s b s'.
Proof.
  intros HI Hq Hl Hf. destruct (wake_fill_ok g s q t l f HI Hq Hl Hf) as (w & s1 & b & s' & E1 & Hw & _ & E2 & Hp & _).
  exists b, s1, (upd_winfo w f s1), s'. split_and!; [done| |done|done]. unfold kget, deref, upd. by rewrite Hw.
Qed.

(** Objects change before the wait of the head is completed; the WINFO of
    those behind it stays. *)
Lemma wake_obj_ok g s q t l :
  KInv g s → settled g → is_ready_queue q = false → wq s q = t :: l →
  ∃ s1 w susp, queue_delete_next q s = RET t s1 ∧ s1 = upd_wq (fun _ => <[q := l]> (wq s)) s ∧
    p_winfo (tcb_table s t) = Some w ∧
    ∀ F, (∀ q', wobjatr (upd_obj F s1) q' = wobjatr s1 q') →
      ∃ b s', wait_complete t (upd_obj F s1) = RET b s' ∧ woken g s t w susp (upd_obj F s1) b s' ∧ wq s' q = l ∧
        (∀ x, x ∈ l → p_winfo (tcb_table s' x) = p_winfo (tcb_table s x) ∧
          ∀ w', p_winfo (tcb_table s x) = Some w' → winfos s' w' = winfos s w') ∧
        (∀ q' x, is_ready_queue q' = false → x ∈ wq s' q' → x ∈ wq s q').
Proof.
  intros HK Hset Hq Hl. destruct (wake_head_with g s q t l HK Hset Hq Hl)
    as (s1 & w & susp & tmr & E1 & Hs1 & Hg & Hw & Hwk).
  exists s1, w, susp. split_and!; [done..|]. intros F Ha.
  destruct (Hwk (upd_obj F s1)) as (b & s' & E & HW); [apply touch_upd_obj; [apply touch_refl|auto]|].
  pose proof HW as [W1 W2 W3 W4 W5 W6 W7 W8].
  assert (Hl' : wq s' q = l).
  { rewrite W7, Hl by done. apply without_head. rewrite <- Hl. apply HK. }
  exists b, s'. split_and!; try done.
  - intros x Hx. destruct (fr_queue _ _ _ _ W3 q x Hq) as (_ & E2 & E3); [by rewrite Hl'|by intros []|].
    split; [done|]. intros w' Hw'. apply E3. by rewrite Hw'.
  - intros q' x Hq'. rewrite W7 by done. rewrite elem_of_without. tauto.
Qed.

(** Emptying a wait queue from a locked service call. *)
Lemma init_queue_ok g s q :
  Mid g s → is_ready_queue q = false → header_ok s q = true →
  ∃ b g' s', init_wait_queue q s = RET b s' ∧ Mid g' s' ∧
    tframe (fun _ => False) s s' ∧ woke b s s' ∧ wq s' q = [] ∧
    (∀ r, g r = Runnable → g' r = Runnable).
Proof.
  intros [HK Hset HO] Hq Hhd.
  destruct (init_wait_queue_ok g s q HK Hset Hq Hhd)
    as (b & s' & g' & E & HK' & Hset' & HF & Hw & Hnil & Hg).
  exists b, g', s'. split_and!; try done.
  - split; [done..|]. by eapply objs_tframe.
  - intros r Hr. by rewrite Hg, Hr.
Qed.

(** Both queues of an object. *)
Lemma init_queues_ok g s q1 q2 :
  Mid g s → is_ready_queue q1 = false → is_ready_queue q2 = false → header_ok s q1 = true →
  (∀ s', obj s' = obj s → header_ok s' q2 = true) →
  ∃ b1 b2 s1 g' s', init_wait_queue q1 s = RET b1 s1 ∧ init_wait_queue q2 s1 = RET b2 s' ∧
    Mid g' s' ∧ tframe (fun _ => False) s s' ∧ woke (if b2 then true else b1) s s' ∧ wq s' q1 = [] ∧ wq s' q2 = [] ∧
    (∀ r, g r = Runnable → g' r = Runnable).
Proof.
  intros HM Hq1 Hq2 Hh1 Hh2.
  destruct (init_queue_ok g s q1 HM Hq1 Hh1) as (b1 & g1 & s1 & E1 & M1 & F1 & W1 & N1 & R1).
  destruct (init_queue_ok g1 s1 q2 M1 Hq2) as (b2 & g2 & s2 & E2 & M2 & F2 & W2 & N2 & R2).
  { apply Hh2. symmetry. apply F1. }
  exists b1, b2, s1, g2, s2. split_and!; try done; [by eapply tframe_trans| | |auto].
  - replace (if b2 then true else b1) with (b1 || b2) by (by destruct b1, b2). eapply woke_trans; [done|done|]. by rewrite (fr_var _ _ _ _ F1).
  - destruct (wq s2 q1) as [|x l] eqn:Hl; [done|]. exfalso.
    destruct (fr_queue _ _ _ _ F2 q1 x Hq1) as [Hx _]; [rewrite Hl; left|by intros []|].
    rewrite N1 in Hx. by apply not_elem_of_nil in Hx.
Qed.

(** [queue_initialize] of a queue that is empty already. *)
Lemma init_empty_queue_ok g s q :
  Mid g s → wq s q = [] →
  let s' := upd_wq (Fam.queue_initialize q) s in Mid g s' ∧ wq s' q = [].
Proof.
  intros [[H1 H2 H3 H4 H5 H6 H7 H8 H9 H10] H11 H12] Hq s'.
  assert (HQ : ∀ q', wq s' q' = wq s q').
  { intros q'. simpl. unfold Fam.queue_initialize. destruct (decide (q' = q)) as [->|].
    - by rewrite fn_lookup_insert.
    - by apply fn_lookup_insert_ne. }
  split; [|by rewrite HQ]. split; try done.
  - split; try done.
    + intros t w c susp tmr Hg. by destruct (H4 _ _ _ _ _ Hg).
    + destruct H6 as [W1 W2]. split; intros q'; rewrite HQ; auto.
    + eapply sched_ok_ext; [exact H7| |done]. intros p. apply HQ.
    + intros q' Hw Hb. rewrite HQ. by apply H10.
  - eapply objs_tframe; [exact H12|]. split; try done. intros q' t' _. by rewrite HQ.
Qed.
End service.

Section locked.
Context {cfg : Config}.
Implicit Types (s : State).

(** A service call between its locks. *)
Lemma locked_RET {A} (body : K A) s a s' :
  body (with_lock true s) = RET a s' →
  (lock_cpu ;;; a <- body ;; unlock_cpu ;;; ret a) s = RET a (with_lock false s').
Proof. intros Hb. unfold bind at 1, lock_cpu, upd. simpl. by rewrite (bind_RET _ _ _ _ _ Hb). Qed.

Lemma with_lock_same s : sense_lock s = false → with_lock false (with_lock true s) = s.
Proof.
  intros Hl. unfold with_lock, upd_cpu, sense_lock in *. destruct s as [? ? ? ? ? ? [] ? ?]; simpl in *. by subst.
Qed.
End locked.

(** ** Tactics

    [svc_checks] goes past the check macros: an early return leaves the state
    alone. [task_call] and [int_call] enter the locked part. *)

Ltac svc_checks :=
  repeat (apply wp_check;
    [intros _; split; [assumption|apply same_ctx_refl]
    |let Hchk := fresh "Hchk" in intros Hchk; cbv beta in Hchk]).

Ltac split_ctx :=
  repeat match goal with
  | H : _ || _ = false |- _ => apply orb_false_iff in H as [? ?]
  | H : negb _ = false |- _ => apply negb_false_iff in H
  | H : negb _ = true |- _ => apply negb_true_iff in H
  end.

Ltac task_call g t s1 HI Hin Ht Hd :=
  svc_checks; split_ctx; apply task_call_ok; [assumption..|];
  intros g t s1 HI Hin Ht Hd; unfold kget.
Ltac int_call g s1 HI Hin :=
  svc_checks; split_ctx; apply int_call_ok; [assumption..|];
  intros g s1 HI Hin; unfold kget.
(** A return that changes nothing. *)
Ltac svc_ret := split; [first [assumption|eexists; eassumption]|assumption].
