(* ===== verification/Transit.v ===== *)
(** * Other transitions of a task

    Changes of TCB fields the invariant does not read, the sleep and the delay
    of the running task, suspension and resumption. *)

From S2P Require Import Prelude Queue Data Kmonad TimeEvent Task Wait Core Release Service.
Open Scope Z_scope.

Section transit.
Context {cfg : Config} (OInv : State → Prop) `{!Objects OInv}.
Implicit Types (s : State) (g : nat → tst) (t w i : nat) (q : qid).
Notation WP := (wp (rely OInv) (guar OInv)).
Notation Inv := (Inv OInv).
Notation OK := (OK OInv).
Notation Mid := (Mid OInv).
Notation progress := (progress OInv).

(** ** Fields nobody else reads *)

Definition plain (f : TCB → TCB) : Prop :=
  ∀ T, tstat (f T) = tstat T ∧ priority (f T) = priority T ∧ p_winfo (f T) = p_winfo T ∧
    static_tcb (f T) = static_tcb T.

Lemma plain_lookup f s t i : plain f →
  tstat (tcb_table (upd_tcb i f s) t) = tstat (tcb_table s t) ∧
  priority (tcb_table (upd_tcb i f s) t) = priority (tcb_table s t) ∧
  p_winfo (tcb_table (upd_tcb i f s) t) = p_winfo (tcb_table s t) ∧
  static_tcb (tcb_table (upd_tcb i f s) t) = static_tcb (tcb_table s t).
Proof.
  intros Hf. destruct (decide (t = i)) as [->|Hne]; [|by rewrite tcb_table_upd].
  rewrite tcb_table_self. apply Hf.
Qed.

(** The invariant reads these fields of a TCB only. *)
Lemma KInv_tcb g s i f :
  (∀ t, tstat (tcb_table (upd_tcb i f s) t) = tstat (tcb_table s t) ∧
    priority (tcb_table (upd_tcb i f s) t) = priority (tcb_table s t) ∧
    p_winfo (tcb_table (upd_tcb i f s) t) = p_winfo (tcb_table s t)) →
  KInv g s → KInv g (upd_tcb i f s).
Proof.
  intros HT [K1 K2 K3 K4 K5 K6 K7 K8 K9 K10].
  split; try done.
  - intros t. destruct (HT t) as [-> _]. apply K2.
  - intros t. destruct (HT t) as (_ & -> & _). apply K3.
  - intros t w c susp tmr Hg. destruct (K4 _ _ _ _ _ Hg). destruct (HT t) as (_ & _ & Hw). split; try done.
    by rewrite Hw.
  - eapply wq_ok_ext; [|exact K6]. intros t. unfold place. by destruct (HT t) as (_ & -> & _).
  - eapply sched_ok_ext; [exact K7|done|]. intros p t _. apply HT.
  - intros q Hq Hb. eapply pri_sorted_ext; [|by apply K10]. intros t _. apply HT.
Qed.

Lemma plain_frame f s i : plain f → tframe (fun _ => False) s (upd_tcb i f s).
Proof.
  intros Hf. split; try done.
  - intros q t Hq Ht _. by destruct (plain_lookup f s t i Hf) as (_ & _ & -> & _).
  - intros t. apply (plain_lookup f s t i Hf).
Qed.

Lemma plain_Mid g s i f : plain f → Mid g s → Mid g (upd_tcb i f s).
Proof.
  intros Hf [M1 M2 M3]. split; [|done|eapply objs_tframe; [exact M3|by apply plain_frame]].
  apply KInv_tcb; [|done]. intros t. destruct (plain_lookup f s t i Hf) as (?&?&?&?). done.
Qed.

Lemma plain_Inv g s i f : plain f → Inv g s → Inv g (upd_tcb i f s).
Proof. intros Hf HI. eapply Inv_of; [exact HI|by apply plain_Mid, Inv_Mid|done..]. Qed.

(** ** [get_tcb_self] *)

Lemma self_runtsk s : OK s → sense_context s = false → ∃ t, p_runtsk s = Some t.
Proof. intros [g HI] Hc. destruct (i_ctx _ _ _ HI Hc) as (t & Ht & _). by exists t. Qed.

(** ** The running task goes to sleep without a queue *)

Lemma sleep_plain_ok {A} g s t w c tmr s1 (k : K A) Q :
  sleepy OInv g s t w → asleep s s1 t w c tmr → (∀ q, c ≠ WOBJ q ∧ c ≠ Detached q) → tmr ≠ Fired →
  (c = DLY → tmr ≠ NoTimer) →
  (∀ s'', OK s'' → in_task t s'' → (∃ ercd, winfo (winfos s'' w) = WERCD ercd) → WP Q (k s'')) →
  WP Q ((dispatch ;;; k) s1).
Proof.
  intros Hsl Has Hc Hf Hd HQ. pose proof Hsl as [HI Hin Ht Hdsp Hw Hfree].
  destruct (asleep_KInv g s s1 t w c tmr (i_k _ _ _ HI) Ht Hw Hfree Has Hc Hf Hd) as [HK HF].
  pose proof Has as [A1 A2 A3 A4 A5 A6 A7 A8 A9 A10 A11].
  eapply (sleep_ok OInv g s t w c); [exact Hsl| | | |exact HQ].
  - split; [exact HK|by exists tmr|exact HF| | |done|done|].
    + intros q ->. by destruct (Hc q).
    + by rewrite A5.
    + rewrite A8. exists (winfo_of w tmr), (p_wobjcb (winfos s w)). by destruct (winfos s w).
  - destruct c as [| |q|q]; [done|done|by destruct (Hc q)|by destruct (Hc q)].
  - eapply objs_tframe; [apply HI|]. eapply frame_weaken; [| |exact HF]; [|done].
    intros q ->. by destruct (Hc q).
Qed.

Lemma slp_sleep_ok {A} g s t w (k : K A) Q :
  sleepy OInv g s t w →
  (∀ s'', OK s'' → in_task t s'' → (∃ ercd, winfo (winfos s'' w) = WERCD ercd) → WP Q (k s'')) →
  WP Q ((get s0;; the t := p_runtsk s0 ;;
    set_tstat t (Z.lor TS_WAITING TS_WAIT_SLP) ;;; make_wait w ;;; dispatch ;;; k) s).
Proof.
  intros Hsl HQ. pose proof Hsl as [HI Hin Ht Hdsp Hw Hfree]. pose proof Hin as (_ & _ & Hrun).
  unfold kget at 1, deref at 1. rewrite Hrun.
  destruct (make_wait_asleep g s t w SLP (i_k _ _ _ HI) Ht Hrun Hfree) as (s1 & E & Has).
  change (Z.lor TS_WAITING TS_WAIT_SLP) with (enc (Waiting w SLP false NoTimer)).
  rewrite (bind2_RET _ _ _ _ _ _ E). by eapply sleep_plain_ok.
Qed.

Lemma slp_sleep_tmout_ok {A} g s t w tmout (k : K A) Q :
  sleepy OInv g s t w → -1 ≤ tmout ≤ TMAX_RELTIM → tmout ≠ 0 →
  (∀ s'', OK s'' → in_task t s'' → (∃ ercd, winfo (winfos s'' w) = WERCD ercd) → WP Q (k s'')) →
  WP Q ((get s0;; the t := p_runtsk s0 ;;
    set_tstat t (Z.lor TS_WAITING TS_WAIT_SLP) ;;; make_wait_tmout w tmout ;;; dispatch ;;; k) s).
Proof.
  intros Hsl Hto Hpol HQ. pose proof Hsl as [HI Hin Ht Hdsp Hw Hfree]. pose proof Hin as (_ & _ & Hrun).
  unfold kget at 1, deref at 1. rewrite Hrun.
  destruct (make_wait_tmout_asleep g s t w SLP tmout (i_k _ _ _ HI) Ht Hrun Hfree)
    as (s1 & tmr & E & Hf & Has); [done..|].
  change (Z.lor TS_WAITING TS_WAIT_SLP) with (enc (Waiting w SLP false NoTimer)).
  rewrite (bind2_RET _ _ _ _ _ _ E). by eapply sleep_plain_ok.
Qed.

(** The delay of [dly_tsk]. *)
Lemma make_delay_asleep g s t w dlytim :
  KInv g s → g t = Runnable → p_runtsk s = Some t → (∀ t', frame_of (g t') ≠ Some w) →
  dlytim ≤ TMAX_RELTIM →
  ∃ s1, (set_tstat t (enc (Waiting w DLY false NoTimer)) ;;;
      make_non_runnable t ;;;
      upd (upd_tcb t (fun T => T <| p_winfo := Some w |>)) ;;;
      set_winfo w (P_TMEVTB (Some (TM_TSK w))) ;;;
      tmevtb_enqueue (TM_TSK w) dlytim wait_tmout_ok_cb t) s = RET () s1 ∧
    asleep s s1 t w DLY Timer.
Proof.
  intros HK Hg Hrun Hfree Hto.
  set (s0 := upd_tcb t (fun T => T <| tstat := enc (Waiting w DLY false NoTimer) |>) s).
  destruct (leave_ready g s s0 t HK Hg eq_refl eq_refl) as (c' & Hc' & Heq).
  { intros t'. apply priority_set_tstat. }
  assert (Hnone : evt (tm s) (TM_TSK w) = None).
  { destruct (evt (tm s) (TM_TSK w)) eqn:He; [|done]. exfalso.
    destruct (proj1 (k_timer _ _ HK w)) as (t' & c1 & susp & Hg'); [by eexists|].
    apply (Hfree t'). by rewrite Hg'. }
  set (s2 := upd_winfo w (fun W => W <| winfo := P_TMEVTB (Some (TM_TSK w)) |>)
    (upd_tcb t (fun T => T <| p_winfo := Some w |>) (with_ready (Fam.queue_delete t (wq s)) c' s0))).
  destruct (tmevtb_enqueue_ok s2 (TM_TSK w) dlytim wait_tmout_ok_cb t) as (m' & Em & Hm); [apply HK|done|lia|].
  exists (upd_tm (fun _ => m') s2). split.
  { rewrite (bind_RET _ _ s () s0) by reflexivity. rewrite (bind_RET _ _ _ _ _ Heq). exact Em. }
  split; try done.
  - simpl. rewrite !fn_lookup_insert. done.
  - intros t' Hne. simpl. by rewrite !fn_lookup_insert_ne.
  - intros w' Hne. simpl. by apply fn_lookup_insert_ne.
  - simpl. apply fn_lookup_insert.
  - simpl. by eapply timer_set_registered.
  - eapply sched_ok_ext; [exact Hc'|done|]. intros p t' _. simpl.
    unfold insert, fn_insert. by repeat case_decide; subst.
Qed.

(** ** A release by another task *)

Lemma released_progress g s t w susp c tmr ercd b s' :
  Inv g s → g t = Waiting w c susp tmr → released g s t w susp ercd b s' → progress g s b s'.
Proof.
  intros HI Hg HR. destruct (released_ok OInv g s t w susp c tmr ercd b s' HI Hg HR) as (H1 & H2 & H3 & H4 & H5).
  by exists (<[t := after_wait susp]> g).
Qed.

(** ** Suspension and resumption *)

(** A task in the ready queue becomes suspended. *)
Lemma suspend_ready_ok g s i :
  Inv g s → g i = Runnable →
  ∃ b s', (set_tstat i TS_SUSPENDED ;;; make_non_runnable i) s = RET b s' ∧
    Mid (<[i := Suspended]> g) s' ∧ var s' = var s ∧ cpu s' = cpu s ∧ woke b s s' ∧
    (p_schedtsk s = Some i → dspflg s = true → b = true).
Proof.
  intros HI Hg. pose proof (i_k _ _ _ HI) as HK.
  set (s0 := upd_tcb i (fun T => T <| tstat := TS_SUSPENDED |>) s).
  destruct (leave_ready g s s0 i HK Hg eq_refl eq_refl) as (c' & Hc' & Heq).
  { intros t'. apply priority_set_tstat. }
  assert (Hother : ∀ q, is_ready_queue q = false → Fam.queue_delete i (wq s) q = wq s q).
  { intros q Hq. apply queue_delete_other. by eapply running_only. }
  exists (resched s0 c'), (with_ready (Fam.queue_delete i (wq s)) c' s0).
  split; [by rewrite (bind_RET _ _ s () s0)|]. split_and!; try done.
  - split.
    + eapply (KInv_upd g s _ i Suspended (next_frame s)); try done.
      * left. by rewrite Hg.
      * by left.
      * intros t' _. by apply fresh_frame.
      * intros t' Hne. simpl. by rewrite fn_lookup_insert_ne.
      * simpl. by rewrite fn_lookup_insert.
      * intros _. simpl. rewrite fn_lookup_insert. apply HK. by rewrite Hg.
      * simpl. rewrite (k_timer _ _ HK). split; [|by intros (? & ? & [=])].
        intros (t' & c & susp & Ht'). exfalso. eapply (fresh_frame g s HK t'). by rewrite Ht'.
      * simpl. eapply wq_ok_delete; [apply HK|]. intros t'.
        rewrite (place_upd (tcb_table s)) by (intros; by apply fn_lookup_insert_ne).
        case_decide; [|done]. subst. by rewrite place_self.
      * apply HK.
      * intros q Hq Hb. simpl. rewrite Hother by (by destruct q).
        eapply pri_sorted_ext; [|by apply (k_sorted _ _ HK)]. intros t' _. apply priority_set_tstat.
    + by apply settled_upd, eq_refl; apply HI.
    + eapply objs_tframe; [apply HI|]. split; try done.
      * intros q t' Hq Ht _. simpl in Ht. rewrite Hother in Ht by done. split_and!; try done.
        simpl. rewrite fn_lookup_insert_ne; [done|]. intros <-. by eapply running_only.
      * intros t'. simpl. destruct (decide (t' = i)) as [->|Hne]; [|by rewrite fn_lookup_insert_ne].
        rewrite fn_lookup_insert. eapply static_tstat; [exact HK|by rewrite Hg|done].
  - change (resched s0 c') with (resched s c'). by apply resched_woke.
  - intros Hs Hd. unfold resched. change (sch s0) with (sch s). change (var s0) with (var s).
    rewrite Hd, andb_true_r. apply negb_true_iff, bool_decide_eq_false. rewrite Hs.
    rewrite (sched_schedtsk _ _ _ Hc'). intros Heq'%hd_error_elem.
    by apply (ready_delete_head (wq s) i).
Qed.

(** A suspended task becomes runnable. *)
Lemma resume_ok g s i :
  Inv g s → g i = Suspended →
  ∃ b s', (set_tstat i TS_RUNNABLE ;;; make_runnable i) s = RET b s' ∧ progress g s b s'.
Proof.
  intros HI Hg. pose proof (i_k _ _ _ HI) as HK.
  set (s0 := upd_tcb i (fun T => T <| tstat := TS_RUNNABLE |>) s).
  assert (Hno : ∀ q, i ∉ wq s q).
  { intros q Ht%(k_wq _ _ HK). unfold place in Ht. by rewrite Hg in Ht. }
  assert (Hpri : ∀ t', priority (tcb_table s0 t') = priority (tcb_table s t')) by (intros; apply priority_set_tstat).
  destruct (make_runnable_eq s0 i) as (c' & Hc' & Heq).
  { eapply sched_ok_ext; [apply HK|done|]. intros. apply Hpri. }
  { intros p. apply Hno. }
  { rewrite Hpri. apply HK. by rewrite Hg. }
  exists (resched s0 c'). eexists. split; [by rewrite (bind_RET _ _ s () s0)|].
  exists (<[i := Runnable]> g). split_and!; try done.
  - split.
    + eapply (KInv_upd g s _ i Runnable (next_frame s)); try done.
      * left. by rewrite Hg.
      * by left.
      * intros t' _. by apply fresh_frame.
      * intros t' Hne. simpl. by rewrite fn_lookup_insert_ne.
      * simpl. by rewrite fn_lookup_insert.
      * intros _. simpl. rewrite fn_lookup_insert. apply HK. by rewrite Hg.
      * simpl. rewrite (k_timer _ _ HK). split; [|by intros (? & ? & [=])].
        intros (t' & c & susp & Ht'). exfalso. eapply (fresh_frame g s HK t'). by rewrite Ht'.
      * simpl. eapply wq_ok_insert_prev; [apply HK| |].
        -- unfold place. by rewrite Hg.
        -- intros t'. rewrite (place_upd (tcb_table s)) by (intros; by apply fn_lookup_insert_ne).
           rewrite place_self. done.
      * apply HK.
      * intros q Hq Hb. simpl. unfold Fam.queue_insert_prev.
        rewrite fn_lookup_insert_ne by (by destruct q).
        eapply pri_sorted_ext; [|by apply (k_sorted _ _ HK)]. intros t' _. apply Hpri.
    + by apply settled_upd, eq_refl; apply HI.
    + eapply objs_tframe; [apply HI|]. split; try done.
      * intros q t' Hq Ht _. simpl in Ht. unfold Fam.queue_insert_prev in Ht.
        rewrite fn_lookup_insert_ne in Ht by (by destruct q). split_and!; try done.
        simpl. rewrite fn_lookup_insert_ne; [done|]. intros <-. by apply Hno in Ht.
      * intros t'. simpl. destruct (decide (t' = i)) as [->|Hne]; [|by rewrite fn_lookup_insert_ne].
        rewrite fn_lookup_insert. eapply static_tstat; [exact HK|by rewrite Hg|done].
  - change (resched s0 c') with (resched s c'). by apply resched_woke.
  - intros r Hr. rewrite fn_lookup_insert_ne; [done|]. intros ->. congruence.
Qed.

(** The suspension of a waiting task comes and goes. *)
Lemma suspend_waiting_ok g s i w c susp susp' tmr :
  Inv g s → g i = Waiting w c susp tmr →
  let s' := upd_tcb i (fun T => T <| tstat := enc (Waiting w c susp' tmr) |>) s in
  Inv (<[i := Waiting w c susp' tmr]> g) s' ∧ ∀ r, g r = Runnable → <[i := Waiting w c susp' tmr]> g r = Runnable.
Proof.
  intros HI Hg s'. pose proof (i_k _ _ _ HI) as HK.
  assert (Hr : ∀ r, g r = Runnable → <[i := Waiting w c susp' tmr]> g r = Runnable).
  { intros r Hr. rewrite fn_lookup_insert_ne; [done|]. intros ->. congruence. }
  split; [|done]. assert (HF : tframe (fun _ => False) s s').
  { split; try done.
    - intros q t' Hq Ht _. split_and!; try done. simpl.
      destruct (decide (t' = i)) as [->|]; [by rewrite fn_lookup_insert|by rewrite fn_lookup_insert_ne].
    - intros t'. simpl. destruct (decide (t' = i)) as [->|Hne]; [|by rewrite fn_lookup_insert_ne].
      rewrite fn_lookup_insert. apply (static_tstat g s i (enc (Waiting w c susp' tmr)) HK); [by rewrite Hg|].
      rewrite enc_dormant; [by rewrite bool_decide_false|]. pose proof (k_wf _ _ HK i) as Hwf. by rewrite Hg in Hwf. }
  assert (HK' : KInv (<[i := Waiting w c susp' tmr]> g) s').
  { eapply (KInv_upd_stay g s s' i _ w); try done.
    - pose proof (k_wf _ _ HK i) as Hwf. by rewrite Hg in Hwf.
    - right. by rewrite Hg.
    - by right.
    - apply (frame_free _ _ _ _ HK). by rewrite Hg.
    - intros t' Hne. simpl. by rewrite fn_lookup_insert_ne.
    - simpl. by rewrite fn_lookup_insert.
    - simpl. by rewrite fn_lookup_insert.
    - intros _. simpl. rewrite fn_lookup_insert. apply HK. by rewrite Hg.
    - intros c' susp'' tmr' [= <- <- <-]. destruct (k_wait _ _ HK _ _ _ _ _ Hg). split; try done.
      simpl. by rewrite fn_lookup_insert.
    - simpl. rewrite (k_timer _ _ HK). split.
      + intros (t' & c' & susp'' & Hg'). assert (t' = i) as ->.
        { apply (k_frames _ _ HK _ _ w); [by rewrite Hg'|by rewrite Hg]. }
        rewrite Hg in Hg'. injection Hg' as <- <- <-. eauto.
      + intros (c' & susp'' & [= <- <- ->]). by exists i, c, susp.
    - rewrite place_self. unfold place. by rewrite Hg.
    - apply HK. }
  destruct HI as [H1 H2 H3 H4 H5]. split; try done.
  - apply settled_upd; [done|]. specialize (H2 i). rewrite Hg in H2. by destruct c, tmr.
  - by eapply objs_tframe.
  - intros Hc. destruct (H4 Hc) as (t & Ht1 & Ht2). exists t. auto.
Qed.
(** ** The flags *)

Lemma Mid_var g s f : Mid g s → Mid g (upd_var f s).
Proof.
  intros [M1 M2 M3]. rewrite upd_var_ctx. split; [by apply KInv_ctx|done|by apply objs_ctx].
Qed.
Lemma Mid_cpu g s f : Mid g s → Mid g (upd_cpu f s).
Proof.
  intros [M1 M2 M3]. rewrite upd_cpu_ctx. split; [by apply KInv_ctx|done|by apply objs_ctx].
Qed.

(** In task context, with the running task known to be runnable. *)
Lemma Inv_task g s t :
  Mid g s → in_task t s → g t = Runnable → (dspflg s = true → p_schedtsk s = p_runtsk s) → Inv g s.
Proof.
  intros [M1 M2 M3] Hin Ht Hd. split; try done.
  - intros _. exists t. by destruct Hin as (_ & _ & ?).
  - intros Hx. left. auto.
Qed.

(** Dispatching when the running task is not the one that should run. *)
Lemma dispatch_due_ok g s t (b : bool) (Q : () → State → Prop) :
  Mid g s → in_task t s → g t = Runnable →
  (b = true → dspflg s = true) → (b = false → dspflg s = true → p_schedtsk s = p_runtsk s) →
  (∀ s', OK s' → in_task t s' → Q () s') →
  WP Q ((if b then dispatch else ret ()) s).
Proof.
  intros HM Hin Ht Hb Hnb HQ. destruct b.
  - eapply (dispatch_ok OInv s t); [by exists g|done|auto|]. intros s' H1 H2 _ _. by apply HQ.
  - apply HQ; [|done]. exists g. by apply (Inv_task g s t); auto.
Qed.

(** The task that runs is runnable. *)
Lemma OK_task t s : OK s → in_task t s → ∃ g, Inv g s ∧ g t = Runnable.
Proof.
  intros [g HI] (Hc & _ & Hr). exists g. split; [done|].
  destruct (i_ctx _ _ _ HI Hc) as (t' & Hr' & Ht'). congruence.
Qed.

(** ** Calls of the task exception routine *)

Lemma plain_enatex b : plain (fun T => T <| enatex := b |>).
Proof. done. Qed.
Lemma plain_texptn v : plain (fun T => T <| texptn := v |>).
Proof. done. Qed.

Lemma upd_run_eq s t f : p_runtsk s = Some t → upd_run f s = RET () (upd_tcb t f s).
Proof. intros Hr. unfold upd_run, kget, deref. by rewrite Hr. Qed.

Lemma call_texrtn_loop_ok rounds : ∀ t sd s (Q : () → State → Prop),
  OK s → in_task t s → (∀ s', OK s' → in_task t s' → Q () s') →
  WP Q (call_texrtn_loop rounds sd s).
Proof.
  induction rounds as [|rounds IH]; intros t sd s Q HOK Hin HQ; [split; [done|by intros ? []]|].
  destruct (OK_task t s HOK Hin) as (g & HI & Ht). pose proof Hin as (Hc & Hl & Hr).
  cbn [call_texrtn_loop]. unfold kget at 1, deref at 1. rewrite Hr.
  eapply wp_RET; [by apply upd_run_eq|].
  set (s1 := upd_tcb t (fun T => T <| texptn := 0 |>) s).
  assert (HI1 : Inv g s1) by (by apply plain_Inv).
  eapply wp_RET; [reflexivity|]. apply wp_bind, wp_yield.
  { split; [|done]. apply (OK_lock OInv s1 false). by exists g. }
  intros s2 ([g2 HI2] & Hc2 & Hr2). simpl in Hr2. change (p_runtsk s2 = p_runtsk s) in Hr2.
  rewrite Hr in Hr2. set (s3 := if sense_lock s2 then s2 else with_lock true s2).
  assert (HI3 : Inv g2 s3) by (unfold s3; destruct (sense_lock s2); [done|by apply Inv_lock]).
  assert (Hin3 : in_task t s3) by (unfold s3; destruct (sense_lock s2) eqn:?; by split_and!).
  unfold kget at 1. eapply wp_RET with (a := ()) (s' := s3).
  { unfold s3. by destruct (sense_lock s2). }
  assert (Ht2 : g2 t = Runnable).
  { destruct (i_ctx _ _ _ HI2 Hc2) as (t' & Hr' & Ht'). congruence. }
  set (s4 := if ipmflg s3 then s3 else upd_var (fun v => v <| v_ipmflg := true |>)
    (upd_cpu (fun c => c <| c_ipm := TIPM_ENAALL |>) s3)).
  unfold kget at 1. eapply wp_RET with (a := ()) (s' := s4).
  { unfold s4. by destruct (ipmflg s3). }
  assert (HM4 : Mid g2 s4).
  { unfold s4. destruct (ipmflg s3); [by apply Inv_Mid|]. by apply Mid_var, Mid_cpu, Inv_Mid. }
  assert (Hin4 : in_task t s4) by (unfold s4; by destruct (ipmflg s3)).
  do 2 (eapply wp_RET; [reflexivity|]).
  set (s5 := upd_var _ (upd_var _ s4)).
  assert (HM5 : Mid g2 s5) by (by apply Mid_var, Mid_var).
  assert (Hin5 : in_task t s5) by exact Hin4.
  eapply wp_RET; [apply upd_run_eq, Hin5|]. set (s6 := upd_tcb t _ s5).
  assert (HM6 : Mid g2 s6) by (by apply plain_Mid).
  unfold kget at 1. apply wp_bind.
  eapply (dispatch_due_ok g2 s6 t); [exact HM6|exact Hin5|exact Ht2| | |].
  - by intros [_ ?]%andb_true_iff.
  - intros Hb Hd. rewrite Hd, andb_true_r in Hb. apply negb_false_iff, bool_decide_eq_true in Hb. done.
  - intros s7 HOK7 Hin7. unfold kget, deref. rewrite (proj2 (proj2 Hin7)).
    destruct (negb (texptn _ =? 0)); [by eapply IH|by apply HQ].
Qed.

Lemma call_texrtn_ok rounds t s (Q : () → State → Prop) :
  OK s → in_task t s → (∀ s', OK s' → in_task t s' → Q () s') → WP Q (call_texrtn rounds s).
Proof.
  intros [g HI] Hin HQ. unfold call_texrtn, kget at 1.
  eapply wp_RET; [apply upd_run_eq, Hin|]. apply wp_bind. eapply call_texrtn_loop_ok; [|exact Hin|].
  - exists g. by apply plain_Inv.
  - intros s' [g' HI'] Hin'. rewrite (upd_run_eq _ t) by apply Hin'. apply HQ; [|exact Hin'].
    exists g'. by apply plain_Inv.
Qed.

(** ** Rotation *)

Lemma KInv_requeue g s Q' c' :
  KInv g s → (∀ q, is_ready_queue q = false → Q' q = wq s q) →
  (∀ q x, x ∈ Q' q ↔ x ∈ wq s q) → (∀ q, NoDup (Q' q)) → sched_ok (tcb_table s) Q' c' →
  KInv g (with_ready Q' c' s) ∧ tframe (fun _ => False) s (with_ready Q' c' s).
Proof.
  intros [K1 K2 K3 K4 K5 K6 K7 K8 K9 K10] Hother Hin Hnd Hsch. split.
  - split; try done.
    + intros t w c susp tmr Hg. by destruct (K4 _ _ _ _ _ Hg).
    + destruct K6 as [W1 W2]. split; [|done]. intros q t. simpl. rewrite Hin. apply W1.
    + intros q Hq Hb. simpl. rewrite Hother by (by destruct q). by apply K10.
  - split; try done. intros q t Hq Ht _. simpl in Ht. by rewrite Hother in Ht.
Qed.

Lemma rotate_ok g s pri :
  Mid g s → 0 ≤ pri < 16 →
  ∃ b s', rotate_ready_queue pri s = RET b s' ∧ progress g s b s'.
Proof.
  intros [HK Hset HO] Hp.
  destruct (rotate_ready_queue_eq s pri) as (c' & Hsch & E); [apply HK|done|apply HK|].
  eexists _, _. split; [exact E|]. exists g.
  destruct (fun H1 H2 H3 => KInv_requeue g s _ c' HK H1 H2 H3 Hsch) as [HK' HF].
  - intros q Hq. destruct (wq s (RDQ pri)) as [|x [|y l]]; [done|done|].
    unfold Fam.queue_insert_prev. rewrite !fn_lookup_insert_ne; [done|by intros <-..].
  - intros q x. destruct (wq s (RDQ pri)) as [|x' [|y l]] eqn:Hl; [done|done|].
    unfold Fam.queue_insert_prev. destruct (decide (q = RDQ pri)) as [->|].
    + rewrite !fn_lookup_insert, Hl. set_solver.
    + rewrite !fn_lookup_insert_ne by done. done.
  - intros q. destruct (wq s (RDQ pri)) as [|x' [|y l]] eqn:Hl; [apply HK|apply HK|].
    unfold Fam.queue_insert_prev. destruct (decide (q = RDQ pri)) as [->|].
    + rewrite !fn_lookup_insert. pose proof (wq_nodup _ _ (k_wq _ _ HK) (RDQ pri)) as Hnd.
      rewrite Hl, Permutation_cons_append in Hnd. done.
    + rewrite !fn_lookup_insert_ne by done. apply HK.
  - split_and!; try done. + split; [done|done|by eapply objs_tframe]. + by apply resched_woke.
Qed.
End transit.
