(* ===== verification/Object.v ===== *)
(** * Tables of kernel objects

    Every kind of object (semaphores, event flags, ...) has a table of control
    blocks, a list of the free ones, an attribute that marks the free ones and
    wait queues.  [Kind] describes one kind, [kind_inv] is its invariant: an
    existing block satisfies the invariant [cb_ok] of its kind, nobody waits in
    the queues of a block that does not exist, and the free list holds
    different blocks that do not exist.

    The lemmas say how an operation that changes one block, creates it or
    deletes it gives the invariant back; the components instantiate them. *)

From S2P Require Import Prelude Queue Data Kmonad TimeEvent Task Wait Core Release Service.
Open Scope Z_scope.

Class Kind `{Config} (C : Type) := {
  cbs : OBJ → nat → C;
  frees : OBJ → list nat;
  cb_atr : C → Z;
  cb_queue : nat → qid;                (* the first member of the block *)
  cb_of : qid → option nat;            (* the block that holds a queue *)
  cb_only : OBJ → OBJ → Prop;          (* the rest of the objects is the same *)
  cb_ok : State → nat → Prop;
  cb_atr_of : ∀ s q i, cb_of q = Some i → wobjatr s q = cb_atr (cbs (obj s) i);
  cb_atr_other : ∀ F s q, cb_of q = None → cb_only (obj s) (F (obj s)) →
    wobjatr (upd_obj F s) q = wobjatr s q;
  cb_header : ∀ s i, header_ok s (cb_queue i) = bool_decide (i ∉ frees (obj s));
  cb_ok_frame : ∀ TR Y P s s' i X, gframe TR Y X P s s' → (∀ q, cb_of q = Some i → ¬ X q) →
    cbs (obj s') i = cbs (obj s) i → cb_ok s i → cb_ok s' i;
  cb_only_refl : Reflexive cb_only;
  cb_not_ready : ∀ q i, cb_of q = Some i → is_ready_queue q = false }.
#[export] Existing Instance cb_only_refl.

Section object.
Context {cfg : Config} {C : Type} {kd : Kind C}.
Implicit Types (s : State) (g : nat → tst) (i : nat) (q : qid).

Definition gone s i : Prop := cb_atr (cbs (obj s) i) = TA_NOEXS.
Definition no_waiter s i : Prop := ∀ q, cb_of q = Some i → wq s q = [].

Definition kind_ok s i : Prop := (gone s i → no_waiter s i) ∧ (¬ gone s i → cb_ok s i).

Record kind_inv s : Prop := {
  ki_ok : ∀ i, kind_ok s i;
  ki_free : ∀ i, i ∈ frees (obj s) → gone s i;
  ki_nodup : NoDup (frees (obj s)) }.

Definition kind_own q : Prop := is_Some (cb_of q).

Lemma frame_empty TR Y X P s s' q :
  gframe TR Y X P s s' → is_ready_queue q = false → ¬ X q → wq s q = [] → wq s' q = [].
Proof.
  intros HF Hq HX Hnil. destruct (wq s' q) as [|t l] eqn:Hl; [done|]. exfalso.
  destruct (fr_queue _ _ _ _ HF q t Hq) as [Ht _]; [rewrite Hl; left|done|].
  rewrite Hnil in Ht. by apply not_elem_of_nil in Ht.
Qed.

Lemma kind_ok_frame TR Y X P s s' i :
  gframe TR Y X P s s' → (∀ q, cb_of q = Some i → ¬ X q) → cbs (obj s') i = cbs (obj s) i →
  kind_ok s i → kind_ok s' i.
Proof.
  intros HF HX Hcb. unfold kind_ok, gone. rewrite Hcb. intros [Hno Hok]. split.
  - intros Hg q Hq. eapply frame_empty; [done|by eapply cb_not_ready|by apply HX|by apply Hno].
  - intros Hg. eapply cb_ok_frame; eauto.
Qed.

(** Operations of other components. *)
Lemma kind_inv_frame TR Y X P s s' :
  gframe TR Y X P s s' → (∀ q, X q → cb_of q = None) → cbs (obj s') = cbs (obj s) →
  frees (obj s') = frees (obj s) → kind_inv s → kind_inv s'.
Proof.
  intros HF HX H1 H2 [C1 C2 C3]. split; unfold gone; rewrite ?H1, ?H2; [|done..].
  intros i. eapply kind_ok_frame; [done| |by rewrite H1|apply C1]. intros q Hq Hx%HX. congruence.
Qed.

(** A change of one block. *)
Lemma kind_inv_upd TR Y X P s s' i :
  kind_inv s → gframe TR Y X P s s' → (∀ q, X q → cb_of q = Some i) →
  (∀ j, j ≠ i → cbs (obj s') j = cbs (obj s) j) → kind_ok s' i →
  (∀ j, j ∈ frees (obj s') → j ≠ i → j ∈ frees (obj s)) → (i ∈ frees (obj s') → gone s' i) →
  NoDup (frees (obj s')) → kind_inv s'.
Proof.
  intros [C1 C2 C3] HF HX H1 H2 H3 H4 H5. split; [| |done].
  - intros j. destruct (decide (j = i)) as [->|Hne]; [done|].
    eapply kind_ok_frame; [done| |by apply H1|done]. intros q Hq Hx%HX. congruence.
  - intros j Hj. destruct (decide (j = i)) as [->|Hne]; [auto|]. unfold gone. rewrite H1 by done. by apply C2, H3.
Qed.

Section calls.
Context (OInv : State → Prop) `{!Objects OInv} `{!Component OInv kind_inv kind_own cb_only}.
Notation Inv := (Inv OInv).
Notation Mid := (Mid OInv).

Lemma kind_exists s i :
  kind_inv s → ¬ gone s i → i ∉ frees (obj s) ∧ cb_ok s i ∧ header_ok s (cb_queue i) = true.
Proof.
  intros [C1 C2 C3] Hne. assert (Hf : i ∉ frees (obj s)) by (intros Hf; by apply C2 in Hf).
  split_and!; [done|by apply C1|by rewrite cb_header; apply bool_decide_eq_true].
Qed.

Lemma kind_atr s F i q :
  cb_only (obj s) (F (obj s)) → (∀ j, j ≠ i → cbs (F (obj s)) j = cbs (obj s) j) →
  cb_of q ≠ Some i → wobjatr (upd_obj F s) q = wobjatr s q.
Proof.
  intros HF Hj Hq. destruct (cb_of q) as [j|] eqn:Hof.
  - rewrite !(cb_atr_of _ q j) by done. simpl. rewrite Hj; [done|congruence].
  - by apply cb_atr_other.
Qed.

(** The operations: the block of an existing object changes ([kind_put]), an
    object without waiters is deleted, a free block is taken. *)
Lemma kind_put g s i F :
  Mid g s → i ∉ frees (obj s) → cb_only (obj s) (F (obj s)) → frees (F (obj s)) = frees (obj s) →
  (∀ j, j ≠ i → cbs (F (obj s)) j = cbs (obj s) j) →
  cb_atr (cbs (F (obj s)) i) = cb_atr (cbs (obj s) i) → kind_ok (upd_obj F s) i →
  Mid g (upd_obj F s).
Proof.
  intros HM Hfree HF Hfr Hj Ha Hok. pose proof (Mid_comp OInv g s HM) as Hinv.
  apply (comp_upd OInv); [done..| |].
  - intros q _. left. destruct (decide (cb_of q = Some i)) as [Hof|Hof]; [|by eapply kind_atr].
    by rewrite !(cb_atr_of _ q i).
  - eapply (kind_inv_upd same_static no_timer (fun _ => False) any_obj s _ i); try done; simpl; rewrite ?Hfr; try done. apply Hinv.
Qed.

Lemma kind_delete g s i F :
  Mid g s → i ∉ frees (obj s) → no_waiter s i → cb_only (obj s) (F (obj s)) →
  frees (F (obj s)) = frees (obj s) ++ [i] → (∀ j, j ≠ i → cbs (F (obj s)) j = cbs (obj s) j) →
  cb_atr (cbs (F (obj s)) i) = TA_NOEXS → Mid g (upd_obj F s).
Proof.
  intros HM Hfree Hno HF Hfr Hj Ha. pose proof (Mid_comp OInv g s HM) as Hinv.
  apply (comp_upd OInv); [done..| |].
  - intros q _. destruct (decide (cb_of q = Some i)) as [Hof|Hof]; [right; by apply Hno|left; by eapply kind_atr].
  - eapply (kind_inv_upd same_static no_timer (fun _ => False) any_obj s _ i); try done; simpl; rewrite ?Hfr; try done.
    + intros j Hin Hne. apply elem_of_app in Hin as [|Hin]; [done|]. by apply list_elem_of_singleton in Hin.
    + apply NoDup_app. split_and!; [apply Hinv| |apply NoDup_singleton]. set_solver.
Qed.

Lemma kind_create g s i l F :
  Mid g s → frees (obj s) = i :: l → cb_only (obj s) (F (obj s)) → frees (F (obj s)) = l →
  (∀ j, j ≠ i → cbs (F (obj s)) j = cbs (obj s) j) → (no_waiter s i → kind_ok (upd_obj F s) i) →
  Mid g (upd_obj F s).
Proof.
  intros HM Hl HF Hfr Hj Hok. pose proof (Mid_comp OInv g s HM) as Hinv.
  pose proof (ki_nodup _ Hinv) as Hnd. rewrite Hl in Hnd. apply NoDup_cons in Hnd as [Hi Hnd].
  assert (Hno : no_waiter s i).
  { apply (ki_ok _ Hinv i), Hinv. rewrite Hl. left. }
  apply (comp_upd OInv); [done..| |].
  - intros q _. destruct (decide (cb_of q = Some i)) as [Hof|Hof]; [right; by apply Hno|left; by eapply kind_atr].
  - eapply (kind_inv_upd same_static no_timer (fun _ => False) any_obj s _ i); try done; simpl; rewrite ?Hfr; try done.
    + by apply Hok.
    + intros j Hin _. rewrite Hl. by right.
Qed.

(** The free block that a creation takes has no waiters. *)
Lemma kind_free_no_waiter s i l : kind_inv s → frees (obj s) = i :: l → no_waiter s i.
Proof.
  intros Hinv Hl. apply (ki_ok _ Hinv i), Hinv. rewrite Hl. left.
Qed.

(** Tasks move and the block [i] changes at the same time. *)
Lemma kind_move P s s' i X :
  OInv s → frame X P s s' → (∀ q, X q → cb_of q = Some i) → cb_only (obj s) (obj s') →
  i ∉ frees (obj s) → frees (obj s') = frees (obj s) →
  (∀ j, j ≠ i → cbs (obj s') j = cbs (obj s) j) → kind_ok s' i → OInv s'.
Proof.
  intros HO HF HX Hon Hfree Hfr Hj Hok. eapply comp_put; [exact HO| |].
  - eapply frame_only; [|exact Hon]. eapply frame_weaken; [|by intros o o' H; exact H|exact HF].
    intros q Hx%HX. by exists i.
  - pose proof (comp_get s HO) as Hinv.
    eapply (kind_inv_upd same_static no_timer X P s s' i); try done; rewrite ?Hfr; try done. apply Hinv.
Qed.

Lemma kind_ok_intro s i : ¬ gone s i → cb_ok s i → kind_ok s i.
Proof. by split. Qed.
End calls.
End object.

(** ** Tactics

    [cb_lookup] reads a control block table after updates of one block. *)
Ltac cb_lookup :=
  simpl; repeat (rewrite fn_lookup_insert || rewrite fn_lookup_insert_ne by congruence); simpl; try done.
