(* ===== verification/Handler.v ===== *)
(** * Time event handlers

    What cyclic and alarm handlers share: a handler that exists and is started
    has its time event block registered with its callback function, and no
    other block of a handler is registered.  [Handler] describes one kind. *)

From S2P Require Import Prelude Queue Data Kmonad TimeEvent Task Wait Core Release Service Object.
Open Scope Z_scope.

Class Handler `{Config} (C : Type) := {
  hbs : OBJ → nat → C;
  hfrees : OBJ → list nat;
  h_atr : C → Z;
  h_sta : C → bool;
  h_tm : nat → tmid;
  h_cb : CBACK;
  h_only : OBJ → OBJ → Prop;
  h_only_refl : Reflexive h_only;
  h_tm_inj : Inj (=) (=) h_tm;
  h_tm_tsk : ∀ i w, h_tm i ≠ TM_TSK w;
  h_wobjatr : ∀ F s q, h_only (obj s) (F (obj s)) → wobjatr (upd_obj F s) q = wobjatr s q }.
#[export] Existing Instance h_tm_inj.
#[export] Existing Instance h_only_refl.

Section handler.
Context {cfg : Config} {C : Type} {hd : Handler C}.
Implicit Types (s : State) (g : nat → tst) (i : nat) (b : tmid).

Definition h_gone s i : Prop := h_atr (hbs (obj s) i) = TA_NOEXS.

Record handler_ok s i : Prop := {
  ho_reg : is_Some (evt (tm s) (h_tm i)) ↔ ¬ h_gone s i ∧ h_sta (hbs (obj s) i) = true;
  ho_call : is_Some (evt (tm s) (h_tm i)) →
    callback (tm_tmevtb (tm s) (h_tm i)) = h_cb ∧ arg (tm_tmevtb (tm s) (h_tm i)) = i }.

Record handler_inv s : Prop := {
  hi_ok : ∀ i, handler_ok s i;
  hi_free : ∀ i, i ∈ hfrees (obj s) → h_gone s i;
  hi_nodup : NoDup (hfrees (obj s)) }.

Definition h_own b : Prop := ∃ i, b = h_tm i.

Lemma handler_ok_same s s' i :
  evt (tm s') (h_tm i) = evt (tm s) (h_tm i) →
  callback (tm_tmevtb (tm s') (h_tm i)) = callback (tm_tmevtb (tm s) (h_tm i)) ∧
  arg (tm_tmevtb (tm s') (h_tm i)) = arg (tm_tmevtb (tm s) (h_tm i)) →
  hbs (obj s') i = hbs (obj s) i → handler_ok s i → handler_ok s' i.
Proof. intros E1 [E2 E3] E4 [H1 H2]. split; unfold h_gone; by rewrite ?E1, ?E2, ?E3, ?E4. Qed.

(** Operations of other components. *)
Lemma handler_inv_frame TR Y X P s s' :
  gframe TR Y X P s s' → (∀ b, Y b → ¬ h_own b) → hbs (obj s') = hbs (obj s) →
  hfrees (obj s') = hfrees (obj s) → handler_inv s → handler_inv s'.
Proof.
  intros HF HY E1 E2 [H1 H2 H3]. split; unfold h_gone; rewrite ?E1, ?E2; [|done..].
  intros i. apply (handler_ok_same s); [| |by rewrite E1|done].
  - apply (fr_timer _ _ _ _ HF); [apply h_tm_tsk|]. intros Hy%HY. apply Hy. by exists i.
  - apply (fr_tmevtb _ _ _ _ HF); [apply h_tm_tsk|]. intros Hy%HY. apply Hy. by exists i.
Qed.

(** The block of handler [i] changes, in the heap and in the table. *)
Record at_block (m m' : TM) b : Prop := {
  ab_heap : heap_ok m';
  ab_evt : ∀ b', b' ≠ b → evt m' b' = evt m b';
  ab_tmevtb : ∀ b', b' ≠ b → callback (tm_tmevtb m' b') = callback (tm_tmevtb m b') ∧
    arg (tm_tmevtb m' b') = arg (tm_tmevtb m b');
  ab_clock : tm_min_time m' = tm_min_time m ∧ tm_current_time m' = tm_current_time m ∧
    tm_next_time m' = tm_next_time m ∧ tm_next_subtime m' = tm_next_subtime m }.

Lemma at_block_refl m b : heap_ok m → at_block m m b.
Proof. by split. Qed.

Lemma at_block_trans m1 m2 m3 b : at_block m1 m2 b → at_block m2 m3 b → at_block m1 m3 b.
Proof.
  intros [A1 A2 A3 A4] [B1 B2 B3 B4]. split; [done| | |].
  - intros b' Hb. by rewrite B2, A2.
  - intros b' Hb. destruct (A3 b' Hb), (B3 b' Hb). split; congruence.
  - destruct A4 as (?&?&?&?), B4 as (?&?&?&?). split_and!; congruence.
Qed.

Lemma registered_at m m' b t cb a : registered m m' b t cb a → at_block m m' b.
Proof. intros []. by split. Qed.

(** Stopping and starting a block. *)
Lemma dequeue_at s b t :
  heap_ok (tm s) → evt (tm s) b = Some t →
  ∃ m', tmevtb_dequeue b s = RET () (upd_tm (fun _ => m') s) ∧ at_block (tm s) m' b ∧ evt m' b = None.
Proof.
  intros Hok He. destruct (tmevtb_dequeue_ok s b t Hok He) as (m' & E & Hok' & Hev & [C1 C2 C3 C4 C5 C6]).
  exists m'. split; [done|]. split; [|by rewrite Hev, decide_True].
  split; [done| | |done]. - intros b' Hb. by rewrite Hev, decide_False. - intros b' _. by rewrite C5, C6.
Qed.

Lemma KInv_at g s m' b :
  KInv g s → at_block (tm s) m' b → (∀ w, b ≠ TM_TSK w) → KInv g (upd_tm (fun _ => m') s).
Proof.
  intros [K1 K2 K3 K4 K5 K6 K7 K8 K9 K10] [A1 A2 A3 A4] Hb. split; try done.
  - intros t w c susp tmr Hg. destruct (K4 _ _ _ _ _ Hg) as [L1 L2 L3 L4 L5 L6]. split; try done.
    intros Hn. simpl. destruct (A3 (TM_TSK w)) as [-> ->]; [intros Hx; by apply (Hb w)|]. by apply L6.
  - intros w. simpl. rewrite A2; [apply K9|]. intros Hx. by apply (Hb w).
Qed.

Lemma at_frame s m' b F P :
  at_block (tm s) m' b → P (obj s) (F (obj s)) →
  gframe same_static (fun b' => b' = b) (fun _ => False) P s (upd_obj F (upd_tm (fun _ => m') s)).
Proof.
  intros [A1 A2 A3 A4] HP. split; try done.
  - intros b' _ Hb. by apply A2.
  - intros b' _ Hb. by apply A3.
Qed.

Section calls.
Context (OInv : State → Prop) `{!Objects OInv} `{!TimerComponent OInv handler_inv h_own h_only}.
Notation WP := (wp (rely OInv) (guar OInv)).
Notation Inv := (Inv OInv).
Notation OK := (OK OInv).
Notation Mid := (Mid OInv).

(** One handler changes: its block in the heap and its control block. *)
Lemma handler_step g s m' i F (s' := upd_obj F (upd_tm (fun _ => m') s)) :
  Inv g s → at_block (tm s) m' (h_tm i) → h_only (obj s) (F (obj s)) →
  (∀ j, j ≠ i → hbs (F (obj s)) j = hbs (obj s) j) → handler_ok s' i →
  (∀ j, j ∈ hfrees (F (obj s)) → j ≠ i → j ∈ hfrees (obj s)) → (i ∈ hfrees (F (obj s)) → h_gone s' i) →
  NoDup (hfrees (F (obj s))) → Inv g s'.
Proof.
  intros HI Hat HF Hj Hok Hf1 Hf2 Hnd. destruct (Inv_Mid _ _ _ HI) as [M1 M2 M3].
  apply (Inv_of OInv g s); [exact HI| |done..]. split; [|exact M2|].
  - apply KInv_obj; [by apply (KInv_at g s m' (h_tm i) M1 Hat), h_tm_tsk|]. intros q _. left.
    by apply (h_wobjatr F (upd_tm (fun _ => m') s)).
  - pose proof (tcomp_get s M3) as [H1 H2 H3]. eapply tcomp_put; [exact M3| |].
    + eapply gframe_weaken; [| | | |by eapply at_frame]; try done. intros b ->. by exists i.
    + split; [| |done].
      * intros j. destruct (decide (j = i)) as [->|Hne]; [done|]. apply (handler_ok_same s); [| |by apply Hj|done].
        -- apply (ab_evt _ _ _ Hat). by intros ?%(inj h_tm).
        -- apply (ab_tmevtb _ _ _ Hat). by intros ?%(inj h_tm).
      * intros j Hin. destruct (decide (j = i)) as [->|Hne]; [by apply Hf2|].
        unfold h_gone. simpl. rewrite Hj by done. by apply H2, Hf1.
Qed.

(** The control block of [i] changes, [v] is the new state of the handler. *)
Record hchange i (v : bool) (o o' : OBJ) : Prop := {
  hc_only : h_only o o';
  hc_free : hfrees o' = hfrees o;
  hc_other : ∀ j, j ≠ i → hbs o' j = hbs o j;
  hc_atr : h_atr (hbs o' i) = h_atr (hbs o i);
  hc_sta : h_sta (hbs o' i) = v }.

Lemma handler_stopped s i : OInv s → ¬ (¬ h_gone s i ∧ h_sta (hbs (obj s) i) = true) → evt (tm s) (h_tm i) = None.
Proof.
  intros HO Hs. destruct (evt (tm s) (h_tm i)) eqn:He; [|done]. exfalso. apply Hs.
  apply (hi_ok s (tcomp_get s HO) i). by exists z.
Qed.

Lemma handler_started s i : OInv s → ¬ h_gone s i → h_sta (hbs (obj s) i) = true → ∃ t, evt (tm s) (h_tm i) = Some t.
Proof. intros HO Hg Hs. by apply (hi_ok s (tcomp_get s HO) i). Qed.

Lemma handler_exists s i : OInv s → ¬ h_gone s i → i ∉ hfrees (obj s).
Proof. intros HO Hg Hi. by apply Hg, (hi_free s (tcomp_get s HO)). Qed.

Lemma handler_put g s m' i F v :
  Inv g s → at_block (tm s) m' (h_tm i) → ¬ h_gone s i → hchange i v (obj s) (F (obj s)) →
  (is_Some (evt m' (h_tm i)) ↔ v = true) →
  (is_Some (evt m' (h_tm i)) →
    callback (tm_tmevtb m' (h_tm i)) = h_cb ∧ arg (tm_tmevtb m' (h_tm i)) = i) →
  Inv g (upd_obj F (upd_tm (fun _ => m') s)).
Proof.
  intros HI Hat He [C1 C2 C3 C4 C5] Hreg Hcall. pose proof (handler_exists s i (i_obj _ _ _ HI) He) as Hfree.
  apply (handler_step g s m' i); try done; rewrite ?C2.
  - split; unfold h_gone in *; simpl; [|done]. rewrite C4, C5, Hreg. naive_solver.
  - done.
  - done.
  - apply (hi_nodup s (tcomp_get s (i_obj _ _ _ HI))).
Qed.

(** [if (sta) { sta = false; tmevtb_dequeue(&tmevtb); }] *)
Record h_stopped g s i s' : Prop := {
  hs_inv : Inv g s';
  hs_var : var s' = var s;
  hs_cpu : cpu s' = cpu s;
  hs_evt : evt (tm s') (h_tm i) = None;
  hs_sta : h_sta (hbs (obj s') i) = false;
  hs_gone : ¬ h_gone s' i }.

Lemma handler_stop_ok g s i F :
  Inv g s → ¬ h_gone s i → hchange i false (obj s) (F (obj s)) →
  ∃ s', (if h_sta (hbs (obj s) i) then upd (upd_obj F) ;;; tmevtb_dequeue (h_tm i) else ret ()) s = RET () s' ∧
    h_stopped g s i s'.
Proof.
  intros HI He Hc. destruct (h_sta (hbs (obj s) i)) eqn:Hs.
  - destruct (handler_started s i (i_obj _ _ _ HI) He Hs) as [t Ht].
    destruct (dequeue_at (upd_obj F s) (h_tm i) t) as (m' & E & Hat & Hev); [apply HI|exact Ht|].
    eexists. split; [exact E|]. split; try done; [|apply Hc|unfold h_gone in *; simpl; by rewrite (hc_atr _ _ _ _ Hc)].
    apply (handler_put g s m' i F false); try done; rewrite Hev; [split; [by intros []|done]|by intros []].
  - exists s. split; [done|]. split; try done. apply (handler_stopped s i (i_obj _ _ _ HI)). rewrite Hs. by intros [].
Qed.

(** [if (sta) tmevtb_dequeue(&tmevtb); else sta = true;] *)
Lemma handler_begin_ok g s i F :
  Inv g s → ¬ h_gone s i → hchange i true (obj s) (F (obj s)) →
  ∃ G m, (if h_sta (hbs (obj s) i) then tmevtb_dequeue (h_tm i) else upd (upd_obj F)) s =
      RET () (upd_obj G (upd_tm (fun _ => m) s)) ∧
    at_block (tm s) m (h_tm i) ∧ evt m (h_tm i) = None ∧ hchange i true (obj s) (G (obj s)).
Proof.
  intros HI He Hc. destruct (h_sta (hbs (obj s) i)) eqn:Hs.
  - destruct (handler_started s i (i_obj _ _ _ HI) He Hs) as [t Ht].
    destruct (dequeue_at s (h_tm i) t) as (m & E & Hat & Hev); [apply HI|exact Ht|].
    by exists (fun o => o), m.
  - exists F, (tm s). split_and!; [by destruct s|apply at_block_refl, HI| |done].
    apply (handler_stopped s i (i_obj _ _ _ HI)). rewrite Hs. by intros [].
Qed.

(** Registering the block of a handler that is not registered. *)
Lemma handler_register_ok g s i m m' G t :
  Inv g s → ¬ h_gone s i → at_block (tm s) m (h_tm i) → hchange i true (obj s) (G (obj s)) →
  registered m m' (h_tm i) t h_cb i → Inv g (upd_obj G (upd_tm (fun _ => m') s)).
Proof.
  intros HI He Hat Hc Hr. apply (handler_put g s m' i G true); try done.
  - eapply at_block_trans; [exact Hat|by eapply registered_at].
  - split; [done|]. intros _. by rewrite (rg_evt _ _ _ _ _ _ Hr).
  - intros _. by split; [apply Hr|apply Hr].
Qed.

(** Deleting a stopped handler. *)
Lemma handler_delete_ok g s i F :
  Inv g s → evt (tm s) (h_tm i) = None → ¬ h_gone s i → h_only (obj s) (F (obj s)) →
  hfrees (F (obj s)) = hfrees (obj s) ++ [i] → (∀ j, j ≠ i → hbs (F (obj s)) j = hbs (obj s) j) →
  h_atr (hbs (F (obj s)) i) = TA_NOEXS → Inv g (upd_obj F s).
Proof.
  intros HI Hev He HF Hfr Hj Ha. pose proof (handler_exists s i (i_obj _ _ _ HI) He) as Hfree.
  pose proof (tcomp_get s (i_obj _ _ _ HI)) as [H1 H2 H3].
  apply (handler_step g s (tm s) i F); try done; rewrite ?Hfr.
  - apply at_block_refl, HI.
  - split; simpl; rewrite Hev; [|by intros []]. unfold h_gone. simpl. rewrite Ha. split; [by intros []|naive_solver].
  - set_solver.
  - apply NoDup_app. split_and!; [done| |apply NoDup_singleton]. set_solver.
Qed.

(** A free block becomes a handler, [m'] registers it or not. *)
Lemma handler_create_ok g s i l m' F :
  Inv g s → hfrees (obj s) = i :: l → at_block (tm s) m' (h_tm i) → h_only (obj s) (F (obj s)) →
  hfrees (F (obj s)) = l → (∀ j, j ≠ i → hbs (F (obj s)) j = hbs (obj s) j) →
  handler_ok (upd_obj F (upd_tm (fun _ => m') s)) i → Inv g (upd_obj F (upd_tm (fun _ => m') s)).
Proof.
  intros HI Hl Hat HF Hfr Hj Hok. pose proof (tcomp_get s (i_obj _ _ _ HI)) as [H1 H2 H3].
  rewrite Hl in H3. apply NoDup_cons in H3 as [Hi Hnd].
  apply (handler_step g s m' i F); try done; rewrite ?Hfr; try done.
  intros j Hin _. rewrite Hl. by right.
Qed.

Lemma handler_free g s i l : Inv g s → hfrees (obj s) = i :: l → h_gone s i ∧ evt (tm s) (h_tm i) = None.
Proof.
  intros HI Hl. assert (Hg : h_gone s i).
  { apply (hi_free s (tcomp_get s (i_obj _ _ _ HI))). rewrite Hl. left. }
  split; [done|]. apply (handler_stopped s i (i_obj _ _ _ HI)). by intros [].
Qed.

(** After the user's handler: the CPU is locked again, the mask restored. *)
Lemma handler_return_ok s v (Q : () → State → Prop) :
  OK s → sense_context s = true → (∀ s', OK s' → in_int s' → same_time s s' → Q () s') →
  WP Q (((get s;; if negb (sense_lock s) then lock_cpu else ret ()) ;;; set_ipm v) s).
Proof.
  intros [g HI] Hc HQ.
  eapply wp_RET with (a := ()) (s' := upd_cpu (fun c => c <| c_lock := true |>) s).
  - unfold kget. destruct (sense_lock s) eqn:Hl; simpl; [|done]. unfold sense_lock in Hl.
    unfold ret. f_equal. destruct s as [? ? ? ? ? ? [] ? ?]; simpl in *. by subst.
  - simpl. apply HQ; [|by split|done]. apply (OK_cpu OInv); [|done]. apply (OK_cpu OInv); [|done]. by exists g.
Qed.
End calls.
End handler.
