(* ===== verification/Kmm.v ===== *)
(** * The memory the kernel allocates (kernel/startup.c)

    The region [kmm, kmm + kmmsz) is handed out from its end downwards and
    memory is never reused.  An address is a [Z], NULL is 0.  The second part
    is about the areas that objects keep in this memory or elsewhere. *)

From S2P Require Import Prelude Queue Data Kmonad TimeEvent Task Wait Core Release Service.
Open Scope Z_scope.

Section kmm.
Context {cfg : Config}.
Implicit Types (size : Z).

Definition set_kmm_brk (v : Z) : K () := upd (upd_obj (fun o => o <| o_kmm_brk := v |>)).

Definition initialize_kmm : K () := set_kmm_brk (kmm + kmmsz).

Definition kernel_malloc size : K Z :=
  get s;;
  if size <=? o_kmm_brk (obj s) - kmm then
    set_kmm_brk (o_kmm_brk (obj s) - size) ;;;
    get s;; ret (o_kmm_brk (obj s))
  else ret 0.

Definition kernel_free (ptr : Z) : K () := ret ().

Definition kmm_inv s : Prop := kmm ≤ o_kmm_brk (obj s) ≤ kmm + kmmsz.
Definition kmm_only (o o' : OBJ) : Prop := o' = o <| o_kmm_brk := o_kmm_brk o' |> ∧ o_kmm_brk o' ≤ o_kmm_brk o.

Lemma kmm_only_refl o : kmm_only o o.
Proof. split; [by destruct o|done]. Qed.

Lemma kmm_inv_obj s s' : o_kmm_brk (obj s') = o_kmm_brk (obj s) → kmm_inv s → kmm_inv s'.
Proof. unfold kmm_inv. by intros ->. Qed.

Lemma kernel_malloc_eq size s :
  kernel_malloc size s =
  RET (if size <=? o_kmm_brk (obj s) - kmm then o_kmm_brk (obj s) - size else 0)
    (if size <=? o_kmm_brk (obj s) - kmm
     then upd_obj (fun o => o <| o_kmm_brk := o_kmm_brk (obj s) - size |>) s else s).
Proof. unfold kernel_malloc, kget. by destruct (size <=? _). Qed.

(** Only the bound of the region moves. *)
Lemma kernel_malloc_ok (OInv : State → Prop) `{!Objects OInv}
    `{!Component OInv kmm_inv (fun _ => False) kmm_only} g s size :
  Inv OInv g s → 0 ≤ size →
  ∃ p s', kernel_malloc size s = RET p s' ∧ Inv OInv g s' ∧ var s' = var s ∧ cpu s' = cpu s ∧ wq s' = wq s ∧
    sch s' = sch s ∧ kmm_only (obj s) (obj s').
Proof.
  intros HI Hsz. rewrite kernel_malloc_eq. destruct (Z.leb_spec size (o_kmm_brk (obj s) - kmm)) as [Hle|Hle].
  - eexists _, _. split; [reflexivity|]. split_and!; try done; [|split; [done|simpl; lia]].
    eapply Inv_of; [exact HI| |done..]. apply (comp_upd OInv); [by apply Inv_Mid|split; [by destruct (obj s)|simpl; lia]| |].
    + intros q _. left. by destruct q.
    + pose proof (Inv_comp OInv g s HI) as Hk. unfold kmm_inv in *. simpl. lia.
  - eexists _, _. split; [reflexivity|]. split_and!; try done. apply kmm_only_refl.
Qed.

(** ** Areas of memory

    The management area of an object is known by its address.  [area i] is the
    area of object [i], if it has one: no two objects share an area, and none
    lies in the memory not yet handed out. *)
Record areas_ok (area : nat → option Z) (brk : Z) : Prop := {
  ar_free : ∀ i a, area i = Some a → ¬ kmm ≤ a < brk;
  ar_distinct : ∀ i j a, area i = Some a → area j = Some a → i = j }.

Definition fresh_area (area : nat → option Z) (brk a : Z) : Prop := ¬ kmm ≤ a < brk ∧ ∀ i, area i ≠ Some a.

Lemma areas_ok_less area area' brk brk' :
  areas_ok area brk → brk' ≤ brk → (∀ i a, area' i = Some a → area i = Some a) → areas_ok area' brk'.
Proof.
  intros [A1 A2] Hb H. split.
  - intros i a Ha%H%A1. lia.
  - intros i j a Hi%H Hj%H. by eapply A2.
Qed.

Lemma areas_ok_new area area' brk i a :
  areas_ok area brk → fresh_area area brk a → (∀ j, j ≠ i → area' j = area j) → area' i = Some a → areas_ok area' brk.
Proof.
  intros [A1 A2] [F1 F2] Hj Hi. split.
  - intros j b Hb. destruct (decide (j = i)) as [->|]; [|rewrite Hj in Hb by done; by eapply A1].
    rewrite Hi in Hb. by injection Hb as <-.
  - intros j1 j2 b H1 H2. destruct (decide (j1 = i)) as [->|N1], (decide (j2 = i)) as [->|N2]; [done|..].
    + rewrite Hi in H1. rewrite Hj in H2 by done. injection H1 as <-. by apply F2 in H2.
    + rewrite Hi in H2. rewrite Hj in H1 by done. injection H2 as <-. by apply F2 in H1.
    + rewrite Hj in H1, H2 by done. by eapply A2.
Qed.

Lemma fresh_area_less area brk brk' a : fresh_area area brk a → brk' ≤ brk → fresh_area area brk' a.
Proof. intros [F1 F2] Hb. split; [lia|done]. Qed.

(** Memory just handed out is a fresh area. *)
Lemma kernel_malloc_fresh area size s :
  areas_ok area (o_kmm_brk (obj s)) → 0 < size →
  let (p, s') := match kernel_malloc size s with RET p s' => (p, s') | _ => (0, s) end in
  p ≠ 0 → fresh_area area (o_kmm_brk (obj s')) p.
Proof.
  intros [A1 A2] Hsz. rewrite kernel_malloc_eq. destruct (Z.leb_spec size (o_kmm_brk (obj s) - kmm)); [|done].
  simpl. intros _. split; [lia|]. intros i Ha%A1. lia.
Qed.

Class Areas (OInv : State → Prop) (area : OBJ → nat → option Z) := {
  areas_get : ∀ s, OInv s → areas_ok (area (obj s)) (o_kmm_brk (obj s));
  areas_obj : ∀ o b, area (o <| o_kmm_brk := b |>) = area o }.

(** The area of a new object, from the kernel ([b]) or given by the caller. *)
Lemma area_malloc_ok (OInv : State → Prop) area `{!Objects OInv} `{!Areas OInv area}
    `{!Component OInv kmm_inv (fun _ => False) kmm_only} (b : bool) g s sz v :
  Inv OInv g s → 0 ≤ sz →
  ∃ p s', (if b then kernel_malloc sz else ret v) s = RET p s' ∧ Inv OInv g s' ∧ var s' = var s ∧ cpu s' = cpu s ∧
    wq s' = wq s ∧ sch s' = sch s ∧ kmm_only (obj s) (obj s') ∧
    (0 < sz → p ≠ 0 → (b = false → fresh_area (area (obj s)) (o_kmm_brk (obj s)) v) →
      fresh_area (area (obj s')) (o_kmm_brk (obj s')) p) ∧ (b = false → p = v).
Proof.
  intros HI Hsz. destruct b.
  - destruct (kernel_malloc_ok OInv g s sz HI Hsz) as (p & s' & E & HI' & Hv & Hc & Hq & Hs & Ho).
    exists p, s'. split_and!; try done. intros Hpos Hp _.
    pose proof (kernel_malloc_fresh (area (obj s)) sz s (areas_get s (i_obj _ _ _ HI)) Hpos) as HF. rewrite E in HF.
    destruct Ho as [Ho _]. rewrite Ho, areas_obj. apply HF, Hp.
  - exists v, s. split_and!; try done; [apply kmm_only_refl|auto].
Qed.
End kmm.
