(* ===== verification/Semaphore.v ===== *)
(** * Semaphores (kernel/semaphore.c, semaphore.h) *)

From S2P Require Import Prelude Queue Data Kmonad TimeEvent Task Wait Core Release Service Object.
Open Scope Z_scope.

Record T_CSEM := mkT_CSEM { c_sematr : Z; c_isemcnt : Z; c_maxsem : Z }.
Record T_RSEM := mkT_RSEM { r_sem_wtskid : Z; r_semcnt : Z }.

Section semaphore.
Context {cfg : Config}.
Implicit Types (semid : Z) (i : nat).

Definition tnum_sem : nat := tnum tmax_semid.
Definition tnum_ssem : nat := tnum tmax_ssemid.

Definition upd_sem i (f : SEMCB → SEMCB) : K () :=
  upd (upd_obj (fun o => o <| o_semcb ::= fun T => <[i := f (T i)]> T |>)).
Definition set_free_sem (f : list nat → list nat) : K () :=
  upd (upd_obj (fun o => o <| o_free_semcb ::= f |>)).
Definition set_sematr i (atr : Z) : K () :=
  upd_sem i (fun C => C <| p_seminib ::= fun I => I <| sematr := atr |> |>).
Definition set_semcnt i (n : Z) : K () := upd_sem i (fun C => C <| semcnt := n |>).

Definition initialize_semaphore : K () :=
  kfor (seq 0 tnum_ssem) (fun i =>
    queue_initialize (SEMQ i) ;;;
    upd_sem i (fun C => C <| p_seminib := seminib_table i |>) ;;;
    get s;; set_semcnt i (isemcnt (p_seminib (semcb s i)))) ;;;
  set_free_sem (fun _ => []) ;;;
  kfor (seq tnum_ssem (tnum_sem - tnum_ssem)) (fun i =>
    set_sematr i TA_NOEXS ;;;
    set_free_sem (fun l => l ++ [i])).

Definition acre_sem (pk_csem : T_CSEM) : K Z :=
  ! CHECK_TSKCTX_UNL ;;
  ! CHECK_RSATR (c_sematr pk_csem) TA_TPRI ;;
  ! CHECK_PAR ((0 <=? c_isemcnt pk_csem) && (c_isemcnt pk_csem <=? c_maxsem pk_csem)) ;;
  ! CHECK_PAR ((1 <=? c_maxsem pk_csem) && (c_maxsem pk_csem <=? TMAX_MAXSEM)) ;;
  lock_cpu ;;;
  ercd <- (get s;;
    if (tnum_sem =? 0)%nat || no_free (o_free_semcb (obj s)) then ret E_NOID
    else
      i <- take_free o_free_semcb set_free_sem ;;
      upd_sem i (fun C => C <| p_seminib :=
        mkSEMINIB (c_sematr pk_csem) (c_isemcnt pk_csem) (c_maxsem pk_csem) |>) ;;;
      queue_initialize (SEMQ i) ;;;
      get s;; set_semcnt i (isemcnt (p_seminib (semcb s i))) ;;;
      ret (IDOF i)) ;;
  unlock_cpu ;;;
  ret ercd.

Definition del_sem semid : K Z :=
  ! CHECK_TSKCTX_UNL ;;
  ! CHECK_SEMID semid ;;
  let i := INDEX semid in
  lock_cpu ;;;
  ercd <- (get s;;
    if sematr (p_seminib (semcb s i)) =? TA_NOEXS then ret E_NOEXS
    else if tmax_ssemid <? IDOF i then
      dspreq <- init_wait_queue (SEMQ i) ;;
      set_sematr i TA_NOEXS ;;;
      set_free_sem (fun l => l ++ [i]) ;;;
      (if dspreq : bool then dispatch else ret ()) ;;;
      ret E_OK
    else ret E_OBJ) ;;
  unlock_cpu ;;;
  ret ercd.

Definition sig_sem semid : K Z :=
  ! CHECK_TSKCTX_UNL ;;
  ! CHECK_SEMID semid ;;
  let i := INDEX semid in
  lock_cpu ;;;
  ercd <- (get s;;
    if sematr (p_seminib (semcb s i)) =? TA_NOEXS then ret E_NOEXS
    else if negb (queue_empty (SEMQ i) s) then
      p_tcb <- queue_delete_next (SEMQ i) ;;
      b <- wait_complete p_tcb ;;
      (if b : bool then dispatch else ret ()) ;;;
      ret E_OK
    else if semcnt (semcb s i) <? maxsem (p_seminib (semcb s i)) then
      set_semcnt i (u32 (semcnt (semcb s i) + 1)) ;;;
      ret E_OK
    else ret E_QOVR) ;;
  unlock_cpu ;;;
  ret ercd.

Definition isig_sem semid : K Z :=
  ! CHECK_INTCTX_UNL ;;
  ! CHECK_SEMID semid ;;
  let i := INDEX semid in
  lock_cpu ;;;
  ercd <- (get s;;
    if sematr (p_seminib (semcb s i)) =? TA_NOEXS then ret E_NOEXS
    else if negb (queue_empty (SEMQ i) s) then
      p_tcb <- queue_delete_next (SEMQ i) ;;
      b <- wait_complete p_tcb ;;
      (if b : bool then set_reqflg true else ret ()) ;;;
      ret E_OK
    else if semcnt (semcb s i) <? maxsem (p_seminib (semcb s i)) then
      set_semcnt i (u32 (semcnt (semcb s i) + 1)) ;;;
      ret E_OK
    else ret E_QOVR) ;;
  unlock_cpu ;;;
  ret ercd.

Definition wai_sem semid : K Z :=
  ! CHECK_DISPATCH ;;
  ! CHECK_SEMID semid ;;
  let i := INDEX semid in
  lock_cpu ;;;
  ercd <- (get s;;
    if sematr (p_seminib (semcb s i)) =? TA_NOEXS then ret E_NOEXS
    else if 1 <=? semcnt (semcb s i) then
      set_semcnt i (u32 (semcnt (semcb s i) - 1)) ;;;
      ret E_OK
    else
      winfo_sem <- new_winfo ;;
      get s;; the t := p_runtsk s ;;
      set_tstat t (Z.lor TS_WAITING TS_WAIT_SEM) ;;;
      wobj_make_wait (SEMQ i) winfo_sem ;;;
      dispatch ;;;
      get_wercd winfo_sem) ;;
  unlock_cpu ;;;
  ret ercd.

Definition pol_sem semid : K Z :=
  ! CHECK_TSKCTX_UNL ;;
  ! CHECK_SEMID semid ;;
  let i := INDEX semid in
  lock_cpu ;;;
  ercd <- (get s;;
    if sematr (p_seminib (semcb s i)) =? TA_NOEXS then ret E_NOEXS
    else if 1 <=? semcnt (semcb s i) then
      set_semcnt i (u32 (semcnt (semcb s i) - 1)) ;;;
      ret E_OK
    else ret E_TMOUT) ;;
  unlock_cpu ;;;
  ret ercd.

Definition twai_sem semid (tmout : Z) : K Z :=
  ! CHECK_DISPATCH ;;
  ! CHECK_SEMID semid ;;
  ! CHECK_TMOUT tmout ;;
  let i := INDEX semid in
  lock_cpu ;;;
  ercd <- (get s;;
    if sematr (p_seminib (semcb s i)) =? TA_NOEXS then ret E_NOEXS
    else if 1 <=? semcnt (semcb s i) then
      set_semcnt i (u32 (semcnt (semcb s i) - 1)) ;;;
      ret E_OK
    else if tmout =? TMO_POL then ret E_TMOUT
    else
      winfo_sem <- new_winfo ;;
      get s;; the t := p_runtsk s ;;
      set_tstat t (Z.lor TS_WAITING TS_WAIT_SEM) ;;;
      wobj_make_wait_tmout (SEMQ i) winfo_sem tmout ;;;
      dispatch ;;;
      get_wercd winfo_sem) ;;
  unlock_cpu ;;;
  ret ercd.

Definition ini_sem semid : K Z :=
  ! CHECK_TSKCTX_UNL ;;
  ! CHECK_SEMID semid ;;
  let i := INDEX semid in
  lock_cpu ;;;
  ercd <- (get s;;
    if sematr (p_seminib (semcb s i)) =? TA_NOEXS then ret E_NOEXS
    else
      dspreq <- init_wait_queue (SEMQ i) ;;
      get s;; set_semcnt i (isemcnt (p_seminib (semcb s i))) ;;;
      (if dspreq : bool then dispatch else ret ()) ;;;
      ret E_OK) ;;
  unlock_cpu ;;;
  ret ercd.

Definition ref_sem semid : K (Z * option T_RSEM) :=
  ! CHECK_TSKCTX_UNL ;;
  ! CHECK_SEMID semid ;;
  let i := INDEX semid in
  lock_cpu ;;;
  r <- (get s;;
    if sematr (p_seminib (semcb s i)) =? TA_NOEXS then ret (E_NOEXS, None)
    else ret (E_OK, Some (mkT_RSEM (wait_tskid (SEMQ i) s) (semcnt (semcb s i))))) ;;
  unlock_cpu ;;;
  ret r.

(** ** The invariant

    The count is in its range, and nobody waits while there is a resource. *)
Definition sem_ok (C : SEMCB) (l : list nat) : Prop :=
  0 ≤ semcnt C ≤ maxsem (p_seminib C) ∧
  0 ≤ isemcnt (p_seminib C) ≤ maxsem (p_seminib C) ∧
  maxsem (p_seminib C) ≤ TMAX_MAXSEM ∧
  (l ≠ [] → semcnt C = 0).

Lemma sem_ok_shrink C l l' : (∀ x, x ∈ l' → x ∈ l) → sem_ok C l → sem_ok C l'.
Proof.
  intros Hsub (H1 & H2 & H3 & H4). split_and!; try done; try lia. intros Hl. apply H4. intros ->.
  destruct l' as [|x l']; [done|]. by destruct (not_elem_of_nil x); apply Hsub; left.
Qed.

(** The count neither overflows nor underflows. *)
Lemma sem_ok_inc C :
  sem_ok C [] → (semcnt C <? maxsem (p_seminib C)) = true →
  sem_ok (C <| semcnt := u32 (semcnt C + 1) |>) [].
Proof.
  intros (O1 & O2 & O3 & _) Hc. unfold sem_ok, TMAX_MAXSEM, u32 in *. simpl.
  rewrite Z.mod_small by lia. by split_and!; try lia.
Qed.

Lemma sem_ok_dec C l :
  sem_ok C l → (1 <=? semcnt C) = true → sem_ok (C <| semcnt := u32 (semcnt C - 1) |>) l.
Proof.
  intros (O1 & O2 & O3 & O4) Hc. unfold sem_ok, TMAX_MAXSEM, u32 in *. simpl.
  rewrite Z.mod_small by lia. split_and!; try done; try lia. intros Hl. specialize (O4 Hl). lia.
Qed.

Lemma sem_ok_reset C l : sem_ok C l → sem_ok (C <| semcnt := isemcnt (p_seminib C) |>) [].
Proof. intros (O1 & O2 & O3 & O4). unfold sem_ok. simpl. by split_and!; try lia. Qed.

#[export] Instance sem_kind : Kind SEMCB.
Proof.
  refine {| cbs := o_semcb; frees := o_free_semcb; cb_atr := fun C => sematr (p_seminib C);
    cb_queue := SEMQ; cb_of := fun q => match q with SEMQ i => Some i | _ => None end;
    cb_only := fun o o' => o' = o <| o_semcb := o_semcb o' |> <| o_free_semcb := o_free_semcb o' |>;
    cb_ok := fun s i => sem_ok (semcb s i) (wq s (SEMQ i)) |}.
  - intros s q i Hq. by destruct q; simplify_eq.
  - intros F s q Hq Hon. destruct q; simpl in *; try rewrite Hon; done.
  - done.
  - intros TR Y P s s' i X HF HX ->. apply sem_ok_shrink. intros x Hx. by apply (fr_queue _ _ _ _ HF (SEMQ i) x), HX.
  - by intros [].
  - intros q i Hq. by destruct q.
Defined.
Notation sem_inv := (kind_inv (kd := sem_kind)).

Section calls.
Context (OInv : State → Prop) `{!Objects OInv}.
Context `{!Component OInv sem_inv (kind_own (kd := sem_kind)) (cb_only (Kind := sem_kind))}.
Notation WP := (wp (rely OInv) (guar OInv)).
Notation Inv := (Inv OInv).
Notation OK := (OK OInv).
Notation Mid := (Mid OInv).

Lemma sem_exists s i :
  OInv s → sematr (p_seminib (semcb s i)) ≠ TA_NOEXS →
  i ∉ o_free_semcb (obj s) ∧ sem_ok (semcb s i) (wq s (SEMQ i)) ∧ header_ok s (SEMQ i) = true.
Proof. intros HO. apply (kind_exists (kd := sem_kind)), comp_get, HO. Qed.

Lemma sem_put g s i f :
  Mid g s → i ∉ o_free_semcb (obj s) → p_seminib (f (semcb s i)) = p_seminib (semcb s i) →
  sem_ok (f (semcb s i)) (wq s (SEMQ i)) →
  Mid g (upd_obj (fun o => o <| o_semcb ::= fun T => <[i := f (T i)]> T |>) s).
Proof.
  intros HM Hfree Ha Hok. apply (kind_put (kd := sem_kind) OInv g s i); try done; cb_lookup.
  - intros j Hne. cb_lookup.
  - by rewrite Ha.
  - pose proof (Mid_comp OInv g s HM) as [C1 _ _]. destruct (C1 i) as [C2 _]. split.
    + unfold gone. cb_lookup. rewrite Ha. apply C2.
    + intros _. cb_lookup.
Qed.

Lemma sem_put_inv g s i f :
  Inv g s → i ∉ o_free_semcb (obj s) → p_seminib (f (semcb s i)) = p_seminib (semcb s i) →
  sem_ok (f (semcb s i)) (wq s (SEMQ i)) →
  ∃ s', upd_sem i f s = RET () s' ∧ Inv g s' ∧ var s' = var s ∧ cpu s' = cpu s.
Proof.
  intros HI Hfree Ha Hok. eexists. split; [reflexivity|]. split; [|done].
  eapply Inv_of; [done|by apply sem_put; [by apply Inv_Mid|..]|done..].
Qed.

(** Every call begins with the test whether the semaphore exists. *)
Ltac sem_begin s1 semid HI He Hfree Hok Hhd :=
  destruct (Z.eqb_spec (sematr (p_seminib (semcb s1 (INDEX semid)))) TA_NOEXS) as [He|He]; [svc_ret|];
  destruct (sem_exists s1 (INDEX semid) (i_obj _ _ _ HI) He) as (Hfree & Hok & Hhd);
  set (i := INDEX semid) in *.

Lemma sig_sem_ok semid : call_ok OInv (sig_sem semid).
Proof.
  intros s HOK. unfold sig_sem. task_call g t s1 HI Hin Ht Hd. sem_begin s1 semid HI He Hfree Hok Hhd.
  unfold queue_empty, Fam.queue_empty. destruct (wq s1 (SEMQ i)) as [|x l] eqn:Hq; simpl.
  - destruct (semcnt (semcb s1 i) <? maxsem (p_seminib (semcb s1 i))) eqn:Hc; [|svc_ret].
    destruct (sem_put_inv g s1 i (fun C => C <| semcnt := u32 (semcnt (semcb s1 i) + 1) |>) HI Hfree)
      as (s2 & E & HI2 & Hv & Hcp); [done|rewrite Hq; by apply sem_ok_inc|].
    eapply wp_RET; [exact E|]. split; [by exists g|by eapply in_task_same].
  - destruct (wake_head_ok OInv g s1 (SEMQ i) x l HI eq_refl Hq)
      as (b & s2 & E & Hp).
    rewrite (bind2_RET _ _ _ _ _ _ E). apply wp_bind.
    eapply progress_dispatch; [done..|]. intros s3 H3 H4. svc_ret.
Qed.

Lemma isig_sem_ok semid : call_ok OInv (isig_sem semid).
Proof.
  intros s HOK. unfold isig_sem. int_call g s1 HI Hin. sem_begin s1 semid HI He Hfree Hok Hhd.
  unfold queue_empty, Fam.queue_empty. destruct (wq s1 (SEMQ i)) as [|x l] eqn:Hq; simpl.
  - destruct (semcnt (semcb s1 i) <? maxsem (p_seminib (semcb s1 i))) eqn:Hc; [|svc_ret].
    destruct (sem_put_inv g s1 i (fun C => C <| semcnt := u32 (semcnt (semcb s1 i) + 1) |>) HI Hfree)
      as (s2 & E & HI2 & Hv & Hcp); [done|rewrite Hq; by apply sem_ok_inc|].
    eapply wp_RET; [exact E|]. split; [by exists g|by eapply in_int_same].
  - destruct (wake_head_ok OInv g s1 (SEMQ i) x l HI eq_refl Hq)
      as (b & s2 & E & Hp).
    rewrite (bind2_RET _ _ _ _ _ _ E). apply wp_bind.
    eapply progress_reqflg; [done..|]. intros s3 H3 H4. svc_ret.
Qed.

(** Taking a resource, and entering the queue when there is none. *)
Lemma sem_take g t s i :
  Inv g s → in_task t s → i ∉ o_free_semcb (obj s) → sem_ok (semcb s i) (wq s (SEMQ i)) →
  (1 <=? semcnt (semcb s i)) = true →
  WP (fun _ s' => OK s' ∧ in_task t s') ((set_semcnt i (u32 (semcnt (semcb s i) - 1)) ;;; ret E_OK) s).
Proof.
  intros HI Hin Hfree Hok Hc.
  destruct (sem_put_inv g s i (fun C => C <| semcnt := u32 (semcnt (semcb s i) - 1) |>) HI Hfree)
    as (s2 & E & HI2 & Hv & Hcp); [done|by apply sem_ok_dec|].
  eapply wp_RET; [exact E|]. split; [by exists g|by eapply in_task_same].
Qed.

Lemma sem_enter s s' i :
  OInv s → sematr (p_seminib (semcb s i)) ≠ TA_NOEXS → (1 <=? semcnt (semcb s i)) = false →
  tframe (fun q => q = SEMQ i) s s' → OInv s'.
Proof.
  intros HO He Hc HF. destruct (sem_exists s i HO He) as (Hfree & (O1 & O2 & O3 & O4) & _).
  pose proof (fr_obj _ _ _ _ HF) as Ho.
  eapply (kind_move (kd := sem_kind) OInv _ _ _ i _ HO HF); simpl; rewrite <- ?Ho; try done.
  - by intros q ->.
  - by destruct (obj s).
  - split; unfold gone; simpl; rewrite <- Ho; [done|]. intros _. split_and!; try done; lia.
Qed.

Lemma pol_sem_ok semid : call_ok OInv (pol_sem semid).
Proof.
  intros s HOK. unfold pol_sem. task_call g t s1 HI Hin Ht Hd. sem_begin s1 semid HI He Hfree Hok Hhd.
  destruct (1 <=? semcnt (semcb s1 i)) eqn:Hc; [by eapply sem_take|svc_ret].
Qed.

Lemma wai_sem_ok semid : call_ok OInv (wai_sem semid).
Proof.
  intros s HOK. unfold wai_sem. task_call g t s1 HI Hin Ht Hd. sem_begin s1 semid HI He Hfree Hok Hhd.
  destruct (1 <=? semcnt (semcb s1 i)) eqn:Hc; [by eapply sem_take|].
  destruct (new_winfo_ok OInv g s1 t HI Hin Ht) as (s2 & w & E & Hsl & HF & _); [congruence|].
  eapply wp_RET; [exact E|]. apply (wobj_sleep_ok OInv g s2 t w (SEMQ i)); [done| | |done].
  - intros g' s' Hb. eapply (sem_enter s1); [apply HI|done..|]. by eapply blocked_frame.
  - intros s' HOK' Hin' Hw. apply get_wercd_ok; [done|]. by split.
Qed.

Lemma twai_sem_ok semid tmout : tmout ≤ TMAX_RELTIM → call_ok OInv (twai_sem semid tmout).
Proof.
  intros Hmax s HOK. unfold twai_sem. task_call g t s1 HI Hin Ht Hd. sem_begin s1 semid HI He Hfree Hok Hhd.
  destruct (1 <=? semcnt (semcb s1 i)) eqn:Hc; [by eapply sem_take|].
  destruct (Z.eqb_spec tmout TMO_POL) as [Hp|Hp]; [svc_ret|].
  destruct (new_winfo_ok OInv g s1 t HI Hin Ht) as (s2 & w & E & Hsl & HF & _); [congruence|].
  eapply wp_RET; [exact E|].
  apply (wobj_sleep_tmout_ok OInv g s2 t w (SEMQ i)); [done| | |done|unfold TMO_FEVR in *; lia|done].
  - intros g' s' Hb. eapply (sem_enter s1); [apply HI|done..|]. by eapply blocked_frame.
  - intros s' HOK' Hin' Hw. apply get_wercd_ok; [done|]. by split.
Qed.

Lemma ini_sem_ok semid : call_ok OInv (ini_sem semid).
Proof.
  intros s HOK. unfold ini_sem. task_call g t s1 HI Hin Ht Hd. sem_begin s1 semid HI He Hfree Hok Hhd.
  destruct (init_queue_ok OInv g s1 (SEMQ i) (Inv_Mid _ _ _ HI) eq_refl Hhd) as (b & g' & s2 & E & HM & HF & Hw & Hnil & Hr).
  rewrite (bind_RET _ _ _ _ _ E). unfold kget. pose proof (fr_obj _ _ _ _ HF) as Ho. rewrite <- Ho.
  eapply wp_RET; [reflexivity|]. apply wp_bind.
  eapply dispatch_if_ok; [exact HI|exact Hin|exact Ht| |by apply Hr|apply HF|apply HF|exact Hw|].
  - apply (sem_put g' s2 i (fun C => C <| semcnt := isemcnt (p_seminib (semcb s1 i)) |>) HM); [by rewrite <- Ho|done|].
    rewrite Hnil, <- Ho. by eapply sem_ok_reset.
  - intros s3 H3 H4. svc_ret.
Qed.

Lemma del_sem_ok semid : call_ok OInv (del_sem semid).
Proof.
  intros s HOK. unfold del_sem. task_call g t s1 HI Hin Ht Hd. sem_begin s1 semid HI He Hfree Hok Hhd.
  destruct (tmax_ssemid <? IDOF i); [|svc_ret].
  destruct (init_queue_ok OInv g s1 (SEMQ i) (Inv_Mid _ _ _ HI) eq_refl Hhd) as (b & g' & s2 & E & HM & HF & Hw & Hnil & Hr).
  rewrite (bind_RET _ _ _ _ _ E). pose proof (fr_obj _ _ _ _ HF) as Ho.
  eapply wp_RET; [reflexivity|]. eapply wp_RET; [reflexivity|]. apply wp_bind.
  eapply dispatch_if_ok; [exact HI|exact Hin|exact Ht| |by apply Hr|apply HF|apply HF|exact Hw|].
  - eapply (kind_delete (kd := sem_kind) OInv g' s2 i (fun o => _) HM); cb_lookup; rewrite <- ?Ho; try done.
    + intros q Hq. destruct q; simpl in Hq; simplify_eq; done.
    + intros j Hne. cb_lookup.
  - intros s3 H3 H4. svc_ret.
Qed.

Lemma acre_sem_ok pk : call_ok OInv (acre_sem pk).
Proof.
  intros s HOK. unfold acre_sem. task_call g t s1 HI Hin Ht Hd. split_ctx.
  destruct (tnum_sem =? 0)%nat; [svc_ret|]. simpl.
  destruct (o_free_semcb (obj s1)) as [|i l] eqn:Hl; [svc_ret|]. simpl.
  pose proof (Inv_comp OInv g s1 HI) as Hsem.
  assert (Hnil : wq s1 (SEMQ i) = []) by (by eapply (kind_free_no_waiter (kd := sem_kind))).
  destruct (init_empty_queue_ok OInv g s1 (SEMQ i) (Inv_Mid _ _ _ HI) Hnil) as [HM Hnil2].
  eapply wp_RET; [by apply take_free_eq|]. repeat (eapply wp_RET; [reflexivity|]). split; [|done]. exists g.
  apply (Inv_of OInv g s1); [done| |done..].
  eapply (kind_create (kd := sem_kind) OInv g _ i l (fun o => _) HM); [done|by destruct (obj s1)|done| |].
  - intros j Hne. cb_lookup.
  - intros Hno. apply kind_ok_intro; unfold gone; cb_lookup; [by eapply rsatr_exists|].
    change (sem_ok (mkSEMCB (mkSEMINIB (c_sematr pk) (c_isemcnt pk) (c_maxsem pk)) (c_isemcnt pk))
      (wq (upd_wq (Fam.queue_initialize (SEMQ i)) s1) (SEMQ i))).
    rewrite Hnil2. split_and!; simpl; lia || done.
Qed.

Lemma ref_sem_ok semid : call_ok OInv (ref_sem semid).
Proof.
  intros s HOK. unfold ref_sem. task_call g t s1 HI Hin Ht Hd. case_match; svc_ret.
Qed.
End calls.
End semaphore.
