(* ===== verification/Eventflag.v ===== *)
(** * Event flags (kernel/eventflag.c, eventflag.h) *)

From S2P Require Import Prelude Queue Data Kmonad TimeEvent Task Wait Core Release Service Object.
Open Scope Z_scope.

Record T_CFLG := mkT_CFLG { c_flgatr : Z; c_iflgptn : Z }.
Record T_RFLG := mkT_RFLG { r_flg_wtskid : Z; r_flgptn : Z }.

Section eventflag.
Context {cfg : Config}.
Implicit Types (flgid waiptn wfmode setptn clrptn tmout : Z) (i : nat).

Definition tnum_flg : nat := tnum tmax_flgid.
Definition tnum_sflg : nat := tnum tmax_sflgid.

Definition upd_flg i (f : FLGCB → FLGCB) : K () :=
  upd (upd_obj (fun o => o <| o_flgcb ::= fun T => <[i := f (T i)]> T |>)).
Definition set_free_flg (f : list nat → list nat) : K () :=
  upd (upd_obj (fun o => o <| o_free_flgcb ::= f |>)).
Definition set_flgatr i (atr : Z) : K () :=
  upd_flg i (fun C => C <| p_flginib ::= fun I => I <| flgatr := atr |> |>).
Definition set_flgptn i (n : Z) : K () := upd_flg i (fun C => C <| flgptn := n |>).

Definition initialize_eventflag : K () :=
  kfor (seq 0 tnum_sflg) (fun i =>
    queue_initialize (FLGQ i) ;;;
    upd_flg i (fun C => C <| p_flginib := flginib_table i |>) ;;;
    get s;; set_flgptn i (iflgptn (p_flginib (flgcb s i)))) ;;;
  set_free_flg (fun _ => []) ;;;
  kfor (seq tnum_sflg (tnum_flg - tnum_sflg)) (fun i =>
    set_flgatr i TA_NOEXS ;;;
    set_free_flg (fun l => l ++ [i])).

Definition flg_cond (C : FLGCB) waiptn wfmode : bool :=
  if bits wfmode TWF_ORW then bits (flgptn C) waiptn
  else Z.land (flgptn C) waiptn =? waiptn.

(** [Some ptn] is the return of true with [*p_flgptn = ptn]. *)
Definition check_flg_cond i waiptn wfmode : K (option Z) :=
  get s;;
  if flg_cond (flgcb s i) waiptn wfmode then
    (if bits (flgatr (p_flginib (flgcb s i))) TA_CLR then set_flgptn i 0 else ret ()) ;;;
    ret (Some (flgptn (flgcb s i)))
  else ret None.

Definition acre_flg (pk_cflg : T_CFLG) : K Z :=
  ! CHECK_TSKCTX_UNL ;;
  ! CHECK_RSATR (c_flgatr pk_cflg) (Z.lor TA_TPRI (Z.lor TA_WMUL TA_CLR)) ;;
  lock_cpu ;;;
  ercd <- (get s;;
    if (tnum_flg =? 0)%nat || no_free (o_free_flgcb (obj s)) then ret E_NOID
    else
      i <- take_free o_free_flgcb set_free_flg ;;
      upd_flg i (fun C => C <| p_flginib := mkFLGINIB (c_flgatr pk_cflg) (c_iflgptn pk_cflg) |>) ;;;
      queue_initialize (FLGQ i) ;;;
      get s;; set_flgptn i (iflgptn (p_flginib (flgcb s i))) ;;;
      ret (IDOF i)) ;;
  unlock_cpu ;;;
  ret ercd.

Definition del_flg flgid : K Z :=
  ! CHECK_TSKCTX_UNL ;;
  ! CHECK_FLGID flgid ;;
  let i := INDEX flgid in
  lock_cpu ;;;
  ercd <- (get s;;
    if flgatr (p_flginib (flgcb s i)) =? TA_NOEXS then ret E_NOEXS
    else if tmax_sflgid <? IDOF i then
      dspreq <- init_wait_queue (FLGQ i) ;;
      set_flgatr i TA_NOEXS ;;;
      set_free_flg (fun l => l ++ [i]) ;;;
      (if dspreq : bool then dispatch else ret ()) ;;;
      ret E_OK
    else ret E_OBJ) ;;
  unlock_cpu ;;;
  ret ercd.

(** The loop of [set_flg] and [iset_flg] over the wait queue, [woken] what it
    does when a release asks for a dispatch.  The cursor has read the link of
    an entry before the entry is taken off the queue and no other entry is
    taken off, so it runs over the tasks that were in the queue at first. *)
Fixpoint set_flg_loop (woken : K ()) i (l : list nat) (dspreq : bool) : K bool :=
  match l with
  | [] => ret dspreq
  | p_tcb :: l =>
      get s;; the w := p_winfo (tcb_table s p_tcb) ;;
      r <- check_flg_cond i (w_waiptn (winfos s w)) (w_wfmode (winfos s w)) ;;
      match r with
      | Some ptn =>
          upd (upd_winfo w (fun W => W <| w_flgptn := ptn |>)) ;;;
          queue_delete p_tcb ;;;
          b <- wait_complete p_tcb ;;
          (if b : bool then woken else ret ()) ;;;
          get s;;
          if bits (flgatr (p_flginib (flgcb s i))) TA_CLR then ret (b || dspreq)
          else set_flg_loop woken i l (b || dspreq)
      | None => set_flg_loop woken i l dspreq
      end
  end.

Definition set_flg flgid setptn : K Z :=
  ! CHECK_TSKCTX_UNL ;;
  ! CHECK_FLGID flgid ;;
  let i := INDEX flgid in
  lock_cpu ;;;
  ercd <- (get s;;
    if flgatr (p_flginib (flgcb s i)) =? TA_NOEXS then ret E_NOEXS
    else
      set_flgptn i (Z.lor (flgptn (flgcb s i)) setptn) ;;;
      get s;; dspreq <- set_flg_loop (ret ()) i (wq s (FLGQ i)) false ;;
      (if dspreq : bool then dispatch else ret ()) ;;;
      ret E_OK) ;;
  unlock_cpu ;;;
  ret ercd.

Definition iset_flg flgid setptn : K Z :=
  ! CHECK_INTCTX_UNL ;;
  ! CHECK_FLGID flgid ;;
  let i := INDEX flgid in
  lock_cpu ;;;
  ercd <- (get s;;
    if flgatr (p_flginib (flgcb s i)) =? TA_NOEXS then ret E_NOEXS
    else
      set_flgptn i (Z.lor (flgptn (flgcb s i)) setptn) ;;;
      get s;; set_flg_loop (set_reqflg true) i (wq s (FLGQ i)) false ;;;
      ret E_OK) ;;
  unlock_cpu ;;;
  ret ercd.

Definition clr_flg flgid clrptn : K Z :=
  ! CHECK_TSKCTX_UNL ;;
  ! CHECK_FLGID flgid ;;
  let i := INDEX flgid in
  lock_cpu ;;;
  ercd <- (get s;;
    if flgatr (p_flginib (flgcb s i)) =? TA_NOEXS then ret E_NOEXS
    else
      set_flgptn i (Z.land (flgptn (flgcb s i)) clrptn) ;;;
      ret E_OK) ;;
  unlock_cpu ;;;
  ret ercd.

(** The result of a call that has waited: the pattern when it was released. *)
Definition flg_result w : K (Z * option Z) :=
  ercd <- get_wercd w ;;
  get s;; ret (ercd, if ercd =? E_OK then Some (w_flgptn (winfos s w)) else None).

Definition wai_flg flgid waiptn wfmode : K (Z * option Z) :=
  ! CHECK_DISPATCH ;;
  ! CHECK_FLGID flgid ;;
  ! CHECK_PAR (negb (waiptn =? 0)) ;;
  ! CHECK_PAR ((wfmode =? TWF_ORW) || (wfmode =? TWF_ANDW)) ;;
  let i := INDEX flgid in
  lock_cpu ;;;
  r <- (get s;;
    if flgatr (p_flginib (flgcb s i)) =? TA_NOEXS then ret (E_NOEXS, None)
    else if negb (bits (flgatr (p_flginib (flgcb s i))) TA_WMUL) && negb (queue_empty (FLGQ i) s)
    then ret (E_ILUSE, None)
    else
      c <- check_flg_cond i waiptn wfmode ;;
      match c with
      | Some ptn => ret (E_OK, Some ptn)
      | None =>
          winfo_flg <- new_winfo ;;
          upd (upd_winfo winfo_flg (fun W => W <| w_waiptn := waiptn |> <| w_wfmode := wfmode |>)) ;;;
          get s;; the t := p_runtsk s ;;
          set_tstat t (Z.lor TS_WAITING TS_WAIT_FLG) ;;;
          wobj_make_wait (FLGQ i) winfo_flg ;;;
          dispatch ;;;
          flg_result winfo_flg
      end) ;;
  unlock_cpu ;;;
  ret r.

Definition pol_flg flgid waiptn wfmode : K (Z * option Z) :=
  ! CHECK_TSKCTX_UNL ;;
  ! CHECK_FLGID flgid ;;
  ! CHECK_PAR (negb (waiptn =? 0)) ;;
  ! CHECK_PAR ((wfmode =? TWF_ORW) || (wfmode =? TWF_ANDW)) ;;
  let i := INDEX flgid in
  lock_cpu ;;;
  r <- (get s;;
    if flgatr (p_flginib (flgcb s i)) =? TA_NOEXS then ret (E_NOEXS, None)
    else if negb (bits (flgatr (p_flginib (flgcb s i))) TA_WMUL) && negb (queue_empty (FLGQ i) s)
    then ret (E_ILUSE, None)
    else
      c <- check_flg_cond i waiptn wfmode ;;
      match c with
      | Some ptn => ret (E_OK, Some ptn)
      | None => ret (E_TMOUT, None)
      end) ;;
  unlock_cpu ;;;
  ret r.

Definition twai_flg flgid waiptn wfmode tmout : K (Z * option Z) :=
  ! CHECK_DISPATCH ;;
  ! CHECK_FLGID flgid ;;
  ! CHECK_PAR (negb (waiptn =? 0)) ;;
  ! CHECK_PAR ((wfmode =? TWF_ORW) || (wfmode =? TWF_ANDW)) ;;
  ! CHECK_TMOUT tmout ;;
  let i := INDEX flgid in
  lock_cpu ;;;
  r <- (get s;;
    if flgatr (p_flginib (flgcb s i)) =? TA_NOEXS then ret (E_NOEXS, None)
    else if negb (bits (flgatr (p_flginib (flgcb s i))) TA_WMUL) && negb (queue_empty (FLGQ i) s)
    then ret (E_ILUSE, None)
    else
      c <- check_flg_cond i waiptn wfmode ;;
      match c with
      | Some ptn => ret (E_OK, Some ptn)
      | None =>
          if tmout =? TMO_POL then ret (E_TMOUT, None)
          else
            winfo_flg <- new_winfo ;;
            upd (upd_winfo winfo_flg (fun W => W <| w_waiptn := waiptn |> <| w_wfmode := wfmode |>)) ;;;
            get s;; the t := p_runtsk s ;;
            set_tstat t (Z.lor TS_WAITING TS_WAIT_FLG) ;;;
            wobj_make_wait_tmout (FLGQ i) winfo_flg tmout ;;;
            dispatch ;;;
            flg_result winfo_flg
      end) ;;
  unlock_cpu ;;;
  ret r.

Definition ini_flg flgid : K Z :=
  ! CHECK_TSKCTX_UNL ;;
  ! CHECK_FLGID flgid ;;
  let i := INDEX flgid in
  lock_cpu ;;;
  ercd <- (get s;;
    if flgatr (p_flginib (flgcb s i)) =? TA_NOEXS then ret E_NOEXS
    else
      dspreq <- init_wait_queue (FLGQ i) ;;
      get s;; set_flgptn i (iflgptn (p_flginib (flgcb s i))) ;;;
      (if dspreq : bool then dispatch else ret ()) ;;;
      ret E_OK) ;;
  unlock_cpu ;;;
  ret ercd.

Definition ref_flg flgid : K (Z * option T_RFLG) :=
  ! CHECK_TSKCTX_UNL ;;
  ! CHECK_FLGID flgid ;;
  let i := INDEX flgid in
  lock_cpu ;;;
  r <- (get s;;
    if flgatr (p_flginib (flgcb s i)) =? TA_NOEXS then ret (E_NOEXS, None)
    else ret (E_OK, Some (mkT_RFLG (wait_tskid (FLGQ i) s) (flgptn (flgcb s i))))) ;;
  unlock_cpu ;;;
  ret r.

(** ** The invariant

    No task waits for a pattern that is already there, and only a flag with
    TA_WMUL has several waiters. *)
Record flg_ok s i : Prop := {
  flg_waiters : ∀ t w, t ∈ wq s (FLGQ i) → p_winfo (tcb_table s t) = Some w →
    w_waiptn (winfos s w) ≠ 0 ∧
    flg_cond (flgcb s i) (w_waiptn (winfos s w)) (w_wfmode (winfos s w)) = false;
  flg_single : bits (flgatr (p_flginib (flgcb s i))) TA_WMUL = false →
    ∀ t1 t2, t1 ∈ wq s (FLGQ i) → t2 ∈ wq s (FLGQ i) → t1 = t2 }.

Lemma flg_ok_empty s i : wq s (FLGQ i) = [] → flg_ok s i.
Proof.
  intros Hnil. split; rewrite Hnil; [by intros ? ? ?%not_elem_of_nil|by intros ? ? ? ?%not_elem_of_nil].
Qed.

#[export] Instance flg_kind : Kind FLGCB.
Proof.
  refine {| cbs := o_flgcb; frees := o_free_flgcb; cb_atr := fun C => flgatr (p_flginib C);
    cb_queue := FLGQ; cb_of := fun q => match q with FLGQ i => Some i | _ => None end;
    cb_only := fun o o' => o' = o <| o_flgcb := o_flgcb o' |> <| o_free_flgcb := o_free_flgcb o' |>;
    cb_ok := flg_ok |}.
  - intros s q i Hq. by destruct q; simplify_eq.
  - intros F s q Hq Hon. destruct q; simpl in *; try rewrite Hon; done.
  - done.
  - intros TR Y P s s' i X HF HX Hcb [O1 O2].
    assert (HQ : ∀ x, x ∈ wq s' (FLGQ i) → x ∈ wq s (FLGQ i) ∧
      p_winfo (tcb_table s' x) = p_winfo (tcb_table s x) ∧
      ∀ w, p_winfo (tcb_table s x) = Some w → winfos s' w = winfos s w).
    { intros x Hx. by apply (fr_queue _ _ _ _ HF (FLGQ i) x), HX. }
    split; rewrite Hcb.
    + intros t w Ht. destruct (HQ t Ht) as (Ht' & -> & Hw). intros Hpw. rewrite Hw by done. by apply (O1 t).
    + intros Hm t1 t2 Ht1 Ht2. apply O2; [done|by apply HQ..].
  - by intros [].
  - intros q i Hq. by destruct q.
Defined.

Notation flg_inv := (kind_inv (kd := flg_kind)).

Lemma flg_cond_clear C clrptn waiptn wfmode :
  flg_cond C waiptn wfmode = false →
  flg_cond (C <| flgptn := Z.land (flgptn C) clrptn |>) waiptn wfmode = false.
Proof.
  unfold flg_cond. simpl. destruct (bits wfmode TWF_ORW).
  - unfold bits. rewrite !negb_false_iff, !Z.eqb_eq. intros Hc.
    by rewrite <- Z.land_assoc, (Z.land_comm clrptn), Z.land_assoc, Hc, Z.land_0_l.
  - rewrite !Z.eqb_neq. intros Hc Hn. apply Hc. rewrite <- Hn at 2.
    rewrite <- Hn. apply Z.bits_inj'. intros n Hn'. rewrite !Z.land_spec.
    by destruct (Z.testbit (flgptn C) n), (Z.testbit clrptn n), (Z.testbit waiptn n).
Qed.

Lemma flg_cond_zero C waiptn wfmode :
  waiptn ≠ 0 → flg_cond (C <| flgptn := 0 |>) waiptn wfmode = false.
Proof.
  intros Hne. unfold flg_cond, bits. change (flgptn (C <| flgptn := 0 |>)) with 0. rewrite Z.land_0_l.
  destruct (negb _); [done|]. apply Z.eqb_neq. congruence.
Qed.

(** What an operation on event flag [i] does to the objects. *)
Definition flg_step i (o o' : OBJ) : Prop :=
  o' = o <| o_flgcb := o_flgcb o' |> ∧ (∀ j, j ≠ i → o_flgcb o' j = o_flgcb o j) ∧
  p_flginib (o_flgcb o' i) = p_flginib (o_flgcb o i).

Lemma flg_step_trans i o1 o2 o3 : flg_step i o1 o2 → flg_step i o2 o3 → flg_step i o1 o3.
Proof.
  intros (A1 & A2 & A3) (B1 & B2 & B3). split_and!; [|intros j Hj; by rewrite B2, A2|congruence].
  rewrite B1, A1. by destruct o1.
Qed.

Lemma flg_step_set i v o : flg_step i o (o <| o_flgcb ::= fun T => <[i := (T i) <| flgptn := v |>]> T |>).
Proof.
  split_and!; [by destruct o| |].
  - intros j Hj. cb_lookup.
  - cb_lookup.
Qed.

Lemma flg_step_refl i o : flg_step i o o.
Proof. split_and!; [by destruct o|done..]. Qed.

(** The wait information of a task that goes on waiting. *)
Definition waits s t (R : WINFO_WOBJ → Prop) : Prop :=
  ∀ w, p_winfo (tcb_table s t) = Some w → R (winfos s w).

Lemma waits_frame P s s' i t R :
  frame (fun _ => False) P s s' → t ∈ wq s' (FLGQ i) → waits s t R → waits s' t R ∧ t ∈ wq s (FLGQ i).
Proof.
  intros HF Ht HR. destruct (fr_queue _ _ _ _ HF (FLGQ i) t eq_refl Ht) as (Ht' & Hw & HW); [by intros []|].
  split; [|done]. intros w. rewrite Hw. intros Hpw. rewrite HW by done. by apply HR.
Qed.

(** ** The loop over the wait queue *)
Section loop.
Context (h : State → State) (Hh : req_var h) (s0 : State) (i : nat).
Notation unmet C := (fun W => w_waiptn W ≠ 0 ∧ flg_cond C (w_waiptn W) (w_wfmode W) = false).

(** One task whose condition holds is released. *)
Lemma set_flg_release g s t d (ptn := flgptn (flgcb s i)) (atr := flgatr (p_flginib (flgcb s i)))
    (C' := if bits atr TA_CLR then (flgcb s i) <| flgptn := 0 |> else flgcb s i) :
  KInv g s → settled g → t ∈ wq s (FLGQ i) →
  frame (fun _ => False) any_obj (after h d s0) s → woke d s0 s →
  ∃ w b g' s', p_winfo (tcb_table s t) = Some w ∧
    (flg_cond (flgcb s i) (w_waiptn (winfos s w)) (w_wfmode (winfos s w)) = true →
      ∀ {A} (k : bool → K A) (N : K A),
      (r <- check_flg_cond i (w_waiptn (winfos s w)) (w_wfmode (winfos s w)) ;;
       match r with
       | Some ptn => upd (upd_winfo w (fun W => W <| w_flgptn := ptn |>)) ;;; queue_delete t ;;;
           b <- wait_complete t ;; (if b : bool then upd h else ret ()) ;;; k b
       | None => N end) s = k b s') ∧
    KInv g' s' ∧ settled g' ∧ frame (fun _ => False) any_obj (after h (b || d) s0) s' ∧
    frame (fun _ => False) any_obj (after h b s) s' ∧
    woke (b || d) s0 s' ∧ flg_step i (obj s) (obj s') ∧ flgcb s' i = C' ∧
    wq s' (FLGQ i) = without t (wq s (FLGQ i)) ∧ (∀ r, g r = Runnable → g' r = Runnable).
Proof.
  intros HK Hset Ht HF HW.
  destruct (wake_ok g s (FLGQ i) t (Fam.queue_delete t (wq s)) HK Hset eq_refl Ht) as (w & susp & tmr & Hg & Hw & Hwk); [done|].
  set (Fo := fun o : OBJ => o <| o_flgcb ::= fun T => <[i := (T i) <| flgptn := 0 |>]> T |>).
  set (F := if bits atr TA_CLR then upd_obj Fo else fun s => s).
  set (s2 := upd_wq (Fam.queue_delete t) (upd_winfo w (fun W => W <| w_flgptn := ptn |>) (F s))).
  assert (Hto : touch w (upd_wq (fun _ => Fam.queue_delete t (wq s)) s) s2).
  { subst s2. change (touch w (upd_wq (fun _ => Fam.queue_delete t (wq s)) s)
      (upd_winfo w (fun W => W <| w_flgptn := ptn |>) (upd_wq (Fam.queue_delete t) (F s)))).
    apply touch_upd_winfo; [|done]. unfold F. destruct (bits atr TA_CLR); [|apply touch_refl].
    refine (touch_upd_obj w Fo _ _ (touch_refl w (upd_wq (Fam.queue_delete t) s)) _). intros q _. destruct q as [| |j| | | | | | |]; try done. simpl.
    destruct (decide (j = i)) as [->|]; cb_lookup. }
  destruct (Hwk s2 Hto) as (b & s' & E & [W1 W2 W3 W4 W5 W6 W7 W8]).
  destruct (req_var_same h s' Hh) as (R1 & R2 & R3 & R4 & R5 & R6 & R7 & R8).
  assert (Hobj : obj (after h b s') = obj s2) by (destruct b; simpl; rewrite ?R4; apply W3).
  exists w, b, (<[t := after_wait susp]> g), (after h b s'). split; [done|]. split.
  { intros Hc A k N. unfold check_flg_cond, bind at 1, kget. rewrite Hc.
    assert (Hchk : ((if bits (flgatr (p_flginib (flgcb s i))) TA_CLR then set_flgptn i 0 else ret ()) ;;;
      ret (Some (flgptn (flgcb s i)))) s = RET (Some ptn) (F s)) by (unfold F, atr; by destruct (bits _ _)).
    rewrite Hchk. simpl. unfold bind at 1; simpl. unfold bind at 1; simpl. fold s2.
    unfold bind at 1. rewrite E. simpl. unfold bind. by destruct b. }
  split_and!; try done.
  - destruct b; [by apply req_var_KInv|done].
  - eapply after_frame; [done..|]. by eapply frame_only.
  - assert (frame (fun _ => False) any_obj s s') by (by eapply frame_only).
    destruct b; simpl; [by apply req_var_frame|done].
  - rewrite orb_comm. eapply woke_trans; [done| |].
    + destruct b; simpl; [|done]. destruct W4 as [W4 W4']. by split.
    + rewrite (fr_var _ _ _ _ HF). destruct d; simpl; [|done]. apply (req_var_same h s0 Hh).
  - rewrite Hobj. simpl. unfold F. destruct (bits atr TA_CLR); [apply flg_step_set|apply flg_step_refl].
  - rewrite Hobj. unfold C', s2, F. destruct (bits atr TA_CLR); cb_lookup.
  - destruct b; simpl; rewrite ?R2; by apply W7.
Qed.

(** A task that waits has its wait information. *)
Lemma flg_waiter g s t : KInv g s → t ∈ wq s (FLGQ i) → ∃ w, p_winfo (tcb_table s t) = Some w.
Proof.
  intros HK Ht. destruct (wq_waiting g s (FLGQ i) t HK eq_refl Ht) as (w & susp & tmr & Hg).
  exists w. eapply wait_winfo, HK, Hg.
Qed.

Lemma waits_after P s s' b t R :
  frame (fun _ => False) P (after h b s) s' → t ∈ wq s' (FLGQ i) → waits s t R → waits s' t R.
Proof.
  intros HF Ht HR. destruct (req_var_same h s Hh) as (R1 & R2 & R3 & _).
  eapply waits_frame; [exact HF|done|]. destruct b; [|done]. unfold waits. simpl. by rewrite R1, R3.
Qed.

Record loop_end g s d g' s' : Prop := {
  le_inv : KInv g' s';
  le_settled : settled g';
  le_frame : frame (fun _ => False) any_obj (after h d s0) s';
  le_woke : woke d s0 s';
  le_step : flg_step i (obj s) (obj s');
  le_unmet : ∀ t, t ∈ wq s' (FLGQ i) → t ∈ wq s (FLGQ i) ∧ waits s' t (unmet (flgcb s' i));
  le_run : ∀ r, g r = Runnable → g' r = Runnable }.

Lemma loop_end_trans g1 g2 g3 s1 s2 s3 d :
  flg_step i (obj s1) (obj s2) → (∀ t, t ∈ wq s2 (FLGQ i) → t ∈ wq s1 (FLGQ i)) →
  (∀ r, g1 r = Runnable → g2 r = Runnable) → loop_end g2 s2 d g3 s3 → loop_end g1 s1 d g3 s3.
Proof.
  intros H1 H2 H3 [E1 E2 E3 E4 E5 E6 E7]. split; try done; [by eapply flg_step_trans| |auto].
  intros t Ht. destruct (E6 t Ht). auto.
Qed.

Lemma set_flg_loop_ok l : ∀ g s d pre,
  KInv g s → settled g → wq s (FLGQ i) = pre ++ l →
  (∀ t, t ∈ pre → waits s t (unmet (flgcb s i))) → (∀ t, t ∈ l → waits s t (fun W => w_waiptn W ≠ 0)) →
  frame (fun _ => False) any_obj (after h d s0) s → woke d s0 s →
  ∃ d' g' s', set_flg_loop (upd h) i l d s = RET d' s' ∧ loop_end g s d' g' s'.
Proof.
  induction l as [|t l IH]; intros g s d pre HK Hset Hq Hpre Hl HF HW.
  - exists d, g, s. split; [done|]. rewrite app_nil_r in Hq. split; try done; [apply flg_step_refl|].
    intros t. rewrite Hq. auto.
  - assert (Ht : t ∈ wq s (FLGQ i)) by (rewrite Hq; set_solver).
    destruct (set_flg_release g s t d HK Hset Ht HF HW)
      as (w & b & g1 & s1 & Hw & E & HK1 & Hs1 & HF1 & HF1' & HW1 & Hst & HC & Hq1 & Hr).
    cbn [set_flg_loop]. unfold kget at 1. rewrite Hw. unfold deref.
    destruct (flg_cond (flgcb s i) (w_waiptn (winfos s w)) (w_wfmode (winfos s w))) eqn:Hc.
    + specialize (E eq_refl). assert (Hsub : ∀ x, x ∈ wq s1 (FLGQ i) → x ∈ wq s (FLGQ i)).
      { intros x. rewrite Hq1, elem_of_without. tauto. }
      rewrite E. unfold kget. rewrite HC.
      destruct (bits (flgatr (p_flginib (flgcb s i))) TA_CLR) eqn:Hclr; simpl; rewrite Hclr.
      * exists (b || d), g1, s1. split; [done|]. split; try done.
        intros x Hx. split; [auto|]. rewrite HC. eapply (waits_after _ s); [done..|]. apply Hsub in Hx.
        intros w' Hw'. assert (w_waiptn (winfos s w') ≠ 0); [|split; [done|by apply flg_cond_zero]].
        rewrite Hq in Hx. apply elem_of_app in Hx as [Hx|Hx]; [by apply (Hpre x)|by apply (Hl x)].
      * assert (Hq1' : wq s1 (FLGQ i) = pre ++ l).
        { rewrite Hq1, Hq. apply without_middle. rewrite <- Hq. apply HK. }
        destruct (IH g1 s1 (b || d) pre HK1 Hs1 Hq1') as (d' & g' & s' & E' & He); [| |done..|].
        -- intros x Hx. rewrite HC. eapply (waits_after _ s); [done|rewrite Hq1'; set_solver|auto].
        -- intros x Hx. eapply (waits_after _ s); [done|rewrite Hq1'; set_solver|]. apply Hl. by right.
        -- exists d', g', s'. split; [done|]. by eapply loop_end_trans.
    + destruct (IH g s d (pre ++ [t]) HK Hset) as (d' & g' & s' & E' & He); try done.
      * by rewrite <- app_assoc.
      * intros x [Hx| ->%list_elem_of_singleton]%elem_of_app; [auto|]. intros w' Hw'.
        rewrite Hw in Hw'. injection Hw' as <-. split; [|done]. apply (Hl t); [left|done].
      * intros x Hx. apply Hl. by right.
      * exists d', g', s'. split; [|done]. rewrite <- E'. unfold check_flg_cond, bind at 1, kget. by rewrite Hc.
Qed.
End loop.

Section calls.
Context (OInv : State → Prop) `{!Objects OInv}.
Context `{!Component OInv flg_inv (kind_own (kd := flg_kind)) (cb_only (Kind := flg_kind))}.
Notation WP := (wp (rely OInv) (guar OInv)).
Notation Inv := (Inv OInv).
Notation OK := (OK OInv).
Notation Mid := (Mid OInv).

Lemma flg_exists s i :
  OInv s → flgatr (p_flginib (flgcb s i)) ≠ TA_NOEXS →
  i ∉ o_free_flgcb (obj s) ∧ flg_ok s i ∧ header_ok s (FLGQ i) = true.
Proof. intros HO. apply (kind_exists (kd := flg_kind)), comp_get, HO. Qed.

Ltac flg_begin s1 flgid HI He Hfree Hok Hhd :=
  destruct (Z.eqb_spec (flgatr (p_flginib (flgcb s1 (INDEX flgid)))) TA_NOEXS) as [He|He]; [svc_ret|];
  destruct (flg_exists s1 (INDEX flgid) (i_obj _ _ _ HI) He) as (Hfree & Hok & Hhd);
  set (i := INDEX flgid) in *.

(** A change of the pattern that satisfies no waiting task. *)
Lemma flg_put g s i v :
  Mid g s → i ∉ o_free_flgcb (obj s) → flgatr (p_flginib (flgcb s i)) ≠ TA_NOEXS → flg_ok s i →
  (∀ waiptn wfmode, waiptn ≠ 0 → flg_cond (flgcb s i) waiptn wfmode = false →
    (∃ t, t ∈ wq s (FLGQ i)) → flg_cond ((flgcb s i) <| flgptn := v |>) waiptn wfmode = false) →
  Mid g (upd_obj (fun o => o <| o_flgcb ::= fun T => <[i := (T i) <| flgptn := v |>]> T |>) s).
Proof.
  intros HM Hfree He [O1 O2] Hv. apply (kind_put (kd := flg_kind) OInv g s i); try done; cb_lookup.
  - intros j Hne. cb_lookup.
  - apply kind_ok_intro; unfold gone; cb_lookup. split; cb_lookup.
    intros t w Ht Hw. destruct (O1 t w Ht Hw). cb_lookup. split; [done|]. apply Hv; eauto.
Qed.

Lemma flg_put_ok g s t i v {A} (a : A) :
  Inv g s → in_task t s → i ∉ o_free_flgcb (obj s) → flgatr (p_flginib (flgcb s i)) ≠ TA_NOEXS → flg_ok s i →
  (∀ waiptn wfmode, waiptn ≠ 0 → flg_cond (flgcb s i) waiptn wfmode = false →
    (∃ t, t ∈ wq s (FLGQ i)) → flg_cond ((flgcb s i) <| flgptn := v |>) waiptn wfmode = false) →
  WP (fun _ s' => OK s' ∧ in_task t s') ((set_flgptn i v ;;; ret a) s).
Proof.
  intros HI Hin Hfree He Hok Hv. eapply wp_RET; [reflexivity|]. split; [|done]. exists g.
  eapply Inv_of; [exact HI|apply flg_put; try done; by apply Inv_Mid|done..].
Qed.

Lemma clr_flg_ok flgid clrptn : call_ok OInv (clr_flg flgid clrptn).
Proof.
  intros s HOK. unfold clr_flg. task_call g t s1 HI Hin Ht Hd. flg_begin s1 flgid HI He Hfree Hok Hhd.
  eapply flg_put_ok; try done. intros. by apply flg_cond_clear.
Qed.

(** *** Setting bits *)

Lemma flg_loop_inv h s i v g d g' s' (s2 := upd_obj (fun o => o <| o_flgcb ::= fun T => <[i := (T i) <| flgptn := v |>]> T |>) s) :
  req_var h → OInv s → flgatr (p_flginib (flgcb s i)) ≠ TA_NOEXS → loop_end h s2 i g s2 d g' s' → OInv s'.
Proof.
  intros Hh HO He [E1 E2 E3 E4 E5 E6 E7]. destruct (flg_exists s i HO He) as (Hfree & [O1 O2] & _).
  assert (HF : frame (fun _ => False) any_obj (after h d s) s').
  { eapply frame_any_trans; [|exact E3]. assert (frame (fun _ => False) any_obj s s2) by (by apply frame_obj; [apply frame_refl|]).
    destruct d; [by apply req_var_frame|done]. }
  assert (Hobj : obj (after h d s) = obj s) by (destruct d; [apply (req_var_same h s Hh)|done]).
  assert (Hst : flg_step i (obj s) (obj s')) by (eapply flg_step_trans; [apply flg_step_set|exact E5]).
  destruct Hst as (S1 & S2 & S3).
  eapply (kind_move (kd := flg_kind) OInv any_obj (after h d s) s' i); simpl; rewrite ?Hobj; try done.
  - destruct d; [by apply req_var_OInv|done].
  - rewrite S1. by destruct (obj s).
  - by rewrite S1.
  - apply kind_ok_intro; unfold gone; simpl; [by rewrite S3|]. split.
    + intros t w Ht. by apply (E6 t Ht).
    + rewrite S3. intros Hm t1 t2 Ht1%E6 Ht2%E6. apply O2; [done|apply Ht1|apply Ht2].
Qed.

Lemma set_loop_start h g s i v (s2 := upd_obj (fun o => o <| o_flgcb ::= fun T => <[i := (T i) <| flgptn := v |>]> T |>) s) :
  req_var h → KInv g s → settled g → flg_ok s i →
  ∃ d g' s', set_flg_loop (upd h) i (wq s2 (FLGQ i)) false s2 = RET d s' ∧ loop_end h s2 i g s2 d g' s'.
Proof.
  intros Hh HK Hset [O1 O2].
  apply (set_flg_loop_ok h Hh s2 i (wq s2 (FLGQ i)) g s2 false []); try done.
  - apply KInv_obj; [done|]. intros q _. left. destruct q as [| |j| | | | | | |]; try done. simpl.
    destruct (decide (j = i)) as [->|]; cb_lookup.
  - intros t Ht. by apply not_elem_of_nil in Ht.
  - intros t Ht w Hw. by apply (O1 t w).
Qed.

Lemma set_flg_ok flgid setptn : call_ok OInv (set_flg flgid setptn).
Proof.
  intros s HOK. unfold set_flg. task_call g t s1 HI Hin Ht Hd. flg_begin s1 flgid HI He Hfree Hok Hhd.
  set (v := Z.lor (flgptn (flgcb s1 i)) setptn). eapply wp_RET; [reflexivity|].
  destruct (set_loop_start (fun s => s) g s1 i v) as (d & g' & s' & E & Hend);
    [by left|apply HI|apply HI|done|].
  pose proof (flg_loop_inv _ _ _ _ _ _ _ _ (or_introl eq_refl) (i_obj _ _ _ HI) He Hend) as HO.
  destruct Hend as [E1 E2 E3 E4 E5 E6 E7].
  eapply wp_RET; [exact E|]. apply wp_bind. assert (Hs : after (fun s => s) d s1 = s1) by (by destruct d).
  eapply dispatch_if_ok; [exact HI|exact Hin|exact Ht|by split|by apply E7| | |exact E4|].
  - rewrite (fr_var _ _ _ _ E3). by destruct d.
  - rewrite (fr_cpu _ _ _ _ E3). by destruct d.
  - intros s3 H3 H4. svc_ret.
Qed.

Lemma iset_flg_ok flgid setptn : call_ok OInv (iset_flg flgid setptn).
Proof.
  intros s HOK. unfold iset_flg. int_call g s1 HI Hin. flg_begin s1 flgid HI He Hfree Hok Hhd.
  set (v := Z.lor (flgptn (flgcb s1 i)) setptn). eapply wp_RET; [reflexivity|].
  destruct (set_loop_start (upd_var (fun v => v <| v_reqflg := true |>)) g s1 i v) as (d & g' & s' & E & Hend);
    [by right|apply HI|apply HI|done|].
  pose proof (flg_loop_inv _ _ _ _ _ _ _ _ (or_intror eq_refl) (i_obj _ _ _ HI) He Hend) as HO.
  destruct Hend as [E1 E2 E3 E4 E5 E6 E7].
  assert (Hcpu : cpu s' = cpu s1) by (rewrite (fr_cpu _ _ _ _ E3); by destruct d).
  eapply wp_RET; [exact E|]. split; [|by eapply in_int_same]. exists g'.
  eapply (Inv_int_end OInv g g' s1 s' d); try done. rewrite (fr_var _ _ _ _ E3). by destruct d.
Qed.

(** *** Waiting *)

Lemma check_flg_cond_ok g s t i waiptn wfmode :
  Inv g s → in_task t s → i ∉ o_free_flgcb (obj s) → flgatr (p_flginib (flgcb s i)) ≠ TA_NOEXS → flg_ok s i →
  (∃ ptn s', check_flg_cond i waiptn wfmode s = RET (Some ptn) s' ∧ Inv g s' ∧ in_task t s') ∨
  (check_flg_cond i waiptn wfmode s = RET None s ∧ flg_cond (flgcb s i) waiptn wfmode = false).
Proof.
  intros HI Hin Hfree He Hok. unfold check_flg_cond, kget.
  destruct (flg_cond (flgcb s i) waiptn wfmode) eqn:Hc; [left|by right].
  destruct (bits (flgatr (p_flginib (flgcb s i))) TA_CLR).
  - eexists _, _. split; [reflexivity|]. split; [|done].
    eapply Inv_of; [exact HI|apply flg_put; try done; [by apply Inv_Mid|]|done..].
    intros. by apply flg_cond_zero.
  - by eexists _, _.
Qed.

Lemma pol_flg_ok flgid waiptn wfmode : call_ok OInv (pol_flg flgid waiptn wfmode).
Proof.
  intros s HOK. unfold pol_flg. task_call g t s1 HI Hin Ht Hd. flg_begin s1 flgid HI He Hfree Hok Hhd.
  case_match; [svc_ret|].
  destruct (check_flg_cond_ok g s1 t i waiptn wfmode HI Hin Hfree He Hok)
    as [(ptn & s2 & E & HI2 & Hin2)|[E Hc]]; (eapply wp_RET; [exact E|]); svc_ret.
Qed.

Lemma flg_enter s s' s3 g g' t w i waiptn wfmode :
  OInv s → flgatr (p_flginib (flgcb s i)) ≠ TA_NOEXS → waiptn ≠ 0 →
  negb (bits (flgatr (p_flginib (flgcb s i))) TA_WMUL) && negb (queue_empty (FLGQ i) s) = false →
  flg_cond (flgcb s i) waiptn wfmode = false → tframe (fun _ => False) s s' → wq s' = wq s →
  (∀ x, x ∈ wq s (FLGQ i) → p_winfo (tcb_table s x) ≠ Some w) →
  w_waiptn (winfos s' w) = waiptn → w_wfmode (winfos s' w) = wfmode →
  blocked g s' t w (WOBJ (FLGQ i)) g' s3 → OInv s3.
Proof.
  intros HO He Hwp Hm Hc HF Hq Hfresh H1 H2 Hb. destruct (flg_exists s i HO He) as (Hfree & [O1 O2] & _).
  pose proof (blocked_frame g s s' t w (FLGQ i) g' s3 HF Hb) as HF3. pose proof (fr_obj _ _ _ _ HF3) as Ho.
  destruct Hb as [B1 B2 B3 B4 B5 B7 B8 (v & o & B6)].
  eapply (kind_move (kd := flg_kind) OInv _ _ _ i _ HO HF3); simpl; rewrite <- ?Ho; try done.
  - by intros q ->.
  - by destruct (obj s).
  - apply kind_ok_intro; unfold gone; simpl; rewrite <- ?Ho; [done|]. split; rewrite <- ?Ho.
    + intros x w' Hx Hw'. destruct (decide (x = t)) as [->|Hne].
      * rewrite B5 in Hw'. injection Hw' as <-. rewrite B6. simpl. by rewrite H1, H2.
      * apply (B4 _ eq_refl) in Hx as [?|Hx]; [done|]. rewrite Hq in Hx.
        rewrite B7 in Hw' by done. destruct (fr_queue _ _ _ _ HF (FLGQ i) x eq_refl) as (_ & E1 & E2);
          [by rewrite Hq|by intros []|]. rewrite E1 in Hw'.
        assert (w' ≠ w) by (intros ->; by apply (Hfresh x Hx)). rewrite B8, E2 by done. by apply (O1 x).
    + intros Hmul t1 t2 Ht1%(B4 _ eq_refl) Ht2%(B4 _ eq_refl). rewrite Hq in Ht1, Ht2. rewrite Hmul in Hm. simpl in Hm.
      unfold queue_empty, Fam.queue_empty in Hm. destruct (wq s (FLGQ i)); [|done].
      destruct Ht1 as [->|Ht1]; [|by apply not_elem_of_nil in Ht1].
      destruct Ht2 as [->|Ht2]; [done|by apply not_elem_of_nil in Ht2].
Qed.

(** The WINFO of a call that is about to wait. *)
Lemma flg_sleepy g s t i waiptn wfmode :
  Inv g s → in_task t s → g t = Runnable → dspflg s = true →
  flgatr (p_flginib (flgcb s i)) ≠ TA_NOEXS → waiptn ≠ 0 →
  negb (bits (flgatr (p_flginib (flgcb s i))) TA_WMUL) && negb (queue_empty (FLGQ i) s) = false →
  flg_cond (flgcb s i) waiptn wfmode = false →
  ∃ w s1, new_winfo s = RET w s1 ∧
    let s2 := upd_winfo w (fun W => W <| w_waiptn := waiptn |> <| w_wfmode := wfmode |>) s1 in
    sleepy OInv g s2 t w ∧ ∀ g' s', blocked g s2 t w (WOBJ (FLGQ i)) g' s' → OInv s'.
Proof.
  intros HI Hin Ht Hd He Hwp Hm Hc.
  destruct (new_winfo_ok OInv g s t HI Hin Ht Hd) as (s1 & w & E & Hsl & HF & Hq & HT & _).
  exists w, s1. split; [done|]. intros s2.
  destruct (fill_winfo_ok OInv g s1 t w (fun W => W <| w_waiptn := waiptn |> <| w_wfmode := wfmode |>) Hsl) as [Hsl2 HF2].
  split; [done|]. intros g' s' Hb.
  apply (flg_enter s s2 s' g g' t w i waiptn wfmode); try done.
  - apply HI.
  - by eapply tframe_trans.
  - intros x Hx Hw. destruct (wq_waiting g s (FLGQ i) x (i_k _ _ _ HI) eq_refl Hx) as (w' & susp & tmr & Hg).
    pose proof (wait_winfo _ _ _ _ _ (k_wait _ _ (i_k _ _ _ HI) _ _ _ _ _ Hg)) as Hw'.
    apply (sl_fresh _ _ _ _ _ Hsl x). rewrite Hg. simpl. congruence.
  - simpl. by rewrite fn_lookup_insert.
  - simpl. by rewrite fn_lookup_insert.
Qed.

Lemma flg_result_ok w s t : OK s → in_task t s → (∃ ercd, winfo (winfos s w) = WERCD ercd) →
  WP (fun _ s' => OK s' ∧ in_task t s') (flg_result w s).
Proof. intros HOK Hin Hw. unfold flg_result. apply wp_bind, get_wercd_ok; [done|]. by split. Qed.

Ltac flg_checks :=
  repeat match goal with
  | H : (_ =? _) = false |- _ => apply Z.eqb_neq in H
  end.

Lemma wai_flg_ok flgid waiptn wfmode : call_ok OInv (wai_flg flgid waiptn wfmode).
Proof.
  intros s HOK. unfold wai_flg. task_call g t s1 HI Hin Ht Hd. flg_checks.
  flg_begin s1 flgid HI He Hfree Hok Hhd. destruct (negb _ && negb _) eqn:Hm; [svc_ret|].
  destruct (check_flg_cond_ok g s1 t i waiptn wfmode HI Hin Hfree He Hok)
    as [(ptn & s2 & E & HI2 & Hin2)|[E Hc]]; (eapply wp_RET; [exact E|]); [svc_ret|].
  destruct (flg_sleepy g s1 t i waiptn wfmode HI Hin Ht) as (w & s2 & E2 & Hsl & Hent); [congruence|done..|].
  eapply wp_RET; [exact E2|]. eapply wp_RET; [reflexivity|].
  eapply (wobj_sleep_ok OInv g _ t w (FLGQ i)); try done. intros. by apply flg_result_ok.
Qed.

Lemma twai_flg_ok flgid waiptn wfmode tmout :
  tmout ≤ TMAX_RELTIM → call_ok OInv (twai_flg flgid waiptn wfmode tmout).
Proof.
  intros Hmax s HOK. unfold twai_flg. task_call g t s1 HI Hin Ht Hd. flg_checks.
  flg_begin s1 flgid HI He Hfree Hok Hhd. destruct (negb _ && negb _) eqn:Hm; [svc_ret|].
  destruct (check_flg_cond_ok g s1 t i waiptn wfmode HI Hin Hfree He Hok)
    as [(ptn & s2 & E & HI2 & Hin2)|[E Hc]]; (eapply wp_RET; [exact E|]); [svc_ret|].
  destruct (Z.eqb_spec tmout TMO_POL) as [Hp|Hp]; [svc_ret|].
  destruct (flg_sleepy g s1 t i waiptn wfmode HI Hin Ht) as (w & s2 & E2 & Hsl & Hent); [congruence|done..|].
  eapply wp_RET; [exact E2|]. eapply wp_RET; [reflexivity|].
  eapply (wobj_sleep_tmout_ok OInv g _ t w (FLGQ i)); try done; [|unfold TMO_FEVR in *; lia].
  intros. by apply flg_result_ok.
Qed.

Lemma ini_flg_ok flgid : call_ok OInv (ini_flg flgid).
Proof.
  intros s HOK. unfold ini_flg. task_call g t s1 HI Hin Ht Hd. flg_begin s1 flgid HI He Hfree Hok Hhd.
  destruct (init_queue_ok OInv g s1 (FLGQ i) (Inv_Mid _ _ _ HI) eq_refl Hhd) as (b & g' & s2 & E & HM & HF & Hw & Hnil & Hr).
  rewrite (bind_RET _ _ _ _ _ E). unfold kget. pose proof (fr_obj _ _ _ _ HF) as Ho.
  eapply wp_RET; [reflexivity|]. apply wp_bind.
  eapply dispatch_if_ok; [exact HI|exact Hin|exact Ht| |by apply Hr|apply HF|apply HF|exact Hw|].
  - apply (flg_put g' s2 i _ HM); rewrite <- ?Ho; try done.
    + by apply flg_ok_empty.
    + rewrite Hnil. by intros ? ? _ _ [x ?%not_elem_of_nil].
  - intros s3 H3 H4. svc_ret.
Qed.

Lemma del_flg_ok flgid : call_ok OInv (del_flg flgid).
Proof.
  intros s HOK. unfold del_flg. task_call g t s1 HI Hin Ht Hd. flg_begin s1 flgid HI He Hfree Hok Hhd.
  destruct (tmax_sflgid <? IDOF i); [|svc_ret].
  destruct (init_queue_ok OInv g s1 (FLGQ i) (Inv_Mid _ _ _ HI) eq_refl Hhd) as (b & g' & s2 & E & HM & HF & Hw & Hnil & Hr).
  rewrite (bind_RET _ _ _ _ _ E). pose proof (fr_obj _ _ _ _ HF) as Ho.
  eapply wp_RET; [reflexivity|]. eapply wp_RET; [reflexivity|]. apply wp_bind.
  eapply dispatch_if_ok; [exact HI|exact Hin|exact Ht| |by apply Hr|apply HF|apply HF|exact Hw|].
  - eapply (kind_delete (kd := flg_kind) OInv g' s2 i (fun o => _) HM); cb_lookup; rewrite <- ?Ho; try done.
    + intros q Hq. destruct q; simpl in Hq; simplify_eq; done.
    + intros j Hne. cb_lookup.
  - intros s3 H3 H4. svc_ret.
Qed.

Lemma acre_flg_ok pk : call_ok OInv (acre_flg pk).
Proof.
  intros s HOK. unfold acre_flg. task_call g t s1 HI Hin Ht Hd.
  destruct (tnum_flg =? 0)%nat; [svc_ret|]. simpl.
  destruct (o_free_flgcb (obj s1)) as [|i l] eqn:Hl; [svc_ret|]. simpl.
  pose proof (Inv_comp OInv g s1 HI) as Hflg.
  assert (Hnil : wq s1 (FLGQ i) = []) by (by eapply (kind_free_no_waiter (kd := flg_kind))).
  destruct (init_empty_queue_ok OInv g s1 (FLGQ i) (Inv_Mid _ _ _ HI) Hnil) as [HM Hnil2].
  eapply wp_RET; [by apply take_free_eq|]. repeat (eapply wp_RET; [reflexivity|]). split; [|done]. exists g.
  apply (Inv_of OInv g s1); [done| |done..].
  eapply (kind_create (kd := flg_kind) OInv g _ i l (fun o => _) HM); [done|by destruct (obj s1)|done| |].
  - intros j Hne. cb_lookup.
  - intros Hno. apply kind_ok_intro; [unfold gone; cb_lookup; by eapply rsatr_exists|].
    apply flg_ok_empty. exact Hnil2.
Qed.

Lemma ref_flg_ok flgid : call_ok OInv (ref_flg flgid).
Proof.
  intros s HOK. unfold ref_flg. task_call g t s1 HI Hin Ht Hd. case_match; svc_ret.
Qed.
End calls.
End eventflag.
