(* ===== verification/Dataqueue.v ===== *)
(** * Data queues (kernel/dataqueue.c, dataqueue.h)

    The management area of a queue is a ring buffer; [dtq_contents] is the
    list of data it holds, oldest first. *)

From S2P Require Import Prelude Queue Data Kmonad TimeEvent Task Wait Core Release Service Object Kmm.
Open Scope Z_scope.

Record T_CDTQ := mkT_CDTQ { c_dtqatr : Z; c_dtqcnt : Z; c_dtqmb : Z }.
Record T_RDTQ := mkT_RDTQ { r_stskid : Z; r_rtskid : Z; r_sdtqcnt : Z }.

Section dataqueue.
Context {cfg : Config}.
Implicit Types (dtqid data tmout : Z) (i : nat) (C : DTQCB).

Definition tnum_dtq : nat := tnum tmax_dtqid.
Definition tnum_sdtq : nat := tnum tmax_sdtqid.
Definition sizeof_DTQMB : Z := 4.

Definition upd_dtq i (f : DTQCB → DTQCB) : K () :=
  upd (upd_obj (fun o => o <| o_dtqcb ::= fun T => <[i := f (T i)]> T |>)).
Definition set_free_dtq (f : list nat → list nat) : K () :=
  upd (upd_obj (fun o => o <| o_free_dtqcb ::= f |>)).
Definition set_dtqatr i (atr : Z) : K () :=
  upd_dtq i (fun C => C <| p_dtqinib ::= fun I => I <| dtqatr := atr |> |>).
(** [(p_dtqmb + k)->data = data]. *)
Definition set_dtqmb (p_dtqmb k data : Z) : K () :=
  upd (upd_obj (fun o => o <| o_dtqmb ::= fun M => <[p_dtqmb := <[k := data]> (M p_dtqmb)]> M |>)).
Definition dtq_reset C : DTQCB := C <| dtq_count := 0 |> <| dtq_head := 0 |> <| dtq_tail := 0 |>.

Definition initialize_dataqueue : K () :=
  kfor (seq 0 tnum_sdtq) (fun i =>
    queue_initialize (SDTQ i) ;;;
    upd_dtq i (fun C => C <| p_dtqinib := dtqinib_table i |>) ;;;
    queue_initialize (RDTQ i) ;;;
    upd_dtq i dtq_reset) ;;;
  set_free_dtq (fun _ => []) ;;;
  kfor (seq tnum_sdtq (tnum_dtq - tnum_sdtq)) (fun i =>
    set_dtqatr i TA_NOEXS ;;;
    set_free_dtq (fun l => l ++ [i])).

(** ** The ring buffer *)

(** [if (tail >= dtqcnt) tail = 0], and for the head. *)
Definition wrap_tail C : DTQCB :=
  if dtqcnt (p_dtqinib C) <=? dtq_tail C then C <| dtq_tail := 0 |> else C.
Definition wrap_head C : DTQCB :=
  if dtqcnt (p_dtqinib C) <=? dtq_head C then C <| dtq_head := 0 |> else C.

Definition enqueue_data i data : K () :=
  get s;; let C := dtqcb s i in
  set_dtqmb (p_dtqmb (p_dtqinib C)) (dtq_tail C) data ;;;
  upd_dtq i (fun C => C <| dtq_count := u32 (dtq_count C + 1) |>) ;;;
  upd_dtq i (fun C => C <| dtq_tail := u32 (dtq_tail C + 1) |>) ;;;
  upd_dtq i wrap_tail.

Definition force_enqueue_data i data : K () :=
  get s;; let C := dtqcb s i in
  set_dtqmb (p_dtqmb (p_dtqinib C)) (dtq_tail C) data ;;;
  upd_dtq i (fun C => C <| dtq_tail := u32 (dtq_tail C + 1) |>) ;;;
  upd_dtq i wrap_tail ;;;
  upd_dtq i (fun C =>
    if dtq_count C <? dtqcnt (p_dtqinib C)
    then C <| dtq_count := u32 (dtq_count C + 1) |>
    else C <| dtq_head := dtq_tail C |>).

Definition dequeue_data i : K Z :=
  get s;; let C := dtqcb s i in
  upd_dtq i (fun C => C <| dtq_count := u32 (dtq_count C - 1) |>) ;;;
  upd_dtq i (fun C => C <| dtq_head := u32 (dtq_head C + 1) |>) ;;;
  upd_dtq i wrap_head ;;;
  ret (o_dtqmb (obj s) (p_dtqmb (p_dtqinib C)) (dtq_head C)).

(** [((WINFO_DTQ * )(p_tcb->p_winfo))->data]. *)
Definition set_w_data (p_tcb : nat) data : K () :=
  get s;; the w := p_winfo (tcb_table s p_tcb) ;;
  upd (upd_winfo w (fun W => W <| w_data := data |>)).
Definition get_w_data (p_tcb : nat) : K Z :=
  get s;; the w := p_winfo (tcb_table s p_tcb) ;; ret (w_data (winfos s w)).

(** [Some dspreq] is the return of true with [*p_dspreq = dspreq]. *)
Definition send_data i data : K (option bool) :=
  get s;;
  if negb (queue_empty (RDTQ i) s) then
    p_tcb <- queue_delete_next (RDTQ i) ;;
    set_w_data p_tcb data ;;;
    b <- wait_complete p_tcb ;;
    ret (Some b)
  else if dtq_count (dtqcb s i) <? dtqcnt (p_dtqinib (dtqcb s i)) then
    enqueue_data i data ;;;
    ret (Some false)
  else ret None.

Definition force_send_data i data : K bool :=
  get s;;
  if negb (queue_empty (RDTQ i) s) then
    p_tcb <- queue_delete_next (RDTQ i) ;;
    set_w_data p_tcb data ;;;
    wait_complete p_tcb
  else
    force_enqueue_data i data ;;;
    ret false.

(** [Some (data, dspreq)] is the return of true. *)
Definition receive_data i : K (option (Z * bool)) :=
  get s;;
  if 0 <? dtq_count (dtqcb s i) then
    p_data <- dequeue_data i ;;
    get s;;
    if negb (queue_empty (SDTQ i) s) then
      p_tcb <- queue_delete_next (SDTQ i) ;;
      data <- get_w_data p_tcb ;;
      enqueue_data i data ;;;
      b <- wait_complete p_tcb ;;
      ret (Some (p_data, b))
    else ret (Some (p_data, false))
  else if negb (queue_empty (SDTQ i) s) then
    p_tcb <- queue_delete_next (SDTQ i) ;;
    p_data <- get_w_data p_tcb ;;
    b <- wait_complete p_tcb ;;
    ret (Some (p_data, b))
  else ret None.

(** ** The service calls *)

Definition acre_dtq (pk_cdtq : T_CDTQ) : K Z :=
  ! CHECK_TSKCTX_UNL ;;
  ! CHECK_RSATR (c_dtqatr pk_cdtq) TA_TPRI ;;
  ! CHECK_PAR ((c_dtqmb pk_cdtq =? 0) || MB_ALIGNED (c_dtqmb pk_cdtq)) ;;
  lock_cpu ;;;
  ercd <- (get s;;
    if (tnum_dtq =? 0)%nat || no_free (o_free_dtqcb (obj s)) then ret E_NOID
    else
      let alloc := negb (c_dtqcnt pk_cdtq =? 0) && (c_dtqmb pk_cdtq =? 0) in
      p_mb <- (if alloc then kernel_malloc (u32 (sizeof_DTQMB * c_dtqcnt pk_cdtq))
               else ret (c_dtqmb pk_cdtq)) ;;
      let atr := if alloc then Z.lor (c_dtqatr pk_cdtq) TA_MBALLOC else c_dtqatr pk_cdtq in
      if negb (c_dtqcnt pk_cdtq =? 0) && (p_mb =? 0) then ret E_NOMEM
      else
        i <- take_free o_free_dtqcb set_free_dtq ;;
        upd_dtq i (fun C => C <| p_dtqinib := mkDTQINIB atr (c_dtqcnt pk_cdtq) p_mb |>) ;;;
        queue_initialize (SDTQ i) ;;;
        queue_initialize (RDTQ i) ;;;
        upd_dtq i dtq_reset ;;;
        ret (IDOF i)) ;;
  unlock_cpu ;;;
  ret ercd.

Definition del_dtq dtqid : K Z :=
  ! CHECK_TSKCTX_UNL ;;
  ! CHECK_DTQID dtqid ;;
  let i := INDEX dtqid in
  lock_cpu ;;;
  ercd <- (get s;;
    if dtqatr (p_dtqinib (dtqcb s i)) =? TA_NOEXS then ret E_NOEXS
    else if tmax_sdtqid <? IDOF i then
      dspreq <- init_wait_queue (SDTQ i) ;;
      b <- init_wait_queue (RDTQ i) ;;
      let dspreq := if b : bool then true else dspreq in
      get s;;
      (if bits (dtqatr (p_dtqinib (dtqcb s i))) TA_MBALLOC
       then kernel_free (p_dtqmb (p_dtqinib (dtqcb s i))) else ret ()) ;;;
      set_dtqatr i TA_NOEXS ;;;
      set_free_dtq (fun l => l ++ [i]) ;;;
      (if dspreq then dispatch else ret ()) ;;;
      ret E_OK
    else ret E_OBJ) ;;
  unlock_cpu ;;;
  ret ercd.

Definition snd_dtq dtqid data : K Z :=
  ! CHECK_DISPATCH ;;
  ! CHECK_DTQID dtqid ;;
  let i := INDEX dtqid in
  lock_cpu ;;;
  ercd <- (get s;;
    if dtqatr (p_dtqinib (dtqcb s i)) =? TA_NOEXS then ret E_NOEXS
    else
      r <- send_data i data ;;
      match r with
      | Some dspreq => (if dspreq : bool then dispatch else ret ()) ;;; ret E_OK
      | None =>
          winfo_dtq <- new_winfo ;;
          upd (upd_winfo winfo_dtq (fun W => W <| w_data := data |>)) ;;;
          get s;; the t := p_runtsk s ;;
          set_tstat t (Z.lor TS_WAITING TS_WAIT_SDTQ) ;;;
          wobj_make_wait (SDTQ i) winfo_dtq ;;;
          dispatch ;;;
          get_wercd winfo_dtq
      end) ;;
  unlock_cpu ;;;
  ret ercd.

Definition psnd_dtq dtqid data : K Z :=
  ! CHECK_TSKCTX_UNL ;;
  ! CHECK_DTQID dtqid ;;
  let i := INDEX dtqid in
  lock_cpu ;;;
  ercd <- (get s;;
    if dtqatr (p_dtqinib (dtqcb s i)) =? TA_NOEXS then ret E_NOEXS
    else
      r <- send_data i data ;;
      match r with
      | Some dspreq => (if dspreq : bool then dispatch else ret ()) ;;; ret E_OK
      | None => ret E_TMOUT
      end) ;;
  unlock_cpu ;;;
  ret ercd.

Definition ipsnd_dtq dtqid data : K Z :=
  ! CHECK_INTCTX_UNL ;;
  ! CHECK_DTQID dtqid ;;
  let i := INDEX dtqid in
  lock_cpu ;;;
  ercd <- (get s;;
    if dtqatr (p_dtqinib (dtqcb s i)) =? TA_NOEXS then ret E_NOEXS
    else
      r <- send_data i data ;;
      match r with
      | Some dspreq => (if dspreq : bool then set_reqflg true else ret ()) ;;; ret E_OK
      | None => ret E_TMOUT
      end) ;;
  unlock_cpu ;;;
  ret ercd.

Definition tsnd_dtq dtqid data tmout : K Z :=
  ! CHECK_DISPATCH ;;
  ! CHECK_DTQID dtqid ;;
  ! CHECK_TMOUT tmout ;;
  let i := INDEX dtqid in
  lock_cpu ;;;
  ercd <- (get s;;
    if dtqatr (p_dtqinib (dtqcb s i)) =? TA_NOEXS then ret E_NOEXS
    else
      r <- send_data i data ;;
      match r with
      | Some dspreq => (if dspreq : bool then dispatch else ret ()) ;;; ret E_OK
      | None =>
          if tmout =? TMO_POL then ret E_TMOUT
          else
            winfo_dtq <- new_winfo ;;
            upd (upd_winfo winfo_dtq (fun W => W <| w_data := data |>)) ;;;
            get s;; the t := p_runtsk s ;;
            set_tstat t (Z.lor TS_WAITING TS_WAIT_SDTQ) ;;;
            wobj_make_wait_tmout (SDTQ i) winfo_dtq tmout ;;;
            dispatch ;;;
            get_wercd winfo_dtq
      end) ;;
  unlock_cpu ;;;
  ret ercd.

Definition fsnd_dtq dtqid data : K Z :=
  ! CHECK_TSKCTX_UNL ;;
  ! CHECK_DTQID dtqid ;;
  let i := INDEX dtqid in
  lock_cpu ;;;
  ercd <- (get s;;
    if dtqatr (p_dtqinib (dtqcb s i)) =? TA_NOEXS then ret E_NOEXS
    else if negb (0 <? dtqcnt (p_dtqinib (dtqcb s i))) then ret E_ILUSE
    else
      b <- force_send_data i data ;;
      (if b : bool then dispatch else ret ()) ;;;
      ret E_OK) ;;
  unlock_cpu ;;;
  ret ercd.

Definition ifsnd_dtq dtqid data : K Z :=
  ! CHECK_INTCTX_UNL ;;
  ! CHECK_DTQID dtqid ;;
  let i := INDEX dtqid in
  lock_cpu ;;;
  ercd <- (get s;;
    if dtqatr (p_dtqinib (dtqcb s i)) =? TA_NOEXS then ret E_NOEXS
    else if negb (0 <? dtqcnt (p_dtqinib (dtqcb s i))) then ret E_ILUSE
    else
      b <- force_send_data i data ;;
      (if b : bool then set_reqflg true else ret ()) ;;;
      ret E_OK) ;;
  unlock_cpu ;;;
  ret ercd.

(** The result of a receiver that has waited. *)
Definition dtq_result w : K (Z * option Z) :=
  ercd <- get_wercd w ;;
  get s;; ret (ercd, if ercd =? E_OK then Some (w_data (winfos s w)) else None).

Definition rcv_dtq dtqid : K (Z * option Z) :=
  ! CHECK_DISPATCH ;;
  ! CHECK_DTQID dtqid ;;
  let i := INDEX dtqid in
  lock_cpu ;;;
  r <- (get s;;
    if dtqatr (p_dtqinib (dtqcb s i)) =? TA_NOEXS then ret (E_NOEXS, None)
    else
      r <- receive_data i ;;
      match r with
      | Some (data, dspreq) => (if dspreq : bool then dispatch else ret ()) ;;; ret (E_OK, Some data)
      | None =>
          winfo_dtq <- new_winfo ;;
          get s;; the t := p_runtsk s ;;
          set_tstat t (Z.lor TS_WAITING TS_WAIT_RDTQ) ;;;
          make_wait winfo_dtq ;;;
          (get s;; the t := p_runtsk s ;; queue_insert_prev (RDTQ i) t) ;;;
          set_wobjcb winfo_dtq (SDTQ i) ;;;
          dispatch ;;;
          dtq_result winfo_dtq
      end) ;;
  unlock_cpu ;;;
  ret r.

Definition prcv_dtq dtqid : K (Z * option Z) :=
  ! CHECK_TSKCTX_UNL ;;
  ! CHECK_DTQID dtqid ;;
  let i := INDEX dtqid in
  lock_cpu ;;;
  r <- (get s;;
    if dtqatr (p_dtqinib (dtqcb s i)) =? TA_NOEXS then ret (E_NOEXS, None)
    else
      r <- receive_data i ;;
      match r with
      | Some (data, dspreq) => (if dspreq : bool then dispatch else ret ()) ;;; ret (E_OK, Some data)
      | None => ret (E_TMOUT, None)
      end) ;;
  unlock_cpu ;;;
  ret r.

Definition trcv_dtq dtqid tmout : K (Z * option Z) :=
  ! CHECK_DISPATCH ;;
  ! CHECK_DTQID dtqid ;;
  ! CHECK_TMOUT tmout ;;
  let i := INDEX dtqid in
  lock_cpu ;;;
  r <- (get s;;
    if dtqatr (p_dtqinib (dtqcb s i)) =? TA_NOEXS then ret (E_NOEXS, None)
    else
      r <- receive_data i ;;
      match r with
      | Some (data, dspreq) => (if dspreq : bool then dispatch else ret ()) ;;; ret (E_OK, Some data)
      | None =>
          if tmout =? TMO_POL then ret (E_TMOUT, None)
          else
            winfo_dtq <- new_winfo ;;
            get s;; the t := p_runtsk s ;;
            set_tstat t (Z.lor TS_WAITING TS_WAIT_RDTQ) ;;;
            make_wait_tmout winfo_dtq tmout ;;;
            (get s;; the t := p_runtsk s ;; queue_insert_prev (RDTQ i) t) ;;;
            set_wobjcb winfo_dtq (SDTQ i) ;;;
            dispatch ;;;
            dtq_result winfo_dtq
      end) ;;
  unlock_cpu ;;;
  ret r.

Definition ini_dtq dtqid : K Z :=
  ! CHECK_TSKCTX_UNL ;;
  ! CHECK_DTQID dtqid ;;
  let i := INDEX dtqid in
  lock_cpu ;;;
  ercd <- (get s;;
    if dtqatr (p_dtqinib (dtqcb s i)) =? TA_NOEXS then ret E_NOEXS
    else
      dspreq <- init_wait_queue (SDTQ i) ;;
      b <- init_wait_queue (RDTQ i) ;;
      let dspreq := if b : bool then true else dspreq in
      upd_dtq i dtq_reset ;;;
      (if dspreq then dispatch else ret ()) ;;;
      ret E_OK) ;;
  unlock_cpu ;;;
  ret ercd.

Definition ref_dtq dtqid : K (Z * option T_RDTQ) :=
  ! CHECK_TSKCTX_UNL ;;
  ! CHECK_DTQID dtqid ;;
  let i := INDEX dtqid in
  lock_cpu ;;;
  r <- (get s;;
    if dtqatr (p_dtqinib (dtqcb s i)) =? TA_NOEXS then ret (E_NOEXS, None)
    else ret (E_OK, Some (mkT_RDTQ (wait_tskid (SDTQ i) s) (wait_tskid (RDTQ i) s)
      (dtq_count (dtqcb s i))))) ;;
  unlock_cpu ;;;
  ret r.

(** ** The ring buffer implements a list *)

Definition dtq_enq C : DTQCB :=
  wrap_tail ((C <| dtq_count := u32 (dtq_count C + 1) |>) <| dtq_tail ::= fun t => u32 (t + 1) |>).
Definition dtq_deq C : DTQCB :=
  wrap_head ((C <| dtq_count := u32 (dtq_count C - 1) |>) <| dtq_head ::= fun h => u32 (h + 1) |>).

Record dtq_ring C : Prop := {
  dr_count : 0 ≤ dtq_count C ≤ dtqcnt (p_dtqinib C);
  dr_cnt : dtqcnt (p_dtqinib C) < 2^32;
  dr_head : 0 ≤ dtq_head C ∧ (dtq_head C < dtqcnt (p_dtqinib C) ∨ dtqcnt (p_dtqinib C) = 0 ∧ dtq_head C = 0);
  dr_tail : 0 ≤ dtq_tail C ∧
    (0 < dtqcnt (p_dtqinib C) → dtq_tail C = (dtq_head C + dtq_count C) `mod` dtqcnt (p_dtqinib C)) }.

Definition dtq_contents (M : Z → Z) C : list Z :=
  (fun k => M ((dtq_head C + k) `mod` dtqcnt (p_dtqinib C))) <$> seqZ 0 (dtq_count C).

Lemma dtq_ring_reset C : 0 ≤ dtqcnt (p_dtqinib C) < 2^32 → dtq_ring (dtq_reset C).
Proof.
  intros Hc. split; simpl; try lia. split; [lia|]. intros Hp. by rewrite Z.mod_small by lia.
Qed.

Lemma dtq_contents_reset M C : dtq_contents M (dtq_reset C) = [].
Proof. done. Qed.

Lemma mod_wrap a n : 0 < n → 0 ≤ a < 2 * n → a `mod` n = if n <=? a then a - n else a.
Proof.
  intros Hn Ha. destruct (Z.leb_spec n a).
  - symmetry. apply (Z.mod_unique _ _ 1); lia.
  - apply Z.mod_small. lia.
Qed.

Lemma seqZ_snoc a n : 0 ≤ n → seqZ a (n + 1) = seqZ a n ++ [a + n].
Proof. intros Hn. by rewrite seqZ_app by lia. Qed.

Lemma dtq_enq_eq C : dtq_ring C → dtq_count C < dtqcnt (p_dtqinib C) →
  p_dtqinib (dtq_enq C) = p_dtqinib C ∧ dtq_head (dtq_enq C) = dtq_head C ∧
  dtq_count (dtq_enq C) = dtq_count C + 1 ∧
  dtq_tail (dtq_enq C) = (dtq_head C + (dtq_count C + 1)) `mod` dtqcnt (p_dtqinib C).
Proof.
  intros [Hc Hn [Hh0 Hh] [Ht0 Ht]] Hlt.
  unfold dtq_enq, wrap_tail, u32. simpl. specialize (Ht ltac:(lia)).
  pose proof (Z.mod_pos_bound (dtq_head C + dtq_count C) (dtqcnt (p_dtqinib C)) ltac:(lia)).
  rewrite (Z.mod_small (dtq_tail C + 1)) by lia. rewrite (Z.mod_small (dtq_count C + 1)) by lia.
  rewrite (mod_wrap (_ + _)) in Ht, H by lia. rewrite (mod_wrap (_ + (_ + 1))) by lia.
  revert Ht H. leb_cases; simpl; intros; split_and!; try done; rewrite ?Z.mod_small by lia; lia.
Qed.

Lemma dtq_enq_ok M C d : dtq_ring C → dtq_count C < dtqcnt (p_dtqinib C) →
  dtq_ring (dtq_enq C) ∧ dtq_contents (<[dtq_tail C := d]> M) (dtq_enq C) = dtq_contents M C ++ [d].
Proof.
  intros HR Hlt. destruct (dtq_enq_eq C HR Hlt) as (E1 & E2 & E3 & E4).
  destruct HR as [Hc Hn [Hh0 Hh] [Ht0 Ht]]. specialize (Ht ltac:(lia)). split.
  - split; rewrite ?E1, ?E2, ?E3, ?E4; try done; try lia. split; [apply Z.mod_pos_bound; lia|done].
  - unfold dtq_contents. rewrite E1, E2, E3, seqZ_snoc, fmap_app by lia. f_equal.
    + apply list_fmap_ext. intros n k Hk%list_elem_of_lookup_2%elem_of_seqZ.
      apply fn_lookup_insert_ne. rewrite Ht, !mod_wrap by lia.
      leb_cases; lia.
    + simpl. by rewrite Z.add_0_l, <- Ht, fn_lookup_insert.
Qed.

Lemma dtq_deq_ok M C : dtq_ring C → 0 < dtq_count C →
  p_dtqinib (dtq_deq C) = p_dtqinib C ∧ dtq_count (dtq_deq C) = dtq_count C - 1 ∧ dtq_ring (dtq_deq C) ∧
  dtq_contents M C = M (dtq_head C) :: dtq_contents M (dtq_deq C).
Proof.
  intros [Hc Hn [Hh0 Hh] [Ht0 Ht]] Hlt. specialize (Ht ltac:(lia)).
  assert (E : p_dtqinib (dtq_deq C) = p_dtqinib C ∧ dtq_tail (dtq_deq C) = dtq_tail C ∧
    dtq_count (dtq_deq C) = dtq_count C - 1 ∧ dtq_head (dtq_deq C) = (dtq_head C + 1) `mod` dtqcnt (p_dtqinib C)).
  { unfold dtq_deq, wrap_head, u32. simpl. rewrite (Z.mod_small (dtq_count C - 1)) by lia.
    rewrite (Z.mod_small (dtq_head C + 1)) by lia. rewrite mod_wrap by lia.
    leb_cases; simpl; split_and!; try done; rewrite ?Z.mod_small by lia; lia. }
  destruct E as (E1 & E2 & E3 & E4). split; [done|]. split; [done|].
  pose proof (Z.mod_pos_bound (dtq_head C + 1) (dtqcnt (p_dtqinib C)) ltac:(lia)). split.
  - split; rewrite ?E1, ?E2, ?E3, ?E4; try lia. split; [done|]. intros _. rewrite Ht.
    rewrite Zplus_mod_idemp_l. f_equal. lia.
  - unfold dtq_contents. rewrite E1, E3, E4.
    replace (dtq_count C) with (Z.succ (dtq_count C - 1)) at 1 by lia. rewrite seqZ_cons by lia.
    simpl. f_equal; [f_equal; rewrite Z.mod_small; lia|].
    replace (Z.pred (Z.succ (dtq_count C - 1))) with (dtq_count C - 1) by lia.
    rewrite <- (fmap_add_seqZ 1 0), <- list_fmap_compose. apply list_fmap_ext. intros n k _. simpl.
    rewrite Zplus_mod_idemp_l. do 2 f_equal. lia.
Qed.

Lemma DTQCB_eq C1 C2 : p_dtqinib C1 = p_dtqinib C2 → dtq_count C1 = dtq_count C2 →
  dtq_head C1 = dtq_head C2 → dtq_tail C1 = dtq_tail C2 → C1 = C2.
Proof. destruct C1, C2. simpl. congruence. Qed.

Lemma dtq_force_ok M C d : dtq_ring C → 0 < dtqcnt (p_dtqinib C) →
  let C' := wrap_tail (C <| dtq_tail ::= fun t => u32 (t + 1) |>) in
  let C'' := if dtq_count C' <? dtqcnt (p_dtqinib C')
    then C' <| dtq_count := u32 (dtq_count C' + 1) |> else C' <| dtq_head := dtq_tail C' |> in
  p_dtqinib C'' = p_dtqinib C ∧ dtq_ring C'' ∧ 0 < dtq_count C'' ∧
  dtq_contents (<[dtq_tail C := d]> M) C'' =
    (if dtq_count C <? dtqcnt (p_dtqinib C) then dtq_contents M C else tail (dtq_contents M C)) ++ [d].
Proof.
  intros HR Hpos C' C''. pose proof HR as [Hc Hn [Hh0 Hh] [Ht0 Ht]]. specialize (Ht ltac:(lia)).
  assert (E : p_dtqinib C' = p_dtqinib C ∧ dtq_count C' = dtq_count C ∧ dtq_head C' = dtq_head C).
  { unfold C', wrap_tail. by destruct (_ <=? _). }
  destruct E as (E1 & E2 & E3). unfold C''. rewrite E1, E2.
  destruct (Z.ltb_spec (dtq_count C) (dtqcnt (p_dtqinib C))) as [Hlt|Hge].
  - destruct (dtq_enq_ok M C d HR Hlt) as [HR' HC].
    assert (He : C' <| dtq_count := u32 (dtq_count C + 1) |> = dtq_enq C).
    { unfold C', dtq_enq, wrap_tail. simpl. by destruct (_ <=? _). }
    rewrite He. destruct (dtq_enq_eq C HR Hlt) as (F1 & F2 & F3 & F4). split_and!; try done. lia.
  - destruct (dtq_deq_ok M C HR ltac:(lia)) as (D1 & D2 & D3 & D4). rewrite D4. simpl.
    destruct (dtq_enq_ok M (dtq_deq C) d D3) as [HR' HC]; [rewrite D1, D2; lia|].
    assert (Hhd : dtq_head C = dtq_tail C).
    { rewrite Ht, mod_wrap by lia. leb_cases; lia. }
    assert (He : C' <| dtq_head := dtq_tail C' |> = dtq_enq (dtq_deq C)).
    { unfold C', dtq_enq, dtq_deq, wrap_tail, wrap_head, u32. simpl. rewrite <- Hhd.
      destruct (dtqcnt (p_dtqinib C) <=? (dtq_head C + 1) `mod` 2 ^ 32) eqn:Hle;
        simpl; rewrite <- ?Hhd, Hle; simpl; rewrite (Z.mod_small (dtq_count C - 1)) by lia.
      all: apply DTQCB_eq; simpl; try done; rewrite ?Z.mod_small by lia; lia. }
    assert (Htl : dtq_tail (dtq_deq C) = dtq_tail C) by (unfold dtq_deq, wrap_head; simpl; by destruct (_ <=? _)).
    rewrite He, <- Htl. split_and!; try done.
    rewrite E2. lia.
Qed.

(** ** The invariant

    Senders wait only when the queue is full, receivers only when it is empty,
    and never both. *)
Record dtq_ok C (S R : list nat) : Prop := {
  dtq_buf : dtq_ring C;
  dtq_send : S ≠ [] → dtq_count C = dtqcnt (p_dtqinib C);
  dtq_recv : R ≠ [] → dtq_count C = 0;
  dtq_excl : S = [] ∨ R = [] }.

Lemma subset_nil (l l' : list nat) : (∀ x, x ∈ l' → x ∈ l) → l = [] → l' = [].
Proof. intros Hsub ->. destruct l' as [|x l']; [done|]. by destruct (not_elem_of_nil x); apply Hsub; left. Qed.

Lemma dtq_ok_shrink C S R S' R' :
  (∀ x, x ∈ S' → x ∈ S) → (∀ x, x ∈ R' → x ∈ R) → dtq_ok C S R → dtq_ok C S' R'.
Proof.
  intros HS HR [O1 O2 O3 O4]. split; [done| | |].
  - intros Hn. apply O2. intros Hx. by apply Hn, (subset_nil S).
  - intros Hn. apply O3. intros Hx. by apply Hn, (subset_nil R).
  - destruct O4; [left; by eapply subset_nil|right; by eapply subset_nil].
Qed.

#[export] Instance dtq_kind : Kind DTQCB.
Proof.
  refine {| cbs := o_dtqcb; frees := o_free_dtqcb; cb_atr := fun C => dtqatr (p_dtqinib C);
    cb_queue := SDTQ; cb_of := fun q => match q with SDTQ i | RDTQ i => Some i | _ => None end;
    cb_only := fun o o' => o' = o <| o_dtqcb := o_dtqcb o' |> <| o_free_dtqcb := o_free_dtqcb o' |>
      <| o_dtqmb := o_dtqmb o' |>;
    cb_ok := fun s i => dtq_ok (dtqcb s i) (wq s (SDTQ i)) (wq s (RDTQ i)) |}.
  - intros s q i Hq. by destruct q; simplify_eq.
  - intros F s q Hq Hon. destruct q; simpl in *; try rewrite Hon; done.
  - done.
  - intros TR Y P s s' i X HF HX ->. apply dtq_ok_shrink; intros x Hx.
    + by apply (fr_queue _ _ _ _ HF (SDTQ i) x), HX.
    + by apply (fr_queue _ _ _ _ HF (RDTQ i) x), HX.
  - by intros [].
  - intros q i Hq. by destruct q.
Defined.
Notation dtq_inv := (kind_inv (kd := dtq_kind)).

(** What is in the queue, then what the waiting senders bring. *)
Definition contents s i : list Z :=
  dtq_contents (o_dtqmb (obj s) (p_dtqmb (p_dtqinib (dtqcb s i)))) (dtqcb s i).
Definition sender_data s (t : nat) : Z :=
  match p_winfo (tcb_table s t) with Some w => w_data (winfos s w) | None => 0 end.
Definition dtq_view s i : list Z := contents s i ++ (sender_data s <$> wq s (SDTQ i)).

(** A change of the ring buffer of queue [i]. *)
Record dtq_step i C' (M' : Z → Z) (o o' : OBJ) : Prop := {
  ds_only : o' = o <| o_dtqcb := o_dtqcb o' |> <| o_dtqmb := o_dtqmb o' |>;
  ds_other : ∀ j, j ≠ i → o_dtqcb o' j = o_dtqcb o j;
  ds_cb : o_dtqcb o' i = C';
  ds_ini : p_dtqinib C' = p_dtqinib (o_dtqcb o i);
  ds_mb : o_dtqmb o' (p_dtqmb (p_dtqinib C')) = M' }.

Section ring.
Context (s : State) (i : nat).
Notation C := (dtqcb s i).
Notation M := (o_dtqmb (obj s) (p_dtqmb (p_dtqinib C))).

Lemma enqueue_data_eq d : p_dtqinib (dtq_enq C) = p_dtqinib C →
  ∃ F, enqueue_data i d s = RET () (upd_obj F s) ∧
    dtq_step i (dtq_enq C) (<[dtq_tail C := d]> M) (obj s) (F (obj s)).
Proof.
  intros Hini. eexists (fun o => _). split; [reflexivity|]. split; try done.
  - intros j Hne. cb_lookup.
  - cb_lookup. 
  - simpl. rewrite Hini. by rewrite fn_lookup_insert.
Qed.

Lemma dequeue_data_eq : p_dtqinib (dtq_deq C) = p_dtqinib C →
  ∃ F, dequeue_data i s = RET (M (dtq_head C)) (upd_obj F s) ∧ dtq_step i (dtq_deq C) M (obj s) (F (obj s)).
Proof.
  intros Hini. eexists (fun o => _). split; [reflexivity|]. split; try done.
  - intros j Hne. cb_lookup.
  - cb_lookup.
  - simpl. by rewrite Hini.
Qed.

Definition dtq_force C : DTQCB :=
  let C := wrap_tail (C <| dtq_tail ::= fun t => u32 (t + 1) |>) in
  if dtq_count C <? dtqcnt (p_dtqinib C) then C <| dtq_count := u32 (dtq_count C + 1) |>
  else C <| dtq_head := dtq_tail C |>.

Lemma force_enqueue_data_eq d : p_dtqinib (dtq_force C) = p_dtqinib C →
  ∃ F, force_enqueue_data i d s = RET () (upd_obj F s) ∧
    dtq_step i (dtq_force C) (<[dtq_tail C := d]> M) (obj s) (F (obj s)).
Proof.
  intros Hini. eexists (fun o => _). split; [reflexivity|]. split; try done.
  - intros j Hne. cb_lookup.
  - cb_lookup.
  - simpl. rewrite Hini. by rewrite fn_lookup_insert.
Qed.
End ring.

Lemma dtq_step_atr i C' M' F s q :
  dtq_step i C' M' (obj s) (F (obj s)) → wobjatr (upd_obj F s) q = wobjatr s q.
Proof.
  intros [D1 D2 D3 D4 D5].
  assert (Hj : ∀ j, p_dtqinib (o_dtqcb (F (obj s)) j) = p_dtqinib (dtqcb s j)).
  { intros j. destruct (decide (j = i)) as [->|Hne]; [by rewrite D3, D4|by rewrite D2]. }
  destruct q; simpl; rewrite ?Hj; try done; by rewrite D1.
Qed.

Lemma dtq_step_refl i o : dtq_step i (o_dtqcb o i) (o_dtqmb o (p_dtqmb (p_dtqinib (o_dtqcb o i)))) o o.
Proof. split; try done. by destruct o. Qed.

Section calls.
Context (OInv : State → Prop) `{!Objects OInv}.
Context `{!Component OInv dtq_inv (kind_own (kd := dtq_kind)) (cb_only (Kind := dtq_kind))}.
Context `{!Component OInv kmm_inv (fun _ => False) kmm_only}.
Notation WP := (wp (rely OInv) (guar OInv)).
Notation Inv := (Inv OInv).
Notation OK := (OK OInv).
Notation Mid := (Mid OInv).

Lemma dtq_exists s i :
  OInv s → dtqatr (p_dtqinib (dtqcb s i)) ≠ TA_NOEXS →
  i ∉ o_free_dtqcb (obj s) ∧ dtq_ok (dtqcb s i) (wq s (SDTQ i)) (wq s (RDTQ i)) ∧ header_ok s (SDTQ i) = true.
Proof. intros HO. apply (kind_exists (kd := dtq_kind)), comp_get, HO. Qed.

(** The ring buffer of an existing queue changes while tasks move. *)
Lemma dtq_move s s' i C' M' :
  OInv s → dtqatr (p_dtqinib (dtqcb s i)) ≠ TA_NOEXS → frame (fun _ => False) any_obj s s' →
  dtq_step i C' M' (obj s) (obj s') → dtq_ok C' (wq s' (SDTQ i)) (wq s' (RDTQ i)) → OInv s'.
Proof.
  intros HO He HF [D1 D2 D3 D4 D5] Hok. destruct (dtq_exists s i HO He) as (Hfree & _).
  eapply (kind_move (kd := dtq_kind) OInv any_obj s s' i); simpl; try done.
  - rewrite D1. by destruct (obj s).
  - by rewrite D1.
  - apply kind_ok_intro; unfold gone; simpl; rewrite D3; [by rewrite D4|done].
Qed.

Lemma dtq_put g s i F C' M' :
  Inv g s → dtqatr (p_dtqinib (dtqcb s i)) ≠ TA_NOEXS → dtq_step i C' M' (obj s) (F (obj s)) →
  dtq_ok C' (wq s (SDTQ i)) (wq s (RDTQ i)) → Mid g (upd_obj F s).
Proof.
  intros HI He Hst Hok. apply Mid_obj; [by apply Inv_Mid| |].
  - intros q _. left. by eapply dtq_step_atr.
  - eapply dtq_move; [apply HI|exact He|by apply frame_obj; [apply frame_refl|]|exact Hst|exact Hok].
Qed.

Lemma dtq_step_contents s' i C' M' o :
  dtq_step i C' M' o (obj s') → contents s' i = dtq_contents M' C'.
Proof. intros [D1 D2 D3 D4 D5]. unfold contents. by rewrite D3, D5. Qed.

(** *** Sending *)

(** A receiver gets the data. *)
Lemma dtq_hand g s i d t l :
  Inv g s → dtqatr (p_dtqinib (dtqcb s i)) ≠ TA_NOEXS → wq s (RDTQ i) = t :: l →
  ∃ w b s', (p <- queue_delete_next (RDTQ i) ;; set_w_data p d ;;; wait_complete p) s = RET b s' ∧
    progress OInv g s b s' ∧ p_winfo (tcb_table s t) = Some w ∧ w_data (winfos s' w) = d ∧
    winfo (winfos s' w) = WERCD E_OK ∧ wq s' (RDTQ i) = l ∧ wq s' (SDTQ i) = wq s (SDTQ i) ∧ obj s' = obj s.
Proof.
  intros HI He Hl.
  destruct (wake_fill_ok OInv g s (RDTQ i) t l (fun W => W <| w_data := d |>) HI eq_refl Hl)
    as (w & s1 & b & s' & E1 & Hw1 & Hw & E2 & Hp & HW & Hq & Ho & Hoth); [done|].
  exists w, b, s'. split_and!; try done; rewrite ?HW; try done; [|by apply Hoth].
  rewrite (bind_RET _ _ _ _ _ E1). unfold set_w_data, bind at 1, kget, deref. by rewrite Hw1.
Qed.

Definition sent s i d (b : bool) s' : Prop :=
  (∃ t w, wq s (RDTQ i) = t :: wq s' (RDTQ i) ∧ p_winfo (tcb_table s t) = Some w ∧
    w_data (winfos s' w) = d ∧ winfo (winfos s' w) = WERCD E_OK ∧ obj s' = obj s) ∨
  (wq s (RDTQ i) = [] ∧ b = false ∧ contents s' i = contents s i ++ [d] ∧ wq s' = wq s).

Lemma send_data_ok g s i d :
  Inv g s → dtqatr (p_dtqinib (dtqcb s i)) ≠ TA_NOEXS →
  ∃ r s', send_data i d s = RET r s' ∧
    match r with
    | Some b => progress OInv g s b s' ∧ sent s i d b s'
    | None => s' = s ∧ wq s (RDTQ i) = [] ∧ dtq_count (dtqcb s i) = dtqcnt (p_dtqinib (dtqcb s i))
    end.
Proof.
  intros HI He. destruct (dtq_exists s i (i_obj _ _ _ HI) He) as (Hfree & Hok & _).
  unfold send_data, kget, queue_empty, Fam.queue_empty. destruct (wq s (RDTQ i)) as [|t l] eqn:Hl; simpl.
  - destruct (Z.ltb_spec (dtq_count (dtqcb s i)) (dtqcnt (p_dtqinib (dtqcb s i)))) as [Hlt|Hge].
    + destruct Hok as [HR O2 O3 O4].
      destruct (enqueue_data_eq s i d) as (F & E & Hst); [by apply dtq_enq_eq|].
      destruct (dtq_enq_ok (o_dtqmb (obj s) (p_dtqmb (p_dtqinib (dtqcb s i)))) _ d HR Hlt) as [HR' HC].
      assert (Hnil : wq s (SDTQ i) = []).
      { destruct (wq s (SDTQ i)); [done|]. rewrite O2 in Hlt by done. lia. }
      exists (Some false), (upd_obj F s). rewrite (bind_RET _ _ _ _ _ E). split; [done|]. split.
      * apply progress_none; try done. eapply dtq_put; [done|done|exact Hst|]. rewrite Hnil, Hl. split; try done. by left.
      * right. split_and!; try done. by rewrite (dtq_step_contents (upd_obj F s) _ _ _ _ Hst).
    + exists None, s. split_and!; try done. destruct Hok as [[Hc _ _ _] _ _ _]. lia.
  - destruct (dtq_hand g s i d t l HI He Hl) as (w & b & s' & E & Hp & Hw & D1 & D2 & D3 & D4 & D5).
    exists (Some b), s'. split; [|split; [done|left; exists t, w; by rewrite D3]].
    unfold bind in *. destruct (queue_delete_next (RDTQ i) s) as [p s1|? ? ?|]; simpl in *; [|done|done].
    destruct (set_w_data p d s1) as [[] s2|? ? ?|]; simpl in *; [|done|done]. by rewrite E.
Qed.

Lemma force_send_data_ok g s i d :
  Inv g s → dtqatr (p_dtqinib (dtqcb s i)) ≠ TA_NOEXS → 0 < dtqcnt (p_dtqinib (dtqcb s i)) →
  ∃ b s', force_send_data i d s = RET b s' ∧ progress OInv g s b s' ∧
    (wq s (RDTQ i) = [] → contents s' i =
      (if dtq_count (dtqcb s i) <? dtqcnt (p_dtqinib (dtqcb s i)) then contents s i else tail (contents s i)) ++ [d]).
Proof.
  intros HI He Hpos. destruct (dtq_exists s i (i_obj _ _ _ HI) He) as (Hfree & Hok & _).
  unfold force_send_data, kget, queue_empty, Fam.queue_empty. destruct (wq s (RDTQ i)) as [|t l] eqn:Hl; simpl.
  - destruct Hok as [HR O2 O3 O4].
    destruct (dtq_force_ok (o_dtqmb (obj s) (p_dtqmb (p_dtqinib (dtqcb s i)))) _ d HR Hpos) as (F1 & F2 & F3 & F4).
    destruct (force_enqueue_data_eq s i d F1) as (F & E & Hst).
    exists false, (upd_obj F s). rewrite (bind_RET _ _ _ _ _ E). split; [done|]. split.
    + apply progress_none; try done. eapply dtq_put; [done|done|exact Hst|]. split; [done| | |by right].
      * intros Hs. specialize (O2 Hs). unfold dtq_force, wrap_tail. simpl.
        destruct (_ <=? _); simpl; (destruct (Z.ltb_spec (dtq_count (dtqcb s i)) (dtqcnt (p_dtqinib (dtqcb s i)))); [lia|done]).
      * by rewrite Hl.
    + intros _. by rewrite (dtq_step_contents (upd_obj F s) _ _ _ _ Hst).
  - destruct (dtq_hand g s i d t l HI He Hl) as (w & b & s' & E & Hp & Hw & D1 & D2 & D3 & D4 & D5).
    by exists b, s'.
Qed.

(** *** Receiving *)

Lemma dtq_step_trans i C1 C2 M1 M2 o1 o2 o3 :
  dtq_step i C1 M1 o1 o2 → dtq_step i C2 M2 o2 o3 → dtq_step i C2 M2 o1 o3.
Proof.
  intros [A1 A2 A3 A4 A5] [B1 B2 B3 B4 B5]. split; try done.
  - rewrite B1, A1. by destruct o1.
  - intros j Hj. by rewrite B2, A2.
  - by rewrite B4, A3, A4.
Qed.

(** The sender at the head of the queue; [s] is the state in which the data
    queue may have been changed already, [F] what is done with its data. *)
Lemma dtq_sender g s i t l :
  KInv g s → settled g → wq s (SDTQ i) = t :: l →
  ∃ s1 w susp, queue_delete_next (SDTQ i) s = RET t s1 ∧ get_w_data t s1 = RET (sender_data s t) s1 ∧
    obj s1 = obj s ∧ s1 = upd_wq (fun _ => <[SDTQ i := l]> (wq s)) s ∧
    ∀ F C' M', (∀ q, wobjatr (upd_obj F s1) q = wobjatr s1 q) → dtq_step i C' M' (obj s) (F (obj s1)) →
      ∃ b s', wait_complete t (upd_obj F s1) = RET b s' ∧ woken g s t w susp (upd_obj F s1) b s' ∧
        wq s' (SDTQ i) = l ∧ (sender_data s' <$> l = sender_data s <$> l) ∧
        (∀ x, x ∈ wq s' (RDTQ i) → x ∈ wq s (RDTQ i)).
Proof.
  intros HK Hset Hl. destruct (wake_obj_ok g s (SDTQ i) t l HK Hset eq_refl Hl) as (s1 & w & susp & E1 & Hs1 & Hw & Hwk).
  exists s1, w, susp. split; [done|]. split.
  { subst s1. unfold get_w_data, kget, sender_data. simpl. by rewrite Hw. }
  split; [by subst s1|]. split; [done|]. intros F C' M' Ha Hst.
  destruct (Hwk F Ha) as (b & s' & E & HW & Hq & Hrest & Hsub). exists b, s'. split_and!; try done; [|intros x; by apply Hsub].
  apply list_fmap_ext. intros k x Hx%list_elem_of_lookup_2. unfold sender_data. destruct (Hrest x Hx) as [-> H2].
  destruct (p_winfo (tcb_table s x)) as [w'|]; [by rewrite H2|done].
Qed.

(** The buffer holds data and the first sender's moves up. *)
Lemma receive_refill_ok g s i t l :
  Inv g s → dtqatr (p_dtqinib (dtqcb s i)) ≠ TA_NOEXS → 0 < dtq_count (dtqcb s i) → wq s (SDTQ i) = t :: l →
  ∃ d b s', receive_data i s = RET (Some (d, b)) s' ∧ progress OInv g s b s' ∧ dtq_view s i = d :: dtq_view s' i.
Proof.
  intros HI He Hpos Hl. destruct (dtq_exists s i (i_obj _ _ _ HI) He) as (Hfree & [HR O2 O3 O4] & _).
  set (M := o_dtqmb (obj s) (p_dtqmb (p_dtqinib (dtqcb s i)))).
  unfold receive_data, kget at 1. rewrite (proj2 (Z.ltb_lt _ _) Hpos). destruct (dtq_deq_ok M _ HR Hpos) as (D1 & D2 & D3 & D4).
  destruct (dequeue_data_eq s i D1) as (F1 & E1 & St1). fold M in St1, E1.
  rewrite (bind_RET _ _ _ _ _ E1). unfold kget, queue_empty, Fam.queue_empty. set (s1 := upd_obj F1 s).
  change (wq s1) with (wq s). rewrite Hl in *. simpl.
  assert (HK1 : KInv g s1) by (apply KInv_obj; [apply HI|intros q _; left; by eapply dtq_step_atr]).
  destruct (dtq_sender g s1 i t l HK1 (i_settled _ _ _ HI) Hl) as (s2 & w & susp & E2 & E3 & Ho2 & Hs2 & Hwk).
  rewrite (bind_RET _ _ _ _ _ E2), (bind_RET _ _ _ _ _ E3).
  assert (HC2 : dtqcb s2 i = dtq_deq (dtqcb s i)) by (rewrite Ho2; apply St1).
  assert (Hlt : dtq_count (dtqcb s2 i) < dtqcnt (p_dtqinib (dtqcb s2 i))) by (rewrite HC2, D1, D2; destruct HR; lia).
  assert (HR2 : dtq_ring (dtqcb s2 i)) by (by rewrite HC2).
  destruct (enqueue_data_eq s2 i (sender_data s1 t)) as (F2 & E4 & St2); [by apply dtq_enq_eq|].
  assert (HM2 : o_dtqmb (obj s2) (p_dtqmb (p_dtqinib (dtqcb s2 i))) = M).
  { rewrite HC2, Ho2. apply (ds_mb _ _ _ _ _ St1). }
  rewrite HM2 in St2. rewrite (bind_RET _ _ _ _ _ E4).
  assert (St3 := dtq_step_trans _ _ _ _ _ _ _ _ St1 (eq_rect _ (fun o => dtq_step _ _ _ o _) St2 _ Ho2)).
  destruct (Hwk F2 _ _ (fun q => dtq_step_atr _ _ _ _ _ q St2)
    (eq_rect _ (fun o => dtq_step _ _ _ o (F2 (obj s2))) St2 _ Ho2)) as (b & s' & E5 & HW & Hq & Hd & Hr).
  rewrite (bind_RET _ _ _ _ _ E5). eexists _, b, s'. split; [reflexivity|].
  destruct HW as [W1 W2 W3 W4 W5 W6 W7 W8].
  assert (Hobj : obj s' = F2 (obj s2)) by apply (fr_obj _ _ _ _ W3).
  rewrite <- Hobj in St3. destruct (dtq_enq_ok M _ (sender_data s1 t) HR2 Hlt) as [HR' HC'].
  assert (HRnil : wq s (RDTQ i) = []) by (by destruct O4).
  split.
  - exists (<[t := after_wait susp]> g). split_and!; try done; try apply W3. split; [done..|].
    eapply (dtq_move s); [apply HI|exact He| |exact St3|].
    + eapply frame_any_trans; [|exact W3]. by apply (frame_obj _ any_obj F1); [apply frame_refl|].
    + rewrite Hq. split; [done| | |].
      * intros _. destruct (dtq_enq_eq _ HR2 Hlt) as (E6 & _ & E7 & _). rewrite E6, E7, HC2, D1, D2, O2 by done. lia.
      * intros Hx. destruct Hx. eapply (subset_nil (wq s (RDTQ i))); [exact Hr|done].
      * right. eapply (subset_nil (wq s (RDTQ i))); [exact Hr|done].
  - unfold dtq_view. rewrite Hq, Hl, Hd. rewrite (dtq_step_contents s' _ _ _ _ St3), HC', HC2.
    unfold contents at 1. fold M. rewrite D4. simpl. by rewrite <- app_assoc.
Qed.

(** The buffer is empty: the data come from the first sender. *)
Lemma receive_direct_ok g s i t l :
  Inv g s → dtq_count (dtqcb s i) = 0 → wq s (SDTQ i) = t :: l →
  ∃ d b s', receive_data i s = RET (Some (d, b)) s' ∧ progress OInv g s b s' ∧ dtq_view s i = d :: dtq_view s' i.
Proof.
  intros HI Hc0 Hl. unfold receive_data, kget at 1. rewrite Hc0. simpl.
  unfold queue_empty, Fam.queue_empty. rewrite Hl. simpl.
  destruct (dtq_sender g s i t l (i_k _ _ _ HI) (i_settled _ _ _ HI) Hl)
    as (s2 & w & susp & E2 & E3 & Ho2 & Hs2 & Hwk).
  rewrite (bind_RET _ _ _ _ _ E2), (bind_RET _ _ _ _ _ E3).
  assert (St := dtq_step_refl i (obj s)).
  assert (Hid : upd_obj (fun o => o) s2 = s2) by (by rewrite Hs2).
  destruct (Hwk (fun o => o) _ _ (fun q => f_equal (fun x => wobjatr x q) Hid)
    (eq_rect_r (fun o => dtq_step _ _ _ _ o) St Ho2)) as (b & s' & E5 & HW & Hq & Hd & Hr).
  rewrite Hid in E5, HW. rewrite (bind_RET _ _ _ _ _ E5). eexists _, b, s'. split; [reflexivity|].
  destruct HW as [W1 W2 W3 W4 W5 W6 W7 W8].
  assert (Hobj : obj s' = obj s) by (rewrite (fr_obj _ _ _ _ W3); exact Ho2).
  split.
  - exists (<[t := after_wait susp]> g). split_and!; try done; try apply W3. split; [done..|].
    eapply objs_tframe; [apply HI|]. by eapply frame_only.
  - unfold dtq_view, contents. rewrite Hq, Hl, Hd, Hobj. unfold dtq_contents.
    by rewrite Hc0.
Qed.

Lemma receive_data_ok g s i :
  Inv g s → dtqatr (p_dtqinib (dtqcb s i)) ≠ TA_NOEXS →
  ∃ r s', receive_data i s = RET r s' ∧
    match r with
    | Some (d, b) => progress OInv g s b s' ∧ dtq_view s i = d :: dtq_view s' i
    | None => s' = s ∧ wq s (SDTQ i) = [] ∧ dtq_count (dtqcb s i) = 0
    end.
Proof.
  intros HI He. destruct (dtq_exists s i (i_obj _ _ _ HI) He) as (Hfree & [HR O2 O3 O4] & _).
  destruct (Z.lt_ge_cases 0 (dtq_count (dtqcb s i))) as [Hpos|Hz]; [|assert (Hc0 : dtq_count (dtqcb s i) = 0) by (destruct HR; lia)];
    destruct (wq s (SDTQ i)) as [|t l] eqn:Hl.
  - destruct (dtq_deq_ok (o_dtqmb (obj s) (p_dtqmb (p_dtqinib (dtqcb s i)))) _ HR Hpos) as (D1 & D2 & D3 & D4).
    destruct (dequeue_data_eq s i D1) as (F1 & E1 & St1). eexists (Some (_, false)), (upd_obj F1 s). split; [|split].
    + unfold receive_data, kget at 1. rewrite (proj2 (Z.ltb_lt _ _) Hpos), (bind_RET _ _ _ _ _ E1).
      unfold kget, queue_empty, Fam.queue_empty. change (wq (upd_obj F1 s)) with (wq s). rewrite Hl. reflexivity.
    + apply progress_none; try done. eapply dtq_put; [done|done|exact St1|]. rewrite Hl in *. split; [done|done| |by left].
      intros Hr. rewrite O3 in Hpos by done. lia.
    + unfold dtq_view. change (wq (upd_obj F1 s)) with (wq s). rewrite Hl, !app_nil_r.
      rewrite (dtq_step_contents (upd_obj F1 s) _ _ _ _ St1). exact D4.
  - destruct (receive_refill_ok g s i t l HI He Hpos Hl) as (d & b & s' & E & Hpv). by exists (Some (d, b)), s'.
  - exists None, s. split; [|done]. unfold receive_data, kget at 1. rewrite Hc0. simpl.
    unfold kget, queue_empty, Fam.queue_empty. by rewrite Hl.
  - destruct (receive_direct_ok g s i t l HI Hc0 Hl) as (d & b & s' & E & Hpv). by exists (Some (d, b)), s'.
Qed.

Ltac dtq_begin s1 dtqid HI He :=
  destruct (Z.eqb_spec (dtqatr (p_dtqinib (dtqcb s1 (INDEX dtqid)))) TA_NOEXS) as [He|He]; [svc_ret|];
  set (i := INDEX dtqid) in *.

(** *** Waiting *)

Lemma dtq_enter s s' i q :
  OInv s → dtqatr (p_dtqinib (dtqcb s i)) ≠ TA_NOEXS →
  q = SDTQ i ∧ wq s (RDTQ i) = [] ∧ dtq_count (dtqcb s i) = dtqcnt (p_dtqinib (dtqcb s i)) ∨
  q = RDTQ i ∧ wq s (SDTQ i) = [] ∧ dtq_count (dtqcb s i) = 0 →
  tframe (fun q' => q' = q) s s' → OInv s'.
Proof.
  intros HO He Hq HF. destruct (dtq_exists s i HO He) as (Hfree & [HR O2 O3 O4] & _).
  pose proof (fr_obj _ _ _ _ HF) as Ho.
  assert (Hof : cb_of (Kind := dtq_kind) q = Some i) by (by destruct Hq as [[-> _]|[-> _]]).
  eapply (kind_move (kd := dtq_kind) OInv _ _ _ i _ HO HF); simpl; rewrite <- ?Ho; try done.
  - by intros q' ->.
  - by destruct (obj s).
  - apply kind_ok_intro; unfold gone; simpl; rewrite <- Ho; [done|].
    assert (Hsub : ∀ q', q' ≠ q → is_ready_queue q' = false → wq s q' = [] → wq s' q' = []).
    { intros q' Hne Hr. by apply (frame_empty _ _ _ _ _ _ _ HF). }
    destruct Hq as [(-> & Hnil & Hc)|(-> & Hnil & Hc)].
    + split; try done; [|right; by apply Hsub]. rewrite Hsub; done.
    + split; try done; [|left; by apply Hsub]. rewrite Hsub; done.
Qed.

Lemma dtq_sleepy g s t i q d :
  Inv g s → in_task t s → g t = Runnable → dspflg s = true → dtqatr (p_dtqinib (dtqcb s i)) ≠ TA_NOEXS →
  q = SDTQ i ∧ wq s (RDTQ i) = [] ∧ dtq_count (dtqcb s i) = dtqcnt (p_dtqinib (dtqcb s i)) ∨
  q = RDTQ i ∧ wq s (SDTQ i) = [] ∧ dtq_count (dtqcb s i) = 0 →
  ∃ w s1, new_winfo s = RET w s1 ∧
    (sleepy OInv g s1 t w ∧ ∀ g' s', blocked g s1 t w (WOBJ q) g' s' → OInv s') ∧
    let s2 := upd_winfo w (fun W => W <| w_data := d |>) s1 in
    sleepy OInv g s2 t w ∧ ∀ g' s', blocked g s2 t w (WOBJ q) g' s' → OInv s'.
Proof.
  intros HI Hin Ht Hd He Hq.
  destruct (new_winfo_ok OInv g s t HI Hin Ht Hd) as (s1 & w & E & Hsl & HF & _).
  destruct (fill_winfo_ok OInv g s1 t w (fun W => W <| w_data := d |>) Hsl) as [Hsl2 HF2].
  exists w, s1. split; [done|]. split; (split; [done|]); intros g' s' Hb; eapply (dtq_enter s); try done; try apply HI.
  - by eapply blocked_frame.
  - eapply blocked_frame; [|done]. by eapply tframe_trans.
Qed.

Lemma dtq_result_ok w s t : OK s → in_task t s → (∃ ercd, winfo (winfos s w) = WERCD ercd) →
  WP (fun _ s' => OK s' ∧ in_task t s') (dtq_result w s).
Proof. intros HOK Hin Hw. unfold dtq_result. apply wp_bind, get_wercd_ok; [done|]. by split. Qed.

(** *** The calls *)

Lemma psnd_dtq_ok dtqid data : call_ok OInv (psnd_dtq dtqid data).
Proof.
  intros s HOK. unfold psnd_dtq. task_call g t s1 HI Hin Ht Hd. dtq_begin s1 dtqid HI He.
  destruct (send_data_ok g s1 i data HI He) as ([b|] & s2 & E & Hr); (eapply wp_RET; [exact E|]).
  - destruct Hr as [Hp _]. by eapply progress_ret_task.
  - destruct Hr as [-> _]. svc_ret.
Qed.

Lemma ipsnd_dtq_ok dtqid data : call_ok OInv (ipsnd_dtq dtqid data).
Proof.
  intros s HOK. unfold ipsnd_dtq. int_call g s1 HI Hin. dtq_begin s1 dtqid HI He.
  destruct (send_data_ok g s1 i data HI He) as ([b|] & s2 & E & Hr); (eapply wp_RET; [exact E|]).
  - destruct Hr as [Hp _]. by eapply progress_ret_int.
  - destruct Hr as [-> _]. svc_ret.
Qed.

Lemma snd_dtq_ok dtqid data : call_ok OInv (snd_dtq dtqid data).
Proof.
  intros s HOK. unfold snd_dtq. task_call g t s1 HI Hin Ht Hd. dtq_begin s1 dtqid HI He.
  destruct (send_data_ok g s1 i data HI He) as ([b|] & s2 & E & Hr); (eapply wp_RET; [exact E|]).
  - destruct Hr as [Hp _]. by eapply progress_ret_task.
  - destruct Hr as (-> & Hq1 & Hq2).
    destruct (dtq_sleepy g s1 t i (SDTQ i) data HI Hin Ht) as (w & s2 & E2 & _ & Hsl & Hent); [congruence|done|by left|].
    eapply wp_RET; [exact E2|]. eapply wp_RET; [reflexivity|].
    eapply (wobj_sleep_ok OInv g _ t w (SDTQ i)); try done. intros. apply get_wercd_ok; [done|]. by split.
Qed.

Lemma tsnd_dtq_ok dtqid data tmout : tmout ≤ TMAX_RELTIM → call_ok OInv (tsnd_dtq dtqid data tmout).
Proof.
  intros Hmax s HOK. unfold tsnd_dtq. task_call g t s1 HI Hin Ht Hd. dtq_begin s1 dtqid HI He.
  destruct (send_data_ok g s1 i data HI He) as ([b|] & s2 & E & Hr); (eapply wp_RET; [exact E|]).
  - destruct Hr as [Hp _]. by eapply progress_ret_task.
  - destruct Hr as (-> & Hq1 & Hq2). destruct (Z.eqb_spec tmout TMO_POL) as [Hp|Hp]; [svc_ret|].
    destruct (dtq_sleepy g s1 t i (SDTQ i) data HI Hin Ht) as (w & s2 & E2 & _ & Hsl & Hent); [congruence|done|by left|].
    eapply wp_RET; [exact E2|]. eapply wp_RET; [reflexivity|].
    eapply (wobj_sleep_tmout_ok OInv g _ t w (SDTQ i)); try done; [|unfold TMO_FEVR in *; lia].
    intros. apply get_wercd_ok; [done|]. by split.
Qed.

Lemma fsnd_dtq_ok dtqid data : call_ok OInv (fsnd_dtq dtqid data).
Proof.
  intros s HOK. unfold fsnd_dtq. task_call g t s1 HI Hin Ht Hd. dtq_begin s1 dtqid HI He.
  destruct (Z.ltb_spec 0 (dtqcnt (p_dtqinib (dtqcb s1 i)))) as [Hpos|]; simpl; [|svc_ret].
  destruct (force_send_data_ok g s1 i data HI He Hpos) as (b & s2 & E & Hp & _).
  eapply wp_RET; [exact E|]. by eapply progress_ret_task.
Qed.

Lemma ifsnd_dtq_ok dtqid data : call_ok OInv (ifsnd_dtq dtqid data).
Proof.
  intros s HOK. unfold ifsnd_dtq. int_call g s1 HI Hin. dtq_begin s1 dtqid HI He.
  destruct (Z.ltb_spec 0 (dtqcnt (p_dtqinib (dtqcb s1 i)))) as [Hpos|]; simpl; [|svc_ret].
  destruct (force_send_data_ok g s1 i data HI He Hpos) as (b & s2 & E & Hp & _).
  eapply wp_RET; [exact E|]. by eapply progress_ret_int.
Qed.

Lemma prcv_dtq_ok dtqid : call_ok OInv (prcv_dtq dtqid).
Proof.
  intros s HOK. unfold prcv_dtq. task_call g t s1 HI Hin Ht Hd. dtq_begin s1 dtqid HI He.
  destruct (receive_data_ok g s1 i HI He) as ([[d b]|] & s2 & E & Hr); (eapply wp_RET; [exact E|]).
  - destruct Hr as [Hp _]. by eapply progress_ret_task.
  - destruct Hr as [-> _]. svc_ret.
Qed.

Lemma rcv_dtq_ok dtqid : call_ok OInv (rcv_dtq dtqid).
Proof.
  intros s HOK. unfold rcv_dtq. task_call g t s1 HI Hin Ht Hd. dtq_begin s1 dtqid HI He.
  destruct (receive_data_ok g s1 i HI He) as ([[d b]|] & s2 & E & Hr); (eapply wp_RET; [exact E|]).
  - destruct Hr as [Hp _]. by eapply progress_ret_task.
  - destruct Hr as (-> & Hq1 & Hq2).
    destruct (dtq_sleepy g s1 t i (RDTQ i) 0 HI Hin Ht) as (w & s2 & E2 & [Hsl Hent] & _); [congruence|done|by right|].
    eapply wp_RET; [exact E2|].
    eapply (rcv_sleep_ok OInv g _ t w (RDTQ i)); try done. intros. by apply dtq_result_ok.
Qed.

Lemma trcv_dtq_ok dtqid tmout : tmout ≤ TMAX_RELTIM → call_ok OInv (trcv_dtq dtqid tmout).
Proof.
  intros Hmax s HOK. unfold trcv_dtq. task_call g t s1 HI Hin Ht Hd. dtq_begin s1 dtqid HI He.
  destruct (receive_data_ok g s1 i HI He) as ([[d b]|] & s2 & E & Hr); (eapply wp_RET; [exact E|]).
  - destruct Hr as [Hp _]. by eapply progress_ret_task.
  - destruct Hr as (-> & Hq1 & Hq2). destruct (Z.eqb_spec tmout TMO_POL) as [Hp|Hp]; [svc_ret|].
    destruct (dtq_sleepy g s1 t i (RDTQ i) 0 HI Hin Ht) as (w & s2 & E2 & [Hsl Hent] & _); [congruence|done|by right|].
    eapply wp_RET; [exact E2|].
    eapply (rcv_sleep_tmout_ok OInv g _ t w (RDTQ i)); try done; [|unfold TMO_FEVR in *; lia].
    intros. by apply dtq_result_ok.
Qed.

Lemma ini_dtq_ok dtqid : call_ok OInv (ini_dtq dtqid).
Proof.
  intros s HOK. unfold ini_dtq. task_call g t s1 HI Hin Ht Hd. dtq_begin s1 dtqid HI He.
  destruct (dtq_exists s1 i (i_obj _ _ _ HI) He) as (Hfree & Hok & Hhd).
  destruct (init_queues_ok OInv g s1 (SDTQ i) (RDTQ i) (Inv_Mid _ _ _ HI) eq_refl eq_refl Hhd)
    as (b1 & b2 & s1' & g' & s2 & E1 & E2 & HM & HF & Hw & N1 & N2 & Hr); [done|].
  eapply wp_RET; [exact E1|]. eapply wp_RET; [exact E2|].
  eapply wp_RET; [reflexivity|]. eapply progress_ret_task; [exact HI|done..|].
  pose proof (fr_obj _ _ _ _ HF) as Ho. exists g'. split_and!; try done; try apply HF.
  assert (Ha : ∀ F, dtq_step i (dtq_reset (dtqcb s2 i)) (o_dtqmb (obj s2) (p_dtqmb (p_dtqinib (dtqcb s2 i)))) (obj s2) (F (obj s2)) →
    Mid g' (upd_obj F s2)).
  { intros F Hst. apply Mid_obj; [done|intros q _; left; by eapply dtq_step_atr|].
    eapply (dtq_move s2); [apply HM|by rewrite <- Ho|by apply frame_obj; [apply frame_refl|]|exact Hst|].
    change (wq (upd_obj F s2)) with (wq s2). rewrite N1, N2. split; [|done..|by left].
    apply dtq_ring_reset. rewrite <- Ho. destruct Hok as [[]]. lia. }
  apply Ha. split; try done.
  - intros j Hne. cb_lookup.
  - cb_lookup.
Qed.

Lemma del_dtq_ok dtqid : call_ok OInv (del_dtq dtqid).
Proof.
  intros s HOK. unfold del_dtq. task_call g t s1 HI Hin Ht Hd. dtq_begin s1 dtqid HI He.
  destruct (dtq_exists s1 i (i_obj _ _ _ HI) He) as (Hfree & Hok & Hhd).
  destruct (tmax_sdtqid <? IDOF i); [|svc_ret].
  destruct (init_queues_ok OInv g s1 (SDTQ i) (RDTQ i) (Inv_Mid _ _ _ HI) eq_refl eq_refl Hhd)
    as (b1 & b2 & s1' & g' & s2 & E1 & E2 & HM & HF & Hw & N1 & N2 & Hr); [done|].
  eapply wp_RET; [exact E1|]. eapply wp_RET; [exact E2|]. pose proof (fr_obj _ _ _ _ HF) as Ho.
  unfold kget. eapply (wp_RET _ _ _ _ _ () s2); [by destruct (bits _ _)|].
  eapply wp_RET; [reflexivity|]. eapply wp_RET; [reflexivity|]. eapply progress_ret_task; [exact HI|done..|].
  exists g'. split_and!; try done; try apply HF.
  eapply (kind_delete (kd := dtq_kind) OInv g' s2 i (fun o => _) HM); cb_lookup; rewrite <- ?Ho; try done.
  - intros q Hq. destruct q; simpl in Hq; simplify_eq; done.
  - intros j Hne. cb_lookup.
Qed.

Lemma acre_dtq_ok pk : 0 ≤ c_dtqcnt pk < 2^32 → call_ok OInv (acre_dtq pk).
Proof.
  intros Hcnt s HOK. unfold acre_dtq. task_call g t s1 HI Hin Ht Hd.
  destruct (tnum_dtq =? 0)%nat; [svc_ret|]. simpl.
  destruct (o_free_dtqcb (obj s1)) as [|i l] eqn:Hl; [svc_ret|]. simpl.
  set (alloc := negb (c_dtqcnt pk =? 0) && (c_dtqmb pk =? 0)).
  assert (Hm : ∃ p s2, (if alloc then kernel_malloc (u32 (sizeof_DTQMB * c_dtqcnt pk)) else ret (c_dtqmb pk)) s1 = RET p s2 ∧
    Inv g s2 ∧ var s2 = var s1 ∧ cpu s2 = cpu s1 ∧ wq s2 = wq s1 ∧ sch s2 = sch s1 ∧ kmm_only (obj s1) (obj s2)).
  { destruct alloc; [apply (kernel_malloc_ok OInv); [done|apply Z.mod_pos_bound; lia]|].
    eexists _, s1. split_and!; try done. apply kmm_only_refl. }
  destruct Hm as (p & s2 & E & HI2 & Hv & Hc & Hq & Hs & Ho & _). eapply wp_RET; [exact E|].
  assert (Hin2 : in_task t s2) by (by eapply in_task_same).
  set (atr := if alloc then Z.lor (c_dtqatr pk) TA_MBALLOC else c_dtqatr pk).
  destruct (negb (c_dtqcnt pk =? 0) && (p =? 0)); [svc_ret|].
  assert (Hl2 : o_free_dtqcb (obj s2) = i :: l) by (by rewrite Ho).
  pose proof (Inv_comp (inv := dtq_inv) OInv g s2 HI2) as Hdtq.
  assert (Hnil : wq s2 (SDTQ i) = []) by (by eapply (kind_free_no_waiter (kd := dtq_kind))).
  assert (Hnil' : wq s2 (RDTQ i) = []) by (by eapply (kind_free_no_waiter (kd := dtq_kind))).
  destruct (init_empty_queue_ok OInv g s2 (SDTQ i) (Inv_Mid _ _ _ HI2) Hnil) as [HM1 Hn1].
  destruct (init_empty_queue_ok OInv g _ (RDTQ i) HM1) as [HM2 Hn2]; [exact Hnil'|].
  eapply wp_RET; [by apply take_free_eq|]. repeat (eapply wp_RET; [reflexivity|]). split; [|done]. exists g.
  apply (Inv_of OInv g s2); [done| |done..].
  eapply (kind_create (kd := dtq_kind) OInv g _ i l (fun o => _) HM2); [done|by destruct (obj s2)|done| |].
  - intros j Hne. cb_lookup.
  - intros Hno. apply kind_ok_intro; unfold gone; cb_lookup.
    + subst atr. destruct alloc; [by eapply rsatr_alloc|by eapply rsatr_exists].
    + split; [by apply dtq_ring_reset|..]; unfold Fam.queue_initialize; rewrite ?fn_lookup_insert; try done.
      by right.
Qed.

Lemma ref_dtq_ok dtqid : call_ok OInv (ref_dtq dtqid).
Proof.
  intros s HOK. unfold ref_dtq. task_call g t s1 HI Hin Ht Hd. case_match; svc_ret.
Qed.
End calls.
End dataqueue.
