(* ===== verification/Mutex.v ===== *)
(** * Mutexes (kernel/mutex.c, mutex.h)

    [mutex_queue] of a TCB is the list of the mutexes the task has locked, as
    indices; a mutex is deleted from the list by its own index. *)

From S2P Require Import Prelude Queue Data Kmonad TimeEvent Task Wait Core Release Service Transit Object.
Open Scope Z_scope.

Record T_CMTX := mkT_CMTX { c_mtxatr : Z; c_ceilpri : Z }.
Record T_RMTX := mkT_RMTX { r_htskid : Z; r_mtx_wtskid : Z }.

Section mutex.
Context {cfg : Config}.
Implicit Types (s : State) (mtxid tmout : Z) (i p_tcb : nat).

Definition tnum_mtx : nat := tnum tmax_mtxid.
Definition tnum_smtx : nat := tnum tmax_smtxid.

Definition upd_mtx i (f : MTXCB → MTXCB) : K () :=
  upd (upd_obj (fun o => o <| o_mtxcb ::= fun T => <[i := f (T i)]> T |>)).
Definition set_free_mtx (f : list nat → list nat) : K () :=
  upd (upd_obj (fun o => o <| o_free_mtxcb ::= f |>)).
Definition set_mtxatr i (atr : Z) : K () :=
  upd_mtx i (fun C => C <| p_mtxinib ::= fun I => I <| mtxatr := atr |> |>).
Definition set_loctsk i (o : option nat) : K () := upd_mtx i (fun C => C <| p_loctsk := o |>).
Definition upd_mutex_queue p_tcb (f : list nat → list nat) : K () :=
  upd (upd_tcb p_tcb (fun T => T <| mutex_queue ::= f |>)).
Definition set_priority_field p_tcb (v : Z) : K () := upd (upd_tcb p_tcb (fun T => T <| priority := v |>)).

Definition MTXPROTO_MASK : Z := 3.
Definition MTXPROTO (C : MTXCB) : Z := Z.land (mtxatr (p_mtxinib C)) MTXPROTO_MASK.
Definition MTX_CEILING (C : MTXCB) : bool := MTXPROTO C =? TA_CEILING.
Notation ceiling C := (ceilpri (p_mtxinib C)).

Definition initialize_mutex : K () :=
  kfor (seq 0 tnum_smtx) (fun i =>
    queue_initialize (MTXQ i) ;;;
    upd_mtx i (fun C => C <| p_mtxinib := mtxinib_table i |>) ;;;
    set_loctsk i None) ;;;
  set_free_mtx (fun _ => []) ;;;
  kfor (seq tnum_smtx (tnum_mtx - tnum_smtx)) (fun i =>
    set_mtxatr i TA_NOEXS ;;;
    set_free_mtx (fun l => l ++ [i])).

(** ** Priorities *)

(** The loops over [mutex_queue] that read only. *)
Definition violates_ceiling (bpri : Z) (C : MTXCB) : bool := MTX_CEILING C && (bpri <? ceiling C).

Definition mutex_check_ceilpri p_tcb (bpri : Z) : K bool :=
  get s;;
  if existsb (fun i => violates_ceiling bpri (mtxcb s i)) (mutex_queue (tcb_table s p_tcb))
  then ret false
  else if TSTAT_WAIT_MTX (tstat (tcb_table s p_tcb)) then
    the w := p_winfo (tcb_table s p_tcb) ;;
    match p_wobjcb (winfos s w) with
    | Some (MTXQ i) => ret (negb (violates_ceiling bpri (mtxcb s i)))
    | _ => undef
    end
  else ret true.

Definition mutex_scan_ceilmtx p_tcb (s : State) : bool :=
  existsb (fun i => MTX_CEILING (mtxcb s i)) (mutex_queue (tcb_table s p_tcb)).

Definition mutex_calc_priority p_tcb (s : State) : Z :=
  fold_left (fun pri i =>
      if MTX_CEILING (mtxcb s i) && (ceiling (mtxcb s i) <? pri) then ceiling (mtxcb s i) else pri)
    (mutex_queue (tcb_table s p_tcb)) (bpriority (tcb_table s p_tcb)).

Definition mutex_raise_priority p_tcb (newpri : Z) : K bool :=
  get s;;
  if newpri <? priority (tcb_table s p_tcb) then change_priority p_tcb newpri true
  else ret false.

Definition mutex_drop_priority p_tcb (oldpri : Z) : K bool :=
  get s;;
  if oldpri =? priority (tcb_table s p_tcb) then
    let newpri := mutex_calc_priority p_tcb s in
    if negb (newpri =? priority (tcb_table s p_tcb)) then change_priority p_tcb newpri true
    else ret false
  else ret false.

(** ** Locking and unlocking *)

Definition mutex_acquire (p_loc i : nat) : K bool :=
  set_loctsk i (Some p_loc) ;;;
  upd_mutex_queue p_loc (fun l => i :: l) ;;;
  get s;;
  if MTX_CEILING (mtxcb s i) then mutex_raise_priority p_loc (ceiling (mtxcb s i))
  else ret false.

Definition mutex_release i : K bool :=
  get s;;
  if queue_empty (MTXQ i) s then set_loctsk i None ;;; ret false
  else
    p_tcb <- queue_delete_next (MTXQ i) ;;
    wait_dequeue_tmevtb p_tcb ;;;
    set_wercd p_tcb E_OK ;;;
    set_loctsk i (Some p_tcb) ;;;
    upd_mutex_queue p_tcb (fun l => l ++ [i]) ;;;
    get s;;
    (if MTX_CEILING (mtxcb s i) then
       if ceiling (mtxcb s i) <? priority (tcb_table s p_tcb)
       then set_priority_field p_tcb (ceiling (mtxcb s i)) else ret ()
     else ret ()) ;;;
    make_non_wait p_tcb.

(** Every iteration takes a mutex off the list of [p_tcb], so its length bounds
    the iterations. *)
Fixpoint mutex_release_all_loop (fuel : nat) p_tcb (dspreq : bool) : K bool :=
  get s;;
  match mutex_queue (tcb_table s p_tcb) with
  | [] => ret dspreq
  | i :: _ =>
      match fuel with
      | O => undef
      | S fuel =>
          upd_mutex_queue p_tcb (without i) ;;;
          b <- mutex_release i ;;
          mutex_release_all_loop fuel p_tcb (if b : bool then true else dspreq)
      end
  end.

Definition mutex_release_all p_tcb : K bool :=
  get s;; mutex_release_all_loop (length (mutex_queue (tcb_table s p_tcb))) p_tcb false.

(** ** The service calls *)

Definition acre_mtx (pk_cmtx : T_CMTX) : K Z :=
  ! CHECK_TSKCTX_UNL ;;
  ! CHECK_TPRI (c_ceilpri pk_cmtx) ;;
  lock_cpu ;;;
  ercd <- (get s;;
    if (tnum_mtx =? 0)%nat || no_free (o_free_mtxcb (obj s)) then ret E_NOID
    else
      i <- take_free o_free_mtxcb set_free_mtx ;;
      upd_mtx i (fun C => C <| p_mtxinib := mkMTXINIB (c_mtxatr pk_cmtx) (c_ceilpri pk_cmtx) |>) ;;;
      queue_initialize (MTXQ i) ;;;
      set_loctsk i None ;;;
      ret (IDOF i)) ;;
  unlock_cpu ;;;
  ret ercd.

Definition del_mtx mtxid : K Z :=
  ! CHECK_TSKCTX_UNL ;;
  ! CHECK_MTXID mtxid ;;
  let i := INDEX mtxid in
  lock_cpu ;;;
  ercd <- (get s;;
    if mtxatr (p_mtxinib (mtxcb s i)) =? TA_NOEXS then ret E_NOEXS
    else if tmax_smtxid <? IDOF i then
      dspreq <- init_wait_queue (MTXQ i) ;;
      set_mtxatr i TA_NOEXS ;;;
      set_free_mtx (fun l => l ++ [i]) ;;;
      (if dspreq : bool then dispatch else ret ()) ;;;
      ret E_OK
    else ret E_OBJ) ;;
  unlock_cpu ;;;
  ret ercd.

(** [assert(!(p_runtsk != p_schedtsk && dspflg))]. *)
Definition assert_no_dispatch : K () :=
  kassert (fun s => negb (negb (bool_decide (p_runtsk s = p_schedtsk s)) && dspflg s)).

Definition loc_mtx mtxid : K Z :=
  ! CHECK_DISPATCH ;;
  ! CHECK_MTXID mtxid ;;
  let i := INDEX mtxid in
  lock_cpu ;;;
  ercd <- (get s;; the t := p_runtsk s ;;
    if mtxatr (p_mtxinib (mtxcb s i)) =? TA_NOEXS then ret E_NOEXS
    else if MTX_CEILING (mtxcb s i) && (bpriority (tcb_table s t) <? ceiling (mtxcb s i))
    then ret E_ILUSE
    else if bool_decide (p_loctsk (mtxcb s i) = None) then
      mutex_acquire t i ;;;
      assert_no_dispatch ;;;
      ret E_OK
    else if bool_decide (p_loctsk (mtxcb s i) = p_runtsk s) then ret E_OBJ
    else
      winfo_mtx <- new_winfo ;;
      get s;; the t := p_runtsk s ;;
      set_tstat t (Z.lor TS_WAITING TS_WAIT_MTX) ;;;
      wobj_make_wait (MTXQ i) winfo_mtx ;;;
      dispatch ;;;
      get_wercd winfo_mtx) ;;
  unlock_cpu ;;;
  ret ercd.

Definition ploc_mtx mtxid : K Z :=
  ! CHECK_TSKCTX_UNL ;;
  ! CHECK_MTXID mtxid ;;
  let i := INDEX mtxid in
  lock_cpu ;;;
  ercd <- (get s;; the t := p_runtsk s ;;
    if mtxatr (p_mtxinib (mtxcb s i)) =? TA_NOEXS then ret E_NOEXS
    else if MTX_CEILING (mtxcb s i) && (bpriority (tcb_table s t) <? ceiling (mtxcb s i))
    then ret E_ILUSE
    else if bool_decide (p_loctsk (mtxcb s i) = None) then
      mutex_acquire t i ;;;
      assert_no_dispatch ;;;
      ret E_OK
    else if bool_decide (p_loctsk (mtxcb s i) = p_runtsk s) then ret E_OBJ
    else ret E_TMOUT) ;;
  unlock_cpu ;;;
  ret ercd.

Definition tloc_mtx mtxid tmout : K Z :=
  ! CHECK_DISPATCH ;;
  ! CHECK_MTXID mtxid ;;
  ! CHECK_TMOUT tmout ;;
  let i := INDEX mtxid in
  lock_cpu ;;;
  ercd <- (get s;; the t := p_runtsk s ;;
    if mtxatr (p_mtxinib (mtxcb s i)) =? TA_NOEXS then ret E_NOEXS
    else if MTX_CEILING (mtxcb s i) && (bpriority (tcb_table s t) <? ceiling (mtxcb s i))
    then ret E_ILUSE
    else if bool_decide (p_loctsk (mtxcb s i) = None) then
      mutex_acquire t i ;;;
      assert_no_dispatch ;;;
      ret E_OK
    else if bool_decide (p_loctsk (mtxcb s i) = p_runtsk s) then ret E_OBJ
    else if tmout =? TMO_POL then ret E_TMOUT
    else
      winfo_mtx <- new_winfo ;;
      get s;; the t := p_runtsk s ;;
      set_tstat t (Z.lor TS_WAITING TS_WAIT_MTX) ;;;
      wobj_make_wait_tmout (MTXQ i) winfo_mtx tmout ;;;
      dispatch ;;;
      get_wercd winfo_mtx) ;;
  unlock_cpu ;;;
  ret ercd.

(** [queue_delete(&(p_mtxcb->mutex_queue))]: the mutex is in the list of the
    task that has locked it. *)
Definition delete_mutex_queue (p_loc i : nat) : K () := upd_mutex_queue p_loc (without i).

Definition unl_mtx mtxid : K Z :=
  ! CHECK_TSKCTX_UNL ;;
  ! CHECK_MTXID mtxid ;;
  let i := INDEX mtxid in
  lock_cpu ;;;
  ercd <- (get s;; the t := p_runtsk s ;;
    if mtxatr (p_mtxinib (mtxcb s i)) =? TA_NOEXS then ret E_NOEXS
    else if negb (bool_decide (p_loctsk (mtxcb s i) = p_runtsk s)) then ret E_OBJ
    else
      delete_mutex_queue t i ;;;
      b1 <- (get s;; if MTX_CEILING (mtxcb s i) then mutex_drop_priority t (ceiling (mtxcb s i))
             else ret false) ;;
      b2 <- mutex_release i ;;
      (if (b1 || b2) : bool then dispatch else ret ()) ;;;
      ret E_OK) ;;
  unlock_cpu ;;;
  ret ercd.

Definition ini_mtx mtxid : K Z :=
  ! CHECK_TSKCTX_UNL ;;
  ! CHECK_MTXID mtxid ;;
  let i := INDEX mtxid in
  lock_cpu ;;;
  ercd <- (
    dspreq <- init_wait_queue (MTXQ i) ;;
    b <- (get s;;
      match p_loctsk (mtxcb s i) with
      | Some p_loc =>
          delete_mutex_queue p_loc i ;;;
          set_loctsk i None ;;;
          get s;; if MTX_CEILING (mtxcb s i) then mutex_drop_priority p_loc (ceiling (mtxcb s i))
          else ret false
      | None => ret false
      end) ;;
    (if (b || dspreq) : bool then dispatch else ret ()) ;;;
    ret E_OK) ;;
  unlock_cpu ;;;
  ret ercd.

Definition ref_mtx mtxid : K (Z * option T_RMTX) :=
  ! CHECK_TSKCTX_UNL ;;
  ! CHECK_MTXID mtxid ;;
  let i := INDEX mtxid in
  lock_cpu ;;;
  r <- (get s;;
    if mtxatr (p_mtxinib (mtxcb s i)) =? TA_NOEXS then ret (E_NOEXS, None)
    else ret (E_OK, Some (mkT_RMTX
      (match p_loctsk (mtxcb s i) with Some t => IDOF t | None => TSK_NONE end)
      (wait_tskid (MTXQ i) s)))) ;;
  unlock_cpu ;;;
  ret r.

(** ** The invariant

    A mutex is in the list of the task that has locked it and in no other; a
    task waits only for a mutex that is locked; no task holds or awaits a
    mutex whose ceiling is below its base priority; the priority of a task is
    its base priority raised to the ceilings of the mutexes it has locked.
    The attributes of the tasks that exist are part of it. *)

Definition dormant s p_tcb : Prop := TSTAT_DORMANT (tstat (tcb_table s p_tcb)) = true.
Definition noexs (T : TCB) : Prop := tskatr (p_tinib T) = TA_NOEXS.
Definition mtx_gone s i : Prop := mtxatr (p_mtxinib (mtxcb s i)) = TA_NOEXS.
(** The ceiling allows the base priority. *)
Definition ceiling_ok s i p_tcb : Prop :=
  MTX_CEILING (mtxcb s i) = true → ceiling (mtxcb s i) ≤ bpriority (tcb_table s p_tcb).

(** [bad] are the tasks whose priority is being changed, [lim] the mutexes
    taken out of the list of their task and not yet released. *)
Record mtx_pre (bad lim : nat → Prop) s : Prop := {
  mi_exists : ∀ t, noexs (tcb_table s t) → dormant s t;
  mi_bpri : ∀ t, ¬ dormant s t → 0 ≤ bpriority (tcb_table s t) < 16;
  mi_ipri : ∀ t, ¬ noexs (tcb_table s t) → 0 ≤ ipriority (p_tinib (tcb_table s t)) < 16;
  mi_initial : ∀ t, dormant s t → ¬ noexs (tcb_table s t) →
    bpriority (tcb_table s t) = ipriority (p_tinib (tcb_table s t)) ∧
    priority (tcb_table s t) = ipriority (p_tinib (tcb_table s t));
  mi_free_tcb : ∀ t, t ∈ o_free_tcb (obj s) → noexs (tcb_table s t);
  mi_nodup_tcb : NoDup (o_free_tcb (obj s));
  mi_own : ∀ t i, ¬ lim i →
    i ∈ mutex_queue (tcb_table s t) ↔ ¬ mtx_gone s i ∧ p_loctsk (mtxcb s i) = Some t;
  mi_limbo : ∀ t i, lim i → i ∉ mutex_queue (tcb_table s t);
  mi_nodup : ∀ t, NoDup (mutex_queue (tcb_table s t));
  mi_dormant : ∀ t, dormant s t → mutex_queue (tcb_table s t) = [];
  mi_hold : ∀ t i, i ∈ mutex_queue (tcb_table s t) → ceiling_ok s i t;
  mi_pri : ∀ t, ¬ bad t → ¬ dormant s t → priority (tcb_table s t) = mutex_calc_priority t s;
  mi_wait : ∀ t i, t ∈ wq s (MTXQ i) → ¬ mtx_gone s i ∧ p_loctsk (mtxcb s i) ≠ None ∧ ceiling_ok s i t;
  mi_ceiling : ∀ i, ¬ mtx_gone s i → MTX_CEILING (mtxcb s i) = true → 0 ≤ ceiling (mtxcb s i);
  mi_free : ∀ i, i ∈ o_free_mtxcb (obj s) → mtx_gone s i;
  mi_nodup_free : NoDup (o_free_mtxcb (obj s)) }.
Definition none : nat → Prop := fun _ => False.
Definition mtx_inv : State → Prop := mtx_pre none none.

Definition mtx_own (q : qid) : Prop := match q with MTXQ _ => True | _ => False end.
Definition mtx_only (o o' : OBJ) : Prop :=
  o' = o <| o_mtxcb := o_mtxcb o' |> <| o_free_mtxcb := o_free_mtxcb o' |> <| o_free_tcb := o_free_tcb o' |>.

(** Operations of other components. *)
Lemma mtx_pre_frame bad lim Y X P s s' :
  gframe same_static Y X P s s' → (∀ q, X q → ¬ mtx_own q) → mtxcb s' = mtxcb s →
  o_free_mtxcb (obj s') = o_free_mtxcb (obj s) → o_free_tcb (obj s') = o_free_tcb (obj s) →
  mtx_pre bad lim s → mtx_pre bad lim s'.
Proof.
  intros HF HX E1 E2 E3 [].
  assert (HS : ∀ t, p_tinib (tcb_table s' t) = p_tinib (tcb_table s t) ∧
    bpriority (tcb_table s' t) = bpriority (tcb_table s t) ∧
    priority (tcb_table s' t) = priority (tcb_table s t) ∧
    mutex_queue (tcb_table s' t) = mutex_queue (tcb_table s t) ∧
    TSTAT_DORMANT (tstat (tcb_table s' t)) = TSTAT_DORMANT (tstat (tcb_table s t))).
  { intros t. pose proof (fr_tcb _ _ _ _ HF t) as Ht. unfold static_tcb in Ht. by injection Ht. }
  split; unfold dormant, noexs, mtx_gone, ceiling_ok, mutex_calc_priority in *; rewrite ?E1, ?E2, ?E3; try done;
    intros t; destruct (HS t) as (H1 & H2 & H3 & H4 & H5); rewrite ?H1, ?H2, ?H3, ?H4, ?H5; auto.
  intros i Ht. rewrite ?H1, ?H2, ?H3, ?H4, ?H5, ?E1.
  destruct (fr_queue _ _ _ _ HF (MTXQ i) t) as [Ht' _]; [done|done|by intros ?%HX|].
  by apply mi_wait0.
Qed.

Lemma mtx_inv_frame Y X P s s' :
  gframe same_static Y X P s s' → (∀ q, X q → ¬ mtx_own q) → mtxcb s' = mtxcb s →
  o_free_mtxcb (obj s') = o_free_mtxcb (obj s) → o_free_tcb (obj s') = o_free_tcb (obj s) →
  mtx_inv s → mtx_inv s'.
Proof. apply mtx_pre_frame. Qed.

Lemma mtx_inv_same s s' :
  tcb_table s' = tcb_table s → wq s' = wq s → obj s' = obj s → mtx_inv s → mtx_inv s'.
Proof.
  intros E1 E2 E3 []. split; unfold dormant, noexs, mtx_gone, ceiling_ok, mutex_calc_priority in *; by rewrite ?E1, ?E2, ?E3.
Qed.

Lemma mtx_inv_base bad lim s g t : KInv g s → mtx_pre bad lim s → g t ≠ Dormant → 0 ≤ bpriority (tcb_table s t) < 16.
Proof.
  intros HK Hm Ht. apply (mi_bpri bad lim); [done|]. unfold dormant. rewrite (k_tstat _ _ HK), enc_dormant by apply HK.
  by rewrite bool_decide_eq_true.
Qed.

(** The fields of a TCB no invariant reads. *)
Definition quiet (f : TCB → TCB) : Prop := ∀ T,
  tstat (f T) = tstat T ∧ priority (f T) = priority T ∧ p_winfo (f T) = p_winfo T ∧
  bpriority (f T) = bpriority T ∧ mutex_queue (f T) = mutex_queue T ∧
  tskatr (p_tinib (f T)) = tskatr (p_tinib T) ∧ ipriority (p_tinib (f T)) = ipriority (p_tinib T).

Lemma quiet_lookup f s i : quiet f → ∀ t, let s' := upd_tcb i f s in
  tstat (tcb_table s' t) = tstat (tcb_table s t) ∧
  priority (tcb_table s' t) = priority (tcb_table s t) ∧ p_winfo (tcb_table s' t) = p_winfo (tcb_table s t) ∧
  bpriority (tcb_table s' t) = bpriority (tcb_table s t) ∧ mutex_queue (tcb_table s' t) = mutex_queue (tcb_table s t) ∧
  tskatr (p_tinib (tcb_table s' t)) = tskatr (p_tinib (tcb_table s t)) ∧
  ipriority (p_tinib (tcb_table s' t)) = ipriority (p_tinib (tcb_table s t)).
Proof.
  intros Hf t. simpl. destruct (decide (t = i)) as [->|]; [rewrite fn_lookup_insert; apply Hf|by rewrite fn_lookup_insert_ne].
Qed.

Lemma quiet_KInv g s i f : quiet f → KInv g s → KInv g (upd_tcb i f s).
Proof. intros Hf. apply KInv_tcb. intros t. by destruct (quiet_lookup f s i Hf t) as (? & ? & ? & _). Qed.

Lemma quiet_frame s i f : quiet f → gframe any_static no_timer mtx_own mtx_only s (upd_tcb i f s).
Proof.
  intros Hf. split; try done; [by destruct s as [? ? ? ? ? ? ? ? []]|].
  intros q t Hq Ht _. by destruct (quiet_lookup f s i Hf t) as (_ & _ & -> & _).
Qed.

Lemma quiet_mtx bad lim s i f : quiet f → mtx_pre bad lim s → mtx_pre bad lim (upd_tcb i f s).
Proof.
  intros Hf [m1 m2 m3 m0 m4 m5 m6 m15 m7 m8 m9 m10 m11 m12 m13 m14].
  unfold dormant, noexs, ceiling_ok, mutex_calc_priority in *.
  split; try done; intros t; unfold dormant, noexs, ceiling_ok, mutex_calc_priority;
    destruct (quiet_lookup f s i Hf t) as (E1 & E2 & _ & E3 & E4 & E5 & E6); rewrite ?E1, ?E2, ?E3, ?E4, ?E5, ?E6; auto.
  intros j Hj. by apply m11.
Qed.

Section calls.
Context (OInv : State → Prop) `{!Objects OInv} `{!TaskComponent OInv mtx_inv mtx_own mtx_only}.
Notation WP := (wp (rely OInv) (guar OInv)).
Notation Inv := (Inv OInv).
Notation OK := (OK OInv).
Notation Mid := (Mid OInv).

Lemma quiet_Mid g s i f : Mid g s → quiet f → Mid g (upd_tcb i f s).
Proof.
  intros [M1 M2 M3] Hf. split; [by apply quiet_KInv|done|].
  eapply kcomp_put; [exact M3|by apply quiet_frame|]. by apply quiet_mtx, kcomp_get.
Qed.

Lemma quiet_Inv g s i f : Inv g s → quiet f → Inv g (upd_tcb i f s).
Proof. intros HI Hf. apply (Inv_of OInv g s); [exact HI|by apply quiet_Mid; [apply Inv_Mid|]|done..]. Qed.
End calls.

End mutex.
