(* ===== verification/MutexProof.v ===== *)
(** * Mutexes: proofs

    What locking, unlocking and the change of owner do to the invariant of
    Mutex.v, and the service calls of kernel/mutex.c. *)

From S2P Require Import Prelude Queue Data Kmonad TimeEvent Task Wait Core Release Priority Service Transit Object Mutex.
Open Scope Z_scope.

Notation ceiling C := (ceilpri (p_mtxinib C)).

Section mutex.
Context {cfg : Config}.
Implicit Types (s : State) (g : nat → tst) (i j : nat) (t u x : nat) (bad lim : nat → Prop).

(** ** The priority of a task *)

Definition is_calc (M : nat → MTXCB) (T : TCB) (v : Z) : Prop :=
  v ≤ bpriority T ∧ (∀ i, i ∈ mutex_queue T → MTX_CEILING (M i) = true → v ≤ ceiling (M i)) ∧
  (v = bpriority T ∨ ∃ i, i ∈ mutex_queue T ∧ MTX_CEILING (M i) = true ∧ v = ceiling (M i)).

Lemma calc_fold (M : nat → MTXCB) (l : list nat) : ∀ p,
  let v := fold_left (fun pri i => if MTX_CEILING (M i) && (ceiling (M i) <? pri) then ceiling (M i) else pri) l p in
  v ≤ p ∧ (∀ i, i ∈ l → MTX_CEILING (M i) = true → v ≤ ceiling (M i)) ∧
  (v = p ∨ ∃ i, i ∈ l ∧ MTX_CEILING (M i) = true ∧ v = ceiling (M i)).
Proof.
  induction l as [|i l IH]; intros p; simpl.
  - split_and!; [done|by intros i ?%elem_of_nil|by left].
  - set (p' := if _ : bool then _ else p). destruct (IH p') as (H1 & H2 & H3).
    assert (Hp : p' ≤ p ∧ (MTX_CEILING (M i) = true → p' ≤ ceiling (M i)) ∧
      (p' = p ∨ MTX_CEILING (M i) = true ∧ p' = ceiling (M i))).
    { unfold p'. destruct (MTX_CEILING (M i)); simpl; [|by split_and!; [lia| |left]].
      destruct (Z.ltb_spec (ceiling (M i)) p); split_and!; try lia; try (by left); by right. }
    destruct Hp as (P1 & P2 & P3). split_and!.
    + lia.
    + intros j [->|Hj]%elem_of_cons Hc; [specialize (P2 Hc); lia|by apply H2].
    + destruct H3 as [H3|(j & Hj & Hc & Hv)].
      * rewrite H3. destruct P3 as [->|[Hc ->]]; [by left|]. right. exists i. split_and!; [left|done|done].
      * right. exists j. split_and!; [by right|done|done].
Qed.

Lemma calc_is t s : is_calc (mtxcb s) (tcb_table s t) (mutex_calc_priority t s).
Proof. apply (calc_fold (mtxcb s)). Qed.

Lemma is_calc_unique M T v1 v2 : is_calc M T v1 → is_calc M T v2 → v1 = v2.
Proof.
  intros (A1 & A2 & A3) (B1 & B2 & B3).
  assert (v1 ≤ v2) by (destruct B3 as [->|(i & Hi & Hc & ->)]; auto).
  assert (v2 ≤ v1) by (destruct A3 as [->|(i & Hi & Hc & ->)]; auto). lia.
Qed.

Lemma mtx_pri_calc bad lim s t :
  mtx_pre bad lim s → ¬ bad t → ¬ dormant s t → is_calc (mtxcb s) (tcb_table s t) (priority (tcb_table s t)).
Proof. intros Hm Hb Hd. rewrite (mi_pri _ _ s Hm t Hb Hd). apply calc_is. Qed.

Lemma is_calc_range bad lim s t v :
  mtx_pre bad lim s → ¬ dormant s t → is_calc (mtxcb s) (tcb_table s t) v → (∀ i, i ∈ mutex_queue (tcb_table s t) → ¬ mtx_gone s i) → 0 ≤ v < 16.
Proof.
  intros Hm Hd (C1 & C2 & C3) Hg. pose proof (mi_bpri _ _ _ Hm t Hd). split; [|lia].
  destruct C3 as [->|(i & Hi & Hc & ->)]; [lia|]. apply (mi_ceiling _ _ _ Hm); [by apply Hg|done].
Qed.

(** The mutexes of a list exist. *)
Lemma mq_exists bad lim s t i : mtx_pre bad lim s → i ∈ mutex_queue (tcb_table s t) → ¬ lim i ∧ ¬ mtx_gone s i ∧ p_loctsk (mtxcb s i) = Some t.
Proof.
  intros Hm Hi. assert (Hl : ¬ lim i) by (intros Hl; by apply (mi_limbo _ _ _ Hm t i Hl)).
  split; [done|]. by apply (mi_own _ _ _ Hm).
Qed.

(** ** Changes of owners and lists *)

Record same_tasks s s' : Prop := {
  st_tcb : ∀ x, p_tinib (tcb_table s' x) = p_tinib (tcb_table s x) ∧
    bpriority (tcb_table s' x) = bpriority (tcb_table s x) ∧
    TSTAT_DORMANT (tstat (tcb_table s' x)) = TSTAT_DORMANT (tstat (tcb_table s x));
  st_free_tcb : o_free_tcb (obj s') = o_free_tcb (obj s);
  st_free : o_free_mtxcb (obj s') = o_free_mtxcb (obj s);
  st_mtx : ∀ j, p_mtxinib (mtxcb s' j) = p_mtxinib (mtxcb s j) }.

Lemma MTX_CEILING_ini C C' : p_mtxinib C' = p_mtxinib C → MTX_CEILING C' = MTX_CEILING C.
Proof. unfold MTX_CEILING, MTXPROTO. by intros ->. Qed.

Notation mq s x := (mutex_queue (tcb_table s x)).

Lemma mtx_pre_own bad bad' lim lim' s s' :
  mtx_pre bad lim s → same_tasks s s' →
  (∀ x, dormant s x → priority (tcb_table s' x) = priority (tcb_table s x)) →
  (∀ j x, x ∈ wq s' (MTXQ j) → x ∈ wq s (MTXQ j) ∧ p_loctsk (mtxcb s' j) ≠ None) →
  (∀ x j, ¬ lim' j → j ∈ mq s' x ↔ ¬ mtx_gone s j ∧ p_loctsk (mtxcb s' j) = Some x) →
  (∀ x j, lim' j → j ∉ mq s' x) → (∀ x, NoDup (mq s' x)) → (∀ x, dormant s x → mq s' x = []) →
  (∀ x j, j ∈ mq s' x → ceiling_ok s j x) →
  (∀ x, ¬ bad' x → ¬ dormant s x → is_calc (mtxcb s) (tcb_table s' x) (priority (tcb_table s' x))) →
  mtx_pre bad' lim' s'.
Proof.
  intros Hm [HT E1 E2 E3] Hpd HQ Hown Hlim Hnd Hdorm Hhold Hpri. destruct Hm.
  assert (HC : ∀ j, MTX_CEILING (mtxcb s' j) = MTX_CEILING (mtxcb s j)) by (intros; by apply MTX_CEILING_ini).
  assert (Hd : ∀ x, dormant s' x ↔ dormant s x) by (intros x; unfold dormant; by destruct (HT x) as (_ & _ & ->)).
  assert (Hg : ∀ j, mtx_gone s' j ↔ mtx_gone s j) by (intros j; unfold mtx_gone; by rewrite E3).
  assert (Hne : ∀ x, noexs (tcb_table s' x) ↔ noexs (tcb_table s x)) by (intros x; unfold noexs; by destruct (HT x) as (-> & _)).
  assert (Hce : ∀ j x, ceiling_ok s' j x ↔ ceiling_ok s j x).
  { intros j x. unfold ceiling_ok. destruct (HT x) as (_ & -> & _). by rewrite HC, E3. }
  split; rewrite ?E1, ?E2; try done.
  - intros x. rewrite Hne, Hd. apply mi_exists.
  - intros x. rewrite Hd. destruct (HT x) as (_ & -> & _). apply mi_bpri.
  - intros x. rewrite Hne. destruct (HT x) as (-> & _). apply mi_ipri.
  - intros x. rewrite Hd, Hne. intros H1 H2. rewrite Hpd by done. destruct (HT x) as (-> & -> & _). by apply mi_initial.
  - intros x. rewrite Hne. apply mi_free_tcb.
  - intros x j Hl. rewrite Hg. by apply Hown.
  - intros x. rewrite Hd. apply Hdorm.
  - intros x j. rewrite Hce. apply Hhold.
  - intros x Hb Hdx. rewrite Hd in Hdx. eapply is_calc_unique; [|apply calc_is].
    destruct (Hpri x Hb Hdx) as (C1 & C2 & C3). split_and!; [done| |].
    + intros j Hj. rewrite HC, E3. by apply C2.
    + destruct C3 as [->|(j & Hj & Hc & ->)]; [by left|]. right. exists j. by rewrite HC, E3.
  - intros x j Hx. destruct (HQ j x Hx) as [Hx' Hl]. rewrite Hg, Hce. destruct (mi_wait x j Hx') as (? & _ & ?). done.
  - intros j. rewrite Hg, HC, E3. apply mi_ceiling.
  - intros j. rewrite Hg. apply mi_free.
Qed.
(** ** One step of an operation on mutexes *)

Definition no_fired g : Prop := ∀ x w q susp, g x ≠ Waiting w (WOBJ q) susp Fired.

Record mstep g s (b : bool) g' s' : Prop := {
  ms_k : KInv g' s';
  ms_frame : gframe any_static no_timer mtx_own mtx_only s s';
  ms_woke : woke b s s';
  ms_run : ∀ r, g r = Runnable → g' r = Runnable;
  ms_set : ∀ x, settled_st (g x) = true → settled_st (g' x) = true;
  ms_dorm : ∀ x, g' x = Dormant ↔ g x = Dormant;
  ms_fired : no_fired g → no_fired g' }.

Lemma mtx_only_trans o1 o2 o3 : mtx_only o1 o2 → mtx_only o2 o3 → mtx_only o1 o3.
Proof. unfold mtx_only. intros E1 E2. rewrite E2, E1 at 1. done. Qed.
Lemma mtx_only_refl o : mtx_only o o.
Proof. unfold mtx_only. by destruct o. Qed.

Lemma mframe_trans s1 s2 s3 :
  gframe any_static no_timer mtx_own mtx_only s1 s2 → gframe any_static no_timer mtx_own mtx_only s2 s3 →
  gframe any_static no_timer mtx_own mtx_only s1 s3.
Proof. apply gframe_trans; [done|apply mtx_only_trans]. Qed.

Lemma mframe_of X s s' :
  tframe X s s' → (∀ q, X q → mtx_own q) → gframe any_static no_timer mtx_own mtx_only s s'.
Proof. intros HF HX. eapply gframe_weaken; [..|exact HF]; try done. intros o o' ->. apply mtx_only_refl. Qed.

Lemma mstep_refl g s : KInv g s → mstep g s false g s.
Proof. intros HK. split; try done. eapply (mframe_of (fun _ => False)); [apply frame_refl|done]. Qed.

Lemma mstep_trans g1 s1 b1 g2 s2 b2 g3 s3 :
  mstep g1 s1 b1 g2 s2 → mstep g2 s2 b2 g3 s3 → mstep g1 s1 (b1 || b2) g3 s3.
Proof.
  intros [A1 A2 A3 A4 A5 A6 A7] [B1 B2 B3 B4 B5 B6 B7]. split; try done; auto.
  - by eapply mframe_trans.
  - eapply woke_trans; [done..|]. by rewrite (fr_var _ _ _ _ A2).
  - intros x. by rewrite B6.
Qed.

(** A new owner, a new list of mutexes, a new priority. *)
Definition lock_st i (o : option nat) s : State :=
  upd_obj (fun ob => ob <| o_mtxcb ::= fun T => <[i := (T i) <| p_loctsk := o |>]> T |>) s.
Definition mq_st t (f : list nat → list nat) s : State := upd_tcb t (fun T => T <| mutex_queue ::= f |>) s.

Lemma lock_st_mstep g s i o : KInv g s → mstep g s false g (lock_st i o s).
Proof.
  intros HK. split; try done.
  apply KInv_obj; [done|]. intros q _. left. destruct q as [| | | | | | | | |j]; try done. simpl.
  destruct (decide (j = i)) as [->|]; [by rewrite fn_lookup_insert|by rewrite fn_lookup_insert_ne].
Qed.

Lemma mq_st_tcb t f s x :
  tstat (tcb_table (mq_st t f s) x) = tstat (tcb_table s x) ∧ priority (tcb_table (mq_st t f s) x) = priority (tcb_table s x) ∧
  p_winfo (tcb_table (mq_st t f s) x) = p_winfo (tcb_table s x) ∧ p_tinib (tcb_table (mq_st t f s) x) = p_tinib (tcb_table s x) ∧
  bpriority (tcb_table (mq_st t f s) x) = bpriority (tcb_table s x) ∧
  mq (mq_st t f s) x = if decide (x = t) then f (mq s t) else mq s x.
Proof.
  simpl. destruct (decide (x = t)) as [->|]; [by rewrite fn_lookup_insert|by rewrite fn_lookup_insert_ne].
Qed.

Lemma mq_st_mstep g s t f : KInv g s → mstep g s false g (mq_st t f s).
Proof.
  intros HK. split; try done; [|split; try done].
  - apply KInv_tcb; [|done]. intros x. destruct (mq_st_tcb t f s x) as (? & ? & ? & _). done.
  - apply mtx_only_refl.
  - intros q x Hq Hx _. by destruct (mq_st_tcb t f s x) as (_ & _ & -> & _).
Qed.

Lemma reprioritized_mstep g s t p b s' : reprioritized g s t p b s' → mstep g s b g s'.
Proof.
  intros [R1 R2 R3 R4 R5 R6 R7 R8 R9 R10]. split; try done.
  split; rewrite ?R3, ?R6; try done; [apply mtx_only_refl|].
  intros q x Hq Hx _. rewrite R7, R2. apply R8 in Hx; [|done]. split_and!; try done.
  destruct (decide (x = t)) as [->|]; [by rewrite fn_lookup_insert|by rewrite fn_lookup_insert_ne].
Qed.

Lemma tframe_mstep g s b g' s' :
  KInv g' s' → tframe (fun _ => False) s s' → woke b s s' → (∀ r, g r = Runnable → g' r = Runnable) →
  (∀ x, settled_st (g x) = true → settled_st (g' x) = true) → (∀ x, g' x = Dormant ↔ g x = Dormant) →
  (no_fired g → no_fired g') → mstep g s b g' s'.
Proof. intros. split; try done. by eapply mframe_of. Qed.

(** The new priority of [t]. *)
Lemma mtx_pre_priority bad lim g s t p b s' :
  mtx_pre (fun x => bad x ∨ x = t) lim s → reprioritized g s t p b s' → ¬ dormant s t →
  is_calc (mtxcb s) (tcb_table s t) p → mtx_pre bad lim s'.
Proof.
  intros Hm [R1 R2 R3 R4 R5 R6 R7 R8 R9 R10] Hd Hc.
  assert (HT : ∀ x, tcb_table s' x = if decide (x = t) then set_priority p (tcb_table s t) else tcb_table s x).
  { intros x. rewrite R2. destruct (decide (x = t)) as [->|]; [by rewrite fn_lookup_insert|by rewrite fn_lookup_insert_ne]. }
  assert (HM : ∀ x, mq s' x = mq s x) by (intros x; rewrite HT; by case_decide; subst).
  pose proof Hm as Hm'. destruct Hm.
  apply (mtx_pre_own (fun x => bad x ∨ x = t) bad lim lim s s' Hm'); try (intros x; rewrite HM; auto).
  - split; rewrite ?R3; try done. intros x. rewrite HT. by case_decide; subst.
  - intros x Hdx. rewrite HT. by case_decide; subst.
  - intros j x Hx. rewrite R3. apply R8 in Hx; [|done]. split; [done|]. by destruct (mi_wait x j Hx) as (_ & ? & _).
  - intros j Hj. rewrite R3. by apply mi_own.
  - intros x Hb Hdx. destruct (decide (x = t)) as [->|Hne].
    + rewrite HT, decide_True by done. exact Hc.
    + rewrite HT, decide_False by done. apply (mtx_pri_calc _ _ s x Hm'); [naive_solver|done].
Qed.

(** The priority of [t] is right already. *)
Lemma mtx_pre_good bad lim s t :
  mtx_pre (fun x => bad x ∨ x = t) lim s →
  (¬ dormant s t → is_calc (mtxcb s) (tcb_table s t) (priority (tcb_table s t))) → mtx_pre bad lim s.
Proof.
  intros Hm Hc. destruct Hm. split; try done. intros x Hb Hd. destruct (decide (x = t)) as [->|Hne].
  - eapply is_calc_unique; [by apply Hc|apply calc_is].
  - apply mi_pri; [naive_solver|done].
Qed.

Lemma mtx_pre_bad bad bad' lim s : (∀ x, bad x → bad' x) → mtx_pre bad lim s → mtx_pre bad' lim s.
Proof. intros Hb []. split; try done. intros x Hx. apply mi_pri. auto. Qed.
(** ** Locking *)

Lemma lock_st_loctsk i o s j : p_loctsk (mtxcb (lock_st i o s) j) = if decide (j = i) then o else p_loctsk (mtxcb s j).
Proof. simpl. destruct (decide (j = i)) as [->|]; [by rewrite fn_lookup_insert|by rewrite fn_lookup_insert_ne]. Qed.
Lemma lock_st_ini i o s j : p_mtxinib (mtxcb (lock_st i o s) j) = p_mtxinib (mtxcb s j).
Proof. simpl. destruct (decide (j = i)) as [->|]; [by rewrite fn_lookup_insert|by rewrite fn_lookup_insert_ne]. Qed.

Lemma own_same_tasks s t f i o : same_tasks s (mq_st t f (lock_st i o s)).
Proof.
  split; try done.
  - intros x. destruct (mq_st_tcb t f (lock_st i o s) x) as (-> & _ & _ & -> & -> & _). done.
  - intros j. apply (lock_st_ini i o s).
Qed.

Lemma mtx_pre_acquire bad lim s t i :
  mtx_pre bad lim s → ¬ lim i → ¬ mtx_gone s i → p_loctsk (mtxcb s i) = None → ¬ dormant s t → ceiling_ok s i t →
  mtx_pre (fun x => bad x ∨ x = t) lim (mq_st t (fun l => i :: l) (lock_st i (Some t) s)).
Proof.
  intros Hm Hl Hg Hfree Hd Hc. pose proof Hm as Hm'. destruct Hm.
  assert (HM : ∀ x, mq (mq_st t (fun l => i :: l) (lock_st i (Some t) s)) x = if decide (x = t) then i :: mq s t else mq s x).
  { intros x. destruct (mq_st_tcb t (fun l => i :: l) (lock_st i (Some t) s) x) as (_ & _ & _ & _ & _ & Hx). exact Hx. }
  assert (HP : ∀ x, priority (tcb_table (mq_st t (fun l => i :: l) (lock_st i (Some t) s)) x) = priority (tcb_table s x)).
  { intros x. destruct (mq_st_tcb t (fun l => i :: l) (lock_st i (Some t) s) x) as (_ & Hx & _). exact Hx. }
  assert (HS := own_same_tasks s t (fun l => i :: l) i (Some t)).
  set (s' := mq_st t _ _) in *.
  assert (Hi : ∀ x, i ∉ mq s x) by (intros x [_ Hx]%mi_own; [congruence|done]).
  apply (mtx_pre_own bad _ lim lim s s' Hm').
  - exact HS.
  - intros x _. apply HP.
  - intros j x Hx. split; [exact Hx|]. change (mtxcb s') with (mtxcb (lock_st i (Some t) s)). rewrite lock_st_loctsk.
    case_decide; [done|]. by destruct (mi_wait x j Hx) as (_ & ? & _).
  - intros x j Hj. rewrite HM. change (mtxcb s') with (mtxcb (lock_st i (Some t) s)). rewrite lock_st_loctsk.
    destruct (decide (j = i)) as [->|Hji], (decide (x = t)) as [->|Hxt].
    + split; [done|intros _; left].
    + split; [by intros ?%Hi|]. intros [_ [=]]. congruence.
    + rewrite elem_of_cons, mi_own by done. naive_solver.
    + by apply mi_own.
  - intros x j Hj. rewrite HM. case_decide; [|by apply mi_limbo]. subst. rewrite not_elem_of_cons.
    split; [by intros ->|by apply mi_limbo].
  - intros x. rewrite HM. case_decide; [apply NoDup_cons; by split|done].
  - intros x Hdx. rewrite HM. case_decide; [by subst|by apply mi_dormant].
  - intros x j. rewrite HM. case_decide; [subst|apply mi_hold]. intros [->|Hj]%elem_of_cons; [done|by apply mi_hold].
  - intros x Hb Hdx. assert (x ≠ t) by naive_solver. unfold s'. simpl. rewrite fn_lookup_insert_ne by done.
    apply (mtx_pri_calc _ _ s x Hm'); [naive_solver|done].
Qed.

Lemma mutex_acquire_ok g s t i :
  KInv g s → settled_st (g t) = true → g t ≠ Dormant → mtx_inv s → ¬ mtx_gone s i →
  p_loctsk (mtxcb s i) = None → ceiling_ok s i t →
  ∃ b s', mutex_acquire t i s = RET b s' ∧ mstep g s b g s' ∧ mtx_inv s' ∧
    (g t = Runnable → p_schedtsk s = Some t → p_schedtsk s' = Some t).
Proof.
  intros HK Hset Hd Hm Hg Hfree Hc.
  assert (Hdorm : ¬ dormant s t).
  { unfold dormant. rewrite (k_tstat _ _ HK), enc_dormant by apply HK. by rewrite bool_decide_eq_true. }
  set (s1 := mq_st t (fun l => i :: l) (lock_st i (Some t) s)).
  pose proof (mtx_pre_acquire none none s t i Hm (fun H => H) Hg Hfree Hdorm Hc) as Hm1. fold s1 in Hm1.
  assert (M1 : mstep g s false g s1).
  { change false with (false || false). eapply mstep_trans; [by apply lock_st_mstep|]. apply mq_st_mstep.
    by eapply ms_k, lock_st_mstep. }
  destruct (mq_st_tcb t (fun l => i :: l) (lock_st i (Some t) s) t) as (T1 & T2 & _ & _ & T5 & T6).
  rewrite decide_True in T6 by done. fold s1 in T1, T2, T5, T6. change (tcb_table (lock_st i (Some t) s)) with (tcb_table s) in *.
  assert (Hce : MTX_CEILING (mtxcb s1 i) = MTX_CEILING (mtxcb s i) ∧ ceiling (mtxcb s1 i) = ceiling (mtxcb s i)).
  { rewrite (MTX_CEILING_ini (mtxcb s i)) by apply lock_st_ini. split; [done|]. change (mtxcb s1) with (mtxcb (lock_st i (Some t) s)). by rewrite lock_st_ini. }
  destruct Hce as [Hce1 Hce2].
  pose proof (mtx_pri_calc none none s t Hm (fun H => H) Hdorm) as (C1 & C2 & C3).
  assert (Hd1 : ¬ dormant s1 t) by (unfold dormant; by rewrite T1).
  assert (Hini : ∀ j, ceiling (mtxcb s1 j) = ceiling (mtxcb s j) ∧ MTX_CEILING (mtxcb s1 j) = MTX_CEILING (mtxcb s j)).
  { intros j. rewrite (MTX_CEILING_ini (mtxcb s j)) by apply lock_st_ini. split; [|done].
    change (mtxcb s1) with (mtxcb (lock_st i (Some t) s)). by rewrite lock_st_ini. }
  assert (Hsame : (MTX_CEILING (mtxcb s i) = true → priority (tcb_table s t) ≤ ceiling (mtxcb s i)) → mtx_inv s1).
  { intros Hle. apply (mtx_pre_good none none s1 t Hm1). intros _. rewrite T2. split_and!.
    - by rewrite T5.
    - intros j. destruct (Hini j) as [-> ->]. rewrite T6. intros [->|Hj]%elem_of_cons; [done|by apply C2].
    - rewrite T5, T6. destruct C3 as [->|(j & Hj & Hcj & Hv)]; [by left|]. right. exists j.
      destruct (Hini j) as [-> ->]. split_and!; [by right|done|done]. }
  unfold mutex_acquire. change (set_loctsk i (Some t)) with (upd (lock_st i (Some t))).
  change (upd_mutex_queue t (fun l => i :: l)) with (upd (mq_st t (fun l => i :: l))).
  rewrite (bind_RET _ _ s () (lock_st i (Some t) s)) by reflexivity.
  rewrite (bind_RET _ _ _ () s1) by reflexivity. unfold kget. rewrite Hce1, Hce2.
  destruct (MTX_CEILING (mtxcb s i)) eqn:HC.
  - unfold mutex_raise_priority, kget. rewrite T2.
    destruct (Z.ltb_spec (ceiling (mtxcb s i)) (priority (tcb_table s t))) as [Hlt|Hge].
    + assert (Hp : is_calc (mtxcb s1) (tcb_table s1 t) (ceiling (mtxcb s i))).
      { split_and!.
        - rewrite T5. lia.
        - intros j. destruct (Hini j) as [-> ->]. rewrite T6. intros [->|Hj]%elem_of_cons HCj; [done|].
          specialize (C2 j Hj HCj). lia.
        - right. exists i. rewrite Hce1, Hce2, T6. split_and!; [left|done|done]. }
      destruct (change_priority_ok g s1 t (ceiling (mtxcb s i)) true) as (b & s2 & E & HR);
        [apply M1|done|done| |].
      { eapply (is_calc_range _ _ s1 t _ Hm1 Hd1 Hp). intros j Hj. by eapply mq_exists. }
      exists b, s2. split; [exact E|]. split_and!.
      * change b with (false || b). eapply mstep_trans; [exact M1|by eapply reprioritized_mstep].
      * by eapply mtx_pre_priority.
      * intros Hr Hs. apply (rp_raise _ _ _ _ _ _ HR Hr); [exact Hs|]. by rewrite T2.
    + exists false, s1. split_and!; [done|done|by apply Hsame|done].
  - exists false, s1. split_and!; [done|done|by apply Hsame|done].
Qed.
(** ** Unlocking *)

(** The priority with one mutex more. *)
Lemma is_calc_more (M : nat → MTXCB) (T T' : TCB) v i :
  bpriority T' = bpriority T → (∀ j, j ∈ mutex_queue T' ↔ j = i ∨ j ∈ mutex_queue T) → is_calc M T v →
  is_calc M T' (if MTX_CEILING (M i) && (ceiling (M i) <? v) then ceiling (M i) else v).
Proof.
  intros Hb Hq (C1 & C2 & C3). unfold is_calc. rewrite Hb.
  assert (Hi : i ∈ mutex_queue T') by (apply Hq; by left).
  destruct (MTX_CEILING (M i) && (ceiling (M i) <? v)) eqn:E.
  - apply andb_true_iff in E as [Ec El%Z.ltb_lt]. split_and!; [lia| |].
    + intros j [->|Hj]%Hq Hc; [done|]. specialize (C2 j Hj Hc). lia.
    + right. by exists i.
  - split_and!; [done| |].
    + intros j [->|Hj]%Hq Hc; [|by apply C2]. rewrite Hc in E. apply Z.ltb_ge in E. lia.
    + destruct C3 as [->|(j & Hj & Hc & ->)]; [by left|]. right. exists j. split_and!; [apply Hq; by right|done|done].
Qed.

(** A mutex is taken out of the list of its owner. *)
Lemma mtx_pre_remove bad lim s t i :
  mtx_pre bad lim s → mtx_pre (fun x => bad x ∨ x = t) (fun j => lim j ∨ j = i ∧ i ∈ mq s t) (mq_st t (without i) s).
Proof.
  intros Hm. pose proof Hm as Hm'. destruct Hm.
  assert (HM : ∀ x, mq (mq_st t (without i) s) x = if decide (x = t) then without i (mq s t) else mq s x).
  { intros x. destruct (mq_st_tcb t (without i) s x) as (_ & _ & _ & _ & _ & Hx). exact Hx. }
  assert (HP : ∀ x, priority (tcb_table (mq_st t (without i) s) x) = priority (tcb_table s x)).
  { intros x. destruct (mq_st_tcb t (without i) s x) as (_ & Hx & _). exact Hx. }
  assert (Hsub : ∀ x j, j ∈ mq (mq_st t (without i) s) x → j ∈ mq s x).
  { intros x j. rewrite HM. case_decide; [subst|done]. rewrite elem_of_without. by intros []. }
  assert (HS : same_tasks s (mq_st t (without i) s)).
  { split; try done. intros x. destruct (mq_st_tcb t (without i) s x) as (-> & _ & _ & -> & -> & _). done. }
  set (s' := mq_st t _ _) in *.
  apply (mtx_pre_own bad _ lim _ s s' Hm' HS).
  - intros x _. apply HP.
  - intros j x Hx. split; [exact Hx|]. by destruct (mi_wait x j Hx) as (_ & ? & _).
  - intros x j Hj. change (mtxcb s') with (mtxcb s). rewrite <- mi_own by naive_solver. split; [apply Hsub|].
    intros Hx. rewrite HM. case_decide; [subst|done]. apply elem_of_without. split; [done|]. intros ->. naive_solver.
  - intros x j [Hj|[-> Hj]] Hx; [by apply (mi_limbo x j Hj), Hsub|].
    rewrite HM in Hx. case_decide as Hxt; [subst; apply elem_of_without in Hx; naive_solver|].
    assert (Hl : ¬ lim i) by (intros Hl; by apply (mi_limbo t i Hl)).
    apply mi_own in Hx as [_ Hx]; [|done]. apply mi_own in Hj as [_ Hj]; [|done]. congruence.
  - intros x. rewrite HM. case_decide; [by apply NoDup_without|done].
  - intros x Hd. rewrite HM. case_decide; [subst; by rewrite mi_dormant|by apply mi_dormant].
  - intros x j Hj. apply mi_hold. by apply Hsub.
  - intros x Hb Hd. assert (x ≠ t) by naive_solver. unfold s', mq_st, upd_tcb, set. simpl.
    rewrite fn_lookup_insert_ne by done. apply (mtx_pri_calc _ _ s x Hm'); [naive_solver|done].
Qed.

(** A mutex nobody awaits is unlocked. *)
Lemma mtx_pre_unlock bad lim s i :
  mtx_pre bad (fun j => lim j ∨ j = i) s → wq s (MTXQ i) = [] → mtx_pre bad lim (lock_st i None s).
Proof.
  intros Hm Hq. pose proof Hm as Hm'. destruct Hm.
  apply (mtx_pre_own bad _ _ lim s _ Hm'); try done.
  - split; try done. intros j. apply lock_st_ini.
  - intros j x Hx. change (x ∈ wq s (MTXQ j)) in Hx. split; [done|]. rewrite lock_st_loctsk. case_decide; subst.
    + rewrite Hq in Hx. by apply not_elem_of_nil in Hx.
    + by destruct (mi_wait x j Hx) as (_ & ? & _).
  - intros x j Hj. rewrite lock_st_loctsk. change (mq (lock_st i None s) x) with (mq s x). case_decide; subst.
    + split; [|by intros [_ [=]]]. intros Hx. exfalso. by apply (mi_limbo x i (or_intror eq_refl)).
    + apply mi_own. naive_solver.
  - intros x j Hj. apply mi_limbo. by left.
  - intros x Hb Hd. by apply (mtx_pri_calc _ _ s x Hm').
Qed.

(** A mutex is handed over to [u], the first task that waits for it. *)
Lemma mtx_pre_hand bad lim s s' u i :
  mtx_pre bad (fun j => lim j ∨ j = i) s → ¬ lim i → u ∈ wq s (MTXQ i) → ¬ dormant s u → same_tasks s s' →
  mtxcb s' = mtxcb (lock_st i (Some u) s) →
  (∀ j, wq s' (MTXQ j) = without u (wq s (MTXQ j))) →
  (∀ x, x ≠ u → mq s' x = mq s x ∧ priority (tcb_table s' x) = priority (tcb_table s x)) →
  mq s' u = mq s u ++ [i] →
  priority (tcb_table s' u) = (if MTX_CEILING (mtxcb s i) && (ceiling (mtxcb s i) <? priority (tcb_table s u))
    then ceiling (mtxcb s i) else priority (tcb_table s u)) →
  mtx_pre bad lim s'.
Proof.
  intros Hm Hl Hu Hd HS HL HQ Hx Hqu Hpu. pose proof Hm as Hm'. destruct Hm.
  destruct (mi_wait u i Hu) as (Hg & _ & Hce). pose proof HS as [HT _ _ _].
  apply (mtx_pre_own bad _ _ lim s s' Hm' HS).
  - intros x Hdx. assert (x ≠ u) by (by intros ->). by apply Hx.
  - intros j x. rewrite HQ, elem_of_without. intros [Hj _]. split; [done|]. rewrite HL, lock_st_loctsk.
    case_decide; [done|]. by destruct (mi_wait x j Hj) as (_ & ? & _).
  - intros x j Hj. rewrite HL, lock_st_loctsk.
    assert (Hi : i ∉ mq s x) by (apply mi_limbo; by right).
    destruct (decide (x = u)) as [->|Hne], (decide (j = i)) as [->|Hji].
    + rewrite Hqu. set_solver.
    + rewrite Hqu, elem_of_app, list_elem_of_singleton, mi_own by naive_solver. naive_solver.
    + rewrite (proj1 (Hx x Hne)). naive_solver.
    + rewrite (proj1 (Hx x Hne)). apply mi_own. naive_solver.
  - intros x j Hj. assert (j ≠ i) by (by intros ->). destruct (decide (x = u)) as [->|Hne].
    + rewrite Hqu. apply not_elem_of_app. split; [apply mi_limbo; by left|set_solver].
    + rewrite (proj1 (Hx x Hne)). apply mi_limbo. by left.
  - intros x. destruct (decide (x = u)) as [->|Hne]; [|by rewrite (proj1 (Hx x Hne))].
    rewrite Hqu. apply NoDup_app. split_and!; [done| |apply NoDup_singleton].
    intros j Hj ->%list_elem_of_singleton. by apply (mi_limbo u i (or_intror eq_refl)).
  - intros x Hdx. assert (x ≠ u) as Hne by (by intros ->). rewrite (proj1 (Hx x Hne)). by apply mi_dormant.
  - intros x j. destruct (decide (x = u)) as [->|Hne]; [|rewrite (proj1 (Hx x Hne)); apply mi_hold].
    rewrite Hqu. intros [Hj| ->%list_elem_of_singleton]%elem_of_app; [by apply mi_hold|done].
  - intros x Hb Hdx. pose proof (mtx_pri_calc _ _ s x Hm' Hb Hdx) as Hc. destruct (decide (x = u)) as [->|Hne].
    + rewrite Hpu. eapply is_calc_more; [apply HT| |exact Hc]. intros j. rewrite Hqu. set_solver.
    + destruct (Hx x Hne) as [E1 E2]. unfold is_calc in *. rewrite E1, E2. destruct (HT x) as (_ & -> & _). exact Hc.
Qed.
(** What [mutex_release] does to a task that does not wait: nothing. *)
Record keeps g s g' s' (x : nat) : Prop := {
  kp_state : g' x = g x;
  kp_mutexes : mq s' x = mq s x;
  kp_priority : priority (tcb_table s' x) = priority (tcb_table s x) }.

Lemma mutex_release_none bad lim g s i :
  KInv g s → mtx_pre bad (fun j => lim j ∨ j = i) s → wq s (MTXQ i) = [] →
  ∃ s', mutex_release i s = RET false s' ∧ mstep g s false g s' ∧ mtx_pre bad lim s' ∧ ∀ x, keeps g s g s' x.
Proof.
  intros HK Hm Hq. exists (lock_st i None s). split_and!.
  - unfold mutex_release, kget, queue_empty, Fam.queue_empty. by rewrite Hq.
  - by apply lock_st_mstep.
  - by apply mtx_pre_unlock.
  - done.
Qed.

(** The new owner, off the queue and without its timer, as it is when
    [make_non_wait] is called; [op] is its new priority, if it gets one. *)
Definition new_pri u i s : option Z :=
  if MTX_CEILING (mtxcb s i) && (ceiling (mtxcb s i) <? priority (tcb_table s u)) then Some (ceiling (mtxcb s i)) else None.
Definition hand_st u i (op : option Z) s : State :=
  let s1 := mq_st u (fun l => l ++ [i]) (lock_st i (Some u) s) in
  match op with Some p => upd_tcb u (set_priority p) s1 | None => s1 end.

Lemma hand_st_tcb u i op s x :
  tcb_table (hand_st u i op s) x =
  if decide (x = u) then (tcb_table s u) <| mutex_queue ::= fun l => l ++ [i] |>
    <| priority := default (priority (tcb_table s u)) op |> else tcb_table s x.
Proof.
  unfold hand_st, mq_st, lock_st, upd_tcb, upd_obj. destruct (decide (x = u)) as [->|], op; simpl;
    rewrite ?fn_lookup_insert; rewrite ?fn_lookup_insert_ne by done; try done; by destruct (tcb_table s u).
Qed.

Lemma hand_st_ok g s u w q susp tmr i op :
  KInv g s → g u = Waiting w (Detached q) susp tmr → (∀ p, op = Some p → 0 ≤ p < 16) →
  KInv g (hand_st u i op s) ∧ gframe any_static no_timer mtx_own mtx_only s (hand_st u i op s).
Proof.
  intros HK Hg Hp.
  destruct (lock_st_mstep g s i (Some u) HK) as [K1 F1 _ _ _ _ _].
  destruct (mq_st_mstep g _ u (fun l => l ++ [i]) K1) as [K2 F2 _ _ _ _ _].
  unfold hand_st. set (s2 := mq_st _ _ _) in *. pose proof (mframe_trans _ _ _ F1 F2) as F12.
  destruct op as [p|]; [|done].
  destruct (reprioritized_mstep g s2 u p false (upd_tcb u (set_priority p) s2)) as [K3 F3 _ _ _ _ _].
  - apply (change_priority_stay g s2 u p); [done|by rewrite Hg|by apply Hp|].
    intros q' _ _ Hx%(k_wq _ _ K2). unfold place in Hx. by rewrite Hg in Hx.
  - split; [done|]. by eapply mframe_trans.
Qed.

(** The steps of the handover in the order of the code. *)
Lemma hand_RET u i w s b s' :
  p_winfo (tcb_table s u) = Some w →
  (set_wercd u E_OK ;;; make_non_wait u) (hand_st u i (new_pri u i s) s) = RET b s' →
  (set_wercd u E_OK ;;; set_loctsk i (Some u) ;;; upd_mutex_queue u (fun l => l ++ [i]) ;;;
    get s;;
    (if MTX_CEILING (mtxcb s i) then
       if ceiling (mtxcb s i) <? priority (tcb_table s u)
       then set_priority_field u (ceiling (mtxcb s i)) else ret ()
     else ret ()) ;;;
    make_non_wait u) s = RET b s'.
Proof.
  intros Hw. set (s1 := upd_winfo w (fun W => W <| winfo := WERCD E_OK |>) s).
  set (s3 := mq_st u (fun l => l ++ [i]) (lock_st i (Some u) s1)).
  assert (HW : set_wercd u E_OK s = RET () s1) by (unfold set_wercd, kget, deref; by rewrite Hw).
  assert (HW' : set_wercd u E_OK (hand_st u i (new_pri u i s) s) = RET () (hand_st u i (new_pri u i s) s1)).
  { unfold set_wercd, kget, deref. rewrite hand_st_tcb, decide_True by done. simpl. rewrite Hw.
    by destruct (new_pri u i s). }
  rewrite (bind_RET _ _ _ _ _ HW'), (bind_RET _ _ _ _ _ HW).
  rewrite (bind_RET _ _ s1 () (lock_st i (Some u) s1)) by done. rewrite (bind_RET _ _ _ () s3) by done.
  unfold kget. assert (HC : MTX_CEILING (mtxcb s3 i) = MTX_CEILING (mtxcb s i) ∧ ceiling (mtxcb s3 i) = ceiling (mtxcb s i)).
  { change (mtxcb s3) with (mtxcb (lock_st i (Some u) s)). rewrite (MTX_CEILING_ini (mtxcb s i)) by apply lock_st_ini.
    by rewrite lock_st_ini. }
  assert (HP : priority (tcb_table s3 u) = priority (tcb_table s u)).
  { destruct (mq_st_tcb u (fun l => l ++ [i]) (lock_st i (Some u) s1) u) as (_ & Hx & _). exact Hx. }
  destruct HC as [-> ->]. rewrite HP. intros E. rewrite <- E. unfold new_pri.
  destruct (MTX_CEILING (mtxcb s i)); simpl; [|done]. by destruct (ceiling (mtxcb s i) <? _).
Qed.

Lemma mutex_release_hand bad lim g s i u l :
  KInv g s → no_fired g → mtx_pre bad (fun j => lim j ∨ j = i) s → ¬ lim i → wq s (MTXQ i) = u :: l →
  ∃ b g' s', mutex_release i s = RET b s' ∧ mstep g s b g' s' ∧ mtx_pre bad lim s' ∧
    ∀ x, is_waiting (g x) = false ∨ x ∉ wq s (MTXQ i) → keeps g s g' s' x.
Proof.
  intros HK Hnf Hm Hl Hq. assert (Hu : u ∈ wq s (MTXQ i)) by (rewrite Hq; left).
  destruct (queue_delete_next_ok g s (MTXQ i) u l HK eq_refl Hq) as (w & susp & tmr & s1 & Hg & E1 & Hs1 & HK1 & F1).
  destruct (wait_dequeue_tmevtb_ok _ _ u w (Detached (MTXQ i)) susp tmr HK1)
    as (s2 & E2 & HK2 & F2 & HT2 & HQ2 & HW2 & HS2 & _); [apply fn_lookup_insert|intros ->; by apply (Hnf u w (MTXQ i) susp)|].
  set (g2 := <[u:=_]> _) in HK2. assert (Hg2 : g2 u = Waiting w (Detached (MTXQ i)) susp (stop tmr)) by apply fn_lookup_insert.
  assert (Hw : p_winfo (tcb_table s2 u) = Some w) by (eapply wait_winfo, HK2, Hg2).
  assert (HT : tcb_table s2 = tcb_table s) by (by rewrite HT2, Hs1).
  assert (HM : mtxcb s2 = mtxcb s) by (rewrite <- (fr_obj _ _ _ _ F2); by subst s1).
  destruct (mi_wait _ _ _ Hm u i Hu) as (Hgone & _ & _).
  assert (Hp : ∀ p, new_pri u i s2 = Some p → 0 ≤ p < 16).
  { intros p. unfold new_pri. rewrite HM, HT. destruct (MTX_CEILING (mtxcb s i)) eqn:Hc; simpl; [|done].
    destruct (Z.ltb_spec (ceiling (mtxcb s i)) (priority (tcb_table s u))); [|done]. intros [= <-].
    split; [by apply (mi_ceiling _ _ _ Hm)|]. pose proof (k_pri _ _ HK u). rewrite Hg in *. specialize (H0 ltac:(done)). lia. }
  destruct (hand_st_ok g2 s2 u w _ susp _ i _ HK2 Hg2 Hp) as [HK3 F3]. set (s3 := hand_st u i (new_pri u i s2) s2) in *.
  destruct (end_wait_ok g2 s3 u w (Detached (MTXQ i)) susp (stop tmr) E_OK HK3 Hg2)
    as (b & s4 & E4 & HK4 & F4 & W4 & _ & HT4 & HQ4); [done|by destruct tmr|].
  set (g4 := <[u:=after_wait susp]> g).
  assert (HK4' : KInv g4 s4) by (by eapply KInv_twice, KInv_twice).
  assert (Hne : ∀ x, x ≠ u → g4 x = g x) by (intros; by apply fn_lookup_insert_ne).
  assert (Hgu : g4 u = after_wait susp) by apply fn_lookup_insert.
  assert (HT3 : ∀ x, tcb_table s3 x = if decide (x = u) then (tcb_table s u) <| mutex_queue ::= fun l => l ++ [i] |>
    <| priority := default (priority (tcb_table s u)) (new_pri u i s2) |> else tcb_table s x).
  { intros x. unfold s3. rewrite hand_st_tcb. by rewrite HT. }
  assert (HSu : static_tcb (tcb_table s4 u) = static_tcb (tcb_table s3 u)) by apply F4.
  unfold static_tcb in HSu. rewrite HT3, decide_True in HSu by done. injection HSu as Hu1 Hu2 Hu3 Hu4 Hu5 Hu6.
  assert (HTo : ∀ x, x ≠ u → tcb_table s4 x = tcb_table s x).
  { intros x Hx. rewrite HT4, HT3 by done. by rewrite decide_False. }
  assert (Hd : ¬ dormant s u).
  { unfold dormant. rewrite (k_tstat _ _ HK), enc_dormant by apply HK. rewrite Hg. by case_bool_decide. }
  assert (HQ : ∀ j, wq s4 (MTXQ j) = without u (wq s (MTXQ j))).
  { intros j. rewrite HQ4 by done. assert (wq s3 = wq s2) as -> by (unfold s3, hand_st; by destruct (new_pri u i s2)).
    rewrite HQ2, Hs1. by apply (queue_delete_head g s (MTXQ i) u l). }
  assert (Ho : obj s4 = obj (lock_st i (Some u) s2)).
  { rewrite <- (fr_obj _ _ _ _ F4). unfold s3, hand_st. by destruct (new_pri u i s2). }
  exists b, g4, s4. split_and!.
  - unfold mutex_release, kget at 1, queue_empty, Fam.queue_empty. rewrite Hq.
    rewrite (bind_RET _ _ _ _ _ E1), (bind_RET _ _ _ _ _ E2). by apply (hand_RET u i w).
  - split; try done.
    + eapply mframe_trans; [by eapply mframe_of; [exact F1|]|]. eapply mframe_trans; [by eapply mframe_of; [exact F2|]|].
      eapply mframe_trans; [exact F3|]. by eapply mframe_of; [exact F4|].
    + destruct W4 as [W1 W2]. assert (Hv : var s3 = var s).
      { rewrite (fr_var _ _ _ _ F3), (fr_var _ _ _ _ F2), (fr_var _ _ _ _ F1). done. }
      assert (Hs : sch s3 = sch s) by (unfold s3, hand_st; destruct (new_pri u i s2); simpl; by rewrite HS2, Hs1).
      rewrite Hv, Hs in *. by split.
    + intros r Hr. rewrite Hne; [done|]. intros ->. congruence.
    + intros x Hx. destruct (decide (x = u)) as [->|]; [rewrite Hgu; by destruct susp|by rewrite Hne].
    + intros x. destruct (decide (x = u)) as [->|]; [|by rewrite Hne]. rewrite Hgu, Hg. by destruct susp.
    + intros Hf x w' q susp'. destruct (decide (x = u)) as [->|]; [rewrite Hgu; by destruct susp|rewrite Hne by done; apply Hf].
  - apply (mtx_pre_hand bad lim s s4 u i Hm Hl Hu Hd); [|by rewrite Ho; simpl; rewrite HM|exact HQ| | |].
    + split; rewrite ?Ho; simpl; try (rewrite <- (fr_obj _ _ _ _ F2); by subst s1).
      * intros x. destruct (decide (x = u)) as [->|]; [by rewrite Hu1, Hu2, Hu6|by rewrite HTo].
      * intros j. rewrite HM. apply (lock_st_ini i (Some u) s).
    + intros x Hx. by rewrite HTo.
    + exact Hu5.
    + rewrite Hu3. unfold new_pri. rewrite HM, HT. by destruct (MTX_CEILING (mtxcb s i) && _).
  - intros x Hx. assert (x ≠ u) as Hxu by (intros ->; destruct Hx as [Hx|Hx]; [by rewrite Hg in Hx|done]).
    split; [by apply Hne|by rewrite HTo..].
Qed.

Lemma mutex_release_ok bad lim g s i :
  KInv g s → no_fired g → mtx_pre bad (fun j => lim j ∨ j = i) s → ¬ lim i →
  ∃ b g' s', mutex_release i s = RET b s' ∧ mstep g s b g' s' ∧ mtx_pre bad lim s' ∧
    ∀ x, is_waiting (g x) = false ∨ x ∉ wq s (MTXQ i) → keeps g s g' s' x.
Proof.
  intros HK Hnf Hm Hl. destruct (wq s (MTXQ i)) as [|u l] eqn:Hq.
  - destruct (mutex_release_none bad lim g s i HK Hm Hq) as (s' & E & H1 & H2 & H3). exists false, g, s'.
    split_and!; [done..|]. intros x _. apply H3.
  - rewrite <- Hq. by eapply mutex_release_hand.
Qed.
End mutex.
