(* ===== verification/MutexCalls.v ===== *)
(** * Mutexes: the service calls

    The calls of kernel/mutex.c keep the invariant of the kernel, [del_mtx] for
    a mutex that is not locked and [ini_mtx] for one that exists. *)

From S2P Require Import Prelude Queue Data Kmonad TimeEvent Task Wait Core Release Priority Service Transit Object Mutex MutexProof.
Open Scope Z_scope.

Section mutex.
Context {cfg : Config}.
Implicit Types (s : State) (g : nat → tst) (i j : nat) (t u x : nat) (bad lim : nat → Prop).
Notation mq s x := (mutex_queue (tcb_table s x)).

(** ** Lowering the priority *)

Lemma mtx_pre_ext bad bad' lim lim' s :
  (∀ x, bad x ↔ bad' x) → (∀ j, lim j ↔ lim' j) → mtx_pre bad lim s → mtx_pre bad' lim' s.
Proof.
  intros Hb Hl []. split; try done.
  - intros x j Hj. apply mi_own. by rewrite Hl.
  - intros x j Hj. apply mi_limbo. by rewrite Hl.
  - intros x Hx. apply mi_pri. by rewrite Hb.
Qed.

(** The priority without one mutex, when it did not come from it. *)
Lemma is_calc_less (M : nat → MTXCB) (T T' : TCB) v i :
  bpriority T' = bpriority T → mutex_queue T' = without i (mutex_queue T) →
  (MTX_CEILING (M i) = true → v ≠ ceiling (M i)) → is_calc M T v → is_calc M T' v.
Proof.
  intros Hb Hq Hv (C1 & C2 & C3). unfold is_calc. rewrite Hb, Hq. split_and!; [done| |].
  - intros j [Hj _]%elem_of_without. by apply C2.
  - destruct C3 as [->|(j & Hj & Hc & ->)]; [by left|]. right. exists j. split_and!; [|done|done].
    apply elem_of_without. split; [done|]. intros ->. by apply Hv.
Qed.

Lemma mutex_drop_ok bad lim g s t c :
  KInv g s → settled_st (g t) = true → g t ≠ Dormant → mtx_pre (fun x => bad x ∨ x = t) lim s →
  (priority (tcb_table s t) ≠ c → is_calc (mtxcb s) (tcb_table s t) (priority (tcb_table s t))) →
  ∃ b s', mutex_drop_priority t c s = RET b s' ∧ mstep g s b g s' ∧ mtx_pre bad lim s'.
Proof.
  intros HK Hset Hd Hm Hc. unfold mutex_drop_priority, kget.
  assert (Hdorm : ¬ dormant s t).
  { unfold dormant. rewrite (k_tstat _ _ HK), enc_dormant by apply HK. by rewrite bool_decide_eq_true. }
  assert (Hstay : is_calc (mtxcb s) (tcb_table s t) (priority (tcb_table s t)) →
    ∃ b s', ret false s = RET b s' ∧ mstep g s b g s' ∧ mtx_pre bad lim s').
  { intros Hp. exists false, s. split_and!; [done|by apply mstep_refl|]. by apply (mtx_pre_good bad lim s t Hm). }
  destruct (Z.eqb_spec c (priority (tcb_table s t))) as [_|Hne]; [|by apply Hstay, Hc, not_eq_sym].
  pose proof (calc_is t s) as Hp.
  destruct (Z.eqb_spec (mutex_calc_priority t s) (priority (tcb_table s t))) as [He|He]; simpl.
  - apply Hstay. by rewrite <- He.
  - destruct (change_priority_ok g s t (mutex_calc_priority t s) true HK Hset Hd) as (b & s' & E & HR).
    { eapply (is_calc_range _ _ s t _ Hm Hdorm Hp). intros j Hj. by eapply mq_exists. }
    exists b, s'. split_and!; [exact E|by eapply reprioritized_mstep|by eapply mtx_pre_priority].
Qed.

(** The mutex leaves the list of its owner, whose priority is lowered. *)
Lemma mutex_leave_ok bad lim g s t i :
  KInv g s → settled_st (g t) = true → g t ≠ Dormant → mtx_pre bad lim s → ¬ bad t → i ∈ mq s t →
  let s1 := mq_st t (without i) s in
  ∃ b s', (get s;; if MTX_CEILING (mtxcb s i) then mutex_drop_priority t (ceiling (mtxcb s i)) else ret false) s1 = RET b s' ∧
    mstep g s b g s' ∧ mtx_pre bad (fun j => lim j ∨ j = i) s'.
Proof.
  intros HK Hset Hd Hm Hb Hi s1.
  assert (Hdorm : ¬ dormant s t).
  { unfold dormant. rewrite (k_tstat _ _ HK), enc_dormant by apply HK. by rewrite bool_decide_eq_true. }
  pose proof (mq_st_mstep g s t (without i) HK) as M1. fold s1 in M1.
  assert (Hm1 : mtx_pre (fun x => bad x ∨ x = t) (fun j => lim j ∨ j = i) s1).
  { generalize (mtx_pre_remove bad lim s t i Hm). apply mtx_pre_ext; naive_solver. }
  destruct (mq_st_tcb t (without i) s t) as (_ & T2 & _ & _ & T5 & T6). rewrite decide_True in T6 by done.
  assert (Hc : (MTX_CEILING (mtxcb s i) = true → priority (tcb_table s t) ≠ ceiling (mtxcb s i)) →
    is_calc (mtxcb s1) (tcb_table s1 t) (priority (tcb_table s1 t))).
  { intros Hv. unfold s1. rewrite T2. apply (is_calc_less _ (tcb_table s t) _ _ i); [done|done|exact Hv|].
    exact (mtx_pri_calc bad lim s t Hm Hb Hdorm). }
  unfold kget. change (mtxcb s1) with (mtxcb s). destruct (MTX_CEILING (mtxcb s i)).
  - destruct (mutex_drop_ok bad _ g s1 t (ceiling (mtxcb s i)) (ms_k _ _ _ _ _ M1) Hset Hd Hm1) as (b & s2 & E & M2 & Hm2).
    + intros Hne. apply Hc. intros _. unfold s1 in Hne. by rewrite T2 in Hne.
    + exists b, s2. split_and!; [exact E| |exact Hm2]. change b with (false || b). by eapply mstep_trans.
  - exists false, s1. split_and!; [done|exact M1|]. apply (mtx_pre_good bad _ s1 t Hm1). intros _. by apply Hc.
Qed.

Lemma is_calc_ini (M M' : nat → MTXCB) T v :
  (∀ j, p_mtxinib (M' j) = p_mtxinib (M j)) → is_calc M T v → is_calc M' T v.
Proof.
  intros HM (C1 & C2 & C3). split_and!; [done| |].
  - intros j Hj. rewrite (MTX_CEILING_ini _ _ (HM j)), HM. by apply C2.
  - destruct C3 as [->|(j & Hj & Hc & ->)]; [by left|]. right. exists j. by rewrite (MTX_CEILING_ini _ _ (HM j)), HM.
Qed.

(** The mutex leaves the list of its owner and nobody gets it: [ini_mtx]. *)
Lemma mutex_free_ok g s t i :
  KInv g s → settled_st (g t) = true → mtx_inv s → i ∈ mq s t → wq s (MTXQ i) = [] →
  ∃ b s', (delete_mutex_queue t i ;;; set_loctsk i None ;;;
      get s;; if MTX_CEILING (mtxcb s i) then mutex_drop_priority t (ceiling (mtxcb s i)) else ret false) s = RET b s' ∧
    mstep g s b g s' ∧ mtx_inv s'.
Proof.
  intros HK Hset Hm Hi Hq. set (s1 := mq_st t (without i) s). set (s2 := lock_st i None s1).
  assert (Hdorm : ¬ dormant s t) by (intros Hd; rewrite (mi_dormant _ _ _ Hm t Hd) in Hi; by apply not_elem_of_nil in Hi).
  assert (Hd : g t ≠ Dormant).
  { intros Hd. apply Hdorm. unfold dormant. by rewrite (k_tstat _ _ HK), Hd by apply HK. }
  pose proof (mq_st_mstep g s t (without i) HK) as M1. fold s1 in M1.
  pose proof (lock_st_mstep g s1 i None (ms_k _ _ _ _ _ M1)) as M2. fold s2 in M2.
  pose proof (mstep_trans _ _ _ _ _ _ _ _ M1 M2) as M. simpl in M.
  assert (Hm2 : mtx_pre (fun x => none x ∨ x = t) none s2).
  { apply mtx_pre_unlock; [|done]. generalize (mtx_pre_remove none none s t i Hm). apply mtx_pre_ext; naive_solver. }
  destruct (mq_st_tcb t (without i) s t) as (_ & T2 & _ & _ & T5 & T6). rewrite decide_True in T6 by done.
  assert (Hc : (MTX_CEILING (mtxcb s i) = true → priority (tcb_table s t) ≠ ceiling (mtxcb s i)) →
    is_calc (mtxcb s2) (tcb_table s2 t) (priority (tcb_table s2 t))).
  { intros Hv. change (tcb_table s2) with (tcb_table s1). unfold s1 at 2. rewrite T2.
    apply (is_calc_ini (mtxcb s)); [intros j; apply (lock_st_ini i None s1)|].
    apply (is_calc_less _ (tcb_table s t) _ _ i); [done|done|exact Hv|].
    apply (mtx_pri_calc none none s t Hm); [intros []|done]. }
  pose proof (lock_st_ini i None s1 i) as Hini. fold s2 in Hini.
  unfold delete_mutex_queue, upd_mutex_queue, set_loctsk. cbn -[mutex_drop_priority].
  change (mtxcb s1) with (mtxcb s) in Hini. 
  change (∃ b s', (if MTX_CEILING (mtxcb s2 i) then mutex_drop_priority t (ceiling (mtxcb s2 i)) else ret false) s2 = RET b s' ∧
    mstep g s b g s' ∧ mtx_inv s').
  rewrite (MTX_CEILING_ini _ _ Hini), Hini. destruct (MTX_CEILING (mtxcb s i)).
  - destruct (mutex_drop_ok none none g s2 t (ceiling (mtxcb s i)) (ms_k _ _ _ _ _ M2) Hset Hd Hm2) as (b & s3 & E & M3 & Hm3).
    + intros Hne. apply Hc. intros _. change (priority (tcb_table s1 t) ≠ ceiling (mtxcb s i)) in Hne. unfold s1 in Hne. by rewrite T2 in Hne.
    + exists b, s3. split_and!; [exact E| |exact Hm3]. change b with (false || b). by eapply mstep_trans.
  - exists false, s2. split_and!; [done|exact M|]. apply (mtx_pre_good none none s2 t Hm2). intros _. by apply Hc.
Qed.

(** ** Waiting for a mutex *)

Lemma mtx_inv_enter s s' i t :
  mtx_inv s → tframe (fun q => q = MTXQ i) s s' → (∀ x, x ∈ wq s' (MTXQ i) → x = t ∨ x ∈ wq s (MTXQ i)) →
  ¬ mtx_gone s i → p_loctsk (mtxcb s i) ≠ None → ceiling_ok s i t → mtx_inv s'.
Proof.
  intros Hm HF HQ Hg Hl Hc. pose proof (fr_obj _ _ _ _ HF) as Ho.
  set (s0 := s <| wq := <[MTXQ i := filter (fun x => x ∈ wq s (MTXQ i)) (wq s' (MTXQ i))]> (wq s') |>).
  assert (HS : ∀ x, p_tinib (tcb_table s' x) = p_tinib (tcb_table s x) ∧ bpriority (tcb_table s' x) = bpriority (tcb_table s x) ∧
    priority (tcb_table s' x) = priority (tcb_table s x) ∧ mq s' x = mq s x ∧
    TSTAT_DORMANT (tstat (tcb_table s' x)) = TSTAT_DORMANT (tstat (tcb_table s x))).
  { intros x. pose proof (fr_tcb _ _ _ _ HF x) as Hx. unfold static_tcb in Hx. by injection Hx. }
  destruct Hm.
  split; unfold dormant, noexs, mtx_gone, ceiling_ok, mutex_calc_priority in *; rewrite <- ?Ho; try done;
    intros x; destruct (HS x) as (H1 & H2 & H3 & H4 & H5); rewrite ?H1, ?H2, ?H3, ?H4, ?H5; auto.
  intros j Hx. rewrite ?H2, <- ?Ho. destruct (decide (j = i)) as [->|Hne].
  - apply HQ in Hx as [->|Hx]; [done|by apply mi_wait].
  - apply mi_wait. by apply (fr_queue _ _ _ _ HF (MTXQ j) x eq_refl Hx); congruence.
Qed.

Section calls.
Context (OInv : State → Prop) `{!Objects OInv} `{!TaskComponent OInv mtx_inv mtx_own mtx_only}.
Notation WP := (wp (rely OInv) (guar OInv)).
Notation Inv := (Inv OInv).
Notation OK := (OK OInv).
Notation Mid := (Mid OInv).

Lemma mstep_Mid g s b g' s' : Mid g s → mstep g s b g' s' → mtx_inv s' → Mid g' s'.
Proof.
  intros [M1 M2 M3] [H1 H2 H3 H4 H5 H6 H7] Hm. split; [done|intros x; by apply H5|]. by eapply kcomp_put.
Qed.

Lemma mstep_progress g s b g' s' : Mid g s → mstep g s b g' s' → mtx_inv s' → progress OInv g s b s'.
Proof.
  intros HM Hst Hm. exists g'. split; [by eapply mstep_Mid|]. destruct Hst. split_and!; try done; by apply ms_frame.
Qed.

Lemma settled_no_fired g : settled g → no_fired g.
Proof. intros Hs x w q susp Hg. specialize (Hs x). by rewrite Hg in Hs. Qed.

Lemma mtx_Inv g s : Inv g s → mtx_inv s.
Proof. intros HI. eapply kcomp_get, HI. Qed.

(** ** Locking *)

(** Both branches of a call that may lock the mutex at once; [k] is the rest
    when another task holds it. *)
Lemma loc_body_ok g t s i (k : K Z) :
  Inv g s → in_task t s → g t = Runnable →
  (¬ mtx_gone s i → p_loctsk (mtxcb s i) ≠ None → ceiling_ok s i t → WP (fun _ s' => OK s' ∧ in_task t s') (k s)) →
  WP (fun _ s' => OK s' ∧ in_task t s') ((get s;; the t := p_runtsk s ;;
    if mtxatr (p_mtxinib (mtxcb s i)) =? TA_NOEXS then ret E_NOEXS
    else if MTX_CEILING (mtxcb s i) && (bpriority (tcb_table s t) <? ceiling (mtxcb s i)) then ret E_ILUSE
    else if bool_decide (p_loctsk (mtxcb s i) = None) then
      mutex_acquire t i ;;; assert_no_dispatch ;;; ret E_OK
    else if bool_decide (p_loctsk (mtxcb s i) = p_runtsk s) then ret E_OBJ
    else k) s).
Proof.
  intros HI Hin Ht Hk. pose proof Hin as (Hc & Hl & Hr). unfold kget, deref. rewrite Hr.
  destruct (Z.eqb_spec (mtxatr (p_mtxinib (mtxcb s i))) TA_NOEXS) as [He|He]; [svc_ret|].
  destruct (MTX_CEILING (mtxcb s i) && (bpriority (tcb_table s t) <? ceiling (mtxcb s i))) eqn:Hce; [svc_ret|].
  assert (Hok : ceiling_ok s i t).
  { intros HC. rewrite HC in Hce. apply Z.ltb_ge in Hce. done. }
  pose proof (mtx_Inv g s HI) as Hm. pose proof (i_k _ _ _ HI) as HK. case_bool_decide as Hlo.
  - destruct (mutex_acquire_ok g s t i HK) as (b & s2 & E & M2 & Hm2 & Hs); [by rewrite Ht|by rewrite Ht|done..|].
    eapply wp_RET; [exact E|].
    assert (HM2 : Mid g s2) by (eapply mstep_Mid; [by apply Inv_Mid|done|done]).
    destruct M2 as [_ HF _ _ _ _ _]. assert (Hin2 : in_task t s2) by (eapply in_task_same; [done|apply HF..]).
    assert (Hd2 : dspflg s2 = true → p_schedtsk s2 = p_runtsk s2).
    { intros Hd. rewrite (proj2 (proj2 Hin2)). apply Hs; [done|]. rewrite (fr_var _ _ _ _ HF) in Hd.
      destruct (i_disp _ _ _ HI Hd) as [Hx|[Hx _]]; congruence. }
    eapply wp_RET with (a := ()) (s' := s2).
    + unfold assert_no_dispatch, kassert. destruct (dspflg s2) eqn:Hd; [|by rewrite andb_false_r].
      by rewrite (Hd2 eq_refl), bool_decide_true.
    + split; [|done]. exists g. by apply (Inv_task OInv g s2 t).
  - case_bool_decide; [svc_ret|]. by apply Hk.
Qed.

Lemma ploc_mtx_ok mtxid : call_ok OInv (ploc_mtx mtxid).
Proof.
  intros s HOK. unfold ploc_mtx. svc_checks; split_ctx; apply task_call_ok; [assumption..|].
  intros g t s1 HI Hin Ht Hd. apply (loc_body_ok g t s1 (INDEX mtxid) (ret E_TMOUT) HI Hin Ht). intros. svc_ret.
Qed.

Lemma mtx_enter g g' s s2 s' t w i :
  Inv g s → tframe (fun _ => False) s s2 → wq s2 = wq s → ¬ mtx_gone s i → p_loctsk (mtxcb s i) ≠ None → ceiling_ok s i t →
  blocked g s2 t w (WOBJ (MTXQ i)) g' s' → OInv s'.
Proof.
  intros HI HF Hq Hg Hl Hc Hb. pose proof (blocked_frame g s s2 t w (MTXQ i) g' s' HF Hb) as HF'.
  eapply kcomp_put; [apply HI| |].
  - eapply mframe_of; [exact HF'|]. by intros q ->.
  - eapply (mtx_inv_enter s s' i t); [by eapply mtx_Inv|exact HF'| |done..].
    intros x Hx. rewrite <- Hq. by apply (bl_queue _ _ _ _ _ _ _ Hb (MTXQ i)).
Qed.

Lemma loc_mtx_ok mtxid : call_ok OInv (loc_mtx mtxid).
Proof.
  intros s HOK. unfold loc_mtx. svc_checks; split_ctx; apply task_call_ok; [assumption..|].
  intros g t s1 HI Hin Ht Hd. apply (loc_body_ok g t s1 (INDEX mtxid) _ HI Hin Ht). intros Hg Hl Hc.
  destruct (new_winfo_ok OInv g s1 t HI Hin Ht) as (s2 & w & E & Hsl & HF & Hq & _); [congruence|].
  eapply wp_RET; [exact E|]. apply (wobj_sleep_ok OInv g s2 t w (MTXQ (INDEX mtxid))); [done| | |done].
  - intros g' s' Hb. by eapply (mtx_enter g g' s1 s2).
  - intros s' HOK' Hin' Hw. apply get_wercd_ok; [done|]. by split.
Qed.

Lemma tloc_mtx_ok mtxid tmout : tmout ≤ TMAX_RELTIM → call_ok OInv (tloc_mtx mtxid tmout).
Proof.
  intros Hmax s HOK. unfold tloc_mtx. svc_checks; split_ctx; apply task_call_ok; [assumption..|].
  intros g t s1 HI Hin Ht Hd. apply (loc_body_ok g t s1 (INDEX mtxid) _ HI Hin Ht). intros Hg Hl Hc. destruct (Z.eqb_spec tmout TMO_POL) as [Hp|Hp]; [svc_ret|].
  destruct (new_winfo_ok OInv g s1 t HI Hin Ht) as (s2 & w & E & Hsl & HF & Hq & _); [congruence|].
  eapply wp_RET; [exact E|].
  apply (wobj_sleep_tmout_ok OInv g s2 t w (MTXQ (INDEX mtxid))); [done| | |done|unfold TMO_FEVR in *; lia|done].
  - intros g' s' Hb. by eapply (mtx_enter g g' s1 s2).
  - intros s' HOK' Hin' Hw. apply get_wercd_ok; [done|]. by split.
Qed.

(** ** Unlocking *)

Lemma unl_mtx_ok mtxid : call_ok OInv (unl_mtx mtxid).
Proof.
  intros s HOK. unfold unl_mtx. task_call g t s1 HI Hin Ht Hd. set (i := INDEX mtxid).
  pose proof Hin as (Hc & Hl & Hr). unfold deref. rewrite Hr.
  destruct (Z.eqb_spec (mtxatr (p_mtxinib (mtxcb s1 i))) TA_NOEXS) as [He|He]; [svc_ret|].
  case_bool_decide as Hlo; simpl; [|svc_ret].
  pose proof (mtx_Inv g s1 HI) as Hm. pose proof (i_k _ _ _ HI) as HK.
  assert (Hi : i ∈ mq s1 t) by (apply (mi_own _ _ _ Hm); [intros []|by split]).
  destruct (mutex_leave_ok none none g s1 t i HK) as (b1 & s2 & E1 & M1 & Hm2); [by rewrite Ht|by rewrite Ht|done|by intros []|done|].
  destruct (mutex_release_ok none none g s2 i) as (b2 & g3 & s3 & E2 & M2 & Hm3 & _); [apply M1| |exact Hm2|by intros []|].
  { apply settled_no_fired, HI. }
  eapply wp_RET; [reflexivity|]. eapply wp_RET; [exact E1|]. eapply wp_RET; [exact E2|]. apply wp_bind.
  eapply progress_dispatch; [exact HI|exact Hin|exact Ht| |intros; svc_ret].
  eapply mstep_progress; [by apply Inv_Mid|by eapply mstep_trans|exact Hm3].
Qed.

Lemma ref_mtx_ok mtxid : call_ok OInv (ref_mtx mtxid).
Proof. intros s HOK. unfold ref_mtx. task_call g t s1 HI Hin Ht Hd. repeat case_match; svc_ret. Qed.

(** ** Creation, deletion, initialization *)

(** A block nobody has locked or awaits changes. *)
Lemma mtx_inv_block s s' i :
  mtx_inv s → (∀ x, i ∉ mq s x) → wq s (MTXQ i) = [] → wq s' = wq s → tcb_table s' = tcb_table s →
  o_free_tcb (obj s') = o_free_tcb (obj s) → (∀ j, j ≠ i → mtxcb s' j = mtxcb s j) →
  p_loctsk (mtxcb s' i) = None → (¬ mtx_gone s' i → 0 ≤ ceiling (mtxcb s' i)) →
  (∀ j, j ∈ o_free_mtxcb (obj s') → mtx_gone s' j) → NoDup (o_free_mtxcb (obj s')) → mtx_inv s'.
Proof.
  intros Hm Hno Hq E1 E2 E3 Hj Hlo Hce Hfree Hnd. destruct Hm.
  assert (Hne : ∀ x j, j ∈ mq s x → j ≠ i) by (intros x j H ->; by apply (Hno x)).
  assert (Hg : ∀ j, j ≠ i → mtx_gone s' j ↔ mtx_gone s j) by (intros j H; unfold mtx_gone; by rewrite Hj).
  assert (Hc : ∀ j x, j ≠ i → ceiling_ok s' j x ↔ ceiling_ok s j x) by (intros j x H; unfold ceiling_ok; by rewrite Hj, E2).
  split; unfold dormant; rewrite ?E2, ?E3; try done.
  - intros x j _. destruct (decide (j = i)) as [->|H]; [|rewrite Hg, Hj by done; by apply (mi_own x j); intros []].
    split; [by intros ?%Hno|]. intros [_ Hx]. congruence.
  - intros x j Hx. apply Hc; [by eapply Hne|by apply mi_hold].
  - intros x Hb Hd. rewrite (mi_pri x Hb Hd). unfold mutex_calc_priority. rewrite E2.
    assert (Hf : ∀ l p, (∀ j, j ∈ l → j ≠ i) →
      fold_left (fun pri j => if MTX_CEILING (mtxcb s j) && (ceiling (mtxcb s j) <? pri) then ceiling (mtxcb s j) else pri) l p =
      fold_left (fun pri j => if MTX_CEILING (mtxcb s' j) && (ceiling (mtxcb s' j) <? pri) then ceiling (mtxcb s' j) else pri) l p).
    { intros l. induction l as [|j l IH]; intros p Hl; [done|]. simpl. rewrite (Hj j) by (apply Hl; left).
      apply IH. intros j' Hj'. apply Hl. by right. }
    apply Hf, Hne.
  - intros x j. rewrite E1. intros Hx. assert (j ≠ i) by (intros ->; rewrite Hq in Hx; by apply not_elem_of_nil in Hx).
    rewrite Hg, Hj, Hc by done. by apply mi_wait.
  - intros j Hgj HC. destruct (decide (j = i)) as [->|H]; [by apply Hce|]. rewrite Hg, Hj in * by done. by apply mi_ceiling.
Qed.

Lemma gone_unused s i : mtx_inv s → mtx_gone s i → (∀ x, i ∉ mq s x) ∧ wq s (MTXQ i) = [].
Proof.
  intros Hm Hg. split.
  - intros x Hx. apply (mi_own _ _ _ Hm) in Hx as [? _]; [done|by intros []].
  - destruct (wq s (MTXQ i)) as [|x l] eqn:Hq; [done|]. exfalso.
    destruct (mi_wait _ _ _ Hm x i) as [? _]; [rewrite Hq; left|done].
Qed.

Lemma mtx_obj g s F i :
  Mid g s → wq s (MTXQ i) = [] → mtx_only (obj s) (F (obj s)) → (∀ j, j ≠ i → o_mtxcb (F (obj s)) j = mtxcb s j) →
  mtx_inv (upd_obj F s) → Mid g (upd_obj F s).
Proof.
  intros [M1 M2 M3] Hq HF Hj Hm. apply Mid_obj; [done| |].
  - intros q _. destruct (decide (q = MTXQ i)) as [->|Hne]; [by right|left]. unfold mtx_only in HF.
    destruct q; simpl; try done; try (rewrite HF; done). rewrite Hj; [done|congruence].
  - eapply kcomp_put; [exact M3| |exact Hm]. split; try done.
Qed.

Lemma acre_mtx_ok pk : call_ok OInv (acre_mtx pk).
Proof.
  intros s HOK. unfold acre_mtx. task_call g t s1 HI Hin Ht Hd. split_ctx.
  destruct (tnum_mtx =? 0)%nat; [svc_ret|]. simpl.
  destruct (o_free_mtxcb (obj s1)) as [|i l] eqn:Hfree; [svc_ret|]. simpl.
  pose proof (mtx_Inv g s1 HI) as Hm.
  assert (Hg : mtx_gone s1 i) by (apply (mi_free _ _ _ Hm); rewrite Hfree; left).
  destruct (gone_unused s1 i Hm Hg) as [Hno Hq].
  destruct (init_empty_queue_ok OInv g s1 (MTXQ i) (Inv_Mid _ _ _ HI) Hq) as [HM Hq2].
  eapply wp_RET; [by unfold take_free, kget; rewrite Hfree|]. repeat (eapply wp_RET; [reflexivity|]). split; [|done]. exists g.
  apply (Inv_of OInv g s1); [done| |done..].
  pose proof (mi_nodup_free _ _ _ Hm) as Hnd. rewrite Hfree in Hnd. apply NoDup_cons in Hnd as [Hi Hnd].
  eapply (mtx_obj g _ (fun o => _) i HM Hq2); [done| |].
  - intros j Hne. simpl. by rewrite !fn_lookup_insert_ne.
  - eapply (mtx_inv_block _ _ i (kcomp_get _ (m_obj _ _ _ HM))); simpl; try done.
    + intros j Hne. by rewrite !fn_lookup_insert_ne.
    + by rewrite !fn_lookup_insert.
    + intros _. rewrite !fn_lookup_insert. simpl. unfold VALID_TPRI, TMIN_TPRI in *. lia.
    + intros j Hj. unfold mtx_gone. simpl. rewrite !fn_lookup_insert_ne by (by intros ->).
      apply (mi_free _ _ _ Hm). rewrite Hfree. by right.
Qed.

(** A mutex that is locked must not be deleted. *)
Lemma del_mtx_ok mtxid s :
  OK s → p_loctsk (mtxcb s (INDEX mtxid)) = None → WP (fun _ s' => OK s' ∧ same_ctx s s') (del_mtx mtxid s).
Proof.
  intros HOK Hlo0. unfold del_mtx. svc_checks; split_ctx. eapply wp_mono; [eapply (call_task_ok OInv s _ (fun _ _ => True)); try done|by intros a s' [? _]].
  intros g t s1 HI Hin Ht ->. eapply wp_mono with (P := fun _ s' => OK s' ∧ in_task t s'); [|naive_solver].
  set (s1 := with_lock true s) in *. set (i := INDEX mtxid) in *. unfold kget.
  destruct (Z.eqb_spec (mtxatr (p_mtxinib (mtxcb s1 i))) TA_NOEXS) as [He|He]; [svc_ret|].
  destruct (tmax_smtxid <? IDOF i); [|svc_ret].
  pose proof (mtx_Inv g s1 HI) as Hm. assert (Hlo : p_loctsk (mtxcb s1 i) = None) by exact Hlo0.
  assert (Hnf : i ∉ o_free_mtxcb (obj s1)) by (by intros ?%(mi_free _ _ _ Hm)).
  destruct (init_queue_ok OInv g s1 (MTXQ i) (Inv_Mid _ _ _ HI) eq_refl) as (b & g' & s2 & E & HM & HF & Hw & Hnil & Hr);
    [by simpl; apply bool_decide_eq_true|].
  rewrite (bind_RET _ _ _ _ _ E). pose proof (fr_obj _ _ _ _ HF) as Ho.
  pose proof (kcomp_get _ (m_obj _ _ _ HM)) as Hm2.
  assert (Hno : ∀ x, i ∉ mq s2 x).
  { intros x Hx. apply (mi_own _ _ _ Hm2) in Hx as [_ Hx]; [|by intros []]. rewrite <- Ho in Hx. congruence. }
  eapply wp_RET; [reflexivity|]. eapply wp_RET; [reflexivity|]. apply wp_bind.
  eapply dispatch_if_ok; [exact HI|exact Hin|exact Ht| |by apply Hr|apply HF|apply HF|exact Hw|intros; svc_ret].
  eapply (mtx_obj g' s2 (fun o => _) i HM Hnil); [done| |].
  - intros j Hne. simpl. by rewrite !fn_lookup_insert_ne.
  - eapply (mtx_inv_block _ _ i Hm2); simpl; try done.
    + intros j Hne. by rewrite !fn_lookup_insert_ne.
    + rewrite fn_lookup_insert. simpl. by rewrite <- Ho.
    + intros Hg. destruct Hg. unfold mtx_gone. simpl. by rewrite fn_lookup_insert.
    + intros j Hj. unfold mtx_gone. simpl. destruct (decide (j = i)) as [->|Hne]; [by rewrite fn_lookup_insert|].
      rewrite fn_lookup_insert_ne by done. apply (mi_free _ _ _ Hm2). set_solver.
    + apply NoDup_app. split_and!; [apply Hm2| |apply NoDup_singleton]. rewrite <- Ho. set_solver.
Qed.

(** [ini_mtx] does not test whether the mutex exists; the waiting tasks of one
    that does are released and it comes back unlocked. *)
Lemma ini_mtx_ok mtxid s :
  OK s → ¬ mtx_gone s (INDEX mtxid) → WP (fun _ s' => OK s' ∧ same_ctx s s') (ini_mtx mtxid s).
Proof.
  intros HOK Hex. unfold ini_mtx. svc_checks; split_ctx. eapply wp_mono; [eapply (call_task_ok OInv s _ (fun _ _ => True)); try done|by intros a s' [? _]].
  intros g t s1 HI Hin Ht ->. eapply wp_mono with (P := fun _ s' => OK s' ∧ in_task t s'); [|naive_solver].
  set (s1 := with_lock true s) in *. set (i := INDEX mtxid) in *. unfold kget.
  destruct (init_queue_ok OInv g s1 (MTXQ i) (Inv_Mid _ _ _ HI) eq_refl) as (b & g2 & s2 & E & HM & HF & Hw & Hnil & Hr);
    [simpl; apply bool_decide_eq_true; by intros ?%(mi_free _ _ _ (mtx_Inv g s1 HI))|].
  pose proof (kcomp_get _ (m_obj _ _ _ HM)) as Hm. eapply wp_RET; [exact E|].
  assert (Hk : ∀ b' g' s', mstep g2 s2 b' g' s' → mtx_inv s' → WP (fun _ s' => OK s' ∧ in_task t s')
    (((if (b' || b) : bool then dispatch else ret ()) ;;; ret E_OK) s')).
  { intros b' g' s' M3 Hm3. apply wp_bind. pose proof (ms_frame _ _ _ _ _ M3) as F3.
    eapply dispatch_if_ok; [exact HI|exact Hin|exact Ht|by eapply mstep_Mid| | | | |intros; svc_ret].
    - by apply M3, Hr.
    - rewrite (fr_var _ _ _ _ F3). apply HF.
    - rewrite (fr_cpu _ _ _ _ F3). apply HF.
    - rewrite orb_comm. eapply woke_trans; [exact Hw|apply M3|]. by rewrite (fr_var _ _ _ _ HF). }
  destruct (p_loctsk (mtxcb s2 i)) as [p|] eqn:Hlo.
  - assert (Hi : i ∈ mq s2 p).
    { apply (mi_own _ _ _ Hm); [by intros []|]. split; [|done].
      unfold mtx_gone. by rewrite <- (fr_obj _ _ _ _ HF). }
    destruct (mutex_free_ok g2 s2 p i (m_k _ _ _ HM) (m_settled _ _ _ HM p) Hm Hi Hnil) as (b3 & s3 & E3 & M3 & Hm3).
    eapply wp_RET; [by rewrite Hlo; exact E3|]. by apply (Hk b3 g2).
  - eapply wp_RET; [by rewrite Hlo|]. apply (Hk false g2); [apply mstep_refl, HM|done].
Qed.
End calls.
End mutex.
