(* ===== verification/TaskManage.v ===== *)
(** * Task management service calls (kernel/task_manage.c) *)

From S2P Require Import Prelude Queue Data Kmonad TimeEvent Task Wait Core Release Service Transit Object Kmm Mutex.
Open Scope Z_scope.

Record T_CTSK := mkT_CTSK {
  c_tskatr : Z; c_exinf : Z; c_task : Z; c_itskpri : Z; c_stksz : Z; c_stk : Z }.

Section task_manage.
Context {cfg : Config}.
Implicit Types (tskid tskpri : Z) (p_tcb i : nat).

Definition set_free_tcb (f : list nat → list nat) : K () :=
  upd (upd_obj (fun o => o <| o_free_tcb ::= f |>)).
Definition upd_tinib i (f : TINIB → TINIB) : K () := upd (upd_tcb i (fun T => T <| p_tinib ::= f |>)).
Definition set_actque i (b : bool) : K () := upd (upd_tcb i (fun T => T <| actque := b |>)).
Definition set_bpriority i (v : Z) : K () := upd (upd_tcb i (fun T => T <| bpriority := v |>)).
Definition tsk_noexs (s : State) i : bool := tskatr (p_tinib (tcb_table s i)) =? TA_NOEXS.

(** [get_tcb_self(tskid)]. *)
Definition get_tcb_self {A} tskid (k : nat → K A) : K A :=
  get s;; the t := (if tskid =? TSK_SELF then p_runtsk s else Some (INDEX tskid)) ;; k t.

Definition acre_tsk (pk_ctsk : T_CTSK) : K Z :=
  ! CHECK_TSKCTX_UNL ;;
  ! CHECK_RSATR (c_tskatr pk_ctsk) (Z.lor TA_ACT TARGET_TSKATR) ;;
  ! CHECK_ALIGN_FUNC (c_task pk_ctsk) ;;
  ! CHECK_NONNULL_FUNC (c_task pk_ctsk) ;;
  ! CHECK_TPRI (c_itskpri pk_ctsk) ;;
  ! CHECK_PAR (TARGET_MIN_STKSZ <=? c_stksz pk_ctsk) ;;
  ! CHECK_PAR ((c_stk pk_ctsk =? 0) || STKSZ_ALIGNED (c_stksz pk_ctsk)) ;;
  ! CHECK_PAR ((c_stk pk_ctsk =? 0) || STACK_ALIGNED (c_stk pk_ctsk)) ;;
  lock_cpu ;;;
  ercd <- (get s;;
    if no_free (o_free_tcb (obj s)) then ret E_NOID
    else
      let alloc := c_stk pk_ctsk =? 0 in
      let stksz' := if alloc then ROUND_STK_T (c_stksz pk_ctsk) else c_stksz pk_ctsk in
      stk' <- (if alloc then kernel_malloc stksz' else ret (c_stk pk_ctsk)) ;;
      let atr := if alloc then Z.lor (c_tskatr pk_ctsk) TA_MEMALLOC else c_tskatr pk_ctsk in
      if stk' =? 0 then ret E_NOMEM
      else
        i <- take_free o_free_tcb set_free_tcb ;;
        upd_tinib i (fun _ => mkTINIB atr (c_exinf pk_ctsk) (c_task pk_ctsk)
          (INT_PRIORITY (c_itskpri pk_ctsk)) stksz' stk' TA_NULL 0) ;;;
        set_actque i false ;;;
        make_dormant i ;;;
        upd_mutex_queue i (fun _ => []) ;;;
        (get s;;
         if bits (tskatr (p_tinib (tcb_table s i))) TA_ACT then
           b <- make_active i ;;
           (if b : bool then dispatch else ret ())
         else ret ()) ;;;
        ret (IDOF i)) ;;
  unlock_cpu ;;;
  ret ercd.

Definition del_tsk tskid : K Z :=
  ! CHECK_TSKCTX_UNL ;;
  ! CHECK_TSKID tskid ;;
  let i := INDEX tskid in
  lock_cpu ;;;
  ercd <- (get s;;
    if tsk_noexs s i then ret E_NOEXS
    else if (tmax_stskid <? IDOF i) && TSTAT_DORMANT (tstat (tcb_table s i)) then
      (if bits (tskatr (p_tinib (tcb_table s i))) TA_MEMALLOC
       then kernel_free (stk (p_tinib (tcb_table s i))) else ret ()) ;;;
      upd_tinib i (fun I => I <| tskatr := TA_NOEXS |>) ;;;
      set_free_tcb (fun l => l ++ [i]) ;;;
      ret E_OK
    else ret E_OBJ) ;;
  unlock_cpu ;;;
  ret ercd.

Definition act_tsk tskid : K Z :=
  ! CHECK_TSKCTX_UNL ;;
  ! CHECK_TSKID_SELF tskid ;;
  get_tcb_self tskid (fun i =>
  lock_cpu ;;;
  ercd <- (get s;;
    if tsk_noexs s i then ret E_NOEXS
    else if TSTAT_DORMANT (tstat (tcb_table s i)) then
      b <- make_active i ;;
      (if b : bool then dispatch else ret ()) ;;;
      ret E_OK
    else if negb (actque (tcb_table s i)) then set_actque i true ;;; ret E_OK
    else ret E_QOVR) ;;
  unlock_cpu ;;;
  ret ercd).

Definition iact_tsk tskid : K Z :=
  ! CHECK_INTCTX_UNL ;;
  ! CHECK_TSKID tskid ;;
  let i := INDEX tskid in
  lock_cpu ;;;
  ercd <- (get s;;
    if tsk_noexs s i then ret E_NOEXS
    else if TSTAT_DORMANT (tstat (tcb_table s i)) then
      b <- make_active i ;;
      (if b : bool then set_reqflg true else ret ()) ;;;
      ret E_OK
    else if negb (actque (tcb_table s i)) then set_actque i true ;;; ret E_OK
    else ret E_QOVR) ;;
  unlock_cpu ;;;
  ret ercd.

Definition can_act tskid : K Z :=
  ! CHECK_TSKCTX_UNL ;;
  ! CHECK_TSKID_SELF tskid ;;
  get_tcb_self tskid (fun i =>
  lock_cpu ;;;
  ercd <- (get s;;
    if tsk_noexs s i then ret E_NOEXS
    else
      set_actque i false ;;;
      ret (if actque (tcb_table s i) then 1 else 0)) ;;
  unlock_cpu ;;;
  ret ercd).

Definition ext_tsk : K Z :=
  ! CHECK_TSKCTX ;;
  (get s;; if sense_lock s then ret () else lock_cpu) ;;;
  (get s;; if disdsp s then set_disdsp false else ret ()) ;;;
  (get s;; if negb (ipmflg s) then set_ipm TIPM_ENAALL ;;; set_ipmflg true else ret ()) ;;;
  set_dspflg true ;;;
  get s;; the t := p_runtsk s ;;
  make_non_runnable t ;;;
  (get s;;
   match mutex_queue (tcb_table s t) with
   | [] => ret ()
   | _ => mutex_release_all t ;;; ret ()
   end) ;;;
  make_dormant t ;;;
  (get s;;
   if actque (tcb_table s t) then
     set_actque t false ;;;
     make_active t ;;; ret ()
   else ret ()) ;;;
  yield ExitAndDispatch ;;;
  ret E_SYS.

Definition ter_tsk tskid : K Z :=
  ! CHECK_TSKCTX_UNL ;;
  ! CHECK_TSKID tskid ;;
  let i := INDEX tskid in
  ! CHECK_NONSELF (Some i) ;;
  lock_cpu ;;;
  ercd <- (get s;;
    if tsk_noexs s i then ret E_NOEXS
    else if TSTAT_DORMANT (tstat (tcb_table s i)) then ret E_OBJ
    else
      (if TSTAT_RUNNABLE (tstat (tcb_table s i)) then make_non_runnable i ;;; ret ()
       else if TSTAT_WAITING (tstat (tcb_table s i)) then
         wait_dequeue_wobj i ;;;
         wait_dequeue_tmevtb i
       else ret ()) ;;;
      dspreq <- (get s;;
        match mutex_queue (tcb_table s i) with
        | [] => ret false
        | _ => mutex_release_all i
        end) ;;
      make_dormant i ;;;
      b <- (get s;;
        if actque (tcb_table s i) then set_actque i false ;;; make_active i
        else ret false) ;;
      (if (b || dspreq) : bool then dispatch else ret ()) ;;;
      ret E_OK) ;;
  unlock_cpu ;;;
  ret ercd.

Definition chg_pri tskid tskpri : K Z :=
  ! CHECK_TSKCTX_UNL ;;
  ! CHECK_TSKID_SELF tskid ;;
  ! CHECK_TPRI_INI tskpri ;;
  get_tcb_self tskid (fun i =>
  get s;;
  let newbpri := if tskpri =? TPRI_INI then ipriority (p_tinib (tcb_table s i)) else INT_PRIORITY tskpri in
  lock_cpu ;;;
  ercd <- (get s;;
    if tsk_noexs s i then ret E_NOEXS
    else if TSTAT_DORMANT (tstat (tcb_table s i)) then ret E_OBJ
    else
      viol <- (if negb (no_free (mutex_queue (tcb_table s i))) || TSTAT_WAIT_MTX (tstat (tcb_table s i))
               then (c <- mutex_check_ceilpri i newbpri ;; ret (negb c))
               else ret false) ;;
      if viol : bool then ret E_ILUSE
      else
        set_bpriority i newbpri ;;;
        (get s;;
         if no_free (mutex_queue (tcb_table s i)) || negb (mutex_scan_ceilmtx i s) then
           b <- change_priority i newbpri false ;;
           (if b : bool then dispatch else ret ())
         else ret ()) ;;;
        ret E_OK) ;;
  unlock_cpu ;;;
  ret ercd).

Definition get_pri tskid : K (Z * option Z) :=
  ! CHECK_TSKCTX_UNL ;;
  ! CHECK_TSKID_SELF tskid ;;
  get_tcb_self tskid (fun i =>
  lock_cpu ;;;
  r <- (get s;;
    if tsk_noexs s i then ret (E_NOEXS, None)
    else if TSTAT_DORMANT (tstat (tcb_table s i)) then ret (E_OBJ, None)
    else ret (E_OK, Some (EXT_TSKPRI (priority (tcb_table s i))))) ;;
  unlock_cpu ;;;
  ret r).

Definition get_inf : K (Z * option Z) :=
  ! CHECK_TSKCTX_UNL ;;
  lock_cpu ;;;
  r <- (get s;; the t := p_runtsk s ;; ret (E_OK, Some (exinf (p_tinib (tcb_table s t))))) ;;
  unlock_cpu ;;;
  ret r.

(** ** Proofs *)

Lemma get_tcb_self_ok (OInv : State → Prop) {A} tskid (k : nat → K A) s Q :
  OK OInv s → sense_context s = false → (∀ i, wp (rely OInv) (guar OInv) Q (k i s)) →
  wp (rely OInv) (guar OInv) Q (get_tcb_self tskid k s).
Proof.
  intros HOK Hc Hk. unfold get_tcb_self, kget, deref.
  destruct (self_runtsk OInv s HOK Hc) as [t Ht]. rewrite Ht.
  by destruct (tskid =? TSK_SELF).
Qed.

Section calls.
Context (OInv : State → Prop) `{!Objects OInv} `{!TaskComponent OInv mtx_inv mtx_own mtx_only}.
Notation WP := (wp (rely OInv) (guar OInv)).
Notation Inv := (Inv OInv).
Notation OK := (OK OInv).

Lemma can_act_ok tskid : call_ok OInv (can_act tskid).
Proof.
  intros s HOK. unfold can_act. svc_checks; split_ctx; apply (get_tcb_self_ok OInv); [done..|]; intros i.
  task_call g t s1 HI Hin Ht Hd. destruct (tsk_noexs s1 i); [svc_ret|]. simpl. split; [|exact Hin].
  exists g. by apply (quiet_Inv OInv g s1 i (fun T => T <| actque := false |>)).
Qed.

Lemma get_pri_ok tskid : call_ok OInv (get_pri tskid).
Proof.
  intros s HOK. unfold get_pri. svc_checks; split_ctx; apply (get_tcb_self_ok OInv); [done..|]; intros i.
  task_call g t s1 HI Hin Ht Hd. repeat case_match; svc_ret.
Qed.

Lemma get_inf_ok : call_ok OInv get_inf.
Proof.
  intros s HOK. unfold get_inf. task_call g t s1 HI Hin Ht Hd. rewrite (proj2 (proj2 Hin)). svc_ret.
Qed.
End calls.
End task_manage.

(** Enters the locked part of a call with [get_tcb_self]. *)
Ltac self_call i g t s1 HI Hin Ht Hd :=
  svc_checks; split_ctx; apply get_tcb_self_ok; [assumption..|]; intros i;
  task_call g t s1 HI Hin Ht Hd.
