(* ===== verification/TaskManageProof.v ===== *)
(** * Task management: the proofs

    A task is started ([make_active]), taken off the ready queue or its wait
    queue, gives its mutexes back and becomes dormant ([make_dormant]).  The
    calls of kernel/task_manage.c are compositions of these steps. *)

From S2P Require Import Prelude Queue Data Kmonad TimeEvent Task Wait Core Release Priority Service Transit Object Kmm Mutex MutexProof MutexCalls TaskManage.
Open Scope Z_scope.

Section task_manage.
Context {cfg : Config}.
Implicit Types (s : State) (g : nat → tst) (i j t x : nat) (st : tst).
Notation mq s x := (mutex_queue (tcb_table s x)).
Notation mframe := (gframe any_static no_timer mtx_own mtx_only).

(** ** A step of the life of task [i] *)

Record lstep i g s (b : bool) g' s' : Prop := {
  ls_k : KInv g' s';
  ls_frame : mframe s s';
  ls_woke : woke b s s';
  ls_run : ∀ r, r ≠ i → g r = Runnable → g' r = Runnable;
  ls_set : ∀ x, x ≠ i → settled_st (g x) = true → settled_st (g' x) = true }.

Lemma mstep_lstep i g s b g' s' : mstep g s b g' s' → lstep i g s b g' s'.
Proof. intros []. split; auto. Qed.

Lemma lstep_trans i g1 s1 b1 g2 s2 b2 g3 s3 :
  lstep i g1 s1 b1 g2 s2 → lstep i g2 s2 b2 g3 s3 → lstep i g1 s1 (b1 || b2) g3 s3.
Proof.
  intros [A1 A2 A3 A4 A5] [B1 B2 B3 B4 B5]. split; auto.
  - by eapply mframe_trans.
  - eapply woke_trans; [done..|]. by rewrite (fr_var _ _ _ _ A2).
Qed.

(** The state of [i] alone changes, in a state without queue and timer. *)
Definition off_queue st : bool :=
  match st with Runnable | Waiting _ (WOBJ _) _ _ | Waiting _ _ _ Timer => false | _ => true end.

Lemma off_queue_no g s i : KInv g s → off_queue (g i) = true → ∀ q, i ∉ wq s q.
Proof.
  intros HK Ho q Hq%(k_wq _ _ HK). unfold place in Hq. by destruct (g i) as [| | | |? [] ? []].
Qed.

(** [i] enters the ready queue or leaves it or stays off. *)
Lemma KInv_move g s s' i st :
  KInv g s → frame_of st = None → (∀ w c susp, g i ≠ Waiting w c susp Timer) →
  (∀ x, x ≠ i → tcb_table s' x = tcb_table s x) → tstat (tcb_table s' i) = enc st →
  (st ≠ Dormant → 0 ≤ priority (tcb_table s' i) < 16) →
  winfos s' = winfos s → next_frame s' = next_frame s → tm s' = tm s → (∀ q, wobjatr s' q = wobjatr s q) →
  wq_ok (place (tcb_table s') (<[i := st]> g)) (wq s') → sched_ok (tcb_table s') (wq s') (sch s') →
  (∀ q, is_ready_queue q = false → wq s' q = wq s q) → (∀ q, is_ready_queue q = false → i ∉ wq s q) →
  KInv (<[i := st]> g) s'.
Proof.
  intros HK Hst Hnt HT Hts Hp HW Hn Htm Hob Hwq Hsc Hq Hi.
  set (w := match frame_of (g i) with Some w => w | None => next_frame s end).
  eapply (KInv_upd g s s' i st w); rewrite ?HW, ?Hn, ?Htm; try done.
  - by destruct st.
  - unfold w. destruct (frame_of (g i)); [by right|by left].
  - by left.
  - unfold w. destruct (frame_of (g i)) eqn:Hf; [by eapply frame_free|]. intros x _. by apply fresh_frame.
  - intros c susp tmr ->. done.
  - rewrite (k_timer _ _ HK). split; [|by intros (? & ? & ->)].
    intros (x & c & susp & Hx). exfalso. assert (x = i) as ->; [|by eapply Hnt].
    unfold w in Hx. destruct (frame_of (g i)) eqn:Hf.
    + eapply (k_frames _ _ HK); [by rewrite Hx|done].
    + exfalso. eapply (fresh_frame g s HK x). by rewrite Hx.
  - apply HK.
  - intros q Hw Hb. rewrite Hq by (by destruct q). rewrite Hob in Hb.
    eapply pri_sorted_ext; [|by apply (k_sorted _ _ HK)]. intros x Hx. rewrite HT; [done|].
    intros ->. apply Hi in Hx; [done|by destruct q].
Qed.

Lemma move_frame s s' i :
  (∀ x, x ≠ i → tcb_table s' x = tcb_table s x) → winfos s' = winfos s → tm s' = tm s → mtx_only (obj s) (obj s') →
  var s' = var s → cpu s' = cpu s →
  (∀ q, is_ready_queue q = false → wq s' q = wq s q) → (∀ q, is_ready_queue q = false → i ∉ wq s q) →
  mframe s s'.
Proof.
  intros HT HW Htm Hob Hv Hc Hq Hi. split; rewrite ?Htm, ?HW; try done.
  intros q x Hrd Hx _. rewrite Hq in Hx by done. rewrite HT; [done|]. intros ->. by apply Hi in Hx.
Qed.

(** ** Becoming runnable *)

Lemma mtx_inv_birth s s' i :
  mtx_inv s → dormant s i → ¬ noexs (tcb_table s i) →
  (∀ x, p_tinib (tcb_table s' x) = p_tinib (tcb_table s x) ∧ bpriority (tcb_table s' x) = bpriority (tcb_table s x) ∧
    priority (tcb_table s' x) = priority (tcb_table s x) ∧ mq s' x = mq s x) →
  (∀ x, x ≠ i → tstat (tcb_table s' x) = tstat (tcb_table s x)) → obj s' = obj s →
  (∀ j, wq s' (MTXQ j) = wq s (MTXQ j)) → mtx_inv s'.
Proof.
  intros Hm Hd Hex HT Hts Ho Hq. destruct (mi_initial _ _ _ Hm i Hd Hex) as [Hb Hp].
  pose proof (mi_dormant _ _ _ Hm i Hd) as Hmq. destruct Hm.
  assert (Hdx : ∀ x, x ≠ i → dormant s' x ↔ dormant s x) by (intros x Hx; unfold dormant; by rewrite Hts).
  split; unfold noexs, mtx_gone, ceiling_ok, mutex_calc_priority in *; rewrite ?Ho; try done;
    intros x; destruct (HT x) as (H1 & H2 & H3 & H4); rewrite ?H1, ?H2, ?H3, ?H4; auto.
  - intros Hx. assert (x ≠ i) by (intros ->; done). apply Hdx; auto.
  - intros Hx. destruct (decide (x = i)) as [->|Hne]; [rewrite Hb; auto|]. apply mi_bpri. by rewrite <- Hdx.
  - intros Hx Hn. destruct (decide (x = i)) as [->|Hne]; [done|]. apply mi_initial; [by rewrite <- Hdx|done].
  - intros Hx. destruct (decide (x = i)) as [->|Hne]; [done|]. apply mi_dormant. by rewrite <- Hdx.
  - intros Hx1 Hx. destruct (decide (x = i)) as [->|Hne]; [by rewrite Hmq, Hb, Hp|]. apply mi_pri; [done|by rewrite <- Hdx].
  - intros j. rewrite Hq. apply mi_wait.
Qed.

Lemma dormant_iff g s i : KInv g s → dormant s i ↔ g i = Dormant.
Proof. intros HK. unfold dormant. rewrite (k_tstat _ _ HK), enc_dormant by apply HK. by rewrite bool_decide_eq_true. Qed.

Lemma make_active_KInv g s i (Q := Fam.queue_insert_prev (RDQ (priority (tcb_table s i))) i (wq s))
    (s1 := upd_tcb i (fun T => T <| tstat := TS_RUNNABLE |>) (upd_tcb i (fun T => T <| tskctxb := true |>) s)) :
  KInv g s → g i = Dormant → 0 ≤ priority (tcb_table s i) < 16 →
  ∃ c', make_active i s = RET (resched s c') (with_ready Q c' s1) ∧ sched_ok (tcb_table s1) Q c' ∧
    KInv (<[i := Runnable]> g) (with_ready Q c' s1).
Proof.
  intros HK Hg Hp. pose proof (off_queue_no g s i HK) as Hno. rewrite Hg in Hno. specialize (Hno eq_refl).
  assert (HT : ∀ x, x ≠ i → tcb_table s1 x = tcb_table s x) by (intros x Hx; simpl; by rewrite !fn_lookup_insert_ne).
  assert (Hpri : ∀ x, priority (tcb_table s1 x) = priority (tcb_table s x)).
  { intros x. destruct (decide (x = i)) as [->|Hx]; [simpl; by rewrite !fn_lookup_insert|by rewrite HT]. }
  destruct (make_runnable_eq s1 i) as (c' & Hc' & Heq).
  { eapply sched_ok_ext; [apply HK|done|]. intros. apply Hpri. }
  { intros p. apply Hno. }
  { by rewrite Hpri. }
  rewrite Hpri in Hc', Heq. exists c'. split; [exact Heq|]. split; [exact Hc'|].
  apply (KInv_move g s); try done; [by intros w c susp; rewrite Hg|by simpl; rewrite !fn_lookup_insert|by intros _; change (tcb_table (with_ready _ _ _) i) with (tcb_table s1 i); rewrite Hpri| |].
  - change (tcb_table (with_ready _ _ s1)) with (tcb_table s1). simpl wq.
    eapply wq_ok_insert_prev; [apply HK|unfold place; by rewrite Hg|]. intros x.
    by rewrite (place_upd (tcb_table s)), place_self, Hpri by done.
  - intros q Hq. apply fn_lookup_insert_ne. by intros <-.
Qed.

Lemma make_active_ok g s i :
  KInv g s → mtx_inv s → g i = Dormant → ¬ noexs (tcb_table s i) →
  ∃ b s', make_active i s = RET b s' ∧ lstep i g s b (<[i := Runnable]> g) s' ∧ mtx_inv s'.
Proof.
  intros HK Hm Hg Hex. assert (Hd : dormant s i) by (by apply (dormant_iff g)).
  pose proof (off_queue_no g s i HK) as Hno. rewrite Hg in Hno. specialize (Hno eq_refl).
  destruct (make_active_KInv g s i HK Hg) as (c' & E & Hc' & HK').
  { destruct (mi_initial _ _ _ Hm i Hd Hex) as [_ ->]. by apply (mi_ipri _ _ _ Hm). }
  set (s1 := upd_tcb i _ _) in *. set (Q := Fam.queue_insert_prev _ _ _) in *.
  assert (HTi : tcb_table s1 i = (tcb_table s i) <| tskctxb := true |> <| tstat := TS_RUNNABLE |>).
  { simpl. by rewrite !fn_lookup_insert. }
  assert (HT : ∀ x, x ≠ i → tcb_table s1 x = tcb_table s x) by (intros x Hx; simpl; by rewrite !fn_lookup_insert_ne).
  assert (Hoth : ∀ q, is_ready_queue q = false → Q q = wq s q).
  { intros q Hq. apply fn_lookup_insert_ne. by intros <-. }
  eexists _, _. split; [exact E|]. split; [split|]; [exact HK'| |by apply resched_woke|intros x Hx; by rewrite fn_lookup_insert_ne..|].
  - by apply (move_frame s _ i); try apply mtx_only_refl.
  - apply (mtx_inv_birth s _ i Hm Hd Hex); change (tcb_table (with_ready _ _ s1)) with (tcb_table s1); try done.
    + intros x. destruct (decide (x = i)) as [->|Hx]; [by rewrite HTi|by rewrite HT].
    + intros x Hx. by rewrite HT.
Qed.

(** ** Leaving the ready queue *)

Lemma park_ok g s i :
  KInv g s → mtx_inv s → g i = Runnable →
  ∃ b s', make_non_runnable i s = RET b s' ∧ lstep i g s b (<[i := Parked]> g) s' ∧ mtx_inv s' ∧
    tcb_table s' = tcb_table s ∧ (p_schedtsk s ≠ Some i → p_schedtsk s' = p_schedtsk s).
Proof.
  intros HK Hm Hg. destruct (leave_ready g s s i HK Hg eq_refl eq_refl) as (c' & Hc' & Heq); [done|].
  assert (Hno : ∀ q, is_ready_queue q = false → i ∉ wq s q) by (intros q Hq; by eapply running_only).
  assert (Hother : ∀ q, is_ready_queue q = false → Fam.queue_delete i (wq s) q = wq s q).
  { intros q Hq. by apply queue_delete_other, Hno. }
  exists (resched s c'), (with_ready (Fam.queue_delete i (wq s)) c' s). split; [exact Heq|].
  assert (HF : mframe s (with_ready (Fam.queue_delete i (wq s)) c' s)) by (by apply (move_frame s _ i); try apply mtx_only_refl).
  split_and!; try done.
  - split; [|exact HF|by apply resched_woke|intros r Hr; by rewrite fn_lookup_insert_ne..].
    apply (KInv_move g s); try done.
    + intros w c susp. by rewrite Hg.
    + simpl. rewrite (k_tstat _ _ HK), Hg. done.
    + intros _. apply HK. by rewrite Hg.
    + simpl. eapply wq_ok_delete; [apply HK|]. intros x. rewrite (place_upd (tcb_table s)) by done.
      case_decide; [|done]. subst. by rewrite place_self.
  - destruct Hm. split; try done. intros x j. simpl. rewrite Hother by done. apply mi_wait.
  - intros Hs. simpl. rewrite (sched_schedtsk _ _ _ Hc'). pose proof (sched_schedtsk _ _ _ (k_sched _ _ HK)) as Hs0.
    change (sc_p_schedtsk (sch s)) with (p_schedtsk s) in Hs0.
    destruct (hd_error (ready_list (wq s))) as [y|] eqn:Hy; rewrite Hs0.
    + apply ready_delete_other; [done|]. intros ->. congruence.
    + exfalso. apply (ready_none (wq s)) with (p := priority (tcb_table s i)) in Hy; [|apply HK; by rewrite Hg].
      assert (Hx : i ∈ wq s (RDQ (priority (tcb_table s i)))) by (apply (k_wq _ _ HK); unfold place; by rewrite Hg).
      rewrite Hy in Hx. by apply not_elem_of_nil in Hx.
Qed.

(** ** Leaving a wait queue *)

Lemma unwait_ok g s i w c susp tmr :
  KInv g s → mtx_inv s → g i = Waiting w c susp tmr → settled_st (g i) = true →
  ∃ s', (wait_dequeue_wobj i ;;; wait_dequeue_tmevtb i) s = RET () s' ∧
    lstep i g s false (<[i := Waiting w (off c) susp (stop tmr)]> g) s' ∧ mtx_inv s' ∧ tcb_table s' = tcb_table s ∧
    off_queue (Waiting w (off c) susp (stop tmr)) = true.
Proof.
  intros HK Hm Hg Hset. rewrite Hg in Hset.
  destruct (wait_dequeue_wobj_ok g s i w c susp tmr HK Hg) as (s1 & E1 & HK1 & F1 & T1 & W1 & S1 & M1 & N1 & Q1).
  { intros q ->. by destruct tmr. }
  destruct (wait_dequeue_tmevtb_ok _ s1 i w (off c) susp tmr HK1) as (s2 & E2 & HK2 & F2 & T2 & Q2 & W2 & S2 & N2).
  { by rewrite fn_lookup_insert. }
  { intros ->. by destruct c. }
  exists s2. split; [by rewrite (bind_RET _ _ _ _ _ E1)|].
  pose proof (tframe_trans _ _ _ _ F1 F2) as F.
  split_and!; [split|..].
  - by eapply KInv_twice.
  - by eapply mframe_of.
  - split; [done|]. intros _ _. by rewrite S2, S1.
  - intros r Hr. by rewrite fn_lookup_insert_ne.
  - intros x Hx. by rewrite fn_lookup_insert_ne.
  - eapply mtx_inv_frame; [exact F|by intros q []| | | |done]; by rewrite <- (fr_obj _ _ _ _ F).
  - by rewrite T2.
  - destruct c, tmr; done.
Qed.

(** ** Giving the mutexes back *)

Lemma mutex_release_all_ok i : ∀ fuel g s d,
  (length (mq s i) ≤ fuel)%nat → KInv g s → no_fired g → off_queue (g i) = true →
  mtx_pre (fun x => x = i) none s →
  ∃ b g' s', mutex_release_all_loop fuel i d s = RET (b || d) s' ∧ mstep g s b g' s' ∧
    mtx_pre (fun x => x = i) none s' ∧ mq s' i = [] ∧ g' i = g i.
Proof.
  intros fuel. induction fuel as [|fuel IH]; intros g s d Hlen HK Hnf Hoff Hm.
  - destruct (mq s i) as [|j l] eqn:Hq; [|simpl in Hlen; lia]. exists false, g, s. unfold mutex_release_all_loop, kget.
    rewrite Hq. split_and!; try done. by apply mstep_refl.
  - cbn [mutex_release_all_loop]. unfold kget. destruct (mq s i) as [|j l] eqn:Hq.
    { exists false, g, s. split_and!; try done. by apply mstep_refl. }
    set (s1 := mq_st i (without j) s). pose proof (mq_st_mstep g s i (without j) HK) as M1. fold s1 in M1.
    assert (Hj : j ∈ mq s i) by (rewrite Hq; left).
    assert (Hm1 : mtx_pre (fun x => x = i) (fun k => none k ∨ k = j) s1).
    { generalize (mtx_pre_remove _ _ s i j Hm). apply mtx_pre_ext; naive_solver. }
    assert (Hq1 : mq s1 i = l).
    { destruct (mq_st_tcb i (without j) s i) as (_ & _ & _ & _ & _ & E1). fold s1 in E1. rewrite E1, decide_True, Hq by done.
      pose proof (mi_nodup _ _ _ Hm i) as Hnd. rewrite Hq in Hnd. apply NoDup_cons in Hnd as [Hn _].
      unfold without. rewrite filter_cons_False by naive_solver. apply without_id. done. }
    destruct (mutex_release_ok (fun x => x = i) none g s1 j (ms_k _ _ _ _ _ M1) Hnf Hm1) as (b2 & g2 & s2 & E2 & M2 & Hm2 & Hkeep);
      [by intros []|].
    destruct (Hkeep i) as [G2 Q2 _].
    { right. by apply (off_queue_no g s1 i (ms_k _ _ _ _ _ M1)). }
    destruct (IH g2 s2 (if b2 then true else d)) as (b3 & g3 & s3 & E3 & M3 & Hm3 & Hq3 & G3).
    { rewrite Q2, Hq1. simpl in Hlen. lia. }
    { apply M2. }
    { by apply M2. }
    { by rewrite G2. }
    { done. }
    exists (b2 || b3), g3, s3. split_and!; [| |done|done|congruence].
    + rewrite (bind_RET _ _ s () s1) by reflexivity. rewrite (bind_RET _ _ _ _ _ E2), E3. f_equal. by destruct b2, b3, d.
    + change (b2 || b3) with (false || (b2 || b3)). eapply mstep_trans; [exact M1|]. by eapply mstep_trans.
Qed.

(** ** Becoming dormant *)

Lemma mtx_inv_death s s' i :
  mtx_pre (fun x => x = i) none s → mq s i = [] → (∀ j, i ∉ wq s (MTXQ j)) →
  (∀ x, x ≠ i → tcb_table s' x = tcb_table s x) →
  (let T := tcb_table s' i in dormant s' i ∧ bpriority T = ipriority (p_tinib T) ∧ priority T = ipriority (p_tinib T) ∧
    p_tinib T = p_tinib (tcb_table s i) ∧ mutex_queue T = []) →
  obj s' = obj s → wq s' = wq s → mtx_inv s'.
Proof.
  intros Hm Hmq Hi HT (Hd & Hb & Hp & Hin & Hq) Ho Hw. destruct Hm.
  assert (Hdx : ∀ x, x ≠ i → dormant s' x ↔ dormant s x) by (intros x Hx; unfold dormant; by rewrite HT).
  assert (Hin' : ∀ x, p_tinib (tcb_table s' x) = p_tinib (tcb_table s x) ∧ mq s' x = mq s x).
  { intros x. destruct (decide (x = i)) as [->|Hx]; [by rewrite Hin, Hq, Hmq|by rewrite HT]. }
  split; unfold noexs, mtx_gone, ceiling_ok, mutex_calc_priority in *; rewrite ?Ho, ?Hw; try done;
    intros x; destruct (Hin' x) as (H1 & H2); rewrite ?H1, ?H2; auto;
    (destruct (decide (x = i)) as [->|Hne]; [|rewrite ?(HT x Hne), ?(Hdx x Hne); auto]); try done.
  - intros _ _. by rewrite <- Hin.
  - intros j Hj. rewrite Hmq in Hj. by apply not_elem_of_nil in Hj.
  - intros j Hj. by apply Hi in Hj.
Qed.

Lemma make_dormant_ok g s i :
  KInv g s → mtx_pre (fun x => x = i) none s → off_queue (g i) = true → mq s i = [] →
  ∃ s', make_dormant i s = RET () s' ∧ lstep i g s false (<[i := Dormant]> g) s' ∧ mtx_inv s' ∧
    p_tinib (tcb_table s' i) = p_tinib (tcb_table s i).
Proof.
  intros HK Hm Hoff Hq. pose proof (off_queue_no g s i HK Hoff) as Hno.
  eexists. split; [reflexivity|]. set (s' := upd_tcb i _ s).
  assert (HT : ∀ x, x ≠ i → tcb_table s' x = tcb_table s x) by (intros x Hx; simpl; by rewrite fn_lookup_insert_ne).
  split_and!; [split|..].
  - apply (KInv_move g s); try done.
    + intros w c susp Hg. rewrite Hg in Hoff. by destruct c.
    + simpl. by rewrite fn_lookup_insert.
    + eapply wq_ok_ext; [|apply HK]. intros x. rewrite (place_upd (tcb_table s)) by done.
      case_decide; [subst|done]. rewrite place_self. unfold place. by destruct (g i) as [| | | |? [] ? []].
    + eapply sched_ok_ext; [apply HK|done|]. intros p x Hx. rewrite HT; [done|]. intros ->. by apply Hno in Hx.
  - by apply (move_frame s _ i); try apply mtx_only_refl.
  - by split.
  - intros r Hr. by rewrite fn_lookup_insert_ne.
  - intros x Hx. by rewrite fn_lookup_insert_ne.
  - apply (mtx_inv_death s _ i); try done. simpl. unfold dormant. simpl. rewrite fn_lookup_insert. done.
  - simpl. by rewrite fn_lookup_insert.
Qed.

(** ** The end of a task and its restart *)

Lemma quiet_lstep i g s f : KInv g s → quiet f → lstep i g s false g (upd_tcb i f s).
Proof. intros HK Hf. split; [by apply quiet_KInv|by apply quiet_frame|by split|done|done]. Qed.

Lemma give_back_ok i g s :
  KInv g s → no_fired g → mtx_inv s → off_queue (g i) = true →
  ∃ b g' s', (get s;; match mutex_queue (tcb_table s i) with [] => ret false | _ => mutex_release_all i end) s = RET b s' ∧
    mstep g s b g' s' ∧ mtx_pre (fun x => x = i) none s' ∧ mq s' i = [] ∧ g' i = g i.
Proof.
  intros HK Hnf Hm Hoff. apply (mtx_pre_bad _ (fun x => x = i)) in Hm; [|by intros x []]. unfold kget.
  destruct (mutex_release_all_ok i (length (mq s i)) g s false) as (b & g' & s' & E & H); [done..|].
  rewrite orb_false_r in E. exists b, g', s'. split; [|exact H]. rewrite <- E. unfold mutex_release_all, kget.
  destruct (mq s i) as [|j l] eqn:Hq; [|by rewrite <- Hq]. simpl. unfold kget. by rewrite Hq.
Qed.

Lemma restart_ok i g s :
  KInv g s → mtx_inv s → g i = Dormant → ¬ noexs (tcb_table s i) →
  ∃ b g' s', (get s;; if actque (tcb_table s i) then set_actque i false ;;; make_active i else ret false) s = RET b s' ∧
    lstep i g s b g' s' ∧ mtx_inv s' ∧ settled_st (g' i) = true.
Proof.
  intros HK Hm Hg Hex. unfold kget. destruct (actque (tcb_table s i)).
  - set (f := fun T : TCB => T <| actque := false |>). assert (Hf : quiet f) by done.
    pose proof (quiet_lstep i g s f HK Hf) as L1. set (s1 := upd_tcb i f s) in *.
    destruct (make_active_ok g s1 i (ls_k _ _ _ _ _ _ L1)) as (b & s2 & E & L2 & Hm2); [by apply quiet_mtx|done| |].
    { unfold noexs, s1. by destruct (quiet_lookup f s i Hf i) as (_ & _ & _ & _ & _ & -> & _). }
    exists b, (<[i := Runnable]> g), s2. split_and!; [by rewrite (bind_RET _ _ s () s1)| |done|by rewrite fn_lookup_insert].
    change b with (false || b). by eapply lstep_trans.
  - exists false, g, s. split_and!; try done; [|by rewrite Hg]. apply mstep_lstep. by apply mstep_refl.
Qed.

Notation give_back i := (get s;; match mutex_queue (tcb_table s i) with [] => ret false | _ => mutex_release_all i end).
Notation restart i := (get s;; if actque (tcb_table s i) then set_actque i false ;;; make_active i else ret false).

(** From a task off the queues to one that is dormant or ready again. *)
Lemma task_end_ok i g s :
  KInv g s → no_fired g → mtx_inv s → off_queue (g i) = true → g i ≠ Dormant →
  ∃ b1 s1 s2 b2 g' s', give_back i s = RET b1 s1 ∧ make_dormant i s1 = RET () s2 ∧ restart i s2 = RET b2 s' ∧
    lstep i g s (b2 || b1) g' s' ∧ mtx_inv s' ∧ settled_st (g' i) = true.
Proof.
  intros HK Hnf Hm Hoff Hd.
  destruct (give_back_ok i g s HK Hnf Hm Hoff) as (b1 & g1 & s1 & E1 & M1 & Hm1 & Hq1 & G1).
  pose proof (ms_k _ _ _ _ _ M1) as HK1.
  destruct (make_dormant_ok g1 s1 i HK1 Hm1) as (s2 & E2 & L2 & Hm2 & T2); [by rewrite G1|done|].
  destruct (restart_ok i _ s2 (ls_k _ _ _ _ _ _ L2) Hm2) as (b2 & g3 & s3 & E3 & L3 & Hm3 & G3); [by rewrite fn_lookup_insert| |].
  { unfold noexs. rewrite T2. intros Hx%(mi_exists _ _ _ Hm1). apply (dormant_iff g1) in Hx; [congruence|done]. }
  exists b1, s1, s2, b2, g3, s3. split_and!; [done..|rewrite orb_comm|done|done].
  apply (mstep_lstep i) in M1. change b2 with (false || b2). eapply lstep_trans; [exact M1|]. by eapply lstep_trans.
Qed.

(** The task to be terminated leaves its queue. *)
Lemma leave_queue_ok i g s :
  KInv g s → settled g → mtx_inv s → g i ≠ Dormant → (dspflg s = true → p_schedtsk s ≠ Some i) →
  ∃ st s', (get s;; if TSTAT_RUNNABLE (tstat (tcb_table s i)) then make_non_runnable i ;;; ret ()
       else if TSTAT_WAITING (tstat (tcb_table s i)) then wait_dequeue_wobj i ;;; wait_dequeue_tmevtb i
       else ret ()) s = RET () s' ∧
    lstep i g s false (<[i := st]> g) s' ∧ mtx_inv s' ∧ off_queue st = true ∧ st ≠ Dormant.
Proof.
  intros HK Hset Hm Hd Hs. unfold kget. specialize (Hset i).
  rewrite (k_tstat _ _ HK), enc_runnable, enc_waiting by apply HK.
  destruct (g i) as [| | | |w c susp tmr] eqn:Hg; try done; simpl.
  - destruct (park_ok g s i HK Hm Hg) as (b & s' & E & L & Hm' & _ & Hn). exists Parked, s'.
    split_and!; [by rewrite (bind_RET _ _ _ _ _ E)| |done..]. destruct L as [L1 L2 L3 L4 L5]. split; try done.
    split; [done|]. intros _ Hf. auto.
  - exists Suspended, s. split_and!; try done. pose proof (mstep_lstep i _ _ _ _ _ (mstep_refl g s HK)) as [L1 L2 L3 L4 L5].
    split; try done; [by apply KInv_same|..]; intros r Hr; by rewrite fn_lookup_insert_ne.
  - destruct (unwait_ok g s i w c susp tmr HK Hm Hg) as (s' & E & L & Hm' & _ & Ho); [by rewrite Hg|].
    exists (Waiting w (off c) susp (stop tmr)), s'. by split_and!.
Qed.

Lemma no_fired_upd g i st : settled g → off_queue st = true → no_fired (<[i := st]> g).
Proof.
  intros Hset Ho x w q susp. destruct (decide (x = i)) as [->|Hx].
  - rewrite fn_lookup_insert. by intros ->.
  - rewrite fn_lookup_insert_ne by done. by apply settled_no_fired.
Qed.

(** ** Creation and deletion *)

(** The control block of a task, taken from the free list or given back. *)
Record new_block s s' i : Prop := {
  nb_other : ∀ x, x ≠ i → tcb_table s' x = tcb_table s x;
  nb_queue : mq s' i = [];
  nb_tstat : tstat (tcb_table s' i) = TS_DORMANT;
  nb_wq : wq s' = wq s; nb_sch : sch s' = sch s; nb_tm : tm s' = tm s; nb_winfos : winfos s' = winfos s;
  nb_frame : next_frame s' = next_frame s; nb_var : var s' = var s; nb_cpu : cpu s' = cpu s;
  nb_mtxcb : mtxcb s' = mtxcb s; nb_free_mtx : o_free_mtxcb (obj s') = o_free_mtxcb (obj s);
  nb_obj : mtx_only (obj s) (obj s');
  nb_initial : ¬ noexs (tcb_table s' i) → let T := tcb_table s' i in
    0 ≤ ipriority (p_tinib T) < 16 ∧ bpriority T = ipriority (p_tinib T) ∧ priority T = ipriority (p_tinib T);
  nb_nodup : NoDup (o_free_tcb (obj s'));
  nb_free : ∀ x, x ∈ o_free_tcb (obj s') → x ≠ i ∧ x ∈ o_free_tcb (obj s) ∨ x = i ∧ noexs (tcb_table s' i) }.

Lemma new_block_lstep g s s' i : KInv g s → g i = Dormant → new_block s s' i → lstep i g s false g s'.
Proof.
  intros HK Hg [B1 B2 B3 B4 B5 B6 B7 B8 B9 B10 B11 B12 B13 B14 B15 B16].
  pose proof (off_queue_no g s i HK) as Hno. rewrite Hg in Hno. specialize (Hno eq_refl).
  assert (HK' : KInv (<[i := Dormant]> g) s').
  { apply (KInv_move g s); rewrite ?B4, ?B5; try done; [by intros w c susp; rewrite Hg| | |].
    - intros q. unfold mtx_only in B13. destruct q; simpl; try done; [rewrite B13..|by rewrite B11]; done.
    - eapply wq_ok_ext; [|apply HK]. intros x. rewrite (place_upd (tcb_table s)) by done.
      case_decide; [subst|done]. rewrite place_self. unfold place. by rewrite Hg.
    - eapply sched_ok_ext; [apply HK|done|]. intros p x Hx. rewrite B1; [done|]. intros ->. by apply Hno in Hx. }
  split; [|apply (move_frame s _ i); rewrite ?B4; try done|split; [done|intros _ _; by rewrite B5]|done..].
  eapply KInv_ext; [|exact HK']. intros x. destruct (decide (x = i)) as [->|]; [by rewrite fn_lookup_insert|by rewrite fn_lookup_insert_ne].
Qed.

Lemma new_block_mtx s s' i : mtx_inv s → dormant s i → (∀ j, i ∉ wq s (MTXQ j)) → new_block s s' i → mtx_inv s'.
Proof.
  intros Hm Hd Hno [B1 B2 B3 B4 B5 B6 B7 B8 B9 B10 B11 B12 B13 B14 B15 B16].
  pose proof (mi_dormant _ _ _ Hm i Hd) as Hmq. destruct Hm.
  assert (Hdi : dormant s' i) by (unfold dormant; by rewrite B3).
  assert (Hdx : ∀ x, dormant s' x ↔ dormant s x).
  { intros x. destruct (decide (x = i)) as [->|Hx]; [done|]. unfold dormant. by rewrite B1. }
  assert (Hq : ∀ x, mq s' x = mq s x) by (intros x; destruct (decide (x = i)) as [->|Hx]; [by rewrite B2, Hmq|by rewrite B1]).
  split; unfold mtx_gone, ceiling_ok, mutex_calc_priority in *; rewrite ?B4, ?B11, ?B12; try done;
    intros x; rewrite ?Hq, ?Hdx; (destruct (decide (x = i)) as [->|Hne]; [|rewrite ?(B1 x Hne); auto]); try done; auto.
  - intros Hn. by apply B14.
  - intros _ Hn. by apply B14.
  - intros [[? ?]|[_ ?]]%B16; done.
  - intros [[_ ?]|[? _]]%B16; [auto|done].
  - intros j Hj. rewrite Hmq in Hj. by apply not_elem_of_nil in Hj.
  - intros j Hj. by apply Hno in Hj.
Qed.

(** ** A new base priority *)

Definition with_bpri i v s : State := upd_tcb i (fun T => T <| bpriority := v |>) s.

Lemma with_bpri_tcb i v s x :
  tcb_table (with_bpri i v s) x = if decide (x = i) then (tcb_table s i) <| bpriority := v |> else tcb_table s x.
Proof. simpl. destruct (decide (x = i)) as [->|]; [by rewrite fn_lookup_insert|by rewrite fn_lookup_insert_ne]. Qed.

Lemma with_bpri_step g s i v : KInv g s → mstep g s false g (with_bpri i v s).
Proof.
  intros HK. split; try done.
  - apply KInv_tcb; [|done]. intros x. fold (with_bpri i v s). rewrite with_bpri_tcb. by case_decide; subst.
  - split; try done; [apply mtx_only_refl|]. intros q x Hq Hx _. rewrite with_bpri_tcb. by case_decide; subst.
Qed.

(** The ceilings of the mutexes [i] holds or awaits allow the priority [v]. *)
Definition ceilings_allow s i v : Prop :=
  ∀ j, j ∈ mq s i ∨ i ∈ wq s (MTXQ j) → MTX_CEILING (mtxcb s j) = true → ceiling (mtxcb s j) ≤ v.

Lemma with_bpri_mtx s i v :
  mtx_inv s → ¬ dormant s i → 0 ≤ v < 16 → ceilings_allow s i v → mtx_pre (fun x => none x ∨ x = i) none (with_bpri i v s).
Proof.
  intros Hm Hd Hv Hc. pose proof (fun x => with_bpri_tcb i v s x) as HT. destruct Hm.
  assert (HS : ∀ x, p_tinib (tcb_table (with_bpri i v s) x) = p_tinib (tcb_table s x) ∧
    priority (tcb_table (with_bpri i v s) x) = priority (tcb_table s x) ∧ mq (with_bpri i v s) x = mq s x ∧
    tstat (tcb_table (with_bpri i v s) x) = tstat (tcb_table s x)).
  { intros x. rewrite HT. by case_decide; subst. }
  split; unfold dormant, noexs, ceiling_ok, mutex_calc_priority in *; try done;
    intros x; destruct (HS x) as (H1 & H2 & H3 & H4); rewrite ?H1, ?H2, ?H3, ?H4, ?HT; auto; case_decide; subst; simpl; auto; try done.
  - intros Hx. naive_solver.
  - intros j Hj. destruct (mi_wait i j Hj) as (H5 & H6 & _). split_and!; [done..|]. apply Hc. by right.
  - intros j Hj. by apply mi_wait.
Qed.

Lemma violates_ceiling_false v C : violates_ceiling v C = false → MTX_CEILING C = true → ceiling C ≤ v.
Proof. unfold violates_ceiling. intros H HC. rewrite HC in H. by apply Z.ltb_ge in H. Qed.

Lemma waits_mutex g s i :
  KInv g s → settled g → TSTAT_WAIT_MTX (tstat (tcb_table s i)) = false → ∀ j, i ∉ wq s (MTXQ j).
Proof.
  intros HK Hset Hw j Hj. destruct (wq_waiting g s (MTXQ j) i HK eq_refl Hj) as (w & susp & tmr & Hg).
  rewrite (k_tstat _ _ HK), enc_mtx, Hg in Hw by apply HK. done.
Qed.

(** The test of [chg_pri] against the ceilings. *)
Lemma check_ceilings_ok g s i v :
  KInv g s → settled g →
  ∃ b, (if negb (no_free (mutex_queue (tcb_table s i))) || TSTAT_WAIT_MTX (tstat (tcb_table s i))
        then (c <- mutex_check_ceilpri i v ;; ret (negb c)) else ret false) s = RET b s ∧
    (b = false → ceilings_allow s i v).
Proof.
  intros HK Hset. destruct (negb (no_free (mq s i)) || TSTAT_WAIT_MTX (tstat (tcb_table s i))) eqn:Hor.
  2:{ exists false. split; [done|]. intros _ j Hj. apply orb_false_iff in Hor as [H1 H2].
      destruct (mq s i) eqn:Hq; [|done]. destruct Hj as [Hj|Hj]; [by apply not_elem_of_nil in Hj|].
      by apply (waits_mutex g s i HK Hset H2) in Hj. }
  unfold bind, mutex_check_ceilpri, kget. destruct (existsb _ (mq s i)) eqn:Hex; [by exists true|].
  assert (Hhold : ∀ j, j ∈ mq s i → MTX_CEILING (mtxcb s j) = true → ceiling (mtxcb s j) ≤ v).
  { intros j Hj. apply violates_ceiling_false. destruct (violates_ceiling v (mtxcb s j)) eqn:Hv; [|done].
    rewrite <- Hex. symmetry. apply existsb_exists. exists j. by rewrite <- list_elem_of_In. }
  destruct (TSTAT_WAIT_MTX (tstat (tcb_table s i))) eqn:Hw; simpl.
  - pose proof Hw as Hw'. rewrite (k_tstat _ _ HK), enc_mtx in Hw' by apply HK.
    specialize (Hset i). destruct (g i) as [| | | |w [| |[]|[]] susp tmr] eqn:Hg; try done.
    destruct (k_wait _ _ HK _ _ _ _ _ Hg) as [W1 _ _ W4 _ _]. unfold deref. rewrite W1, (W4 _ (or_introl eq_refl)). simpl.
    exists (violates_ceiling v (mtxcb s i0)). rewrite negb_involutive. split; [done|]. intros Hv j [Hj|Hj]; [by apply Hhold|].
    apply (k_wq _ _ HK) in Hj. unfold place in Hj. rewrite Hg in Hj. injection Hj as <-. by apply violates_ceiling_false.
  - exists false. split; [done|]. intros _ j [Hj|Hj]; [by apply Hhold|]. by apply (waits_mutex g s i HK Hset Hw) in Hj.
Qed.

(** The priority without a mutex with a ceiling, and with one. *)
Lemma is_calc_base (M : nat → MTXCB) (T : TCB) :
  (∀ j, j ∈ mutex_queue T → MTX_CEILING (M j) = false) → is_calc M T (bpriority T).
Proof. intros H. split_and!; [done|intros j Hj; by rewrite H|by left]. Qed.

Lemma is_calc_rebase (M : nat → MTXCB) (T : TCB) v p j :
  is_calc M T p → j ∈ mutex_queue T → MTX_CEILING (M j) = true → ceiling (M j) ≤ bpriority T → ceiling (M j) ≤ v →
  is_calc M (T <| bpriority := v |>) p.
Proof.
  intros (C1 & C2 & C3) Hj HC H1 H2. pose proof (C2 j Hj HC). split_and!; simpl; [lia|done|].
  right. destruct C3 as [->|?]; [|done]. exists j. split_and!; [done..|lia].
Qed.

Section calls.
Context (OInv : State → Prop) `{!Objects OInv} `{!TaskComponent OInv mtx_inv mtx_own mtx_only}.
Context `{!Component OInv kmm_inv (fun _ => False) kmm_only}.
Notation WP := (wp (rely OInv) (guar OInv)).
Notation Inv := (Inv OInv).
Notation OK := (OK OInv).
Notation Mid := (Mid OInv).

Lemma lstep_Mid i g s b g' s' :
  Mid g s → lstep i g s b g' s' → mtx_inv s' → settled_st (g' i) = true → Mid g' s'.
Proof.
  intros [M1 M2 M3] [H1 H2 H3 H4 H5] Hm Hi. split; [done| |by eapply kcomp_put].
  intros x. destruct (decide (x = i)) as [->|Hx]; [done|]. by apply H5.
Qed.

Lemma noexs_eqb s i : tsk_noexs s i = false → ¬ noexs (tcb_table s i).
Proof. unfold tsk_noexs. by intros ?%Z.eqb_neq. Qed.

Lemma dormant_st g s i : KInv g s → TSTAT_DORMANT (tstat (tcb_table s i)) = true → g i = Dormant.
Proof. intros HK Hd. by apply (dormant_iff g s). Qed.

Lemma activate_progress g s i :
  Mid g s → g i = Dormant → ¬ noexs (tcb_table s i) →
  ∃ b s', make_active i s = RET b s' ∧ progress OInv g s b s'.
Proof.
  intros HM Hg Hex.
  destruct (make_active_ok g s i (m_k _ _ _ HM)) as (b & s' & E & L & Hm); [apply kcomp_get, HM|done..|].
  exists b, s'. split; [exact E|]. exists (<[i := Runnable]> g). pose proof (ls_frame _ _ _ _ _ _ L) as HF. split_and!; try apply HF.
  - eapply lstep_Mid; [done..|]. by rewrite fn_lookup_insert.
  - apply L.
  - intros r Hr. apply L; [|done]. intros ->. congruence.
Qed.

Lemma new_block_Mid g s s' i : Mid g s → g i = Dormant → new_block s s' i → Mid g s' ∧ progress OInv g s false s'.
Proof.
  intros HM Hg HB. pose proof (m_k _ _ _ HM) as HK. pose proof (new_block_lstep g s s' i HK Hg HB) as L.
  assert (HM' : Mid g s').
  { eapply lstep_Mid; [exact HM|exact L| |by rewrite Hg]. eapply (new_block_mtx s s' i); [apply kcomp_get, HM| | |exact HB].
    - by apply (dormant_iff g).
    - intros j. apply (off_queue_no g s i HK). by rewrite Hg. }
  split; [done|]. apply progress_none with (g := g); [done|apply HB..].
Qed.

Lemma progress_from g s0 s b s' : var s = var s0 → cpu s = cpu s0 → sch s = sch s0 → progress OInv g s b s' → progress OInv g s0 b s'.
Proof.
  intros Hv Hc Hs (g' & HM & Hv' & Hc' & [W1 W2] & Hr). exists g'. rewrite Hv', Hc'. split_and!; try done.
  split; rewrite <- ?Hv, <- ?Hs; done.
Qed.

Lemma act_tsk_ok tskid : call_ok OInv (act_tsk tskid).
Proof.
  intros s HOK. unfold act_tsk. self_call i g t s1 HI Hin Ht Hd.
  destruct (tsk_noexs s1 i) eqn:Hex; [svc_ret|]. apply noexs_eqb in Hex.
  destruct (TSTAT_DORMANT _) eqn:Hdm.
  - apply (dormant_st g) in Hdm; [|apply HI].
    destruct (activate_progress g s1 i (Inv_Mid _ _ _ HI) Hdm Hex) as (b & s2 & E & HP).
    eapply wp_RET; [exact E|]. apply wp_bind. eapply progress_dispatch; [exact HI|exact Hin|exact Ht|exact HP|intros; svc_ret].
  - case_match; [|svc_ret]. eapply wp_RET; [reflexivity|]. split; [|exact Hin].
    exists g. by apply (quiet_Inv OInv g s1 i (fun T => T <| actque := true |>)).
Qed.

Lemma iact_tsk_ok tskid : call_ok OInv (iact_tsk tskid).
Proof.
  intros s HOK. unfold iact_tsk. int_call g s1 HI Hin. set (i := INDEX tskid).
  destruct (tsk_noexs s1 i) eqn:Hex; [svc_ret|]. apply noexs_eqb in Hex.
  destruct (TSTAT_DORMANT _) eqn:Hdm.
  - apply (dormant_st g) in Hdm; [|apply HI].
    destruct (activate_progress g s1 i (Inv_Mid _ _ _ HI) Hdm Hex) as (b & s2 & E & HP).
    eapply wp_RET; [exact E|]. apply wp_bind. eapply (progress_reqflg OInv); [exact HI|exact Hin|exact HP|intros; svc_ret].
  - case_match; [|svc_ret]. eapply wp_RET; [reflexivity|]. split; [|exact Hin].
    exists g. by apply (quiet_Inv OInv g s1 i (fun T => T <| actque := true |>)).
Qed.

Lemma lor_bound a b n : 0 ≤ n → 0 ≤ a < 2^n → 0 ≤ b < 2^n → 0 ≤ Z.lor a b < 2^n.
Proof.
  intros Hn Ha Hb. assert (0 ≤ Z.lor a b) by (apply Z.lor_nonneg; lia). split; [done|].
  destruct (decide (a = 0)) as [->|Ha0]; [rewrite Z.lor_0_l; lia|]. destruct (decide (b = 0)) as [->|Hb0]; [rewrite Z.lor_0_r; lia|].
  assert (Z.log2 (Z.lor a b) < n).
  { rewrite Z.log2_lor by lia. apply Z.max_lub_lt; apply Z.log2_lt_pow2; lia. }
  destruct (decide (Z.lor a b = 0)) as [->|Hne]; [lia|]. apply Z.log2_lt_pow2; lia.
Qed.

Lemma free_tcb_dormant g s i : Mid g s → i ∈ o_free_tcb (obj s) → g i = Dormant.
Proof.
  intros HM Hi. pose proof (kcomp_get _ (m_obj _ _ _ HM)) as Hm. apply (dormant_iff g s); [apply HM|].
  by apply (mi_exists _ _ _ Hm), (mi_free_tcb _ _ _ Hm).
Qed.

Lemma acre_tsk_ok pk :
  0 ≤ TARGET_TSKATR < 2^31 → (∀ n, 0 ≤ ROUND_STK_T n) → call_ok OInv (acre_tsk pk).
Proof.
  intros Hatr Hround s HOK. unfold acre_tsk. task_call g t s1 HI Hin Ht Hd.
  destruct (o_free_tcb (obj s1)) as [|i l] eqn:Hl; [svc_ret|]. simpl.
  set (alloc := c_stk pk =? 0). set (sz := if alloc then ROUND_STK_T (c_stksz pk) else c_stksz pk).
  assert (Hm : ∃ p s2, (if alloc then kernel_malloc sz else ret (c_stk pk)) s1 = RET p s2 ∧
    Inv g s2 ∧ var s2 = var s1 ∧ cpu s2 = cpu s1 ∧ wq s2 = wq s1 ∧ sch s2 = sch s1 ∧ kmm_only (obj s1) (obj s2)).
  { destruct alloc; [by apply (kernel_malloc_ok OInv); [|apply Hround]|].
    eexists _, s1. split_and!; try done. apply kmm_only_refl. }
  destruct Hm as (p & s2 & E & HI2 & Hv & Hc & Hq & Hs & Ho & _). eapply wp_RET; [exact E|].
  assert (Hin2 : in_task t s2) by (by eapply in_task_same).
  set (atr := if alloc then Z.lor (c_tskatr pk) TA_MEMALLOC else c_tskatr pk).
  destruct (p =? 0); [svc_ret|].
  assert (Hl2 : o_free_tcb (obj s2) = i :: l) by (by rewrite Ho). pose proof (Inv_Mid _ _ _ HI2) as HM2.
  assert (Hg : g i = Dormant) by (eapply free_tcb_dormant; [exact HM2|rewrite Hl2; left]).
  eapply wp_RET; [by apply take_free_eq|]. do 4 (eapply wp_RET; [reflexivity|]). apply wp_bind. cbv beta.
  match goal with |- wp _ _ _ (_ ?x) => set (s3 := x) end.
  assert (HT : tcb_table s3 i = (tcb_table s2 i) <| p_tinib := mkTINIB atr (c_exinf pk) (c_task pk) (INT_PRIORITY (c_itskpri pk)) sz p TA_NULL 0 |>
     <| actque := false |> <| tstat := TS_DORMANT |> <| bpriority := INT_PRIORITY (c_itskpri pk) |>
     <| priority := INT_PRIORITY (c_itskpri pk) |> <| wupque := false |> <| enatex := false |> <| texptn := 0 |> <| mutex_queue := [] |>).
  { simpl. by rewrite !fn_lookup_insert. }
  assert (Hex : ¬ noexs (tcb_table s3 i)).
  { unfold noexs. rewrite HT. simpl. assert (0 ≤ Z.lor TA_ACT TARGET_TSKATR < 2^31) by (apply lor_bound; unfold TA_ACT; lia).
    subst atr. destruct alloc; [by eapply rsatr_alloc|by eapply rsatr_exists]. }
  pose proof (kcomp_get _ (m_obj _ _ _ HM2)) as Hm. pose proof (mi_nodup_tcb _ _ _ Hm) as Hnd.
  rewrite Hl2 in Hnd. apply NoDup_cons in Hnd as [Hil Hnd].
  destruct (new_block_Mid g s2 s3 i HM2 Hg) as [HM3 HP3].
  { split; rewrite ?HT; try done.
    - intros x Hx. simpl. by rewrite !fn_lookup_insert_ne.
    - intros _. simpl. unfold VALID_TPRI, INT_PRIORITY, u32, TMIN_TPRI, TMAX_TPRI in *. split; [|done]. rewrite Z.mod_small; lia.
    - intros x Hx. left. simpl in Hx. split; [by intros ->|]. rewrite Hl2. by right. }
  destruct (bits (tskatr (p_tinib (tcb_table s3 i))) TA_ACT).
  - destruct (activate_progress g s3 i HM3 Hg Hex) as (b & s4 & E4 & HP4). eapply wp_RET; [exact E4|].
    eapply (progress_dispatch OInv b g s2 s4 t); [done..| |intros; svc_ret].
    by apply (progress_from g s2 s3).
  - change (ret ()) with (if false then dispatch else ret ()).
    eapply (progress_dispatch OInv false g s2 s3 t); [done..|exact HP3|intros; svc_ret].
Qed.

Lemma del_tsk_ok tskid : call_ok OInv (del_tsk tskid).
Proof.
  intros s HOK. unfold del_tsk. task_call g t s1 HI Hin Ht Hd. set (i := INDEX tskid).
  destruct (tsk_noexs s1 i) eqn:Hex; [svc_ret|]. destruct (_ && _) eqn:Hdm; [|svc_ret]. apply andb_true_iff in Hdm as [_ Hdm].
  apply (dormant_st g) in Hdm; [|apply HI].
  eapply (wp_RET _ _ _ _ _ () s1); [by case_match|]. do 2 (eapply wp_RET; [reflexivity|]). split; [|done]. exists g.
  match goal with |- Service.Inv _ _ ?x => set (s3 := x) end.
  assert (HT : tcb_table s3 i = (tcb_table s1 i) <| p_tinib ::= fun I => I <| tskatr := TA_NOEXS |> |>) by (simpl; by rewrite fn_lookup_insert).
  pose proof (mtx_Inv _ g s1 HI) as Hm. assert (Hd' : dormant s1 i) by (apply (dormant_iff g); [apply HI|done]).
  apply (Inv_of OInv g s1); [done| |done..].
  apply (new_block_Mid g s1 s3 i (Inv_Mid _ _ _ HI) Hdm). split; rewrite ?HT; try done.
  - intros x Hx. simpl. by rewrite fn_lookup_insert_ne.
  - by apply (mi_dormant _ _ _ Hm).
  - simpl. rewrite (k_tstat _ _ (i_k _ _ _ HI)). by rewrite Hdm.
  - simpl. apply NoDup_app. split_and!; [apply Hm| |apply NoDup_singleton].
    intros x Hx ->%list_elem_of_singleton. apply noexs_eqb in Hex. by apply Hex, (mi_free_tcb _ _ _ Hm).
  - intros x. simpl. intros [Hx| ->%list_elem_of_singleton]%elem_of_app; [left|by right]. split; [|done].
    intros ->. apply noexs_eqb in Hex. by apply Hex, (mi_free_tcb _ _ _ Hm).
Qed.

Lemma ter_tsk_ok tskid : call_ok OInv (ter_tsk tskid).
Proof.
  intros s HOK. unfold ter_tsk. svc_checks; split_ctx. apply bool_decide_eq_false in Hchk1. set (i := INDEX tskid) in *.
  eapply wp_mono; [eapply (call_task_ok OInv s _ (fun _ _ => True)); try done|by intros a s' [? _]].
  intros g t s1 HI Hin Ht ->. eapply wp_mono with (P := fun _ s' => OK s' ∧ in_task t s'); [|naive_solver].
  set (s1 := with_lock true s) in *. unfold kget at 1.
  assert (Hti : t ≠ i) by (intros <-; apply Hchk1; symmetry; apply Hin).
  destruct (tsk_noexs s1 i) eqn:Hex; [svc_ret|]. destruct (TSTAT_DORMANT _) eqn:Hdm; [svc_ret|].
  assert (Hd : g i ≠ Dormant).
  { intros Hg. apply (dormant_iff g s1) in Hg; [|apply HI]. unfold dormant in Hg. congruence. }
  destruct (leave_queue_ok i g s1) as (st & s2 & E1 & L1 & Hm1 & Ho & Hst); [apply HI..|by eapply mtx_Inv|done| |].
  { intros Hdf. destruct (i_disp _ _ _ HI Hdf) as [->|[Hx _]]; [by rewrite (proj2 (proj2 Hin)); intros [=]|].
    rewrite (proj1 Hin) in Hx. done. }
  destruct (task_end_ok i _ s2 (ls_k _ _ _ _ _ _ L1)) as (b1 & s3 & s4 & b2 & g' & s5 & E2 & E3 & E4 & L2 & Hm2 & Hset);
    [apply no_fired_upd; [apply HI|done]|done|by rewrite fn_lookup_insert..|].
  pose proof (lstep_trans _ _ _ _ _ _ _ _ _ L1 L2) as L. simpl in L. pose proof (ls_frame _ _ _ _ _ _ L) as HF.
  eapply wp_RET; [exact E1|]. eapply wp_RET; [exact E2|]. eapply wp_RET; [exact E3|]. eapply wp_RET; [exact E4|]. apply wp_bind.
  eapply dispatch_if_ok; [exact HI|exact Hin|exact Ht| |by apply L|apply HF|apply HF|apply L|intros; svc_ret].
  eapply lstep_Mid; [by apply Inv_Mid|exact L|done..].
Qed.

(** The state in which [ext_tsk] ends its task: locked, dispatching enabled. *)
Lemma ext_prepare_ok g t s (k : K Z) Q :
  Mid g s → sense_context s = false → p_runtsk s = Some t →
  (∀ s', Mid g s' → sense_context s' = false → sense_lock s' = true → p_runtsk s' = Some t → WP Q (k s')) →
  WP Q (((get s;; if sense_lock s then ret () else lock_cpu) ;;;
    (get s;; if disdsp s then set_disdsp false else ret ()) ;;;
    (get s;; if negb (ipmflg s) then set_ipm TIPM_ENAALL ;;; set_ipmflg true else ret ()) ;;;
    set_dspflg true ;;; k) s).
Proof.
  intros HM Hc Hr Hk. set (P := fun s' => Mid g s' ∧ sense_context s' = false ∧ p_runtsk s' = Some t).
  assert (H1 : ∃ s1, (get s;; if sense_lock s then ret () else lock_cpu) s = RET () s1 ∧ P s1 ∧ sense_lock s1 = true).
  { unfold kget. destruct (sense_lock s) eqn:Hl; eexists; (split; [reflexivity|]); unfold P; split_and!; try done. by apply Mid_cpu. }
  destruct H1 as (s1 & E1 & (HM1 & Hc1 & Hr1) & Hl1). eapply wp_RET; [exact E1|].
  assert (H2 : ∃ s2, (get s;; if disdsp s then set_disdsp false else ret ()) s1 = RET () s2 ∧ P s2 ∧ sense_lock s2 = true).
  { unfold kget. destruct (disdsp s1); eexists; (split; [reflexivity|]); unfold P; split_and!; try done. by apply Mid_var. }
  destruct H2 as (s2 & E2 & (HM2 & Hc2 & Hr2) & Hl2). eapply wp_RET; [exact E2|].
  assert (H3 : ∃ s3, (get s;; if negb (ipmflg s) then set_ipm TIPM_ENAALL ;;; set_ipmflg true else ret ()) s2 = RET () s3 ∧
    P s3 ∧ sense_lock s3 = true).
  { unfold kget. destruct (ipmflg s2); eexists; (split; [reflexivity|]); unfold P; split_and!; try done. by apply Mid_var, Mid_cpu. }
  destruct H3 as (s3 & E3 & (HM3 & Hc3 & Hr3) & Hl3). eapply wp_RET; [exact E3|].
  eapply wp_RET; [reflexivity|]. apply Hk; try done. by apply Mid_var.
Qed.

Lemma ext_tsk_ok : call_ok OInv ext_tsk.
Proof.
  intros s HOK. unfold ext_tsk. apply wp_check.
  { intros _. split; [assumption|apply same_ctx_refl]. }
  intros Hctx. cbv beta in Hctx. destruct HOK as [g HI]. destruct (i_ctx _ _ _ HI Hctx) as (t & Hr & Ht).
  eapply ext_prepare_ok; [by apply Inv_Mid|done..|]. intros s0 HM Hc Hl Hr0.
  unfold kget at 1, deref. rewrite Hr0. pose proof (m_k _ _ _ HM) as HK.
  destruct (park_ok g s0 t HK) as (b & s1 & E1 & L1 & Hm1 & _); [apply kcomp_get, HM|done|].
  destruct (task_end_ok t _ s1 (ls_k _ _ _ _ _ _ L1)) as (b1 & s2 & s3 & b2 & g' & s4 & E2 & E3 & E4 & L2 & Hm2 & Hset);
    [apply no_fired_upd; [apply HM|done]|done|by rewrite fn_lookup_insert..|].
  pose proof (lstep_trans _ _ _ _ _ _ _ _ _ L1 L2) as L. pose proof (ls_frame _ _ _ _ _ _ L) as HF.
  eapply wp_RET; [exact E1|].
  eapply (wp_RET _ _ _ _ _ () s2).
  { revert E2. unfold kget. destruct (mq s1 t); [by intros [= _ <-]|]. intros E2. by rewrite (bind_RET _ _ _ _ _ E2). }
  eapply wp_RET; [exact E3|].
  eapply (wp_RET _ _ _ _ _ () s4).
  { revert E4. unfold kget. destruct (actque (tcb_table s3 t)); [|by intros [= _ <-]].
    set (s3' := upd_tcb t (fun T => T <| actque := false |>) s3).
    assert (E : set_actque t false s3 = RET () s3') by done. intros E4. rewrite (bind_RET _ _ _ _ _ E) in E4.
    by rewrite (bind_RET _ _ _ _ _ E), (bind_RET _ _ _ _ _ E4). }
  apply wp_bind, wp_yield; [|done]. split; [|split].
  - exists g'. by eapply lstep_Mid.
  - unfold sense_context. by rewrite (fr_cpu _ _ _ _ HF).
  - unfold sense_lock. by rewrite (fr_cpu _ _ _ _ HF).
Qed.

(** After the tests: the new base priority, and the new priority if no mutex
    with a ceiling is held. *)
Lemma set_base_ok g s i v :
  Mid g s → ¬ dormant s i → 0 ≤ v < 16 → ceilings_allow s i v →
  (let s1 := with_bpri i v s in
   if no_free (mq s1 i) || negb (mutex_scan_ceilmtx i s1)
   then ∃ b s', change_priority i v false s1 = RET b s' ∧ progress OInv g s b s'
   else progress OInv g s false s1).
Proof.
  intros HM Hd Hv Hc s1. pose proof (kcomp_get _ (m_obj _ _ _ HM)) as Hm. pose proof (m_k _ _ _ HM) as HK.
  pose proof (with_bpri_step g s i v HK) as M1. fold s1 in M1. pose proof (ms_k _ _ _ _ _ M1) as HK1.
  pose proof (with_bpri_mtx s i v Hm Hd Hv Hc) as Hm1. fold s1 in Hm1.
  assert (HTi : tcb_table s1 i = (tcb_table s i) <| bpriority := v |>) by (unfold s1; by rewrite with_bpri_tcb, decide_True).
  assert (Hg : g i ≠ Dormant) by (by rewrite <- (dormant_iff g s i HK)).
  assert (Hbase : (∀ j, j ∈ mq s1 i → MTX_CEILING (mtxcb s1 j) = false) →
    ∃ b s', change_priority i v false s1 = RET b s' ∧ progress OInv g s b s').
  { intros Hno. destruct (change_priority_ok g s1 i v false HK1 (m_settled _ _ _ HM i) Hg Hv) as (b & s2 & E & HR).
    exists b, s2. split; [exact E|]. eapply (mstep_progress OInv); [exact HM| |].
    - change b with (false || b). eapply mstep_trans; [exact M1|by eapply reprioritized_mstep].
    - eapply mtx_pre_priority; [exact Hm1|exact HR| |].
      + unfold dormant. by rewrite HTi.
      + replace v with (bpriority (tcb_table s1 i)) by (by rewrite HTi). by apply is_calc_base. }
  destruct (no_free (mq s1 i)) eqn:Hnf; simpl.
  { apply Hbase. destruct (mq s1 i); [|done]. by intros j ?%not_elem_of_nil. }
  destruct (mutex_scan_ceilmtx i s1) eqn:Hscan; simpl.
  - apply existsb_exists in Hscan as (j & Hj%list_elem_of_In & HC). rewrite HTi in Hj. simpl in Hj.
    eapply (mstep_progress OInv); [exact HM|exact M1|]. apply (mtx_pre_good none none s1 i Hm1). intros _. rewrite HTi.
    apply (is_calc_rebase _ (tcb_table s i) v _ j); [|done|done|by apply (mi_hold _ _ _ Hm)|by apply Hc; [left|]].
    apply (mtx_pri_calc none none s i Hm); [intros []|done].
  - apply Hbase. intros j Hj. destruct (MTX_CEILING (mtxcb s1 j)) eqn:HC; [|done]. rewrite <- Hscan. symmetry.
    apply existsb_exists. exists j. by rewrite <- list_elem_of_In.
Qed.

Lemma chg_pri_ok tskid tskpri : call_ok OInv (chg_pri tskid tskpri).
Proof.
  intros s HOK. unfold chg_pri. svc_checks; split_ctx; apply get_tcb_self_ok; [assumption..|]; intros i. unfold kget at 1.
  eapply wp_mono; [eapply (call_task_ok OInv s _ (fun _ _ => True)); try done|by intros a s' [? _]].
  intros g t s1 HI Hin Ht ->. eapply wp_mono with (P := fun _ s' => OK s' ∧ in_task t s'); [|naive_solver].
  set (s1 := with_lock true s) in *. set (v := if tskpri =? TPRI_INI then _ else _). unfold kget at 1.
  destruct (tsk_noexs s1 i) eqn:Hex; [svc_ret|]. destruct (TSTAT_DORMANT _) eqn:Hdm; [svc_ret|]. apply noexs_eqb in Hex.
  pose proof (mtx_Inv _ g s1 HI) as Hm. pose proof (Inv_Mid _ _ _ HI) as HM.
  assert (Hd : ¬ dormant s1 i) by (unfold dormant; congruence).
  assert (Hv : 0 ≤ v < 16).
  { subst v. destruct (Z.eqb_spec tskpri TPRI_INI) as [He|He]; [by apply (mi_ipri _ _ _ Hm)|].
    unfold VALID_TPRI, INT_PRIORITY, u32, TMIN_TPRI, TMAX_TPRI in *. rewrite orb_false_r in Hchk1. rewrite Z.mod_small; lia. }
  destruct (check_ceilings_ok g s1 i v (m_k _ _ _ HM) (m_settled _ _ _ HM)) as (viol & E & Hc).
  eapply wp_RET; [exact E|]. destruct viol; [svc_ret|]. specialize (Hc eq_refl).
  pose proof (set_base_ok g s1 i v HM Hd Hv Hc) as HB. cbv zeta in HB.
  eapply (wp_RET _ _ _ _ _ () (with_bpri i v s1)); [reflexivity|]. apply wp_bind. unfold kget at 1.
  destruct (no_free _ || _).
  - destruct HB as (b & s2 & E2 & HP). eapply wp_RET; [exact E2|].
    eapply progress_dispatch; [exact HI|exact Hin|exact Ht|exact HP|intros; svc_ret].
  - change (ret ()) with (if false then dispatch else ret ()).
    eapply progress_dispatch; [exact HI|exact Hin|exact Ht|exact HB|intros; svc_ret].
Qed.
End calls.
End task_manage.
