(* ===== verification/TaskSync.v ===== *)
(** * Task synchronization service calls (kernel/task_sync.c) *)

From S2P Require Import Prelude Queue Data Kmonad TimeEvent Task Wait Core Release Service Transit Object Kmm Mutex TaskManage.
Open Scope Z_scope.

Section task_sync.
Context {cfg : Config}.
Implicit Types (tskid tmout dlytim : Z) (i : nat).

Definition set_wupque i (b : bool) : K () := upd (upd_tcb i (fun T => T <| wupque := b |>)).

Definition slp_tsk : K Z :=
  ! CHECK_DISPATCH ;;
  lock_cpu ;;;
  ercd <- (get s;; the t := p_runtsk s ;;
    if wupque (tcb_table s t) then set_wupque t false ;;; ret E_OK
    else
      winfo <- new_winfo ;;
      get s;; the t := p_runtsk s ;;
      set_tstat t (Z.lor TS_WAITING TS_WAIT_SLP) ;;;
      make_wait winfo ;;;
      dispatch ;;;
      get_wercd winfo) ;;
  unlock_cpu ;;;
  ret ercd.

Definition tslp_tsk tmout : K Z :=
  ! CHECK_DISPATCH ;;
  ! CHECK_TMOUT tmout ;;
  lock_cpu ;;;
  ercd <- (get s;; the t := p_runtsk s ;;
    if wupque (tcb_table s t) then set_wupque t false ;;; ret E_OK
    else if tmout =? TMO_POL then ret E_TMOUT
    else
      winfo <- new_winfo ;;
      get s;; the t := p_runtsk s ;;
      set_tstat t (Z.lor TS_WAITING TS_WAIT_SLP) ;;;
      make_wait_tmout winfo tmout ;;;
      dispatch ;;;
      get_wercd winfo) ;;
  unlock_cpu ;;;
  ret ercd.

Definition wup_tsk tskid : K Z :=
  ! CHECK_TSKCTX_UNL ;;
  ! CHECK_TSKID_SELF tskid ;;
  get_tcb_self tskid (fun i =>
  lock_cpu ;;;
  ercd <- (get s;;
    if tsk_noexs s i then ret E_NOEXS
    else if TSTAT_DORMANT (tstat (tcb_table s i)) then ret E_OBJ
    else if TSTAT_WAIT_SLP (tstat (tcb_table s i)) then
      b <- wait_complete i ;;
      (if b : bool then dispatch else ret ()) ;;;
      ret E_OK
    else if negb (wupque (tcb_table s i)) then set_wupque i true ;;; ret E_OK
    else ret E_QOVR) ;;
  unlock_cpu ;;;
  ret ercd).

Definition iwup_tsk tskid : K Z :=
  ! CHECK_INTCTX_UNL ;;
  ! CHECK_TSKID tskid ;;
  let i := INDEX tskid in
  lock_cpu ;;;
  ercd <- (get s;;
    if tsk_noexs s i then ret E_NOEXS
    else if TSTAT_DORMANT (tstat (tcb_table s i)) then ret E_OBJ
    else if TSTAT_WAIT_SLP (tstat (tcb_table s i)) then
      b <- wait_complete i ;;
      (if b : bool then set_reqflg true else ret ()) ;;;
      ret E_OK
    else if negb (wupque (tcb_table s i)) then set_wupque i true ;;; ret E_OK
    else ret E_QOVR) ;;
  unlock_cpu ;;;
  ret ercd.

Definition can_wup tskid : K Z :=
  ! CHECK_TSKCTX_UNL ;;
  ! CHECK_TSKID_SELF tskid ;;
  get_tcb_self tskid (fun i =>
  lock_cpu ;;;
  ercd <- (get s;;
    if tsk_noexs s i then ret E_NOEXS
    else if TSTAT_DORMANT (tstat (tcb_table s i)) then ret E_OBJ
    else
      set_wupque i false ;;;
      ret (if wupque (tcb_table s i) then 1 else 0)) ;;
  unlock_cpu ;;;
  ret ercd).

Definition rel_wai tskid : K Z :=
  ! CHECK_TSKCTX_UNL ;;
  ! CHECK_TSKID tskid ;;
  let i := INDEX tskid in
  lock_cpu ;;;
  ercd <- (get s;;
    if tsk_noexs s i then ret E_NOEXS
    else if negb (TSTAT_WAITING (tstat (tcb_table s i))) then ret E_OBJ
    else
      b <- wait_release i ;;
      (if b : bool then dispatch else ret ()) ;;;
      ret E_OK) ;;
  unlock_cpu ;;;
  ret ercd.

Definition irel_wai tskid : K Z :=
  ! CHECK_INTCTX_UNL ;;
  ! CHECK_TSKID tskid ;;
  let i := INDEX tskid in
  lock_cpu ;;;
  ercd <- (get s;;
    if tsk_noexs s i then ret E_NOEXS
    else if negb (TSTAT_WAITING (tstat (tcb_table s i))) then ret E_OBJ
    else
      b <- wait_release i ;;
      (if b : bool then set_reqflg true else ret ()) ;;;
      ret E_OK) ;;
  unlock_cpu ;;;
  ret ercd.

Definition sus_tsk tskid : K Z :=
  ! CHECK_TSKCTX_UNL ;;
  ! CHECK_TSKID_SELF tskid ;;
  get_tcb_self tskid (fun i =>
  lock_cpu ;;;
  ercd <- (get s;;
    if bool_decide (Some i = p_runtsk s) && negb (dspflg s) then ret E_CTX
    else if tsk_noexs s i then ret E_NOEXS
    else if TSTAT_DORMANT (tstat (tcb_table s i)) then ret E_OBJ
    else if TSTAT_RUNNABLE (tstat (tcb_table s i)) then
      set_tstat i TS_SUSPENDED ;;;
      b <- make_non_runnable i ;;
      (if b : bool then dispatch else ret ()) ;;;
      ret E_OK
    else if TSTAT_SUSPENDED (tstat (tcb_table s i)) then ret E_QOVR
    else
      set_tstat i (Z.lor (tstat (tcb_table s i)) TS_SUSPENDED) ;;;
      ret E_OK) ;;
  unlock_cpu ;;;
  ret ercd).

Definition rsm_tsk tskid : K Z :=
  ! CHECK_TSKCTX_UNL ;;
  ! CHECK_TSKID tskid ;;
  let i := INDEX tskid in
  lock_cpu ;;;
  ercd <- (get s;;
    if tsk_noexs s i then ret E_NOEXS
    else if negb (TSTAT_SUSPENDED (tstat (tcb_table s i))) then ret E_OBJ
    else if negb (TSTAT_WAITING (tstat (tcb_table s i))) then
      set_tstat i TS_RUNNABLE ;;;
      b <- make_runnable i ;;
      (if b : bool then dispatch else ret ()) ;;;
      ret E_OK
    else
      set_tstat i (Z.land (tstat (tcb_table s i)) (u32 (Z.lnot TS_SUSPENDED))) ;;;
      ret E_OK) ;;
  unlock_cpu ;;;
  ret ercd.

Definition dly_tsk dlytim : K Z :=
  ! CHECK_DISPATCH ;;
  ! CHECK_PAR (dlytim <=? TMAX_RELTIM) ;;
  lock_cpu ;;;
  ercd <- (
    winfo <- new_winfo ;;
    get s;; the t := p_runtsk s ;;
    set_tstat t (Z.lor TS_WAITING TS_WAIT_DLY) ;;;
    make_non_runnable t ;;;
    upd (upd_tcb t (fun T => T <| p_winfo := Some winfo |>)) ;;;
    set_winfo winfo (P_TMEVTB (Some (TM_TSK winfo))) ;;;
    tmevtb_enqueue (TM_TSK winfo) dlytim wait_tmout_ok_cb t ;;;
    dispatch ;;;
    get_wercd winfo) ;;
  unlock_cpu ;;;
  ret ercd.

(** ** Proofs *)

Section calls.
Context (OInv : State → Prop) `{!Objects OInv}.
Notation WP := (wp (rely OInv) (guar OInv)).
Notation Inv := (Inv OInv).
Notation OK := (OK OInv).

Lemma plain_wupque (b : bool) : plain (fun T => T <| wupque := b |>).
Proof. done. Qed.

Lemma set_wupque_ok g s i b :
  Inv g s → ∃ s', set_wupque i b s = RET () s' ∧ Inv g s' ∧ var s' = var s ∧ cpu s' = cpu s.
Proof.
  intros HI. eexists. split; [reflexivity|]. split; [|done]. by apply plain_Inv.
Qed.

Lemma set_wupque_task {A} g s t i b (a : A) :
  Inv g s → in_task t s → WP (fun _ s' => OK s' ∧ in_task t s') ((set_wupque i b ;;; ret a) s).
Proof.
  intros HI Hin. destruct (set_wupque_ok g s i b HI) as (s' & E & HI' & Hv & Hc).
  eapply wp_RET; [exact E|]. split; [by exists g|by eapply in_task_same].
Qed.

Lemma set_wupque_int {A} g s i b (a : A) :
  Inv g s → in_int s → WP (fun _ s' => OK s' ∧ in_int s') ((set_wupque i b ;;; ret a) s).
Proof.
  intros HI Hin. destruct (set_wupque_ok g s i b HI) as (s' & E & HI' & Hv & Hc).
  eapply wp_RET; [exact E|]. split; [by exists g|by eapply in_int_same].
Qed.

Lemma slp_tsk_ok : call_ok OInv slp_tsk.
Proof.
  intros s HOK. unfold slp_tsk. task_call g t s1 HI Hin Ht Hd. pose proof Hin as (_ & _ & Hrun).
  rewrite Hrun; simpl. destruct (wupque (tcb_table s1 t)); [by apply (set_wupque_task g)|].
  destruct (new_winfo_ok OInv g s1 t HI Hin Ht) as (s2 & w & E & Hsl & _); [congruence|].
  eapply wp_RET; [exact E|]. apply (slp_sleep_ok OInv g s2 t w); [done|].
  intros s3 HOK3 Hin3 Hw. apply get_wercd_ok; [done|]. by split.
Qed.

Lemma tslp_tsk_ok tmout : tmout ≤ TMAX_RELTIM → call_ok OInv (tslp_tsk tmout).
Proof.
  intros Hmax s HOK. unfold tslp_tsk. task_call g t s1 HI Hin Ht Hd. pose proof Hin as (_ & _ & Hrun).
  rewrite Hrun; simpl. destruct (wupque (tcb_table s1 t)); [by apply (set_wupque_task g)|].
  destruct (Z.eqb_spec tmout TMO_POL) as [Hp|Hp]; [svc_ret|].
  destruct (new_winfo_ok OInv g s1 t HI Hin Ht) as (s2 & w & E & Hsl & _); [congruence|].
  eapply wp_RET; [exact E|].
  apply (slp_sleep_tmout_ok OInv g s2 t w tmout); [done|unfold TMO_FEVR in *; lia|done|].
  intros s3 HOK3 Hin3 Hw. apply get_wercd_ok; [done|]. by split.
Qed.

Lemma dly_tsk_ok dlytim : call_ok OInv (dly_tsk dlytim).
Proof.
  intros s HOK. unfold dly_tsk. task_call g t s1 HI Hin Ht Hd.
  destruct (new_winfo_ok OInv g s1 t HI Hin Ht) as (s2 & w & E & Hsl & _); [congruence|].
  eapply wp_RET; [exact E|]. pose proof Hsl as [HI2 Hin2 Ht2 Hd2 Hw2 Hfree2]. pose proof Hin2 as (_ & _ & Hrun).
  cbv beta. rewrite Hrun. unfold deref.
  destruct (make_delay_asleep g s2 t w dlytim (i_k _ _ _ HI2) Ht2 Hrun Hfree2) as (s3 & E3 & Has); [lia|].
  change (Z.lor TS_WAITING TS_WAIT_DLY) with (enc (Waiting w DLY false NoTimer)).
  rewrite (seq5_RET _ _ _ _ _ _ _ _ E3).
  eapply (sleep_plain_ok OInv g s2 t w DLY Timer); [exact Hsl|exact Has|done..|].
  intros s4 HOK4 Hin4 Hw. apply get_wercd_ok; [done|]. by split.
Qed.

Lemma wup_tsk_ok tskid : call_ok OInv (wup_tsk tskid).
Proof.
  intros s HOK. unfold wup_tsk. self_call i g t s1 HI Hin Ht Hd. pose proof (i_k _ _ _ HI) as HK.
  destruct (tsk_noexs s1 i); [svc_ret|]. destruct (TSTAT_DORMANT _); [svc_ret|].
  rewrite (k_tstat _ _ HK), enc_slp by apply HK.
  destruct (negb (wupque (tcb_table s1 i))) eqn:Hw.
  1: destruct (g i) as [| | | |w [] susp tmr] eqn:Hg; try by apply (set_wupque_task g).
  2: destruct (g i) as [| | | |w [] susp tmr] eqn:Hg; try svc_ret.
  all: destruct (wait_complete_ok g s1 i w SLP susp tmr HK Hg) as (b & s2 & E & HR);
    [done|by eapply settled_timer, Hg; apply HI|].
  all: eapply wp_RET; [exact E|]; apply wp_bind;
    eapply progress_dispatch; [done..|by eapply released_progress|]; intros s3 H3 H4; svc_ret.
Qed.

Lemma iwup_tsk_ok tskid : call_ok OInv (iwup_tsk tskid).
Proof.
  intros s HOK. unfold iwup_tsk. int_call g s1 HI Hin. set (i := INDEX tskid). pose proof (i_k _ _ _ HI) as HK.
  destruct (tsk_noexs s1 i); [svc_ret|]. destruct (TSTAT_DORMANT _); [svc_ret|].
  rewrite (k_tstat _ _ HK), enc_slp by apply HK.
  destruct (negb (wupque (tcb_table s1 i))) eqn:Hw.
  1: destruct (g i) as [| | | |w [] susp tmr] eqn:Hg; try by apply (set_wupque_int g).
  2: destruct (g i) as [| | | |w [] susp tmr] eqn:Hg; try svc_ret.
  all: destruct (wait_complete_ok g s1 i w SLP susp tmr HK Hg) as (b & s2 & E & HR);
    [done|by eapply settled_timer, Hg; apply HI|].
  all: eapply wp_RET; [exact E|]; apply wp_bind;
    eapply progress_reqflg; [done..|by eapply released_progress|]; intros s3 H3 H4; svc_ret.
Qed.

Lemma can_wup_ok tskid : call_ok OInv (can_wup tskid).
Proof.
  intros s HOK. unfold can_wup. self_call i g t s1 HI Hin Ht Hd.
  destruct (tsk_noexs s1 i); [svc_ret|]. destruct (TSTAT_DORMANT _); [svc_ret|].
  by apply (set_wupque_task g).
Qed.

(** A forced release, from a state in which [i] waits. *)
Lemma release_ok g s i :
  Inv g s → TSTAT_WAITING (tstat (tcb_table s i)) = true →
  ∃ b s', wait_release i s = RET b s' ∧ progress OInv g s b s'.
Proof.
  intros HI Hw. pose proof (i_k _ _ _ HI) as HK.
  rewrite (k_tstat _ _ HK), enc_waiting in Hw by apply HK.
  destruct (g i) as [| | | |w c susp tmr] eqn:Hg; try done.
  destruct (wait_release_ok g s i w c susp tmr HK Hg) as (b & s2 & E & HR).
  - intros q ->. specialize (i_settled _ _ _ HI i). by rewrite Hg.
  - eapply settled_timer, Hg; apply HI.
  - exists b, s2. split; [done|]. by eapply released_progress.
Qed.

Lemma rel_wai_ok tskid : call_ok OInv (rel_wai tskid).
Proof.
  intros s HOK. unfold rel_wai. task_call g t s1 HI Hin Ht Hd. set (i := INDEX tskid).
  destruct (tsk_noexs s1 i); [svc_ret|]. destruct (TSTAT_WAITING (tstat (tcb_table s1 i))) eqn:Hw; [|svc_ret].
  destruct (release_ok g s1 i HI Hw) as (b & s2 & E & Hp). simpl.
  eapply wp_RET; [exact E|]. apply wp_bind. eapply progress_dispatch; [done..|]. intros s3 H3 H4. svc_ret.
Qed.

Lemma irel_wai_ok tskid : call_ok OInv (irel_wai tskid).
Proof.
  intros s HOK. unfold irel_wai. int_call g s1 HI Hin. set (i := INDEX tskid).
  destruct (tsk_noexs s1 i); [svc_ret|]. destruct (TSTAT_WAITING (tstat (tcb_table s1 i))) eqn:Hw; [|svc_ret].
  destruct (release_ok g s1 i HI Hw) as (b & s2 & E & Hp). simpl.
  eapply wp_RET; [exact E|]. apply wp_bind. eapply progress_reqflg; [done..|]. intros s3 H3 H4. svc_ret.
Qed.

(** Suspending a task that can run: the running task is switched away from. *)
Lemma suspend_dispatch {A} g s t i (a : A) :
  Inv g s → in_task t s → g t = Runnable → g i = Runnable → (i = t → dspflg s = true) →
  WP (fun _ s' => OK s' ∧ in_task t s') ((set_tstat i TS_SUSPENDED ;;;
    b <- make_non_runnable i ;; (if b : bool then dispatch else ret ()) ;;; ret a) s).
Proof.
  intros HI Hin Ht Hi Hself.
  destruct (suspend_ready_ok OInv g s i HI Hi) as (b & s2 & E & HM & Hv & Hc & [W1 W2] & Hb).
  rewrite (bind2_RET _ _ _ _ _ _ E).
  pose proof (in_task_same _ _ _ Hin Hv Hc) as Hin2. destruct b.
  - apply wp_bind. eapply (dispatch_ok OInv s2 t); [by eexists|done|rewrite Hv; auto|].
    intros s3 H3 H4 _ _. by split.
  - split; [|done]. exists (<[i := Suspended]> g).
    destruct (decide (i = t)) as [->|Hne].
    + exfalso. specialize (Hself eq_refl). destruct (i_disp _ _ _ HI Hself) as [Hs|[Hx _]].
      * rewrite (proj2 (proj2 Hin)) in Hs. by specialize (Hb Hs Hself).
      * by rewrite (proj1 Hin) in Hx.
    + eapply (Inv_no_dispatch OInv g _ s s2 t); try done; [by rewrite fn_lookup_insert_ne|auto].
Qed.

Lemma sus_tsk_ok tskid : call_ok OInv (sus_tsk tskid).
Proof.
  intros s HOK. unfold sus_tsk. self_call i g t s1 HI Hin Ht Hd. pose proof (i_k _ _ _ HI) as HK.
  destruct (bool_decide (Some i = p_runtsk s1) && negb (dspflg s1)) eqn:Hself; [svc_ret|].
  destruct (tsk_noexs s1 i); [svc_ret|].
  rewrite (k_tstat _ _ HK), enc_dormant, enc_runnable, enc_suspended by apply HK.
  destruct (g i) as [| | | |w c susp tmr] eqn:Hg; simpl.
  - svc_ret.
  - eapply suspend_dispatch; [done..|].
    intros ->. rewrite (proj2 (proj2 Hin)), bool_decide_true in Hself by done.
    by apply negb_false_iff in Hself.
  - pose proof (i_settled _ _ _ HI i) as Hx. by rewrite Hg in Hx.
  - svc_ret.
  - destruct susp; [svc_ret|].
    destruct (suspend_waiting_ok OInv g s1 i w c false true tmr HI Hg) as [HI2 _].
    eapply wp_RET; [reflexivity|]. split; [|done]. eexists.
    replace (Z.lor (Z.lor (Z.lor TS_WAITING (cause_code c)) 0) TS_SUSPENDED) with (enc (Waiting w c true tmr)); [exact HI2|].
    simpl. by rewrite Z.lor_0_r.
Qed.

Lemma unsuspend_enc w c tmr :
  cause_wf c → Z.land (enc (Waiting w c true tmr)) (u32 (Z.lnot TS_SUSPENDED)) = enc (Waiting w c false tmr).
Proof. destruct c as [| |[]|[]]; done. Qed.

Lemma rsm_tsk_ok tskid : call_ok OInv (rsm_tsk tskid).
Proof.
  intros s HOK. unfold rsm_tsk. task_call g t s1 HI Hin Ht Hd. set (i := INDEX tskid).
  pose proof (i_k _ _ _ HI) as HK. destruct (tsk_noexs s1 i); [svc_ret|].
  rewrite (k_tstat _ _ HK), enc_waiting, enc_suspended by apply HK.
  destruct (g i) as [| | | |w c [] tmr] eqn:Hg; cbn [is_suspended is_waiting negb]; try svc_ret.
  - destruct (resume_ok OInv g s1 i HI Hg) as (b & s2 & E & Hp).
    rewrite (bind2_RET _ _ _ _ _ _ E). apply wp_bind.
    eapply progress_dispatch; [done..|]. intros s3 H3 H4. svc_ret.
  - destruct (suspend_waiting_ok OInv g s1 i w c true false tmr HI Hg) as [HI2 _].
    pose proof (k_wf _ _ HK i) as Hwf. rewrite Hg in Hwf.
    rewrite unsuspend_enc by exact Hwf. eapply wp_RET; [reflexivity|]. split; [by eexists|done].
Qed.
End calls.
End task_sync.
