(* ===== verification/TaskExcept.v ===== *)
(** * Task exception handling (kernel/task_except.c)

    [rounds] bounds the calls of the user's routine in [call_texrtn]. *)

From S2P Require Import Prelude Queue Data Kmonad TimeEvent Task Wait Core Release Service Transit Object Kmm Mutex TaskManage.
Open Scope Z_scope.

Record T_DTEX := mkT_DTEX { d_texatr : Z; d_texrtn : Z }.
Record T_RTEX := mkT_RTEX { r_texstat : Z; r_pndptn : Z }.

Section task_except.
Context {cfg : Config}.
Implicit Types (tskid rasptn : Z) (i rounds : nat).

Definition set_enatex i (b : bool) : K () := upd (upd_tcb i (fun T => T <| enatex := b |>)).
Definition set_texptn i (v : Z) : K () := upd (upd_tcb i (fun T => T <| texptn := v |>)).

Definition def_tex tskid (pk_dtex : T_DTEX) : K Z :=
  ! CHECK_TSKCTX_UNL ;;
  ! CHECK_TSKID_SELF tskid ;;
  ! CHECK_RSATR (d_texatr pk_dtex) TA_NULL ;;
  ! CHECK_PAR ((d_texrtn pk_dtex =? 0) || FUNC_ALIGNED (d_texrtn pk_dtex)) ;;
  ! CHECK_PAR ((d_texrtn pk_dtex =? 0) || FUNC_NONNULL (d_texrtn pk_dtex)) ;;
  get_tcb_self tskid (fun i =>
  lock_cpu ;;;
  ercd <- (get s;;
    let T := tcb_table s i in
    if tsk_noexs s i then ret E_NOEXS
    else if tmax_stskid <? IDOF i then
      if negb (d_texrtn pk_dtex =? 0) then
        if negb (texrtn (p_tinib T) =? 0) then ret E_OBJ
        else
          upd_tinib i (fun I => I <| texatr := d_texatr pk_dtex |>) ;;;
          upd_tinib i (fun I => I <| texrtn := d_texrtn pk_dtex |>) ;;;
          ret E_OK
      else
        if negb (texrtn (p_tinib T) =? 0) then
          upd_tinib i (fun I => I <| texrtn := 0 |>) ;;;
          set_enatex i false ;;;
          set_texptn i 0 ;;;
          ret E_OK
        else ret E_OBJ
    else ret E_OBJ) ;;
  unlock_cpu ;;;
  ret ercd).

Definition ras_tex rounds tskid rasptn : K Z :=
  ! CHECK_TSKCTX_UNL ;;
  ! CHECK_TSKID_SELF tskid ;;
  ! CHECK_PAR (negb (rasptn =? 0)) ;;
  get_tcb_self tskid (fun i =>
  lock_cpu ;;;
  ercd <- (get s;;
    if tsk_noexs s i then ret E_NOEXS
    else if TSTAT_DORMANT (tstat (tcb_table s i)) || (texrtn (p_tinib (tcb_table s i)) =? 0)
    then ret E_OBJ
    else
      set_texptn i (Z.lor (texptn (tcb_table s i)) rasptn) ;;;
      (get s;;
       if bool_decide (p_runtsk s = Some i) && enatex (tcb_table s i) && ipmflg s
       then call_texrtn rounds else ret ()) ;;;
      ret E_OK) ;;
  unlock_cpu ;;;
  ret ercd).

Definition iras_tex tskid rasptn : K Z :=
  ! CHECK_INTCTX_UNL ;;
  ! CHECK_TSKID tskid ;;
  ! CHECK_PAR (negb (rasptn =? 0)) ;;
  let i := INDEX tskid in
  lock_cpu ;;;
  ercd <- (get s;;
    if tsk_noexs s i then ret E_NOEXS
    else if TSTAT_DORMANT (tstat (tcb_table s i)) || (texrtn (p_tinib (tcb_table s i)) =? 0)
    then ret E_OBJ
    else
      set_texptn i (Z.lor (texptn (tcb_table s i)) rasptn) ;;;
      (get s;;
       if bool_decide (p_runtsk s = Some i) && enatex (tcb_table s i) && ipmflg s
       then set_reqflg true else ret ()) ;;;
      ret E_OK) ;;
  unlock_cpu ;;;
  ret ercd.

Definition dis_tex : K Z :=
  ! CHECK_TSKCTX_UNL ;;
  lock_cpu ;;;
  ercd <- (get s;; the t := p_runtsk s ;;
    if texrtn (p_tinib (tcb_table s t)) =? 0 then ret E_OBJ
    else set_enatex t false ;;; ret E_OK) ;;
  unlock_cpu ;;;
  ret ercd.

Definition ena_tex rounds : K Z :=
  ! CHECK_TSKCTX_UNL ;;
  lock_cpu ;;;
  ercd <- (get s;; the t := p_runtsk s ;;
    if texrtn (p_tinib (tcb_table s t)) =? 0 then ret E_OBJ
    else
      set_enatex t true ;;;
      (get s;;
       if negb (texptn (tcb_table s t) =? 0) && ipmflg s then call_texrtn rounds else ret ()) ;;;
      ret E_OK) ;;
  unlock_cpu ;;;
  ret ercd.

Definition sns_tex : K bool :=
  get s;;
  ret (match p_runtsk s with Some t => negb (enatex (tcb_table s t)) | None => true end).

Definition ref_tex tskid : K (Z * option T_RTEX) :=
  ! CHECK_TSKCTX_UNL ;;
  ! CHECK_TSKID_SELF tskid ;;
  get_tcb_self tskid (fun i =>
  lock_cpu ;;;
  r <- (get s;;
    if tsk_noexs s i then ret (E_NOEXS, None)
    else if TSTAT_DORMANT (tstat (tcb_table s i)) || (texrtn (p_tinib (tcb_table s i)) =? 0)
    then ret (E_OBJ, None)
    else ret (E_OK, Some (mkT_RTEX
      (if enatex (tcb_table s i) then TTEX_ENA else TTEX_DIS) (texptn (tcb_table s i))))) ;;
  unlock_cpu ;;;
  ret r).

(** ** Proofs *)

Section calls.
Context (OInv : State → Prop) `{!Objects OInv} `{!TaskComponent OInv mtx_inv mtx_own mtx_only}.
Notation WP := (wp (rely OInv) (guar OInv)).
Notation Inv := (Inv OInv).
Notation OK := (OK OInv).

(** The exception routine of a task may change, not its base priority. *)
Lemma tinib_Inv g s i f :
  Inv g s → (∀ I, tskatr (f I) = tskatr I ∧ ipriority (f I) = ipriority I) →
  Inv g (upd_tcb i (fun T => T <| p_tinib ::= f |>) s).
Proof. intros HI Hf. apply (quiet_Inv OInv); [exact HI|]. intros T. destruct (Hf (p_tinib T)). by split_and!. Qed.

Lemma ras_tex_ok rounds tskid rasptn : call_ok OInv (ras_tex rounds tskid rasptn).
Proof.
  intros s HOK. unfold ras_tex. self_call i g t s1 HI Hin Ht Hd.
  destruct (tsk_noexs s1 i); [svc_ret|]. case_match; [svc_ret|].
  eapply wp_RET; [reflexivity|]. set (s2 := upd_tcb i _ s1).
  assert (HI2 : Inv g s2) by (by apply (plain_Inv OInv); [apply plain_texptn|]).
  apply wp_bind. case_match.
  - eapply (call_texrtn_ok OInv rounds t); [by exists g|exact Hin|]. intros s3 H3 H4. svc_ret.
  - split; [by exists g|exact Hin].
Qed.

(** Asking for a dispatch that is not due is harmless. *)
Lemma Inv_reqflg g s : Inv g s → in_int s → Inv g (upd_var (fun v => v <| v_reqflg := true |>) s).
Proof.
  intros HI [Hc Hl]. destruct (Mid_var OInv g s (fun v => v <| v_reqflg := true |>) (Inv_Mid _ _ _ HI)) as [M1 M2 M3].
  split; [exact M1|exact M2|exact M3| |].
  - unfold ctx_ok, sense_context in *. simpl. congruence.
  - intros _. right. split; [exact Hc|done].
Qed.

Lemma iras_tex_ok tskid rasptn : call_ok OInv (iras_tex tskid rasptn).
Proof.
  intros s HOK. unfold iras_tex. int_call g s1 HI Hin. set (i := INDEX tskid).
  destruct (tsk_noexs s1 i); [svc_ret|]. case_match; [svc_ret|].
  eapply wp_RET; [reflexivity|]. set (s2 := upd_tcb i _ s1).
  assert (HI2 : Inv g s2) by (by apply (plain_Inv OInv); [apply plain_texptn|]).
  apply wp_bind. case_match; [|split; [by exists g|exact Hin]].
  split; [|exact Hin]. exists g. by apply Inv_reqflg.
Qed.

Lemma dis_tex_ok : call_ok OInv dis_tex.
Proof.
  intros s HOK. unfold dis_tex. task_call g t s1 HI Hin Ht Hd. rewrite (proj2 (proj2 Hin)). simpl.
  destruct (texrtn _ =? 0); [svc_ret|]. split; [|exact Hin]. exists g. by apply (plain_Inv OInv g s1 t _ (plain_enatex false)).
Qed.

Lemma ena_tex_ok rounds : call_ok OInv (ena_tex rounds).
Proof.
  intros s HOK. unfold ena_tex. task_call g t s1 HI Hin Ht Hd. rewrite (proj2 (proj2 Hin)). simpl.
  destruct (texrtn _ =? 0); [svc_ret|]. eapply wp_RET; [reflexivity|]. set (s2 := upd_tcb t _ s1).
  assert (HI2 : Inv g s2) by (by apply (plain_Inv OInv); [apply plain_enatex|]).
  apply wp_bind. case_match.
  - eapply (call_texrtn_ok OInv rounds t); [by exists g|exact Hin|]. intros s3 H3 H4. svc_ret.
  - split; [by exists g|exact Hin].
Qed.

Lemma ref_tex_ok tskid : call_ok OInv (ref_tex tskid).
Proof. intros s HOK. unfold ref_tex. self_call i g t s1 HI Hin Ht Hd. repeat case_match; svc_ret. Qed.

Lemma def_tex_ok tskid pk : call_ok OInv (def_tex tskid pk).
Proof.
  intros s HOK. unfold def_tex. self_call i g t s1 HI Hin Ht Hd.
  destruct (tsk_noexs s1 i); [svc_ret|]. destruct (tmax_stskid <? IDOF i); [|svc_ret].
  repeat case_match; try svc_ret; (split; [exists g|exact Hin]).
  - apply (tinib_Inv g _ i (fun I => I <| texrtn := d_texrtn pk |>)); [|done].
    by apply (tinib_Inv g s1 i (fun I => I <| texatr := d_texatr pk |>)).
  - apply (plain_Inv OInv g _ i _ (plain_texptn 0)), (plain_Inv OInv g _ i _ (plain_enatex false)).
    by apply (tinib_Inv g s1 i (fun I => I <| texrtn := 0 |>)).
Qed.
End calls.
End task_except.
