(* ===== verification/SysManage.v ===== *)
(** * System state management (kernel/sys_manage.c) *)

From S2P Require Import Prelude Queue Data Kmonad TimeEvent Task Wait Core Release Service Transit Object Mutex.
Open Scope Z_scope.

Section sys_manage.
Context {cfg : Config}.
Implicit Types tskpri : Z.

Definition rot_rdq tskpri : K Z :=
  ! CHECK_TSKCTX_UNL ;;
  ! CHECK_TPRI_SELF tskpri ;;
  lock_cpu ;;;
  ercd <- (
    pri <- (if tskpri =? TPRI_SELF
            then (get s;; the t := p_runtsk s ;; ret (bpriority (tcb_table s t)))
            else ret (INT_PRIORITY tskpri)) ;;
    b <- rotate_ready_queue pri ;;
    (if b : bool then dispatch else ret ()) ;;;
    ret E_OK) ;;
  unlock_cpu ;;;
  ret ercd.

Definition irot_rdq tskpri : K Z :=
  ! CHECK_INTCTX_UNL ;;
  ! CHECK_TPRI tskpri ;;
  lock_cpu ;;;
  ercd <- (
    b <- rotate_ready_queue (INT_PRIORITY tskpri) ;;
    (if b : bool then set_reqflg true else ret ()) ;;;
    ret E_OK) ;;
  unlock_cpu ;;;
  ret ercd.

Definition get_tid : K (Z * option Z) :=
  ! CHECK_TSKCTX_UNL ;;
  lock_cpu ;;;
  r <- (get s;; the t := p_runtsk s ;; ret (E_OK, Some (IDOF t))) ;;
  unlock_cpu ;;;
  ret r.

Definition iget_tid : K (Z * option Z) :=
  ! CHECK_INTCTX_UNL ;;
  lock_cpu ;;;
  r <- (get s;; ret (E_OK, Some (match p_runtsk s with None => TSK_NONE | Some t => IDOF t end))) ;;
  unlock_cpu ;;;
  ret r.

Definition loc_cpu : K Z :=
  ! CHECK_TSKCTX ;;
  (get s;; if negb (sense_lock s) then lock_cpu else ret ()) ;;;
  ret E_OK.

Definition iloc_cpu : K Z :=
  ! CHECK_INTCTX ;;
  (get s;; if negb (sense_lock s) then lock_cpu else ret ()) ;;;
  ret E_OK.

Definition unl_cpu : K Z :=
  ! CHECK_TSKCTX ;;
  (get s;; if sense_lock s then unlock_cpu else ret ()) ;;;
  ret E_OK.

Definition iunl_cpu : K Z :=
  ! CHECK_INTCTX ;;
  (get s;; if sense_lock s then unlock_cpu else ret ()) ;;;
  ret E_OK.

Definition dis_dsp : K Z :=
  ! CHECK_TSKCTX_UNL ;;
  lock_cpu ;;;
  ercd <- (
    set_disdsp true ;;;
    set_dspflg false ;;;
    ret E_OK) ;;
  unlock_cpu ;;;
  ret ercd.

(** [if (p_runtsk != p_schedtsk) dispatch();] *)
Definition dispatch_if_needed : K () :=
  get s;; if negb (bool_decide (p_runtsk s = p_schedtsk s)) then dispatch else ret ().

Definition ena_dsp : K Z :=
  ! CHECK_TSKCTX_UNL ;;
  lock_cpu ;;;
  ercd <- (
    set_disdsp false ;;;
    (get s;;
     if ipmflg s then
       set_dspflg true ;;;
       dispatch_if_needed
     else ret ()) ;;;
    ret E_OK) ;;
  unlock_cpu ;;;
  ret ercd.

Definition sns_ctx : K bool := get s;; ret (sense_context s).
Definition sns_loc : K bool := get s;; ret (sense_lock s).
Definition sns_dsp : K bool := get s;; ret (disdsp s).
Definition sns_dpn : K bool := get s;; ret (sense_context s || sense_lock s || negb (dspflg s)).
Definition sns_ker : K bool := get s;; ret (negb (c_kerflg (cpu s))).

(** ** Proofs *)

Section calls.
Context (OInv : State → Prop) `{!Objects OInv} `{!TaskComponent OInv mtx_inv mtx_own mtx_only}.
Notation WP := (wp (rely OInv) (guar OInv)).
Notation Inv := (Inv OInv).
Notation OK := (OK OInv).
Notation Mid := (Mid OInv).

(** [VALID_TPRI] is the range of priorities. *)
Lemma VALID_TPRI_range p : VALID_TPRI p = true → 0 ≤ INT_PRIORITY p < 16.
Proof.
  unfold VALID_TPRI, INT_PRIORITY, TMIN_TPRI, TMAX_TPRI, u32. intros Hp.
  rewrite Z.mod_small by lia. lia.
Qed.

Lemma get_tid_ok : call_ok OInv get_tid.
Proof.
  intros s HOK. unfold get_tid. task_call g t s1 HI Hin Ht Hd.
  rewrite (proj2 (proj2 Hin)). simpl. split; [by exists g|exact Hin].
Qed.

Lemma iget_tid_ok : call_ok OInv iget_tid.
Proof. intros s HOK. unfold iget_tid. int_call g s1 HI Hin. svc_ret. Qed.

Lemma rotate_call_ok g t s pri :
  Inv g s → in_task t s → g t = Runnable → 0 ≤ pri < 16 →
  WP (fun _ s' => OK s' ∧ in_task t s') ((b <- rotate_ready_queue pri ;; (if b : bool then dispatch else ret ()) ;;; ret E_OK) s).
Proof.
  intros HI Hin Ht Hp. destruct (rotate_ok OInv g s pri (Inv_Mid _ _ _ HI) Hp) as (b & s2 & E & HP).
  rewrite (bind_RET _ _ _ _ _ E). apply wp_bind. eapply progress_dispatch; [exact HI|exact Hin|exact Ht|exact HP|].
  intros s3 H3 H4. svc_ret.
Qed.

Lemma rot_rdq_ok tskpri : call_ok OInv (rot_rdq tskpri).
Proof.
  intros s HOK. unfold rot_rdq. task_call g t s1 HI Hin Ht Hd.
  destruct (Z.eqb_spec tskpri TPRI_SELF) as [->|Hne].
  - eapply wp_RET; [by cbv beta; rewrite (proj2 (proj2 Hin))|].
    eapply rotate_call_ok; [exact HI|exact Hin|exact Ht|].
    apply (mtx_inv_base none none s1 g); [apply HI|apply (kcomp_get s1), HI|by rewrite Ht].
  - eapply wp_RET; [reflexivity|]. eapply rotate_call_ok; [exact HI|exact Hin|exact Ht|].
    apply VALID_TPRI_range. by rewrite orb_false_r in *.
Qed.

Lemma irot_rdq_ok tskpri : call_ok OInv (irot_rdq tskpri).
Proof.
  intros s HOK. unfold irot_rdq. int_call g s1 HI Hin.
  destruct (rotate_ok OInv g s1 (INT_PRIORITY tskpri) (Inv_Mid _ _ _ HI)) as (b & s2 & E & HP).
  { by apply VALID_TPRI_range. }
  rewrite (bind_RET _ _ _ _ _ E). apply wp_bind. eapply (progress_reqflg OInv); [exact HI|exact Hin|exact HP|].
  intros s3 H3 H4. svc_ret.
Qed.

(** The CPU lock is the caller's, or nobody's, from here on. *)
Lemma with_lock_id s : with_lock (sense_lock s) s = s.
Proof. by destruct s as [? ? ? ? ? ? [] ? ?]. Qed.

Lemma lock_calls_eq s :
  loc_cpu s = (if sense_context s then RET E_CTX s else RET E_OK (with_lock true s)) ∧
  iloc_cpu s = (if sense_context s then RET E_OK (with_lock true s) else RET E_CTX s) ∧
  unl_cpu s = (if sense_context s then RET E_CTX s else RET E_OK (with_lock false s)) ∧
  iunl_cpu s = (if sense_context s then RET E_OK (with_lock false s) else RET E_CTX s).
Proof.
  pose proof (with_lock_id s) as E.
  unfold loc_cpu, iloc_cpu, unl_cpu, iunl_cpu, CHECK_TSKCTX, CHECK_INTCTX, check.
  destruct (sense_context s); simpl; unfold bind, kget; destruct (sense_lock s); simpl; by rewrite ?E.
Qed.

Lemma dis_dsp_ok : call_ok OInv dis_dsp.
Proof.
  intros s HOK. unfold dis_dsp. task_call g t s1 HI Hin Ht Hd. simpl.
  split; [|exact Hin]. exists g. apply (Inv_task OInv g _ t); [|exact Hin|exact Ht|done].
  by apply Mid_var, Mid_var, Inv_Mid.
Qed.

(** Where dispatching is enabled again, a dispatch that became due takes
    place. *)
Lemma dispatch_if_needed_ok g s t (Q : () → State → Prop) :
  Mid g s → in_task t s → g t = Runnable → dspflg s = true →
  (∀ s', OK s' → in_task t s' → Q () s') → WP Q (dispatch_if_needed s).
Proof.
  intros HM Hin Ht Hd HQ. unfold dispatch_if_needed, kget.
  apply (dispatch_due_ok OInv g s t); [exact HM|exact Hin|exact Ht|done| |exact HQ].
  intros Hb _. apply negb_false_iff, bool_decide_eq_true in Hb. done.
Qed.

Lemma ena_dsp_ok : call_ok OInv ena_dsp.
Proof.
  intros s HOK. unfold ena_dsp. task_call g t s1 HI Hin Ht Hd.
  eapply wp_RET; [reflexivity|]. set (s2 := upd_var _ s1).
  assert (HM : Mid g s2) by (by apply Mid_var, Inv_Mid). apply wp_bind.
  destruct (ipmflg s2).
  - eapply wp_RET; [reflexivity|].
    eapply (dispatch_if_needed_ok g _ t); [by apply Mid_var|exact Hin|exact Ht|done|].
    intros s3 H3 H4. svc_ret.
  - simpl. split; [|exact Hin]. exists g. apply (Inv_task OInv g s2 t HM Hin Ht).
    intros Hx. destruct (i_disp _ _ _ HI Hx) as [|[Hy _]]; [done|]. by rewrite (proj1 Hin) in Hy.
Qed.
End calls.
End sys_manage.
