(* ===== verification/TaskRefer.v ===== *)
(** * Reference to the state of a task (kernel/task_refer.c) *)

From S2P Require Import Prelude Queue Data Kmonad TimeEvent Task Wait Core Release Service Transit Object Kmm Mutex TaskManage.
Open Scope Z_scope.

(** A field that the call does not write is [None]. *)
Record T_RTSK := mkT_RTSK {
  r_tskstat : Z; r_tskpri : option Z; r_tskbpri : option Z; r_tskwait : option Z;
  r_wobjid : option Z; r_lefttmo : option Z; r_actcnt : Z; r_wupcnt : option Z }.
#[export] Instance eta_T_RTSK : Eta T_RTSK := fun r =>
  mkT_RTSK (r_tskstat r) (r_tskpri r) (r_tskbpri r) (r_tskwait r) (r_wobjid r) (r_lefttmo r)
    (r_actcnt r) (r_wupcnt r).

Section task_refer.
Context {cfg : Config}.
Implicit Types (tskid : Z) (i : nat).

(** [(TMO) x]: TMO has 32 bits and a sign. *)
Definition TMO_of (x : Z) : Z := if x <? 2^31 then x else x - 2^32.

(** [tskstat] of a task that is not dormant. *)
Definition ref_tskstat (s : State) i : Z :=
  let tstat := tstat (tcb_table s i) in
  if TSTAT_SUSPENDED tstat then
    if TSTAT_WAITING tstat then TTS_WAS else TTS_SUS
  else if TSTAT_WAITING tstat then TTS_WAI
  else if bool_decide (Some i = p_runtsk s) then TTS_RUN
  else TTS_RDY.

(** The switch on the cause of the wait: [tskwait], and [wobjid] of the object
    the WINFO points to. *)
Definition ref_tskwait (s : State) (tstat : Z) (p_wobj : option qid) : option (option Z * option Z) :=
  let cause := Z.land tstat TS_WAIT_MASK in
  let obj (tskwait : Z) (idx : qid → option nat) :=
    match p_wobj with
    | Some q => match idx q with Some i => Some (Some tskwait, Some (IDOF i)) | None => None end
    | None => None
    end in
  let dtq q := match q with SDTQ i => Some i | _ => None end in
  let pdq q := match q with SPDQ i => Some i | _ => None end in
  if cause =? TS_WAIT_SLP then Some (Some TTW_SLP, None)
  else if cause =? TS_WAIT_DLY then Some (Some TTW_DLY, None)
  else if cause =? TS_WAIT_SEM then obj TTW_SEM (fun q => match q with SEMQ i => Some i | _ => None end)
  else if cause =? TS_WAIT_FLG then obj TTW_FLG (fun q => match q with FLGQ i => Some i | _ => None end)
  else if cause =? TS_WAIT_SDTQ then obj TTW_SDTQ dtq
  else if cause =? TS_WAIT_RDTQ then obj TTW_RDTQ dtq
  else if cause =? TS_WAIT_SPDQ then obj TTW_SPDQ pdq
  else if cause =? TS_WAIT_RPDQ then obj TTW_RPDQ pdq
  else if cause =? TS_WAIT_MBX then obj TTW_MBX (fun q => match q with MBXQ i => Some i | _ => None end)
  else if cause =? TS_WAIT_MTX then obj TTW_MTX (fun q => match q with MTXQ i => Some i | _ => None end)
  else if cause =? TS_WAIT_MPF then obj TTW_MPF (fun q => match q with MPFQ i => Some i | _ => None end)
  else Some (None, None).

Definition ref_tsk tskid : K (Z * option T_RTSK) :=
  ! CHECK_TSKCTX_UNL ;;
  ! CHECK_TSKID_SELF tskid ;;
  get_tcb_self tskid (fun i =>
  lock_cpu ;;;
  r <- (get s;;
    let T := tcb_table s i in
    let actcnt := if actque T then 1 else 0 in
    if tsk_noexs s i then ret (E_NOEXS, None)
    else if TSTAT_DORMANT (tstat T) then
      ret (E_OK, Some (mkT_RTSK TTS_DMT None None None None None actcnt None))
    else
      let rtsk := mkT_RTSK (ref_tskstat s i) (Some (EXT_TSKPRI (priority T)))
        (Some (EXT_TSKPRI (bpriority T))) None None None actcnt
        (Some (if wupque T then 1 else 0)) in
      if TSTAT_WAITING (tstat T) then
        the w := p_winfo T ;;
        the r := ref_tskwait s (tstat T) (p_wobjcb (winfos s w)) ;;
        match winfo (winfos s w) with
        | P_TMEVTB p =>
            let lefttmo :=
              match p with Some b => TMO_of (tmevt_lefttim b (tm s)) | None => TMO_FEVR end in
            ret (E_OK, Some (rtsk <| r_tskwait := fst r |> <| r_wobjid := snd r |>
                               <| r_lefttmo := Some lefttmo |>))
        | WERCD _ => undef
        end
      else ret (E_OK, Some rtsk)) ;;
  unlock_cpu ;;;
  ret r).

(** ** Proofs *)

Section calls.
Context (OInv : State → Prop) `{!Objects OInv}.

(** The object a task waits for is of the kind its state says. *)
Lemma ref_tskwait_ok w c susp tmr (s : State) o :
  tst_wf (Waiting w c susp tmr) → (∀ q, c = WOBJ q ∨ c = Detached q → o = Some (wobj_of q)) →
  ∃ r, ref_tskwait s (enc (Waiting w c susp tmr)) o = Some r.
Proof.
  intros Hwf Ho. destruct c as [| |q|q].
  - destruct susp; eexists; reflexivity.
  - destruct susp; eexists; reflexivity.
  - rewrite (Ho q) by (by left). destruct q, susp; try done; eexists; reflexivity.
  - rewrite (Ho q) by (by right). destruct q, susp; try done; eexists; reflexivity.
Qed.

(** In particular none of its reads of a WINFO is of the wrong kind. *)
Lemma ref_tsk_ok tskid : call_ok OInv (ref_tsk tskid).
Proof.
  intros s HOK. unfold ref_tsk. svc_checks; split_ctx; apply (get_tcb_self_ok OInv); [done..|]; intros i.
  task_call g t s1 HI Hin Ht Hd. pose proof (i_k _ _ _ HI) as HK.
  destruct (tsk_noexs s1 i); [svc_ret|]. rewrite !(k_tstat _ _ HK i), enc_waiting by apply HK.
  destruct (TSTAT_DORMANT _); [svc_ret|]. destruct (g i) as [| | | |w c susp tmr] eqn:Hg; try svc_ret.
  destruct (k_wait _ _ HK _ _ _ _ _ Hg) as [W1 W2 W3 W4 W5 W6]. cbn [is_waiting]. unfold deref at 1. rewrite W1.
  pose proof (k_wf _ _ HK i) as Hwf. rewrite Hg in Hwf.
  destruct (ref_tskwait_ok w c susp tmr s1 (p_wobjcb (winfos s1 w)) Hwf W4) as [r ->].
  simpl. rewrite W3. svc_ret.
Qed.
End calls.
End task_refer.
