(* ===== verification/Mempfix.v ===== *)
(** * Fixed-sized memory pools (kernel/mempfix.c, mempfix.h)

    [p_mpfmb] names the management area of a pool; [o_mpfmb (obj s) p k] is
    [(p + k)->next]. *)

From S2P Require Import Prelude Queue Data Kmonad TimeEvent Task Wait Core Release Service Object Kmm.
Open Scope Z_scope.

Record T_CMPF := mkT_CMPF { c_mpfatr : Z; c_blkcnt : Z; c_blksz : Z; c_mpf : Z; c_mpfmb : Z }.
Record T_RMPF := mkT_RMPF { r_mpf_wtskid : Z; r_fblkcnt : Z }.

Section mempfix.
Context {cfg : Config}.
Implicit Types (mpfid blk tmout : Z) (i : nat) (C : MPFCB).

Definition tnum_mpf : nat := tnum tmax_mpfid.
Definition tnum_smpf : nat := tnum tmax_smpfid.
Definition sizeof_MPFMB : Z := 4.
Definition INDEX_NULL : Z := u32 (Z.lnot 0).
Definition INDEX_ALLOC : Z := u32 (Z.lnot 1).

Definition upd_mpf i (f : MPFCB → MPFCB) : K () :=
  upd (upd_obj (fun o => o <| o_mpfcb ::= fun T => <[i := f (T i)]> T |>)).
Definition set_free_mpf (f : list nat → list nat) : K () :=
  upd (upd_obj (fun o => o <| o_free_mpfcb ::= f |>)).
Definition set_mpfatr i (atr : Z) : K () :=
  upd_mpf i (fun C => C <| p_mpfinib ::= fun I => I <| mpfatr := atr |> |>).
(** [(p_mpfmb + k)->next = v]. *)
Definition set_mpfmb (p_mpfmb k v : Z) : K () :=
  upd (upd_obj (fun o => o <| o_mpfmb ::= fun M => <[p_mpfmb := <[k := v]> (M p_mpfmb)]> M |>)).
Definition mpf_reset C : MPFCB :=
  C <| fblkcnt := blkcnt (p_mpfinib C) |> <| mpf_unused := 0 |> <| freelist := INDEX_NULL |>.

Definition initialize_mempfix : K () :=
  kfor (seq 0 tnum_smpf) (fun i =>
    queue_initialize (MPFQ i) ;;;
    upd_mpf i (fun C => C <| p_mpfinib := mpfinib_table i |>) ;;;
    upd_mpf i mpf_reset) ;;;
  set_free_mpf (fun _ => []) ;;;
  kfor (seq tnum_smpf (tnum_mpf - tnum_smpf)) (fun i =>
    set_mpfatr i TA_NOEXS ;;;
    set_free_mpf (fun l => l ++ [i])).

Definition get_mpf_block i : K Z :=
  get s;; let C := mpfcb s i in
  let blkidx := if negb (freelist C =? INDEX_NULL) then freelist C else mpf_unused C in
  upd_mpf i (fun C =>
    if negb (freelist C =? INDEX_NULL)
    then C <| freelist := o_mpfmb (obj s) (p_mpfmb (p_mpfinib C)) blkidx |>
    else C <| mpf_unused := u32 (mpf_unused C + 1) |>) ;;;
  upd_mpf i (fun C => C <| fblkcnt := u32 (fblkcnt C - 1) |>) ;;;
  set_mpfmb (p_mpfmb (p_mpfinib C)) blkidx INDEX_ALLOC ;;;
  ret (mpf (p_mpfinib C) + u32 (blksz (p_mpfinib C) * blkidx)).

Definition acre_mpf (pk_cmpf : T_CMPF) : K Z :=
  ! CHECK_TSKCTX_UNL ;;
  ! CHECK_RSATR (c_mpfatr pk_cmpf) TA_TPRI ;;
  ! CHECK_PAR (negb (c_blkcnt pk_cmpf =? 0)) ;;
  ! CHECK_PAR (negb (c_blksz pk_cmpf =? 0)) ;;
  ! CHECK_PAR ((c_mpf pk_cmpf =? 0) || MPF_ALIGNED (c_mpf pk_cmpf)) ;;
  ! CHECK_PAR ((c_mpfmb pk_cmpf =? 0) || MB_ALIGNED (c_mpfmb pk_cmpf)) ;;
  lock_cpu ;;;
  ercd <- (get s;;
    if (tnum_mpf =? 0)%nat || no_free (o_free_mpfcb (obj s)) then ret E_NOID
    else
      let alloc := c_mpf pk_cmpf =? 0 in
      mpf' <- (if alloc
               then kernel_malloc (u32 (ROUND_MPF_T (c_blksz pk_cmpf) * c_blkcnt pk_cmpf))
               else ret (c_mpf pk_cmpf)) ;;
      let atr := if alloc then Z.lor (c_mpfatr pk_cmpf) TA_MEMALLOC else c_mpfatr pk_cmpf in
      if mpf' =? 0 then ret E_NOMEM
      else
        let mballoc := c_mpfmb pk_cmpf =? 0 in
        mb' <- (if mballoc then kernel_malloc (u32 (sizeof_MPFMB * c_blkcnt pk_cmpf))
                else ret (c_mpfmb pk_cmpf)) ;;
        let atr := if mballoc then Z.lor atr TA_MBALLOC else atr in
        if mb' =? 0 then
          (if alloc then kernel_free mpf' else ret ()) ;;;
          ret E_NOMEM
        else
          i <- take_free o_free_mpfcb set_free_mpf ;;
          upd_mpf i (fun C => C <| p_mpfinib :=
            mkMPFINIB atr (c_blkcnt pk_cmpf) (ROUND_MPF_T (c_blksz pk_cmpf)) mpf' mb' |>) ;;;
          queue_initialize (MPFQ i) ;;;
          upd_mpf i mpf_reset ;;;
          ret (IDOF i)) ;;
  unlock_cpu ;;;
  ret ercd.

Definition del_mpf mpfid : K Z :=
  ! CHECK_TSKCTX_UNL ;;
  ! CHECK_MPFID mpfid ;;
  let i := INDEX mpfid in
  lock_cpu ;;;
  ercd <- (get s;;
    if mpfatr (p_mpfinib (mpfcb s i)) =? TA_NOEXS then ret E_NOEXS
    else if tmax_smpfid <? IDOF i then
      dspreq <- init_wait_queue (MPFQ i) ;;
      get s;; let I := p_mpfinib (mpfcb s i) in
      (if bits (mpfatr I) TA_MEMALLOC then kernel_free (mpf I) else ret ()) ;;;
      (if bits (mpfatr I) TA_MBALLOC then kernel_free (p_mpfmb I) else ret ()) ;;;
      set_mpfatr i TA_NOEXS ;;;
      set_free_mpf (fun l => l ++ [i]) ;;;
      (if dspreq : bool then dispatch else ret ()) ;;;
      ret E_OK
    else ret E_OBJ) ;;
  unlock_cpu ;;;
  ret ercd.

(** The result of a task that has waited for a block. *)
Definition mpf_result w : K (Z * option Z) :=
  ercd <- get_wercd w ;;
  get s;; ret (ercd, if ercd =? E_OK then Some (w_blk (winfos s w)) else None).

Definition get_mpf mpfid : K (Z * option Z) :=
  ! CHECK_DISPATCH ;;
  ! CHECK_MPFID mpfid ;;
  let i := INDEX mpfid in
  lock_cpu ;;;
  r <- (get s;;
    if mpfatr (p_mpfinib (mpfcb s i)) =? TA_NOEXS then ret (E_NOEXS, None)
    else if 0 <? fblkcnt (mpfcb s i) then
      p_blk <- get_mpf_block i ;;
      ret (E_OK, Some p_blk)
    else
      winfo_mpf <- new_winfo ;;
      get s;; the t := p_runtsk s ;;
      set_tstat t (Z.lor TS_WAITING TS_WAIT_MPF) ;;;
      wobj_make_wait (MPFQ i) winfo_mpf ;;;
      dispatch ;;;
      mpf_result winfo_mpf) ;;
  unlock_cpu ;;;
  ret r.

Definition pget_mpf mpfid : K (Z * option Z) :=
  ! CHECK_TSKCTX_UNL ;;
  ! CHECK_MPFID mpfid ;;
  let i := INDEX mpfid in
  lock_cpu ;;;
  r <- (get s;;
    if mpfatr (p_mpfinib (mpfcb s i)) =? TA_NOEXS then ret (E_NOEXS, None)
    else if 0 <? fblkcnt (mpfcb s i) then
      p_blk <- get_mpf_block i ;;
      ret (E_OK, Some p_blk)
    else ret (E_TMOUT, None)) ;;
  unlock_cpu ;;;
  ret r.

Definition tget_mpf mpfid tmout : K (Z * option Z) :=
  ! CHECK_DISPATCH ;;
  ! CHECK_MPFID mpfid ;;
  ! CHECK_TMOUT tmout ;;
  let i := INDEX mpfid in
  lock_cpu ;;;
  r <- (get s;;
    if mpfatr (p_mpfinib (mpfcb s i)) =? TA_NOEXS then ret (E_NOEXS, None)
    else if 0 <? fblkcnt (mpfcb s i) then
      p_blk <- get_mpf_block i ;;
      ret (E_OK, Some p_blk)
    else if tmout =? TMO_POL then ret (E_TMOUT, None)
    else
      winfo_mpf <- new_winfo ;;
      get s;; the t := p_runtsk s ;;
      set_tstat t (Z.lor TS_WAITING TS_WAIT_MPF) ;;;
      wobj_make_wait_tmout (MPFQ i) winfo_mpf tmout ;;;
      dispatch ;;;
      mpf_result winfo_mpf) ;;
  unlock_cpu ;;;
  ret r.

(** The checks of [rel_mpf]: [blk] is an allocated block of the pool. *)
Definition blk_offset C blk : Z := u32 (blk - mpf (p_mpfinib C)).
Definition blk_index C blk : Z := blk_offset C blk / blksz (p_mpfinib C).
Definition blk_valid (s : State) C blk : bool :=
  (mpf (p_mpfinib C) <=? blk)
  && (blk_offset C blk `mod` blksz (p_mpfinib C) =? 0)
  && (blk_offset C blk / blksz (p_mpfinib C) <? mpf_unused C)
  && (o_mpfmb (obj s) (p_mpfmb (p_mpfinib C)) (blk_index C blk) =? INDEX_ALLOC).

(** [((WINFO_MPF * )(p_tcb->p_winfo))->blk = blk]. *)
Definition set_w_blk (p_tcb : nat) blk : K () :=
  get s;; the w := p_winfo (tcb_table s p_tcb) ;;
  upd (upd_winfo w (fun W => W <| w_blk := blk |>)).

Definition rel_mpf mpfid blk : K Z :=
  ! CHECK_TSKCTX_UNL ;;
  ! CHECK_MPFID mpfid ;;
  let i := INDEX mpfid in
  lock_cpu ;;;
  ercd <- (get s;;
    if mpfatr (p_mpfinib (mpfcb s i)) =? TA_NOEXS then ret E_NOEXS
    else if blksz (p_mpfinib (mpfcb s i)) =? 0 then undef   (* division by zero *)
    else
      let blkidx := blk_index (mpfcb s i) blk in
      if negb (blk_valid s (mpfcb s i) blk) then ret E_PAR
      else if negb (queue_empty (MPFQ i) s) then
        p_tcb <- queue_delete_next (MPFQ i) ;;
        set_w_blk p_tcb blk ;;;
        b <- wait_complete p_tcb ;;
        (if b : bool then dispatch else ret ()) ;;;
        ret E_OK
      else
        upd_mpf i (fun C => C <| fblkcnt := u32 (fblkcnt C + 1) |>) ;;;
        set_mpfmb (p_mpfmb (p_mpfinib (mpfcb s i))) blkidx (freelist (mpfcb s i)) ;;;
        upd_mpf i (fun C => C <| freelist := blkidx |>) ;;;
        ret E_OK) ;;
  unlock_cpu ;;;
  ret ercd.

Definition ini_mpf mpfid : K Z :=
  ! CHECK_TSKCTX_UNL ;;
  ! CHECK_MPFID mpfid ;;
  let i := INDEX mpfid in
  lock_cpu ;;;
  ercd <- (get s;;
    if mpfatr (p_mpfinib (mpfcb s i)) =? TA_NOEXS then ret E_NOEXS
    else
      dspreq <- init_wait_queue (MPFQ i) ;;
      upd_mpf i mpf_reset ;;;
      (if dspreq : bool then dispatch else ret ()) ;;;
      ret E_OK) ;;
  unlock_cpu ;;;
  ret ercd.

Definition ref_mpf mpfid : K (Z * option T_RMPF) :=
  ! CHECK_TSKCTX_UNL ;;
  ! CHECK_MPFID mpfid ;;
  let i := INDEX mpfid in
  lock_cpu ;;;
  r <- (get s;;
    if mpfatr (p_mpfinib (mpfcb s i)) =? TA_NOEXS then ret (E_NOEXS, None)
    else ret (E_OK, Some (mkT_RMPF (wait_tskid (MPFQ i) s) (fblkcnt (mpfcb s i))))) ;;
  unlock_cpu ;;;
  ret r.

End mempfix.
