(* ===== verification/MempfixProof.v ===== *)
(** * Fixed-sized memory pools: the proofs

    The free blocks of a pool are the blocks of its free list and the blocks
    never used; [alloc] are the others.  [get_mpf_block] hands out a free
    block, [rel_mpf] takes back exactly what was handed out. *)

From S2P Require Import Prelude Queue Data Kmonad TimeEvent Task Wait Core Release Service Object Kmm Mempfix.
Open Scope Z_scope.

(** ** One pool *)

Section pool.
Context {cfg : Config}.
Implicit Types (C : MPFCB) (M : Z → Z) (L : list Z) (l : list nat).

(** The free list. *)
Fixpoint chain M (a : Z) L : Prop :=
  match L with [] => a = INDEX_NULL | k :: L' => a = k ∧ chain M (M k) L' end.

Definition alloc C M (k : Z) : Prop := 0 ≤ k < mpf_unused C ∧ M k = INDEX_ALLOC.

Record pool_ok C M L : Prop := {
  po_cnt : 1 ≤ blkcnt (p_mpfinib C) ∧ sizeof_MPFMB * blkcnt (p_mpfinib C) < 2^32;
  po_sz : 0 < blksz (p_mpfinib C) ∧ blksz (p_mpfinib C) * blkcnt (p_mpfinib C) < 2^32;
  po_unused : 0 ≤ mpf_unused C ≤ blkcnt (p_mpfinib C);
  po_chain : chain M (freelist C) L;
  po_nodup : NoDup L;
  po_range : ∀ k, k ∈ L → 0 ≤ k < mpf_unused C;
  po_alloc : ∀ k, 0 ≤ k < mpf_unused C → k ∉ L → M k = INDEX_ALLOC;
  po_count : fblkcnt C = Z.of_nat (length L) + (blkcnt (p_mpfinib C) - mpf_unused C) }.

(** Tasks wait only when no block is free. *)
Definition mpf_ok C M l : Prop := (∃ L, pool_ok C M L) ∧ (l ≠ [] → fblkcnt C = 0).

Lemma free_chain_next M a L k : chain M a L → k ∈ L → M k = INDEX_NULL ∨ M k ∈ L.
Proof.
  revert a. induction L as [|x L IH]; intros a; simpl; [by intros _ ?%not_elem_of_nil|].
  intros [-> Hc] [->|Hk]%elem_of_cons.
  - destruct L as [|y L]; simpl in Hc; [by left|]. destruct Hc as [-> _]. right. right. left.
  - destruct (IH _ Hc Hk) as [?|?]; [by left|right; by right].
Qed.

Lemma chain_insert M a L k v : chain M a L → k ∉ L → chain (<[k := v]> M) a L.
Proof.
  revert a. induction L as [|x L IH]; intros a; simpl; [done|].
  intros [-> Hc] Hk. apply not_elem_of_cons in Hk as [Hx Hk]. rewrite fn_lookup_insert_ne by done. by split; [|apply IH].
Qed.

(** What is on the free list is not allocated. *)
Lemma pool_free_not_alloc C M L k : pool_ok C M L → k ∈ L → ¬ alloc C M k.
Proof.
  intros [] Hk [_ Ha]. unfold sizeof_MPFMB in *. destruct (free_chain_next M _ L k po_chain0 Hk) as [Hn|Hn].
  - rewrite Hn in Ha. done.
  - specialize (po_range0 _ Hn). rewrite Ha in po_range0. change INDEX_ALLOC with (2^32 - 2) in *. lia.
Qed.

Lemma pool_length C M L : pool_ok C M L → Z.of_nat (length L) ≤ mpf_unused C.
Proof.
  intros []. assert ((length L ≤ length (seqZ 0 (mpf_unused C)))%nat).
  { apply NoDup_incl_length; [by apply NoDup_ListNoDup|]. intros j Hj%list_elem_of_In%po_range0.
    apply list_elem_of_In, elem_of_seqZ. lia. }
  rewrite length_seqZ in *. lia.
Qed.

Lemma alloc_iff C M L k : pool_ok C M L → alloc C M k ↔ 0 ≤ k < mpf_unused C ∧ k ∉ L.
Proof.
  intros HP. split.
  - intros Ha. split; [apply Ha|]. intros Hk. by eapply pool_free_not_alloc.
  - intros [Hr Hk]. split; [done|]. by apply (po_alloc _ _ _ HP).
Qed.

(** Taking a block. *)
Definition next_block C : Z := if negb (freelist C =? INDEX_NULL) then freelist C else mpf_unused C.
Definition taken C M : MPFCB :=
  (if negb (freelist C =? INDEX_NULL) then C <| freelist := M (next_block C) |>
   else C <| mpf_unused := u32 (mpf_unused C + 1) |>) <| fblkcnt := u32 (fblkcnt C - 1) |>.

Lemma pool_take C M L :
  pool_ok C M L → 0 < fblkcnt C →
  let k := next_block C in
  ∃ L', pool_ok (taken C M) (<[k := INDEX_ALLOC]> M) L' ∧ 0 ≤ k < blkcnt (p_mpfinib C) ∧ ¬ alloc C M k ∧
    ∀ j, alloc (taken C M) (<[k := INDEX_ALLOC]> M) j ↔ alloc C M j ∨ j = k.
Proof.
  intros HP Hf k. pose proof HP as HP'. pose proof (pool_length _ _ _ HP). destruct HP. unfold sizeof_MPFMB in *.
  assert (Hiff : ∀ C' M' L' x, pool_ok C' M' L' → (∀ j, 0 ≤ j < mpf_unused C' ∧ j ∉ L' ↔ (0 ≤ j < mpf_unused C ∧ j ∉ L) ∨ j = x) →
    ∀ j, alloc C' M' j ↔ alloc C M j ∨ j = x).
  { intros C' M' L' x HP'' Hx j. rewrite (alloc_iff _ _ L' j HP''), (alloc_iff _ _ L j HP'). apply Hx. }
  unfold k, taken, next_block in *. destruct L as [|x L]; simpl in po_chain0.
  - rewrite po_chain0. change (INDEX_NULL =? INDEX_NULL) with true. simpl. simpl in po_count0.
    assert (Hu : u32 (mpf_unused C + 1) = mpf_unused C + 1) by (apply Z.mod_small; lia).
    assert (Hc : u32 (fblkcnt C - 1) = fblkcnt C - 1) by (apply Z.mod_small; lia).
    assert (HP1 : pool_ok (C <| mpf_unused := u32 (mpf_unused C + 1) |> <| fblkcnt := u32 (fblkcnt C - 1) |>)
      (<[mpf_unused C := INDEX_ALLOC]> M) []).
    { split; simpl; rewrite ?Hu, ?Hc; try done; try lia.
      - by intros j ?%not_elem_of_nil.
      - intros j Hj _. destruct (decide (j = mpf_unused C)) as [->|Hne]; [by rewrite fn_lookup_insert|].
        rewrite fn_lookup_insert_ne by done. apply po_alloc0; [lia|apply not_elem_of_nil]. }
    exists []. split_and!; [exact HP1|lia|lia|intros [? _]; lia|]. apply (Hiff _ _ [] _ HP1). simpl. rewrite Hu.
    intros j. rewrite !elem_of_nil. lia.
  - destruct po_chain0 as [Hx Hch]. assert (Hr : 0 ≤ x < mpf_unused C) by (apply po_range0; left).
    apply NoDup_cons in po_nodup0 as [Hnx Hnd]. rewrite Hx.
    destruct (Z.eqb_spec x INDEX_NULL) as [->|Hn]; [change INDEX_NULL with (2^32-1) in Hr; lia|]. simpl.
    simpl length in *. assert (Hc : u32 (fblkcnt C - 1) = fblkcnt C - 1) by (apply Z.mod_small; lia).
    assert (HP1 : pool_ok (C <| freelist := M x |> <| fblkcnt := u32 (fblkcnt C - 1) |>) (<[x := INDEX_ALLOC]> M) L).
    { split; simpl; rewrite ?Hc; try done; try lia.
      - by apply chain_insert.
      - intros j Hj. apply po_range0. by right.
      - intros j Hj Hjl. destruct (decide (j = x)) as [->|Hne]; [by rewrite fn_lookup_insert|].
        rewrite fn_lookup_insert_ne by done. apply po_alloc0; [done|]. by apply not_elem_of_cons. }
    exists L. split_and!; [exact HP1|lia|lia| |].
    + apply (pool_free_not_alloc C M (x :: L)); [done|left].
    + apply (Hiff _ _ L _ HP1). simpl. intros j. rewrite elem_of_cons. destruct (decide (j = x)) as [->|]; naive_solver.
Qed.

(** Giving a block back. *)
Lemma pool_put C M L k :
  pool_ok C M L → alloc C M k →
  let C' := C <| fblkcnt := u32 (fblkcnt C + 1) |> <| freelist := k |> in let M' := <[k := freelist C]> M in
  pool_ok C' M' (k :: L) ∧ ∀ j, alloc C' M' j ↔ alloc C M j ∧ j ≠ k.
Proof.
  intros HP Ha C' M'. pose proof HP as HP'. pose proof (pool_length _ _ _ HP). apply (alloc_iff _ _ L k HP) in Ha as [Hr Hk]. destruct HP. unfold sizeof_MPFMB in *.
  assert (Hc : u32 (fblkcnt C + 1) = fblkcnt C + 1) by (apply Z.mod_small; lia).
  assert (HP1 : pool_ok C' M' (k :: L)).
  { unfold C', M'. split; simpl; rewrite ?Hc; try done; try lia.
    - split; [done|]. rewrite fn_lookup_insert. by apply chain_insert.
    - by apply NoDup_cons.
    - intros j [->|Hj]%elem_of_cons; [done|by apply po_range0].
    - intros j Hj [Hne Hjl]%not_elem_of_cons. rewrite fn_lookup_insert_ne by done. by apply po_alloc0. }
  split; [exact HP1|]. intros j. rewrite (alloc_iff _ _ _ j HP1), (alloc_iff _ _ _ j HP'). simpl. rewrite not_elem_of_cons. naive_solver.
Qed.

(** A new pool, and one that is initialized again. *)
Lemma pool_reset C M :
  1 ≤ blkcnt (p_mpfinib C) ∧ sizeof_MPFMB * blkcnt (p_mpfinib C) < 2^32 →
  0 < blksz (p_mpfinib C) ∧ blksz (p_mpfinib C) * blkcnt (p_mpfinib C) < 2^32 → pool_ok (mpf_reset C) M [].
Proof.
  intros H1 H2. split; simpl; try done; try lia; [apply NoDup_nil_2|by intros k ?%not_elem_of_nil].
Qed.

(** The address of a block and back. *)
Definition blk_addr C k : Z := mpf (p_mpfinib C) + u32 (blksz (p_mpfinib C) * k).

Lemma blk_addr_valid s C L k :
  pool_ok C (o_mpfmb (obj s) (p_mpfmb (p_mpfinib C))) L → 0 ≤ k < blkcnt (p_mpfinib C) →
  blk_index C (blk_addr C k) = k ∧
  (blk_valid s C (blk_addr C k) = true ↔ alloc C (o_mpfmb (obj s) (p_mpfmb (p_mpfinib C))) k).
Proof.
  intros [] Hk. unfold blk_valid, blk_index, blk_addr, blk_offset, alloc.
  assert (Hu : u32 (blksz (p_mpfinib C) * k) = blksz (p_mpfinib C) * k) by (apply Z.mod_small; nia).
  rewrite Hu. replace (mpf (p_mpfinib C) + blksz (p_mpfinib C) * k - mpf (p_mpfinib C)) with (blksz (p_mpfinib C) * k) by lia.
  rewrite Hu. assert (Hd : blksz (p_mpfinib C) * k / blksz (p_mpfinib C) = k) by (rewrite Z.mul_comm; apply Z.div_mul; lia).
  rewrite Hd. split; [done|]. rewrite (Z.mul_comm (blksz _)), Z.mod_mul by lia.
  rewrite !andb_true_iff, Z.leb_le, Z.ltb_lt, !Z.eqb_eq. nia.
Qed.

(** What the tests of [rel_mpf] accept is allocated. *)
Lemma blk_valid_alloc s C L blk :
  pool_ok C (o_mpfmb (obj s) (p_mpfmb (p_mpfinib C))) L → blk_valid s C blk = true →
  alloc C (o_mpfmb (obj s) (p_mpfmb (p_mpfinib C))) (blk_index C blk).
Proof.
  intros [] Hv. unfold blk_valid in Hv. rewrite !andb_true_iff, Z.leb_le, Z.ltb_lt, !Z.eqb_eq in Hv.
  destruct Hv as [[[H1 H2] H3] H4]. split; [|done]. unfold blk_index in *. split; [|done].
  apply Z.div_pos; [apply Z.mod_pos_bound; lia|lia].
Qed.
End pool.

(** ** The pools of the kernel *)

Section mempfix.
Context {cfg : Config}.
Implicit Types (s : State) (g : nat → tst) (i : nat) (o : OBJ).

Definition mpf_noexs o i : bool := mpfatr (p_mpfinib (o_mpfcb o i)) =? TA_NOEXS.
Definition mpf_area o i : option Z := if mpf_noexs o i then None else Some (p_mpfmb (p_mpfinib (o_mpfcb o i))).
(** The management area of an existing pool. *)
Definition mpf_mem o i : Z → Z := if mpf_noexs o i then fun _ => 0 else o_mpfmb o (p_mpfmb (p_mpfinib (o_mpfcb o i))).

Definition mpf_only o o' : Prop :=
  o' = o <| o_mpfcb := o_mpfcb o' |> <| o_free_mpfcb := o_free_mpfcb o' |> <| o_mpfmb := o_mpfmb o' |> ∧
  (areas_ok (mpf_area o) (o_kmm_brk o) → areas_ok (mpf_area o') (o_kmm_brk o')).

Lemma mpf_same_free o o' :
  o' = o <| o_mpfcb := o_mpfcb o' |> <| o_mpfmb := o_mpfmb o' |> →
  o' = o <| o_mpfcb := o_mpfcb o' |> <| o_free_mpfcb := o_free_mpfcb o' |> <| o_mpfmb := o_mpfmb o' |>.
Proof.
  intros Ho. assert (Hfr : o_free_mpfcb o' = o_free_mpfcb o) by (by rewrite Ho). rewrite Hfr. destruct o. exact Ho.
Qed.

Lemma mpf_ok_shrink C M l l' : (∀ x, x ∈ l' → x ∈ l) → mpf_ok C M l → mpf_ok C M l'.
Proof.
  intros Hl [HP Hw]. split; [done|]. intros Hne. apply Hw. destruct l' as [|x l']; [done|].
  intros ->. by apply (not_elem_of_nil x), Hl; left.
Qed.

#[export] Instance mpf_kind : Kind (MPFCB * (Z → Z)).
Proof.
  refine {| cbs := fun o i => (o_mpfcb o i, mpf_mem o i); frees := o_free_mpfcb; cb_atr := fun C => mpfatr (p_mpfinib C.1);
    cb_queue := MPFQ; cb_of := fun q => match q with MPFQ i => Some i | _ => None end;
    cb_only := mpf_only; cb_ok := fun s i => mpf_ok (mpfcb s i) (mpf_mem (obj s) i) (wq s (MPFQ i)) |}.
  - intros s q i Hq. by destruct q; simplify_eq.
  - intros F s q Hq [Hon _]. destruct q; simpl in *; try rewrite Hon; done.
  - done.
  - intros TR Y P s s' i X HF HX [= E1 E2]. rewrite E1, E2. apply mpf_ok_shrink. intros x Hx.
    by apply (fr_queue _ _ _ _ HF (MPFQ i) x), HX.
  - intros o. split; [by destruct o|done].
  - intros q i Hq. by destruct q.
Defined.
Notation mpf_inv := (kind_inv (kd := mpf_kind)).

Section calls.
Context (OInv : State → Prop) `{!Objects OInv}.
Context `{!Component OInv mpf_inv (kind_own (kd := mpf_kind)) (cb_only (Kind := mpf_kind))}.
Context `{!Areas OInv mpf_area} `{!Component OInv kmm_inv (fun _ => False) kmm_only}.
Notation WP := (wp (rely OInv) (guar OInv)).
Notation Inv := (Inv OInv).
Notation OK := (OK OInv).
Notation Mid := (Mid OInv).

Lemma mpf_exists s i :
  OInv s → mpfatr (p_mpfinib (mpfcb s i)) ≠ TA_NOEXS →
  i ∉ o_free_mpfcb (obj s) ∧ mpf_ok (mpfcb s i) (o_mpfmb (obj s) (p_mpfmb (p_mpfinib (mpfcb s i)))) (wq s (MPFQ i)) ∧
  header_ok s (MPFQ i) = true.
Proof.
  intros HO He. destruct (kind_exists (kd := mpf_kind) s i (comp_get s HO) He) as (H1 & H2 & H3).
  split_and!; [done| |done]. simpl in H2. unfold mpf_mem, mpf_noexs in H2. by rewrite (proj2 (Z.eqb_neq _ _) He) in H2.
Qed.

(** A pool changes: its control block and its management area. *)
Lemma mpf_put g s i F :
  let a := p_mpfmb (p_mpfinib (mpfcb s i)) in let o' := F (obj s) in
  Mid g s → mpfatr (p_mpfinib (mpfcb s i)) ≠ TA_NOEXS →
  o' = (obj s) <| o_mpfcb := o_mpfcb o' |> <| o_mpfmb := o_mpfmb o' |> →
  (∀ j, j ≠ i → o_mpfcb o' j = mpfcb s j) → p_mpfinib (o_mpfcb o' i) = p_mpfinib (mpfcb s i) →
  (∀ b, b ≠ a → o_mpfmb o' b = o_mpfmb (obj s) b) → mpf_ok (o_mpfcb o' i) (o_mpfmb o' a) (wq s (MPFQ i)) →
  Mid g (upd_obj F s).
Proof.
  intros a o' HM He Ho Hj Hi Hb Hok. destruct (mpf_exists s i (m_obj _ _ _ HM) He) as (Hfree & _ & _).
  pose proof (areas_get s (m_obj _ _ _ HM)) as Har.
  assert (Hn : ∀ j, mpf_noexs o' j = mpf_noexs (obj s) j).
  { intros j. unfold mpf_noexs. destruct (decide (j = i)) as [->|Hne]; [by rewrite Hi|by rewrite Hj]. }
  assert (Harea : ∀ j, mpf_area o' j = mpf_area (obj s) j).
  { intros j. unfold mpf_area. rewrite Hn. destruct (decide (j = i)) as [->|Hne]; [by rewrite Hi|by rewrite Hj]. }
  assert (Hbrk : o_kmm_brk o' = o_kmm_brk (obj s)) by (by rewrite Ho).
  apply (kind_put (kd := mpf_kind) OInv g s i); try done; fold o'.
  - split; [by apply mpf_same_free|]. intros _. eapply areas_ok_less; [exact Har|by rewrite Hbrk|]. intros j b. by rewrite Harea.
  - simpl. fold o'. by rewrite Ho.
  - intros j Hne. simpl. fold o'. f_equal; [by apply Hj|]. unfold mpf_mem. rewrite Hn, Hj by done.
    destruct (mpf_noexs (obj s) j) eqn:Hjn; [done|]. apply Hb. intros Heq. apply Hne.
    apply (ar_distinct _ _ Har j i a); unfold mpf_area.
    + rewrite Hjn. by rewrite Heq.
    + unfold mpf_noexs. by rewrite (proj2 (Z.eqb_neq _ _) He).
  - simpl. fold o'. by rewrite Hi.
  - split.
    + unfold gone. simpl. fold o'. by rewrite Hi.
    + intros _. simpl. fold o'. unfold mpf_mem. rewrite Hn. unfold mpf_noexs. rewrite (proj2 (Z.eqb_neq _ _) He), Hi. exact Hok.
Qed.

Notation pool_mem s i := (o_mpfmb (obj s) (p_mpfmb (p_mpfinib (mpfcb s i)))).

(** Every call begins with the test whether the pool exists. *)
Ltac mpf_begin s1 mpfid HI He Hfree Hok Hhd :=
  destruct (Z.eqb_spec (mpfatr (p_mpfinib (mpfcb s1 (INDEX mpfid)))) TA_NOEXS) as [He|He]; [svc_ret|];
  destruct (mpf_exists s1 (INDEX mpfid) (i_obj _ _ _ HI) He) as (Hfree & Hok & Hhd);
  set (i := INDEX mpfid) in *.

Lemma get_mpf_block_ok g s i :
  Inv g s → mpfatr (p_mpfinib (mpfcb s i)) ≠ TA_NOEXS → 0 < fblkcnt (mpfcb s i) →
  let k := next_block (mpfcb s i) in
  ∃ s', get_mpf_block i s = RET (blk_addr (mpfcb s i) k) s' ∧ Inv g s' ∧ var s' = var s ∧ cpu s' = cpu s ∧
    mpfcb s' i = taken (mpfcb s i) (pool_mem s i) ∧ pool_mem s' i = <[k := INDEX_ALLOC]> (pool_mem s i) ∧ wq s' = wq s.
Proof.
  intros HI He Hf k. destruct (mpf_exists s i (i_obj _ _ _ HI) He) as (_ & [[L HP] Hw] & _).
  destruct (pool_take _ _ L HP Hf) as (L' & HP' & Hr & Hna & Hal). fold k in HP', Hr, Hna, Hal.
  eexists. split; [reflexivity|]. set (s' := upd_obj _ _).
  assert (E1 : mpfcb s' i = taken (mpfcb s i) (pool_mem s i)).
  { unfold s', taken, next_block. simpl. rewrite !fn_lookup_insert. by destruct (negb (freelist (mpfcb s i) =? INDEX_NULL)). }
  assert (E2 : o_mpfmb (obj s') (p_mpfmb (p_mpfinib (mpfcb s i))) = <[k := INDEX_ALLOC]> (pool_mem s i)).
  { unfold s'. simpl. by rewrite !fn_lookup_insert. }
  assert (E3 : p_mpfinib (mpfcb s' i) = p_mpfinib (mpfcb s i)).
  { rewrite E1. unfold taken. by destruct (negb _). }
  split; [|split_and!; try done; by rewrite E3].
  apply (Inv_of OInv g s); [done| |done..].
  eapply (mpf_put g s i (fun o => _) (Inv_Mid _ _ _ HI) He); [done| | | |].
  - intros j Hj. cb_lookup.
  - exact E3.
  - intros b Hb. cb_lookup.
  - change (mpf_ok (mpfcb s' i) (o_mpfmb (obj s') (p_mpfmb (p_mpfinib (mpfcb s i)))) (wq s (MPFQ i))).
    rewrite E1, E2. split; [by exists L'|]. intros Hne. specialize (Hw Hne). lia.
Qed.

(** Entering the queue when no block is free. *)
Lemma mpf_enter s s' i :
  OInv s → mpfatr (p_mpfinib (mpfcb s i)) ≠ TA_NOEXS → (0 <? fblkcnt (mpfcb s i)) = false →
  tframe (fun q => q = MPFQ i) s s' → OInv s'.
Proof.
  intros HO He Hc HF. destruct (mpf_exists s i HO He) as (Hfree & [[L HP] _] & _). pose proof (fr_obj _ _ _ _ HF) as Ho.
  eapply (kind_move (kd := mpf_kind) OInv _ _ _ i _ HO HF); simpl; rewrite <- ?Ho; try done.
  - by intros q ->.
  - split; [by destruct (obj s)|done].
  - split; unfold gone; simpl; rewrite <- Ho; [done|]. intros _. unfold mpf_mem, mpf_noexs. rewrite (proj2 (Z.eqb_neq _ _) He).
    split; [by exists L|]. intros _. pose proof (pool_length _ _ _ HP). destruct HP. lia.
Qed.

Lemma mpf_result_ok w s t : OK s → in_task t s → (∃ ercd, winfo (winfos s w) = WERCD ercd) →
  WP (fun _ s' => OK s' ∧ in_task t s') (mpf_result w s).
Proof. intros HOK Hin Hw. unfold mpf_result. apply wp_bind, get_wercd_ok; [done|]. by split. Qed.

Lemma mpf_take_ok g t s i :
  Inv g s → in_task t s → mpfatr (p_mpfinib (mpfcb s i)) ≠ TA_NOEXS → (0 <? fblkcnt (mpfcb s i)) = true →
  WP (fun _ s' => OK s' ∧ in_task t s') ((p_blk <- get_mpf_block i ;; ret (E_OK, Some p_blk)) s).
Proof.
  intros HI Hin He Hc. destruct (get_mpf_block_ok g s i HI He) as (s' & E & HI' & Hv & Hcp & _); [lia|].
  eapply wp_RET; [exact E|]. split; [by exists g|by eapply in_task_same].
Qed.

Lemma get_mpf_ok mpfid : call_ok OInv (get_mpf mpfid).
Proof.
  intros s HOK. unfold get_mpf. task_call g t s1 HI Hin Ht Hd. mpf_begin s1 mpfid HI He Hfree Hok Hhd.
  destruct (0 <? fblkcnt (mpfcb s1 i)) eqn:Hc; [by eapply mpf_take_ok|].
  destruct (new_winfo_ok OInv g s1 t HI Hin Ht) as (s2 & w & E & Hsl & HF & _); [congruence|].
  eapply wp_RET; [exact E|]. apply (wobj_sleep_ok OInv g s2 t w (MPFQ i)); [done| | |done].
  - intros g' s' Hb. eapply (mpf_enter s1); [apply HI|done..|]. by eapply blocked_frame.
  - intros s' HOK' Hin' Hw. by apply mpf_result_ok.
Qed.

Lemma pget_mpf_ok mpfid : call_ok OInv (pget_mpf mpfid).
Proof.
  intros s HOK. unfold pget_mpf. task_call g t s1 HI Hin Ht Hd. mpf_begin s1 mpfid HI He Hfree Hok Hhd.
  destruct (0 <? fblkcnt (mpfcb s1 i)) eqn:Hc; [by eapply mpf_take_ok|svc_ret].
Qed.

Lemma tget_mpf_ok mpfid tmout : tmout ≤ TMAX_RELTIM → call_ok OInv (tget_mpf mpfid tmout).
Proof.
  intros Hmax s HOK. unfold tget_mpf. task_call g t s1 HI Hin Ht Hd. mpf_begin s1 mpfid HI He Hfree Hok Hhd.
  destruct (0 <? fblkcnt (mpfcb s1 i)) eqn:Hc; [by eapply mpf_take_ok|].
  destruct (Z.eqb_spec tmout TMO_POL) as [Hp|Hp]; [svc_ret|].
  destruct (new_winfo_ok OInv g s1 t HI Hin Ht) as (s2 & w & E & Hsl & HF & _); [congruence|].
  eapply wp_RET; [exact E|].
  apply (wobj_sleep_tmout_ok OInv g s2 t w (MPFQ i)); [done| | |done|unfold TMO_FEVR in *; lia|done].
  - intros g' s' Hb. eapply (mpf_enter s1); [apply HI|done..|]. by eapply blocked_frame.
  - intros s' HOK' Hin' Hw. by apply mpf_result_ok.
Qed.

(** What [rel_mpf] does to the pool when nobody waits. *)
Definition put_st i blkidx s : State :=
  let C := mpfcb s i in
  upd_obj (fun o => o <| o_mpfcb ::= fun T => <[i := (T i) <| freelist := blkidx |>]> T |>)
    (upd_obj (fun o => o <| o_mpfmb ::= fun M => <[p_mpfmb (p_mpfinib C) := <[blkidx := freelist C]> (M (p_mpfmb (p_mpfinib C)))]> M |>)
      (upd_obj (fun o => o <| o_mpfcb ::= fun T => <[i := (T i) <| fblkcnt := u32 (fblkcnt (T i) + 1) |>]> T |>) s)).

Lemma put_st_pool i k s :
  mpfcb (put_st i k s) i = (mpfcb s i) <| fblkcnt := u32 (fblkcnt (mpfcb s i) + 1) |> <| freelist := k |> ∧
  pool_mem (put_st i k s) i = <[k := freelist (mpfcb s i)]> (pool_mem s i).
Proof. unfold put_st. split; cb_lookup. Qed.

Lemma put_st_ok g s i L k :
  Inv g s → mpfatr (p_mpfinib (mpfcb s i)) ≠ TA_NOEXS → wq s (MPFQ i) = [] →
  pool_ok (mpfcb s i) (pool_mem s i) L → alloc (mpfcb s i) (pool_mem s i) k → Inv g (put_st i k s).
Proof.
  intros HI He Hq HP Ha. destruct (pool_put _ _ L k HP Ha) as [HP' _]. destruct (put_st_pool i k s) as [E1 E2].
  apply (Inv_of OInv g s); [done| |done..].
  eapply (mpf_put g s i (fun o => _) (Inv_Mid _ _ _ HI) He); [done| | | |].
  - intros j Hj. cb_lookup.
  - cb_lookup.
  - intros b Hb. cb_lookup.
  - rewrite Hq. split; [|done]. exists (k :: L). cb_lookup.
Qed.

Lemma rel_mpf_ok mpfid blk : call_ok OInv (rel_mpf mpfid blk).
Proof.
  intros s HOK. unfold rel_mpf. task_call g t s1 HI Hin Ht Hd. mpf_begin s1 mpfid HI He Hfree Hok Hhd.
  destruct Hok as [[L HP] Hw]. pose proof (po_sz _ _ _ HP) as [Hsz _].
  destruct (Z.eqb_spec (blksz (p_mpfinib (mpfcb s1 i))) 0) as [Hz|_]; [lia|].
  destruct (blk_valid s1 (mpfcb s1 i) blk) eqn:Hv; simpl; [|svc_ret].
  pose proof (blk_valid_alloc s1 _ L blk HP Hv) as Ha.
  unfold queue_empty, Fam.queue_empty. destruct (wq s1 (MPFQ i)) as [|x l] eqn:Hq; simpl.
  - repeat (eapply wp_RET; [reflexivity|]). split; [|exact Hin].
    exists g. by apply (put_st_ok g s1 i L (blk_index (mpfcb s1 i) blk)).
  - destruct (wake_with_ok OInv g s1 (MPFQ i) x l (fun W => W <| w_blk := blk |>) HI eq_refl Hq) as (b & s2 & s3 & s4 & E1 & E2 & E3 & Hp); [done|].
    eapply wp_RET; [exact E1|]. eapply wp_RET; [exact E2|]. eapply wp_RET; [exact E3|]. by eapply progress_ret_task.
Qed.

Lemma ref_mpf_ok mpfid : call_ok OInv (ref_mpf mpfid).
Proof. intros s HOK. unfold ref_mpf. task_call g t s1 HI Hin Ht Hd. case_match; svc_ret. Qed.

(** Emptying the pool, its tasks released. *)
Lemma ini_mpf_ok mpfid : call_ok OInv (ini_mpf mpfid).
Proof.
  intros s HOK. unfold ini_mpf. task_call g t s1 HI Hin Ht Hd. mpf_begin s1 mpfid HI He Hfree Hok Hhd.
  destruct (init_queue_ok OInv g s1 (MPFQ i) (Inv_Mid _ _ _ HI) eq_refl Hhd) as (b & g' & s2 & E & HM & HF & Hw & Hnil & Hr).
  rewrite (bind_RET _ _ _ _ _ E). pose proof (fr_obj _ _ _ _ HF) as Ho. eapply wp_RET; [reflexivity|]. apply wp_bind.
  eapply dispatch_if_ok; [exact HI|exact Hin|exact Ht| |by apply Hr|apply HF|apply HF|exact Hw|intros; svc_ret].
  eapply (mpf_put g' s2 i (fun o => _) HM); rewrite <- Ho; [exact He|done| | | |].
  - intros j Hj. cb_lookup.
  - cb_lookup.
  - done.
  - cb_lookup. rewrite Hnil. split; [|done]. destruct Hok as [[L HP] _]. exists []. apply pool_reset; apply HP.
Qed.

Lemma del_mpf_ok mpfid : call_ok OInv (del_mpf mpfid).
Proof.
  intros s HOK. unfold del_mpf. task_call g t s1 HI Hin Ht Hd. mpf_begin s1 mpfid HI He Hfree Hok Hhd.
  destruct (tmax_smpfid <? IDOF i); [|svc_ret].
  destruct (init_queue_ok OInv g s1 (MPFQ i) (Inv_Mid _ _ _ HI) eq_refl Hhd) as (b & g' & s2 & E & HM & HF & Hw & Hnil & Hr).
  rewrite (bind_RET _ _ _ _ _ E). pose proof (fr_obj _ _ _ _ HF) as Ho. pose proof (areas_get s2 (m_obj _ _ _ HM)) as Har.
  eapply (wp_RET _ _ _ _ _ () s2); [by case_match|]. eapply (wp_RET _ _ _ _ _ () s2); [by case_match|].
  do 2 (eapply wp_RET; [reflexivity|]). apply wp_bind.
  eapply dispatch_if_ok; [exact HI|exact Hin|exact Ht| |by apply Hr|apply HF|apply HF|exact Hw|intros; svc_ret].
  set (s3 := upd_obj _ (upd_obj _ s2)).
  assert (Hother : ∀ j, j ≠ i → mpfcb s3 j = mpfcb s2 j) by (intros j Hj; unfold s3; cb_lookup).
  eapply (kind_delete (kd := mpf_kind) OInv g' s2 i (fun o => obj s3) HM); try done.
  - simpl. by rewrite <- Ho.
  - intros q Hq. destruct q; simpl in Hq; simplify_eq; done.
  - split; [unfold s3; simpl; by destruct (obj s2)|]. intros _. eapply areas_ok_less; [exact Har|done|].
    intros j a. unfold mpf_area, mpf_noexs. destruct (decide (j = i)) as [->|Hne].
    + unfold s3. cb_lookup.
    + by rewrite Hother.
  - intros j Hne. simpl. f_equal; [by apply Hother|]. unfold mpf_mem, mpf_noexs. by rewrite Hother.
  - unfold s3. cb_lookup.
Qed.

(** The memory of a new pool: from the kernel or given by the caller. *)
Definition new_mem_ok (pk : T_CMPF) s : Prop :=
  0 ≤ c_blkcnt pk ∧ sizeof_MPFMB * c_blkcnt pk < 2^32 ∧
  0 < ROUND_MPF_T (c_blksz pk) ∧ ROUND_MPF_T (c_blksz pk) * c_blkcnt pk < 2^32 ∧
  (c_mpfmb pk ≠ 0 → fresh_area (mpf_area (obj s)) (o_kmm_brk (obj s)) (c_mpfmb pk)).

Lemma acre_mpf_ok pk s : OK s → new_mem_ok pk s → WP (fun _ s' => OK s' ∧ same_ctx s s') (acre_mpf pk s).
Proof.
  intros HOK (N1 & N2 & N3 & N4 & N5). unfold sizeof_MPFMB in N2. unfold acre_mpf. svc_checks; split_ctx.
  eapply wp_mono; [eapply (call_task_ok OInv s _ (fun _ _ => True)); try done|by intros a s' [? _]].
  intros g t s1 HI Hin Ht ->. eapply wp_mono with (P := fun _ s' => OK s' ∧ in_task t s'); [|naive_solver].
  set (s1 := with_lock true s) in *. unfold kget.
  destruct (tnum_mpf =? 0)%nat; [svc_ret|]. cbn [orb].
  destruct (o_free_mpfcb (obj s1)) as [|i l] eqn:Hl; [svc_ret|]. cbn [no_free].
  set (al1 := c_mpf pk =? 0). set (al2 := c_mpfmb pk =? 0).
  destruct (area_malloc_ok OInv mpf_area al1 g s1 (u32 (ROUND_MPF_T (c_blksz pk) * c_blkcnt pk)) (c_mpf pk) HI) as (p1 & s2 & E1 & HI2 & V1 & U1 & Q1 & S1 & [O1 B1] & _).
  { apply Z.mod_pos_bound. lia. }
  eapply wp_RET; [exact E1|]. assert (Hin2 : in_task t s2) by (by eapply in_task_same). destruct (p1 =? 0); [svc_ret|].
  destruct (area_malloc_ok OInv mpf_area al2 g s2 (u32 (sizeof_MPFMB * c_blkcnt pk)) (c_mpfmb pk) HI2) as (p2 & s3 & E2 & HI3 & V2 & U2 & Q2 & S2 & [O2 B2] & Hfr & _).
  { apply Z.mod_pos_bound. lia. }
  eapply wp_RET; [exact E2|]. assert (Hin3 : in_task t s3) by (by eapply in_task_same).
  destruct (Z.eqb_spec p2 0) as [Hp2|Hp2].
  { eapply (wp_RET _ _ _ _ _ () s3); [by destruct al1|]. svc_ret. }
  assert (Hl3 : o_free_mpfcb (obj s3) = i :: l) by (by rewrite O2, O1). pose proof (Inv_Mid _ _ _ HI3) as HM3.
  assert (Hfresh : fresh_area (mpf_area (obj s3)) (o_kmm_brk (obj s3)) p2).
  { apply Hfr; [|done|].
    - unfold sizeof_MPFMB, u32. rewrite Z.mod_small; lia.
    - intros Hal. apply Z.eqb_neq in Hal. eapply fresh_area_less; [|exact B1]. rewrite O1. by apply N5. }
  pose proof (Inv_comp (inv := mpf_inv) OInv g s3 HI3) as Hki.
  assert (Hnil : wq s3 (MPFQ i) = []) by (by apply (kind_free_no_waiter (kd := mpf_kind) s3 i l)).
  assert (Hgone : mpf_noexs (obj s3) i = true).
  { apply Z.eqb_eq. apply (ki_free _ Hki i). simpl. rewrite Hl3. left. }
  destruct (init_empty_queue_ok OInv g s3 (MPFQ i) HM3 Hnil) as [HM4 Hnil4].
  eapply wp_RET; [by apply take_free_eq|]. repeat (eapply wp_RET; [reflexivity|]). split; [|done]. exists g.
  apply (Inv_of OInv g s3); [done| |done..].
  match goal with |- Service.Mid _ _ ?x => set (s4 := x) end.
  set (I := mkMPFINIB _ _ _ _ _) in s4.
  assert (E4 : mpfcb s4 i = mpf_reset ((mpfcb s3 i) <| p_mpfinib := I |>)) by (unfold s4; cb_lookup).
  assert (Hother : ∀ j, j ≠ i → mpfcb s4 j = mpfcb s3 j) by (intros j Hj; unfold s4; cb_lookup).
  assert (Hex : mpfatr I ≠ TA_NOEXS).
  { subst I. simpl. destruct al2, al1; try (by eapply rsatr_exists); try (by eapply rsatr_alloc).
    rewrite <- Z.lor_assoc. by eapply rsatr_alloc. }
  assert (Hnoexs : mpf_noexs (obj s4) i = false) by (unfold mpf_noexs; rewrite E4; by apply Z.eqb_neq).
  assert (Hmem : ∀ j, j ≠ i → mpf_noexs (obj s4) j = mpf_noexs (obj s3) j) by (intros j Hj; unfold mpf_noexs; by rewrite Hother).
  eapply (kind_create (kd := mpf_kind) OInv g _ i l (fun o => obj s4) HM4); [done| |done| |].
  - split; [unfold s4; simpl; by destruct (obj s3)|]. intros Har. change (areas_ok (mpf_area (obj s4)) (o_kmm_brk (obj s3))).
    eapply (areas_ok_new (mpf_area (obj s3)) _ _ i p2); [exact Har|exact Hfresh| |].
    + intros j Hj. unfold mpf_area. by rewrite Hmem, Hother.
    + unfold mpf_area. by rewrite Hnoexs, E4.
  - intros j Hj. simpl. f_equal; [by apply Hother|]. unfold mpf_mem. by rewrite Hmem, Hother.
  - intros _. apply kind_ok_intro.
    + unfold gone. change (mpfatr (p_mpfinib (mpfcb s4 i)) ≠ TA_NOEXS). by rewrite E4.
    + change (mpf_ok (mpfcb s4 i) (mpf_mem (obj s4) i) (Fam.queue_initialize (MPFQ i) (wq s3) (MPFQ i))).
      unfold mpf_mem. rewrite Hnoexs, E4. unfold Fam.queue_initialize. rewrite fn_lookup_insert.
      split; [|done]. exists []. apply pool_reset; simpl; unfold sizeof_MPFMB; lia.
Qed.
End calls.
End mempfix.
