(* ===== verification/Pridataq.v ===== *)
(** * Priority data queues (kernel/pridataq.c, pridataq.h)

    A pointer to a PDQMB is its index in the management area of its queue;
    [o_pdqmb (obj s) p k] is the block at [p + k]. *)

From S2P Require Import Prelude Queue Data Kmonad TimeEvent Task Wait Core Release Service Object Kmm.
Open Scope Z_scope.

Record T_CPDQ := mkT_CPDQ { c_pdqatr : Z; c_pdqcnt : Z; c_maxdpri : Z; c_pdqmb : Z }.
Record T_RPDQ := mkT_RPDQ { r_pdq_stskid : Z; r_pdq_rtskid : Z; r_spdqcnt : Z }.

Section pridataq.
Context {cfg : Config}.
Implicit Types (pdqid data datapri tmout : Z) (i : nat) (C : PDQCB).

Definition tnum_pdq : nat := tnum tmax_pdqid.
Definition tnum_spdq : nat := tnum tmax_spdqid.
Definition sizeof_PDQMB : Z := 12.

Definition upd_pdq i (f : PDQCB → PDQCB) : K () :=
  upd (upd_obj (fun o => o <| o_pdqcb ::= fun T => <[i := f (T i)]> T |>)).
Definition set_free_pdq (f : list nat → list nat) : K () :=
  upd (upd_obj (fun o => o <| o_free_pdqcb ::= f |>)).
Definition set_pdqatr i (atr : Z) : K () :=
  upd_pdq i (fun C => C <| p_pdqinib ::= fun I => I <| pdqatr := atr |> |>).
Definition upd_pdqmb (p_pdqmb k : Z) (f : PDQMB → PDQMB) : K () :=
  upd (upd_obj (fun o => o <| o_pdqmb ::= fun M =>
    <[p_pdqmb := <[k := f (M p_pdqmb k)]> (M p_pdqmb)]> M |>)).
Definition pdq_reset C : PDQCB :=
  C <| pdq_count := 0 |> <| pdq_p_head := None |> <| pdq_unused := 0 |> <| p_freelist := None |>.

Definition initialize_pridataq : K () :=
  kfor (seq 0 tnum_spdq) (fun i =>
    queue_initialize (SPDQ i) ;;;
    upd_pdq i (fun C => C <| p_pdqinib := pdqinib_table i |>) ;;;
    queue_initialize (RPDQ i) ;;;
    upd_pdq i pdq_reset) ;;;
  set_free_pdq (fun _ => []) ;;;
  kfor (seq tnum_spdq (tnum_pdq - tnum_spdq)) (fun i =>
    set_pdqatr i TA_NOEXS ;;;
    set_free_pdq (fun l => l ++ [i])).

(** ** The list of data

    [pp_prev_next] is the address of a link: [None] of [p_head], [Some k] of
    the [p_next] of block [k]. *)
Definition get_link (s : State) i (pp_prev_next : option Z) : option Z :=
  match pp_prev_next with
  | None => pdq_p_head (pdqcb s i)
  | Some k => pd_next (o_pdqmb (obj s) (p_pdqmb (p_pdqinib (pdqcb s i))) k)
  end.
Definition set_link i (pp_prev_next v : option Z) : K () :=
  get s;;
  match pp_prev_next with
  | None => upd_pdq i (fun C => C <| pdq_p_head := v |>)
  | Some k => upd_pdqmb (p_pdqmb (p_pdqinib (pdqcb s i))) k (fun B => B <| pd_next := v |>)
  end.

(** The loop of [enqueue_pridata]; the number of data in the queue bounds the
    iterations. *)
Fixpoint find_pridata (fuel : nat) (s : State) i datapri (pp_prev_next : option Z)
    : option (option Z * option Z) :=
  match fuel with
  | O => None
  | S fuel =>
      match get_link s i pp_prev_next with
      | None => Some (pp_prev_next, None)
      | Some p_next =>
          if datapri <? pd_datapri (o_pdqmb (obj s) (p_pdqmb (p_pdqinib (pdqcb s i))) p_next)
          then Some (pp_prev_next, Some p_next)
          else find_pridata fuel s i datapri (Some p_next)
      end
  end.

Definition enqueue_pridata i data datapri : K () :=
  get s;; let C := pdqcb s i in let mb := p_pdqmb (p_pdqinib C) in
  p <- (match p_freelist C with
        | Some p => upd_pdq i (fun C => C <| p_freelist := pd_next (o_pdqmb (obj s) mb p) |>) ;;; ret p
        | None => upd_pdq i (fun C => C <| pdq_unused := u32 (pdq_unused C + 1) |>) ;;; ret (pdq_unused C)
        end) ;;
  upd_pdqmb mb p (fun B => B <| pd_data := data |>) ;;;
  upd_pdqmb mb p (fun B => B <| pd_datapri := datapri |>) ;;;
  get s;;
  the r := find_pridata (S (Z.to_nat (pdq_count C))) s i datapri None ;;
  upd_pdqmb mb p (fun B => B <| pd_next := snd r |>) ;;;
  set_link i (fst r) (Some p) ;;;
  upd_pdq i (fun C => C <| pdq_count := u32 (pdq_count C + 1) |>).

Definition dequeue_pridata i : K (Z * Z) :=
  get s;; let C := pdqcb s i in let mb := p_pdqmb (p_pdqinib C) in
  the p := pdq_p_head C ;;
  let B := o_pdqmb (obj s) mb p in
  upd_pdq i (fun C => C <| pdq_p_head := pd_next B |>) ;;;
  upd_pdq i (fun C => C <| pdq_count := u32 (pdq_count C - 1) |>) ;;;
  upd_pdqmb mb p (fun B => B <| pd_next := p_freelist C |>) ;;;
  upd_pdq i (fun C => C <| p_freelist := Some p |>) ;;;
  ret (pd_data B, pd_datapri B).

(** The data in the WINFO of a waiting task. *)
Definition set_w_pridata (p_tcb : nat) data datapri : K () :=
  get s;; the w := p_winfo (tcb_table s p_tcb) ;;
  upd (upd_winfo w (fun W => W <| w_data := data |>)) ;;;
  upd (upd_winfo w (fun W => W <| w_datapri := datapri |>)).
Definition get_w_pridata (p_tcb : nat) : K (Z * Z) :=
  get s;; the w := p_winfo (tcb_table s p_tcb) ;; ret (w_data (winfos s w), w_datapri (winfos s w)).

(** [Some dspreq] is the return of true with [*p_dspreq = dspreq]. *)
Definition send_pridata i data datapri : K (option bool) :=
  get s;;
  if negb (queue_empty (RPDQ i) s) then
    p_tcb <- queue_delete_next (RPDQ i) ;;
    set_w_pridata p_tcb data datapri ;;;
    b <- wait_complete p_tcb ;;
    ret (Some b)
  else if pdq_count (pdqcb s i) <? pdqcnt (p_pdqinib (pdqcb s i)) then
    enqueue_pridata i data datapri ;;;
    ret (Some false)
  else ret None.

Definition receive_pridata i : K (option (Z * Z * bool)) :=
  get s;;
  if 0 <? pdq_count (pdqcb s i) then
    r <- dequeue_pridata i ;;
    get s;;
    if negb (queue_empty (SPDQ i) s) then
      p_tcb <- queue_delete_next (SPDQ i) ;;
      d <- get_w_pridata p_tcb ;;
      enqueue_pridata i (fst d) (snd d) ;;;
      b <- wait_complete p_tcb ;;
      ret (Some (r, b))
    else ret (Some (r, false))
  else if negb (queue_empty (SPDQ i) s) then
    p_tcb <- queue_delete_next (SPDQ i) ;;
    r <- get_w_pridata p_tcb ;;
    b <- wait_complete p_tcb ;;
    ret (Some (r, b))
  else ret None.

(** ** The service calls *)

Definition acre_pdq (pk_cpdq : T_CPDQ) : K Z :=
  ! CHECK_TSKCTX_UNL ;;
  ! CHECK_RSATR (c_pdqatr pk_cpdq) TA_TPRI ;;
  ! CHECK_DPRI (c_maxdpri pk_cpdq) ;;
  ! CHECK_PAR ((c_pdqmb pk_cpdq =? 0) || MB_ALIGNED (c_pdqmb pk_cpdq)) ;;
  lock_cpu ;;;
  ercd <- (get s;;
    if (tnum_pdq =? 0)%nat || no_free (o_free_pdqcb (obj s)) then ret E_NOID
    else
      let alloc := negb (c_pdqcnt pk_cpdq =? 0) && (c_pdqmb pk_cpdq =? 0) in
      p_mb <- (if alloc then kernel_malloc (u32 (sizeof_PDQMB * c_pdqcnt pk_cpdq))
               else ret (c_pdqmb pk_cpdq)) ;;
      let atr := if alloc then Z.lor (c_pdqatr pk_cpdq) TA_MBALLOC else c_pdqatr pk_cpdq in
      if negb (c_pdqcnt pk_cpdq =? 0) && (p_mb =? 0) then ret E_NOMEM
      else
        i <- take_free o_free_pdqcb set_free_pdq ;;
        upd_pdq i (fun C => C <| p_pdqinib :=
          mkPDQINIB atr (c_pdqcnt pk_cpdq) (c_maxdpri pk_cpdq) p_mb |>) ;;;
        queue_initialize (SPDQ i) ;;;
        queue_initialize (RPDQ i) ;;;
        upd_pdq i pdq_reset ;;;
        ret (IDOF i)) ;;
  unlock_cpu ;;;
  ret ercd.

Definition del_pdq pdqid : K Z :=
  ! CHECK_TSKCTX_UNL ;;
  ! CHECK_PDQID pdqid ;;
  let i := INDEX pdqid in
  lock_cpu ;;;
  ercd <- (get s;;
    if pdqatr (p_pdqinib (pdqcb s i)) =? TA_NOEXS then ret E_NOEXS
    else if tmax_spdqid <? IDOF i then
      dspreq <- init_wait_queue (SPDQ i) ;;
      b <- init_wait_queue (RPDQ i) ;;
      let dspreq := if b : bool then true else dspreq in
      get s;;
      (if bits (pdqatr (p_pdqinib (pdqcb s i))) TA_MBALLOC
       then kernel_free (p_pdqmb (p_pdqinib (pdqcb s i))) else ret ()) ;;;
      set_pdqatr i TA_NOEXS ;;;
      set_free_pdq (fun l => l ++ [i]) ;;;
      (if dspreq then dispatch else ret ()) ;;;
      ret E_OK
    else ret E_OBJ) ;;
  unlock_cpu ;;;
  ret ercd.

Definition snd_pdq pdqid data datapri : K Z :=
  ! CHECK_DISPATCH ;;
  ! CHECK_PDQID pdqid ;;
  ! CHECK_PAR (TMIN_DPRI <=? datapri) ;;
  let i := INDEX pdqid in
  lock_cpu ;;;
  ercd <- (get s;;
    if pdqatr (p_pdqinib (pdqcb s i)) =? TA_NOEXS then ret E_NOEXS
    else if negb (datapri <=? maxdpri (p_pdqinib (pdqcb s i))) then ret E_PAR
    else
      r <- send_pridata i data datapri ;;
      match r with
      | Some dspreq => (if dspreq : bool then dispatch else ret ()) ;;; ret E_OK
      | None =>
          winfo_pdq <- new_winfo ;;
          upd (upd_winfo winfo_pdq (fun W => W <| w_data := data |>)) ;;;
          upd (upd_winfo winfo_pdq (fun W => W <| w_datapri := datapri |>)) ;;;
          get s;; the t := p_runtsk s ;;
          set_tstat t (Z.lor TS_WAITING TS_WAIT_SPDQ) ;;;
          wobj_make_wait (SPDQ i) winfo_pdq ;;;
          dispatch ;;;
          get_wercd winfo_pdq
      end) ;;
  unlock_cpu ;;;
  ret ercd.

Definition psnd_pdq pdqid data datapri : K Z :=
  ! CHECK_TSKCTX_UNL ;;
  ! CHECK_PDQID pdqid ;;
  ! CHECK_PAR (TMIN_DPRI <=? datapri) ;;
  let i := INDEX pdqid in
  lock_cpu ;;;
  ercd <- (get s;;
    if pdqatr (p_pdqinib (pdqcb s i)) =? TA_NOEXS then ret E_NOEXS
    else if negb (datapri <=? maxdpri (p_pdqinib (pdqcb s i))) then ret E_PAR
    else
      r <- send_pridata i data datapri ;;
      match r with
      | Some dspreq => (if dspreq : bool then dispatch else ret ()) ;;; ret E_OK
      | None => ret E_TMOUT
      end) ;;
  unlock_cpu ;;;
  ret ercd.

Definition ipsnd_pdq pdqid data datapri : K Z :=
  ! CHECK_INTCTX_UNL ;;
  ! CHECK_PDQID pdqid ;;
  ! CHECK_PAR (TMIN_DPRI <=? datapri) ;;
  let i := INDEX pdqid in
  lock_cpu ;;;
  ercd <- (get s;;
    if pdqatr (p_pdqinib (pdqcb s i)) =? TA_NOEXS then ret E_NOEXS
    else if negb (datapri <=? maxdpri (p_pdqinib (pdqcb s i))) then ret E_PAR
    else
      r <- send_pridata i data datapri ;;
      match r with
      | Some dspreq => (if dspreq : bool then set_reqflg true else ret ()) ;;; ret E_OK
      | None => ret E_TMOUT
      end) ;;
  unlock_cpu ;;;
  ret ercd.

Definition tsnd_pdq pdqid data datapri tmout : K Z :=
  ! CHECK_DISPATCH ;;
  ! CHECK_PDQID pdqid ;;
  ! CHECK_TMOUT tmout ;;
  ! CHECK_PAR (TMIN_DPRI <=? datapri) ;;
  let i := INDEX pdqid in
  lock_cpu ;;;
  ercd <- (get s;;
    if pdqatr (p_pdqinib (pdqcb s i)) =? TA_NOEXS then ret E_NOEXS
    else if negb (datapri <=? maxdpri (p_pdqinib (pdqcb s i))) then ret E_PAR
    else
      r <- send_pridata i data datapri ;;
      match r with
      | Some dspreq => (if dspreq : bool then dispatch else ret ()) ;;; ret E_OK
      | None =>
          if tmout =? TMO_POL then ret E_TMOUT
          else
            winfo_pdq <- new_winfo ;;
            upd (upd_winfo winfo_pdq (fun W => W <| w_data := data |>)) ;;;
            upd (upd_winfo winfo_pdq (fun W => W <| w_datapri := datapri |>)) ;;;
            get s;; the t := p_runtsk s ;;
            set_tstat t (Z.lor TS_WAITING TS_WAIT_SPDQ) ;;;
            wobj_make_wait_tmout (SPDQ i) winfo_pdq tmout ;;;
            dispatch ;;;
            get_wercd winfo_pdq
      end) ;;
  unlock_cpu ;;;
  ret ercd.

(** The result of a receiver that has waited. *)
Definition pdq_result w : K (Z * option (Z * Z)) :=
  ercd <- get_wercd w ;;
  get s;; ret (ercd, if ercd =? E_OK then Some (w_data (winfos s w), w_datapri (winfos s w)) else None).

Definition rcv_pdq pdqid : K (Z * option (Z * Z)) :=
  ! CHECK_DISPATCH ;;
  ! CHECK_PDQID pdqid ;;
  let i := INDEX pdqid in
  lock_cpu ;;;
  r <- (get s;;
    if pdqatr (p_pdqinib (pdqcb s i)) =? TA_NOEXS then ret (E_NOEXS, None)
    else
      r <- receive_pridata i ;;
      match r with
      | Some (d, dspreq) => (if dspreq : bool then dispatch else ret ()) ;;; ret (E_OK, Some d)
      | None =>
          winfo_pdq <- new_winfo ;;
          get s;; the t := p_runtsk s ;;
          set_tstat t (Z.lor TS_WAITING TS_WAIT_RPDQ) ;;;
          make_wait winfo_pdq ;;;
          (get s;; the t := p_runtsk s ;; queue_insert_prev (RPDQ i) t) ;;;
          set_wobjcb winfo_pdq (SPDQ i) ;;;
          dispatch ;;;
          pdq_result winfo_pdq
      end) ;;
  unlock_cpu ;;;
  ret r.

Definition prcv_pdq pdqid : K (Z * option (Z * Z)) :=
  ! CHECK_TSKCTX_UNL ;;
  ! CHECK_PDQID pdqid ;;
  let i := INDEX pdqid in
  lock_cpu ;;;
  r <- (get s;;
    if pdqatr (p_pdqinib (pdqcb s i)) =? TA_NOEXS then ret (E_NOEXS, None)
    else
      r <- receive_pridata i ;;
      match r with
      | Some (d, dspreq) => (if dspreq : bool then dispatch else ret ()) ;;; ret (E_OK, Some d)
      | None => ret (E_TMOUT, None)
      end) ;;
  unlock_cpu ;;;
  ret r.

Definition trcv_pdq pdqid tmout : K (Z * option (Z * Z)) :=
  ! CHECK_DISPATCH ;;
  ! CHECK_PDQID pdqid ;;
  ! CHECK_TMOUT tmout ;;
  let i := INDEX pdqid in
  lock_cpu ;;;
  r <- (get s;;
    if pdqatr (p_pdqinib (pdqcb s i)) =? TA_NOEXS then ret (E_NOEXS, None)
    else
      r <- receive_pridata i ;;
      match r with
      | Some (d, dspreq) => (if dspreq : bool then dispatch else ret ()) ;;; ret (E_OK, Some d)
      | None =>
          if tmout =? TMO_POL then ret (E_TMOUT, None)
          else
            winfo_pdq <- new_winfo ;;
            get s;; the t := p_runtsk s ;;
            set_tstat t (Z.lor TS_WAITING TS_WAIT_RPDQ) ;;;
            make_wait_tmout winfo_pdq tmout ;;;
            (get s;; the t := p_runtsk s ;; queue_insert_prev (RPDQ i) t) ;;;
            set_wobjcb winfo_pdq (SPDQ i) ;;;
            dispatch ;;;
            pdq_result winfo_pdq
      end) ;;
  unlock_cpu ;;;
  ret r.

Definition ini_pdq pdqid : K Z :=
  ! CHECK_TSKCTX_UNL ;;
  ! CHECK_PDQID pdqid ;;
  let i := INDEX pdqid in
  lock_cpu ;;;
  ercd <- (get s;;
    if pdqatr (p_pdqinib (pdqcb s i)) =? TA_NOEXS then ret E_NOEXS
    else
      dspreq <- init_wait_queue (SPDQ i) ;;
      b <- init_wait_queue (RPDQ i) ;;
      let dspreq := if b : bool then true else dspreq in
      upd_pdq i pdq_reset ;;;
      (if dspreq then dispatch else ret ()) ;;;
      ret E_OK) ;;
  unlock_cpu ;;;
  ret ercd.

Definition ref_pdq pdqid : K (Z * option T_RPDQ) :=
  ! CHECK_TSKCTX_UNL ;;
  ! CHECK_PDQID pdqid ;;
  let i := INDEX pdqid in
  lock_cpu ;;;
  r <- (get s;;
    if pdqatr (p_pdqinib (pdqcb s i)) =? TA_NOEXS then ret (E_NOEXS, None)
    else ret (E_OK, Some (mkT_RPDQ (wait_tskid (SPDQ i) s) (wait_tskid (RPDQ i) s)
      (pdq_count (pdqcb s i))))) ;;
  unlock_cpu ;;;
  ret r.

End pridataq.
