(* ===== verification/PridataqProof.v ===== *)
(** * Priority data queues: the proofs

    A priority data queue keeps its data in the blocks of its management
    area: a chain of the data in the order of their priorities, a free list,
    and blocks never used.  Read along the chain it is a list into which data
    are inserted by priority, behind the data of the same priority. *)

From S2P Require Import Prelude Queue Data Kmonad TimeEvent Task Wait Core Release Service Object Kmm Dataqueue Pridataq.
Open Scope Z_scope.

(** ** Chains of blocks *)

Section chain.
Implicit Types (N : Z → option Z) (L : list Z) (a : option Z) (p : Z).

Fixpoint lchain N a L : Prop :=
  match L with [] => a = None | k :: L' => a = Some k ∧ lchain N (N k) L' end.

Lemma lchain_head N a L : lchain N a L → a = head L.
Proof. destruct L; simpl; [done|by intros [-> _]]. Qed.

Lemma lchain_fun N L1 : ∀ L2 a, lchain N a L1 → lchain N a L2 → L1 = L2.
Proof.
  induction L1 as [|x L1 IH]; intros [|y L2] a; simpl; [done|by intros -> [? _]|by intros [-> _]|].
  intros [-> H1] [[= <-] H2]. f_equal. by eapply IH.
Qed.

Lemma lchain_ext N N' L : ∀ a, (∀ x, x ∈ L → N' x = N x) → lchain N a L → lchain N' a L.
Proof.
  induction L as [|x L IH]; intros a Hx; simpl; [done|]. intros [-> Hc]. split; [done|].
  rewrite Hx by left. apply IH; [|done]. intros y Hy. apply Hx. by right.
Qed.

(** A block is linked in after [L1]. *)
Lemma lchain_insert N N' L1 L2 p : ∀ a,
  lchain N a (L1 ++ L2) → NoDup (L1 ++ L2) → p ∉ L1 ++ L2 → N' p = head L2 →
  (∀ x, last L1 = Some x → N' x = Some p) → (∀ x, x ∈ L1 ++ L2 → last L1 ≠ Some x → N' x = N x) →
  lchain N' (match L1 with [] => Some p | _ => a end) (L1 ++ p :: L2).
Proof.
  induction L1 as [|y L1 IH]; intros a; simpl.
  - intros Hc Hnd Hp H1 _ H3. split; [done|]. rewrite H1, <- (lchain_head _ _ _ Hc).
    eapply lchain_ext; [|exact Hc]. intros x Hx. by apply H3.
  - intros [-> Hc] [Hyl Hnd]%NoDup_cons [Hpy Hpl]%not_elem_of_cons H1 H2 H3. split; [done|].
    destruct L1 as [|z L1].
    + rewrite H2 by done. apply (IH (N y)); try done. intros x Hx _. apply H3; [by right|]. intros [= ->]. done.
    + rewrite H3 by (try (by left); intros Hl; apply Hyl; apply elem_of_app; left; by apply last_Some_elem_of).
      apply (IH (N y)); try done. intros x Hx Hl. apply H3; [by right|done].
Qed.
End chain.

(** ** One queue *)

Section queue.
Context {cfg : Config}.
Implicit Types (C : PDQCB) (M : Z → PDQMB) (L F : list Z) (p : Z) (V : list (Z * Z)).
Notation nexts M := (fun k => pd_next (M k)).
Notation pris M := (fun k => pd_datapri (M k)).

Definition pd_item M p : Z * Z := (pd_data (M p), pd_datapri (M p)).
(** Insertion into the abstract queue. *)
Definition pd_insert V (d : Z * Z) : list (Z * Z) := insert_before_first (fun e => d.2 <? e.2) d V.

(** The blocks: [L] hold data, [F] are on the free list. *)
Record pdq_blocks C M L F : Prop := {
  pb_cnt : 0 ≤ pdq_unused C ≤ pdqcnt (p_pdqinib C) ∧ sizeof_PDQMB * pdqcnt (p_pdqinib C) < 2^32;
  pb_free : lchain (nexts M) (p_freelist C) F;
  pb_nodup : NoDup (L ++ F);
  pb_range : ∀ k, k ∈ L ++ F → 0 ≤ k < pdq_unused C;
  pb_length : Z.of_nat (length (L ++ F)) = pdq_unused C }.

Record pdq_buf C M L F : Prop := {
  pq_blocks : pdq_blocks C M L F;
  pq_chain : lchain (nexts M) (pdq_p_head C) L;
  pq_sorted : prio_sorted (pris M) L;
  pq_count : pdq_count C = Z.of_nat (length L) }.

Lemma pdq_buf_reset C M :
  0 ≤ pdqcnt (p_pdqinib C) → sizeof_PDQMB * pdqcnt (p_pdqinib C) < 2^32 → pdq_buf (pdq_reset C) M [] [].
Proof.
  intros H1 H2. split; simpl; try done; [|constructor]. split; simpl; try done; [constructor|].
  by intros k ?%not_elem_of_nil.
Qed.

Lemma pdq_buf_bound C M L F : pdq_buf C M L F → 0 ≤ pdq_count C ≤ pdqcnt (p_pdqinib C) ∧ pdqcnt (p_pdqinib C) < 2^32.
Proof. intros [[[? ?] _ _ _ Hl] _ _ ->]. unfold sizeof_PDQMB in *. rewrite length_app in Hl. lia. Qed.

(** A block for new data. *)
Definition pd_block C : Z := match p_freelist C with Some p => p | None => pdq_unused C end.
Definition pd_taken C M : PDQCB :=
  match p_freelist C with
  | Some p => C <| p_freelist := pd_next (M p) |>
  | None => C <| pdq_unused := u32 (pdq_unused C + 1) |>
  end.

Lemma pd_taken_same C M :
  p_pdqinib (pd_taken C M) = p_pdqinib C ∧ pdq_count (pd_taken C M) = pdq_count C ∧ pdq_p_head (pd_taken C M) = pdq_p_head C.
Proof. unfold pd_taken. by destruct (p_freelist C). Qed.

Lemma pd_take_ok C M L F :
  pdq_buf C M L F → pdq_count C < pdqcnt (p_pdqinib C) →
  pd_block C ∉ L ∧ ∃ F', pdq_blocks (pd_taken C M) M (pd_block C :: L) F' ∧ ∀ x, x ∈ F' → x ∈ F.
Proof.
  intros [[H1 H2 H3 H4 H5] _ _ Hn] Hc. unfold pd_block, pd_taken, sizeof_PDQMB in *. rewrite length_app in H5.
  destruct F as [|p F]; simpl in H2; simpl length in H5.
  - rewrite H2. rewrite app_nil_r in *.
    assert (Hu : u32 (pdq_unused C + 1) = pdq_unused C + 1) by (apply Z.mod_small; lia).
    assert (Hp : pdq_unused C ∉ L) by (intros Hp%H4; lia). split; [done|].
    exists []. split; [|done]. split; simpl; rewrite ?app_nil_r, ?Hu; unfold sizeof_PDQMB; try done; try lia.
    + by apply NoDup_cons.
    + intros k [->|Hk]%elem_of_cons; [lia|]. specialize (H4 k Hk). lia.
  - destruct H2 as [-> H2]. assert (Hp : p ∉ L).
    { apply NoDup_app in H3 as (_ & H3 & _). intros Hp. by apply (H3 p Hp); left. }
    split; [done|]. exists F. split; [|by right]. split; simpl; try done; unfold sizeof_PDQMB; try done.
    + rewrite <- Permutation_middle in H3. exact H3.
    + intros k Hk. apply H4. rewrite elem_of_cons, elem_of_app in Hk. rewrite elem_of_app, elem_of_cons. tauto.
    + rewrite length_app. lia.
Qed.

(** Links written in two blocks. *)
Definition pd_link M p (n px : option Z) : Z → PDQMB :=
  let M1 := <[p := (M p) <| pd_next := n |>]> M in
  match px with Some x => <[x := (M1 x) <| pd_next := Some p |>]> M1 | None => M1 end.

Lemma pd_link_item M p n px x :
  pd_data (pd_link M p n px x) = pd_data (M x) ∧ pd_datapri (pd_link M p n px x) = pd_datapri (M x).
Proof.
  assert (H1 : ∀ y, let B := <[p := (M p) <| pd_next := n |>]> M y in pd_data B = pd_data (M y) ∧ pd_datapri B = pd_datapri (M y)).
  { intros y. destruct (decide (y = p)) as [->|Hy]; [by rewrite fn_lookup_insert|by rewrite fn_lookup_insert_ne]. }
  unfold pd_link. destruct px as [z|]; [|apply H1].
  destruct (decide (x = z)) as [->|Hx]; [rewrite fn_lookup_insert; simpl; apply H1|rewrite fn_lookup_insert_ne by done; apply H1].
Qed.

Lemma pd_link_next M p n px :
  px ≠ Some p → pd_next (pd_link M p n px p) = n ∧ (∀ x, px = Some x → pd_next (pd_link M p n px x) = Some p) ∧
  (∀ x, x ≠ p → px ≠ Some x → pd_link M p n px x = M x).
Proof.
  intros Hp. unfold pd_link. destruct px as [z|]; split_and!; try done.
  - rewrite fn_lookup_insert_ne by congruence. by rewrite fn_lookup_insert.
  - intros x [= ->]. by rewrite fn_lookup_insert.
  - intros x Hx Hz. rewrite !fn_lookup_insert_ne by congruence. done.
  - by rewrite fn_lookup_insert.
  - intros x Hx _. by rewrite fn_lookup_insert_ne.
Qed.

(** What [enqueue_pridata] makes of a queue. *)
Definition pd_enq C M L1 : PDQCB :=
  match L1 with [] => (pd_taken C M) <| pdq_p_head := Some (pd_block C) |> | _ => pd_taken C M end
    <| pdq_count := u32 (pdq_count C + 1) |>.

Lemma pd_enq_eq C M L1 :
  p_pdqinib (pd_enq C M L1) = p_pdqinib C ∧ pdq_count (pd_enq C M L1) = u32 (pdq_count C + 1) ∧
  pdq_unused (pd_enq C M L1) = pdq_unused (pd_taken C M) ∧ p_freelist (pd_enq C M L1) = p_freelist (pd_taken C M) ∧
  pdq_p_head (pd_enq C M L1) = match L1 with [] => Some (pd_block C) | _ => pdq_p_head C end.
Proof. destruct (pd_taken_same C M) as (E1 & E2 & E3). unfold pd_enq. destruct L1; simpl; split_and!; done. Qed.

Lemma pd_enq_ok C M M1 L F L1 L2 p B :
  pdq_buf C M L F → pdq_count C < pdqcnt (p_pdqinib C) → p = pd_block C → (∀ x, x ≠ p → M1 x = M x) → M1 p = B → L = L1 ++ L2 →
  insert_before_first (fun x => pd_datapri B <? pd_datapri (M1 x)) p L = L1 ++ p :: L2 →
  let M' := pd_link M1 p (head L2) (last L1) in
  ∃ F', pdq_buf (pd_enq C M L1) M' (L1 ++ p :: L2) F' ∧
    pd_item M' <$> L1 ++ p :: L2 = pd_insert (pd_item M <$> L) (pd_data B, pd_datapri B).
Proof.
  intros HP Hc Hp HMp HM1 HL HS M'. pose proof (pdq_buf_bound _ _ _ _ HP) as [Hb Hb'].
  destruct (pd_take_ok C M L F HP Hc) as (HpL & F' & [T1 T2 T3 T4 T5] & HF'). rewrite <- Hp in *.
  destruct (pd_enq_eq C M L1) as (E1 & E2 & E3 & E4 & E5). destruct HP as [[_ _ Hnd _ _] Q2 Q3 Q4].
  assert (Hl1 : ∀ x, last L1 = Some x → x ∈ L) by (intros x Hx; rewrite HL; apply elem_of_app; left; by apply last_Some_elem_of).
  destruct (pd_link_next M1 p (head L2) (last L1)) as (N1 & N2 & N3); [by intros ?%Hl1|].
  assert (Hperm : L1 ++ p :: L2 ≡ₚ p :: L) by (rewrite HL; symmetry; apply Permutation_middle).
  assert (HpF : p ∉ F') by (apply NoDup_app in T3 as (_ & T3 & _); apply T3; left).
  assert (HLF : ∀ x, x ∈ L → x ∉ F').
  { intros x Hx. apply NoDup_app in T3 as (_ & T3 & _). apply T3. by right. }
  destruct (pd_taken_same C M) as (I1 & _). rewrite I1 in T1. apply NoDup_app in Hnd as (Hnd & _).
  assert (HpL12 : p ∉ L1 ++ L2) by (by rewrite <- HL).
  exists F'. split; [split; [split|..]|].
  - by rewrite E1, E3.
  - rewrite E4. eapply lchain_ext; [|exact T2]. intros x Hx. unfold M'.
    rewrite N3, HMp; [done|by intros ->|by intros ->|]. intros Hl%Hl1. by apply (HLF x).
  - rewrite Hperm. exact T3.
  - intros k. rewrite Hperm, E3. apply T4.
  - rewrite Hperm, E3. exact T5.
  - rewrite E5, <- Hp. rewrite HL in Q2, Hnd. apply (lchain_insert (nexts M)); try done.
    intros x Hx Hl. unfold M'. rewrite <- HL in Hx. rewrite N3, HMp; try done; by intros ->.
  - apply (prio_sorted_ext (pris M1)); [intros x _; apply pd_link_item|]. rewrite <- HS.
    replace (pd_datapri B) with (pd_datapri (M1 p)) by (by rewrite HM1).
    apply (prio_sorted_insert (pris M1)). eapply prio_sorted_ext; [|exact Q3]. intros x Hx. simpl. rewrite HMp; [done|by intros ->].
  - rewrite E2, Q4, Hperm. simpl. unfold u32. rewrite Z.mod_small by lia. lia.
  - rewrite <- HS. unfold pd_insert. assert (Hpe : (pd_data B, pd_datapri B) = pd_item M1 p) by (unfold pd_item; by rewrite HM1).
    assert (HI : ∀ x, pd_item M' x = pd_item M1 x) by (intros x; unfold pd_item; destruct (pd_link_item M1 p (head L2) (last L1) x); by f_equal).
    assert (HI1 : pd_item M <$> L = pd_item M1 <$> L).
    { apply list_fmap_ext. intros k x Hx%list_elem_of_lookup_2. unfold pd_item. rewrite HMp; [done|by intros ->]. }
    rewrite Hpe, HI1, <- insert_before_first_fmap, <- Hpe. apply list_fmap_ext. by intros k x _.
Qed.

(** What [dequeue_pridata] makes of it. *)
Definition pd_deq C M p : PDQCB :=
  C <| pdq_p_head := pd_next (M p) |> <| pdq_count := u32 (pdq_count C - 1) |> <| p_freelist := Some p |>.

Lemma pd_deq_ok C M L F p :
  pdq_buf C M (p :: L) F →
  let M' := <[p := (M p) <| pd_next := p_freelist C |>]> M in
  pdq_p_head C = Some p ∧ pdq_buf (pd_deq C M p) M' L (p :: F) ∧ pd_item M' <$> L = pd_item M <$> L ∧
  pdq_count (pd_deq C M p) = pdq_count C - 1.
Proof.
  intros HP M'. pose proof (pdq_buf_bound _ _ _ _ HP) as [Hb Hb']. destruct HP as [[T1 T2 T3 T4 T5] [Q1 Q2] Q3 Q4].
  assert (HM : ∀ x, x ≠ p → M' x = M x) by (intros x Hx; unfold M'; by rewrite fn_lookup_insert_ne).
  simpl app in T3, T4, T5. pose proof T3 as [Hp Hnd]%NoDup_cons. apply not_elem_of_app in Hp as [HpL HpF].
  assert (Hcnt : pdq_count (pd_deq C M p) = pdq_count C - 1) by (simpl; rewrite Q4 in *; apply Z.mod_small; simpl in *; lia).
  split; [done|]. split_and!; [split; [split|..]|..].
  - done.
  - split; [done|]. unfold M'. rewrite fn_lookup_insert. simpl. eapply lchain_ext; [|exact T2]. intros x Hx. by rewrite HM by (by intros ->).
  - by rewrite <- Permutation_middle.
  - intros k. rewrite <- Permutation_middle. apply T4.
  - by rewrite <- Permutation_middle.
  - simpl. eapply lchain_ext; [|exact Q2]. intros x Hx. by rewrite HM by (by intros ->).
  - apply StronglySorted_inv in Q3 as [Q3 _]. eapply prio_sorted_ext; [|exact Q3]. intros x Hx. by rewrite HM by (by intros ->).
  - rewrite Hcnt, Q4. simpl length. lia.
  - apply list_fmap_ext. intros k x Hx%list_elem_of_lookup_2. unfold pd_item. by rewrite HM by (by intros ->).
  - done.
Qed.
End queue.

(** ** The queues of the kernel *)

Section pridataq.
Context {cfg : Config}.
Implicit Types (s : State) (g : nat → tst) (i : nat) (o : OBJ) (C : PDQCB) (M : Z → PDQMB) (L : list Z).

Definition pdq_noexs o i : bool := pdqatr (p_pdqinib (o_pdqcb o i)) =? TA_NOEXS.
Definition pdq_area o i : option Z :=
  if pdq_noexs o i || (pdqcnt (p_pdqinib (o_pdqcb o i)) =? 0) then None else Some (p_pdqmb (p_pdqinib (o_pdqcb o i))).
(** The management area of an existing queue that has one. *)
Definition pdq_mem o i : Z → PDQMB :=
  match pdq_area o i with Some a => o_pdqmb o a | None => fun _ => mkPDQMB None 0 0 end.

(** Senders wait only when the queue is full, receivers only when it is
    empty, and never both. *)
Record pdq_ok C M (S R : list nat) : Prop := {
  pdq_data : ∃ L F, pdq_buf C M L F;
  pdq_send : S ≠ [] → pdq_count C = pdqcnt (p_pdqinib C);
  pdq_recv : R ≠ [] → pdq_count C = 0;
  pdq_excl : S = [] ∨ R = [] }.

Lemma pdq_ok_shrink C M S R S' R' :
  (∀ x, x ∈ S' → x ∈ S) → (∀ x, x ∈ R' → x ∈ R) → pdq_ok C M S R → pdq_ok C M S' R'.
Proof.
  intros HS HR [O1 O2 O3 O4]. split; [done| | |].
  - intros Hn. apply O2. intros Hx. by apply Hn, (subset_nil S).
  - intros Hn. apply O3. intros Hx. by apply Hn, (subset_nil R).
  - destruct O4; [left; by eapply subset_nil|right; by eapply subset_nil].
Qed.

(** Without blocks there is nothing in the memory. *)
Lemma pdq_buf_none C M M' L F : pdqcnt (p_pdqinib C) = 0 → pdq_buf C M L F → L = [] ∧ F = [] ∧ pdq_buf C M' L F.
Proof.
  intros Hz [[T1 T2 T3 T4 T5] Q2 Q3 Q4]. rewrite length_app in T5.
  destruct L; [|simpl length in T5; lia]. destruct F; [|simpl length in T5; lia].
  split_and!; [done..|]. split; [|done|constructor|done]. by split.
Qed.

Definition pdq_only o o' : Prop :=
  o' = o <| o_pdqcb := o_pdqcb o' |> <| o_free_pdqcb := o_free_pdqcb o' |> <| o_pdqmb := o_pdqmb o' |> ∧
  (areas_ok (pdq_area o) (o_kmm_brk o) → areas_ok (pdq_area o') (o_kmm_brk o')).

Lemma pdq_same_free o o' :
  o' = o <| o_pdqcb := o_pdqcb o' |> <| o_pdqmb := o_pdqmb o' |> →
  o' = o <| o_pdqcb := o_pdqcb o' |> <| o_free_pdqcb := o_free_pdqcb o' |> <| o_pdqmb := o_pdqmb o' |>.
Proof.
  intros Ho. assert (Hfr : o_free_pdqcb o' = o_free_pdqcb o) by (by rewrite Ho). rewrite Hfr. destruct o. exact Ho.
Qed.

#[export] Instance pdq_kind : Kind (PDQCB * (Z → PDQMB)).
Proof.
  refine {| cbs := fun o i => (o_pdqcb o i, pdq_mem o i); frees := o_free_pdqcb; cb_atr := fun CM => pdqatr (p_pdqinib CM.1);
    cb_queue := SPDQ; cb_of := fun q => match q with SPDQ i | RPDQ i => Some i | _ => None end;
    cb_only := pdq_only; cb_ok := fun s i => pdq_ok (pdqcb s i) (pdq_mem (obj s) i) (wq s (SPDQ i)) (wq s (RPDQ i)) |}.
  - intros s q i Hq. by destruct q; simplify_eq.
  - intros F s q Hq [Hon _]. destruct q; simpl in *; try rewrite Hon; done.
  - done.
  - intros TR Y P s s' i X HF HX [= E1 E2]. rewrite E1, E2. apply pdq_ok_shrink; intros x Hx.
    + by apply (fr_queue _ _ _ _ HF (SPDQ i) x), HX.
    + by apply (fr_queue _ _ _ _ HF (RPDQ i) x), HX.
  - intros o. split; [by destruct o|done].
  - intros q i Hq. by destruct q.
Defined.
Notation pdq_inv := (kind_inv (kd := pdq_kind)).
Notation pool_mem s i := (o_pdqmb (obj s) (p_pdqmb (p_pdqinib (pdqcb s i)))).

(** What the queue holds, and what its waiting senders bring. *)
Definition pdq_holds s i (V : list (Z * Z)) : Prop :=
  ∃ L F, pdq_buf (pdqcb s i) (pool_mem s i) L F ∧ V = pd_item (pool_mem s i) <$> L.
Definition sender_pridata s (t : nat) : Z * Z :=
  match p_winfo (tcb_table s t) with Some w => (w_data (winfos s w), w_datapri (winfos s w)) | None => (0, 0) end.

(** A change of queue [i] and its management area. *)
Record pdq_step i C' M' o o' : Prop := {
  ps_only : o' = o <| o_pdqcb := o_pdqcb o' |> <| o_pdqmb := o_pdqmb o' |>;
  ps_other : ∀ j, j ≠ i → o_pdqcb o' j = o_pdqcb o j;
  ps_cb : o_pdqcb o' i = C';
  ps_ini : p_pdqinib C' = p_pdqinib (o_pdqcb o i);
  ps_mb : o_pdqmb o' (p_pdqmb (p_pdqinib C')) = M';
  ps_mem : ∀ b, (0 < pdqcnt (p_pdqinib C') → b ≠ p_pdqmb (p_pdqinib C')) → o_pdqmb o' b = o_pdqmb o b }.

Lemma pdq_step_refl i o : pdq_step i (o_pdqcb o i) (o_pdqmb o (p_pdqmb (p_pdqinib (o_pdqcb o i)))) o o.
Proof. split; try done. by destruct o. Qed.

Lemma pdq_step_trans i C1 C2 M1 M2 o1 o2 o3 :
  pdq_step i C1 M1 o1 o2 → pdq_step i C2 M2 o2 o3 → pdq_step i C2 M2 o1 o3.
Proof.
  intros [A1 A2 A3 A4 A5 A6] [B1 B2 B3 B4 B5 B6]. split; try done.
  - rewrite B1, A1. by destruct o1.
  - intros j Hj. by rewrite B2, A2.
  - by rewrite B4, A3, A4.
  - intros b Hb. rewrite B6 by done. rewrite B4, A3 in Hb. by apply A6.
Qed.

Lemma pdq_step_ini i C' M' o o' j : pdq_step i C' M' o o' → p_pdqinib (o_pdqcb o' j) = p_pdqinib (o_pdqcb o j).
Proof.
  intros [D1 D2 D3 D4 D5 D6]. destruct (decide (j = i)) as [->|Hne]; [by rewrite D3, D4|by rewrite D2].
Qed.

Lemma pdq_step_atr i C' M' F s q :
  pdq_step i C' M' (obj s) (F (obj s)) → wobjatr (upd_obj F s) q = wobjatr s q.
Proof.
  intros HS. pose proof (fun j => pdq_step_ini _ _ _ _ _ j HS) as Hj. destruct HS as [D1 _ _ _ _ _].
  destruct q; simpl; rewrite ?Hj; try done; by rewrite D1.
Qed.

(** The areas stay where they are, those of other queues as they are. *)
Lemma pdq_step_area i C' M' o o' j : pdq_step i C' M' o o' → pdq_area o' j = pdq_area o j.
Proof. intros HS. unfold pdq_area, pdq_noexs. by rewrite (pdq_step_ini _ _ _ _ _ j HS). Qed.

Lemma pdq_step_mem i C' M' o o' j :
  pdq_step i C' M' o o' → areas_ok (pdq_area o) (o_kmm_brk o) → pdqatr (p_pdqinib (o_pdqcb o i)) ≠ TA_NOEXS →
  j ≠ i → pdq_mem o' j = pdq_mem o j.
Proof.
  intros HS Har He Hne. unfold pdq_mem. rewrite (pdq_step_area _ _ _ _ _ j HS).
  destruct (pdq_area o j) as [a|] eqn:Ha; [|done]. destruct HS as [D1 D2 D3 D4 D5 D6]. apply D6.
  rewrite D4. intros Hpos ->. apply Hne. eapply (ar_distinct _ _ Har); [exact Ha|].
  unfold pdq_area, pdq_noexs. rewrite (proj2 (Z.eqb_neq _ _) He), (proj2 (Z.eqb_neq _ _)) by lia. done.
Qed.

Lemma pdq_mem_exists o i :
  pdqatr (p_pdqinib (o_pdqcb o i)) ≠ TA_NOEXS → pdqcnt (p_pdqinib (o_pdqcb o i)) ≠ 0 →
  pdq_mem o i = o_pdqmb o (p_pdqmb (p_pdqinib (o_pdqcb o i))).
Proof.
  intros He Hc. unfold pdq_mem, pdq_area, pdq_noexs. by rewrite (proj2 (Z.eqb_neq _ _) He), (proj2 (Z.eqb_neq _ _) Hc).
Qed.

Lemma pdq_ok_mem o i C S R :
  pdqatr (p_pdqinib (o_pdqcb o i)) ≠ TA_NOEXS → p_pdqinib C = p_pdqinib (o_pdqcb o i) →
  pdq_ok C (pdq_mem o i) S R ↔ pdq_ok C (o_pdqmb o (p_pdqmb (p_pdqinib (o_pdqcb o i)))) S R.
Proof.
  intros He Hi. destruct (decide (pdqcnt (p_pdqinib C) = 0)) as [Hz|Hz].
  - split; intros [(L & F & HP) O2 O3 O4]; (split; [|done..]); exists L, F; by eapply pdq_buf_none.
  - rewrite pdq_mem_exists; [done|done|by rewrite <- Hi].
Qed.

(** ** Operations *)

(** The loop of [enqueue_pridata] finds the place of the data. *)
Lemma find_pridata_ok s i pri p L : ∀ fuel prev,
  lchain (fun k => pd_next (pool_mem s i k)) (get_link s i prev) L → (length L < fuel)%nat →
  ∃ L1 L2, L = L1 ++ L2 ∧
    insert_before_first (fun x => pri <? pd_datapri (pool_mem s i x)) p L = L1 ++ p :: L2 ∧
    find_pridata fuel s i pri prev = Some (match last L1 with Some x => Some x | None => prev end, head L2).
Proof.
  induction L as [|x L IH]; intros [|fuel] prev Hc Hlen; simpl in Hlen; try lia; simpl in Hc; cbn [find_pridata].
  - rewrite Hc. by exists [], [].
  - destruct Hc as [-> Hc]. simpl. destruct (pri <? pd_datapri (pool_mem s i x)) eqn:Hp; [by exists [], (x :: L)|].
    destruct (IH fuel (Some x)) as (L1 & L2 & E1 & E2 & E3); [exact Hc|lia|].
    exists (x :: L1), L2. split_and!; [by rewrite E1|by rewrite E2|]. rewrite E3. f_equal. f_equal.
    destruct L1 as [|y L1]; [done|]. change (last (x :: y :: L1)) with (last (y :: L1)).
    destruct (last (y :: L1)) eqn:El; [done|by apply last_None in El].
Qed.

Lemma enqueue_pridata_ok s i d pri L F :
  pdq_buf (pdqcb s i) (pool_mem s i) L F → pdq_count (pdqcb s i) < pdqcnt (p_pdqinib (pdqcb s i)) →
  ∃ G C' M' L' F', enqueue_pridata i d pri s = RET () (upd_obj G s) ∧ pdq_step i C' M' (obj s) (G (obj s)) ∧
    pdq_buf C' M' L' F' ∧ pd_item M' <$> L' = pd_insert (pd_item (pool_mem s i) <$> L) (d, pri) ∧
    pdq_count C' = pdq_count (pdqcb s i) + 1.
Proof.
  intros HP Hc. set (C := pdqcb s i) in *. set (M := pool_mem s i) in *. set (a := p_pdqmb (p_pdqinib C)) in *.
  set (p := pd_block C). destruct (pd_taken_same C M) as (E1 & E2 & E3). destruct (pdq_buf_bound _ _ _ _ HP) as [Hb0 _].
  set (s1 := upd_obj (fun o => o <| o_pdqcb ::= fun T => <[i := pd_taken C M]> T |>) s).
  set (B0 := (M p) <| pd_data := d |>). set (B := B0 <| pd_datapri := pri |>). set (M1 := <[p := B]> (<[p := B0]> M)).
  unfold enqueue_pridata, kget at 1. fold C.
  rewrite (bind_RET _ _ _ p s1) by (unfold s1, p, pd_taken, pd_block; by destruct (p_freelist C)).
  do 2 erewrite bind_RET by reflexivity. unfold kget at 1.
  match goal with |- context [find_pridata _ ?x] => set (s2 := x) end.
  assert (HC2 : pdqcb s2 i = pd_taken C M) by (unfold s2; cb_lookup).
  assert (HM2 : o_pdqmb (obj s2) a = M1).
  { unfold s2. simpl. rewrite !fn_lookup_insert. done. }
  assert (HmM : pool_mem s2 i = M1) by (by rewrite HC2, E1).
  assert (Hp1 : M1 p = B) by (unfold M1; by rewrite fn_lookup_insert).
  assert (Hne1 : ∀ x, x ≠ p → M1 x = M x) by (intros x Hx; unfold M1; by rewrite !fn_lookup_insert_ne).
  assert (HpL : p ∉ L) by (by apply (pd_take_ok C M L F)).
  assert (Hch : lchain (fun k => pd_next (pool_mem s2 i k)) (get_link s2 i None) L).
  { change (get_link s2 i None) with (pdq_p_head (pdqcb s2 i)). rewrite HC2, E3. eapply lchain_ext; [|apply HP].
    intros x Hx. cbv beta. rewrite E1. fold a. by rewrite HM2, Hne1 by (by intros ->). }
  destruct (find_pridata_ok s2 i pri p L (S (Z.to_nat (pdq_count C))) None Hch) as (L1 & L2 & H1 & H2 & H3).
  { rewrite (pq_count _ _ _ _ HP). lia. }
  rewrite HmM in H2. destruct (pd_enq_ok C M M1 L F L1 L2 p B HP Hc eq_refl Hne1 Hp1 H1 H2) as (F' & HB & HI).
  assert (Hcnt : pdq_count (pd_enq C M L1) = pdq_count C + 1).
  { destruct (pd_enq_eq C M L1) as (_ & -> & _). pose proof (pdq_buf_bound _ _ _ _ HP). apply Z.mod_small. lia. }
  unfold deref. rewrite H3. simpl.
  enough (∃ s3, (upd_pdqmb (p_pdqmb (p_pdqinib C)) p (fun B => B <| pd_next := head L2 |>) ;;;
      set_link i match last L1 with Some x => Some x | None => None end (Some p) ;;;
      upd_pdq i (fun C => C <| pdq_count := u32 (pdq_count C + 1) |>)) s2 = RET () s3 ∧ s3 = upd_obj (fun _ => obj s3) s ∧
      pdq_step i (pd_enq C M L1) (pd_link M1 p (head L2) (last L1)) (obj s) (obj s3)) as (s3 & E4 & E5 & HS).
  { exists (fun _ => obj s3), (pd_enq C M L1), (pd_link M1 p (head L2) (last L1)), (L1 ++ p :: L2), F'. by rewrite E4, <- E5. }
  assert (Hat : ∀ s0, pdqcb s0 i = pd_taken C M → p_pdqmb (p_pdqinib (pdqcb s0 i)) = a) by (intros s0 ->; by rewrite E1).
  destruct (last L1) as [x|] eqn:Hl.
  - erewrite bind_RET by reflexivity. unfold set_link, kget.
    match goal with |- context [upd_obj ?f s2] => set (s4 := upd_obj f s2) end. erewrite bind_RET by reflexivity.
    eexists. split; [reflexivity|]. split; [done|]. rewrite (Hat s4 HC2).
    assert (Hhd : pd_enq C M L1 = (pd_taken C M) <| pdq_count := u32 (pdq_count C + 1) |>) by (unfold pd_enq; by destruct L1).
    split; rewrite ?(proj1 (pd_enq_eq C M L1)); simpl; try done.
    + intros j Hj. by rewrite !fn_lookup_insert_ne.
    + rewrite !fn_lookup_insert, Hhd. by rewrite E2.
    + fold a. rewrite !fn_lookup_insert, ?Hp1. done.
    + fold a. intros b Hb. rewrite !fn_lookup_insert_ne; [done|..]; apply not_eq_sym, Hb; lia.
  - apply last_None in Hl as ->. erewrite bind_RET by reflexivity. unfold set_link, kget. erewrite bind_RET by reflexivity.
    eexists. split; [reflexivity|]. split; [done|]. split; rewrite ?(proj1 (pd_enq_eq C M [])); simpl; try done.
    + intros j Hj. by rewrite !fn_lookup_insert_ne.
    + rewrite !fn_lookup_insert. unfold pd_enq. by rewrite <- E2.
    + fold a. rewrite !fn_lookup_insert, ?Hp1. done.
    + fold a. intros b Hb. rewrite !fn_lookup_insert_ne; [done|..]; apply not_eq_sym, Hb; lia.
Qed.

Lemma dequeue_pridata_ok s i p L F :
  pdq_buf (pdqcb s i) (pool_mem s i) (p :: L) F →
  ∃ G C' M' F', dequeue_pridata i s = RET (pd_item (pool_mem s i) p) (upd_obj G s) ∧ pdq_step i C' M' (obj s) (G (obj s)) ∧
    pdq_buf C' M' L F' ∧ pd_item M' <$> L = pd_item (pool_mem s i) <$> L ∧ pdq_count C' = pdq_count (pdqcb s i) - 1.
Proof.
  intros HP. destruct (pd_deq_ok _ _ _ _ _ HP) as (Hh & HP' & HI & Hc).
  pose proof (pdq_buf_bound _ _ _ _ HP) as [Hb _]. pose proof (pq_count _ _ _ _ HP) as Hn. simpl in Hn.
  eexists (fun o => _), _, _, (p :: F). split.
  { unfold dequeue_pridata, kget, deref. rewrite Hh. reflexivity. }
  split; [|by split_and!]. split; simpl; try done.
  - intros j Hj. by rewrite !fn_lookup_insert_ne.
  - by rewrite !fn_lookup_insert.
  - by rewrite fn_lookup_insert.
  - intros b Hb'. rewrite fn_lookup_insert_ne; [done|]. apply not_eq_sym, Hb'. lia.
Qed.

Section calls.
Context (OInv : State → Prop) `{!Objects OInv}.
Context `{!Component OInv pdq_inv (kind_own (kd := pdq_kind)) (cb_only (Kind := pdq_kind))}.
Context `{!Areas OInv pdq_area} `{!Component OInv kmm_inv (fun _ => False) kmm_only}.
Notation WP := (wp (rely OInv) (guar OInv)).
Notation Inv := (Inv OInv).
Notation OK := (OK OInv).
Notation Mid := (Mid OInv).

Lemma pdq_exists s i :
  OInv s → pdqatr (p_pdqinib (pdqcb s i)) ≠ TA_NOEXS →
  i ∉ o_free_pdqcb (obj s) ∧ pdq_ok (pdqcb s i) (pool_mem s i) (wq s (SPDQ i)) (wq s (RPDQ i)) ∧
  header_ok s (SPDQ i) = true.
Proof.
  intros HO He. destruct (kind_exists (kd := pdq_kind) s i (comp_get s HO) He) as (H1 & H2 & H3).
  split_and!; [done| |done]. by apply pdq_ok_mem.
Qed.

(** An existing queue changes while tasks move. *)
Lemma pdq_move s s' i C' M' :
  OInv s → pdqatr (p_pdqinib (pdqcb s i)) ≠ TA_NOEXS → frame (fun _ => False) any_obj s s' →
  pdq_step i C' M' (obj s) (obj s') → pdq_ok C' M' (wq s' (SPDQ i)) (wq s' (RPDQ i)) → OInv s'.
Proof.
  intros HO He HF HS Hok. destruct (pdq_exists s i HO He) as (Hfree & _). pose proof (areas_get s HO) as Har.
  pose proof HS as [D1 D2 D3 D4 D5 D6]. assert (Hini : p_pdqinib (pdqcb s' i) = p_pdqinib (pdqcb s i)) by (by rewrite D3).
  eapply (kind_move (kd := pdq_kind) OInv any_obj s s' i); simpl; try done.
  - split; [by apply pdq_same_free|]. intros _. eapply areas_ok_less; [exact Har|by rewrite D1|].
    intros j b. by rewrite (pdq_step_area _ _ _ _ _ j HS).
  - by rewrite D1.
  - intros j Hj. f_equal; [by apply D2|]. by eapply pdq_step_mem.
  - apply kind_ok_intro; [unfold gone; simpl; by rewrite Hini|]. simpl. apply pdq_ok_mem; [by rewrite Hini|done|].
    by rewrite D3, D5.
Qed.

Lemma pdq_put g s i G C' M' :
  Mid g s → pdqatr (p_pdqinib (pdqcb s i)) ≠ TA_NOEXS → pdq_step i C' M' (obj s) (G (obj s)) →
  pdq_ok C' M' (wq s (SPDQ i)) (wq s (RPDQ i)) → Mid g (upd_obj G s).
Proof.
  intros HM He Hst Hok. apply Mid_obj; [done| |].
  - intros q _. left. by eapply pdq_step_atr.
  - eapply pdq_move; [apply HM|exact He|by apply frame_obj; [apply frame_refl|]|exact Hst|exact Hok].
Qed.

Lemma pdq_step_holds s' i C' M' L F o :
  pdq_step i C' M' o (obj s') → pdq_buf C' M' L F → pdq_holds s' i (pd_item M' <$> L).
Proof. intros [D1 D2 D3 D4 D5 D6] HB. exists L, F. by rewrite D3, D5. Qed.

(** *** Sending *)

(** A receiver gets the data. *)
Lemma pdq_hand g s i d t l :
  Inv g s → wq s (RPDQ i) = t :: l →
  ∃ w s1 b s', queue_delete_next (RPDQ i) s = RET t s1 ∧
    (set_w_pridata t d.1 d.2 ;;; wait_complete t) s1 = RET b s' ∧ progress OInv g s b s' ∧
    p_winfo (tcb_table s t) = Some w ∧ (w_data (winfos s' w), w_datapri (winfos s' w)) = d ∧
    winfo (winfos s' w) = WERCD E_OK ∧ wq s' (RPDQ i) = l ∧ wq s' (SPDQ i) = wq s (SPDQ i) ∧ obj s' = obj s.
Proof.
  intros HI Hl. destruct (wake_touch_ok OInv g s (RPDQ i) t l HI eq_refl Hl) as (w & s1 & E1 & Hw1 & Hw & _ & Hwk).
  set (s2 := upd_winfo w (fun W => W <| w_datapri := d.2 |>) (upd_winfo w (fun W => W <| w_data := d.1 |>) s1)).
  destruct (Hwk s2) as (b & s' & E2 & Hp & HW & Hq & Ho & Hoth); [by do 2 (apply touch_upd_winfo; [|done]); apply touch_refl|done|].
  assert (E3 : set_w_pridata t d.1 d.2 s1 = RET () s2) by (unfold set_w_pridata, kget, deref; by rewrite Hw1).
  assert (HW2 : winfos s2 w = (winfos s1 w) <| w_data := d.1 |> <| w_datapri := d.2 |>) by (unfold s2; cb_lookup).
  exists w, s1, b, s'. split_and!; try done; rewrite ?HW, ?HW2; try (by destruct d); [|by apply Hoth].
  by rewrite (bind_RET _ _ _ _ _ E3).
Qed.

Definition pdq_sent s i d (b : bool) s' : Prop :=
  (∃ t w, wq s (RPDQ i) = t :: wq s' (RPDQ i) ∧ p_winfo (tcb_table s t) = Some w ∧
    (w_data (winfos s' w), w_datapri (winfos s' w)) = d ∧ winfo (winfos s' w) = WERCD E_OK ∧ obj s' = obj s) ∨
  (wq s (RPDQ i) = [] ∧ b = false ∧ wq s' = wq s ∧ ∀ V, pdq_holds s i V → pdq_holds s' i (pd_insert V d)).

Lemma send_pridata_ok g s i d :
  Inv g s → pdqatr (p_pdqinib (pdqcb s i)) ≠ TA_NOEXS →
  ∃ r s', send_pridata i d.1 d.2 s = RET r s' ∧
    match r with
    | Some b => progress OInv g s b s' ∧ pdq_sent s i d b s'
    | None => s' = s ∧ wq s (RPDQ i) = [] ∧ pdq_count (pdqcb s i) = pdqcnt (p_pdqinib (pdqcb s i))
    end.
Proof.
  intros HI He. destruct (pdq_exists s i (i_obj _ _ _ HI) He) as (Hfree & [(L & F & HB) O2 O3 O4] & _).
  destruct (pdq_buf_bound _ _ _ _ HB) as [Hb _].
  unfold send_pridata, kget, queue_empty, Fam.queue_empty. destruct (wq s (RPDQ i)) as [|t l] eqn:Hl; simpl.
  - destruct (Z.ltb_spec (pdq_count (pdqcb s i)) (pdqcnt (p_pdqinib (pdqcb s i)))) as [Hlt|Hge].
    + destruct (enqueue_pridata_ok s i d.1 d.2 L F HB Hlt) as (G & C' & M' & L' & F' & E & Hst & HB' & HI' & Hc').
      assert (Hnil : wq s (SPDQ i) = []).
      { destruct (wq s (SPDQ i)); [done|]. rewrite O2 in Hlt by done. lia. }
      exists (Some false), (upd_obj G s). rewrite (bind_RET _ _ _ _ _ E). split; [done|]. split.
      * apply progress_none; try done. eapply pdq_put; [by apply Inv_Mid|done|exact Hst|]. rewrite Hnil, Hl.
        split; try done; [by exists L', F'|by left].
      * right. split_and!; try done. intros V (L0 & F0 & HB0 & ->).
        rewrite (lchain_fun _ _ _ _ (pq_chain _ _ _ _ HB0) (pq_chain _ _ _ _ HB)).
        replace (pd_insert _ d) with (pd_item M' <$> L') by (by destruct d).
        eapply (pdq_step_holds (upd_obj G s)); [exact Hst|exact HB'].
    + exists None, s. split_and!; try done. lia.
  - destruct (pdq_hand g s i d t l HI Hl) as (w & s1 & b & s' & E1 & E2 & Hp & Hw & D1 & D2 & D3 & D4 & D5).
    exists (Some b), s'. split; [|split; [done|left; exists t, w; by rewrite D3]].
    rewrite (bind_RET _ _ _ _ _ E1). unfold bind in *.
    destruct (set_w_pridata t d.1 d.2 s1) as [[] s2|? ? ?|]; simpl in *; [|done|done]. by rewrite E2.
Qed.

(** *** Receiving *)

(** What a call that takes the first data leaves behind. *)
Definition pdq_received s i d s' : Prop :=
  ∃ V V', pdq_holds s i V ∧ pdq_holds s' i V' ∧
    match V, wq s (SPDQ i) with
    | d0 :: V0, [] => d = d0 ∧ V' = V0
    | d0 :: V0, t :: l => d = d0 ∧ V' = pd_insert V0 (sender_pridata s t) ∧ wq s' (SPDQ i) = l
    | [], t :: l => d = sender_pridata s t ∧ V' = [] ∧ wq s' (SPDQ i) = l
    | [], [] => False
    end.

(** The sender at the head of the queue; [s] is the state in which the queue
    may have been changed already, [G] what is done with its data. *)
Lemma pdq_sender g s i t l :
  KInv g s → settled g → wq s (SPDQ i) = t :: l →
  ∃ s1 w susp, queue_delete_next (SPDQ i) s = RET t s1 ∧ get_w_pridata t s1 = RET (sender_pridata s t) s1 ∧
    obj s1 = obj s ∧
    ∀ G C' M', pdq_step i C' M' (obj s) (G (obj s1)) →
      ∃ b s', wait_complete t (upd_obj G s1) = RET b s' ∧ woken g s t w susp (upd_obj G s1) b s' ∧
        obj s' = G (obj s1) ∧ wq s' (SPDQ i) = l ∧ (wq s (RPDQ i) = [] → wq s' (RPDQ i) = []).
Proof.
  intros HK Hset Hl. destruct (wake_obj_ok g s (SPDQ i) t l HK Hset eq_refl Hl) as (s1 & w & susp & E1 & Hs1 & Hw & Hwk).
  assert (Ho : obj s1 = obj s) by (by subst s1).
  exists s1, w, susp. split_and!; [done| |done|].
  { subst s1. unfold get_w_pridata, kget, sender_pridata. simpl. by rewrite Hw. }
  intros G C' M' Hst. destruct (Hwk G) as (b & s' & E & HW & Hq & _ & Hsub).
  { intros q. eapply (pdq_step_atr i C' M'). by rewrite Ho at 1. }
  exists b, s'. split_and!; try done; [apply (fr_obj _ _ _ _ (wk_frame _ _ _ _ _ _ _ _ HW))|].
  apply subset_nil. intros x. by apply Hsub.
Qed.

Lemma receive_pridata_ok g s i :
  Inv g s → pdqatr (p_pdqinib (pdqcb s i)) ≠ TA_NOEXS →
  ∃ r s', receive_pridata i s = RET r s' ∧
    match r with
    | Some (d, b) => progress OInv g s b s' ∧ pdq_received s i d s'
    | None => s' = s ∧ wq s (SPDQ i) = [] ∧ pdq_count (pdqcb s i) = 0
    end.
Proof.
  intros HI He. destruct (pdq_exists s i (i_obj _ _ _ HI) He) as (Hfree & [(L & F & HB) O2 O3 O4] & _).
  destruct (pdq_buf_bound _ _ _ _ HB) as [Hb _]. pose proof (pq_count _ _ _ _ HB) as Hn.
  assert (HV : pdq_holds s i (pd_item (pool_mem s i) <$> L)) by (by exists L, F).
  unfold receive_pridata, kget at 1. destruct (Z.ltb_spec 0 (pdq_count (pdqcb s i))) as [Hpos|Hz].
  - destruct L as [|p L]; [simpl in Hn; lia|].
    destruct (dequeue_pridata_ok s i p L F HB) as (G1 & C1 & M1 & F1 & E1 & St1 & HB1 & HI1 & Hc1).
    rewrite (bind_RET _ _ _ _ _ E1). unfold kget, queue_empty, Fam.queue_empty. set (s1 := upd_obj G1 s) in *.
    change (wq s1) with (wq s). destruct (wq s (SPDQ i)) as [|t l] eqn:Hl; simpl.
    + eexists _, s1. split; [reflexivity|]. split.
      * apply progress_none; try done. eapply pdq_put; [by apply Inv_Mid|done|exact St1|]. rewrite Hl.
        split; [by exists L, F1|done| |by left]. intros Hr. rewrite O3 in Hpos by done. lia.
      * eexists _, _. split; [exact HV|]. split; [eapply (pdq_step_holds s1); [exact St1|exact HB1]|].
        rewrite Hl. simpl. by rewrite HI1.
    + assert (HK1 : KInv g s1) by (apply KInv_obj; [apply HI|intros q _; left; by eapply pdq_step_atr]).
      destruct (pdq_sender g s1 i t l HK1 (i_settled _ _ _ HI) Hl) as (s2 & w & susp & E2 & E3 & Ho2 & Hwk).
      rewrite (bind_RET _ _ _ _ _ E2), (bind_RET _ _ _ _ _ E3).
      assert (HC2 : pdqcb s2 i = C1) by (rewrite Ho2; apply St1).
      assert (HM2 : pool_mem s2 i = M1) by (rewrite HC2, Ho2; apply St1).
      assert (Hini : p_pdqinib C1 = p_pdqinib (pdqcb s i)) by apply St1.
      destruct (enqueue_pridata_ok s2 i (sender_pridata s t).1 (sender_pridata s t).2 L F1)
        as (G2 & C2 & M2 & L2 & F2 & E4 & St2 & HB2 & HI2 & Hc2); [by rewrite HM2, HC2|rewrite HC2, Hini; lia|].
      rewrite HM2 in HI2. rewrite HC2 in Hc2. rewrite (bind_RET _ _ _ _ _ E4). rewrite Ho2 in St2.
      destruct (Hwk G2 C2 M2) as (b & s' & E5 & HW & Ho' & Hq & Hr); [by rewrite Ho2|].
      rewrite (bind_RET _ _ _ _ _ E5). eexists _, s'. split; [reflexivity|].
      destruct HW as [W1 W2 W3 W4 W5 W6 W7 W8]. rewrite Ho2 in Ho'. rewrite <- Ho' in St2.
      assert (St3 := pdq_step_trans _ _ _ _ _ _ _ _ St1 St2).
      assert (HRnil : wq s (RPDQ i) = []) by (by destruct O4). specialize (Hr HRnil).
      split.
      * exists (<[t := after_wait susp]> g). split_and!; try done; try apply W3. split; [done..|].
        eapply (pdq_move s); [apply HI|exact He| |exact St3|].
        -- eapply frame_any_trans; [|exact W3]. by apply (frame_obj _ any_obj G1); [apply frame_refl|].
        -- rewrite Hq, Hr. split; [by exists L2, F2| |done|by right].
           intros _. rewrite Hc2, Hc1, O2, (ps_ini _ _ _ _ _ St3) by done. lia.
      * eexists _, _. split; [exact HV|]. split; [eapply (pdq_step_holds s'); [exact St3|exact HB2]|].
        rewrite Hl, HI2, HI1. simpl. by destruct (sender_pridata s t).
  - destruct L as [|p L]; [|simpl in Hn; lia]. simpl in Hn.
    unfold queue_empty, Fam.queue_empty. destruct (wq s (SPDQ i)) as [|t l] eqn:Hl; simpl; [by exists None, s|].
    destruct (pdq_sender g s i t l (i_k _ _ _ HI) (i_settled _ _ _ HI) Hl) as (s2 & w & susp & E2 & E3 & Ho2 & Hwk).
    rewrite (bind_RET _ _ _ _ _ E2), (bind_RET _ _ _ _ _ E3).
    destruct (Hwk (fun o => o) _ _ (eq_rect_r (fun o => pdq_step _ _ _ _ o) (pdq_step_refl i (obj s)) Ho2))
      as (b & s' & E5 & HW & Ho' & Hq & Hr).
    replace (upd_obj (fun o => o) s2) with s2 in * by (by destruct s2).
    rewrite (bind_RET _ _ _ _ _ E5). eexists _, s'. split; [reflexivity|]. rewrite Ho2 in Ho'. split.
    + eapply woken_progress; [exact HW|]. eapply objs_tframe; [apply HI|]. eapply frame_only; [apply HW|]. by rewrite Ho'.
    + exists [], []. split; [exact HV|]. split; [exists [], F; by rewrite Ho'|]. by rewrite Hl.
Qed.

(** *** Waiting *)

Ltac pdq_begin s1 pdqid i HI He :=
  destruct (Z.eqb_spec (pdqatr (p_pdqinib (pdqcb s1 (INDEX pdqid)))) TA_NOEXS) as [He|He]; [svc_ret|];
  set (i := INDEX pdqid) in *.
(** A sending call tests the priority of the data as well. *)
Ltac pdq_send g s1 pdqid i data datapri HI He b s2 E Hr :=
  pdq_begin s1 pdqid i HI He; case_match; [svc_ret|];
  destruct (send_pridata_ok g s1 i (data, datapri) HI He) as ([b|] & s2 & E & Hr); (eapply wp_RET; [exact E|]).

(** The queues a task may enter. *)
Definition pdq_enters s i q : Prop :=
  q = SPDQ i ∧ wq s (RPDQ i) = [] ∧ pdq_count (pdqcb s i) = pdqcnt (p_pdqinib (pdqcb s i)) ∨
  q = RPDQ i ∧ wq s (SPDQ i) = [] ∧ pdq_count (pdqcb s i) = 0.

Lemma pdq_enter s s' i q :
  OInv s → pdqatr (p_pdqinib (pdqcb s i)) ≠ TA_NOEXS → pdq_enters s i q →
  tframe (fun q' => q' = q) s s' → OInv s'.
Proof.
  intros HO He Hq HF. destruct (pdq_exists s i HO He) as (Hfree & [HB O2 O3 O4] & _).
  pose proof (fr_obj _ _ _ _ HF) as Ho.
  assert (Hof : cb_of (Kind := pdq_kind) q = Some i) by (by destruct Hq as [[-> _]|[-> _]]).
  eapply (kind_move (kd := pdq_kind) OInv _ _ _ i _ HO HF); simpl; rewrite <- ?Ho; try done.
  - by intros q' ->.
  - split; [by destruct (obj s)|done].
  - apply kind_ok_intro; unfold gone; simpl; rewrite <- Ho; [done|]. apply pdq_ok_mem; [done..|].
    assert (Hsub : ∀ q', q' ≠ q → is_ready_queue q' = false → wq s q' = [] → wq s' q' = []).
    { intros q' Hne Hr. by apply (frame_empty _ _ _ _ _ _ _ HF). }
    destruct Hq as [(-> & Hnil & Hc)|(-> & Hnil & Hc)].
    + split; try done; [|right; by apply Hsub]. rewrite Hsub; done.
    + split; try done; [|left; by apply Hsub]. rewrite Hsub; done.
Qed.

Lemma pdq_sleepy g s t i q :
  Inv g s → in_task t s → g t = Runnable → dspflg s = true → pdqatr (p_pdqinib (pdqcb s i)) ≠ TA_NOEXS → pdq_enters s i q →
  ∃ w s1, new_winfo s = RET w s1 ∧
    (sleepy OInv g s1 t w ∧ ∀ g' s', blocked g s1 t w (WOBJ q) g' s' → OInv s') ∧
    ∀ d, let s2 := upd_winfo w (fun W => W <| w_datapri := d.2 |>) (upd_winfo w (fun W => W <| w_data := d.1 |>) s1) in
      sleepy OInv g s2 t w ∧ ∀ g' s', blocked g s2 t w (WOBJ q) g' s' → OInv s'.
Proof.
  intros HI Hin Ht Hd He Hq.
  destruct (new_winfo_ok OInv g s t HI Hin Ht Hd) as (s1 & w & E & Hsl & HF & _).
  assert (Hent : ∀ s2, tframe (fun _ => False) s s2 → ∀ g' s', blocked g s2 t w (WOBJ q) g' s' → OInv s').
  { intros s2 HF2 g' s' Hb. eapply (pdq_enter s); [apply HI|exact He|exact Hq|]. by eapply blocked_frame. }
  exists w, s1. split; [done|]. split; [split; [done|by apply Hent]|]. intros d.
  destruct (fill_winfo_ok OInv g s1 t w (fun W => W <| w_data := d.1 |>) Hsl) as [Hsl2 HF2].
  destruct (fill_winfo_ok OInv g _ t w (fun W => W <| w_datapri := d.2 |>) Hsl2) as [Hsl3 HF3].
  split; [done|]. apply Hent. eapply tframe_trans; [exact HF|]. by eapply tframe_trans.
Qed.

Lemma pdq_result_ok w s t : OK s → in_task t s → (∃ ercd, winfo (winfos s w) = WERCD ercd) →
  WP (fun _ s' => OK s' ∧ in_task t s') (pdq_result w s).
Proof. intros HOK Hin Hw. unfold pdq_result. apply wp_bind, get_wercd_ok; [done|]. by split. Qed.

(** *** The calls *)

Lemma psnd_pdq_ok pdqid data datapri : call_ok OInv (psnd_pdq pdqid data datapri).
Proof.
  intros s HOK. unfold psnd_pdq. task_call g t s1 HI Hin Ht Hd. pdq_send g s1 pdqid i data datapri HI He b s2 E Hr.
  - destruct Hr as [Hp _]. by eapply progress_ret_task.
  - destruct Hr as [-> _]. svc_ret.
Qed.

Lemma ipsnd_pdq_ok pdqid data datapri : call_ok OInv (ipsnd_pdq pdqid data datapri).
Proof.
  intros s HOK. unfold ipsnd_pdq. int_call g s1 HI Hin. pdq_send g s1 pdqid i data datapri HI He b s2 E Hr.
  - destruct Hr as [Hp _]. by eapply progress_ret_int.
  - destruct Hr as [-> _]. svc_ret.
Qed.

Lemma snd_pdq_ok pdqid data datapri : call_ok OInv (snd_pdq pdqid data datapri).
Proof.
  intros s HOK. unfold snd_pdq. task_call g t s1 HI Hin Ht Hd. pdq_send g s1 pdqid i data datapri HI He b s2 E Hr.
  - destruct Hr as [Hp _]. by eapply progress_ret_task.
  - destruct Hr as (-> & Hq1 & Hq2).
    destruct (pdq_sleepy g s1 t i (SPDQ i) HI Hin Ht) as (w & s2 & E2 & _ & Hf); [congruence|done|by left|].
    destruct (Hf (data, datapri)) as [Hsl Hent]. eapply wp_RET; [exact E2|]. do 2 (eapply wp_RET; [reflexivity|]).
    eapply (wobj_sleep_ok OInv g _ t w (SPDQ i)); try done. intros. apply get_wercd_ok; [done|]. by split.
Qed.

Lemma tsnd_pdq_ok pdqid data datapri tmout : tmout ≤ TMAX_RELTIM → call_ok OInv (tsnd_pdq pdqid data datapri tmout).
Proof.
  intros Hmax s HOK. unfold tsnd_pdq. task_call g t s1 HI Hin Ht Hd. pdq_send g s1 pdqid i data datapri HI He b s2 E Hr.
  - destruct Hr as [Hp _]. by eapply progress_ret_task.
  - destruct Hr as (-> & Hq1 & Hq2). destruct (Z.eqb_spec tmout TMO_POL) as [Hp|Hp]; [svc_ret|].
    destruct (pdq_sleepy g s1 t i (SPDQ i) HI Hin Ht) as (w & s2 & E2 & _ & Hf); [congruence|done|by left|].
    destruct (Hf (data, datapri)) as [Hsl Hent]. eapply wp_RET; [exact E2|]. do 2 (eapply wp_RET; [reflexivity|]).
    eapply (wobj_sleep_tmout_ok OInv g _ t w (SPDQ i)); try done; [|unfold TMO_FEVR in *; lia].
    intros. apply get_wercd_ok; [done|]. by split.
Qed.

Lemma prcv_pdq_ok pdqid : call_ok OInv (prcv_pdq pdqid).
Proof.
  intros s HOK. unfold prcv_pdq. task_call g t s1 HI Hin Ht Hd. pdq_begin s1 pdqid i HI He.
  destruct (receive_pridata_ok g s1 i HI He) as ([[d b]|] & s2 & E & Hr); (eapply wp_RET; [exact E|]).
  - destruct Hr as [Hp _]. by eapply progress_ret_task.
  - destruct Hr as [-> _]. svc_ret.
Qed.

Lemma rcv_pdq_ok pdqid : call_ok OInv (rcv_pdq pdqid).
Proof.
  intros s HOK. unfold rcv_pdq. task_call g t s1 HI Hin Ht Hd. pdq_begin s1 pdqid i HI He.
  destruct (receive_pridata_ok g s1 i HI He) as ([[d b]|] & s2 & E & Hr); (eapply wp_RET; [exact E|]).
  - destruct Hr as [Hp _]. by eapply progress_ret_task.
  - destruct Hr as (-> & Hq1 & Hq2).
    destruct (pdq_sleepy g s1 t i (RPDQ i) HI Hin Ht) as (w & s2 & E2 & [Hsl Hent] & _); [congruence|done|by right|].
    eapply wp_RET; [exact E2|].
    eapply (rcv_sleep_ok OInv g _ t w (RPDQ i)); try done. intros. by apply pdq_result_ok.
Qed.

Lemma trcv_pdq_ok pdqid tmout : tmout ≤ TMAX_RELTIM → call_ok OInv (trcv_pdq pdqid tmout).
Proof.
  intros Hmax s HOK. unfold trcv_pdq. task_call g t s1 HI Hin Ht Hd. pdq_begin s1 pdqid i HI He.
  destruct (receive_pridata_ok g s1 i HI He) as ([[d b]|] & s2 & E & Hr); (eapply wp_RET; [exact E|]).
  - destruct Hr as [Hp _]. by eapply progress_ret_task.
  - destruct Hr as (-> & Hq1 & Hq2). destruct (Z.eqb_spec tmout TMO_POL) as [Hp|Hp]; [svc_ret|].
    destruct (pdq_sleepy g s1 t i (RPDQ i) HI Hin Ht) as (w & s2 & E2 & [Hsl Hent] & _); [congruence|done|by right|].
    eapply wp_RET; [exact E2|].
    eapply (rcv_sleep_tmout_ok OInv g _ t w (RPDQ i)); try done; [|unfold TMO_FEVR in *; lia].
    intros. by apply pdq_result_ok.
Qed.

Lemma ini_pdq_ok pdqid : call_ok OInv (ini_pdq pdqid).
Proof.
  intros s HOK. unfold ini_pdq. task_call g t s1 HI Hin Ht Hd. pdq_begin s1 pdqid i HI He.
  destruct (pdq_exists s1 i (i_obj _ _ _ HI) He) as (Hfree & Hok & Hhd).
  destruct (init_queues_ok OInv g s1 (SPDQ i) (RPDQ i) (Inv_Mid _ _ _ HI) eq_refl eq_refl Hhd)
    as (b1 & b2 & s1' & g' & s2 & E1 & E2 & HM & HF & Hw & N1 & N2 & Hr); [done|].
  eapply wp_RET; [exact E1|]. eapply wp_RET; [exact E2|].
  eapply wp_RET; [reflexivity|]. eapply progress_ret_task; [exact HI|done..|].
  pose proof (fr_obj _ _ _ _ HF) as Ho. exists g'. split_and!; try done; try apply HF.
  eapply (pdq_put g' s2 i (fun o => _) (pdq_reset (pdqcb s2 i)) (pool_mem s2 i) HM); [by rewrite <- Ho|split; try done|].
  - intros j Hne. cb_lookup.
  - cb_lookup.
  - rewrite N1, N2. destruct Hok as [(L & F & [[[? ?] _ _ _ _] _ _ _]) _ _ _].
    split; [|done..|by left]. exists [], []. apply pdq_buf_reset; rewrite <- Ho; lia.
Qed.

Lemma del_pdq_ok pdqid : call_ok OInv (del_pdq pdqid).
Proof.
  intros s HOK. unfold del_pdq. task_call g t s1 HI Hin Ht Hd. pdq_begin s1 pdqid i HI He.
  destruct (pdq_exists s1 i (i_obj _ _ _ HI) He) as (Hfree & Hok & Hhd).
  destruct (tmax_spdqid <? IDOF i); [|svc_ret].
  destruct (init_queues_ok OInv g s1 (SPDQ i) (RPDQ i) (Inv_Mid _ _ _ HI) eq_refl eq_refl Hhd)
    as (b1 & b2 & s1' & g' & s2 & E1 & E2 & HM & HF & Hw & N1 & N2 & Hr); [done|].
  eapply wp_RET; [exact E1|]. eapply wp_RET; [exact E2|]. pose proof (fr_obj _ _ _ _ HF) as Ho.
  unfold kget. eapply (wp_RET _ _ _ _ _ () s2); [by destruct (bits _ _)|].
  eapply wp_RET; [reflexivity|]. eapply wp_RET; [reflexivity|]. eapply progress_ret_task; [exact HI|done..|].
  exists g'. split_and!; try done; try apply HF. pose proof (areas_get s2 (m_obj _ _ _ HM)) as Har.
  set (s3 := upd_obj _ (upd_obj _ s2)).
  assert (Hother : ∀ j, j ≠ i → pdqcb s3 j = pdqcb s2 j) by (intros j Hj; unfold s3; cb_lookup).
  assert (Harea : ∀ j, j ≠ i → pdq_area (obj s3) j = pdq_area (obj s2) j).
  { intros j Hj. unfold pdq_area, pdq_noexs. by rewrite Hother. }
  eapply (kind_delete (kd := pdq_kind) OInv g' s2 i (fun o => obj s3) HM); try done.
  - simpl. by rewrite <- Ho.
  - intros q Hq. destruct q; simpl in Hq; simplify_eq; done.
  - split; [unfold s3; simpl; by destruct (obj s2)|]. intros _. eapply areas_ok_less; [exact Har|done|].
    intros j a. destruct (decide (j = i)) as [->|Hne]; [unfold pdq_area, pdq_noexs, s3; cb_lookup|by rewrite Harea].
  - intros j Hne. simpl. f_equal; [by apply Hother|]. unfold pdq_mem. by rewrite Harea.
  - unfold s3. cb_lookup.
Qed.

(** The memory of a new queue: from the kernel or given by the caller. *)
Definition new_pdq_mem_ok (pk : T_CPDQ) s : Prop :=
  0 ≤ c_pdqcnt pk ∧ sizeof_PDQMB * c_pdqcnt pk < 2^32 ∧
  (c_pdqcnt pk ≠ 0 → c_pdqmb pk ≠ 0 → fresh_area (pdq_area (obj s)) (o_kmm_brk (obj s)) (c_pdqmb pk)).

Lemma acre_pdq_ok pk s : OK s → new_pdq_mem_ok pk s → WP (fun _ s' => OK s' ∧ same_ctx s s') (acre_pdq pk s).
Proof.
  intros HOK (N1 & N2 & N3). unfold sizeof_PDQMB in N2. unfold acre_pdq. svc_checks; split_ctx.
  eapply wp_mono; [eapply (call_task_ok OInv s _ (fun _ _ => True)); try done|by intros a s' [? _]].
  intros g t s1 HI Hin Ht ->. eapply wp_mono with (P := fun _ s' => OK s' ∧ in_task t s'); [|naive_solver].
  set (s1 := with_lock true s) in *. unfold kget.
  destruct (tnum_pdq =? 0)%nat; [svc_ret|]. cbn [orb].
  destruct (o_free_pdqcb (obj s1)) as [|i l] eqn:Hl; [svc_ret|]. cbn [no_free].
  set (alloc := negb (c_pdqcnt pk =? 0) && (c_pdqmb pk =? 0)).
  destruct (area_malloc_ok OInv pdq_area alloc g s1 (u32 (sizeof_PDQMB * c_pdqcnt pk)) (c_pdqmb pk) HI)
    as (p & s2 & E1 & HI2 & V1 & U1 & Q1 & S1 & [O1 B1] & Hfr & Hv); [apply Z.mod_pos_bound; lia|].
  eapply wp_RET; [exact E1|]. assert (Hin2 : in_task t s2) by (by eapply in_task_same).
  set (atr := if alloc then _ else _).
  destruct (negb (c_pdqcnt pk =? 0) && (p =? 0)) eqn:Hp; [svc_ret|].
  assert (Hl2 : o_free_pdqcb (obj s2) = i :: l) by (by rewrite O1). pose proof (Inv_Mid _ _ _ HI2) as HM2.
  assert (Hfresh : c_pdqcnt pk ≠ 0 → fresh_area (pdq_area (obj s2)) (o_kmm_brk (obj s2)) p).
  { intros Hc. pose proof (proj2 (Z.eqb_neq _ _) Hc) as Hcb. rewrite Hcb in Hp. apply Z.eqb_neq in Hp. apply Hfr; [|done|].
    - unfold sizeof_PDQMB, u32. rewrite Z.mod_small; lia.
    - unfold alloc. rewrite Hcb. intros Hal. apply N3; [done|]. by apply Z.eqb_neq. }
  pose proof (Inv_comp (inv := pdq_inv) OInv g s2 HI2) as Hki.
  assert (Hnil : wq s2 (SPDQ i) = []) by (by eapply (kind_free_no_waiter (kd := pdq_kind))).
  assert (Hnil' : wq s2 (RPDQ i) = []) by (by eapply (kind_free_no_waiter (kd := pdq_kind))).
  assert (Hgone : pdq_noexs (obj s2) i = true).
  { apply Z.eqb_eq. apply (ki_free _ Hki i). simpl. rewrite Hl2. left. }
  destruct (init_empty_queue_ok OInv g s2 (SPDQ i) HM2 Hnil) as [HM3 Hn1].
  destruct (init_empty_queue_ok OInv g _ (RPDQ i) HM3) as [HM4 Hn2]; [exact Hnil'|].
  eapply wp_RET; [by apply take_free_eq|]. repeat (eapply wp_RET; [reflexivity|]). split; [|done]. exists g.
  apply (Inv_of OInv g s2); [done| |done..].
  match goal with |- Service.Mid _ _ ?x => set (s4 := x) end. set (I := mkPDQINIB _ _ _ _) in s4.
  assert (E4 : pdqcb s4 i = pdq_reset ((pdqcb s2 i) <| p_pdqinib := I |>)) by (unfold s4; cb_lookup).
  assert (Hother : ∀ j, j ≠ i → pdqcb s4 j = pdqcb s2 j) by (intros j Hj; unfold s4; cb_lookup).
  assert (Hex : pdqatr I ≠ TA_NOEXS) by (subst I atr; simpl; destruct alloc; [by eapply rsatr_alloc|by eapply rsatr_exists]).
  assert (Harea : ∀ j, j ≠ i → pdq_area (obj s4) j = pdq_area (obj s2) j).
  { intros j Hj. unfold pdq_area, pdq_noexs. by rewrite Hother. }
  assert (Hai : pdq_area (obj s4) i = if c_pdqcnt pk =? 0 then None else Some p).
  { unfold pdq_area, pdq_noexs. rewrite E4. change (p_pdqinib (pdq_reset _)) with I. by rewrite (proj2 (Z.eqb_neq _ _) Hex). }
  eapply (kind_create (kd := pdq_kind) OInv g _ i l (fun o => obj s4) HM4); [done| |done| |].
  - split; [unfold s4; simpl; by destruct (obj s2)|]. intros Har. change (areas_ok (pdq_area (obj s4)) (o_kmm_brk (obj s2))).
    destruct (Z.eqb_spec (c_pdqcnt pk) 0) as [Hz|Hz].
    + eapply areas_ok_less; [exact Har|done|]. intros j a. destruct (decide (j = i)) as [->|Hne]; [by rewrite Hai|by rewrite Harea].
    + by eapply (areas_ok_new (pdq_area (obj s2)) _ _ i p); [exact Har|apply Hfresh| |].
  - intros j Hj. simpl. f_equal; [by apply Hother|]. unfold pdq_mem. by rewrite Harea.
  - intros _. apply kind_ok_intro.
    + unfold gone. change (pdqatr (p_pdqinib (pdqcb s4 i)) ≠ TA_NOEXS). by rewrite E4.
    + change (pdq_ok (pdqcb s4 i) (pdq_mem (obj s4) i) (Fam.queue_initialize (RPDQ i) (Fam.queue_initialize (SPDQ i) (wq s2)) (SPDQ i))
        (Fam.queue_initialize (RPDQ i) (Fam.queue_initialize (SPDQ i) (wq s2)) (RPDQ i))).
      rewrite E4. split; unfold Fam.queue_initialize; rewrite ?fn_lookup_insert; try done; [|by right].
      exists [], []. apply pdq_buf_reset; simpl; unfold sizeof_PDQMB; lia.
Qed.

Lemma ref_pdq_ok pdqid : call_ok OInv (ref_pdq pdqid).
Proof. intros s HOK. unfold ref_pdq. task_call g t s1 HI Hin Ht Hd. case_match; svc_ret. Qed.
End calls.
End pridataq.
