(* ===== verification/Mailbox.v ===== *)
(** * Mailboxes (kernel/mailbox.c, mailbox.h)

    A message is named by its address, 0 for NULL; [o_msg (obj s) m] is its
    header.  The messages belong to the application. *)

From S2P Require Import Prelude Queue Data Kmonad TimeEvent Task Wait Core Release Service Object.
Open Scope Z_scope.

Record T_CMBX := mkT_CMBX { c_mbxatr : Z; c_maxmpri : Z; c_mprihd : Z }.
Record T_RMBX := mkT_RMBX { r_mbx_wtskid : Z; r_pk_msg : Z }.

Section mailbox.
Context {cfg : Config}.
Implicit Types (mbxid pk_msg tmout : Z) (i : nat) (C : MBXCB).

Definition tnum_mbx : nat := tnum tmax_mbxid.
Definition tnum_smbx : nat := tnum tmax_smbxid.

Definition upd_mbx i (f : MBXCB → MBXCB) : K () :=
  upd (upd_obj (fun o => o <| o_mbxcb ::= fun T => <[i := f (T i)]> T |>)).
Definition set_free_mbx (f : list nat → list nat) : K () :=
  upd (upd_obj (fun o => o <| o_free_mbxcb ::= f |>)).
Definition set_mbxatr i (atr : Z) : K () :=
  upd_mbx i (fun C => C <| p_mbxinib ::= fun I => I <| mbxatr := atr |> |>).
Definition set_pk_head i (m : Z) : K () := upd_mbx i (fun C => C <| pk_head := m |>).
Definition set_pk_last i (m : Z) : K () := upd_mbx i (fun C => C <| pk_last := m |>).
(** [pk_msg->pk_next = v]. *)
Definition set_pk_next pk_msg (v : Z) : K () :=
  if pk_msg =? 0 then undef
  else upd (upd_obj (fun o => o <| o_msg ::= fun M => <[pk_msg := (M pk_msg) <| pk_next := v |>]> M |>)).
Definition MSGPRI (s : State) pk_msg : Z := msgpri (o_msg (obj s) pk_msg).

Definition initialize_mailbox : K () :=
  kfor (seq 0 tnum_smbx) (fun i =>
    queue_initialize (MBXQ i) ;;;
    upd_mbx i (fun C => C <| p_mbxinib := mbxinib_table i |>) ;;;
    set_pk_head i 0) ;;;
  set_free_mbx (fun _ => []) ;;;
  kfor (seq tnum_smbx (tnum_mbx - tnum_smbx)) (fun i =>
    set_mbxatr i TA_NOEXS ;;;
    set_free_mbx (fun l => l ++ [i])).

(** ** The message queue

    [ppk_prevmsg_next] is the address of a link: 0 of [pk_head], a message of
    its [pk_next].  The number of messages is not recorded in the control
    block: [fuel] bounds the iterations. *)
Definition msg_link (s : State) i (ppk_prevmsg_next : Z) : Z :=
  if ppk_prevmsg_next =? 0 then pk_head (mbxcb s i) else pk_next (o_msg (obj s) ppk_prevmsg_next).

Fixpoint find_msg_pri (fuel : nat) (s : State) i (pri : Z) (ppk_prevmsg_next : Z) : option (Z * Z) :=
  match fuel with
  | O => None
  | S fuel =>
      let pk_nextmsg := msg_link s i ppk_prevmsg_next in
      if pk_nextmsg =? 0 then Some (ppk_prevmsg_next, 0)
      else if pri <? MSGPRI s pk_nextmsg then Some (ppk_prevmsg_next, pk_nextmsg)
      else find_msg_pri fuel s i pri pk_nextmsg
  end.

Definition enqueue_msg_pri (fuel : nat) i pk_msg : K () :=
  get s;;
  the r := find_msg_pri fuel s i (MSGPRI s pk_msg) 0 ;;
  set_pk_next pk_msg (snd r) ;;;
  if fst r =? 0 then set_pk_head i pk_msg else set_pk_next (fst r) pk_msg.

(** ** The service calls *)

Definition acre_mbx (pk_cmbx : T_CMBX) : K Z :=
  ! CHECK_TSKCTX_UNL ;;
  ! CHECK_RSATR (c_mbxatr pk_cmbx) (Z.lor TA_TPRI TA_MPRI) ;;
  ! CHECK_MPRI (c_maxmpri pk_cmbx) ;;
  ! CHECK_NOSPT (c_mprihd pk_cmbx =? 0) ;;
  lock_cpu ;;;
  ercd <- (get s;;
    if (tnum_mbx =? 0)%nat || no_free (o_free_mbxcb (obj s)) then ret E_NOID
    else
      i <- take_free o_free_mbxcb set_free_mbx ;;
      upd_mbx i (fun C => C <| p_mbxinib := mkMBXINIB (c_mbxatr pk_cmbx) (c_maxmpri pk_cmbx) |>) ;;;
      queue_initialize (MBXQ i) ;;;
      set_pk_head i 0 ;;;
      ret (IDOF i)) ;;
  unlock_cpu ;;;
  ret ercd.

Definition del_mbx mbxid : K Z :=
  ! CHECK_TSKCTX_UNL ;;
  ! CHECK_MBXID mbxid ;;
  let i := INDEX mbxid in
  lock_cpu ;;;
  ercd <- (get s;;
    if mbxatr (p_mbxinib (mbxcb s i)) =? TA_NOEXS then ret E_NOEXS
    else if tmax_smbxid <? IDOF i then
      dspreq <- init_wait_queue (MBXQ i) ;;
      set_mbxatr i TA_NOEXS ;;;
      set_free_mbx (fun l => l ++ [i]) ;;;
      (if dspreq : bool then dispatch else ret ()) ;;;
      ret E_OK
    else ret E_OBJ) ;;
  unlock_cpu ;;;
  ret ercd.

(** [((WINFO_MBX * )(p_tcb->p_winfo))->pk_msg = pk_msg]. *)
Definition set_w_msg (p_tcb : nat) pk_msg : K () :=
  get s;; the w := p_winfo (tcb_table s p_tcb) ;;
  upd (upd_winfo w (fun W => W <| w_pk_msg := pk_msg |>)).

Definition snd_mbx (fuel : nat) mbxid pk_msg : K Z :=
  ! CHECK_TSKCTX_UNL ;;
  ! CHECK_MBXID mbxid ;;
  let i := INDEX mbxid in
  lock_cpu ;;;
  ercd <- (get s;;
    let C := mbxcb s i in
    if mbxatr (p_mbxinib C) =? TA_NOEXS then ret E_NOEXS
    else if negb (negb (bits (mbxatr (p_mbxinib C)) TA_MPRI)
                  || ((TMIN_MPRI <=? MSGPRI s pk_msg) && (MSGPRI s pk_msg <=? maxmpri (p_mbxinib C))))
    then ret E_PAR
    else if negb (queue_empty (MBXQ i) s) then
      p_tcb <- queue_delete_next (MBXQ i) ;;
      set_w_msg p_tcb pk_msg ;;;
      b <- wait_complete p_tcb ;;
      (if b : bool then dispatch else ret ()) ;;;
      ret E_OK
    else if bits (mbxatr (p_mbxinib C)) TA_MPRI then
      enqueue_msg_pri fuel i pk_msg ;;;
      ret E_OK
    else
      set_pk_next pk_msg 0 ;;;
      (if negb (pk_head C =? 0) then set_pk_next (pk_last C) pk_msg
       else set_pk_head i pk_msg) ;;;
      set_pk_last i pk_msg ;;;
      ret E_OK) ;;
  unlock_cpu ;;;
  ret ercd.

(** [*ppk_msg = pk_head; pk_head = ( *ppk_msg)->pk_next]. *)
Definition take_msg i : K Z :=
  get s;; let m := pk_head (mbxcb s i) in
  set_pk_head i (pk_next (o_msg (obj s) m)) ;;;
  ret m.

(** The result of a task that has waited for a message. *)
Definition mbx_result w : K (Z * option Z) :=
  ercd <- get_wercd w ;;
  get s;; ret (ercd, if ercd =? E_OK then Some (w_pk_msg (winfos s w)) else None).

Definition rcv_mbx mbxid : K (Z * option Z) :=
  ! CHECK_DISPATCH ;;
  ! CHECK_MBXID mbxid ;;
  let i := INDEX mbxid in
  lock_cpu ;;;
  r <- (get s;;
    if mbxatr (p_mbxinib (mbxcb s i)) =? TA_NOEXS then ret (E_NOEXS, None)
    else if negb (pk_head (mbxcb s i) =? 0) then
      m <- take_msg i ;;
      ret (E_OK, Some m)
    else
      winfo_mbx <- new_winfo ;;
      get s;; the t := p_runtsk s ;;
      set_tstat t (Z.lor TS_WAITING TS_WAIT_MBX) ;;;
      wobj_make_wait (MBXQ i) winfo_mbx ;;;
      dispatch ;;;
      mbx_result winfo_mbx) ;;
  unlock_cpu ;;;
  ret r.

Definition prcv_mbx mbxid : K (Z * option Z) :=
  ! CHECK_TSKCTX_UNL ;;
  ! CHECK_MBXID mbxid ;;
  let i := INDEX mbxid in
  lock_cpu ;;;
  r <- (get s;;
    if mbxatr (p_mbxinib (mbxcb s i)) =? TA_NOEXS then ret (E_NOEXS, None)
    else if negb (pk_head (mbxcb s i) =? 0) then
      m <- take_msg i ;;
      ret (E_OK, Some m)
    else ret (E_TMOUT, None)) ;;
  unlock_cpu ;;;
  ret r.

Definition trcv_mbx mbxid tmout : K (Z * option Z) :=
  ! CHECK_DISPATCH ;;
  ! CHECK_MBXID mbxid ;;
  ! CHECK_TMOUT tmout ;;
  let i := INDEX mbxid in
  lock_cpu ;;;
  r <- (get s;;
    if mbxatr (p_mbxinib (mbxcb s i)) =? TA_NOEXS then ret (E_NOEXS, None)
    else if negb (pk_head (mbxcb s i) =? 0) then
      m <- take_msg i ;;
      ret (E_OK, Some m)
    else if tmout =? TMO_POL then ret (E_TMOUT, None)
    else
      winfo_mbx <- new_winfo ;;
      get s;; the t := p_runtsk s ;;
      set_tstat t (Z.lor TS_WAITING TS_WAIT_MBX) ;;;
      wobj_make_wait_tmout (MBXQ i) winfo_mbx tmout ;;;
      dispatch ;;;
      mbx_result winfo_mbx) ;;
  unlock_cpu ;;;
  ret r.

Definition ini_mbx mbxid : K Z :=
  ! CHECK_TSKCTX_UNL ;;
  ! CHECK_MBXID mbxid ;;
  let i := INDEX mbxid in
  lock_cpu ;;;
  ercd <- (get s;;
    if mbxatr (p_mbxinib (mbxcb s i)) =? TA_NOEXS then ret E_NOEXS
    else
      dspreq <- init_wait_queue (MBXQ i) ;;
      set_pk_head i 0 ;;;
      (if dspreq : bool then dispatch else ret ()) ;;;
      ret E_OK) ;;
  unlock_cpu ;;;
  ret ercd.

Definition ref_mbx mbxid : K (Z * option T_RMBX) :=
  ! CHECK_TSKCTX_UNL ;;
  ! CHECK_MBXID mbxid ;;
  let i := INDEX mbxid in
  lock_cpu ;;;
  r <- (get s;;
    if mbxatr (p_mbxinib (mbxcb s i)) =? TA_NOEXS then ret (E_NOEXS, None)
    else ret (E_OK, Some (mkT_RMBX (wait_tskid (MBXQ i) s) (pk_head (mbxcb s i))))) ;;
  unlock_cpu ;;;
  ret r.

End mailbox.
