(* ===== verification/MailboxProof.v ===== *)
(** * Mailboxes: the proofs

    The messages of a mailbox are a chain through the messages themselves;
    they keep the order they were sent in, or the order of their priorities.
    No message is in two mailboxes, provided that the application sends only
    messages that are in none. *)

From S2P Require Import Prelude Queue Data Kmonad TimeEvent Task Wait Core Release Service Object Mailbox.
Open Scope Z_scope.

(** ** A chain of messages *)

Section chain.
Implicit Types (M : Z → T_MSG_PRI) (L : list Z) (a m x : Z).

Fixpoint mchain M a L : Prop :=
  match L with [] => a = 0 | m :: L' => a = m ∧ m ≠ 0 ∧ mchain M (pk_next (M m)) L' end.

Lemma mchain_fun M L1 : ∀ L2 a, mchain M a L1 → mchain M a L2 → L1 = L2.
Proof.
  induction L1 as [|x L1 IH]; intros [|y L2] a; simpl; try done.
  - by intros -> (<- & ? & _).
  - by intros (-> & ? & _) ->.
  - intros (-> & _ & H1) (<- & _ & H2). f_equal. by eapply IH.
Qed.

Lemma mchain_ext M M' L : ∀ a, (∀ x, x ∈ L → pk_next (M' x) = pk_next (M x)) → mchain M a L → mchain M' a L.
Proof.
  induction L as [|x L IH]; intros a Hx; simpl; [done|]. intros (-> & Hn & Hc). split_and!; [done..|].
  rewrite Hx by left. apply IH; [|done]. intros y Hy. apply Hx. by right.
Qed.

Lemma mchain_nonzero M L a x : mchain M a L → x ∈ L → x ≠ 0.
Proof.
  revert a. induction L as [|y L IH]; intros a; simpl; [by intros _ ?%not_elem_of_nil|].
  intros (_ & Hn & Hc) [->|Hx]%elem_of_cons; [done|by eapply IH].
Qed.

Lemma mchain_head M a L : mchain M a L → a = default 0 (head L).
Proof. destruct L; simpl; [done|by intros (-> & _)]. Qed.

(** A message is linked in after [L1]. *)
Lemma mchain_insert M M' L1 L2 m : ∀ a,
  mchain M a (L1 ++ L2) → NoDup (L1 ++ L2) → m ∉ L1 ++ L2 → m ≠ 0 →
  pk_next (M' m) = default 0 (head L2) → (∀ x, last L1 = Some x → pk_next (M' x) = m) →
  (∀ x, x ∈ L1 ++ L2 → last L1 ≠ Some x → pk_next (M' x) = pk_next (M x)) →
  mchain M' (match L1 with [] => m | _ => a end) (L1 ++ m :: L2).
Proof.
  induction L1 as [|y L1 IH]; intros a; simpl.
  - intros Hc Hnd Hm Hn H1 _ H3. split_and!; [done..|]. rewrite H1, <- (mchain_head _ _ _ Hc).
    eapply mchain_ext; [|exact Hc]. intros x Hx. by apply H3.
  - intros (-> & Hy & Hc) [Hyl Hnd]%NoDup_cons [Hmy Hml]%not_elem_of_cons Hn H1 H2 H3. split_and!; [done..|].
    destruct L1 as [|z L1].
    + rewrite H2 by done. apply (IH (pk_next (M y))); try done. intros x Hx _. apply H3; [by right|].
      intros [= ->]. done.
    + rewrite H3 by (try (by left); intros Hl; apply Hyl; apply elem_of_app; left; by apply last_Some_elem_of).
      apply (IH (pk_next (M y))); try done. intros x Hx Hl. apply H3; [by right|done].
Qed.
End chain.

(** ** The messages of the mailboxes *)

Section mailbox.
Context {cfg : Config}.
Implicit Types (s : State) (g : nat → tst) (i j : nat) (o : OBJ) (L : list Z) (m x : Z).

Definition MPRI (C : MBXCB) : bool := bits (mbxatr (p_mbxinib C)) TA_MPRI.

Record box_ok (C : MBXCB) (M : Z → T_MSG_PRI) L : Prop := {
  bo_chain : mchain M (pk_head C) L;
  bo_nodup : NoDup L;
  bo_sorted : MPRI C = true → prio_sorted (fun a => msgpri (M a)) L;
  bo_last : MPRI C = false → ∀ x, last L = Some x → pk_last C = x }.

Definition mbx_exists o i : Prop := mbxatr (p_mbxinib (o_mbxcb o i)) ≠ TA_NOEXS.

(** [x] is a message of mailbox [i]. *)
Definition mbx_has o i x : Prop := mbx_exists o i ∧ ∃ L, mchain (o_msg o) (pk_head (o_mbxcb o i)) L ∧ x ∈ L.
(** A message that may be sent. *)
Definition msg_free o m : Prop := m ≠ 0 ∧ ∀ j, ¬ mbx_has o j m.

Record mbx_msgs o : Prop := {
  mm_box : ∀ i, mbx_exists o i → ∃ L, box_ok (o_mbxcb o i) (o_msg o) L;
  mm_disjoint : ∀ i j x, mbx_has o i x → mbx_has o j x → i = j }.

(** One mailbox changes, and the messages of no other. *)
Lemma mbx_msgs_upd o o' i L' :
  mbx_msgs o → (∀ j, j ≠ i → o_mbxcb o' j = o_mbxcb o j) →
  (mbx_exists o' i → box_ok (o_mbxcb o' i) (o_msg o') L') →
  (∀ x j, x ∈ L' → j ≠ i → ¬ mbx_has o j x) →
  (∀ x j, j ≠ i → mbx_has o j x → o_msg o' x = o_msg o x) → mbx_msgs o'.
Proof.
  intros [B1 B2] Hj Hi Hnew Hold.
  assert (Hex : ∀ j, j ≠ i → mbx_exists o' j ↔ mbx_exists o j) by (intros j Hne; unfold mbx_exists; by rewrite Hj).
  assert (Hbox : ∀ j L, j ≠ i → mbx_exists o j → box_ok (o_mbxcb o j) (o_msg o) L → box_ok (o_mbxcb o j) (o_msg o') L).
  { intros j L Hne He HB. assert (HM : ∀ x, x ∈ L → o_msg o' x = o_msg o x).
    { intros x Hx. apply (Hold x j Hne). split; [done|]. exists L. split; [apply HB|done]. }
    destruct HB as [C1 C2 C3 C4]. split; [|done| |done].
    - eapply mchain_ext; [|exact C1]. intros x Hx. by rewrite HM.
    - intros Hp. eapply prio_sorted_ext; [|by apply C3]. intros x Hx. by rewrite HM. }
  assert (Hhas : ∀ j x, j ≠ i → mbx_has o' j x → mbx_has o j x).
  { intros j x Hne [He (L & Hc & Hx)]. rewrite Hex in He by done. destruct (B1 j He) as [L0 HB].
    pose proof (bo_chain _ _ _ (Hbox j L0 Hne He HB)) as Hc0. rewrite Hj in Hc by done.
    rewrite (mchain_fun _ _ _ _ Hc Hc0) in Hx. split; [done|]. exists L0. split; [apply HB|done]. }
  assert (Hhas_i : ∀ x, mbx_has o' i x → x ∈ L').
  { intros x [He (L & Hc & Hx)]. by rewrite <- (mchain_fun _ _ _ _ Hc (bo_chain _ _ _ (Hi He))). }
  split.
  - intros j He. destruct (decide (j = i)) as [->|Hne]; [exists L'; by apply Hi|].
    rewrite Hex in He by done. rewrite Hj by done. destruct (B1 j He) as [L HB]. exists L. by apply Hbox.
  - intros j1 j2 x H1 H2. destruct (decide (j1 = i)) as [->|N1], (decide (j2 = i)) as [->|N2]; [done|..].
    + destruct (Hnew x j2 (Hhas_i x H1) N2). by apply Hhas.
    + destruct (Hnew x j1 (Hhas_i x H2) N1). by apply Hhas.
    + by eapply B2; apply Hhas.
Qed.

Lemma mbx_msgs_same o o' : o_mbxcb o' = o_mbxcb o → o_msg o' = o_msg o → mbx_msgs o → mbx_msgs o'.
Proof.
  intros E1 E2 [B1 B2]. unfold mbx_has, mbx_exists in *. split; unfold mbx_has, mbx_exists; by rewrite E1, E2.
Qed.

Lemma box_ok_empty C M : pk_head C = 0 → box_ok C M [].
Proof. intros H. split; [done|apply NoDup_nil_2|intros _; constructor|done]. Qed.

(** The first message leaves. *)
Lemma box_ok_tail C M m L :
  box_ok C M (m :: L) → box_ok (C <| pk_head := pk_next (M m) |>) M L.
Proof.
  intros [(_ & _ & C1) [_ C2]%NoDup_cons C3 C4]. split; simpl; [done|done| |].
  - intros Hp. by apply StronglySorted_inv in C3 as [? _].
  - intros Hp x Hx. apply C4; [done|]. destruct L; [done|]. exact Hx.
Qed.

(** A message enters. *)
Definition send_order (C : MBXCB) (M : Z → T_MSG_PRI) L m : list Z :=
  if MPRI C then insert_before_first (fun x => msgpri (M m) <? msgpri (M x)) m L else L ++ [m].

Lemma box_ok_insert C C' M M' L L1 L2 m :
  box_ok C M L → m ∉ L → m ≠ 0 → L = L1 ++ L2 → send_order C M L m = L1 ++ m :: L2 →
  pk_next (M' m) = default 0 (head L2) → (∀ x, last L1 = Some x → pk_next (M' x) = m) →
  (∀ x, x ∈ L → last L1 ≠ Some x → pk_next (M' x) = pk_next (M x)) → (∀ x, msgpri (M' x) = msgpri (M x)) →
  pk_head C' = match L1 with [] => m | _ => pk_head C end → MPRI C' = MPRI C →
  (MPRI C = false → pk_last C' = m) → box_ok C' M' (send_order C M L m).
Proof.
  intros [C1 C2 C3 C4] Hm Hn -> HS H1 H2 H3 H4 H5 H6 H7. rewrite HS. split.
  - rewrite H5. by eapply mchain_insert.
  - rewrite <- HS. unfold send_order. destruct (MPRI C); [by apply NoDup_insert_before_first|].
    apply NoDup_app. split_and!; [done| |apply NoDup_singleton]. intros x Hx ->%list_elem_of_singleton. done.
  - rewrite H6, <- HS. unfold send_order. intros Hp. rewrite Hp. specialize (C3 Hp).
    eapply (prio_sorted_ext (fun a => msgpri (M a))); [by intros|by apply (prio_sorted_insert (fun a => msgpri (M a)))].
  - rewrite H6. intros Hp x. rewrite H7 by done. unfold send_order in HS. rewrite Hp in HS.
    rewrite <- HS, last_snoc. by intros [= ->].
Qed.

(** ** The kind *)

Definition mbx_only o o' : Prop :=
  o' = o <| o_mbxcb := o_mbxcb o' |> <| o_free_mbxcb := o_free_mbxcb o' |> <| o_msg := o_msg o' |> ∧ (mbx_msgs o → mbx_msgs o').

(** Tasks wait only when there is no message. *)
Definition mbx_wait_ok (C : MBXCB) (l : list nat) : Prop := l ≠ [] → pk_head C = 0.

#[export] Instance mbx_kind : Kind MBXCB.
Proof.
  refine {| cbs := o_mbxcb; frees := o_free_mbxcb; cb_atr := fun C => mbxatr (p_mbxinib C);
    cb_queue := MBXQ; cb_of := fun q => match q with MBXQ i => Some i | _ => None end;
    cb_only := mbx_only; cb_ok := fun s i => mbx_wait_ok (mbxcb s i) (wq s (MBXQ i)) |}.
  - intros s q i Hq. by destruct q; simplify_eq.
  - intros F s q Hq [Hon _]. destruct q; simpl in *; try rewrite Hon; done.
  - done.
  - intros TR Y P s s' i X HF HX ->. intros Hw Hne. apply Hw. intros Hnil.
    destruct (wq s' (MBXQ i)) as [|x l] eqn:Hl; [done|].
    destruct (fr_queue _ _ _ _ HF (MBXQ i) x eq_refl) as [Hx _]; [rewrite Hl; left|by apply HX|].
    rewrite Hnil in Hx. by apply not_elem_of_nil in Hx.
  - intros o. split; [by destruct o|done].
  - intros q i Hq. by destruct q.
Defined.
Notation mbx_inv := (kind_inv (kd := mbx_kind)).

Class Messages (OInv : State → Prop) := { messages_get : ∀ s, OInv s → mbx_msgs (obj s) }.

(** ** Operations *)

(** The loop of [enqueue_msg_pri] finds the place of the message. *)
Lemma find_msg_pri_ok s i m L : ∀ fuel prev,
  mchain (o_msg (obj s)) (msg_link s i prev) L → (length L < fuel)%nat →
  ∃ L1 L2, L = L1 ++ L2 ∧
    insert_before_first (fun x => MSGPRI s m <? MSGPRI s x) m L = L1 ++ m :: L2 ∧
    find_msg_pri fuel s i (MSGPRI s m) prev = Some (default prev (last L1), default 0 (head L2)).
Proof.
  induction L as [|x L IH]; intros [|fuel] prev Hc Hlen; simpl in Hlen; try lia; simpl in Hc; cbn [find_msg_pri].
  - rewrite Hc. by exists [], [].
  - destruct Hc as (-> & Hx & Hc). rewrite (proj2 (Z.eqb_neq _ _) Hx). simpl.
    destruct (MSGPRI s m <? MSGPRI s x) eqn:Hp; [by exists [], (x :: L)|].
    destruct (IH fuel x) as (L1 & L2 & E1 & E2 & E3); [|lia|].
    { unfold msg_link. by rewrite (proj2 (Z.eqb_neq _ _) Hx). }
    exists (x :: L1), L2. split_and!; [by rewrite E1|by rewrite E2|]. rewrite E3. f_equal. f_equal.
    destruct L1 as [|y L1]; [done|]. change (last (x :: y :: L1)) with (last (y :: L1)).
    destruct (last (y :: L1)) eqn:El; [done|by apply last_None in El].
Qed.

(** The message is linked in: [o'] is what both ways of sending make of [o]. *)
Record sent (o o' : OBJ) i L m : Prop := {
  st_only : o' = o <| o_mbxcb := o_mbxcb o' |> <| o_msg := o_msg o' |>;
  st_other : ∀ j, j ≠ i → o_mbxcb o' j = o_mbxcb o j;
  st_ini : p_mbxinib (o_mbxcb o' i) = p_mbxinib (o_mbxcb o i);
  st_msg : ∀ x, x ≠ m → x ∉ L → o_msg o' x = o_msg o x;
  st_box : box_ok (o_mbxcb o' i) (o_msg o') (send_order (o_mbxcb o i) (o_msg o) L m) }.

Lemma sent_msgs o o' i L m :
  mbx_msgs o → mbx_exists o i → msg_free o m → box_ok (o_mbxcb o i) (o_msg o) L → sent o o' i L m → mbx_msgs o'.
Proof.
  intros Hm He [Hn Hfree] HB [S1 S2 S3 S4 S5].
  assert (HL : ∀ x, x ∈ send_order (o_mbxcb o i) (o_msg o) L m ↔ x = m ∨ x ∈ L).
  { intros x. unfold send_order. destruct (MPRI _); [apply elem_of_insert_before_first|set_solver]. }
  assert (Hhas : ∀ x, x ∈ L → mbx_has o i x) by (intros x Hx; split; [done|]; exists L; split; [apply HB|done]).
  eapply (mbx_msgs_upd o o' i); [done|exact S2|by intros _; exact S5| |].
  - intros x j [->|Hx]%HL Hne; [by apply Hfree|]. intros Hj. apply Hne. eapply (mm_disjoint _ Hm); [exact Hj|by apply Hhas].
  - intros x j Hne Hj. apply S4; [intros ->; by apply (Hfree j)|]. intros Hx. apply Hne.
    eapply (mm_disjoint _ Hm); [exact Hj|by apply Hhas].
Qed.

(** Links written in two messages. *)
Definition link_msgs (M : Z → T_MSG_PRI) m n (px : option Z) : Z → T_MSG_PRI :=
  let M1 := <[m := (M m) <| pk_next := n |>]> M in
  match px with Some x => <[x := (M1 x) <| pk_next := m |>]> M1 | None => M1 end.

Lemma link_msgs_pri M m n px x : msgpri (link_msgs M m n px x) = msgpri (M x).
Proof.
  assert (H1 : ∀ y, msgpri (<[m := (M m) <| pk_next := n |>]> M y) = msgpri (M y)).
  { intros y. destruct (decide (y = m)) as [->|Hy]; [by rewrite fn_lookup_insert|by rewrite fn_lookup_insert_ne]. }
  unfold link_msgs. destruct px as [z|]; [|apply H1].
  destruct (decide (x = z)) as [->|Hx]; [rewrite fn_lookup_insert; simpl; apply H1|rewrite fn_lookup_insert_ne by done; apply H1].
Qed.

Lemma link_msgs_next M m n px :
  px ≠ Some m → pk_next (link_msgs M m n px m) = n ∧ (∀ x, px = Some x → pk_next (link_msgs M m n px x) = m) ∧
  (∀ x, x ≠ m → px ≠ Some x → link_msgs M m n px x = M x).
Proof.
  intros Hm. unfold link_msgs. destruct px as [z|]; split_and!; try done.
  - rewrite fn_lookup_insert_ne by congruence. by rewrite fn_lookup_insert.
  - intros x [= ->]. by rewrite fn_lookup_insert.
  - intros x Hx Hz. rewrite !fn_lookup_insert_ne by congruence. done.
  - by rewrite fn_lookup_insert.
  - intros x Hx _. by rewrite fn_lookup_insert_ne.
Qed.

(** The objects after a message was linked in after [L1]. *)
Definition linked_obj i m L1 L2 (f : MBXCB → MBXCB) (o : OBJ) : OBJ → Prop := fun o' =>
  o' = o <| o_mbxcb := o_mbxcb o' |> <| o_msg := o_msg o' |> ∧
  (∀ j, j ≠ i → o_mbxcb o' j = o_mbxcb o j) ∧
  o_mbxcb o' i = f (match L1 with [] => (o_mbxcb o i) <| pk_head := m |> | _ => o_mbxcb o i end) ∧
  o_msg o' = link_msgs (o_msg o) m (default 0 (head L2)) (last L1).

Lemma linked_sent o o' i L L1 L2 m f :
  (∀ C, p_mbxinib (f C) = p_mbxinib C ∧ pk_head (f C) = pk_head C) →
  box_ok (o_mbxcb o i) (o_msg o) L → m ∉ L → m ≠ 0 → L = L1 ++ L2 →
  send_order (o_mbxcb o i) (o_msg o) L m = L1 ++ m :: L2 →
  (MPRI (o_mbxcb o i) = false → ∀ C, pk_last (f C) = m) → linked_obj i m L1 L2 f o o' → sent o o' i L m.
Proof.
  intros Hf HB Hm Hn HL HS Hlast (O1 & O2 & O3 & O4).
  assert (Hl1 : ∀ x, last L1 = Some x → x ∈ L) by (intros x Hx; rewrite HL; apply elem_of_app; left; by apply last_Some_elem_of).
  destruct (link_msgs_next (o_msg o) m (default 0 (head L2)) (last L1)) as (N1 & N2 & N3); [by intros Hx%Hl1|].
  set (C1 := match L1 with [] => _ | _ => _ end) in O3.
  assert (HC1 : p_mbxinib C1 = p_mbxinib (o_mbxcb o i)) by (unfold C1; by destruct L1).
  assert (Hini : p_mbxinib (o_mbxcb o' i) = p_mbxinib (o_mbxcb o i)) by (rewrite O3; by destruct (Hf C1) as [-> _]).
  split; try done.
  - intros x Hxm HxL. rewrite O4. apply N3; [done|]. by intros ?%Hl1.
  - rewrite O4. eapply (box_ok_insert (o_mbxcb o i) _ _ _ L L1 L2 m); try done.
    + intros x Hx Hl. rewrite N3; [done| |done]. by intros ->.
    + intros x. apply link_msgs_pri.
    + rewrite O3. destruct (Hf C1) as [_ ->]. unfold C1. by destruct L1.
    + unfold MPRI. by rewrite Hini.
    + intros Hp. rewrite O3. by apply Hlast.
Qed.

Lemma enqueue_msg_pri_ok s i m L fuel :
  box_ok (mbxcb s i) (o_msg (obj s)) L → (length L < fuel)%nat → m ∉ L → m ≠ 0 → MPRI (mbxcb s i) = true →
  ∃ s', enqueue_msg_pri fuel i m s = RET () s' ∧ s' = s <| obj := obj s' |> ∧ sent (obj s) (obj s') i L m.
Proof.
  intros HB Hlen Hm Hn Hp.
  destruct (find_msg_pri_ok s i m L fuel 0 (bo_chain _ _ _ HB) Hlen) as (L1 & L2 & E1 & E2 & E3).
  assert (HS : send_order (mbxcb s i) (o_msg (obj s)) L m = L1 ++ m :: L2) by (unfold send_order; by rewrite Hp).
  assert (Hl1 : ∀ x, last L1 = Some x → x ≠ 0).
  { intros x Hx. eapply mchain_nonzero; [apply HB|]. rewrite E1. apply elem_of_app. left. by apply last_Some_elem_of. }
  unfold enqueue_msg_pri, kget, deref. rewrite E3. simpl. unfold set_pk_next at 1. rewrite (proj2 (Z.eqb_neq _ _) Hn).
  destruct (last L1) as [x|] eqn:Hl; simpl.
  - specialize (Hl1 x eq_refl). rewrite (proj2 (Z.eqb_neq _ _) Hl1). unfold set_pk_next. rewrite (proj2 (Z.eqb_neq _ _) Hl1).
    eexists. split; [reflexivity|]. split; [done|]. eapply (linked_sent _ _ i L L1 L2 m (fun C => C)); try done; [congruence|].
    split_and!; try done; simpl; [by destruct L1|by rewrite Hl].
  - apply last_None in Hl as ->. simpl. eexists. split; [reflexivity|]. split; [done|].
    eapply (linked_sent _ _ i L [] L2 m (fun C => C)); try done; [congruence|].
    split_and!; try done; simpl; [intros j Hj; by rewrite fn_lookup_insert_ne|by rewrite fn_lookup_insert].
Qed.

Lemma append_msg_ok s i m L :
  box_ok (mbxcb s i) (o_msg (obj s)) L → m ∉ L → m ≠ 0 → MPRI (mbxcb s i) = false →
  ∃ s', (set_pk_next m 0 ;;; (if negb (pk_head (mbxcb s i) =? 0) then set_pk_next (pk_last (mbxcb s i)) m else set_pk_head i m) ;;;
      set_pk_last i m) s = RET () s' ∧ s' = s <| obj := obj s' |> ∧ sent (obj s) (obj s') i L m.
Proof.
  intros HB Hm Hn Hp.
  assert (HS : send_order (mbxcb s i) (o_msg (obj s)) L m = L ++ [m]) by (unfold send_order; by rewrite Hp).
  unfold set_pk_next at 1. rewrite (proj2 (Z.eqb_neq _ _) Hn).
  destruct (last L) as [x|] eqn:Hl.
  - assert (Hx : x ≠ 0) by (eapply mchain_nonzero; [apply HB|by apply last_Some_elem_of]).
    assert (Hh : pk_head (mbxcb s i) ≠ 0).
    { rewrite (mchain_head _ _ _ (bo_chain _ _ _ HB)). destruct L as [|y L]; [done|]. simpl.
      eapply mchain_nonzero; [apply HB|left]. }
    rewrite (bo_last _ _ _ HB Hp x Hl), (proj2 (Z.eqb_neq _ _) Hh). simpl. unfold set_pk_next. rewrite (proj2 (Z.eqb_neq _ _) Hx).
    eexists. split; [reflexivity|]. split; [done|].
    eapply (linked_sent _ _ i L L [] m (fun C => C <| pk_last := m |>)); try done; [by rewrite app_nil_r|].
    split_and!; try done; simpl; [intros j Hj; by rewrite fn_lookup_insert_ne|by rewrite fn_lookup_insert; destruct L|by rewrite Hl].
  - apply last_None in Hl as ->. rewrite (bo_chain _ _ _ HB : pk_head _ = 0). simpl.
    eexists. split; [reflexivity|]. split; [done|].
    eapply (linked_sent _ _ i [] [] [] m (fun C => C <| pk_last := m |>)); try done.
    split_and!; try done; simpl; [intros j Hj; by rewrite !fn_lookup_insert_ne|by rewrite !fn_lookup_insert].
Qed.

(** ** The calls *)

Section calls.
Context (OInv : State → Prop) `{!Objects OInv}.
Context `{!Component OInv mbx_inv (kind_own (kd := mbx_kind)) (cb_only (Kind := mbx_kind))} `{!Messages OInv}.
Notation WP := (wp (rely OInv) (guar OInv)).
Notation Inv := (Inv OInv).
Notation OK := (OK OInv).
Notation Mid := (Mid OInv).

Lemma mbx_call_exists s i :
  OInv s → mbx_exists (obj s) i →
  i ∉ o_free_mbxcb (obj s) ∧ mbx_wait_ok (mbxcb s i) (wq s (MBXQ i)) ∧ header_ok s (MBXQ i) = true.
Proof. intros HO. apply (kind_exists (kd := mbx_kind)), comp_get, HO. Qed.

(** The mailbox [i] changes, nobody waiting, or without a message. *)
Lemma mbx_put g s s' i :
  Mid g s → mbx_exists (obj s) i → s' = s <| obj := obj s' |> →
  obj s' = (obj s) <| o_mbxcb := o_mbxcb (obj s') |> <| o_msg := o_msg (obj s') |> →
  (∀ j, j ≠ i → mbxcb s' j = mbxcb s j) → p_mbxinib (mbxcb s' i) = p_mbxinib (mbxcb s i) →
  mbx_wait_ok (mbxcb s' i) (wq s (MBXQ i)) → mbx_msgs (obj s') → Mid g s'.
Proof.
  intros HM He Hs Ho Hj Hi Hw Hm. destruct (mbx_call_exists s i (m_obj _ _ _ HM) He) as (Hfree & _ & _).
  assert (Hfr : o_free_mbxcb (obj s') = o_free_mbxcb (obj s)) by (by rewrite Ho).
  assert (HM' : Mid g (upd_obj (fun _ => obj s') s)).
  { apply (kind_put (kd := mbx_kind) OInv g s i); try done.
    - split; [rewrite Hfr; destruct (obj s); exact Ho|done].
    - simpl. by rewrite Hi.
    - split; unfold gone; simpl; rewrite ?Hi; done. }
  by rewrite Hs.
Qed.

Ltac mbx_begin s1 mbxid HI He Hfree Hok Hhd :=
  destruct (Z.eqb_spec (mbxatr (p_mbxinib (mbxcb s1 (INDEX mbxid)))) TA_NOEXS) as [He|He]; [svc_ret|];
  destruct (mbx_call_exists s1 (INDEX mbxid) (i_obj _ _ _ HI) He) as (Hfree & Hok & Hhd);
  set (i := INDEX mbxid) in *.

(** *** Receiving *)

Definition take_st i s : State :=
  upd_obj (fun o => o <| o_mbxcb ::= fun T => <[i := (T i) <| pk_head := pk_next (o_msg (obj s) (pk_head (mbxcb s i))) |>]> T |>) s.

Lemma take_msg_ok g s i :
  Inv g s → mbx_exists (obj s) i → pk_head (mbxcb s i) ≠ 0 →
  take_msg i s = RET (pk_head (mbxcb s i)) (take_st i s) ∧ Inv g (take_st i s).
Proof.
  intros HI He Hh. split; [done|]. destruct (mbx_call_exists s i (i_obj _ _ _ HI) He) as (_ & Hok & _).
  pose proof (messages_get s (i_obj _ _ _ HI)) as Hm. destruct (mm_box _ Hm i He) as [L HB].
  destruct L as [|m L]; [by rewrite (bo_chain _ _ _ HB : pk_head _ = 0) in Hh|].
  pose proof (bo_chain _ _ _ HB) as (Hhd & _ & _). pose proof (box_ok_tail _ _ _ _ HB) as HB'. rewrite <- Hhd in HB'.
  apply (Inv_of OInv g s); [done| |done..]. eapply (mbx_put g s); [by apply Inv_Mid|done..| | | |].
  - intros j Hj. simpl. by rewrite fn_lookup_insert_ne.
  - simpl. by rewrite fn_lookup_insert.
  - intros Hne. by specialize (Hok Hne).
  - eapply (mbx_msgs_upd (obj s) _ i L); [done| | | |done].
    + intros j Hj. simpl. by rewrite fn_lookup_insert_ne.
    + intros _. simpl. by rewrite fn_lookup_insert.
    + intros x j Hx Hne Hj. apply Hne. eapply (mm_disjoint _ Hm); [exact Hj|]. split; [done|].
      exists (m :: L). split; [apply HB|by right].
Qed.

Lemma mbx_result_ok w s t : OK s → in_task t s → (∃ ercd, winfo (winfos s w) = WERCD ercd) →
  WP (fun _ s' => OK s' ∧ in_task t s') (mbx_result w s).
Proof. intros HOK Hin Hw. unfold mbx_result. apply wp_bind, get_wercd_ok; [done|]. by split. Qed.

Lemma mbx_enter s s' i :
  OInv s → mbx_exists (obj s) i → (pk_head (mbxcb s i) =? 0) = true → tframe (fun q => q = MBXQ i) s s' → OInv s'.
Proof.
  intros HO He Hc HF. destruct (mbx_call_exists s i HO He) as (Hfree & _ & _). pose proof (fr_obj _ _ _ _ HF) as Ho.
  eapply (kind_move (kd := mbx_kind) OInv _ _ _ i _ HO HF); simpl; rewrite <- ?Ho; try done.
  - by intros q ->.
  - split; [by destruct (obj s)|done].
  - split; unfold gone; simpl; rewrite <- Ho; [done|]. intros _ _. by apply Z.eqb_eq.
Qed.

Lemma mbx_take_ok g t s i :
  Inv g s → in_task t s → mbx_exists (obj s) i → (pk_head (mbxcb s i) =? 0) = false →
  WP (fun _ s' => OK s' ∧ in_task t s') ((m <- take_msg i ;; ret (E_OK, Some m)) s).
Proof.
  intros HI Hin He Hc. destruct (take_msg_ok g s i HI He) as [E HI']; [by apply Z.eqb_neq|].
  eapply wp_RET; [exact E|]. split; [by exists g|done].
Qed.

Lemma rcv_mbx_ok mbxid : call_ok OInv (rcv_mbx mbxid).
Proof.
  intros s HOK. unfold rcv_mbx. task_call g t s1 HI Hin Ht Hd. mbx_begin s1 mbxid HI He Hfree Hok Hhd.
  destruct (pk_head (mbxcb s1 i) =? 0) eqn:Hc; [|by eapply mbx_take_ok]. simpl.
  destruct (new_winfo_ok OInv g s1 t HI Hin Ht) as (s2 & w & E & Hsl & HF & _); [congruence|].
  eapply wp_RET; [exact E|]. apply (wobj_sleep_ok OInv g s2 t w (MBXQ i)); [done| | |done].
  - intros g' s' Hb. eapply (mbx_enter s1); [apply HI|done..|]. by eapply blocked_frame.
  - intros s' HOK' Hin' Hw. by apply mbx_result_ok.
Qed.

Lemma prcv_mbx_ok mbxid : call_ok OInv (prcv_mbx mbxid).
Proof.
  intros s HOK. unfold prcv_mbx. task_call g t s1 HI Hin Ht Hd. mbx_begin s1 mbxid HI He Hfree Hok Hhd.
  destruct (pk_head (mbxcb s1 i) =? 0) eqn:Hc; [svc_ret|by eapply mbx_take_ok].
Qed.

Lemma trcv_mbx_ok mbxid tmout : tmout ≤ TMAX_RELTIM → call_ok OInv (trcv_mbx mbxid tmout).
Proof.
  intros Hmax s HOK. unfold trcv_mbx. task_call g t s1 HI Hin Ht Hd. mbx_begin s1 mbxid HI He Hfree Hok Hhd.
  destruct (pk_head (mbxcb s1 i) =? 0) eqn:Hc; [|by eapply mbx_take_ok]. simpl.
  destruct (Z.eqb_spec tmout TMO_POL) as [Hp|Hp]; [svc_ret|].
  destruct (new_winfo_ok OInv g s1 t HI Hin Ht) as (s2 & w & E & Hsl & HF & _); [congruence|].
  eapply wp_RET; [exact E|].
  apply (wobj_sleep_tmout_ok OInv g s2 t w (MBXQ i)); [done| | |done|unfold TMO_FEVR in *; lia|done].
  - intros g' s' Hb. eapply (mbx_enter s1); [apply HI|done..|]. by eapply blocked_frame.
  - intros s' HOK' Hin' Hw. by apply mbx_result_ok.
Qed.

Lemma ref_mbx_ok mbxid : call_ok OInv (ref_mbx mbxid).
Proof. intros s HOK. unfold ref_mbx. task_call g t s1 HI Hin Ht Hd. case_match; svc_ret. Qed.

(** *** Sending *)

Lemma seq3_RET {A} (m1 m2 m3 : K ()) (k : K A) s s' :
  (m1 ;;; m2 ;;; m3) s = RET () s' → (m1 ;;; m2 ;;; m3 ;;; k) s = k s'.
Proof.
  unfold bind. destruct (m1 s) as [a s1| |]; simpl; [|done..]. destruct (m2 s1) as [b s2| |]; simpl; [|done..].
  by intros ->.
Qed.

Lemma sent_Inv g s s' i L m :
  Inv g s → mbx_exists (obj s) i → msg_free (obj s) m → box_ok (mbxcb s i) (o_msg (obj s)) L → wq s (MBXQ i) = [] →
  s' = s <| obj := obj s' |> → sent (obj s) (obj s') i L m → Inv g s'.
Proof.
  intros HI He Hm HB Hq Hs HS. pose proof (messages_get s (i_obj _ _ _ HI)) as Hmm.
  apply (Inv_of OInv g s); [done| |by rewrite Hs..].
  eapply (mbx_put g s); [by apply Inv_Mid|exact He|exact Hs|apply HS|apply HS|apply HS| |].
  - intros Hne. by rewrite Hq in Hne.
  - by eapply sent_msgs.
Qed.

(** The message must be in no mailbox, and the bound on the iterations not too
    small for the messages that are there. *)
Lemma snd_mbx_ok mbxid m s :
  OK s → msg_free (obj s) m → ∃ n, ∀ fuel, (n ≤ fuel)%nat → WP (fun _ s' => OK s' ∧ same_ctx s s') (snd_mbx fuel mbxid m s).
Proof.
  intros HOK Hm. set (i := INDEX mbxid).
  assert (HL : ∃ L, mbx_exists (obj s) i → box_ok (mbxcb s i) (o_msg (obj s)) L).
  { destruct HOK as [g HI]. destruct (decide (mbxatr (p_mbxinib (mbxcb s i)) = TA_NOEXS)) as [He|He]; [by exists []|].
    destruct (mm_box _ (messages_get s (i_obj _ _ _ HI)) i He) as [L HB]. by exists L. }
  destruct HL as [L HL]. exists (S (length L)). intros fuel Hfuel. unfold snd_mbx. svc_checks; split_ctx.
  eapply wp_mono; [eapply (call_task_ok OInv s _ (fun _ _ => True)); try done|by intros a s' [? _]].
  intros g t s1 HI Hin Ht Hs1. eapply wp_mono with (P := fun _ s' => OK s' ∧ in_task t s'); [|naive_solver].
  assert (Hob : obj s1 = obj s) by (by rewrite Hs1). rewrite <- Hob in HL, Hm. clear Hs1 Hob. unfold kget at 1. fold i.
  destruct (Z.eqb_spec (mbxatr (p_mbxinib (mbxcb s1 i))) TA_NOEXS) as [He|He]; [svc_ret|]. specialize (HL He).
  assert (HmL : m ∉ L) by (intros Hx; apply (proj2 Hm i); split; [done|]; exists L; split; [apply HL|done]).
  destruct (negb (_ || _)); [svc_ret|]. unfold queue_empty, Fam.queue_empty.
  destruct (wq s1 (MBXQ i)) as [|x l] eqn:Hq; cbn [negb].
  - destruct (bits (mbxatr (p_mbxinib (mbxcb s1 i))) TA_MPRI) eqn:Hp.
    + destruct (enqueue_msg_pri_ok s1 i m L fuel HL) as (s2 & E & Hs & HS); [lia|done|apply Hm|done|].
      eapply wp_RET; [exact E|]. split; [exists g; by eapply sent_Inv|]. eapply in_task_same; [exact Hin|by rewrite Hs..].
    + destruct (append_msg_ok s1 i m L HL HmL (proj1 Hm) Hp) as (s2 & E & Hs & HS).
      assert (Hend : WP (fun _ s' => OK s' ∧ in_task t s') (ret E_OK s2)).
      { split; [exists g; by eapply sent_Inv|]. eapply in_task_same; [exact Hin|by rewrite Hs..]. }
      by rewrite (seq3_RET _ _ _ _ _ _ E).
  - destruct (wake_with_ok OInv g s1 (MBXQ i) x l (fun W => W <| w_pk_msg := m |>) HI eq_refl Hq) as (b & s2 & s3 & s4 & E1 & E2 & E3 & Hpr); [done|].
    eapply wp_RET; [exact E1|]. eapply wp_RET; [exact E2|]. eapply wp_RET; [exact E3|]. by eapply (progress_ret_task OInv).
Qed.

(** *** Creation, deletion, initialization *)

(** A mailbox without messages. *)
Lemma mbx_msgs_empty o o' i :
  mbx_msgs o → o_msg o' = o_msg o → (∀ j, j ≠ i → o_mbxcb o' j = o_mbxcb o j) →
  (mbx_exists o' i → pk_head (o_mbxcb o' i) = 0) → mbx_msgs o'.
Proof.
  intros Hm Hmsg Hj Hi. apply (mbx_msgs_upd o o' i []); [done|done|intros He; by apply box_ok_empty, Hi|by intros x j ?%not_elem_of_nil|].
  intros x j _ _. by rewrite Hmsg.
Qed.

Lemma ini_mbx_ok mbxid : call_ok OInv (ini_mbx mbxid).
Proof.
  intros s HOK. unfold ini_mbx. task_call g t s1 HI Hin Ht Hd. mbx_begin s1 mbxid HI He Hfree Hok Hhd.
  destruct (init_queue_ok OInv g s1 (MBXQ i) (Inv_Mid _ _ _ HI) eq_refl Hhd) as (b & g' & s2 & E & HM & HF & Hw & Hnil & Hr).
  rewrite (bind_RET _ _ _ _ _ E). pose proof (fr_obj _ _ _ _ HF) as Ho. eapply wp_RET; [reflexivity|]. apply wp_bind.
  eapply dispatch_if_ok; [exact HI|exact Hin|exact Ht| |by apply Hr|apply HF|apply HF|exact Hw|intros; svc_ret].
  eapply (mbx_put g' s2); [exact HM|by rewrite <- Ho|done|done| | | |].
  - intros j Hj. simpl. by rewrite fn_lookup_insert_ne.
  - simpl. by rewrite fn_lookup_insert.
  - intros _. simpl. by rewrite fn_lookup_insert.
  - eapply (mbx_msgs_empty (obj s2) _ i); [apply (messages_get s2), HM|done| |].
    + intros j Hj. simpl. by rewrite fn_lookup_insert_ne.
    + intros _. simpl. by rewrite fn_lookup_insert.
Qed.

Lemma del_mbx_ok mbxid : call_ok OInv (del_mbx mbxid).
Proof.
  intros s HOK. unfold del_mbx. task_call g t s1 HI Hin Ht Hd. mbx_begin s1 mbxid HI He Hfree Hok Hhd.
  destruct (tmax_smbxid <? IDOF i); [|svc_ret].
  destruct (init_queue_ok OInv g s1 (MBXQ i) (Inv_Mid _ _ _ HI) eq_refl Hhd) as (b & g' & s2 & E & HM & HF & Hw & Hnil & Hr).
  rewrite (bind_RET _ _ _ _ _ E). pose proof (fr_obj _ _ _ _ HF) as Ho.
  do 2 (eapply wp_RET; [reflexivity|]). apply wp_bind.
  eapply dispatch_if_ok; [exact HI|exact Hin|exact Ht| |by apply Hr|apply HF|apply HF|exact Hw|intros; svc_ret].
  eapply (kind_delete (kd := mbx_kind) OInv g' s2 i (fun o => _) HM); try done.
  - simpl. by rewrite <- Ho.
  - intros q Hq. destruct q; simpl in Hq; simplify_eq; done.
  - split; [simpl; by destruct (obj s2)|]. intros Hm. eapply (mbx_msgs_empty (obj s2) _ i); [exact Hm|done| |].
    + intros j Hj. cb_lookup.
    + intros Hx. destruct Hx. cb_lookup.
  - intros j Hj. cb_lookup.
  - cb_lookup.
Qed.

Lemma acre_mbx_ok pk : call_ok OInv (acre_mbx pk).
Proof.
  intros s HOK. unfold acre_mbx. task_call g t s1 HI Hin Ht Hd. split_ctx.
  destruct (tnum_mbx =? 0)%nat; [svc_ret|]. simpl.
  destruct (o_free_mbxcb (obj s1)) as [|i l] eqn:Hl; [svc_ret|]. simpl.
  pose proof (Inv_comp (inv := mbx_inv) OInv g s1 HI) as Hki.
  assert (Hnil : wq s1 (MBXQ i) = []) by (by apply (kind_free_no_waiter (kd := mbx_kind) s1 i l)).
  destruct (init_empty_queue_ok OInv g s1 (MBXQ i) (Inv_Mid _ _ _ HI) Hnil) as [HM Hnil2].
  eapply wp_RET; [by apply take_free_eq|]. repeat (eapply wp_RET; [reflexivity|]). split; [|done]. exists g.
  apply (Inv_of OInv g s1); [done| |done..].
  eapply (kind_create (kd := mbx_kind) OInv g _ i l (fun o => _) HM); [done| |done| |].
  - split; [simpl; by destruct (obj s1)|]. intros Hm. eapply (mbx_msgs_empty (obj s1) _ i); [exact Hm|done| |].
    + intros j Hj. cb_lookup.
    + intros _. cb_lookup.
  - intros j Hne. cb_lookup.
  - intros Hno. apply kind_ok_intro; [unfold gone; cb_lookup; by eapply rsatr_exists|]. intros _. cb_lookup.
Qed.
End calls.
End mailbox.
