(* ===== verification/Cyclic.v ===== *)
(** * Cyclic handlers (kernel/cyclic.c, cyclic.h) *)

From S2P Require Import Prelude Queue Data Kmonad TimeEvent Task Wait Core Release Service Transit Object Handler.
Open Scope Z_scope.

Record T_CCYC := mkT_CCYC { c_cycatr : Z; c_cyc_exinf : Z; c_cychdr : Z; c_cyctim : Z; c_cycphs : Z }.
(** [lefttim] is written only for a handler that is started. *)
Record T_RCYC := mkT_RCYC { r_cycstat : Z; r_cyc_lefttim : option Z }.

Section cyclic.
Context {cfg : Config}.
Implicit Types (cycid evttim : Z) (i : nat).

Definition tnum_cyc : nat := tnum tmax_cycid.
Definition tnum_scyc : nat := tnum tmax_scycid.

Definition upd_cyc i (f : CYCCB → CYCCB) : K () :=
  upd (upd_obj (fun o => o <| o_cyccb ::= fun T => <[i := f (T i)]> T |>)).
Definition set_free_cyc (f : list nat → list nat) : K () :=
  upd (upd_obj (fun o => o <| o_free_cyccb ::= f |>)).
Definition set_cycatr i (atr : Z) : K () :=
  upd_cyc i (fun C => C <| p_cycinib ::= fun I => I <| cycatr := atr |> |>).
Definition set_cycsta i (b : bool) : K () := upd_cyc i (fun C => C <| cycsta := b |>).

Definition tmevtb_enqueue_cyc i evttim : K () :=
  tmevtb_enqueue_evttim (TM_CYC i) evttim call_cychdr_cb i ;;;
  upd_cyc i (fun C => C <| Data.evttim := evttim |>).

Definition initialize_cyclic : K () :=
  kfor (seq 0 tnum_scyc) (fun i =>
    upd_cyc i (fun C => C <| p_cycinib := cycinib_table i |>) ;;;
    get s;;
    if bits (cycatr (p_cycinib (cyccb s i))) TA_STA then
      set_cycsta i true ;;;
      tmevtb_enqueue_cyc i (cycphs (p_cycinib (cyccb s i)))
    else set_cycsta i false) ;;;
  set_free_cyc (fun _ => []) ;;;
  kfor (seq tnum_scyc (tnum_cyc - tnum_scyc)) (fun i =>
    set_cycatr i TA_NOEXS ;;;
    set_free_cyc (fun l => l ++ [i])).

Definition acre_cyc (pk_ccyc : T_CCYC) : K Z :=
  ! CHECK_TSKCTX_UNL ;;
  ! CHECK_RSATR (c_cycatr pk_ccyc) TA_STA ;;
  ! CHECK_ALIGN_FUNC (c_cychdr pk_ccyc) ;;
  ! CHECK_NONNULL_FUNC (c_cychdr pk_ccyc) ;;
  ! CHECK_PAR ((0 <? c_cyctim pk_ccyc) && (c_cyctim pk_ccyc <=? TMAX_RELTIM)) ;;
  ! CHECK_PAR ((0 <=? c_cycphs pk_ccyc) && (c_cycphs pk_ccyc <=? TMAX_RELTIM)) ;;
  lock_cpu ;;;
  ercd <- (get s;;
    if (tnum_cyc =? 0)%nat || no_free (o_free_cyccb (obj s)) then ret E_NOID
    else
      i <- take_free o_free_cyccb set_free_cyc ;;
      upd_cyc i (fun C => C <| p_cycinib := mkCYCINIB (c_cycatr pk_ccyc) (c_cyc_exinf pk_ccyc)
        (c_cychdr pk_ccyc) (c_cyctim pk_ccyc) (c_cycphs pk_ccyc) |>) ;;;
      (get s;;
       if bits (cycatr (p_cycinib (cyccb s i))) TA_STA then
         set_cycsta i true ;;;
         tmevtb_enqueue_cyc i (u32 (base_time (tm s) + cycphs (p_cycinib (cyccb s i))))
       else set_cycsta i false) ;;;
      ret (IDOF i)) ;;
  unlock_cpu ;;;
  ret ercd.

(** [if (cycsta) { cycsta = false; tmevtb_dequeue(&tmevtb); }] *)
Definition stop_cyc i : K () :=
  get s;;
  if cycsta (cyccb s i) then
    set_cycsta i false ;;;
    tmevtb_dequeue (TM_CYC i)
  else ret ().

Definition del_cyc cycid : K Z :=
  ! CHECK_TSKCTX_UNL ;;
  ! CHECK_CYCID cycid ;;
  let i := INDEX cycid in
  lock_cpu ;;;
  ercd <- (get s;;
    if cycatr (p_cycinib (cyccb s i)) =? TA_NOEXS then ret E_NOEXS
    else if tmax_scycid <? IDOF i then
      stop_cyc i ;;;
      set_cycatr i TA_NOEXS ;;;
      set_free_cyc (fun l => l ++ [i]) ;;;
      ret E_OK
    else ret E_OBJ) ;;
  unlock_cpu ;;;
  ret ercd.

Definition sta_cyc cycid : K Z :=
  ! CHECK_TSKCTX_UNL ;;
  ! CHECK_CYCID cycid ;;
  let i := INDEX cycid in
  lock_cpu ;;;
  ercd <- (get s;;
    if cycatr (p_cycinib (cyccb s i)) =? TA_NOEXS then ret E_NOEXS
    else
      (if cycsta (cyccb s i) then tmevtb_dequeue (TM_CYC i) else set_cycsta i true) ;;;
      get s;; tmevtb_enqueue_cyc i (u32 (base_time (tm s) + cycphs (p_cycinib (cyccb s i)))) ;;;
      ret E_OK) ;;
  unlock_cpu ;;;
  ret ercd.

Definition stp_cyc cycid : K Z :=
  ! CHECK_TSKCTX_UNL ;;
  ! CHECK_CYCID cycid ;;
  let i := INDEX cycid in
  lock_cpu ;;;
  ercd <- (get s;;
    if cycatr (p_cycinib (cyccb s i)) =? TA_NOEXS then ret E_NOEXS
    else
      stop_cyc i ;;;
      ret E_OK) ;;
  unlock_cpu ;;;
  ret ercd.

Definition ref_cyc cycid : K (Z * option T_RCYC) :=
  ! CHECK_TSKCTX_UNL ;;
  ! CHECK_CYCID cycid ;;
  let i := INDEX cycid in
  lock_cpu ;;;
  r <- (get s;;
    if cycatr (p_cycinib (cyccb s i)) =? TA_NOEXS then ret (E_NOEXS, None)
    else ret (E_OK, Some (
      if cycsta (cyccb s i) then mkT_RCYC TCYC_STA (Some (tmevt_lefttim (TM_CYC i) (tm s)))
      else mkT_RCYC TCYC_STP None))) ;;
  unlock_cpu ;;;
  ret r.

Definition call_cychdr i : K () :=
  get s;;
  tmevtb_enqueue_cyc i (u32 (evttim (cyccb s i) + cyctim (p_cycinib (cyccb s i)))) ;;;
  get s;; let saved_ipm := get_ipm_ s in
  unlock_cpu ;;;
  yield (CallCyc i (cyc_exinf (p_cycinib (cyccb s i)))) ;;;
  (get s;; if negb (sense_lock s) then lock_cpu else ret ()) ;;;
  set_ipm saved_ipm.

(** ** Proofs *)

#[export] Instance cyc_handler : Handler CYCCB.
Proof.
  refine {| hbs := o_cyccb; hfrees := o_free_cyccb; h_atr := fun C => cycatr (p_cycinib C); h_sta := cycsta;
    h_tm := TM_CYC; h_cb := call_cychdr_cb;
    h_only := fun o o' => o' = o <| o_cyccb := o_cyccb o' |> <| o_free_cyccb := o_free_cyccb o' |> |}.
  - by intros [].
  - by intros i j [= ->].
  - done.
  - intros F s q Hon. destruct q; simpl in *; try rewrite Hon; done.
Defined.
Notation cyc_inv := (handler_inv (hd := cyc_handler)).

Section calls.
Context (OInv : State → Prop) `{!Objects OInv}.
Context `{!TimerComponent OInv cyc_inv (h_own (hd := cyc_handler)) (h_only (Handler := cyc_handler))}.
Notation WP := (wp (rely OInv) (guar OInv)).
Notation Inv := (Inv OInv).
Notation OK := (OK OInv).

Definition set_cyc i (f : CYCCB → CYCCB) (o : OBJ) : OBJ := o <| o_cyccb ::= fun T => <[i := f (T i)]> T |>.

Lemma set_cyc_hchange i f v o :
  p_cycinib (f (o_cyccb o i)) = p_cycinib (o_cyccb o i) → cycsta (f (o_cyccb o i)) = v →
  hchange (hd := cyc_handler) i v o (set_cyc i f o).
Proof.
  intros Hi Hs. split; unfold set_cyc; simpl; rewrite ?fn_lookup_insert, ?Hi; try done.
  intros j Hne. cb_lookup.
Qed.

Lemma hchange_cyc_evttim i v t o o' :
  hchange (hd := cyc_handler) i v o o' →
  hchange (hd := cyc_handler) i v o (set_cyc i (fun C => C <| Data.evttim := t |>) o').
Proof.
  intros [C1 C2 C3 C4 C5]. simpl in *. split; unfold set_cyc; simpl; rewrite ?fn_lookup_insert; try done.
  - by rewrite C1.
  - intros j Hne. rewrite fn_lookup_insert_ne by done. by apply C3.
Qed.

Lemma tmevtb_enqueue_cyc_eq s i t :
  heap_ok (tm s) → evt (tm s) (TM_CYC i) = None →
  ∃ m', tmevtb_enqueue_cyc i t s = RET () (upd_obj (set_cyc i (fun C => C <| Data.evttim := t |>)) (upd_tm (fun _ => m') s)) ∧
    registered (tm s) m' (TM_CYC i) t call_cychdr_cb i.
Proof.
  intros Hok He. destruct (tmevtb_enqueue_evttim_ok s (TM_CYC i) t call_cychdr_cb i Hok He) as (m' & E & Hr).
  exists m'. split; [|done]. unfold tmevtb_enqueue_cyc. by rewrite (bind_RET _ _ _ _ _ E).
Qed.

(** Starting a handler whose block is not registered. *)
Lemma start_cyc_ok g s i G m t :
  Inv g s → cycatr (p_cycinib (cyccb s i)) ≠ TA_NOEXS → at_block (tm s) m (TM_CYC i) → evt m (TM_CYC i) = None →
  hchange (hd := cyc_handler) i true (obj s) (G (obj s)) →
  ∃ s', tmevtb_enqueue_cyc i t (upd_obj G (upd_tm (fun _ => m) s)) = RET () s' ∧ Inv g s' ∧
    var s' = var s ∧ cpu s' = cpu s ∧ same_time s s'.
Proof.
  intros HI He Hat Hev HG.
  destruct (tmevtb_enqueue_cyc_eq (upd_obj G (upd_tm (fun _ => m) s)) i t) as (m' & E & Hr); [apply Hat|exact Hev|].
  eexists. split; [exact E|]. split_and!; try done.
  - apply (handler_register_ok (hd := cyc_handler) OInv g s i m m' (fun o => _) t HI He Hat); [|exact Hr].
    by apply hchange_cyc_evttim.
  - assert (Hat' : at_block (tm s) m' (TM_CYC i)) by (eapply at_block_trans; [exact Hat|by eapply registered_at]).
    apply Hat'.
Qed.

Ltac cyc_begin s1 cycid He :=
  set (i := INDEX cycid);
  destruct (Z.eqb_spec (cycatr (p_cycinib (cyccb s1 i))) TA_NOEXS) as [He|He]; [svc_ret|].

Lemma stop_cyc_ok g s i :
  Inv g s → cycatr (p_cycinib (cyccb s i)) ≠ TA_NOEXS →
  ∃ s', stop_cyc i s = RET () s' ∧ h_stopped (hd := cyc_handler) OInv g s i s'.
Proof.
  intros HI He. apply (handler_stop_ok (hd := cyc_handler) OInv g s i (set_cyc i (fun C => C <| cycsta := false |>)) HI He).
  by apply set_cyc_hchange.
Qed.

Lemma del_cyc_ok cycid : call_ok OInv (del_cyc cycid).
Proof.
  intros s HOK. unfold del_cyc. task_call g t s1 HI Hin Ht Hd. cyc_begin s1 cycid He.
  destruct (tmax_scycid <? IDOF i); [|svc_ret].
  destruct (stop_cyc_ok g s1 i HI He) as (s2 & E & [S1 S2 S3 S4 S5 S6]).
  eapply wp_RET; [exact E|]. do 2 (eapply wp_RET; [reflexivity|]).
  split; [|by eapply in_task_same]. exists g.
  apply (handler_delete_ok (hd := cyc_handler) OInv g s2 i (fun o => _) S1 S4 S6); try done; simpl.
  - intros j Hne. cb_lookup.
  - cb_lookup.
Qed.

Lemma stp_cyc_ok cycid : call_ok OInv (stp_cyc cycid).
Proof.
  intros s HOK. unfold stp_cyc. task_call g t s1 HI Hin Ht Hd. cyc_begin s1 cycid He.
  destruct (stop_cyc_ok g s1 i HI He) as (s2 & E & [S1 S2 S3 S4 S5 S6]).
  eapply wp_RET; [exact E|]. split; [by exists g|by eapply in_task_same].
Qed.

Lemma sta_cyc_ok cycid : call_ok OInv (sta_cyc cycid).
Proof.
  intros s HOK. unfold sta_cyc. task_call g t s1 HI Hin Ht Hd. cyc_begin s1 cycid He.
  destruct (handler_begin_ok (hd := cyc_handler) OInv g s1 i (set_cyc i (fun C => C <| cycsta := true |>)) HI He)
    as (G & m & E & Hat & Hev & HG); [by apply set_cyc_hchange|].
  eapply wp_RET; [exact E|].
  edestruct (start_cyc_ok g s1 i G m) as (s2 & E2 & HI2 & Hv & Hc & _); [done..|].
  eapply wp_RET; [exact E2|]. split; [by exists g|by eapply in_task_same].
Qed.

Lemma acre_cyc_ok pk : call_ok OInv (acre_cyc pk).
Proof.
  intros s HOK. unfold acre_cyc. task_call g t s1 HI Hin Ht Hd. split_ctx.
  destruct (tnum_cyc =? 0)%nat; [svc_ret|]. simpl.
  destruct (o_free_cyccb (obj s1)) as [|i l] eqn:Hl; [svc_ret|]. simpl.
  destruct (handler_free (hd := cyc_handler) OInv g s1 i l HI Hl) as [Hgone Hev]. simpl in Hev.
  assert (Hex : c_cycatr pk ≠ TA_NOEXS) by (by eapply rsatr_exists).
  eapply wp_RET; [by apply take_free_eq|]. eapply wp_RET; [reflexivity|]. set (s2 := upd_obj _ (upd_obj _ s1)).
  apply wp_bind. cbv beta. destruct (bits (cycatr _) TA_STA).
  - eapply wp_RET; [reflexivity|]. set (s3 := upd_obj _ s2).
    destruct (tmevtb_enqueue_cyc_eq s3 i (u32 (base_time (tm s2) + cycphs (p_cycinib (cyccb s2 i))))) as (m' & E & Hr);
      [apply HI|exact Hev|].
    rewrite E. split; [|exact Hin]. exists g.
    apply (handler_create_ok (hd := cyc_handler) OInv g s1 i l m' (fun o => _) HI Hl); try done; simpl.
    + by eapply registered_at.
    + intros j Hne. unfold set_cyc. cb_lookup.
    + split; unfold h_gone; simpl; [|split; apply Hr]. rewrite (rg_evt _ _ _ _ _ _ Hr). unfold set_cyc. cb_lookup.
  - split; [|exact Hin]. exists g.
    apply (handler_create_ok (hd := cyc_handler) OInv g s1 i l (tm s1) (fun o => _) HI Hl); try done; simpl.
    + apply at_block_refl, HI.
    + intros j Hne. cb_lookup.
    + split; unfold h_gone; simpl; rewrite Hev; [|by intros []]. cb_lookup. split; [by intros []|naive_solver].
Qed.

Lemma ref_cyc_ok cycid : call_ok OInv (ref_cyc cycid).
Proof. intros s HOK. unfold ref_cyc. task_call g t s1 HI Hin Ht Hd. case_match; svc_ret. Qed.

(** The callback: the next time is registered before the handler is called. *)
Lemma call_cychdr_ok g s i m :
  Inv g s → in_int s → cycatr (p_cycinib (cyccb s i)) ≠ TA_NOEXS → cycsta (cyccb s i) = true →
  at_block (tm s) m (TM_CYC i) → evt m (TM_CYC i) = None →
  WP (fun _ s' => OK s' ∧ in_int s' ∧ same_time s s') (call_cychdr i (upd_tm (fun _ => m) s)).
Proof.
  intros HI [Hc Hl] He Hs Hat Hev. unfold call_cychdr. unfold kget at 1. set (t := u32 _).
  destruct (start_cyc_ok g s i (fun o => o) m t HI He Hat Hev) as (s2 & E & HI2 & Hv & Hcp & Htm); [by split|].
  eapply wp_RET; [exact E|]. unfold kget at 1. eapply wp_RET; [reflexivity|].
  assert (Hc2 : sense_context s2 = true) by (unfold sense_context in *; by rewrite Hcp).
  split; [split_and!; [|exact Hc2|done]|].
  { apply (OK_lock OInv s2 false). by exists g. }
  intros s3 (HOK3 & Hc3 & Htm3). apply (handler_return_ok OInv s3); [exact HOK3|exact Hc3|].
  intros s4 H4 Hin4 Htm4. split_and!; [exact H4|apply Hin4..|].
  eapply same_time_trans; [exact Htm|]. eapply same_time_trans; [|exact Htm4]. exact Htm3.
Qed.
End calls.
End cyclic.
