(* ===== verification/Alarm.v ===== *)
(** * Alarm handlers (kernel/alarm.c, alarm.h) *)

From S2P Require Import Prelude Queue Data Kmonad TimeEvent Task Wait Core Release Service Transit Object Handler.
Open Scope Z_scope.

Record T_CALM := mkT_CALM { c_almatr : Z; c_alm_exinf : Z; c_almhdr : Z }.
(** [lefttim] is written only for a handler that is started. *)
Record T_RALM := mkT_RALM { r_almstat : Z; r_alm_lefttim : option Z }.

Section alarm.
Context {cfg : Config}.
Implicit Types (almid almtim : Z) (i : nat).

Definition tnum_alm : nat := tnum tmax_almid.
Definition tnum_salm : nat := tnum tmax_salmid.

Definition upd_alm i (f : ALMCB → ALMCB) : K () :=
  upd (upd_obj (fun o => o <| o_almcb ::= fun T => <[i := f (T i)]> T |>)).
Definition set_free_alm (f : list nat → list nat) : K () :=
  upd (upd_obj (fun o => o <| o_free_almcb ::= f |>)).
Definition set_almatr i (atr : Z) : K () :=
  upd_alm i (fun C => C <| p_alminib ::= fun I => I <| almatr := atr |> |>).
Definition set_almsta i (b : bool) : K () := upd_alm i (fun C => C <| almsta := b |>).

Definition initialize_alarm : K () :=
  kfor (seq 0 tnum_salm) (fun i =>
    upd_alm i (fun C => C <| p_alminib := alminib_table i |>) ;;;
    set_almsta i false) ;;;
  set_free_alm (fun _ => []) ;;;
  kfor (seq tnum_salm (tnum_alm - tnum_salm)) (fun i =>
    set_almatr i TA_NOEXS ;;;
    set_free_alm (fun l => l ++ [i])).

Definition acre_alm (pk_calm : T_CALM) : K Z :=
  ! CHECK_TSKCTX_UNL ;;
  ! CHECK_RSATR (c_almatr pk_calm) TA_NULL ;;
  ! CHECK_ALIGN_FUNC (c_almhdr pk_calm) ;;
  ! CHECK_NONNULL_FUNC (c_almhdr pk_calm) ;;
  lock_cpu ;;;
  ercd <- (get s;;
    if (tnum_alm =? 0)%nat || no_free (o_free_almcb (obj s)) then ret E_NOID
    else
      i <- take_free o_free_almcb set_free_alm ;;
      upd_alm i (fun C => C <| p_alminib :=
        mkALMINIB (c_almatr pk_calm) (c_alm_exinf pk_calm) (c_almhdr pk_calm) |>) ;;;
      set_almsta i false ;;;
      ret (IDOF i)) ;;
  unlock_cpu ;;;
  ret ercd.

(** [if (almsta) { almsta = false; tmevtb_dequeue(&tmevtb); }] *)
Definition stop_alm i : K () :=
  get s;;
  if almsta (almcb s i) then
    set_almsta i false ;;;
    tmevtb_dequeue (TM_ALM i)
  else ret ().

(** [if (almsta) tmevtb_dequeue(&tmevtb); else almsta = true;], then
    [tmevtb_enqueue(&tmevtb, almtim, call_almhdr, p_almcb)]. *)
Definition start_alm i almtim : K () :=
  get s;;
  (if almsta (almcb s i) then tmevtb_dequeue (TM_ALM i) else set_almsta i true) ;;;
  tmevtb_enqueue (TM_ALM i) almtim call_almhdr_cb i.

Definition del_alm almid : K Z :=
  ! CHECK_TSKCTX_UNL ;;
  ! CHECK_ALMID almid ;;
  let i := INDEX almid in
  lock_cpu ;;;
  ercd <- (get s;;
    if almatr (p_alminib (almcb s i)) =? TA_NOEXS then ret E_NOEXS
    else if tmax_salmid <? IDOF i then
      stop_alm i ;;;
      set_almatr i TA_NOEXS ;;;
      set_free_alm (fun l => l ++ [i]) ;;;
      ret E_OK
    else ret E_OBJ) ;;
  unlock_cpu ;;;
  ret ercd.

Definition sta_alm almid almtim : K Z :=
  ! CHECK_TSKCTX_UNL ;;
  ! CHECK_ALMID almid ;;
  ! CHECK_PAR (almtim <=? TMAX_RELTIM) ;;
  let i := INDEX almid in
  lock_cpu ;;;
  ercd <- (get s;;
    if almatr (p_alminib (almcb s i)) =? TA_NOEXS then ret E_NOEXS
    else start_alm i almtim ;;; ret E_OK) ;;
  unlock_cpu ;;;
  ret ercd.

Definition ista_alm almid almtim : K Z :=
  ! CHECK_INTCTX_UNL ;;
  ! CHECK_ALMID almid ;;
  ! CHECK_PAR (almtim <=? TMAX_RELTIM) ;;
  let i := INDEX almid in
  lock_cpu ;;;
  ercd <- (get s;;
    if almatr (p_alminib (almcb s i)) =? TA_NOEXS then ret E_NOEXS
    else start_alm i almtim ;;; ret E_OK) ;;
  unlock_cpu ;;;
  ret ercd.

Definition stp_alm almid : K Z :=
  ! CHECK_TSKCTX_UNL ;;
  ! CHECK_ALMID almid ;;
  let i := INDEX almid in
  lock_cpu ;;;
  ercd <- (get s;;
    if almatr (p_alminib (almcb s i)) =? TA_NOEXS then ret E_NOEXS
    else stop_alm i ;;; ret E_OK) ;;
  unlock_cpu ;;;
  ret ercd.

Definition istp_alm almid : K Z :=
  ! CHECK_INTCTX_UNL ;;
  ! CHECK_ALMID almid ;;
  let i := INDEX almid in
  lock_cpu ;;;
  ercd <- (get s;;
    if almatr (p_alminib (almcb s i)) =? TA_NOEXS then ret E_NOEXS
    else stop_alm i ;;; ret E_OK) ;;
  unlock_cpu ;;;
  ret ercd.

Definition ref_alm almid : K (Z * option T_RALM) :=
  ! CHECK_TSKCTX_UNL ;;
  ! CHECK_ALMID almid ;;
  let i := INDEX almid in
  lock_cpu ;;;
  r <- (get s;;
    if almatr (p_alminib (almcb s i)) =? TA_NOEXS then ret (E_NOEXS, None)
    else ret (E_OK, Some (
      if almsta (almcb s i) then mkT_RALM TALM_STA (Some (tmevt_lefttim (TM_ALM i) (tm s)))
      else mkT_RALM TALM_STP None))) ;;
  unlock_cpu ;;;
  ret r.

Definition call_almhdr i : K () :=
  set_almsta i false ;;;
  get s;; let saved_ipm := get_ipm_ s in
  unlock_cpu ;;;
  yield (CallAlm i (alm_exinf (p_alminib (almcb s i)))) ;;;
  (get s;; if negb (sense_lock s) then lock_cpu else ret ()) ;;;
  set_ipm saved_ipm.

(** ** Proofs *)

#[export] Instance alm_handler : Handler ALMCB.
Proof.
  refine {| hbs := o_almcb; hfrees := o_free_almcb; h_atr := fun C => almatr (p_alminib C); h_sta := almsta;
    h_tm := TM_ALM; h_cb := call_almhdr_cb;
    h_only := fun o o' => o' = o <| o_almcb := o_almcb o' |> <| o_free_almcb := o_free_almcb o' |> |}.
  - by intros [].
  - by intros i j [= ->].
  - done.
  - intros F s q Hon. destruct q; simpl in *; try rewrite Hon; done.
Defined.
Notation alm_inv := (handler_inv (hd := alm_handler)).

Section calls.
Context (OInv : State → Prop) `{!Objects OInv}.
Context `{!TimerComponent OInv alm_inv (h_own (hd := alm_handler)) (h_only (Handler := alm_handler))}.
Notation WP := (wp (rely OInv) (guar OInv)).
Notation Inv := (Inv OInv).
Notation OK := (OK OInv).

Definition set_alm i (f : ALMCB → ALMCB) (o : OBJ) : OBJ := o <| o_almcb ::= fun T => <[i := f (T i)]> T |>.

Lemma set_alm_hchange i v o :
  hchange (hd := alm_handler) i v o (set_alm i (fun C => C <| almsta := v |>) o).
Proof.
  split; unfold set_alm; simpl; rewrite ?fn_lookup_insert; try done. intros j Hne. cb_lookup.
Qed.

Ltac alm_begin s1 almid He :=
  set (i := INDEX almid);
  destruct (Z.eqb_spec (almatr (p_alminib (almcb s1 i))) TA_NOEXS) as [He|He]; [svc_ret|].

Lemma stop_alm_ok g s i :
  Inv g s → almatr (p_alminib (almcb s i)) ≠ TA_NOEXS →
  ∃ s', stop_alm i s = RET () s' ∧ h_stopped (hd := alm_handler) OInv g s i s'.
Proof.
  intros HI He. apply (handler_stop_ok (hd := alm_handler) OInv g s i (set_alm i (fun C => C <| almsta := false |>)) HI He).
  apply set_alm_hchange.
Qed.

Lemma start_alm_ok g s i almtim :
  Inv g s → almatr (p_alminib (almcb s i)) ≠ TA_NOEXS → almtim ≤ TMAX_RELTIM →
  ∃ s', start_alm i almtim s = RET () s' ∧ Inv g s' ∧ var s' = var s ∧ cpu s' = cpu s.
Proof.
  intros HI He Hle. unfold start_alm, kget.
  destruct (handler_begin_ok (hd := alm_handler) OInv g s i (set_alm i (fun C => C <| almsta := true |>)) HI He)
    as (G & m & E & Hat & Hev & HG); [by apply set_alm_hchange|].
  simpl in E. erewrite bind_RET by exact E.
  destruct (tmevtb_enqueue_ok (upd_obj G (upd_tm (fun _ => m) s)) (TM_ALM i) almtim call_almhdr_cb i) as (m' & E2 & Hr);
    [apply Hat|exact Hev|exact Hle|].
  eexists. split; [exact E2|]. split_and!; [|done..].
  by eapply (handler_register_ok (hd := alm_handler) OInv g s i m m' G).
Qed.

Lemma del_alm_ok almid : call_ok OInv (del_alm almid).
Proof.
  intros s HOK. unfold del_alm. task_call g t s1 HI Hin Ht Hd. alm_begin s1 almid He.
  destruct (tmax_salmid <? IDOF i); [|svc_ret].
  destruct (stop_alm_ok g s1 i HI He) as (s2 & E & [S1 S2 S3 S4 S5 S6]).
  eapply wp_RET; [exact E|]. do 2 (eapply wp_RET; [reflexivity|]).
  split; [|by eapply in_task_same]. exists g.
  apply (handler_delete_ok (hd := alm_handler) OInv g s2 i (fun o => _) S1 S4 S6); try done; simpl.
  - intros j Hne. cb_lookup.
  - cb_lookup.
Qed.

Lemma stp_alm_ok almid : call_ok OInv (stp_alm almid).
Proof.
  intros s HOK. unfold stp_alm. task_call g t s1 HI Hin Ht Hd. alm_begin s1 almid He.
  destruct (stop_alm_ok g s1 i HI He) as (s2 & E & [S1 S2 S3 S4 S5 S6]).
  eapply wp_RET; [exact E|]. split; [by exists g|by eapply in_task_same].
Qed.

Lemma istp_alm_ok almid : call_ok OInv (istp_alm almid).
Proof.
  intros s HOK. unfold istp_alm. int_call g s1 HI Hin. alm_begin s1 almid He.
  destruct (stop_alm_ok g s1 i HI He) as (s2 & E & [S1 S2 S3 S4 S5 S6]).
  eapply wp_RET; [exact E|]. split; [by exists g|by eapply in_int_same].
Qed.

Lemma sta_alm_ok almid almtim : call_ok OInv (sta_alm almid almtim).
Proof.
  intros s HOK. unfold sta_alm. task_call g t s1 HI Hin Ht Hd. alm_begin s1 almid He.
  destruct (start_alm_ok g s1 i almtim HI He) as (s2 & E & HI2 & Hv & Hc); [lia|].
  eapply wp_RET; [exact E|]. split; [by exists g|by eapply in_task_same].
Qed.

Lemma ista_alm_ok almid almtim : call_ok OInv (ista_alm almid almtim).
Proof.
  intros s HOK. unfold ista_alm. int_call g s1 HI Hin. alm_begin s1 almid He.
  destruct (start_alm_ok g s1 i almtim HI He) as (s2 & E & HI2 & Hv & Hc); [lia|].
  eapply wp_RET; [exact E|]. split; [by exists g|by eapply in_int_same].
Qed.

Lemma acre_alm_ok pk : call_ok OInv (acre_alm pk).
Proof.
  intros s HOK. unfold acre_alm. task_call g t s1 HI Hin Ht Hd. split_ctx.
  destruct (tnum_alm =? 0)%nat; [svc_ret|]. simpl.
  destruct (o_free_almcb (obj s1)) as [|i l] eqn:Hl; [svc_ret|]. simpl.
  destruct (handler_free (hd := alm_handler) OInv g s1 i l HI Hl) as [Hgone Hev]. simpl in Hev.
  eapply wp_RET; [by apply take_free_eq|]. do 2 (eapply wp_RET; [reflexivity|]).
  split; [|exact Hin]. exists g.
  apply (handler_create_ok (hd := alm_handler) OInv g s1 i l (tm s1) (fun o => _) HI Hl); try done; simpl.
  - apply at_block_refl, HI.
  - intros j Hne. cb_lookup.
  - split; unfold h_gone; simpl; rewrite Hev; [|by intros []]. cb_lookup. split; [by intros []|naive_solver].
Qed.

Lemma ref_alm_ok almid : call_ok OInv (ref_alm almid).
Proof. intros s HOK. unfold ref_alm. task_call g t s1 HI Hin Ht Hd. case_match; svc_ret. Qed.

(** The callback: the alarm is stopped before the handler is called, which may
    start it again. *)
Lemma call_almhdr_ok g s i m :
  Inv g s → in_int s → almatr (p_alminib (almcb s i)) ≠ TA_NOEXS →
  at_block (tm s) m (TM_ALM i) → evt m (TM_ALM i) = None →
  WP (fun _ s' => OK s' ∧ in_int s' ∧ same_time s s') (call_almhdr i (upd_tm (fun _ => m) s)).
Proof.
  intros HI [Hc Hl] He Hat Hev. unfold call_almhdr. eapply wp_RET; [reflexivity|]. set (s2 := upd_obj _ _).
  assert (HI2 : Inv g s2).
  { apply (handler_put (hd := alm_handler) OInv g s m i (set_alm i (fun C => C <| almsta := false |>)) false); try done.
    - apply set_alm_hchange. - simpl; rewrite Hev. split; [by intros []|done]. - simpl; rewrite Hev. by intros []. }
  unfold kget at 1. eapply wp_RET; [reflexivity|].
  split; [split_and!; [|exact Hc|done]|].
  { apply (OK_lock OInv s2 false). by exists g. }
  intros s3 (HOK3 & Hc3 & Htm3). apply (handler_return_ok OInv s3); [exact HOK3|exact Hc3|].
  intros s4 H4 Hin4 Htm4. split_and!; [exact H4|apply Hin4..|].
  eapply same_time_trans; [|exact Htm4]. eapply (same_time_trans s s2 s3); [apply Hat|exact Htm3].
Qed.
End calls.
End alarm.
