(* ===== verification/SignalTime.v ===== *)
(** * The time tick and the system time (kernel/time_event.c, time_manage.c)

    [rounds] bounds the time events handled in one tick: a handler called
    from the loop may register further ones. *)

From S2P Require Import Prelude Queue Data Kmonad TimeEvent Task Wait Core Release Service Transit Object Handler Cyclic Alarm.
Open Scope Z_scope.

Section signal_time.
Context {cfg : Config}.

(** The call of the callback function of a time event. *)
Definition call_callback (cb : CBACK) (arg : nat) : K () :=
  match cb with
  | wait_tmout_cb => wait_tmout arg
  | wait_tmout_ok_cb => wait_tmout_ok arg
  | call_cychdr_cb => call_cychdr arg
  | call_almhdr_cb => call_almhdr arg
  end.

(** The update of [current_time], [next_time] and [next_subtime]. *)
Definition advance (m : TM) : TM :=
  let m := m <| tm_current_time := tm_next_time m |> in
  if TIC_DENO =? 1 then m <| tm_next_time := u32 (tm_current_time m + TIC_NUME) |>
  else
    let m := m <| tm_next_subtime ::= fun x => u32 (x + TIC_NUME `mod` TIC_DENO) |> in
    let m := m <| tm_next_time := u32 (tm_current_time m + TIC_NUME / TIC_DENO) |> in
    if TIC_DENO <=? tm_next_subtime m then
      m <| tm_next_subtime ::= fun x => x - TIC_DENO |> <| tm_next_time ::= fun x => u32 (x + 1) |>
    else m.

(** [last_index > 0 && EVTTIM_LE(TMEVT_NODE(1).time, current_time)]. *)
Definition event_due (m : TM) : bool :=
  (0 <? tm_last_index m) && EVTTIM_LE m (ev_time (tm_heap m 1)) (tm_current_time m).

Fixpoint signal_time_loop (rounds : nat) : K () :=
  get s;;
  if event_due (tm s) then
    match rounds with
    | O => yield_noreturn OutOfRounds
    | S rounds =>
        let b := p_tmevtb (tm_heap (tm s) 1) in
        on_tm tmevtb_delete_top ;;;
        get s;;
        call_callback (callback (tm_tmevtb (tm s) b)) (arg (tm_tmevtb (tm s) b)) ;;;
        signal_time_loop rounds
    end
  else ret ().

Definition signal_time (rounds : nat) : K () :=
  kassert sense_context ;;;
  kassert (fun s => negb (sense_lock s)) ;;;
  lock_cpu ;;;
  upd (upd_tm advance) ;;;
  signal_time_loop rounds ;;;
  upd (upd_tm (fun m => m <| tm_min_time := tm_current_time m |>)) ;;;
  unlock_cpu.

Definition get_tim : K (Z * option Z) :=
  ! CHECK_TSKCTX_UNL ;;
  lock_cpu ;;;
  r <- (get s;; ret (E_OK, Some (tm_current_time (tm s)))) ;;
  unlock_cpu ;;;
  ret r.

(** [clock1], [ireq] and [clock2] are what the timer of the target answers,
    [TO_USEC] the conversion of its clock; SYSUTM has 32 bits. *)
Definition get_utm (clock1 clock2 : Z) (ireq : bool) (TO_USEC : Z → Z) : K (Z * option Z) :=
  get s;;
  let utime := u32 (tm_next_time (tm s) * 1000) in
  let utime := if TIC_DENO =? 1 then utime
               else u32 (utime + u32 (tm_next_subtime (tm s) * 1000) / TIC_DENO) in
  let utime := if negb ireq || (clock2 <? clock1)
               then u32 (utime - u32 (TIC_NUME * 1000) / TIC_DENO) else utime in
  ret (E_OK, Some (u32 (utime + TO_USEC clock1))).

(** ** Proofs *)

Section tick.
Context (OInv : State → Prop) `{!Objects OInv}.
Context `{!TimerComponent OInv (handler_inv (hd := cyc_handler)) (h_own (hd := cyc_handler)) (h_only (Handler := cyc_handler))}.
Context `{!TimerComponent OInv (handler_inv (hd := alm_handler)) (h_own (hd := alm_handler)) (h_only (Handler := alm_handler))}.
Notation WP := (wp (rely OInv) (guar OInv)).
Notation Inv := (Inv OInv).
Notation OK := (OK OInv).
Notation Mid := (Mid OInv).

(** A task whose wait ended: a dispatch is asked for and interrupts are let
    in. *)
Lemma tmout_end_ok g g' s s' (b : bool) :
  Inv g s → in_int s → KInv g' s' → settled g' → tframe (fun _ => False) s s' → woke b s s' →
  WP (fun _ s'' => OK s'' ∧ in_int s'' ∧ same_time s s'')
    (((if b then set_reqflg true else ret ()) ;;; unlock_cpu ;;; yield Window ;;; lock_cpu) s').
Proof.
  intros HI [Hc Hl] HK Hset HF Hw. set (req := upd_var (fun v => v <| v_reqflg := true |>)).
  assert (HI2 : Inv g' (after req b s')).
  { apply (Inv_int_end OInv g g' s _ b HI); try done.
    - destruct b; [|done]. apply (req_var_KInv req); [by right|done].
    - assert (HO : OInv s') by (eapply objs_tframe; [apply HI|exact HF]).
      destruct b; [|done]. apply (req_var_OInv OInv req); [by right|done].
    - destruct b; simpl; apply HF.
    - destruct b; simpl; by rewrite (fr_var _ _ _ _ HF).
    - destruct Hw as [W1 W2]. split; [done|]. intros -> Hd. by apply W2. }
  assert (Htm : same_time s (after req b s')) by (destruct b; apply HF).
  assert (Hc2 : sense_context (after req b s') = true).
  { unfold sense_context in *. destruct b; simpl; by rewrite (fr_cpu _ _ _ _ HF). }
  eapply wp_RET with (a := ()) (s' := after req b s'); [by destruct b|].
  eapply wp_RET; [reflexivity|]. split.
  - split_and!; [apply (OK_lock OInv _ false); by exists g'|exact Hc2|done].
  - intros s2 (HOK2 & Hc3 & Htm3). simpl. split_and!; [by apply (OK_lock OInv s2 true)|by split|].
    eapply same_time_trans; [exact Htm|exact Htm3].
Qed.

Lemma wait_tmout_fired_ok g s m t w c susp :
  Inv g s → in_int s → g t = Waiting w c susp Timer → heap_ok m →
  (∀ b, evt m b = if decide (b = TM_TSK w) then None else evt (tm s) b) → same_clock (tm s) m →
  WP (fun _ s' => OK s' ∧ in_int s' ∧ same_time s s') (wait_tmout t (upd_tm (fun _ => m) s)).
Proof.
  intros HI Hin Hg Hok Hev Hcl. destruct (timer_off_ok g s t w c susp m (i_k _ _ _ HI) Hg Hok Hev Hcl) as [HK1 HF1].
  pose proof (settled_cause g t w c susp Timer (i_settled _ _ _ HI) Hg) as Hcause.
  destruct (wait_dequeue_wobj_ok _ _ t w c susp Fired HK1) as (s2 & E2 & HK2 & F2 & HT2 & HW2 & HS2 & _ & _ & HQ2);
    [apply fn_lookup_insert|exact Hcause|].
  destruct (end_wait_ok _ _ t w (off c) susp Fired E_TMOUT HK2) as (b & s3 & E3 & HK3 & F3 & W3 & _);
    [apply fn_lookup_insert|by destruct c|done|].
  unfold wait_tmout. rewrite (bind_RET _ _ _ _ _ E2). rewrite (bind2_RET _ _ _ _ _ _ E3).
  eapply tmout_end_ok; [exact HI|exact Hin|by eapply KInv_twice, KInv_twice|apply settled_after, HI| |].
  - eapply tframe_trans; [exact HF1|]. by eapply tframe_trans.
  - destruct W3 as [W3 W4]. pose proof (fr_var _ _ _ _ F2) as V2. split.
    + rewrite V2 in W3. exact W3.
    + intros Hb Hd. rewrite W4; [|done|by rewrite V2]. by rewrite HS2.
Qed.

Lemma wait_tmout_ok_fired_ok g s m t w susp :
  Inv g s → in_int s → g t = Waiting w DLY susp Timer → heap_ok m →
  (∀ b, evt m b = if decide (b = TM_TSK w) then None else evt (tm s) b) → same_clock (tm s) m →
  WP (fun _ s' => OK s' ∧ in_int s' ∧ same_time s s') (wait_tmout_ok t (upd_tm (fun _ => m) s)).
Proof.
  intros HI Hin Hg Hok Hev Hcl. destruct (timer_off_ok g s t w DLY susp m (i_k _ _ _ HI) Hg Hok Hev Hcl) as [HK1 HF1].
  destruct (end_wait_ok _ _ t w DLY susp Fired E_OK HK1) as (b & s3 & E3 & HK3 & F3 & W3 & _);
    [apply fn_lookup_insert|done|done|].
  unfold wait_tmout_ok. rewrite (bind2_RET _ _ _ _ _ _ E3).
  eapply tmout_end_ok; [exact HI|exact Hin|by eapply KInv_twice|apply settled_after, HI| |exact W3].
  by eapply tframe_trans.
Qed.

(** ** The tick *)

(** One time event: it is taken off the heap and its callback called. *)
Lemma due_event_ok s (b := p_tmevtb (tm_heap (tm s) 1)) :
  OK s → in_int s → event_due (tm s) = true →
  WP (fun _ s' => OK s' ∧ in_int s' ∧ same_time s s')
    ((on_tm tmevtb_delete_top ;;;
      get s1;; call_callback (callback (tm_tmevtb (tm s1) b)) (arg (tm_tmevtb (tm s1) b))) s).
Proof.
  intros [g HI] Hin Hdue. pose proof (i_k _ _ _ HI) as HK. pose proof (k_heap _ _ HK) as Hok.
  apply andb_true_iff in Hdue as [H0%Z.ltb_lt _].
  destruct (heap_top (tm s) Hok H0) as [Hb _]. fold b in Hb.
  destruct (tmevtb_delete_top_ok (tm s) Hok H0) as (m & E & Hok' & Hev & Hcl). fold b in Hev.
  unfold on_tm. unfold bind at 1. rewrite E. simpl. unfold kget. simpl.
  rewrite (sc_callback _ _ Hcl), (sc_arg _ _ Hcl).
  assert (Hat : at_block (tm s) m b).
  { destruct Hcl. split; [done| | |done]. - intros b' Hne. by rewrite Hev, decide_False. - by split. }
  assert (Hgone : evt m b = None) by (by rewrite Hev, decide_True). clearbody b.
  destruct b as [w|i|i].
  - destruct (proj1 (k_timer _ _ HK w)) as (t & c & susp & Hg); [by eexists|].
    destruct (wait_call _ _ _ _ _ (k_wait _ _ HK _ _ _ _ _ Hg)) as [-> ->]; [done|].
    destruct c; simpl; [by eapply wait_tmout_ok_fired_ok|by eapply wait_tmout_fired_ok..].
  - destruct (hi_ok (hd := cyc_handler) s (tcomp_get s (i_obj _ _ _ HI)) i) as [Hr Hc]. simpl in Hr, Hc.
    destruct Hc as [-> ->]; [by eexists|]. destruct (proj1 Hr) as [He Hs]; [by eexists|].
    by eapply call_cychdr_ok.
  - destruct (hi_ok (hd := alm_handler) s (tcomp_get s (i_obj _ _ _ HI)) i) as [Hr Hc]. simpl in Hr, Hc.
    destruct Hc as [-> ->]; [by eexists|]. destruct (proj1 Hr) as [He Hs]; [by eexists|].
    by eapply call_almhdr_ok.
Qed.

(** The loop ends, unless it is stopped by its bound, when no event is due. *)
Lemma signal_time_loop_ok rounds : ∀ s,
  OK s → in_int s →
  WP (fun _ s' => OK s' ∧ in_int s' ∧ same_time s s' ∧ event_due (tm s') = false) (signal_time_loop rounds s).
Proof.
  induction rounds as [|rounds IH]; intros s HOK Hin; simpl; unfold kget at 1;
    (destruct (event_due (tm s)) eqn:Hdue; [|by split_and!]).
  - split; [done|by intros ? []].
  - set (b := p_tmevtb (tm_heap (tm s) 1)).
    eapply (wp_part _ _ _ _ (fun _ => get s1;; call_callback (callback (tm_tmevtb (tm s1) b)) (arg (tm_tmevtb (tm s1) b))));
      [reflexivity|]. eapply wp_mono; [by apply due_event_ok|]. intros _ s2 (H2 & Hin2 & Htm). 
    eapply wp_mono; [by apply IH|]. intros _ s3 (H3 & Hin3 & Htm3 & Hd). split_and!; try done.
    by eapply same_time_trans.
Qed.

(** *** The clock *)

Lemma evt_clock m m' b :
  tm_tmevtb m' = tm_tmevtb m → tm_last_index m' = tm_last_index m → tm_heap m' = tm_heap m → evt m' b = evt m b.
Proof. unfold evt. by intros -> -> ->. Qed.

Lemma advance_ok m : heap_ok m →
  heap_ok (advance m) ∧ (∀ b, evt (advance m) b = evt m b) ∧ tm_tmevtb (advance m) = tm_tmevtb m ∧
  tm_current_time (advance m) = tm_next_time m ∧ tm_min_time (advance m) = tm_min_time m.
Proof.
  intros [H1 H2 H3]. unfold advance.
  destruct (TIC_DENO =? 1); [|destruct (TIC_DENO <=? _)]; (split_and!; [split|..]; done).
Qed.

(** When no event is due the clock can move to the present: every registered
    event is still in the future. *)
Lemma min_time_ok m (m' := m <| tm_min_time := tm_current_time m |>) :
  heap_ok m → event_due m = false →
  heap_ok m' ∧ ∀ b t, evt m' b = Some t → 0 < evtkey m' t.
Proof.
  intros Hok Hdue. pose proof Hok as [H1 H2 H3].
  assert (Hlater : ∀ t, evtkey m (tm_current_time m) < evtkey m t →
    evtkey m' t = evtkey m t - evtkey m (tm_current_time m)).
  { unfold evtkey, u32. simpl. intros t Ht.
    set (a := t - tm_min_time m) in *. set (c := tm_current_time m - tm_min_time m) in *.
    replace (t - tm_current_time m) with (a - c) by lia. rewrite Zminus_mod.
    pose proof (Z.mod_pos_bound a (2^32) eq_refl). pose proof (Z.mod_pos_bound c (2^32) eq_refl).
    apply Z.mod_small. lia. }
  assert (Hall : ∀ i, slot m i → evtkey m (tm_current_time m) < key m i).
  { intros i Hi. pose proof (heap_root_min m i Hok Hi). unfold slot in Hi.
    apply andb_false_iff in Hdue as [Hd|Hd]; [lia|]. unfold EVTTIM_LE in Hd. unfold key in *. lia. }
  assert (Hok' : heap_ok m').
  { split; [done|done|]. intros i Hi H2i. change (slot m i) in Hi.
    assert (slot m (PARENT i)).
    { rewrite PARENT_div. unfold slot in Hi |- *. clear - Hi H2i. pose proof (Z.div_lt i 2). pose proof (Z.div_le_lower_bound i 2 1). lia. }
    change (key m' ?j) with (evtkey m' (ev_time (tm_heap m j))). rewrite !Hlater by (by apply Hall).
    pose proof (H3 i Hi H2i). unfold key in *. lia. }
  split; [done|]. intros b t (i & Hi & Hn)%evt_Some; [|done]. change (slot m i) in Hi. simpl in Hn.
  pose proof (Hall i Hi) as Ha. unfold key in Ha. rewrite Hn in Ha. simpl in Ha. rewrite Hlater by done. lia.
Qed.

Lemma clock_Inv g s m :
  Inv g s → heap_ok m → (∀ b, evt m b = evt (tm s) b) → tm_tmevtb m = tm_tmevtb (tm s) →
  Inv g (upd_tm (fun _ => m) s).
Proof.
  intros [H1 H2 H3 H4 H5] Hok Hev Hb. split; try done.
  - destruct H1 as [K1 K2 K3 K4 K5 K6 K7 K8 K9 K10]. split; try done.
    + intros t w c susp tmr Hg. destruct (K4 _ _ _ _ _ Hg) as [L1 L2 L3 L4 L5 L6]. split; try done.
      simpl. by rewrite Hb.
    + intros w. simpl. by rewrite Hev.
  - by apply (objs_clock s).
Qed.

Lemma signal_time_ok rounds s :
  OK s → sense_context s = true → sense_lock s = false →
  WP (fun _ s' => (OK s' ∧ same_ctx s s') ∧ tm_current_time (tm s') = tm_next_time (tm s) ∧
      tm_min_time (tm s') = tm_next_time (tm s) ∧
      ∀ b t, evt (tm s') b = Some t → 0 < evtkey (tm s') t)
    (signal_time rounds s).
Proof.
  intros HOK Hc Hl. unfold signal_time.
  eapply wp_RET; [by unfold kassert; rewrite Hc|]. eapply wp_RET; [by unfold kassert; rewrite Hl|].
  eapply wp_RET; [reflexivity|]. destruct (OK_lock OInv s true HOK) as [g HI]. set (s1 := with_lock true s) in *.
  eapply wp_RET; [reflexivity|].
  destruct (advance_ok (tm s1)) as (A1 & A2 & A3 & A4 & A5); [apply HI|].
  set (s2 := upd_tm (fun _ => advance (tm s1)) s1). change (upd_tm advance _) with s2.
  assert (HI2 : Inv g s2) by (by apply clock_Inv).
  apply wp_bind. eapply wp_mono; [apply (signal_time_loop_ok rounds s2); [by exists g|by split]|].
  intros _ s3 ([g3 HI3] & [Hc3 Hl3] & (T1 & T2 & T3 & T4) & Hdue).
  destruct (min_time_ok (tm s3)) as [M1 M2]; [apply HI3|done|].
  eapply wp_RET; [reflexivity|]. set (s4 := upd_tm _ s3).
  assert (HI4 : Inv g3 s4) by (by apply (clock_Inv g3 s3)).
  simpl. split; [split|].
  - apply (OK_lock OInv s4 false). by exists g3.
  - split_and!; [by rewrite Hc|by rewrite Hl|congruence].
  - change (tm s2) with (advance (tm s1)) in T2. rewrite A4 in T2.
    split_and!; [exact T2|exact T2|exact M2].
Qed.

Lemma get_tim_ok : call_ok OInv get_tim.
Proof. intros s HOK. unfold get_tim. task_call g t s1 HI Hin Ht Hd. svc_ret. Qed.
End tick.
End signal_time.
