(* ===== verification/Interrupt.v ===== *)
(** * Interrupts (kernel/interrupt.c, interrupt.h) and CPU exceptions
    (kernel/exception.c) *)

From S2P Require Import Prelude Queue Data Kmonad TimeEvent Task Wait Core Release Service Transit Object Mutex SysManage.
Open Scope Z_scope.

Record T_CISR := mkT_CISR {
  c_isratr : Z; c_isr_exinf : Z; c_intno : Z; c_isr : Z; c_isrpri : Z }.

Section interrupt.
Context {cfg : Config}.
Implicit Types (s : State) (isrid intno intpri : Z) (i q rounds : nat).

(** [TMIN_SEMID], which the code subtracts, and [TMIN_ISRID] are both 1. *)
Definition tnum_isr : nat := Z.to_nat (tmax_isrid - 1 + 1 + Z.of_nat tnum_sisr).
Definition INDEX_ISR isrid : nat := Z.to_nat (isrid - 1 + Z.of_nat tnum_sisr).
Definition ISRID i : Z := Z.of_nat i - Z.of_nat tnum_sisr + 1.

Definition upd_isr i (f : ISRINIB → ISRINIB) : K () :=
  upd (upd_obj (fun o => o <| o_isrcb ::= fun T => <[i := f (T i)]> T |>)).
Definition set_free_isr (f : list nat → list nat) : K () :=
  upd (upd_obj (fun o => o <| o_free_isrcb ::= f |>)).
Definition upd_isr_queue (f : (nat → list nat) → nat → list nat) : K () :=
  upd (upd_obj (fun o => o <| o_isr_queue ::= f |>)).

Definition enqueue_isr q i : K () :=
  get s;;
  upd_isr_queue (fun Q =>
    <[q := insert_before_first (fun j => isrpri (isrcb s i) <? isrpri (isrcb s j)) i (Q q)]> Q).

(** [isr_queue_table] has an entry for every entry of [isr_queue_list]. *)
Definition initialize_isr : K () :=
  kfor (seq 0 (length isr_queue_list)) (fun q => upd_isr_queue (fun Q => <[q := []]> Q)) ;;;
  kfor (seq 0 tnum_sisr) (fun i =>
    upd_isr i (fun _ => sisrinib_table i) ;;;
    get s;; enqueue_isr (p_isr_queue (isrcb s i)) i) ;;;
  set_free_isr (fun _ => []) ;;;
  kfor (seq tnum_sisr (tnum_isr - tnum_sisr)) (fun i =>
    upd_isr i (fun I => I <| isratr := TA_NOEXS |>) ;;;
    set_free_isr (fun l => l ++ [i])).

(** [p_queue->p_next], the header being [None]. *)
Fixpoint isr_after i (l : list nat) : option nat :=
  match l with
  | [] => None
  | x :: l => if (x =? i)%nat then head l else isr_after i l
  end.

(** The loop of [call_isr] from the entry [o]; the queue bounds the number of
    iterations when the service routines leave it alone. *)
Fixpoint call_isr_loop rounds q (o : option nat) (saved_ipm : Z) : K () :=
  match o with
  | None => ret ()
  | Some i =>
      match rounds with
      | O => yield_noreturn OutOfRounds
      | S rounds =>
          get s;;
          yield (CallIsr i (isr_exinf (isrcb s i))) ;;;
          get s;;
          (match isr_after i (o_isr_queue (obj s) q) with
           | Some _ =>
               (get s;; if sense_lock s then unlock_cpu else ret ()) ;;;
               set_ipm saved_ipm
           | None => ret ()
           end) ;;;
          get s;; call_isr_loop rounds q (isr_after i (o_isr_queue (obj s) q)) saved_ipm
      end
  end.

Definition call_isr rounds q : K () :=
  get s;; call_isr_loop rounds q (head (o_isr_queue (obj s) q)) (get_ipm_ s).

(** [isr_queue_list[i].intno]. *)
Definition isr_entry (i : Z) : Z * nat := nth (Z.to_nat i) isr_queue_list (0, O).

(** The binary search; it ends because [left < i <= right] in every
    iteration. *)
Fixpoint search_loop (fuel : nat) intno (lft right : Z) : option Z :=
  match fuel with
  | O => None
  | S fuel =>
      if lft <? right then
        let i := (lft + right + 1) ÷ 2 in
        if intno <? fst (isr_entry i) then search_loop fuel intno lft (i - 1)
        else search_loop fuel intno i right
      else Some lft
  end.

Definition search_isr_queue intno : option nat :=
  match isr_queue_list with
  | [] => None
  | _ =>
      match search_loop (length isr_queue_list) intno 0 (Z.of_nat (length isr_queue_list) - 1) with
      | Some lft =>
          if fst (isr_entry lft) =? intno then Some (snd (isr_entry lft)) else None
      | None => None
      end
  end.

Definition acre_isr (pk_cisr : T_CISR) : K Z :=
  ! CHECK_TSKCTX_UNL ;;
  ! CHECK_RSATR (c_isratr pk_cisr) TARGET_ISRATR ;;
  ! CHECK_INTNO_CREISR (c_intno pk_cisr) ;;
  ! CHECK_ALIGN_FUNC (c_isr pk_cisr) ;;
  ! CHECK_NONNULL_FUNC (c_isr pk_cisr) ;;
  ! CHECK_ISRPRI (c_isrpri pk_cisr) ;;
  ! CHECK_OBJ (bool_decide (is_Some (search_isr_queue (c_intno pk_cisr)))) ;;
  the p_isr_queue := search_isr_queue (c_intno pk_cisr) ;;
  lock_cpu ;;;
  ercd <- (get s;;
    if (tnum_isr =? 0)%nat || no_free (o_free_isrcb (obj s)) then ret E_NOID
    else
      i <- take_free o_free_isrcb set_free_isr ;;
      upd_isr i (fun _ => mkISRINIB (c_isratr pk_cisr) (c_isr_exinf pk_cisr) (c_intno pk_cisr)
        p_isr_queue (c_isr pk_cisr) (c_isrpri pk_cisr)) ;;;
      enqueue_isr p_isr_queue i ;;;
      ret (ISRID i)) ;;
  unlock_cpu ;;;
  ret ercd.

Definition del_isr isrid : K Z :=
  ! CHECK_TSKCTX_UNL ;;
  ! CHECK_ISRID isrid ;;
  let i := INDEX_ISR isrid in
  lock_cpu ;;;
  ercd <- (get s;;
    if isratr (isrcb s i) =? TA_NOEXS then ret E_NOEXS
    else
      upd_isr_queue (fun Q q => without i (Q q)) ;;;
      upd_isr i (fun I => I <| isratr := TA_NOEXS |>) ;;;
      set_free_isr (fun l => l ++ [i]) ;;;
      ret E_OK) ;;
  unlock_cpu ;;;
  ret ercd.

(** [t_disable_int], [t_enable_int] of the chip (arch/arm_gcc/rza1). *)
Definition set_int_disabled intno (b : bool) : K bool :=
  if negb (cfgint_tbl intno) then ret false
  else
    upd (upd_cpu (fun c => c <| c_int_disabled ::= fun D => <[intno := b]> D |>)) ;;;
    ret true.

Definition dis_int intno : K Z :=
  ! CHECK_TSKCTX ;;
  ! CHECK_INTNO_DISINT intno ;;
  get s;; let locked := sense_lock s in
  (if negb locked then lock_cpu else ret ()) ;;;
  b <- set_int_disabled intno true ;;
  (if negb locked then unlock_cpu else ret ()) ;;;
  ret (if b : bool then E_OK else E_OBJ).

Definition ena_int intno : K Z :=
  ! CHECK_TSKCTX ;;
  ! CHECK_INTNO_DISINT intno ;;
  get s;; let locked := sense_lock s in
  (if negb locked then lock_cpu else ret ()) ;;;
  b <- set_int_disabled intno false ;;
  (if negb locked then unlock_cpu else ret ()) ;;;
  ret (if b : bool then E_OK else E_OBJ).

Definition chg_ipm rounds intpri : K Z :=
  ! CHECK_TSKCTX_UNL ;;
  ! CHECK_INTPRI_CHGIPM intpri ;;
  lock_cpu ;;;
  ercd <- (
    set_ipm intpri ;;;
    (if intpri =? TIPM_ENAALL then
       set_ipmflg true ;;;
       (get s;;
        if negb (disdsp s) then
          set_dspflg true ;;;
          dispatch_if_needed
        else ret ()) ;;;
       get s;; the t := p_runtsk s ;;
       (if enatex (tcb_table s t) && negb (texptn (tcb_table s t) =? 0) then call_texrtn rounds
        else ret ())
     else
       set_ipmflg false ;;;
       set_dspflg false) ;;;
    ret E_OK) ;;
  unlock_cpu ;;;
  ret ercd.

Definition get_ipm : K (Z * option Z) :=
  ! CHECK_TSKCTX_UNL ;;
  lock_cpu ;;;
  r <- (get s;; ret (E_OK, Some (get_ipm_ s))) ;;
  unlock_cpu ;;;
  ret r.

(** ** CPU exceptions

    [exc_intmask] is [exc_sense_intmask(p_excinf)] of the processor. *)
Definition xsns_dpn (exc_intmask : bool) : K bool :=
  get s;; ret (negb (c_kerflg (cpu s) && exc_intmask && negb (disdsp s))).

Definition xsns_xpn (exc_intmask : bool) : K bool :=
  get s;;
  if c_kerflg (cpu s) && exc_intmask then
    the t := p_runtsk s ;; ret (negb (enatex (tcb_table s t)))
  else ret true.

(** ** The search for an interrupt line

    The configurator writes [isr_queue_list] in the order of the interrupt
    numbers. *)

Definition isr_list_sorted : Prop := StronglySorted (fun a b => fst a < fst b) isr_queue_list.
Notation len := (Z.of_nat (length isr_queue_list)).

Lemma isr_entry_lookup k e : isr_queue_list !! k = Some e → isr_entry (Z.of_nat k) = e.
Proof. intros Hk. unfold isr_entry. rewrite Nat2Z.id. apply nth_lookup_Some with (d := (0, 0%nat)) in Hk. done. Qed.

Lemma isr_entry_lt a b :
  isr_list_sorted → 0 ≤ a < b → b < len → fst (isr_entry a) < fst (isr_entry b).
Proof.
  intros Hs Ha Hb.
  destruct (lookup_lt_is_Some_2 isr_queue_list (Z.to_nat a)) as [ea Hea]; [lia|].
  destruct (lookup_lt_is_Some_2 isr_queue_list (Z.to_nat b)) as [eb Heb]; [lia|].
  assert (Ha' : isr_entry a = ea) by (rewrite <- (Z2Nat.id a) by lia; by apply isr_entry_lookup).
  assert (Hb' : isr_entry b = eb) by (rewrite <- (Z2Nat.id b) by lia; by apply isr_entry_lookup).
  rewrite Ha', Hb'. apply (StronglySorted_app_1_elem_of (λ a b, fst a < fst b) (take (Z.to_nat b) isr_queue_list)
    (drop (Z.to_nat b) isr_queue_list) ea eb); [by rewrite take_drop| |].
  - apply list_elem_of_lookup. exists (Z.to_nat a). rewrite lookup_take_lt; [done|lia].
  - apply list_elem_of_lookup. exists O. by rewrite lookup_drop, Nat.add_0_r.
Qed.

(** The entry, if there is one, stays between the bounds, which meet. *)
Lemma search_loop_ok fuel : ∀ intno lft right k,
  isr_list_sorted → 0 ≤ lft ≤ right → right < len → (right - lft < Z.of_nat fuel) →
  ∃ r, search_loop fuel intno lft right = Some r ∧ lft ≤ r ≤ right ∧
    (lft ≤ k ≤ right → fst (isr_entry k) = intno → r = k).
Proof.
  induction fuel as [|fuel IH]; intros intno lft right k Hs Hl Hr Hf; [lia|]. simpl.
  destruct (Z.ltb_spec lft right) as [Hlt|Hge].
  - rewrite Z.quot_div_nonneg by lia. set (i := (lft + right + 1) / 2).
    assert (Hi : lft < i ≤ right).
    { unfold i. split; [apply Z.le_succ_l; rewrite <- Z.add_1_r; apply Z.div_le_lower_bound; lia|].
      apply Z.lt_succ_r. apply Z.div_lt_upper_bound; lia. }
    destruct (Z.ltb_spec intno (fst (isr_entry i))) as [Hc|Hc].
    + destruct (IH intno lft (i - 1) k) as (r & E & Hb & Hk); [done|lia|lia|lia|].
      exists r. split_and!; [done|lia|lia|]. intros Hk1 Hk2. apply Hk; [|done].
      destruct (decide (k < i)) as [|Hge]; [lia|]. exfalso.
      destruct (decide (k = i)) as [->|]; [lia|]. pose proof (isr_entry_lt i k Hs). lia.
    + destruct (IH intno i right k) as (r & E & Hb & Hk); [done|lia|lia|lia|].
      exists r. split_and!; [done|lia|lia|]. intros Hk1 Hk2. apply Hk; [|done].
      destruct (decide (i ≤ k)) as [|Hge]; [lia|]. exfalso. pose proof (isr_entry_lt k i Hs). lia.
  - exists lft. split_and!; [done|lia|lia|]. intros Hk _. lia.
Qed.

Lemma search_isr_queue_ok intno o :
  isr_list_sorted → search_isr_queue intno = Some o ↔ (intno, o) ∈ isr_queue_list.
Proof.
  intros Hs. unfold search_isr_queue.
  destruct isr_queue_list as [|e l] eqn:Hl; [split; [done|by intros ?%not_elem_of_nil]|]. rewrite <- Hl in *.
  assert (Hlen : 0 < len) by (rewrite Hl; simpl; lia). split.
  - destruct (search_loop_ok (length isr_queue_list) intno 0 (len - 1) 0) as (r & E & Hb & _); [done|lia..|].
    rewrite E. destruct (Z.eqb_spec (fst (isr_entry r)) intno) as [He|]; [|done]. intros [= <-].
    destruct (lookup_lt_is_Some_2 isr_queue_list (Z.to_nat r)) as [er Her]; [lia|].
    assert (Hr : isr_entry r = er) by (rewrite <- (Z2Nat.id r) by lia; by apply isr_entry_lookup).
    apply list_elem_of_lookup. exists (Z.to_nat r). rewrite Her, Hr in *. subst intno. by destruct er.
  - intros [k Hk]%list_elem_of_lookup. pose proof (isr_entry_lookup _ _ Hk) as He.
    apply lookup_lt_Some in Hk.
    destruct (search_loop_ok (length isr_queue_list) intno 0 (len - 1) (Z.of_nat k)) as (r & E & Hb & Hr); [done|lia..|].
    rewrite E, Hr; [|lia|by rewrite He]. rewrite He. simpl. by rewrite Z.eqb_refl.
Qed.
(** ** The invariant of the interrupt service routines

    A queue holds the routines that exist and belong to it, in the order of
    their priority. *)
Definition isr_sorted (I : nat → ISRINIB) (l : list nat) : Prop :=
  StronglySorted (fun a b => isrpri (I a) ≤ isrpri (I b)) l.

Record isr_inv s : Prop := {
  iv_queue : ∀ q i, i ∈ o_isr_queue (obj s) q ↔ isratr (isrcb s i) ≠ TA_NOEXS ∧ p_isr_queue (isrcb s i) = q;
  iv_nodup : ∀ q, NoDup (o_isr_queue (obj s) q);
  iv_sorted : ∀ q, isr_sorted (isrcb s) (o_isr_queue (obj s) q);
  iv_free : ∀ i, i ∈ o_free_isrcb (obj s) → isratr (isrcb s i) = TA_NOEXS;
  iv_nodup_free : NoDup (o_free_isrcb (obj s)) }.

Definition isr_only (o o' : OBJ) : Prop :=
  o' = o <| o_isrcb := o_isrcb o' |> <| o_free_isrcb := o_free_isrcb o' |> <| o_isr_queue := o_isr_queue o' |>.

Lemma isr_inv_obj s s' :
  isrcb s' = isrcb s → o_free_isrcb (obj s') = o_free_isrcb (obj s) →
  o_isr_queue (obj s') = o_isr_queue (obj s) → isr_inv s → isr_inv s'.
Proof. intros E1 E2 E3 []. split; rewrite ?E1, ?E2, ?E3; done. Qed.

Lemma isr_sorted_ext I I' l :
  (∀ i, i ∈ l → isrpri (I' i) = isrpri (I i)) → isr_sorted I l → isr_sorted I' l.
Proof.
  unfold isr_sorted. induction l as [|x l IH]; intros Hext Hs; [constructor|].
  apply StronglySorted_inv in Hs as [Hs Hf]. constructor.
  - apply IH; [|done]. intros i Hi. apply Hext. by right.
  - rewrite Forall_forall in *. intros y Hy. rewrite !Hext by (by left || by right). by apply Hf.
Qed.

(** A new routine goes behind those of its priority. *)
Lemma isr_sorted_insert I i l :
  isr_sorted I l → isr_sorted I (insert_before_first (fun j => isrpri (I i) <? isrpri (I j)) i l).
Proof.
  intros Hs.
  destruct (insert_before_first_split (fun j => isrpri (I i) <? isrpri (I j)) i l)
    as (l1 & l2 & -> & -> & Hf & Hh). unfold isr_sorted in *.
  apply StronglySorted_app' in Hs as (H1 & H2 & H3). apply StronglySorted_app'. split_and!.
  - done.
  - constructor; [done|]. rewrite Forall_forall. intros y Hy. destruct l2 as [|z l2].
    { by apply not_elem_of_nil in Hy. }
    specialize (Hh z l2 eq_refl). simpl in Hh. apply StronglySorted_inv in H2 as [_ Hz].
    rewrite Forall_forall in Hz. apply elem_of_cons in Hy as [->|Hy]; [lia|]. specialize (Hz y Hy). lia.
  - intros x y Hx [->|Hy]%elem_of_cons; [|by apply H3].
    rewrite Forall_forall in Hf. specialize (Hf x Hx). simpl in Hf. lia.
Qed.

(** ** Proofs *)

Section calls.
Context (OInv : State → Prop) `{!Objects OInv}.
Context `{!Component OInv isr_inv (fun _ => False) isr_only}.
Notation WP := (wp (rely OInv) (guar OInv)).
Notation Inv := (Inv OInv).
Notation OK := (OK OInv).
Notation Mid := (Mid OInv).

Lemma isr_upd g s F :
  Inv g s → isr_only (obj s) (F (obj s)) → isr_inv (upd_obj F s) → Inv g (upd_obj F s).
Proof.
  intros HI HF Hinv. apply (Inv_of OInv g s); [exact HI| |done..].
  apply (comp_upd OInv); [by apply Inv_Mid|exact HF| |exact Hinv].
  intros q _. left. unfold isr_only in HF. destruct q; simpl; try rewrite HF; done.
Qed.

Lemma del_isr_ok isrid : call_ok OInv (del_isr isrid).
Proof.
  intros s HOK. unfold del_isr. task_call g t s1 HI Hin Ht Hd. set (i := INDEX_ISR isrid).
  destruct (Z.eqb_spec (isratr (isrcb s1 i)) TA_NOEXS) as [He|He]; [svc_ret|]. simpl.
  split; [|exact Hin]. exists g.
  apply (isr_upd g s1 (fun o => _) HI); [reflexivity|]. destruct (Inv_comp OInv g s1 HI) as [I1 I2 I3 I4 I5].
  assert (Hfree : i ∉ o_free_isrcb (obj s1)) by (by intros ?%I4).
  split; simpl.
  - intros q j. rewrite elem_of_without, I1. destruct (decide (j = i)) as [->|Hne].
    + rewrite fn_lookup_insert. simpl. naive_solver.
    + rewrite fn_lookup_insert_ne by done. naive_solver.
  - intros q. by apply NoDup_without.
  - intros q. eapply isr_sorted_ext; [|apply StronglySorted_filter', (I3 q)].
    intros j [_ Hj]%elem_of_without. by rewrite fn_lookup_insert_ne.
  - intros j [Hj|Hj]%elem_of_app.
    + rewrite fn_lookup_insert_ne; [by apply I4|]. by intros <-.
    + apply list_elem_of_singleton in Hj as ->. by rewrite fn_lookup_insert.
  - apply NoDup_app. split_and!; [done| |apply NoDup_singleton]. set_solver.
Qed.

Lemma acre_isr_ok pk : 0 ≤ TARGET_ISRATR < 2^31 → call_ok OInv (acre_isr pk).
Proof.
  intros Hatr s HOK. unfold acre_isr. svc_checks. split_ctx.
  match goal with H : bool_decide (is_Some _) = true |- _ => apply bool_decide_eq_true in H as [q Hq] end.
  rewrite Hq. simpl. apply task_call_ok; [done..|]. intros g t s1 HI Hin Ht Hd. unfold kget.
  destruct (tnum_isr =? 0)%nat; [svc_ret|]. simpl.
  destruct (o_free_isrcb (obj s1)) as [|i l] eqn:Hl; [svc_ret|]. simpl.
  eapply wp_RET; [by apply take_free_eq|]. simpl. split; [|exact Hin]. exists g.
  apply (isr_upd g s1 (fun o => _) HI); [reflexivity|].
  destruct (Inv_comp OInv g s1 HI) as [I1 I2 I3 I4 I5]. rewrite Hl in I4, I5.
  apply NoDup_cons in I5 as [Hi Hnd]. assert (Hgone := I4 i ltac:(left)).
  assert (Hno : ∀ q', i ∉ o_isr_queue (obj s1) q') by (intros q' [Hx _]%I1; done).
  assert (He : c_isratr pk ≠ TA_NOEXS) by (by eapply rsatr_exists).
  set (I' := <[i:=_]> (o_isrcb (obj s1))).
  assert (HI' : ∀ j, j ≠ i → I' j = isrcb s1 j) by (intros j Hne; by apply fn_lookup_insert_ne).
  assert (Hold : ∀ q', isr_sorted I' (o_isr_queue (obj s1) q')).
  { intros q'. eapply isr_sorted_ext; [|apply I3]. intros j Hj. rewrite HI'; [done|]. by intros ->; apply Hno in Hj. }
  split; simpl; fold I'.
  - intros q' j. assert (HI'i : I' i = mkISRINIB (c_isratr pk) (c_isr_exinf pk) (c_intno pk) q (c_isr pk) (c_isrpri pk))
      by apply fn_lookup_insert.
    destruct (decide (q' = q)) as [->|Hne].
    + rewrite fn_lookup_insert, elem_of_insert_before_first, I1.
      destruct (decide (j = i)) as [->|Hj]; [rewrite HI'i; simpl; naive_solver|]. rewrite HI' by done. naive_solver.
    + rewrite fn_lookup_insert_ne by done. rewrite I1.
      destruct (decide (j = i)) as [->|Hj]; [rewrite HI'i; simpl; naive_solver|]. by rewrite HI'.
  - intros q'. destruct (decide (q' = q)) as [->|Hne]; [|by rewrite fn_lookup_insert_ne].
    rewrite fn_lookup_insert. by apply NoDup_insert_before_first.
  - intros q'. destruct (decide (q' = q)) as [->|Hne]; [|by rewrite fn_lookup_insert_ne].
    rewrite fn_lookup_insert. by apply isr_sorted_insert.
  - intros j Hj. rewrite HI'; [apply I4; by right|]. by intros ->.
  - done.
Qed.

(** Interrupt lines are enabled and disabled with the CPU locked or not. *)
Lemma OK_int_disabled s f : OK s → OK (upd_cpu (fun c => c <| c_int_disabled ::= f |>) s).
Proof. intros HOK. by apply OK_cpu. Qed.

Lemma set_int_call_ok s intno b :
  OK s → sense_context s = false →
  WP (fun _ s' => OK s' ∧ same_ctx s s')
    ((get s;; let locked := sense_lock s in
      (if negb locked then lock_cpu else ret ()) ;;;
      b <- set_int_disabled intno b ;;
      (if negb locked then unlock_cpu else ret ()) ;;;
      ret (if b : bool then E_OK else E_OBJ)) s).
Proof.
  intros HOK Hc. unfold kget, set_int_disabled. cbv zeta.
  destruct (sense_lock s) eqn:Hl, (cfgint_tbl intno); simpl.
  - split; [by apply OK_int_disabled|]. by split_and!.
  - by split; [|apply same_ctx_refl].
  - split; [apply (OK_lock OInv _ false), OK_int_disabled, (OK_lock OInv s true HOK)|]. by split_and!.
  - split; [apply (OK_lock OInv _ false), (OK_lock OInv s true HOK)|]. by split_and!.
Qed.

Lemma dis_int_ok intno : call_ok OInv (dis_int intno).
Proof. intros s HOK. unfold dis_int. svc_checks. by apply set_int_call_ok. Qed.
Lemma ena_int_ok intno : call_ok OInv (ena_int intno).
Proof. intros s HOK. unfold ena_int. svc_checks. by apply set_int_call_ok. Qed.

Lemma get_ipm_ok : call_ok OInv get_ipm.
Proof. intros s HOK. unfold get_ipm. task_call g t s1 HI Hin Ht Hd. svc_ret. Qed.

Lemma chg_ipm_ok rounds intpri : call_ok OInv (chg_ipm rounds intpri).
Proof.
  intros s HOK. unfold chg_ipm. task_call g t s1 HI Hin Ht Hd.
  eapply wp_RET; [reflexivity|]. set (s2 := upd_cpu _ s1).
  assert (HM2 : Mid g s2) by (by apply Mid_cpu, Inv_Mid). apply wp_bind.
  destruct (intpri =? TIPM_ENAALL).
  - eapply wp_RET; [reflexivity|]. set (s3 := upd_var _ s2).
    assert (HM3 : Mid g s3) by (by apply Mid_var).
    assert (Htex : ∀ s4, OK s4 → in_task t s4 → WP (fun _ s' => OK s' ∧ in_task t s')
      ((get s;; the t := p_runtsk s ;;
        (if enatex (tcb_table s t) && negb (texptn (tcb_table s t) =? 0) then call_texrtn rounds else ret ())) s4)).
    { intros s4 H4 Hin4. unfold kget, deref. rewrite (proj2 (proj2 Hin4)). case_match; [|svc_ret].
      by eapply (call_texrtn_ok OInv rounds t). }
    apply wp_bind. destruct (negb (disdsp s3)) eqn:Hdis.
    + eapply wp_RET; [reflexivity|].
      eapply (dispatch_if_needed_ok OInv g _ t); [by apply Mid_var|exact Hin|exact Ht|done|].
      intros s4 H4 Hin4. eapply wp_mono; [by apply Htex|]. by intros _ s5 [].
    + simpl. eapply wp_mono; [apply (Htex s3)|by intros _ s5 []].
      * exists g. apply (Inv_task OInv g s3 t HM3 Hin Ht). intros Hx.
        destruct (i_disp _ _ _ HI Hx) as [|[Hy _]]; [done|]. by rewrite (proj1 Hin) in Hy.
      * exact Hin.
  - simpl. split; [|exact Hin]. exists g. apply (Inv_task OInv g _ t); [|exact Hin|exact Ht|done].
    by apply Mid_var, Mid_var.
Qed.

(** The service routines of a queue are called one after the other, each with
    the CPU unlocked and, but for the first, with the mask of the beginning. *)
Lemma OK_ipm s v : OK s → OK (upd_cpu (fun c => c <| c_ipm := v |>) s).
Proof. intros HOK. by apply OK_cpu. Qed.

Lemma call_isr_loop_ok rounds : ∀ q o ipm s,
  OK s → sense_context s = true → (o ≠ None → sense_lock s = false) →
  WP (fun _ s' => OK s' ∧ sense_context s' = true) (call_isr_loop rounds q o ipm s).
Proof.
  induction rounds as [|rounds IH]; intros q [i|] ipm s HOK Hc Hl; simpl; [|done| |done].
  { split; [done|by intros ? []]. }
  split; [split_and!; [done|done|by apply Hl]|]. intros s2 (HOK2 & Hc2 & _).
  destruct (isr_after i (o_isr_queue (obj s2) q)) as [j|] eqn:Hj; unfold kget at 1; cbv beta; rewrite Hj.
  - set (s3 := if sense_lock s2 then with_lock false s2 else s2).
    assert (OK s3 ∧ sense_context s3 = true ∧ sense_lock s3 = false) as (H3 & Hc3 & Hl3).
    { unfold s3. destruct (sense_lock s2) eqn:Hl2; [|done]. split_and!; [by apply OK_lock|done..]. }
    eapply wp_RET with (a := ()) (s' := upd_cpu (fun c => c <| c_ipm := ipm |>) s3).
    + apply bind_RET with (a := ()) (s' := s3). unfold kget, s3. by destruct (sense_lock s2).
    + apply IH; [by apply OK_ipm|exact Hc3|intros _; exact Hl3].
  - eapply wp_RET; [reflexivity|]. unfold kget at 1. rewrite Hj. by apply IH.
Qed.

Lemma call_isr_ok rounds q s :
  OK s → sense_context s = true → sense_lock s = false →
  WP (fun _ s' => OK s' ∧ sense_context s' = true) (call_isr rounds q s).
Proof. intros. by apply call_isr_loop_ok. Qed.
End calls.
End interrupt.
