(* ===== verification/Startup.v ===== *)
(** * Start and end of the kernel (kernel/startup.c) *)

From S2P Require Import Prelude Queue Data Kmonad TimeEvent Task Wait Core Release Service Object Kmm Semaphore Eventflag Dataqueue Mutex Mempfix Pridataq Mailbox Cyclic Alarm Interrupt.
Open Scope Z_scope.

Section startup.
Context {cfg : Config}.

(** [initialize_object], as the template kernel.tf generates it: a component
    is initialized when the configuration has objects of its kind.  The
    initialization of interrupts and CPU exceptions writes the tables of the
    target only. *)
Definition initialize_object : K () :=
  let when (n : nat) (m : K ()) : K () := if (n =? 0)%nat then ret () else m in
  initialize_task ;;;
  when tnum_sem initialize_semaphore ;;;
  when tnum_flg initialize_eventflag ;;;
  when tnum_dtq initialize_dataqueue ;;;
  when tnum_pdq initialize_pridataq ;;;
  when tnum_mbx initialize_mailbox ;;;
  when tnum_mtx initialize_mutex ;;;
  when tnum_mpf initialize_mempfix ;;;
  when tnum_cyc initialize_cyclic ;;;
  when tnum_alm initialize_alarm ;;;
  when tnum_isr initialize_isr.

Definition set_kerflg (b : bool) : K () := upd (upd_cpu (fun c => c <| c_kerflg := b |>)).

(** [target_initialize] and [call_inirtn], the initialization routines of the
    target and of the application, are parameters. *)
Definition sta_ker (target_initialize call_inirtn : K ()) : K () :=
  target_initialize ;;;
  initialize_kmm ;;;
  upd (upd_tm initialize_tmevt) ;;;
  initialize_object ;;;
  call_inirtn ;;;
  set_kerflg true ;;;
  yield_noreturn StartDispatch.

(** [SIL_LOC_INT] locks all interrupts, the kernel's lock included. *)
Definition ext_ker : K Z :=
  lock_cpu ;;;
  set_kerflg false ;;;
  yield_noreturn CallExitKernel.

Definition exit_kernel (call_terrtn target_exit : K ()) : K () :=
  call_terrtn ;;;
  target_exit ;;;
  undef.

End startup.
