(* ===== verification/Kernel.v ===== *)
(** * The kernel as a whole

    [kernel_inv] is the conjunction of the invariants of the components.  Each
    component meets the others through the classes of Service.v only; here
    they get their instances, and an example kernel shows that the invariant
    can hold.  The theorems about the service calls are stated here for
    [kernel_inv]. *)

From S2P Require Import Prelude Queue Data Kmonad TimeEvent Task Wait Core Release Service Transit Object Handler Kmm Semaphore Eventflag Dataqueue Mutex TaskManage TaskSync TaskExcept SysManage TaskRefer Mempfix MempfixProof Pridataq PridataqProof Mailbox MailboxProof Cyclic Alarm SignalTime Interrupt Startup.
Open Scope Z_scope.

Section kernel.
Context {cfg : Config}.
Implicit Types (s : State).

(** ** The invariant of the objects *)

Record kernel_inv s : Prop := {
  kv_kmm : kmm_inv s;
  kv_sem : kind_inv (kd := sem_kind) s;
  kv_flg : kind_inv (kd := flg_kind) s;
  kv_dtq : kind_inv (kd := dtq_kind) s;
  kv_pdq : kind_inv (kd := pdq_kind) s;
  kv_pdq_areas : areas_ok (pdq_area (obj s)) (o_kmm_brk (obj s));
  kv_mpf : kind_inv (kd := mpf_kind) s;
  kv_mpf_areas : areas_ok (mpf_area (obj s)) (o_kmm_brk (obj s));
  kv_mbx : kind_inv (kd := mbx_kind) s;
  kv_messages : mbx_msgs (obj s);
  kv_mtx : mtx_inv s;
  kv_isr : isr_inv s;
  kv_cyc : handler_inv (hd := cyc_handler) s;
  kv_alm : handler_inv (hd := alm_handler) s }.

Lemma kind_inv_ext {C} (kd : Kind C) s s' :
  cbs (obj s') = cbs (obj s) → frees (obj s') = frees (obj s) → wq s' = wq s →
  (∀ i, cb_ok s i → cb_ok s' i) → kind_inv s → kind_inv s'.
Proof.
  intros E1 E2 E3 Hok [C1 C2 C3]. split; unfold gone; rewrite ?E1, ?E2; [|done..].
  intros i. destruct (C1 i) as [D1 D2]. split; unfold gone, no_waiter in *; rewrite E1, ?E3; auto.
Qed.

Lemma handler_inv_ext {C} (hd : Handler C) s s' :
  obj s' = obj s → (∀ b, evt (tm s') b = evt (tm s) b) → tm_tmevtb (tm s') = tm_tmevtb (tm s) →
  handler_inv s → handler_inv s'.
Proof.
  intros E1 E2 E3 [H1 H2 H3]. split; unfold h_gone; rewrite ?E1; [|done..].
  intros i. apply (handler_ok_same s); rewrite ?E1, ?E2, ?E3; done.
Qed.

(** What the invariants of the kinds read of a state. *)
Ltac same_cb := let O := fresh in intros ? O; first [exact O|destruct O; split; assumption].

#[export] Instance kernel_objects : Objects kernel_inv.
Proof.
  split.
  - intros s s' [] HF. pose proof (fr_obj _ _ _ _ HF) as Ho. split.
    + eapply kmm_inv_obj; [by rewrite <- Ho|done].
    + eapply kind_inv_frame; [exact HF|done|by rewrite <- Ho..|done].
    + eapply kind_inv_frame; [exact HF|done|by rewrite <- Ho..|done].
    + eapply kind_inv_frame; [exact HF|done|by rewrite <- Ho..|done].
    + eapply kind_inv_frame; [exact HF|done|by rewrite <- Ho..|done].
    + by rewrite <- Ho.
    + eapply kind_inv_frame; [exact HF|done|by rewrite <- Ho..|done].
    + by rewrite <- Ho.
    + eapply kind_inv_frame; [exact HF|done|by rewrite <- Ho..|done].
    + by rewrite <- Ho.
    + eapply mtx_inv_frame; [exact HF|done|by rewrite <- Ho..|done].
    + eapply isr_inv_obj; [by rewrite <- Ho..|done].
    + eapply handler_inv_frame; [exact HF|done|by rewrite <- Ho..|done].
    + eapply handler_inv_frame; [exact HF|done|by rewrite <- Ho..|done].
  - intros s c v []. split; try done; try (apply (kind_inv_ext _ s); [done..|same_cb|assumption]).
    + by apply (mtx_inv_same s).
    + by apply (isr_inv_obj s).
    + by apply (handler_inv_ext _ s).
    + by apply (handler_inv_ext _ s).
  - intros s s' [] -> Hev Htb. split; try done; try (apply (kind_inv_ext _ s); [done..|same_cb|assumption]).
    + by apply (mtx_inv_same s).
    + by apply (isr_inv_obj s).
    + by apply (handler_inv_ext _ s).
    + by apply (handler_inv_ext _ s).
Qed.

(** A component that changes its own objects leaves the others alone. *)
Ltac not_own := let x := fresh in let Hx := fresh in let Hy := fresh in
  intros x Hx; first [done|destruct x; try done; first [by destruct Hx|by intros []|intros [? [=]]|intros [? ?]; destruct Hx as [? ?]; congruence]].
Ltac keep HF Hon :=
  first
    [ assumption
    | eapply kmm_inv_obj; [by rewrite Hon|assumption]
    | match goal with H : areas_ok _ _ → areas_ok _ _ |- _ => by apply H | H : mbx_msgs _ → mbx_msgs _ |- _ => by apply H end
    | eapply mbx_msgs_same; [| |eassumption]; by rewrite Hon
    | match goal with H : areas_ok (?f _) _ |- areas_ok (?f _) _ => eapply areas_ok_less; [exact H|first [done|by rewrite Hon]|intros ? ?; by rewrite Hon] end
    | eapply kind_inv_frame; [exact HF|not_own|by rewrite Hon..|assumption]
    | eapply mtx_inv_frame; [exact HF|not_own|by rewrite Hon..|assumption]
    | eapply isr_inv_obj; [by rewrite Hon..|assumption]
    | eapply handler_inv_frame; [exact HF|not_own|by rewrite Hon..|assumption] ].
Ltac component :=
  let s := fresh in let s' := fresh in let HF := fresh in let Hon := fresh in let Hinv := fresh in
  split; [by intros s []|]; intros s s' [] HF Hinv; pose proof (fr_obj _ _ _ _ HF) as Hon;
  unfold kmm_only, mtx_only, isr_only in Hon; simpl in Hon; unfold mpf_only, pdq_only, mbx_only in Hon;
  try (let Hon' := fresh in lazymatch type of Hon with _ ∧ _ => destruct Hon as [Hon Hon'] end); split; keep HF Hon.

#[export] Instance kmm_component : Component kernel_inv kmm_inv (fun _ => False) kmm_only.
Proof. component. Qed.
#[export] Instance sem_component :
  Component kernel_inv (kind_inv (kd := sem_kind)) (kind_own (kd := sem_kind)) (cb_only (Kind := sem_kind)).
Proof. component. Qed.
#[export] Instance flg_component :
  Component kernel_inv (kind_inv (kd := flg_kind)) (kind_own (kd := flg_kind)) (cb_only (Kind := flg_kind)).
Proof. component. Qed.
#[export] Instance dtq_component :
  Component kernel_inv (kind_inv (kd := dtq_kind)) (kind_own (kd := dtq_kind)) (cb_only (Kind := dtq_kind)).
Proof. component. Qed.
#[export] Instance pdq_component :
  Component kernel_inv (kind_inv (kd := pdq_kind)) (kind_own (kd := pdq_kind)) (cb_only (Kind := pdq_kind)).
Proof. component. Qed.
#[export] Instance pdq_areas : Areas kernel_inv pdq_area.
Proof. by split; [intros s []|]. Qed.
#[export] Instance mpf_component :
  Component kernel_inv (kind_inv (kd := mpf_kind)) (kind_own (kd := mpf_kind)) (cb_only (Kind := mpf_kind)).
Proof. component. Qed.
#[export] Instance mpf_areas : Areas kernel_inv mpf_area.
Proof. by split; [intros s []|]. Qed.
#[export] Instance mbx_component :
  Component kernel_inv (kind_inv (kd := mbx_kind)) (kind_own (kd := mbx_kind)) (cb_only (Kind := mbx_kind)).
Proof. component. Qed.
#[export] Instance mbx_messages : Messages kernel_inv.
Proof. split. by intros s []. Qed.
#[export] Instance mtx_component : TaskComponent kernel_inv mtx_inv mtx_own mtx_only.
Proof. component. Qed.
#[export] Instance isr_component : Component kernel_inv isr_inv (fun _ => False) isr_only.
Proof. component. Qed.
#[export] Instance cyc_component :
  TimerComponent kernel_inv (handler_inv (hd := cyc_handler)) (h_own (hd := cyc_handler)) (h_only (Handler := cyc_handler)).
Proof. component. Qed.
#[export] Instance alm_component :
  TimerComponent kernel_inv (handler_inv (hd := alm_handler)) (h_own (hd := alm_handler)) (h_only (Handler := alm_handler)).
Proof. component. Qed.
End kernel.

(** ** An example kernel

    Two tasks exist: 0 runs, 1 waits for semaphore 0 with a time-out of 5.
    Of every kind of object the block 0 exists and the block 1 is free. *)
Module Example.

Definition on0 {A} (a b : A) (i : nat) : A := match i with O => a | _ => b end.

#[export] Instance cfg : Config := {|
  tmax_tskid := 3; tmax_stskid := 1; tinib_table := fun _ => mkTINIB 0 0 4 1 1024 4096 0 0; torder_table := [1];
  tmax_semid := 2; tmax_ssemid := 0; seminib_table := fun _ => mkSEMINIB 0 0 1;
  tmax_flgid := 2; tmax_sflgid := 0; flginib_table := fun _ => mkFLGINIB 0 0;
  tmax_dtqid := 2; tmax_sdtqid := 0; dtqinib_table := fun _ => mkDTQINIB 0 1 1;
  tmax_pdqid := 2; tmax_spdqid := 0; pdqinib_table := fun _ => mkPDQINIB 0 1 1 1;
  tmax_mbxid := 2; tmax_smbxid := 0; mbxinib_table := fun _ => mkMBXINIB 0 1;
  tmax_mpfid := 2; tmax_smpfid := 0; mpfinib_table := fun _ => mkMPFINIB 0 1 4 8 1;
  tmax_mtxid := 2; tmax_smtxid := 0; mtxinib_table := fun _ => mkMTXINIB 0 0;
  tmax_cycid := 2; tmax_scycid := 0; cycinib_table := fun _ => mkCYCINIB 0 0 4 10 0;
  tmax_almid := 2; tmax_salmid := 0; alminib_table := fun _ => mkALMINIB 0 0 4;
  tmax_isrid := 2; tnum_sisr := 0; sisrinib_table := fun _ => mkISRINIB 0 0 1 0 4 1;
  isr_queue_list := [(33, 0%nat); (40, 1%nat); (41, 2%nat)];
  TIC_NUME := 1; TIC_DENO := 1;
  kmm := 65536; kmmsz := 4096;
  TARGET_TSKATR := 0; TARGET_ISRATR := 0;
  VALID_INTNO_CREISR := fun n => (32 <=? n) && (n <=? 64);
  VALID_INTNO_DISINT := fun n => (32 <=? n) && (n <=? 64);
  TMIN_INTPRI := -31; cfgint_tbl := fun n => n =? 33;
  FUNC_ALIGNED := fun f => Z.land f 3 =? 0; FUNC_NONNULL := fun f => negb (f =? 0);
  STKSZ_ALIGNED := fun n => Z.land n 7 =? 0; STACK_ALIGNED := fun n => Z.land n 7 =? 0;
  MPF_ALIGNED := fun n => Z.land n 3 =? 0; MB_ALIGNED := fun n => Z.land n 3 =? 0;
  TARGET_MIN_STKSZ := 256;
  ROUND_STK_T := fun n => u32 (Z.land (u32 (n + 7)) (Z.lnot 7));
  ROUND_MPF_T := fun n => u32 (Z.land (u32 (n + 3)) (Z.lnot 3)) |}.

Definition tcb (i : nat) : TCB :=
  match i with
  | 0%nat => mkTCB (mkTINIB 0 7 4 1 1024 4096 0 0) TS_RUNNABLE 1 1 false false true 0 None [] true
  | 1%nat => mkTCB (mkTINIB 0 8 4 2 1024 8192 0 0) (Z.lor TS_WAITING TS_WAIT_SEM) 2 2 false false true 0 (Some O) [] true
  | _ => mkTCB (mkTINIB TA_NOEXS 0 0 0 0 0 0 0) TS_DORMANT 0 0 false false false 0 None [] false
  end.

Definition states (i : nat) : tst :=
  match i with 0%nat => Runnable | 1%nat => Waiting 0 (WOBJ (SEMQ 0)) false Timer | _ => Dormant end.

Definition queues (q : qid) : list nat :=
  match q with RDQ 1 => [0%nat] | SEMQ 0 => [1%nat] | _ => [] end.

Definition objects : OBJ := {|
  o_semcb := on0 (mkSEMCB (mkSEMINIB 0 0 1) 0) (mkSEMCB (mkSEMINIB TA_NOEXS 0 0) 0); o_free_semcb := [1%nat];
  o_flgcb := on0 (mkFLGCB (mkFLGINIB 0 0) 1) (mkFLGCB (mkFLGINIB TA_NOEXS 0) 0); o_free_flgcb := [1%nat];
  o_dtqcb := on0 (mkDTQCB (mkDTQINIB 0 2 1) 1 1 0) (mkDTQCB (mkDTQINIB TA_NOEXS 0 0) 0 0 0);
  o_free_dtqcb := [1%nat]; o_dtqmb := fun _ _ => 0;
  o_pdqcb := on0 (mkPDQCB (mkPDQINIB 0 2 16 1) 0 None 0 None) (mkPDQCB (mkPDQINIB TA_NOEXS 0 0 0) 0 None 0 None);
  o_free_pdqcb := [1%nat]; o_pdqmb := fun _ _ => mkPDQMB None 0 0;
  o_mbxcb := on0 (mkMBXCB (mkMBXINIB 0 16) 0 0) (mkMBXCB (mkMBXINIB TA_NOEXS 0) 0 0);
  o_free_mbxcb := [1%nat]; o_msg := fun _ => mkT_MSG_PRI 0 0;
  o_mpfcb := on0 (mkMPFCB (mkMPFINIB 0 2 4 8 1) 2 0 INDEX_NULL) (mkMPFCB (mkMPFINIB TA_NOEXS 0 0 0 0) 0 0 0);
  o_free_mpfcb := [1%nat]; o_mpfmb := fun _ _ => 0;
  o_mtxcb := on0 (mkMTXCB (mkMTXINIB TA_CEILING 1) None) (mkMTXCB (mkMTXINIB TA_NOEXS 0) None);
  o_free_mtxcb := [1%nat];
  o_cyccb := on0 (mkCYCCB (mkCYCINIB 0 0 4 10 0) false 0) (mkCYCCB (mkCYCINIB TA_NOEXS 0 0 0 0) false 0);
  o_free_cyccb := [1%nat];
  o_almcb := on0 (mkALMCB (mkALMINIB 0 0 4) false) (mkALMCB (mkALMINIB TA_NOEXS 0 0) false);
  o_free_almcb := [1%nat];
  o_isrcb := on0 (mkISRINIB 0 0 33 0 4 1) (mkISRINIB TA_NOEXS 0 0 0 0 0); o_free_isrcb := [1%nat];
  o_isr_queue := on0 [0%nat] [];
  o_free_tcb := [2%nat];
  o_kmm_brk := 65536 + 4096 |}.

Definition kernel : State := {|
  tcb_table := tcb; wq := queues;
  winfos := on0 (mkWINFO_WOBJ (P_TMEVTB (Some (TM_TSK 0))) (Some (SEMQ 0)) 0 0 0 0 0 0 0) winfo_init;
  next_frame := 1;
  sch := mkSCH (Some 0%nat) 2;
  var := mkVAR (Some 0%nat) false true false true;
  cpu := mkCPU false false 0 (fun _ => false) true;
  tm := mkTM 100 100 101 0 1 (fun _ => mkTMEVTN 105 (TM_TSK 0))
    (fun b => mkTMEVTB (if decide (b = TM_TSK 0) then 1 else 0) wait_tmout_cb 1);
  obj := objects |}.

Lemma kernel_queues q t : t ∈ queues q ↔ place tcb states t = Some q.
Proof.
  destruct t as [|[|t]]; simpl; (split; [|intros [= <-]; simpl; left]).
  - destruct q as [[|[]|]|[]| | | | | | | |]; simpl; rewrite ?elem_of_nil, ?list_elem_of_singleton; by intros.
  - destruct q as [[|[]|]|[]| | | | | | | |]; simpl; rewrite ?elem_of_nil, ?list_elem_of_singleton; by intros.
  - destruct q as [[|[]|]|[]| | | | | | | |]; simpl; rewrite ?elem_of_nil, ?list_elem_of_singleton; by intros.
Qed.

Lemma kernel_KInv : KInv states kernel.
Proof.
  split.
  - by intros [|[|t]].
  - by intros [|[|t]].
  - intros [|[|t]]; simpl; [lia|lia|done].
  - intros [|[|t]] w c susp tmr; simpl; intros [=]; subst. split; try done; simpl; [lia|].
    intros q [[= <-]|[=]]. done.
  - by intros [|[|t1]] [|[|t2]] w.
  - split; [apply kernel_queues|]. intros q.
    destruct q as [[|[]|]|[]| | | | | | | |]; first [apply NoDup_nil_2|apply NoDup_singleton].
  - split.
    + intros p t. simpl. destruct p as [|[]|]; simpl; rewrite ?elem_of_nil, ?list_elem_of_singleton; try done.
      intros ->. simpl. lia.
    + split; [simpl; lia|]. intros p Hp. simpl.
      assert (p = 0 ∨ p = 1 ∨ 1 < p) as [-> | [-> | Hp1]] by lia; [done|done|].
      destruct p as [|[]|]; try done; try lia.
    + done.
  - split; simpl; [lia| |]; unfold slot; simpl; intros i Hi.
    + by assert (i = 1) as -> by lia.
    + intros. lia.
  - intros w. unfold evt. simpl. destruct (decide (TM_TSK w = TM_TSK 0)) as [[= ->]|Hne]; simpl.
    + split; [|eauto]. intros _. exists 1%nat, (WOBJ (SEMQ 0)), false. done.
    + split; [by intros []|]. intros ([|[|t]] & c & susp & [=]). subst. by destruct Hne.
  - intros q _ _. destruct q as [[|[]|]|[]| | | | | | | |]; simpl; repeat constructor.
Qed.

Lemma kernel_kind {C} (kd : Kind C) :
  frees objects = [1%nat] → cb_atr (cbs objects 0%nat) ≠ TA_NOEXS →
  (∀ i, cb_atr (cbs objects (S i)) = TA_NOEXS) → cb_of (SEMQ 0) = Some 0%nat ∨ cb_of (SEMQ 0) = None →
  cb_ok kernel 0 → kind_inv kernel.
Proof.
  intros Hf H0 H1 Hq Hok. split.
  - intros [|i]; split; [by intros ?%H0|done| |intros []; apply H1].
    intros _ q Hof. pose proof (cb_not_ready _ _ Hof) as Hr. destruct q as [|[]| | | | | | | |]; try done.
    destruct Hq; congruence.
  - intros i. simpl. rewrite Hf, list_elem_of_singleton. intros ->. apply (H1 O).
  - simpl. rewrite Hf. apply NoDup_singleton.
Qed.

Lemma kernel_handler {C} (hd : Handler C) :
  hfrees objects = [1%nat] → (∀ i, h_atr (hbs objects (S i)) = TA_NOEXS) → h_sta (hbs objects 0%nat) = false →
  handler_inv kernel.
Proof.
  intros Hf H1 Hs. assert (Hno : ∀ i, evt (tm kernel) (h_tm i) = None).
  { intros i. unfold evt. simpl. destruct (decide (h_tm i = TM_TSK 0)) as [He|]; [by apply h_tm_tsk in He|done]. }
  split.
  - intros i. split; rewrite Hno; [|by intros []]. split; [by intros []|]. intros [He Hs']. destruct i as [|i].
    + simpl in Hs'. congruence.
    + destruct He. apply (H1 i).
  - intros i. simpl. rewrite Hf, list_elem_of_singleton. intros ->. apply (H1 O).
  - simpl. rewrite Hf. apply NoDup_singleton.
Qed.

Lemma kernel_mtx : mtx_inv kernel.
Proof.
  split; try done.
  - by intros [|[|t]].
  - intros [|[|t]] Ht; simpl; [lia|lia|by destruct Ht].
  - intros [|[|t]] Ht; simpl; [lia|lia|by destruct Ht].
  - intros [|[|t]]; [done|done|]. intros _ Ht. by destruct Ht.
  - intros t. simpl. rewrite list_elem_of_singleton. by intros ->.
  - apply NoDup_singleton.
  - intros [|[|t]] i; simpl; intros _; rewrite elem_of_nil; (split; [done|]); intros [_ Hi]; by destruct i.
  - intros [|[|t]]; constructor.
  - by intros [|[|t]].
  - intros [|[|t]] i; simpl; by rewrite elem_of_nil.
  - intros [|[|t]] _ Ht; [done|done|]. by destruct Ht.
  - intros t i. simpl. by rewrite elem_of_nil.
  - intros [|i] Hi; [done|]. by destruct Hi.
  - intros i. simpl. rewrite list_elem_of_singleton. by intros ->.
  - apply NoDup_singleton.
Qed.

Lemma kernel_isr : isr_inv kernel.
Proof.
  split.
  - intros [|q] [|i]; simpl; rewrite ?list_elem_of_singleton, ?elem_of_nil; naive_solver.
  - intros [|q]; simpl; [apply NoDup_singleton|constructor].
  - intros [|q]; simpl; repeat constructor.
  - intros i. simpl. rewrite list_elem_of_singleton. by intros ->.
  - apply NoDup_singleton.
Qed.

Lemma kernel_mpf : mpf_ok (mpfcb kernel 0) (mpf_mem (obj kernel) 0) [].
Proof. split; [|done]. exists []. apply (pool_reset (mpfcb kernel 0)); split; done. Qed.

Lemma kernel_objs : kernel_inv kernel.
Proof.
  split.
  - vm_compute. split; congruence.
  - apply kernel_kind; try done; by left.
  - apply kernel_kind; try done; [by right|by apply flg_ok_empty].
  - apply kernel_kind; try done; [by right|]. split; try done; [|by left]. split; simpl; try done; lia.
  - apply kernel_kind; try done; [by right|]. split; try done; [|by left].
    exists [], []. apply (pdq_buf_reset (pdqcb kernel 0)); simpl; unfold sizeof_PDQMB; lia.
  - split; [|by intros [|i] [|j] a]. intros [|i] a; [|done]. intros [= <-]. simpl. lia.
  - apply kernel_kind; try done; [by right|apply kernel_mpf].
  - split; [|by intros [|i] [|j] a]. intros [|i] a; [|done]. intros [= <-]. simpl. lia.
  - apply kernel_kind; try done; by right.
  - split; [intros [|i] He; [exists []; by apply box_ok_empty|by destruct He]|].
    intros [|i] [|j] x [He (L & Hc & Hx)] [He' _]; try done; by (destruct He || destruct He').
  - apply kernel_mtx.
  - apply kernel_isr.
  - by apply kernel_handler.
  - by apply kernel_handler.
Qed.

Lemma kernel_Inv : Inv kernel_inv states kernel.
Proof.
  split; [apply kernel_KInv|by intros [|[|t]]|apply kernel_objs| |].
  - intros _. by exists 0%nat.
  - intros _. by left.
Qed.

(** The invariant can hold. *)
Lemma kernel_OK : OK kernel_inv kernel.
Proof. exists states. apply kernel_Inv. Qed.

(** The same in an interrupt handler. *)
Definition handler : State := upd_cpu (fun c => c <| c_sense_context := true |>) kernel.

Lemma handler_OK : OK kernel_inv handler.
Proof.
  exists states. unfold handler. rewrite upd_cpu_ctx. split.
  - apply KInv_ctx, kernel_KInv.
  - apply kernel_Inv.
  - apply objs_ctx, kernel_objs.
  - done.
  - by left.
Qed.
End Example.
