(* ===== verification/Init.v ===== *)
(** * Initialization of the control block tables

    Every [initialize_xxx] runs over the static part of its table, empties the
    list of free blocks and runs over the rest of the table.  [Table] is a
    table of control blocks with its free list as a part of [OBJ]; one lemma
    about the three loops serves all kinds of objects.  The second part says
    that an initialized table satisfies the invariant of its kind. *)

From S2P Require Import Prelude Queue Data Kmonad TimeEvent Task Wait Core Release Service Object Handler.
Open Scope Z_scope.

(** ** Loops *)

(** [I l] holds when the elements [l] have been treated. *)
Lemma kfor_ok {A} (body : A → K ()) (I : list A → State → Prop) (todo : list A) : ∀ done s,
  I done s →
  (∀ l a l' s, done ++ todo = l ++ a :: l' → I l s → ∃ s', body a s = RET () s' ∧ I (l ++ [a]) s') →
  ∃ s', kfor todo body s = RET () s' ∧ I (done ++ todo) s'.
Proof.
  induction todo as [|a todo IH]; intros l s HI Hbody; simpl; [exists s; by rewrite app_nil_r|].
  destruct (Hbody l a todo s eq_refl HI) as (s1 & E & HI1). rewrite (bind_RET _ _ _ _ _ E).
  destruct (IH (l ++ [a]) s1 HI1) as (s' & E' & HI').
  - intros k b k' s2 Hk. apply Hbody with (l' := k'). by rewrite <- app_assoc in Hk.
  - exists s'. split; [done|]. by rewrite <- app_assoc in HI'.
Qed.

Lemma seq_split a n l x l' : seq a n = l ++ x :: l' → l = seq a (x - a) ∧ (a ≤ x < a + n)%nat.
Proof.
  intros Hs. assert (Hl : seq a n !! length l = Some x) by (rewrite Hs; by apply list_lookup_middle).
  apply lookup_seq in Hl as [-> Hlt]. split; [|lia].
  replace (a + length l - a)%nat with (length l) by lia.
  apply (f_equal (take (length l))) in Hs. rewrite take_app_length, take_seq in Hs.
  rewrite <- Hs at 1. f_equal. lia.
Qed.

(** [for (i = a; i < a + n; i++)]. *)
Lemma kfor_seq_ok (body : nat → K ()) (I : nat → State → Prop) a n s :
  I a s → (∀ i s, (a ≤ i < a + n)%nat → I i s → ∃ s', body i s = RET () s' ∧ I (S i) s') →
  ∃ s', kfor (seq a n) body s = RET () s' ∧ I (a + n)%nat s'.
Proof.
  intros HI Hbody. destruct (kfor_ok body (fun l => I (a + length l)%nat) (seq a n) [] s) as (s' & E & HI').
  - simpl. by rewrite Nat.add_0_r.
  - intros l i l' s1 Hl HI1. apply seq_split in Hl as [-> Hi]. rewrite length_app, length_seq in *. simpl.
    replace (a + (i - a))%nat with i in HI1 by lia. replace (a + (i - a + 1))%nat with (S i) by lia. by apply Hbody.
  - exists s'. split; [done|]. simpl in HI'. by rewrite length_seq in HI'.
Qed.

(** ** Tables of control blocks *)

Class Table (C : Type) := {
  tbl : OBJ → nat → C;
  free_list : OBJ → list nat;
  put : (nat → C) → list nat → OBJ → OBJ;
  attr : C → Z;
  tbl_put : ∀ T l o, tbl (put T l o) = T;
  free_put : ∀ T l o, free_list (put T l o) = l;
  put_put : ∀ T l T' l' o, put T l (put T' l' o) = put T l o;
  put_self : ∀ o, put (tbl o) (free_list o) o = o }.

(** The blocks below [n] are those of the configuration, [G] says what they
    are, the others are free. *)
Record started {C} `{Table C} (n m : nat) (G : nat → C → Prop) (T : nat → C) (l : list nat) : Prop := {
  sd_init : ∀ i, (i < n)%nat → G i (T i);
  sd_gone : ∀ i, (n ≤ i)%nat → attr (T i) = TA_NOEXS;
  sd_free : l = seq n (m - n) }.

(** No block exists outside the table. *)
Definition outside {C} `{Table C} (m : nat) o : Prop :=
  (∀ i, (m ≤ i)%nat → attr (tbl o i) = TA_NOEXS) ∧ free_list o = [].

(** Nobody waits. *)
Definition no_waiters s : Prop := ∀ q, is_ready_queue q = false → wq s q = [].

Section table.
Context {cfg : Config} {C : Type} {tb : Table C} (n m : nat) (G : nat → C → Prop) (I : nat → State → Prop).
Implicit Types (s : State) (i : nat).

Context (body free : nat → K ()) (clear : K ()) (del : C → C).
Hypothesis Hsize : (n ≤ m)%nat.
Hypothesis Hbody : ∀ i s, (i < n)%nat → I i s → (∀ j, (j < i)%nat → G j (tbl (obj s) j)) → ∃ s', body i s = RET () s' ∧ I (S i) s' ∧ G i (tbl (obj s') i) ∧
  ∀ j, j ≠ i → tbl (obj s') j = tbl (obj s) j.
Hypothesis Hclear : ∀ s, clear s = RET () (upd_obj (fun o => put (tbl o) [] o) s).
Hypothesis Hfree : ∀ i s, free i s =
  RET () (upd_obj (fun o => put (<[i := del (tbl o i)]> (tbl o)) (free_list o ++ [i]) o) s).
Hypothesis Hdel : ∀ c, attr (del c) = TA_NOEXS.
Hypothesis Hput : ∀ s T l, I n s → I n (upd_obj (put T l) s).

Lemma initialize_table s :
  I 0%nat s → outside m (obj s) →
  ∃ s', (kfor (seq 0 n) body ;;; clear ;;; kfor (seq n (m - n)) free) s = RET () s' ∧ I n s' ∧
    started n m G (tbl (obj s')) (free_list (obj s')).
Proof.
  intros HI [Hout _].
  destruct (kfor_seq_ok body (fun k s1 => I k s1 ∧ (∀ i, (i < k)%nat → G i (tbl (obj s1) i)) ∧
    ∀ i, (n ≤ i)%nat → tbl (obj s1) i = tbl (obj s) i) 0 n s) as (s1 & E1 & HI1 & HG1 & HO1).
  { split_and!; [done|lia|done]. }
  { intros i s1 Hi (H1 & H2 & H3). destruct (Hbody i s1) as (s2 & E & H4 & H5 & H6); [lia|done|done|].
    exists s2. split; [done|]. split_and!; [done| |].
    - intros j Hj. destruct (decide (j = i)) as [->|Hne]; [done|]. rewrite H6 by done. apply H2. lia.
    - intros j Hj. rewrite H6 by lia. by apply H3. }
  rewrite (bind_RET _ _ _ _ _ E1), (bind_RET _ _ _ _ _ (Hclear s1)).
  set (s2 := upd_obj _ s1). assert (Ht2 : tbl (obj s2) = tbl (obj s1)) by apply tbl_put.
  destruct (kfor_seq_ok free (fun k s3 => I n s3 ∧ (∀ i, (i < n)%nat → tbl (obj s3) i = tbl (obj s1) i) ∧
    (∀ i, (n ≤ i < k ∨ m ≤ i)%nat → attr (tbl (obj s3) i) = TA_NOEXS) ∧ free_list (obj s3) = seq n (k - n))
    n (m - n) s2) as (s3 & E3 & HI3 & HG3 & HO3 & HL3).
  { rewrite Ht2. split_and!; [by apply (Hput s1)|done| |].
    - intros i [?|?]; [lia|]. rewrite HO1 by lia. by apply Hout.
    - simpl. rewrite free_put, Nat.sub_diag. done. }
  { intros i s3 Hi (H1 & H2 & H3 & H4). eexists. split; [apply Hfree|]. simpl. rewrite tbl_put, free_put.
    split_and!; [by apply (Hput s3)| | |].
    - intros j Hj. rewrite fn_lookup_insert_ne by lia. by apply H2.
    - intros j Hj. destruct (decide (j = i)) as [->|Hne]; [by rewrite fn_lookup_insert|].
      rewrite fn_lookup_insert_ne by done. apply H3. lia.
    - rewrite H4. replace (S i - n)%nat with (i - n + 1)%nat by lia. rewrite seq_app. simpl. do 2 f_equal. lia. }
  exists s3. split; [done|]. split; [done|]. replace (n + (m - n))%nat with m in * by lia. split; [| |done].
  - intros i Hi. rewrite HG3 by done. apply HG1. lia.
  - intros i Hi. apply HO3. lia.
Qed.
End table.

(** The initialization of a table whose objects have wait queues only: the
    queues stay as empty as they are and only the table changes. *)
Definition ostep (o' : OBJ) s s' : Prop := s' = s <| wq := wq s' |> <| obj := o' |> ∧ ∀ q, wq s' q = wq s q.

Lemma ostep_no_waiters o' s s' : ostep o' s s' → no_waiters s → no_waiters s'.
Proof. intros [_ Hq] Hs q Hr. rewrite Hq. by apply Hs. Qed.

Lemma pri_sorted_nil T : pri_sorted T [].
Proof. constructor. Qed.

Lemma KInv_ostep `{Config} g o' s s' : ostep o' s s' → no_waiters s → KInv g s → KInv g s'.
Proof.
  intros [Hs' Hq] Hs [K1 K2 K3 K4 K5 K6 K7 K8 K9 K10]. rewrite Hs'. split; try done; simpl.
  - intros t w c susp tmr Hg. by destruct (K4 _ _ _ _ _ Hg).
  - destruct K6 as [W1 W2]. split; intros q; rewrite Hq; auto.
  - eapply sched_ok_ext; [exact K7|by intros|done].
  - intros q Hw _. rewrite Hq, Hs; [apply pri_sorted_nil|by destruct q].
Qed.

Section kind.
Context {cfg : Config} {C : Type} {tb : Table C} (n m : nat) (G : nat → C → Prop).
Implicit Types (s : State) (i : nat).
Context (body free : nat → K ()) (clear : K ()) (del : C → C).
Hypothesis Hsize : (n ≤ m)%nat.
Hypothesis Hbody : ∀ i s, no_waiters s → ∃ s', body i s = RET () s' ∧
  ostep (put (tbl (obj s')) (free_list (obj s')) (obj s)) s s' ∧
  G i (tbl (obj s') i) ∧ ∀ j, j ≠ i → tbl (obj s') j = tbl (obj s) j.
Hypothesis Hclear : ∀ s, clear s = RET () (upd_obj (fun o => put (tbl o) [] o) s).
Hypothesis Hfree : ∀ i s, free i s =
  RET () (upd_obj (fun o => put (<[i := del (tbl o i)]> (tbl o)) (free_list o ++ [i]) o) s).
Hypothesis Hdel : ∀ c, attr (del c) = TA_NOEXS.

Lemma initialize_kind s :
  no_waiters s → outside m (obj s) →
  ∃ T l s', (if (m =? 0)%nat then ret ()
      else kfor (seq 0 n) body ;;; clear ;;; kfor (seq n (m - n)) free) s = RET () s' ∧
    ostep (put T l (obj s)) s s' ∧ started n m G T l.
Proof.
  intros Hs Hout. destruct (Nat.eqb_spec m 0) as [Hm|Hm].
  { exists (tbl (obj s)), [], s. destruct Hout as [Ho Hf]. rewrite <- Hf, put_self.
    split_and!; [done|split; [by destruct s|done]|]. split; [lia| |by rewrite Hf, Hm].
    intros i _. apply Ho. lia. }
  destruct (initialize_table n m G (fun _ s1 => ∃ T l, ostep (put T l (obj s)) s s1) body free clear del)
    with (s := s) as (s' & E & (T & l & Ho) & Hst); [done|..|exact Hclear|exact Hfree|exact Hdel| | |exact Hout|].
  - intros i s1 Hi (T & l & Ho) _. pose proof (ostep_no_waiters _ _ _ Ho Hs) as Hn.
    destruct (Hbody i s1 Hn) as (s2 & E & [Hs2 HW] & HG & Hj). exists s2. split_and!; [exact E| |done|done].
    exists (tbl (obj s2)), (free_list (obj s2)). destruct Ho as [Hs1 Hq]. split; [|intros q; by rewrite HW].
    rewrite Hs2 at 1. rewrite Hs1. simpl. by rewrite put_put.
  - intros s1 T' l' (T & l & [Hs1 Hq]). exists T', l'. split; [|exact Hq]. rewrite Hs1 at 1. by rewrite <- (put_put T' l' T l).
  - exists (tbl (obj s)), (free_list (obj s)). rewrite put_self. split; [by destruct s|done].
  - exists T, l, s'. split_and!; [exact E|exact Ho|]. destruct Ho as [Ho _]. rewrite Ho in Hst. simpl in Hst.
    by rewrite tbl_put, free_put in Hst.
Qed.
End kind.

(** ** The invariants of the kinds *)

Section invariant.
Context {cfg : Config}.
Implicit Types (s : State) (i : nat).

Lemma kind_inv_started {C} {kd : Kind C} n m s :
  no_waiters s → (∀ i, (i < n)%nat → ¬ gone s i ∧ cb_ok s i) → (∀ i, (n ≤ i)%nat → gone s i) →
  frees (obj s) = seq n m → kind_inv s.
Proof.
  intros Hs Hi Hg Hf. split; rewrite ?Hf; [| |apply NoDup_seq].
  - intros i. split.
    + intros _ q Hq. by apply Hs, (cb_not_ready q i).
    + intros He. destruct (decide (i < n)%nat); [by apply Hi|]. destruct He. apply Hg. lia.
  - intros i [Hle _]%elem_of_seq. by apply Hg.
Qed.

Lemma handler_inv_started {C} {hd : Handler C} n m s :
  (∀ i, handler_ok s i) → (∀ i, (n ≤ i)%nat → h_gone s i) → hfrees (obj s) = seq n m → handler_inv s.
Proof.
  intros Hi Hg Hf. split; rewrite ?Hf; [done| |apply NoDup_seq]. intros i [Hle _]%elem_of_seq. by apply Hg.
Qed.
End invariant.
