(* ===== verification/StartupProof.v ===== *)
(** * Start of the kernel: the proofs

    From a cleared memory and a configuration the configurator accepts,
    [sta_ker] reaches the point where the dispatcher starts the first task,
    and the invariant of the whole kernel holds there. *)

From S2P Require Import Prelude Queue Data Kmonad TimeEvent Task Wait Core Release Service Transit Object Handler Kmm Semaphore Eventflag Dataqueue Mutex TaskManageProof Mempfix MempfixProof Pridataq PridataqProof Mailbox MailboxProof Cyclic Alarm Interrupt Startup Kernel Init.
Open Scope Z_scope.

(** ** The tables of the kernel *)

Ltac table := try done; by intros [].

#[export] Instance sem_table : Table SEMCB.
Proof.
  refine {| tbl := o_semcb; free_list := o_free_semcb; attr := fun C => sematr (p_seminib C);
    put := fun T l o => o <| o_semcb := T |> <| o_free_semcb := l |> |}; table.
Defined.
#[export] Instance flg_table : Table FLGCB.
Proof.
  refine {| tbl := o_flgcb; free_list := o_free_flgcb; attr := fun C => flgatr (p_flginib C);
    put := fun T l o => o <| o_flgcb := T |> <| o_free_flgcb := l |> |}; table.
Defined.
#[export] Instance dtq_table : Table DTQCB.
Proof.
  refine {| tbl := o_dtqcb; free_list := o_free_dtqcb; attr := fun C => dtqatr (p_dtqinib C);
    put := fun T l o => o <| o_dtqcb := T |> <| o_free_dtqcb := l |> |}; table.
Defined.
#[export] Instance pdq_table : Table PDQCB.
Proof.
  refine {| tbl := o_pdqcb; free_list := o_free_pdqcb; attr := fun C => pdqatr (p_pdqinib C);
    put := fun T l o => o <| o_pdqcb := T |> <| o_free_pdqcb := l |> |}; table.
Defined.
#[export] Instance mbx_table : Table MBXCB.
Proof.
  refine {| tbl := o_mbxcb; free_list := o_free_mbxcb; attr := fun C => mbxatr (p_mbxinib C);
    put := fun T l o => o <| o_mbxcb := T |> <| o_free_mbxcb := l |> |}; table.
Defined.
#[export] Instance mtx_table : Table MTXCB.
Proof.
  refine {| tbl := o_mtxcb; free_list := o_free_mtxcb; attr := fun C => mtxatr (p_mtxinib C);
    put := fun T l o => o <| o_mtxcb := T |> <| o_free_mtxcb := l |> |}; table.
Defined.
#[export] Instance mpf_table : Table MPFCB.
Proof.
  refine {| tbl := o_mpfcb; free_list := o_free_mpfcb; attr := fun C => mpfatr (p_mpfinib C);
    put := fun T l o => o <| o_mpfcb := T |> <| o_free_mpfcb := l |> |}; table.
Defined.
#[export] Instance cyc_table : Table CYCCB.
Proof.
  refine {| tbl := o_cyccb; free_list := o_free_cyccb; attr := fun C => cycatr (p_cycinib C);
    put := fun T l o => o <| o_cyccb := T |> <| o_free_cyccb := l |> |}; table.
Defined.
#[export] Instance alm_table : Table ALMCB.
Proof.
  refine {| tbl := o_almcb; free_list := o_free_almcb; attr := fun C => almatr (p_alminib C);
    put := fun T l o => o <| o_almcb := T |> <| o_free_almcb := l |> |}; table.
Defined.
#[export] Instance isr_table : Table ISRINIB.
Proof.
  refine {| tbl := o_isrcb; free_list := o_free_isrcb; attr := isratr;
    put := fun T l o => o <| o_isrcb := T |> <| o_free_isrcb := l |> |}; table.
Defined.

Section startup.
Context {cfg : Config}.
Implicit Types (s : State) (g : nat → tst) (i j : nat) (q : qid) (o : OBJ).

(** ** What the configurator guarantees

    The checks of kernel.tf on the static API, and the layout of the tables
    it generates. *)

Definition static_area {A} (n : nat) (ini : nat → A) (area : A → option Z) i : option Z :=
  if (i <? n)%nat then area (ini i) else None.

Record wf_config : Prop := {
  cf_sizes : (tnum_stsk ≤ tnum_tsk ∧ tnum_ssem ≤ tnum_sem ∧ tnum_sflg ≤ tnum_flg ∧ tnum_sdtq ≤ tnum_dtq ∧
    tnum_spdq ≤ tnum_pdq ∧ tnum_smbx ≤ tnum_mbx ∧ tnum_smtx ≤ tnum_mtx ∧ tnum_smpf ≤ tnum_mpf ∧
    tnum_scyc ≤ tnum_cyc ∧ tnum_salm ≤ tnum_alm)%nat ∧ (tnum_sisr ≤ tnum_isr)%nat;
  cf_torder : torder_table ≡ₚ IDOF <$> seq 0 tnum_stsk;
  cf_tsk : ∀ i, (i < tnum_stsk)%nat → tskatr (tinib_table i) ≠ TA_NOEXS ∧ 0 ≤ ipriority (tinib_table i) < 16;
  cf_sem : ∀ i, (i < tnum_ssem)%nat → let I := seminib_table i in
    sematr I ≠ TA_NOEXS ∧ 0 ≤ isemcnt I ≤ maxsem I ∧ maxsem I ≤ TMAX_MAXSEM;
  cf_flg : ∀ i, (i < tnum_sflg)%nat → flgatr (flginib_table i) ≠ TA_NOEXS;
  cf_dtq : ∀ i, (i < tnum_sdtq)%nat → let I := dtqinib_table i in dtqatr I ≠ TA_NOEXS ∧ 0 ≤ dtqcnt I < 2^32;
  cf_pdq : ∀ i, (i < tnum_spdq)%nat → let I := pdqinib_table i in
    pdqatr I ≠ TA_NOEXS ∧ 0 ≤ pdqcnt I ∧ sizeof_PDQMB * pdqcnt I < 2^32;
  cf_pdq_areas : areas_ok (static_area tnum_spdq pdqinib_table
    (fun I => if pdqcnt I =? 0 then None else Some (p_pdqmb I))) (kmm + kmmsz);
  cf_mbx : ∀ i, (i < tnum_smbx)%nat → mbxatr (mbxinib_table i) ≠ TA_NOEXS;
  cf_mtx : ∀ i, (i < tnum_smtx)%nat → mtxatr (mtxinib_table i) ≠ TA_NOEXS ∧ 0 ≤ ceilpri (mtxinib_table i);
  cf_mpf : ∀ i, (i < tnum_smpf)%nat → let I := mpfinib_table i in
    mpfatr I ≠ TA_NOEXS ∧ (1 ≤ blkcnt I ∧ sizeof_MPFMB * blkcnt I < 2^32) ∧ (0 < blksz I ∧ blksz I * blkcnt I < 2^32);
  cf_mpf_areas : areas_ok (static_area tnum_smpf mpfinib_table (fun I => Some (p_mpfmb I))) (kmm + kmmsz);
  cf_cyc : ∀ i, (i < tnum_scyc)%nat → cycatr (cycinib_table i) ≠ TA_NOEXS;
  cf_alm : ∀ i, (i < tnum_salm)%nat → almatr (alminib_table i) ≠ TA_NOEXS;
  cf_isr : ∀ i, (i < tnum_sisr)%nat → isratr (sisrinib_table i) ≠ TA_NOEXS;
  cf_kmm : 0 ≤ kmmsz }.

(** ** The cleared memory

    No task is in a queue, every TCB is dormant, and nothing exists outside
    the tables; the control blocks in the tables may hold anything. *)

Record boot_obj o : Prop := {
  bo_sem : outside tnum_sem o (C := SEMCB);
  bo_flg : outside tnum_flg o (C := FLGCB);
  bo_dtq : outside tnum_dtq o (C := DTQCB);
  bo_pdq : outside tnum_pdq o (C := PDQCB);
  bo_mbx : outside tnum_mbx o (C := MBXCB);
  bo_mtx : outside tnum_mtx o (C := MTXCB);
  bo_mpf : outside tnum_mpf o (C := MPFCB);
  bo_cyc : outside tnum_cyc o (C := CYCCB);
  bo_alm : outside tnum_alm o (C := ALMCB);
  bo_isr : outside tnum_isr o (C := ISRINIB);
  bo_isr_queue : ∀ k, o_isr_queue o k = [] }.

Record boot s : Prop := {
  bt_obj : boot_obj (obj s);
  bt_wq : ∀ q, wq s q = [];
  bt_tcb : ∀ t, tstat (tcb_table s t) = TS_DORMANT ∧ mutex_queue (tcb_table s t) = [];
  bt_noexs : ∀ t, (tnum_tsk ≤ t)%nat → tskatr (p_tinib (tcb_table s t)) = TA_NOEXS;
  bt_ctx : sense_context s = true }.

(** ** Objects with wait queues *)

Lemma queue_initialize_same r s W :
  no_waiters s → is_ready_queue r = false → (∀ q, W q = wq s q) → ∀ q, Fam.queue_initialize r W q = wq s q.
Proof.
  intros Hs Hr HW q. unfold Fam.queue_initialize. destruct (decide (q = r)) as [->|Hne].
  - rewrite fn_lookup_insert. by rewrite (Hs r Hr).
  - by rewrite fn_lookup_insert_ne.
Qed.

(** The blocks after their initialization. *)
Definition sem_init i (C : SEMCB) : Prop := C = mkSEMCB (seminib_table i) (isemcnt (seminib_table i)).
Definition flg_init i (C : FLGCB) : Prop := C = mkFLGCB (flginib_table i) (iflgptn (flginib_table i)).
Definition dtq_init i (C : DTQCB) : Prop := C = mkDTQCB (dtqinib_table i) 0 0 0.
Definition pdq_init i (C : PDQCB) : Prop := C = mkPDQCB (pdqinib_table i) 0 None 0 None.
Definition mbx_init i (C : MBXCB) : Prop := p_mbxinib C = mbxinib_table i ∧ pk_head C = 0.
Definition mtx_init i (C : MTXCB) : Prop := C = mkMTXCB (mtxinib_table i) None.
Definition mpf_init i (C : MPFCB) : Prop := C = mkMPFCB (mpfinib_table i) (blkcnt (mpfinib_table i)) 0 INDEX_NULL.
Definition alm_init i (C : ALMCB) : Prop := C = mkALMCB (alminib_table i) false.

Definition when (n : nat) (m : K ()) : K () := if (n =? 0)%nat then ret () else m.

Ltac block_init :=
  let i := fresh "i" in let s := fresh "s" in let Hs := fresh "Hs" in intros i s Hs;
  eexists; split; [reflexivity|]; split_and!; simpl;
    [split; [reflexivity|]; simpl; repeat (apply queue_initialize_same; [exact Hs|done|intros]; try done); try done
    |rewrite ?fn_lookup_insert; try done
    |intros j Hj; by rewrite !fn_lookup_insert_ne].
Ltac kind_init n m G del :=
  intros Hsz Hs Hout; refine (initialize_kind n m G _ _ _ del Hsz _ _ _ _ _ Hs Hout); [block_init|done|done|done].

Section kinds.
Context (s : State).

(** What [initialize_xxx] does with one table. *)
Definition initializes {C} `{Table C} (init : K ()) (n m : nat) (G : nat → C → Prop) : Prop :=
  (n ≤ m)%nat → no_waiters s → outside m (obj s) →
  ∃ T l s', when m init s = RET () s' ∧ ostep (put T l (obj s)) s s' ∧ started n m G T l.

Lemma initialize_semaphore_ok : initializes initialize_semaphore tnum_ssem tnum_sem sem_init.
Proof. kind_init tnum_ssem tnum_sem sem_init (fun C : SEMCB => C <| p_seminib ::= fun I => I <| sematr := TA_NOEXS |> |>). Qed.
Lemma initialize_eventflag_ok : initializes initialize_eventflag tnum_sflg tnum_flg flg_init.
Proof. kind_init tnum_sflg tnum_flg flg_init (fun C : FLGCB => C <| p_flginib ::= fun I => I <| flgatr := TA_NOEXS |> |>). Qed.
Lemma initialize_dataqueue_ok : initializes initialize_dataqueue tnum_sdtq tnum_dtq dtq_init.
Proof. kind_init tnum_sdtq tnum_dtq dtq_init (fun C : DTQCB => C <| p_dtqinib ::= fun I => I <| dtqatr := TA_NOEXS |> |>). Qed.
Lemma initialize_pridataq_ok : initializes initialize_pridataq tnum_spdq tnum_pdq pdq_init.
Proof. kind_init tnum_spdq tnum_pdq pdq_init (fun C : PDQCB => C <| p_pdqinib ::= fun I => I <| pdqatr := TA_NOEXS |> |>). Qed.
Lemma initialize_mailbox_ok : initializes initialize_mailbox tnum_smbx tnum_mbx mbx_init.
Proof. kind_init tnum_smbx tnum_mbx mbx_init (fun C : MBXCB => C <| p_mbxinib ::= fun I => I <| mbxatr := TA_NOEXS |> |>). Qed.
Lemma initialize_mutex_ok : initializes initialize_mutex tnum_smtx tnum_mtx mtx_init.
Proof. kind_init tnum_smtx tnum_mtx mtx_init (fun C : MTXCB => C <| p_mtxinib ::= fun I => I <| mtxatr := TA_NOEXS |> |>). Qed.
Lemma initialize_mempfix_ok : initializes initialize_mempfix tnum_smpf tnum_mpf mpf_init.
Proof. kind_init tnum_smpf tnum_mpf mpf_init (fun C : MPFCB => C <| p_mpfinib ::= fun I => I <| mpfatr := TA_NOEXS |> |>). Qed.
Lemma initialize_alarm_ok : initializes initialize_alarm tnum_salm tnum_alm alm_init.
Proof. kind_init tnum_salm tnum_alm alm_init (fun C : ALMCB => C <| p_alminib ::= fun I => I <| almatr := TA_NOEXS |> |>). Qed.
End kinds.

(** ** Tasks *)

Definition tasks : list nat := INDEX <$> torder_table.
Definition active j : bool := bits (tskatr (tinib_table j)) TA_ACT.
(** The tasks that start with priority [p], in the order of the configuration. *)
Definition starts (p : Z) (l : list nat) : list nat :=
  filter (fun j => active j = true ∧ ipriority (tinib_table j) = p) l.

(** A TCB after its initialization; [r]: it is made active. *)
Record tcb_init j (r : bool) (T : TCB) : Prop := {
  ti_ini : p_tinib T = tinib_table j;
  ti_bpri : bpriority T = ipriority (tinib_table j);
  ti_pri : priority T = ipriority (tinib_table j);
  ti_mutex : mutex_queue T = [];
  ti_act : actque T = false;
  ti_stat : tstat T = if r then TS_RUNNABLE else TS_DORMANT }.

(** The tasks [l] have been treated. *)
Definition initial (l : list nat) : nat → tst := fun t => if decide (t ∈ l ∧ active t = true) then Runnable else Dormant.

Record task_inv s0 (l : list nat) s : Prop := {
  tv_K : KInv (initial l) s;
  tv_tcb : ∀ t, if decide (t ∈ l) then tcb_init t (active t) (tcb_table s t) else tcb_table s t = tcb_table s0 t;
  tv_ready : ∀ p, wq s (RDQ p) = starts p l;
  tv_obj : obj s = obj s0; tv_var : var s = var s0; tv_cpu : cpu s = cpu s0; tv_tm : tm s = tm s0 }.

Lemma initial_snoc l j t : initial (l ++ [j]) t = if decide (t = j ∧ active j = true) then Runnable else initial l t.
Proof.
  unfold initial. destruct (decide (t = j ∧ active j = true)) as [[-> Ha]|Hn].
  - rewrite decide_True; [done|]. split; [set_solver|done].
  - destruct (decide (t ∈ l ∧ active t = true)) as [[H1 H2]|H].
    + rewrite decide_True; [done|]. split; [set_solver|done].
    + rewrite decide_False; [done|]. intros [[Hl| ->%list_elem_of_singleton]%elem_of_app Ha]; auto.
Qed.
(** A dormant task gets another TCB. *)
Lemma dormant_KInv g s j T' :
  KInv g s → g j = Dormant → (∀ x, x ≠ j → T' x = tcb_table s x) → tstat (T' j) = TS_DORMANT →
  KInv g (s <| tcb_table := T' |>).
Proof.
  intros HK Hg HT Hts. pose proof (off_queue_no g s j HK) as Hno. rewrite Hg in Hno. specialize (Hno eq_refl).
  apply (KInv_ext (<[j := Dormant]> g)).
  { intros t. destruct (decide (t = j)) as [->|]; [by rewrite fn_lookup_insert|by rewrite fn_lookup_insert_ne]. }
  apply (KInv_move g s); try done; [by intros w c susp; rewrite Hg| |].
  - simpl. eapply wq_ok_ext; [|apply HK]. intros t. rewrite (place_upd (tcb_table s)) by done.
    case_decide as Ht; [|done]. subst t. rewrite place_self. unfold place. by rewrite Hg.
  - simpl. eapply sched_ok_ext; [apply HK|done|]. intros p t Ht. rewrite HT; [done|]. intros ->. by apply Hno in Ht.
Qed.

Lemma starts_snoc p l j :
  starts p (l ++ [j]) = starts p l ++ (if decide (active j = true ∧ ipriority (tinib_table j) = p) then [j] else []).
Proof. unfold starts. rewrite filter_app, filter_cons, filter_nil. by case_decide. Qed.

Lemma initialize_task_body_ok s0 l j s :
  task_inv s0 l s → j ∉ l → 0 ≤ ipriority (tinib_table j) < 16 →
  ∃ s', (upd (upd_tcb j (fun T => T <| p_tinib := tinib_table j |>)) ;;;
      upd (upd_tcb j (fun T => T <| actque := false |>)) ;;;
      make_dormant j ;;;
      upd (upd_tcb j (fun T => T <| mutex_queue := [] |>)) ;;;
      get s;;
      if bits (tskatr (p_tinib (tcb_table s j))) TA_ACT then make_active j ;;; ret () else ret ()) s = RET () s' ∧
    task_inv s0 (l ++ [j]) s'.
Proof.
  intros [K T R E1 E2 E3 E4] Hj Hp. assert (Hg : initial l j = Dormant) by (unfold initial; rewrite decide_False; [done|naive_solver]).
  set (s1 := upd_tcb j (fun T => T <| mutex_queue := [] |>) (upd_tcb j (fun T =>
    T <| tstat := TS_DORMANT |> <| bpriority := ipriority (p_tinib T) |> <| priority := ipriority (p_tinib T) |>
      <| wupque := false |> <| enatex := false |> <| texptn := 0 |>)
    (upd_tcb j (fun T => T <| actque := false |>) (upd_tcb j (fun T => T <| p_tinib := tinib_table j |>) s)))).
  assert (HT : ∀ x, x ≠ j → tcb_table s1 x = tcb_table s x) by (intros x Hx; simpl; by rewrite !fn_lookup_insert_ne).
  assert (HI : tcb_init j false (tcb_table s1 j)) by (simpl; rewrite !fn_lookup_insert; by split).
  assert (K1 : KInv (initial l) s1).
  { change s1 with (s <| tcb_table := tcb_table s1 |>). apply (dormant_KInv _ s j); [done|exact Hg|exact HT|apply HI]. }
  rewrite (bind_RET _ _ s () (upd_tcb j (fun T => T <| p_tinib := tinib_table j |>) s)) by done.
  do 3 (erewrite bind_RET by reflexivity). fold s1. unfold kget. rewrite (ti_ini _ _ _ HI). fold (active j).
  assert (HT' : ∀ s', (∀ x, x ≠ j → tcb_table s' x = tcb_table s1 x) → tcb_init j (active j) (tcb_table s' j) →
    ∀ t, if decide (t ∈ l ++ [j]) then tcb_init t (active t) (tcb_table s' t) else tcb_table s' t = tcb_table s0 t).
  { intros s' Hx Hs' t. specialize (T t). destruct (decide (t = j)) as [->|Hne].
    - rewrite decide_True by set_solver. exact Hs'.
    - rewrite (decide_ext (t ∈ l ++ [j]) (t ∈ l)) by set_solver. by rewrite Hx, HT. }
  destruct (active j) eqn:Ha.
  - destruct (make_active_KInv (initial l) s1 j K1 Hg) as (c' & E & _ & K2); [by rewrite (ti_pri _ _ _ HI)|].
    rewrite (bind_RET _ _ _ _ _ E). eexists. split; [reflexivity|]. split; try done.
    + eapply KInv_ext; [|exact K2]. intros t. rewrite initial_snoc. destruct (decide (t = j)) as [->|Hne].
      * by rewrite fn_lookup_insert, decide_True.
      * rewrite fn_lookup_insert_ne by done. rewrite decide_False; [done|naive_solver].
    + apply HT'; simpl; [intros x Hx; by rewrite !fn_lookup_insert_ne|]. rewrite !fn_lookup_insert. by split.
    + intros p. change (wq _) with (Fam.queue_insert_prev (RDQ (priority (tcb_table s1 j))) j (wq s)).
      unfold Fam.queue_insert_prev. rewrite starts_snoc, (ti_pri _ _ _ HI), Ha.
      destruct (decide (p = ipriority (tinib_table j))) as [->|Hne].
      * rewrite fn_lookup_insert, decide_True by done. f_equal. apply R.
      * rewrite fn_lookup_insert_ne by congruence. rewrite decide_False by naive_solver. rewrite app_nil_r. apply R.
  - exists s1. split; [done|]. split; try done.
    + eapply KInv_ext; [|exact K1]. intros t. rewrite initial_snoc, decide_False; [done|]. intros [_ Hx]. congruence.
    + by apply HT'.
    + intros p. rewrite starts_snoc, Ha, decide_False by naive_solver. rewrite app_nil_r. apply R.
Qed.
(** *** The loop over the static tasks *)

Lemma tasks_perm : wf_config → tasks ≡ₚ seq 0 tnum_stsk.
Proof.
  intros Hwf. unfold tasks. rewrite (cf_torder Hwf), <- list_fmap_compose.
  rewrite <- (list_fmap_id (seq 0 tnum_stsk)) at 2. apply reflexive_eq, list_fmap_ext. intros _ i _. simpl.
  unfold INDEX, IDOF. lia.
Qed.

Lemma elem_of_tasks t : wf_config → t ∈ tasks ↔ (t < tnum_stsk)%nat.
Proof. intros Hwf. rewrite (tasks_perm Hwf), elem_of_seq. lia. Qed.

Lemma tasks_take i : wf_config → (i < tnum_stsk)%nat → let j := INDEX (nth i torder_table 0) in
  take (S i) tasks = take i tasks ++ [j] ∧ j ∉ take i tasks ∧ (j < tnum_stsk)%nat.
Proof.
  intros Hwf Hi j. pose proof (tasks_perm Hwf) as Hperm.
  assert (Hlen : length torder_table = tnum_stsk).
  { apply Permutation_length in Hperm. unfold tasks in Hperm. by rewrite length_fmap, length_seq in Hperm. }
  assert (Hj : tasks !! i = Some j).
  { unfold tasks. rewrite list_lookup_fmap. destruct (lookup_lt_is_Some_2 torder_table i) as [x Hx]; [lia|].
    rewrite Hx. simpl. unfold j. do 2 f_equal. symmetry. by apply nth_lookup_Some. }
  assert (Hnd : NoDup tasks) by (rewrite Hperm; apply NoDup_seq).
  split; [by apply take_S_r|]. split.
  - intros Hin. rewrite <- (take_drop_middle _ _ _ Hj) in Hnd. apply NoDup_app in Hnd as (_ & Hd & _).
    by apply (Hd _ Hin); left.
  - apply (elem_of_tasks _ Hwf). by eapply list_elem_of_lookup_2.
Qed.

(** All the queues are empty and no task runs. *)
Lemma boot_KInv s :
  boot s → tm_last_index (tm s) = 0 → sch s = mkSCH None 0 → KInv (fun _ => Dormant) s.
Proof.
  intros [_ B1 B2 _ _] Htm Hsch. split; try done.
  - intros t. by rewrite (proj1 (B2 t)).
  - split; intros q; rewrite B1; [|apply NoDup_nil_2]. intros t. by rewrite elem_of_nil.
  - rewrite Hsch. split.
    + intros p t. rewrite B1. by intros ?%not_elem_of_nil.
    + split; [simpl; lia|]. intros p _. rewrite B1. simpl. by rewrite Z.bits_0.
    + symmetry. by apply ready_none.
  - split; unfold slot; rewrite Htm; [done|lia..].
  - intros w. unfold evt. rewrite Htm. split; [|by intros (? & ? & ? & ?)]. intros [x Hx]. revert Hx.
    case_match eqn:Hc; [|done]. lia.
  - intros q _ _. rewrite B1. apply pri_sorted_nil.
Qed.
Record tasks_started s0 s : Prop := {
  ts_K : KInv (initial tasks) s;
  ts_tcb : ∀ t, (t < tnum_stsk)%nat → tcb_init t (active t) (tcb_table s t);
  ts_gone : ∀ t, (tnum_stsk ≤ t)%nat →
    noexs (tcb_table s t) ∧ tstat (tcb_table s t) = TS_DORMANT ∧ mutex_queue (tcb_table s t) = [];
  ts_ready : ∀ p, wq s (RDQ p) = starts p tasks;
  ts_obj : obj s = (obj s0) <| o_free_tcb := seq tnum_stsk (tnum_tsk - tnum_stsk) |>;
  ts_var : var s = mkVAR None false true false true;
  ts_cpu : cpu s = cpu s0;
  ts_tm : tm s = tm s0 }.

Lemma static_tasks_ok s :
  wf_config → KInv (fun _ => Dormant) s → (∀ q, wq s q = []) →
  ∃ s', kfor (seq 0 tnum_stsk) (fun i =>
    let j := INDEX (nth i torder_table 0) in
    upd (upd_tcb j (fun T => T <| p_tinib := tinib_table j |>)) ;;;
    upd (upd_tcb j (fun T => T <| actque := false |>)) ;;;
    make_dormant j ;;;
    upd (upd_tcb j (fun T => T <| mutex_queue := [] |>)) ;;;
    get s;;
    if bits (tskatr (p_tinib (tcb_table s j))) TA_ACT
    then make_active j ;;; ret () else ret ()) s = RET () s' ∧ task_inv s tasks s'.
Proof.
  intros Hwf HK HQ.
  assert (Hlen : (length tasks = tnum_stsk)%nat) by (by rewrite (Permutation_length (tasks_perm Hwf)), length_seq).
  rewrite <- (take_ge tasks tnum_stsk) by lia.
  apply (kfor_seq_ok _ (fun i => task_inv s (take i tasks)) 0 tnum_stsk s).
  - split; try done.
  - intros i s1 Hi HI. destruct (tasks_take i Hwf) as (E1 & E2 & E3); [lia|]. cbv zeta. rewrite E1.
    apply initialize_task_body_ok; [done|done|]. by apply (cf_tsk Hwf).
Qed.

(** The loop over the rest of the table. *)
Lemma free_tasks_ok g s n m :
  KInv g s →
  ∃ s', kfor (seq n m) (fun i =>
    upd (upd_tcb i (fun T => T <| p_tinib ::= fun n => n <| tskatr := TA_NOEXS |> |>)) ;;;
    upd (upd_obj (fun o => o <| o_free_tcb ::= fun l => l ++ [i] |>))) s = RET () s' ∧
    KInv g s' ∧ (∀ t, (t < n)%nat ∨ (n + m ≤ t)%nat → tcb_table s' t = tcb_table s t) ∧
    (∀ t, tstat (tcb_table s' t) = tstat (tcb_table s t) ∧ mutex_queue (tcb_table s' t) = mutex_queue (tcb_table s t)) ∧
    (∀ t, (n ≤ t < n + m)%nat → noexs (tcb_table s' t)) ∧
    s' = s <| tcb_table := tcb_table s' |> <| obj := (obj s) <| o_free_tcb := o_free_tcb (obj s) ++ seq n m |> |>.
Proof.
  intros HK. destruct (kfor_seq_ok (fun i =>
      upd (upd_tcb i (fun T => T <| p_tinib ::= fun n => n <| tskatr := TA_NOEXS |> |>)) ;;;
      upd (upd_obj (fun o => o <| o_free_tcb ::= fun l => l ++ [i] |>))) (fun k s' => KInv g s' ∧
    (∀ t, (t < n ∨ k ≤ t)%nat → tcb_table s' t = tcb_table s t) ∧
    (∀ t, tstat (tcb_table s' t) = tstat (tcb_table s t) ∧ mutex_queue (tcb_table s' t) = mutex_queue (tcb_table s t)) ∧
    (∀ t, (n ≤ t < k)%nat → noexs (tcb_table s' t)) ∧
    s' = s <| tcb_table := tcb_table s' |> <| obj := (obj s) <| o_free_tcb := o_free_tcb (obj s) ++ seq n (k - n) |> |>)
    n m s) as (s' & E & H).
  - rewrite Nat.sub_diag. simpl. rewrite app_nil_r. split_and!; try done; [lia|by destruct s as [? ? ? ? ? ? ? ? []]].
  - intros i s1 Hi (A1 & A2 & A3 & A4 & A5). eexists. split; [reflexivity|].
    set (s2 := upd_tcb i _ s1). set (s3 := upd_obj _ s2).
    assert (H2 : ∀ t, tcb_table s3 t = if decide (t = i) then
      (tcb_table s1 i) <| p_tinib ::= fun n => n <| tskatr := TA_NOEXS |> |> else tcb_table s1 t).
    { intros t. simpl. case_decide as Ht; [subst; by rewrite fn_lookup_insert|by rewrite fn_lookup_insert_ne]. }
    split_and!.
    + apply KInv_obj; [|intros q _; left; by destruct q]. apply KInv_tcb; [|done].
      intros t. specialize (H2 t). simpl in *. rewrite H2. by case_decide; subst.
    + intros t Ht. rewrite H2, decide_False by lia. apply A2. lia.
    + intros t. rewrite H2. case_decide; [subst|]; apply A3.
    + intros t Ht. rewrite H2. case_decide as Hti; [done|]. apply A4. lia.
    + replace (S i - n)%nat with (i - n + 1)%nat by lia. rewrite seq_app, app_assoc. simpl.
      replace (n + (i - n))%nat with i by lia. unfold s3, s2, upd_tcb, upd_obj. simpl.
      revert A5. generalize (tcb_table s1). by intros T1 ->.
  - exists s'. replace (n + m - n)%nat with m in H by lia. by destruct H as (? & ? & ? & ? & ?).
Qed.
Lemma initialize_task_ok s :
  wf_config → boot s → tm_last_index (tm s) = 0 → ∃ s', initialize_task s = RET () s' ∧ tasks_started s s'.
Proof.
  intros Hwf HB Htm. unfold initialize_task. do 6 (erewrite bind_RET by reflexivity).
  set (s1 := upd_var _ (upd_var _ _)).
  destruct (kfor_seq_ok (fun i => queue_initialize (RDQ (Z.of_nat i)))
    (fun _ s' => ∃ W, s' = s1 <| wq := W |> ∧ ∀ q, W q = []) 0 (Z.to_nat TNUM_TPRI) s1) as (s2 & E2 & W & Hs2 & HW).
  { exists (wq s). split; [done|apply HB]. }
  { intros i s2 _ (W & -> & HW). eexists. split; [reflexivity|]. eexists. split; [reflexivity|]. intros q.
    simpl. unfold Fam.queue_initialize. destruct (decide (q = RDQ (Z.of_nat i))) as [->|]; [by rewrite fn_lookup_insert|by rewrite fn_lookup_insert_ne]. }
  rewrite (bind_RET _ _ _ _ _ E2). erewrite bind_RET by reflexivity. set (s3 := upd_sch _ s2).
  assert (HB3 : boot s3) by (unfold s3; rewrite Hs2; by destruct HB; split).
  assert (HK3 : KInv (fun _ => Dormant) s3) by (apply boot_KInv; [exact HB3|by unfold s3; rewrite Hs2|by unfold s3; rewrite Hs2]).
  destruct (static_tasks_ok s3 Hwf HK3) as (s4 & E4 & [K4 T4 R4 O4 V4 C4 M4]); [apply HB3|].
  rewrite (bind_RET _ _ _ _ _ E4). erewrite bind_RET by reflexivity. set (s5 := upd_obj _ s4).
  assert (K5 : KInv (initial tasks) s5) by (apply KInv_obj; [exact K4|intros q _; left; by destruct q]).
  destruct (free_tasks_ok (initial tasks) s5 tnum_stsk (tnum_tsk - tnum_stsk) K5) as (s6 & E6 & K6 & A & B & N & Hs6).
  rewrite E6. exists s6. split; [done|].
  assert (HT : ∀ t, (t < tnum_stsk)%nat → tcb_init t (active t) (tcb_table s6 t)).
  { intros t Ht. rewrite A by lia. specialize (T4 t). by rewrite decide_True in T4 by (by apply elem_of_tasks). }
  assert (HT' : ∀ t, (tnum_stsk ≤ t)%nat → tcb_table s4 t = tcb_table s3 t).
  { intros t Ht. specialize (T4 t). rewrite decide_False in T4; [done|]. intros Hx%elem_of_tasks; [lia|done]. }
  split; [done|done| |rewrite Hs6; done|by rewrite Hs6; simpl; rewrite O4; unfold s3; rewrite Hs2|..].
  - intros t Ht. destruct (B t) as [B1 B2]. rewrite B1, B2. simpl. rewrite HT' by done.
    split; [|apply HB3]. destruct (decide (t < tnum_tsk)%nat); [apply N; lia|].
    unfold noexs. rewrite A by lia. simpl. rewrite HT' by done. apply HB3. lia.
  - rewrite Hs6. simpl. rewrite V4. unfold s3. by rewrite Hs2.
  - rewrite Hs6. simpl. rewrite C4. unfold s3. by rewrite Hs2.
  - rewrite Hs6. simpl. rewrite M4. unfold s3. by rewrite Hs2.
Qed.
(** ** Cyclic handlers *)

Definition cyc_sta i : bool := bits (cycatr (cycinib_table i)) TA_STA.
Definition cyc_init i (C : CYCCB) : Prop :=
  p_cycinib C = cycinib_table i ∧ cycsta C = cyc_sta i ∧ (cyc_sta i = true → evttim C = cycphs (cycinib_table i)).

(** The handlers below [k] that start are registered at their phase, nothing
    else is. *)
Definition cyc_evt (k : nat) (b : tmid) : option Z :=
  match b with TM_CYC i => if (i <? k)%nat && cyc_sta i then Some (cycphs (cycinib_table i)) else None | _ => None end.

Record cyc_tm (k : nat) (m : TM) : Prop := {
  ct_heap : heap_ok m;
  ct_evt : ∀ b, evt m b = cyc_evt k b;
  ct_call : ∀ i, (i < k)%nat → cyc_sta i = true →
    callback (tm_tmevtb m (TM_CYC i)) = call_cychdr_cb ∧ arg (tm_tmevtb m (TM_CYC i)) = i }.

Lemma cyc_evt_S k b : cyc_evt (S k) b = if decide (b = TM_CYC k ∧ cyc_sta k = true) then Some (cycphs (cycinib_table k)) else cyc_evt k b.
Proof.
  destruct b as [w|i|i]; unfold cyc_evt; [by rewrite decide_False by naive_solver| |by rewrite decide_False by naive_solver].
  case_decide as Hd; [destruct Hd as [[= ->] ->]; by rewrite (proj2 (Nat.ltb_lt k (S k))) by lia|].
  destruct (decide (i = k)) as [->|Hne].
  - rewrite Nat.ltb_irrefl. destruct (cyc_sta k); [by destruct Hd|]. by rewrite andb_false_r.
  - by replace (i <? S k)%nat with (i <? k)%nat by (destruct (Nat.ltb_spec i k), (Nat.ltb_spec i (S k)); lia).
Qed.

Lemma cyc_tm_same k m : cyc_tm k m → cyc_sta k = false → cyc_tm (S k) m.
Proof.
  intros [H1 H2 H3] Hs. split; [done| |].
  - intros b. rewrite cyc_evt_S, decide_False by (intros [_ ?]; congruence). apply H2.
  - intros i Hi Hsi. apply H3; [|done]. assert (i ≠ k) by congruence. lia.
Qed.

Lemma cyc_tm_register k m m' :
  cyc_tm k m → cyc_sta k = true → registered m m' (TM_CYC k) (cycphs (cycinib_table k)) call_cychdr_cb k → cyc_tm (S k) m'.
Proof.
  intros [H1 H2 H3] Hs []. split; [done| |].
  - intros b. rewrite cyc_evt_S. case_decide as Hd; [destruct Hd as [-> _]; done|].
    rewrite rg_other; [apply H2|]. naive_solver.
  - intros i Hi Hsi. destruct (decide (i = k)) as [->|Hne]; [done|].
    destruct (rg_tmevtb (TM_CYC i)) as [-> ->]; [congruence|]. apply H3; [lia|done].
Qed.

(** What the initialization of the handlers changes. *)
Definition cyc_step (o' : OBJ) s s' : Prop := s' = s <| tm := tm s' |> <| obj := o' |>.

Definition cyc_inv_at g s0 (k : nat) s : Prop :=
  (∃ (T : nat → CYCCB) l, cyc_step (put T l (obj s0)) s0 s) ∧ KInv g s ∧ cyc_tm k (tm s).

Lemma initialize_cyclic_body_ok g s0 i s :
  cyc_inv_at g s0 i s →
  ∃ s', (upd_cyc i (fun C => C <| p_cycinib := cycinib_table i |>) ;;;
      get s;;
      if bits (cycatr (p_cycinib (cyccb s i))) TA_STA then
        set_cycsta i true ;;; tmevtb_enqueue_cyc i (cycphs (p_cycinib (cyccb s i)))
      else set_cycsta i false) s = RET () s' ∧
    cyc_inv_at g s0 (S i) s' ∧ cyc_init i (cyccb s' i) ∧ ∀ j, j ≠ i → cyccb s' j = cyccb s j.
Proof.
  intros ((T & l & Hs) & HK & Ht). rewrite (bind_RET _ _ s () (upd_obj (set_cyc i (fun C => C <| p_cycinib := cycinib_table i |>)) s)) by done.
  set (s1 := upd_obj _ s). assert (H1 : p_cycinib (cyccb s1 i) = cycinib_table i) by (simpl; by rewrite fn_lookup_insert).
  unfold kget. rewrite H1. fold (cyc_sta i).
  set (s2 := upd_obj (set_cyc i (fun C => C <| cycsta := cyc_sta i |>)) s1).
  assert (Hput : ∀ m F, let s' := upd_obj (set_cyc i F) (upd_tm (fun _ => m) s2) in
    ∃ (T : nat → CYCCB) l, cyc_step (put T l (obj s0)) s0 s').
  { intros m F s'. exists (o_cyccb (obj s')), l. unfold cyc_step, s', s2, s1. rewrite Hs. done. }
  assert (HK2 : ∀ m F, KInv g (upd_tm (fun _ => m) s) → KInv g (upd_obj (set_cyc i F) (upd_tm (fun _ => m) s2))).
  { intros m F Hm. change (KInv g (upd_obj (fun o => set_cyc i F (set_cyc i (fun C => C <| cycsta := cyc_sta i |>)
      (set_cyc i (fun C => C <| p_cycinib := cycinib_table i |>) o))) (upd_tm (fun _ => m) s))).
    apply KInv_obj; [exact Hm|]. intros q _. left. by destruct q. }
  destruct (cyc_sta i) eqn:Hsta.
  - rewrite (bind_RET _ _ s1 () s2) by done.
    destruct (tmevtb_enqueue_cyc_eq s2 i (cycphs (cycinib_table i))) as (m' & E & Hr); [apply Ht| |].
    { change (evt (tm s) (TM_CYC i) = None). rewrite (ct_evt _ _ Ht). simpl. by rewrite Nat.ltb_irrefl. }
    exists (upd_obj (set_cyc i (fun C => C <| Data.evttim := cycphs (cycinib_table i) |>)) (upd_tm (fun _ => m') s2)).
    split; [exact E|]. split_and!.
    + split_and!; [apply Hput| |by eapply cyc_tm_register]. apply HK2. apply (KInv_at g s m' (TM_CYC i)); [done|by eapply registered_at|done].
    + simpl. rewrite !fn_lookup_insert. by split_and!.
    + intros j Hj. simpl. by rewrite !fn_lookup_insert_ne.
  - exists s2. split; [done|]. split_and!.
    + split_and!; [|apply (KInv_obj g s (fun o => set_cyc i (fun C => C <| cycsta := false |>)
        (set_cyc i (fun C => C <| p_cycinib := cycinib_table i |>) o))); [done|intros q _; left; by destruct q]|by apply cyc_tm_same].
      exists (o_cyccb (obj s2)), l. unfold cyc_step, s2, s1. rewrite Hs. done.
    + simpl. rewrite !fn_lookup_insert. split_and!; simpl; [done|done|congruence].
    + intros j Hj. simpl. by rewrite !fn_lookup_insert_ne.
Qed.

Lemma initialize_cyclic_ok g s :
  (tnum_scyc ≤ tnum_cyc)%nat → KInv g s → tm_last_index (tm s) = 0 → outside tnum_cyc (obj s) (C := CYCCB) →
  ∃ T l s', when tnum_cyc initialize_cyclic s = RET () s' ∧ cyc_step (put T l (obj s)) s s' ∧
    started tnum_scyc tnum_cyc cyc_init T l ∧ KInv g s' ∧ cyc_tm tnum_scyc (tm s').
Proof.
  intros Hsz HK Htm Hout. assert (H0 : cyc_tm 0 (tm s)).
  { split; [apply HK| |lia]. intros b. unfold evt. rewrite Htm. destruct b as [|i|]; simpl; case_match eqn:Hc; try done; lia. }
  unfold when. destruct (Nat.eqb_spec tnum_cyc 0) as [Hm|Hm].
  { replace tnum_scyc with 0%nat by lia. destruct Hout as [Ho Hf]. exists (tbl (obj s)), [], s. rewrite <- Hf, put_self.
    split_and!; [done|by destruct s|split; [lia| |by rewrite Hf, Hm]|done|done]. intros i _. apply Ho. lia. }
  assert (Hinit : ∃ s', initialize_cyclic s = RET () s' ∧ cyc_inv_at g s tnum_scyc s' ∧
    started tnum_scyc tnum_cyc cyc_init (cyccb s') (o_free_cyccb (obj s'))).
  { refine (initialize_table tnum_scyc tnum_cyc cyc_init (cyc_inv_at g s) _ _ _
      (fun C : CYCCB => C <| p_cycinib ::= fun I => I <| cycatr := TA_NOEXS |> |>) Hsz _ _ _ _ _ s _ Hout); try done.
    - intros i s1 _ H _. by apply initialize_cyclic_body_ok.
    - intros s1 T l ((T' & l' & Hs1) & HK1 & Ht1). split_and!; [|apply KInv_obj; [done|intros q _; left; by destruct q]|done].
      exists T, l. unfold cyc_step. rewrite Hs1. done.
    - split_and!; [|done|done]. exists (cyccb s), (o_free_cyccb (obj s)). unfold cyc_step. by destruct s as [? ? ? ? ? ? ? ? []]. }
  destruct Hinit as (s' & E & ((T & l & Ho) & HK' & Htm') & Hst). exists T, l, s'. split_and!; try done.
  rewrite Ho in Hst. exact Hst.
Qed.
(** ** Interrupt service routines *)

Definition isr_init i (I : ISRINIB) : Prop := I = sisrinib_table i.

(** The queues hold the routines below [k], in the order of their priority. *)
Record isr_queues (k : nat) (Q : nat → list nat) : Prop := {
  iq_elem : ∀ (q : nat) i, i ∈ Q q ↔ (i < k)%nat ∧ p_isr_queue (sisrinib_table i) = q;
  iq_nodup : ∀ q : nat, NoDup (Q q);
  iq_sorted : ∀ q : nat, isr_sorted sisrinib_table (Q q) }.

Definition isr_step (o' : OBJ) s s' : Prop := s' = s <| obj := o' |>.
Definition isr_inv_at s0 (k : nat) s : Prop :=
  (∃ (T : nat → ISRINIB) l, isr_step ((put T l (obj s0)) <| o_isr_queue := o_isr_queue (obj s) |>) s0 s) ∧
  isr_queues k (o_isr_queue (obj s)).

(** Both sides of a comparison are in the table of the configuration. *)
Lemma isr_queues_insert k Q (I : nat → ISRINIB) (q : nat := p_isr_queue (sisrinib_table k)) :
  isr_queues k Q → (∀ i, (i ≤ k)%nat → I i = sisrinib_table i) →
  isr_queues (S k) (<[q := insert_before_first (fun j => isrpri (I k) <? isrpri (I j)) k (Q q)]> Q).
Proof.
  intros [H1 H2 H3] HI. assert (Hk : k ∉ Q q) by (intros [Hx _]%H1; lia). split; intros q'.
  - intros i. destruct (decide (q' = q)) as [->|Hne].
    + rewrite fn_lookup_insert, elem_of_insert_before_first, H1. split; [|intros [? ?]; destruct (decide (i = k)); [by left|right; split; [lia|done]]].
      intros [->|[? ?]]; split; (lia || done).
    + rewrite fn_lookup_insert_ne, H1 by done. split; intros [? Hq]; (split; [|done]); [lia|].
      assert (i ≠ k) by (intros ->; by apply Hne). lia.
  - destruct (decide (q' = q)) as [->|Hne]; [|by rewrite fn_lookup_insert_ne].
    rewrite fn_lookup_insert. by apply NoDup_insert_before_first.
  - destruct (decide (q' = q)) as [->|Hne]; [|by rewrite fn_lookup_insert_ne].
    rewrite fn_lookup_insert. apply (isr_sorted_ext I).
    { intros i [->|[? _]%H1]%elem_of_insert_before_first; rewrite HI by lia; done. }
    apply isr_sorted_insert, (isr_sorted_ext sisrinib_table); [|apply H3]. intros i [? _]%H1. by rewrite HI by lia.
Qed.

Lemma initialize_isr_body_ok s0 i s :
  isr_inv_at s0 i s → (∀ j, (j < i)%nat → isr_init j (isrcb s j)) →
  ∃ s', (upd_isr i (fun _ => sisrinib_table i) ;;; get s;; enqueue_isr (p_isr_queue (isrcb s i)) i) s = RET () s' ∧
    isr_inv_at s0 (S i) s' ∧ isr_init i (isrcb s' i) ∧ ∀ j, j ≠ i → isrcb s' j = isrcb s j.
Proof.
  intros ((T & l & Hs) & HQ) HT.
  set (s1 := upd_obj (fun o => o <| o_isrcb ::= fun T => <[i := sisrinib_table i]> T |>) s).
  rewrite (bind_RET _ _ s () s1) by done. unfold kget.
  assert (Hi : isrcb s1 i = sisrinib_table i) by (simpl; by rewrite fn_lookup_insert).
  assert (H1 : ∀ j, (j ≤ i)%nat → isrcb s1 j = sisrinib_table j).
  { intros j Hj. destruct (decide (j = i)) as [->|Hne]; [done|]. simpl. rewrite fn_lookup_insert_ne by done. apply HT. lia. }
  rewrite Hi. eexists. split; [reflexivity|]. split_and!.
  - split; [|by apply isr_queues_insert].
    exists (isrcb s1), l. unfold isr_step, s1. rewrite Hs. done.
  - apply H1. lia.
  - intros j Hj. by apply fn_lookup_insert_ne.
Qed.

Lemma initialize_isr_ok s :
  (tnum_sisr ≤ tnum_isr)%nat → outside tnum_isr (obj s) (C := ISRINIB) → (∀ q : nat, o_isr_queue (obj s) q = []) →
  ∃ T l Q s', when tnum_isr initialize_isr s = RET () s' ∧
    isr_step ((put T l (obj s)) <| o_isr_queue := Q |>) s s' ∧ started tnum_sisr tnum_isr isr_init T l ∧
    isr_queues tnum_sisr Q.
Proof.
  intros Hsz Hout HQ0. assert (H0 : ∀ Q : nat → list nat, (∀ q : nat, Q q = []) → isr_queues 0 Q).
  { intros Q HQ. split; intros q; rewrite HQ; [|apply NoDup_nil_2|constructor]. intros i. rewrite elem_of_nil. split; [done|lia]. }
  unfold when. destruct (Nat.eqb_spec tnum_isr 0) as [Hm|Hm].
  { replace tnum_sisr with 0%nat by lia. destruct Hout as [Ho Hf].
    exists (tbl (obj s)), [], (o_isr_queue (obj s)), s. rewrite <- Hf.
    split_and!; [done|by destruct s as [? ? ? ? ? ? ? ? []]|split; [lia| |by rewrite Hf, Hm]|by apply H0].
    intros i _. apply Ho. lia. }
  destruct (kfor_seq_ok (fun q : nat => upd_isr_queue (fun Q => <[q := []]> Q))
    (fun _ s1 => s1 = s <| obj := (obj s) <| o_isr_queue := o_isr_queue (obj s1) |> |> ∧ ∀ q : nat, o_isr_queue (obj s1) q = [])
    0 (length isr_queue_list) s) as (s1 & E1 & Hs1 & HQ1).
  { split; [by destruct s as [? ? ? ? ? ? ? ? []]|done]. }
  { intros k s1 _ [Hs1 HQ1]. eexists. split; [reflexivity|]. split; [by rewrite Hs1|]. intros q. simpl.
    destruct (decide (q = k)) as [->|]; [by rewrite fn_lookup_insert|by rewrite fn_lookup_insert_ne]. }
  unfold initialize_isr. rewrite (bind_RET _ _ _ _ _ E1).
  match goal with |- context [?m s1] => assert (Hinit : ∃ s', m s1 = RET () s' ∧ isr_inv_at s tnum_sisr s' ∧
    started tnum_sisr tnum_isr isr_init (isrcb s') (o_free_isrcb (obj s'))) end.
  { refine (initialize_table tnum_sisr tnum_isr isr_init (isr_inv_at s) _ _ _
      (fun I : ISRINIB => I <| isratr := TA_NOEXS |>) Hsz _ _ _ _ _ s1 _ _); try done.
    - intros i s2 _. apply initialize_isr_body_ok.
    - intros s2 T l ((T' & l' & Hs2) & H2). split; [|exact H2].
      exists T, l. unfold isr_step. rewrite Hs2. done.
    - split; [|by apply H0]. exists (isrcb s1), (o_free_isrcb (obj s1)). unfold isr_step. rewrite Hs1. done.
    - rewrite Hs1. exact Hout. }
  destruct Hinit as (s' & E & ((T & l & Ho) & HQ') & Hst). exists T, l, (o_isr_queue (obj s')), s'. split_and!; try done.
  rewrite Ho in Hst. exact Hst.
Qed.
(** ** All objects *)

(** What the initialization of the objects leaves alone. *)
Record bstep s s' : Prop := {
  bs_K : KInv (initial tasks) s';
  bs_tcb : tcb_table s' = tcb_table s;
  bs_wq : ∀ q, wq s' q = wq s q;
  bs_var : var s' = var s;
  bs_cpu : cpu s' = cpu s }.

Lemma initial_no_waiters l s : KInv (initial l) s → no_waiters s.
Proof.
  intros HK q Hq. destruct (wq s q) as [|t L] eqn:Hl; [done|]. exfalso.
  assert (Ht : place (tcb_table s) (initial l) t = Some q) by (apply (k_wq _ _ HK); rewrite Hl; left).
  unfold place, initial in Ht. case_decide; [|done]. injection Ht as <-. done.
Qed.

Lemma bstep_ostep o' s0 s s' : ostep o' s s' → bstep s0 s → bstep s0 s' ∧ obj s' = o' ∧ tm s' = tm s.
Proof.
  intros Ho [B1 B2 B3 B4 B5]. pose proof (initial_no_waiters _ _ B1) as Hn. pose proof (KInv_ostep _ _ _ _ Ho Hn B1) as HK.
  destruct Ho as [Hs' Hq]. split_and!; [split; [done|by rewrite Hs'|intros q; by rewrite Hq|by rewrite Hs'|by rewrite Hs']|by rewrite Hs'..].
Qed.

(** The state in which the kernel starts. *)
Record kernel_started s : Prop := {
  kt_K : KInv (initial tasks) s;
  kt_tcb : ∀ t, (t < tnum_stsk)%nat → tcb_init t (active t) (tcb_table s t);
  kt_gone : ∀ t, (tnum_stsk ≤ t)%nat →
    noexs (tcb_table s t) ∧ tstat (tcb_table s t) = TS_DORMANT ∧ mutex_queue (tcb_table s t) = [];
  kt_ready : ∀ p, wq s (RDQ p) = starts p tasks;
  kt_var : var s = mkVAR None false true false true;
  kt_ctx : sense_context s = true;
  kt_free_tcb : o_free_tcb (obj s) = seq tnum_stsk (tnum_tsk - tnum_stsk);
  kt_kmm : o_kmm_brk (obj s) = kmm + kmmsz;
  kt_sem : started tnum_ssem tnum_sem sem_init (semcb s) (o_free_semcb (obj s));
  kt_flg : started tnum_sflg tnum_flg flg_init (flgcb s) (o_free_flgcb (obj s));
  kt_dtq : started tnum_sdtq tnum_dtq dtq_init (dtqcb s) (o_free_dtqcb (obj s));
  kt_pdq : started tnum_spdq tnum_pdq pdq_init (pdqcb s) (o_free_pdqcb (obj s));
  kt_mbx : started tnum_smbx tnum_mbx mbx_init (mbxcb s) (o_free_mbxcb (obj s));
  kt_mtx : started tnum_smtx tnum_mtx mtx_init (mtxcb s) (o_free_mtxcb (obj s));
  kt_mpf : started tnum_smpf tnum_mpf mpf_init (mpfcb s) (o_free_mpfcb (obj s));
  kt_cyc : started tnum_scyc tnum_cyc cyc_init (cyccb s) (o_free_cyccb (obj s));
  kt_alm : started tnum_salm tnum_alm alm_init (almcb s) (o_free_almcb (obj s));
  kt_isr : started tnum_sisr tnum_isr isr_init (isrcb s) (o_free_isrcb (obj s));
  kt_isr_queue : isr_queues tnum_sisr (o_isr_queue (obj s));
  kt_tm : cyc_tm tnum_scyc (tm s) }.

(** One step of [initialize_object]: a table is initialized. *)
Lemma init_step {C} {tb : Table C} init n m (G : nat → C → Prop) s0 s o :
  initializes s init n m G → (n ≤ m)%nat → bstep s0 s → obj s = o → outside m o →
  ∃ T l s', when m init s = RET () s' ∧ bstep s0 s' ∧ obj s' = put T l o ∧ tm s' = tm s ∧ started n m G T l.
Proof.
  intros Hi Hsz B <- Hout. destruct (Hi Hsz (initial_no_waiters _ _ (bs_K _ _ B)) Hout) as (T & l & s' & E & O & Hst).
  destruct (bstep_ostep _ _ _ _ O B) as (B' & Ho & Ht). by exists T, l, s'.
Qed.

Lemma initialize_object_ok s :
  wf_config → boot s → tm_last_index (tm s) = 0 → o_kmm_brk (obj s) = kmm + kmmsz →
  ∃ s', initialize_object s = RET () s' ∧ kernel_started s'.
Proof.
  intros Hwf HB Htm Hkmm. destruct (cf_sizes Hwf) as [(Z1 & Z2 & Z3 & Z4 & Z5 & Z6 & Z7 & Z8 & Z9 & Z10) Z11].
  destruct (bt_obj s HB) as [b1 b2 b3 b4 b5 b6 b7 b8 b9 b10 b11].
  destruct (initialize_task_ok s Hwf HB Htm) as (s1 & E1 & [K1 T1 G1 R1 O1 V1 C1 M1]).
  unfold initialize_object. rewrite (bind_RET _ _ _ _ _ E1). cbv zeta.
  assert (B1 : bstep s1 s1) by by split.
  destruct (init_step _ _ _ _ s1 s1 _ (initialize_semaphore_ok s1) Z2 B1 O1 b1) as (Ts & ls & s2 & E2 & B2 & O2 & M2 & S2).
  rewrite (bind_RET _ _ _ _ _ E2).
  destruct (init_step _ _ _ _ s1 s2 _ (initialize_eventflag_ok s2) Z3 B2 O2 b2) as (Tf & lf & s3 & E3 & B3 & O3 & M3 & S3).
  rewrite (bind_RET _ _ _ _ _ E3).
  destruct (init_step _ _ _ _ s1 s3 _ (initialize_dataqueue_ok s3) Z4 B3 O3 b3) as (Td & ld & s4 & E4 & B4 & O4 & M4 & S4).
  rewrite (bind_RET _ _ _ _ _ E4).
  destruct (init_step _ _ _ _ s1 s4 _ (initialize_pridataq_ok s4) Z5 B4 O4 b4) as (Tp & lp & s5 & E5 & B5 & O5 & M5 & S5).
  rewrite (bind_RET _ _ _ _ _ E5).
  destruct (init_step _ _ _ _ s1 s5 _ (initialize_mailbox_ok s5) Z6 B5 O5 b5) as (Tb & lb & s6 & E6 & B6 & O6 & M6 & S6).
  rewrite (bind_RET _ _ _ _ _ E6).
  destruct (init_step _ _ _ _ s1 s6 _ (initialize_mutex_ok s6) Z7 B6 O6 b6) as (Tm & lm & s7 & E7 & B7 & O7 & M7 & S7).
  rewrite (bind_RET _ _ _ _ _ E7).
  destruct (init_step _ _ _ _ s1 s7 _ (initialize_mempfix_ok s7) Z8 B7 O7 b7) as (Tx & lx & s8 & E8 & B8 & O8 & M8 & S8).
  rewrite (bind_RET _ _ _ _ _ E8).
  assert (Htm8 : tm_last_index (tm s8) = 0) by congruence.
  destruct (initialize_cyclic_ok (initial tasks) s8 Z9 (bs_K _ _ B8) Htm8) as (Tc & lc & s9 & E9 & X9 & S9 & K9 & M9); [by rewrite O8|].
  rewrite (bind_RET _ _ _ _ _ E9).
  assert (B9 : bstep s1 s9) by (destruct B8; unfold cyc_step in X9; split; [done|by rewrite X9..]).
  assert (O9 : obj s9 = put Tc lc (obj s8)) by by rewrite X9. rewrite O8 in O9. clear X9.
  destruct (init_step _ _ _ _ s1 s9 _ (initialize_alarm_ok s9) Z10 B9 O9 b9) as (Ta & la & s10 & E10 & B10 & O10 & M10 & S10).
  rewrite (bind_RET _ _ _ _ _ E10).
  destruct (initialize_isr_ok s10 Z11) as (Ti & li & Q & s11 & E11 & X11 & S11 & Q11); [by rewrite O10|by rewrite O10|].
  exists s11. split; [exact E11|]. unfold isr_step in X11. rewrite O10 in X11. destruct B10 as [K10 T10 W10 V10 C10].
  assert (K11 : KInv (initial tasks) s11).
  { rewrite X11. apply (KInv_obj _ s10 (fun _ => _)); [done|]. intros q Hq. right.
    apply (initial_no_waiters _ _ K10). by destruct q. }
  split; [exact K11|rewrite X11; simpl; rewrite ?T10, ?V10, ?C10, ?C1, ?V1, ?M10; try done..].
  - intros p. rewrite W10. apply R1.
  - unfold sense_context. simpl. rewrite C10, C1. apply HB.
Qed.
(** ** The invariant of the kernel *)

Section invariant.
Context (s : State) (Hwf : wf_config) (HS : kernel_started s).

Lemma started_no_waiters : no_waiters s.
Proof. eapply initial_no_waiters, kt_K, HS. Qed.
Let Hno := started_no_waiters.

(** An initialized table of a kind whose blocks start well. *)
Lemma started_kind {C D} {kd : Kind D} {tb : Table C} n m (G : nat → C → Prop) (f : D → C) :
  started n m G (fun i => f (cbs (obj s) i)) (frees (obj s)) → (∀ c, cb_atr c = attr (f c)) →
  (∀ i, (i < n)%nat → G i (f (cbs (obj s) i)) → attr (f (cbs (obj s) i)) ≠ TA_NOEXS ∧ cb_ok s i) → kind_inv (kd := kd) s.
Proof.
  intros [S1 S2 S3] Ha Hok. apply (kind_inv_started n (m - n)); [exact Hno| | |exact S3].
  - intros i Hi. unfold gone. rewrite Ha. by apply Hok, S1.
  - intros i Hi. unfold gone. rewrite Ha. by apply S2.
Qed.

Lemma started_sem : kind_inv (kd := sem_kind) s.
Proof.
  apply (started_kind (kd := sem_kind) _ _ _ (fun C => C) (kt_sem s HS)); [done|]. intros i Hi Hc. simpl in *. rewrite Hc. simpl.
  destruct (cf_sem Hwf i Hi) as (H1 & H2 & H3). split; [done|]. unfold sem_ok. simpl. by rewrite (Hno (SEMQ i)).
Qed.

Lemma started_flg : kind_inv (kd := flg_kind) s.
Proof.
  apply (started_kind (kd := flg_kind) _ _ _ (fun C => C) (kt_flg s HS)); [done|]. intros i Hi Hc. simpl in *. rewrite Hc. simpl.
  split; [by apply (cf_flg Hwf)|]. by apply flg_ok_empty, Hno.
Qed.

Lemma started_dtq : kind_inv (kd := dtq_kind) s.
Proof.
  apply (started_kind (kd := dtq_kind) _ _ _ (fun C => C) (kt_dtq s HS)); [done|]. intros i Hi Hc. simpl in *. rewrite Hc. simpl.
  destruct (cf_dtq Hwf i Hi) as [H1 H2]. split; [done|]. rewrite !Hno by done. split; [|done..|by left].
  by apply (dtq_ring_reset (mkDTQCB (dtqinib_table i) 0 0 0)).
Qed.

Lemma started_pdq : kind_inv (kd := pdq_kind) s.
Proof.
  apply (started_kind (kd := pdq_kind) _ _ _ fst (kt_pdq s HS)); [done|]. intros i Hi Hc. simpl in *. rewrite Hc. simpl.
  destruct (cf_pdq Hwf i Hi) as (H1 & H2 & H3). split; [done|]. rewrite !Hno by done. split; [|done..|by left].
  exists [], []. by apply (pdq_buf_reset (mkPDQCB (pdqinib_table i) 0 None 0 None)).
Qed.

Lemma started_mbx : kind_inv (kd := mbx_kind) s.
Proof.
  apply (started_kind (kd := mbx_kind) _ _ _ (fun C => C) (kt_mbx s HS)); [done|]. intros i Hi [Hc Hh]. simpl in *. rewrite Hc. simpl.
  split; [by apply (cf_mbx Hwf)|]. by intros _.
Qed.

Lemma started_mpf : kind_inv (kd := mpf_kind) s.
Proof.
  apply (started_kind (kd := mpf_kind) _ _ _ fst (kt_mpf s HS)); [done|]. intros i Hi Hc. simpl in *. rewrite Hc. simpl.
  destruct (cf_mpf Hwf i Hi) as (H1 & H2 & H3). split; [done|]. rewrite Hno by done. split; [|done].
  exists []. by apply (pool_reset (mkMPFCB (mpfinib_table i) (blkcnt (mpfinib_table i)) 0 INDEX_NULL)).
Qed.

(** The areas of the static objects lie outside the memory of the kernel. *)
Lemma started_pdq_areas : areas_ok (pdq_area (obj s)) (o_kmm_brk (obj s)).
Proof.
  rewrite (kt_kmm s HS). eapply areas_ok_less; [apply (cf_pdq_areas Hwf)|lia|]. intros i a. unfold pdq_area, pdq_noexs, static_area.
  destruct (kt_pdq s HS) as [S1 S2 _]. destruct (Nat.ltb_spec i tnum_spdq) as [Hi|Hi].
  - specialize (S1 i Hi) as Hc. unfold pdq_init in Hc. simpl in Hc. rewrite Hc. simpl. destruct (_ =? TA_NOEXS); simpl; [done|]. by destruct (_ =? 0).
  - specialize (S2 i Hi) as Hg. simpl in Hg. by rewrite Hg.
Qed.

Lemma started_mpf_areas : areas_ok (mpf_area (obj s)) (o_kmm_brk (obj s)).
Proof.
  rewrite (kt_kmm s HS). eapply areas_ok_less; [apply (cf_mpf_areas Hwf)|lia|]. intros i a. unfold mpf_area, mpf_noexs, static_area.
  destruct (kt_mpf s HS) as [S1 S2 _]. destruct (Nat.ltb_spec i tnum_smpf) as [Hi|Hi].
  - specialize (S1 i Hi) as Hc. unfold mpf_init in Hc. simpl in Hc. rewrite Hc. simpl. by destruct (_ =? TA_NOEXS).
  - specialize (S2 i Hi) as Hg. simpl in Hg. by rewrite Hg.
Qed.

Lemma started_messages : mbx_msgs (obj s).
Proof.
  destruct (kt_mbx s HS) as [S1 S2 _].
  assert (Hex : ∀ i, mbx_exists (obj s) i → pk_head (mbxcb s i) = 0).
  { intros i He. destruct (decide (i < tnum_smbx)%nat) as [Hi|Hi]; [by apply S1|]. destruct He. apply S2. lia. }
  split.
  - intros i He. exists []. by apply box_ok_empty, Hex.
  - intros i j x [He (L & Hc & Hx)]. rewrite Hex in Hc by done. exfalso. destruct L as [|y L]; [by apply not_elem_of_nil in Hx|].
    destruct Hc as (<- & Hn & _). done.
Qed.
Lemma started_tcb t :
  let T := tcb_table s t in mutex_queue T = [] ∧
  (if decide (t < tnum_stsk)%nat then
     ¬ noexs T ∧ bpriority T = ipriority (p_tinib T) ∧ priority T = ipriority (p_tinib T) ∧ 0 ≤ ipriority (p_tinib T) < 16
   else noexs T ∧ dormant s t).
Proof.
  simpl. case_decide as Ht.
  - destruct (kt_tcb s HS t Ht) as [H1 H2 H3 H4 H5 H6]. destruct (cf_tsk Hwf t Ht) as [C1 C2]. unfold noexs. by rewrite H1, H2, H3.
  - destruct (kt_gone s HS t) as (H1 & H2 & H3); [lia|]. split_and!; [done..|]. unfold dormant. by rewrite H2.
Qed.

Lemma started_mtx : mtx_inv s.
Proof.
  destruct (kt_mtx s HS) as [S1 S2 S3]. simpl in S1, S2. pose proof started_tcb as HT.
  assert (Hm : ∀ i, ¬ mtx_gone s i → (i < tnum_smtx)%nat).
  { intros i Hi. destruct (decide (i < tnum_smtx)%nat) as [|Hn]; [done|]. destruct Hi. apply S2. lia. }
  assert (Hl : ∀ i, ¬ mtx_gone s i → mtxcb s i = mkMTXCB (mtxinib_table i) None) by (intros i Hi; by apply S1, Hm).
  split; try (intros t; destruct (HT t) as [Hq Ht]; rewrite ?Hq).
  - intros He. case_decide; [by destruct Ht|by destruct Ht].
  - intros Hd. case_decide; destruct Ht as [? Ht]; [|by destruct Hd]. destruct Ht as (-> & _ & Hp). exact Hp.
  - intros He. case_decide; [apply Ht|by destruct Ht].
  - intros _ He. case_decide; [by destruct Ht as (_ & ? & ? & _)|by destruct Ht].
  - rewrite (kt_free_tcb s HS). intros [Hle _]%elem_of_seq. rewrite decide_False in Ht by lia. apply Ht.
  - rewrite (kt_free_tcb s HS). apply NoDup_seq.
  - intros i _. rewrite elem_of_nil. split; [done|]. intros [Hi Hx]. by rewrite Hl in Hx.
  - by intros i.
  - apply NoDup_nil_2.
  - done.
  - by intros i ?%not_elem_of_nil.
  - intros _ Hd. unfold mutex_calc_priority. rewrite Hq. simpl. case_decide; destruct Ht as [? Ht]; [|by destruct Hd].
    by destruct Ht as (-> & -> & _).
  - intros i. rewrite (started_no_waiters (MTXQ i)) by done. by intros ?%not_elem_of_nil.
  - intros Hi _. rewrite Hl by done. simpl. apply (cf_mtx Hwf). by apply Hm.
  - rewrite S3. intros [Hle _]%elem_of_seq. by apply S2.
  - rewrite S3. apply NoDup_seq.
Qed.

Lemma started_isr : isr_inv s.
Proof.
  destruct (kt_isr s HS) as [S1 S2 S3]. destruct (kt_isr_queue s HS) as [Q1 Q2 Q3]. simpl in S1, S2. unfold isr_init in S1.
  split; rewrite ?S3.
  - intros q i. rewrite Q1. destruct (decide (i < tnum_sisr)%nat) as [Hi|Hi].
    + rewrite S1 by done. pose proof (cf_isr Hwf i Hi). naive_solver.
    + rewrite S2 by lia. naive_solver.
  - exact Q2.
  - intros q. apply (isr_sorted_ext sisrinib_table); [|apply Q3]. intros i [Hi _]%Q1. by rewrite S1.
  - intros i [Hle _]%elem_of_seq. by apply S2.
  - apply NoDup_seq.
Qed.

Lemma started_cyc : handler_inv (hd := cyc_handler) s.
Proof.
  destruct (kt_cyc s HS) as [S1 S2 S3]. simpl in S1, S2. apply (handler_inv_started tnum_scyc (tnum_cyc - tnum_scyc)); [|exact S2|exact S3].
  destruct (kt_tm s HS) as [_ He Hc]. intros i.
  assert (Hev : is_Some (evt (tm s) (TM_CYC i)) ↔ (i < tnum_scyc)%nat ∧ cyc_sta i = true).
  { rewrite He. simpl. destruct (Nat.ltb_spec i tnum_scyc), (cyc_sta i); simpl; (split; [intros [x Hx]|intros [? ?]]); try done; (lia || by eexists). }
  split; simpl; rewrite Hev; [|intros [H1 H2]; by apply Hc]. unfold h_gone. simpl.
  destruct (decide (i < tnum_scyc)%nat) as [Hi|Hi].
  - destruct (S1 i Hi) as (E1 & E2 & _). rewrite E1, E2. pose proof (cf_cyc Hwf i Hi). naive_solver.
  - rewrite S2 by lia. naive_solver.
Qed.

Lemma started_alm : handler_inv (hd := alm_handler) s.
Proof.
  destruct (kt_alm s HS) as [S1 S2 S3]. simpl in S1, S2. apply (handler_inv_started tnum_salm (tnum_alm - tnum_salm)); [|exact S2|exact S3].
  intros i. split; simpl; rewrite (ct_evt _ _ (kt_tm s HS)); [|by intros []]. split; [by intros []|].
  unfold h_gone. simpl. destruct (decide (i < tnum_salm)%nat) as [Hi|Hi]; [by rewrite (S1 i Hi); intros []|].
  intros [Hg _]. destruct Hg. apply S2. lia.
Qed.

Lemma started_kernel_inv : kernel_inv s.
Proof.
  split; [|apply started_sem|apply started_flg|apply started_dtq|apply started_pdq|apply started_pdq_areas|apply started_mpf|
    apply started_mpf_areas|apply started_mbx|apply started_messages|apply started_mtx|apply started_isr|apply started_cyc|apply started_alm].
  unfold kmm_inv. rewrite (kt_kmm s HS). pose proof (cf_kmm Hwf). lia.
Qed.
End invariant.
(** ** The start of the kernel *)

(** Code of the target and of the application that does not touch the data of
    the kernel and stays outside tasks. *)
Definition outside_kernel (m : K ()) : Prop :=
  ∀ s, ∃ f, m s = RET () (upd_cpu f s) ∧ c_sense_context (f (cpu s)) = c_sense_context (cpu s).

(** The dispatcher lets [t] run. *)
Definition dispatched t s : State :=
  upd_cpu (fun c => c <| c_sense_context := false |> <| c_lock := false |>) (upd_var (fun v => v <| v_p_runtsk := Some t |>) s).

(** The tasks that start, in the order in which they will run. *)
Definition start_order : list nat := mjoin ((fun i => starts (Z.of_nat i) tasks) <$> seq 0 16).

Lemma initial_settled l : settled (initial l).
Proof. intros t. unfold initial. by case_decide. Qed.

Lemma started_cpu c s :
  kernel_started s → c_sense_context c = true → kernel_started (s <| cpu := c |>).
Proof.
  intros [K T G R V C F1 F2 F3 F4 F5 F6 F7 F8 F9 F10 F11 F12 F13 F14] Hc. split; try done.
  apply (KInv_ctx _ s c (var s) K).
Qed.

Lemma boot_upd f s :
  boot s → c_sense_context (f (cpu s)) = c_sense_context (cpu s) → boot (upd_cpu f s).
Proof. intros [] Hf. split; try done. unfold sense_context in *. simpl. congruence. Qed.

Lemma started_Mid s : wf_config → kernel_started s → Mid kernel_inv (initial tasks) s.
Proof. intros Hwf HS. split; [apply HS|apply initial_settled|by apply started_kernel_inv]. Qed.

Lemma started_schedtsk s : kernel_started s → p_schedtsk s = hd_error start_order.
Proof.
  intros HS. rewrite (sched_schedtsk _ _ _ (k_sched _ _ (kt_K s HS))). unfold ready_list, start_order. do 2 f_equal.
  apply list_fmap_ext. intros _ i _. apply HS.
Qed.

(** The first task runs. *)
Lemma dispatched_OK s t : wf_config → kernel_started s → p_schedtsk s = Some t → OK kernel_inv (dispatched t s).
Proof.
  intros Hwf HS Hs. destruct (started_Mid s Hwf HS) as [HK Hset HO]. exists (initial tasks). unfold dispatched.
  rewrite upd_cpu_ctx. set (c := _ <| c_lock := false |>). rewrite upd_var_ctx. simpl.
  change (Inv kernel_inv (initial tasks) (s <| cpu := c |> <| var := (var s) <| v_p_runtsk := Some t |> |>)).
  split; [by apply KInv_ctx|done|by apply (objs_ctx s)| |intros _; by left].
  intros _. exists t. split; [done|]. rewrite (sched_schedtsk _ _ _ (k_sched _ _ HK)) in Hs.
  apply ready_head in Hs as (p & _ & Hp & _). apply hd_error_elem, (k_wq _ _ HK) in Hp.
  unfold place, initial in Hp |- *. by case_decide.
Qed.

(** C3: Starting the kernel succeeds: from a cleared memory, for every
    configuration the configurator accepts, [sta_ker] runs through all the
    initialization routines and reaches [start_dispatch]; there the invariant
    of the whole kernel holds, the tasks with TA_ACT are ready, by priority
    and in the order of the configuration, [p_schedtsk] is the first of them,
    and when the dispatcher lets it run the kernel is in a state in which
    service calls may be made. *)
Theorem sta_ker_starts (target_initialize call_inirtn : K ()) s :
  wf_config → boot s → outside_kernel target_initialize → outside_kernel call_inirtn →
  ∃ s' k, sta_ker target_initialize call_inirtn s = YIELD StartDispatch s' k ∧
    Yield kernel_inv s' ∧ c_kerflg (cpu s') = true ∧
    (∀ p, wq s' (RDQ p) = starts p tasks) ∧ p_schedtsk s' = hd_error start_order ∧
    ∀ t, p_schedtsk s' = Some t → OK kernel_inv (dispatched t s').
Proof.
  intros Hwf HB Ht Hi. destruct (Ht s) as (f & E1 & Hf). unfold sta_ker. rewrite (bind_RET _ _ _ _ _ E1).
  pose proof (boot_upd f s HB Hf) as HB1. do 2 (erewrite bind_RET by reflexivity). set (s2 := upd_tm _ _).
  assert (HB2 : boot s2) by (by destruct HB1 as [[] ? ? ? ?]; split; [split|..]).
  destruct (initialize_object_ok s2 Hwf HB2) as (s3 & E3 & HS); [done..|]. rewrite (bind_RET _ _ _ _ _ E3).
  destruct (Hi s3) as (f3 & E4 & Hf3). rewrite (bind_RET _ _ _ _ _ E4). erewrite bind_RET by reflexivity.
  set (s5 := upd_cpu _ _). assert (HS5 : kernel_started s5).
  { apply (started_cpu _ s3 HS). simpl. rewrite Hf3. apply HS. }
  exists s5, (fun _ => UB). split_and!; [done|by exists (initial tasks); apply started_Mid|done|apply HS5|by apply started_schedtsk|].
  intros t Hs. by apply dispatched_OK.
Qed.
End startup.

(** ** An example configuration

    Two static tasks, started in the order 2, 1, and one static and one
    dynamic object of every other kind. *)
Module StartExample.

#[local] Instance cfg : Config := {|
  tmax_tskid := 3; tmax_stskid := 2; torder_table := [2; 1];
  tinib_table := fun i => mkTINIB TA_ACT 0 4 5 1024 4096 0 0;
  tmax_semid := 2; tmax_ssemid := 1; seminib_table := fun _ => mkSEMINIB 0 1 1;
  tmax_flgid := 2; tmax_sflgid := 1; flginib_table := fun _ => mkFLGINIB 0 0;
  tmax_dtqid := 2; tmax_sdtqid := 1; dtqinib_table := fun _ => mkDTQINIB 0 1 1;
  tmax_pdqid := 2; tmax_spdqid := 1; pdqinib_table := fun _ => mkPDQINIB 0 1 1 1;
  tmax_mbxid := 2; tmax_smbxid := 1; mbxinib_table := fun _ => mkMBXINIB 0 1;
  tmax_mpfid := 2; tmax_smpfid := 1; mpfinib_table := fun _ => mkMPFINIB 0 1 4 8 1;
  tmax_mtxid := 2; tmax_smtxid := 1; mtxinib_table := fun _ => mkMTXINIB 0 0;
  tmax_cycid := 2; tmax_scycid := 1; cycinib_table := fun _ => mkCYCINIB TA_STA 0 4 10 5;
  tmax_almid := 2; tmax_salmid := 1; alminib_table := fun _ => mkALMINIB 0 0 4;
  tmax_isrid := 2; tnum_sisr := 1; sisrinib_table := fun _ => mkISRINIB 0 0 33 0 4 1;
  isr_queue_list := [(33, 0%nat); (40, 1%nat)];
  TIC_NUME := 1; TIC_DENO := 1; kmm := 65536; kmmsz := 4096;
  TARGET_TSKATR := 0; TARGET_ISRATR := 0;
  VALID_INTNO_CREISR := fun n => (32 <=? n) && (n <=? 64);
  VALID_INTNO_DISINT := fun n => (32 <=? n) && (n <=? 64);
  TMIN_INTPRI := -31; cfgint_tbl := fun n => n =? 33;
  FUNC_ALIGNED := fun f => Z.land f 3 =? 0; FUNC_NONNULL := fun f => negb (f =? 0);
  STKSZ_ALIGNED := fun n => Z.land n 7 =? 0; STACK_ALIGNED := fun n => Z.land n 7 =? 0;
  MPF_ALIGNED := fun n => Z.land n 3 =? 0; MB_ALIGNED := fun n => Z.land n 3 =? 0;
  TARGET_MIN_STKSZ := 256;
  ROUND_STK_T := fun n => u32 (Z.land (u32 (n + 7)) (Z.lnot 7));
  ROUND_MPF_T := fun n => u32 (Z.land (u32 (n + 3)) (Z.lnot 3)) |}.

(** Outside its table a block does not exist, inside it is cleared. *)
Definition cleared {A} (mk : Z → A) (n i : nat) : A := mk (if (i <? n)%nat then 0 else TA_NOEXS).

Definition memory : State := {|
  tcb_table := cleared (fun a => mkTCB (mkTINIB a 0 0 0 0 0 0 0) TS_DORMANT 0 0 false false false 0 None [] false) 3;
  wq := fun _ => []; winfos := fun _ => winfo_init; next_frame := 0; sch := mkSCH None 0;
  var := mkVAR None false false false false; cpu := mkCPU true true 0 (fun _ => false) false;
  tm := mkTM 0 0 0 0 0 (fun _ => mkTMEVTN 0 (TM_CYC 0)) (fun _ => mkTMEVTB 0 wait_tmout_cb 0);
  obj := {|
    o_semcb := cleared (fun a => mkSEMCB (mkSEMINIB a 0 0) 0) 2; o_free_semcb := [];
    o_flgcb := cleared (fun a => mkFLGCB (mkFLGINIB a 0) 0) 2; o_free_flgcb := [];
    o_dtqcb := cleared (fun a => mkDTQCB (mkDTQINIB a 0 0) 0 0 0) 2; o_free_dtqcb := []; o_dtqmb := fun _ _ => 0;
    o_pdqcb := cleared (fun a => mkPDQCB (mkPDQINIB a 0 0 0) 0 None 0 None) 2; o_free_pdqcb := [];
    o_pdqmb := fun _ _ => mkPDQMB None 0 0;
    o_mbxcb := cleared (fun a => mkMBXCB (mkMBXINIB a 0) 0 0) 2; o_free_mbxcb := []; o_msg := fun _ => mkT_MSG_PRI 0 0;
    o_mpfcb := cleared (fun a => mkMPFCB (mkMPFINIB a 0 0 0 0) 0 0 0) 2; o_free_mpfcb := []; o_mpfmb := fun _ _ => 0;
    o_mtxcb := cleared (fun a => mkMTXCB (mkMTXINIB a 0) None) 2; o_free_mtxcb := [];
    o_cyccb := cleared (fun a => mkCYCCB (mkCYCINIB a 0 0 0 0) false 0) 2; o_free_cyccb := [];
    o_almcb := cleared (fun a => mkALMCB (mkALMINIB a 0 0) false) 2; o_free_almcb := [];
    o_isrcb := cleared (fun a => mkISRINIB a 0 0 0 0 0) 3; o_free_isrcb := []; o_isr_queue := fun _ => [];
    o_free_tcb := []; o_kmm_brk := 0 |} |}.

Lemma below_1 (P : nat → Prop) : P O → ∀ i, (i < 1)%nat → P i.
Proof. intros H i Hi. by replace i with O by lia. Qed.

Lemma areas_1 {A} (ini : nat → A) (area : A → option Z) brk :
  (∀ a, area (ini O) = Some a → ¬ kmm ≤ a < brk) → areas_ok (static_area 1 ini area) brk.
Proof.
  intros H. split; [intros [|i] a; [apply H|done]|]. by intros [|i] [|j] a.
Qed.

Ltac evaluate := simpl; unfold sizeof_PDQMB, sizeof_MPFMB, TA_NOEXS, TMAX_MAXSEM, TA_ACT, TA_STA; lia.

Lemma cfg_wf : wf_config.
Proof.
  split; try (intros i _; evaluate).
  - vm_compute. lia.
  - vm_compute. apply Permutation_swap.
  - apply areas_1. intros a [= <-]. vm_compute. by intros [].
  - apply areas_1. intros a [= <-]. vm_compute. by intros [].
  - done.
Qed.

Lemma memory_boot : boot memory.
Proof.
  split; [|done|..|done].
  - split; try done; (split; [|done]); intros i Hi; simpl;
      first [by rewrite (proj2 (Nat.ltb_ge i 2) Hi)|by rewrite (proj2 (Nat.ltb_ge i 3) Hi)].
  - intros t. by unfold memory, cleared.
  - intros t Ht. simpl. by rewrite (proj2 (Nat.ltb_ge t 3) Ht).
Qed.

Lemma nothing_outside : outside_kernel (ret ()).
Proof. intros s. exists (fun c => c). by destruct s. Qed.

Lemma sta_ker_starts_witness :
  wf_config ∧ boot memory ∧ ∃ s' k, sta_ker (ret ()) (ret ()) memory = YIELD StartDispatch s' k ∧
    Yield kernel_inv s' ∧ p_schedtsk s' = Some 1%nat ∧ OK kernel_inv (dispatched 1 s').
Proof.
  split; [apply cfg_wf|]. split; [apply memory_boot|].
  destruct (sta_ker_starts (ret ()) (ret ()) memory cfg_wf memory_boot nothing_outside nothing_outside)
    as (s' & k & E & HY & _ & _ & Hs & HOK).
  exists s', k. assert (H1 : p_schedtsk s' = Some 1%nat) by (rewrite Hs; by vm_compute). auto.
Defined.
End StartExample.
