(* ===== verification/Scheduling.v ===== *)
(** * Theorems about scheduling, time events and waiting

    What the operations of kernel/task.c, time_event.c and wait.c do, each as
    one statement about the state they are called in and the state they leave,
    with the example kernel of Kernel.v as witness. *)

From S2P Require Import Prelude Queue Data Kmonad TimeEvent Task Wait Core Release Priority Service Kernel.
Open Scope Z_scope.

Section scheduling.
Context {cfg : Config}.
Implicit Types (s : State) (g : nat → tst) (t w : nat) (q : qid).

(** ** The ready queue *)

(** [bitmap_search] finds the lowest bit that is set in a 16-bit map:
    the bit is set and no lower one is. *)
Theorem bitmap_search_lowest_bit (bitmap : Z) (H : 0 < bitmap < 2^16) :
  let r := bitmap_search bitmap in
  0 ≤ r < 16 ∧ Z.testbit bitmap r = true ∧ ∀ i, 0 ≤ i < r → Z.testbit bitmap i = false.
Proof.
  destruct (bitmap_search_lowest bitmap H) as (H1 & H2 & H3). split_and!; try done.
  apply (lowest_bit_range bitmap _ 16); [lia|done|by split].
Qed.

(** What the scheduler promises: the task to run is the first task of the
    first priority that has one, and a dispatch is asked for exactly when this
    is another task than before and dispatching is enabled. *)
Record scheduled s (b : bool) s' : Prop := {
  sd_ok : sched_ok (tcb_table s') (wq s') (sch s');
  sd_head : p_schedtsk s' = hd_error (ready_list (wq s'));
  sd_dispatch : b = true ↔ p_schedtsk s' ≠ p_schedtsk s ∧ dspflg s = true }.

Lemma resched_scheduled s s' c' :
  sched_ok (tcb_table s') (wq s') c' → sch s' = c' → scheduled s (resched s c') s'.
Proof.
  intros Hc <-. split; [done|by apply Hc|]. unfold resched.
  rewrite andb_true_iff, negb_true_iff, bool_decide_eq_false. done.
Qed.

(** [make_runnable] puts a task that is in no ready queue at the end
    of the one of its priority, and the scheduler's choice is right again. *)
Theorem make_runnable_correct s t
    (Hok : sched_ok (tcb_table s) (wq s) (sch s)) (Hno : ∀ p, t ∉ wq s (RDQ p))
    (Hp : 0 ≤ priority (tcb_table s t) < 16) :
  ∃ b s', make_runnable t s = RET b s' ∧ scheduled s b s' ∧
    s' = s <| wq := Fam.queue_insert_prev (RDQ (priority (tcb_table s t))) t (wq s) |> <| sch := sch s' |>.
Proof.
  destruct (make_runnable_eq s t Hok Hno Hp) as (c' & Hc & E). eexists _, _. split; [exact E|].
  split; [by apply resched_scheduled|done].
Qed.

(** [make_non_runnable] takes a task off its ready queue, and the
    scheduler's choice is right again, also when no task is left. *)
Theorem make_non_runnable_correct s t
    (Hok : sched_ok (tcb_table s) (wq s) (sch s))
    (Hin : t ∈ wq s (RDQ (priority (tcb_table s t)))) :
  ∃ b s', make_non_runnable t s = RET b s' ∧ scheduled s b s' ∧
    s' = s <| wq := Fam.queue_delete t (wq s) |> <| sch := sch s' |>.
Proof.
  destruct (make_non_runnable_eq s t Hok Hin) as (c' & Hc & E). eexists _, _. split; [exact E|].
  split; [by apply resched_scheduled|done].
Qed.

(** [rotate_ready_queue] moves the first task of a priority behind
    the others of that priority and changes no other queue; the scheduler's
    choice follows. *)
Theorem rotate_ready_queue_correct s pri
    (Hok : sched_ok (tcb_table s) (wq s) (sch s)) (Hp : 0 ≤ pri < 16) (Hnd : NoDup (wq s (RDQ pri))) :
  ∃ b s', rotate_ready_queue pri s = RET b s' ∧ scheduled s b s' ∧ tcb_table s' = tcb_table s ∧
    (∀ q, q ≠ RDQ pri → wq s' q = wq s q) ∧
    wq s' (RDQ pri) = tail (wq s (RDQ pri)) ++ option_list (head (wq s (RDQ pri))).
Proof.
  destruct (rotate_ready_queue_eq s pri Hok Hp Hnd) as (c' & Hc & E). eexists _, _. split; [exact E|].
  split; [by apply resched_scheduled|]. split; [done|]. simpl.
  destruct (wq s (RDQ pri)) as [|x [|y l]] eqn:Hl; [by rewrite Hl|by rewrite Hl|].
  unfold Fam.queue_insert_prev. split; [|by rewrite !fn_lookup_insert].
  intros q Hq. by rewrite !fn_lookup_insert_ne by congruence.
Qed.

(** C4: [change_priority] keeps the invariant of tasks, queues and time
    events.  A runnable task becomes, among those of its new priority, the
    first if [mtxmode] is true and the last if it is false; a task that waits in
    a queue in priority order stands behind those of a priority as high and
    before the others; all other tasks keep their order in every queue, and
    nobody enters or leaves a wait queue.  The task to run is the first of the
    ready queues, and the result says whether it is another one than before
    while dispatching is enabled.  Only the priority of that task changes. *)
Theorem change_priority_correct g s t (newpri : Z) (mtxmode : bool)
    (HK : KInv g s) (Hset : settled g) (Hd : g t ≠ Dormant) (Hp : 0 ≤ newpri < 16) :
  ∃ b s', change_priority t newpri mtxmode s = RET b s' ∧ KInv g s' ∧
    tcb_table s' = <[t := (tcb_table s t) <| priority := newpri |>]> (tcb_table s) ∧
    (g t = Runnable → ∀ q, wq s' q =
      let others := without t (wq s q) in
      if decide (q = RDQ newpri) then (if mtxmode then t :: others else others ++ [t]) else others) ∧
    (g t ≠ Runnable → ∀ q, sorted_queue g s t = Some q → ∃ l1 l2,
      without t (wq s q) = l1 ++ l2 ∧ wq s' q = l1 ++ t :: l2 ∧
      Forall (fun x => priority (tcb_table s x) ≤ newpri) l1 ∧ Forall (fun x => newpri < priority (tcb_table s x)) l2) ∧
    (g t ≠ Runnable → ∀ q, sorted_queue g s t ≠ Some q → wq s' q = wq s q) ∧
    (∀ q x, is_ready_queue q = false → x ∈ wq s' q ↔ x ∈ wq s q) ∧
    obj s' = obj s ∧ tm s' = tm s ∧ winfos s' = winfos s ∧
    p_schedtsk s' = hd_error (ready_list (wq s')) ∧
    b = negb (bool_decide (p_schedtsk s' = p_schedtsk s)) && dspflg s.
Proof.
  destruct (change_priority_ok g s t newpri mtxmode HK (Hset t) Hd Hp) as (b & s' & E & []).
  destruct (change_priority_moves g s t newpri mtxmode b s' HK (Hset t) Hd Hp E) as [(M1 & M2 & M3) Hb].
  exists b, s'. split_and!; try done. apply (sched_schedtsk _ _ _ (k_sched _ _ rp_inv)).
Qed.

(** ** Time events *)

(** C39: Registering and cancelling a time event are insertion and deletion
    in the finite map from blocks to event times that the heap stands for; the
    heap keeps its order and its index back pointers, and the loops end. *)
Theorem tmevt_heap_is_a_map m b (t : Z) (Hok : heap_ok m) :
  (evt m b = None → ∃ m', tmevtb_insert b t m = Some m' ∧ heap_ok m' ∧
    ∀ b', evt m' b' = if decide (b' = b) then Some t else evt m b') ∧
  (evt m b = Some t → ∃ m', tmevtb_delete b m = Some m' ∧ heap_ok m' ∧
    ∀ b', evt m' b' = if decide (b' = b) then None else evt m b').
Proof.
  split; intros Hb.
  - destruct (tmevtb_insert_ok m b t Hok Hb) as (m' & E & H1 & H2 & _). by exists m'.
  - destruct (tmevtb_delete_ok m b t Hok Hb) as (m' & E & H1 & H2 & _). by exists m'.
Qed.

(** The top of the heap is an event with the earliest time of all the
    events registered, and [tmevtb_delete_top] takes off that one only. *)
Theorem tmevt_top_is_earliest m (Hok : heap_ok m) (Hne : 0 < tm_last_index m) :
  let b := p_tmevtb (tm_heap m 1) in
  evt m b = Some (ev_time (tm_heap m 1)) ∧
  (∀ b' (t : Z), evt m b' = Some t → EVTTIM_LE m (ev_time (tm_heap m 1)) t = true) ∧
  ∃ m', tmevtb_delete_top m = Some m' ∧ heap_ok m' ∧
    ∀ b', evt m' b' = if decide (b' = b) then None else evt m b'.
Proof.
  intros b. destruct (heap_top m Hok Hne) as [H1 H2]. split; [done|]. split.
  - intros b' t Hb. apply Z.leb_le. by eapply H2.
  - destruct (tmevtb_delete_top_ok m Hok Hne) as (m' & E & H3 & H4 & _). by exists m'.
Qed.
(** Event times are compared on the circle of 32-bit times relative to
    [min_time]: for times less than a full turn ahead of it the macro is the
    order of the distances, whatever wraps around. *)
Theorem evttim_lt_order m (a b : Z) (Ha : 0 ≤ a < 2^32) (Hb : 0 ≤ b < 2^32) :
  EVTTIM_LT m (u32 (tm_min_time m + a)) (u32 (tm_min_time m + b)) = (a <? b) ∧
  EVTTIM_LE m (u32 (tm_min_time m + a)) (u32 (tm_min_time m + b)) = (a <=? b).
Proof.
  assert (Hk : ∀ x, 0 ≤ x < 2^32 → evtkey m (u32 (tm_min_time m + x)) = x).
  { intros x Hx. unfold evtkey, u32. rewrite Zminus_mod_idemp_l.
    replace (tm_min_time m + x - tm_min_time m) with x by lia. by apply Z.mod_small. }
  unfold EVTTIM_LT, EVTTIM_LE. by rewrite !Hk.
Qed.

(** An event registered with a relative time, at most TMAX_RELTIM, is due
    exactly that time after the base time, even across a wrap of the clock,
    when the base time is at most 2^31 ahead of [min_time]. *)
Theorem tmevtb_enqueue_time s b (reltim : Z) cb a
    (Hok : heap_ok (tm s)) (Hb : evt (tm s) b = None) (Ht : 0 ≤ reltim ≤ TMAX_RELTIM)
    (Hbase : evtkey (tm s) (base_time (tm s)) ≤ 2^31) :
  ∃ m', tmevtb_enqueue b reltim cb a s = RET () (upd_tm (fun _ => m') s) ∧ heap_ok m' ∧
    (∀ b', b' ≠ b → evt m' b' = evt (tm s) b') ∧
    callback (tm_tmevtb m' b) = cb ∧ arg (tm_tmevtb m' b) = a ∧
    ∃ t : Z, evt m' b = Some t ∧ evtkey m' t = evtkey (tm s) (base_time (tm s)) + reltim.
Proof.
  destruct (tmevtb_enqueue_ok s b reltim cb a Hok Hb) as (m' & E & []); [lia|].
  exists m'. split_and!; try done. eexists. split; [done|]. unfold evtkey in *.
  destruct rg_clock as [-> _]. unfold u32, TMAX_RELTIM in *. rewrite Zminus_mod_idemp_l.
  replace (base_time (tm s) + reltim - tm_min_time (tm s)) with ((base_time (tm s) - tm_min_time (tm s)) + reltim) by lia.
  pose proof (Z.mod_pos_bound (base_time (tm s) - tm_min_time (tm s)) (2^32) eq_refl).
  rewrite <- Zplus_mod_idemp_l. apply Z.mod_small. lia.
Qed.

(** ** Waiting *)

(** The timer of a frame no task waits with any more is off the heap. *)
Lemma no_wait_no_timer g s w : KInv g s → (∀ t, frame_of (g t) ≠ Some w) → evt (tm s) (TM_TSK w) = None.
Proof.
  intros HK Hw. destruct (evt (tm s) (TM_TSK w)) eqn:He; [|done]. exfalso.
  destruct (proj1 (k_timer _ _ HK w)) as (t & c & susp & Hg); [by eexists|]. apply (Hw t). by rewrite Hg.
Qed.

Lemma released_frame g s t w c susp tmr : KInv g s → g t = Waiting w c susp tmr →
  ∀ t', frame_of ((<[t := after_wait susp]> g) t') ≠ Some w.
Proof.
  intros HK Hg t'. destruct (decide (t' = t)) as [->|Hne].
  - rewrite fn_lookup_insert. by destruct susp.
  - rewrite fn_lookup_insert_ne by done. apply (frame_free g s t w HK); [by rewrite Hg|done].
Qed.

(** A wait has ended with [ercd]: the task is runnable, or suspended if it was
    suspended while waiting, it is in no wait queue, its time-out is cancelled,
    its call will return [ercd], nobody else is affected, and a dispatch is
    asked for when it should run now. *)
Record wait_over g s t w (susp : bool) (ercd : Z) (b : bool) s' : Prop := {
  wo_inv : KInv (<[t := if susp then Suspended else Runnable]> g) s';
  wo_queue : ∀ q, is_ready_queue q = false → wq s' q = without t (wq s q);
  wo_timer : evt (tm s') (TM_TSK w) = None;
  wo_ercd : winfo (winfos s' w) = WERCD ercd;
  wo_tcb : ∀ t', t' ≠ t → tcb_table s' t' = tcb_table s t';
  wo_obj : obj s' = obj s;
  wo_dispatch : (b = true → dspflg s = true) ∧ (b = false → dspflg s = true → p_schedtsk s' = p_schedtsk s) }.

Lemma released_over g s t w c susp tmr ercd b s' :
  KInv g s → g t = Waiting w c susp tmr → released g s t w susp ercd b s' → wait_over g s t w susp ercd b s'.
Proof.
  intros HK Hg (R1 & R2 & R3 & R4 & R5 & R6). split; try done.
  - eapply no_wait_no_timer; [exact R1|by eapply released_frame].
  - rewrite R4. simpl. by rewrite fn_lookup_insert.
  - symmetry. apply R2.
Qed.

(** [wait_complete] of a task that was taken off its wait queue ends its
    wait with E_OK; [wait_release] of any waiting task ends it with E_RLWAI and
    takes it off its queue. *)
Theorem wait_ended g s t w c (susp : bool) tmr
    (HK : KInv g s) (Hg : g t = Waiting w c susp tmr) (Htmr : tmr ≠ Fired) :
  ((∀ q, c ≠ WOBJ q) → ∃ b s', wait_complete t s = RET b s' ∧ wait_over g s t w susp E_OK b s') ∧
  ((∀ q, c ≠ Detached q) → ∃ b s', wait_release t s = RET b s' ∧ wait_over g s t w susp E_RLWAI b s').
Proof.
  split; intros Hc.
  - destruct (wait_complete_ok g s t w c susp tmr HK Hg Hc Htmr) as (b & s' & E & HR).
    exists b, s'. split; [exact E|by eapply released_over].
  - destruct (wait_release_ok g s t w c susp tmr HK Hg Hc Htmr) as (b & s' & E & HR).
    exists b, s'. split; [exact E|by eapply released_over].
Qed.

(** [init_wait_queue] ends the wait of every task in the queue and of no
    other: the queue is empty and each of them is runnable or suspended. *)
Theorem init_wait_queue_correct g s q
    (HK : KInv g s) (Hset : settled g) (Hq : is_ready_queue q = false) (Hhd : header_ok s q = true) :
  ∃ b s' g', init_wait_queue q s = RET b s' ∧ KInv g' s' ∧ settled g' ∧ wq s' q = [] ∧
    (∀ t, t ∈ wq s q → g' t = Runnable ∨ g' t = Suspended) ∧
    (∀ t, t ∉ wq s q → g' t = g t) ∧ obj s' = obj s ∧
    (b = true → dspflg s = true) ∧ (b = false → dspflg s = true → p_schedtsk s' = p_schedtsk s).
Proof.
  destruct (init_wait_queue_ok g s q HK Hset Hq Hhd) as (b & s' & g' & E & HK' & Hset' & HF & [W1 W2] & Hnil & Hg').
  exists b, s', g'. split_and!; try done.
  - intros t Ht. destruct (wq_waiting g s q t HK Hq Ht) as (w & susp & tmr & Hg). rewrite Hg', Hg. simpl.
    rewrite decide_True by done. destruct susp; [by right|by left].
  - intros t Ht. rewrite Hg'. destruct (g t) as [| | | |w [| |q'|q'] susp tmr] eqn:Hg; try done. simpl.
    rewrite decide_False; [done|]. intros ->. apply Ht. by eapply waiting_wq.
  - symmetry. apply HF.
Qed.

(** [wobj_make_wait_tmout] puts the running task to sleep: it waits in the queue, in priority order when the object has TA_TPRI,
    with a timer exactly when the time-out is a positive time, and it has left
    the ready queue. *)
Theorem wobj_make_wait_tmout_correct g s t w q (tmout : Z)
    (HK : KInv g s) (Hg : g t = Runnable) (Hrun : p_runtsk s = Some t) (Hw : (w < next_frame s)%nat)
    (Hfree : ∀ t', frame_of (g t') ≠ Some w) (Hq : is_wobjcb q = true) (Hto : -1 ≤ tmout ≤ TMAX_RELTIM) (Hpol : tmout ≠ 0) :
  let tmr := if 0 <? tmout then Timer else NoTimer in
  ∃ s', (set_tstat t (enc (Waiting w (WOBJ q) false NoTimer)) ;;; wobj_make_wait_tmout q w tmout) s = RET () s' ∧
    KInv (<[t := Waiting w (WOBJ q) false tmr]> g) s' ∧
    (is_Some (evt (tm s') (TM_TSK w)) ↔ 0 < tmout) ∧
    (∀ x, x ∈ wq s' q ↔ x = t ∨ x ∈ wq s q) ∧
    (bits (wobjatr s q) TA_TPRI = true → pri_sorted (tcb_table s') (wq s' q)) ∧
    (∀ p, t ∉ wq s' (RDQ p)) ∧ p_schedtsk s' ≠ Some t.
Proof.
  intros tmr.
  destruct (make_wait_tmout_asleep_tmr g s t w (WOBJ q) tmout HK Hg Hrun Hfree) as (s1 & E1 & Has); [done..|].
  destruct (asleep_blocked g s s1 t w q tmr HK Hg Hw Hfree Has Hq) as (s' & E2 & []); [by unfold tmr; destruct (0 <? tmout)|done|].
  rename bl_inv into HK'. exists s'. split_and!; try done.
  - exact (eq_trans (bind2_RET _ _ _ _ _ _ E1) E2).
  - rewrite (k_timer _ _ HK'). split.
    + intros (t' & c & susp & Ht'). destruct (decide (t' = t)) as [->|Hne].
      * rewrite fn_lookup_insert in Ht'. injection Ht' as _ _ Htm. unfold tmr in Htm. by destruct (Z.ltb_spec 0 tmout).
      * rewrite fn_lookup_insert_ne in Ht' by done. by destruct (Hfree t'); rewrite Ht'.
    + intros Hpos%Z.ltb_lt. exists t, (WOBJ q), false. unfold tmr. by rewrite fn_lookup_insert, Hpos.
  - intros x. by apply bl_queue.
  - intros Hb. apply (k_sorted _ _ HK'); [done|]. unfold wobjatr in *. by rewrite <- (fr_obj _ _ _ _ bl_frame).
  - intros p Hin%(k_wq _ _ HK'). unfold place in Hin. rewrite fn_lookup_insert in Hin. injection Hin as ->. done.
  - rewrite (sched_schedtsk _ _ _ (k_sched _ _ HK')). intros Hh%hd_error_elem%elem_of_ready_list.
    destruct Hh as (p & Hp & Hin%(k_wq _ _ HK')). unfold place in Hin. rewrite fn_lookup_insert in Hin. injection Hin as ->. done.
Qed.
End scheduling.

(** ** Witnesses *)

#[local] Existing Instance Example.cfg.
Notation k := Example.kernel.

Lemma bitmap_search_lowest_bit_witness :
  0 < 22 < 2^16 ∧ bitmap_search 22 = 1 ∧
  let r := bitmap_search 22 in 0 ≤ r < 16 ∧ Z.testbit 22 r = true ∧ ∀ i, 0 ≤ i < r → Z.testbit 22 i = false.
Proof. split; [lia|]. split; [reflexivity|]. apply (bitmap_search_lowest_bit 22). lia. Defined.

Lemma make_runnable_correct_witness :
  ∃ b s', make_runnable 1 k = RET b s' ∧ scheduled k b s' ∧
    s' = k <| wq := Fam.queue_insert_prev (RDQ 2) 1%nat (wq k) |> <| sch := sch s' |>.
Proof.
  apply (make_runnable_correct k 1); [apply (k_sched _ _ Example.kernel_KInv)| |simpl; lia].
  intros p. simpl. destruct p as [|[]|]; intros H; inversion H as [|? ? ? H']; inversion H'.
Defined.

Lemma make_non_runnable_correct_witness :
  ∃ b s', make_non_runnable 0 k = RET b s' ∧ scheduled k b s' ∧
    s' = k <| wq := Fam.queue_delete 0%nat (wq k) |> <| sch := sch s' |>.
Proof.
  apply (make_non_runnable_correct k 0); [apply (k_sched _ _ Example.kernel_KInv)|left].
Defined.

Lemma rotate_ready_queue_correct_witness :
  ∃ b s', rotate_ready_queue 1 k = RET b s' ∧ scheduled k b s' ∧ tcb_table s' = tcb_table k ∧
    (∀ q, q ≠ RDQ 1 → wq s' q = wq k q) ∧ wq s' (RDQ 1) = [0%nat].
Proof.
  apply (rotate_ready_queue_correct k 1); [apply (k_sched _ _ Example.kernel_KInv)|lia|apply NoDup_singleton].
Defined.

Lemma change_priority_correct_witness :
  (∃ b s', change_priority 1 7 true k = RET b s' ∧ KInv Example.states s' ∧
    tcb_table s' = <[1%nat := (tcb_table k 1%nat) <| priority := 7 |>]> (tcb_table k) ∧
    (∀ q x, is_ready_queue q = false → x ∈ wq s' q ↔ x ∈ wq k q) ∧
    b = negb (bool_decide (p_schedtsk s' = p_schedtsk k)) && dspflg k) ∧
  ∀ mtxmode, ∃ b s', change_priority 0 1 mtxmode k = RET b s' ∧
    wq s' (RDQ 1) = if mtxmode then 0%nat :: without 0%nat (wq k (RDQ 1)) else without 0%nat (wq k (RDQ 1)) ++ [0%nat].
Proof.
  split.
  - destruct (change_priority_correct Example.states k 1 7 true) as (b & s' & E & H1 & H2 & _ & _ & _ & H3 & _ & _ & _ & _ & H4);
      [apply Example.kernel_KInv|apply Example.kernel_Inv|done|lia|].
    by exists b, s'.
  - intros mtxmode. destruct (change_priority_correct Example.states k 0 1 mtxmode) as (b & s' & E & _ & _ & H & _);
      [apply Example.kernel_KInv|apply Example.kernel_Inv|done|lia|].
    exists b, s'. split; [done|]. exact (H eq_refl (RDQ 1)).
Defined.

Lemma tmevt_heap_is_a_map_witness :
  evt (tm k) (TM_TSK 0) = Some 105 ∧ evt (tm k) (TM_CYC 0) = None ∧
  (∃ m', tmevtb_insert (TM_CYC 0) 103 (tm k) = Some m' ∧ heap_ok m' ∧
    ∀ b', evt m' b' = if decide (b' = TM_CYC 0) then Some 103 else evt (tm k) b') ∧
  (∃ m', tmevtb_delete (TM_TSK 0) (tm k) = Some m' ∧ heap_ok m' ∧
    ∀ b', evt m' b' = if decide (b' = TM_TSK 0) then None else evt (tm k) b').
Proof.
  pose proof (k_heap _ _ Example.kernel_KInv) as Hok. split; [reflexivity|]. split; [reflexivity|]. split.
  - apply (tmevt_heap_is_a_map (tm k) (TM_CYC 0) 103 Hok). reflexivity.
  - apply (tmevt_heap_is_a_map (tm k) (TM_TSK 0) 105 Hok). reflexivity.
Defined.

Lemma tmevt_top_is_earliest_witness :
  let m := tm k in let b := p_tmevtb (tm_heap m 1) in
  evt m b = Some 105 ∧ (∀ b' (t : Z), evt m b' = Some t → EVTTIM_LE m 105 t = true) ∧
  ∃ m', tmevtb_delete_top m = Some m' ∧ heap_ok m' ∧
    ∀ b', evt m' b' = if decide (b' = b) then None else evt m b'.
Proof. apply (tmevt_top_is_earliest (tm k) (k_heap _ _ Example.kernel_KInv)). reflexivity. Defined.

Lemma evttim_lt_order_witness :
  EVTTIM_LT (tm k) (u32 (100 + 5)) (u32 (100 + (2^32 - 1))) = true ∧
  EVTTIM_LE (tm k) (u32 (100 + 5)) (u32 (100 + (2^32 - 1))) = true.
Proof. apply (evttim_lt_order (tm k) 5 (2^32 - 1)); lia. Defined.

Lemma tmevtb_enqueue_time_witness :
  ∃ m', tmevtb_enqueue (TM_CYC 0) 10 call_cychdr_cb 0 k = RET () (upd_tm (fun _ => m') k) ∧ heap_ok m' ∧
    (∀ b', b' ≠ TM_CYC 0 → evt m' b' = evt (tm k) b') ∧
    callback (tm_tmevtb m' (TM_CYC 0)) = call_cychdr_cb ∧ arg (tm_tmevtb m' (TM_CYC 0)) = 0%nat ∧
    ∃ t : Z, evt m' (TM_CYC 0) = Some t ∧ evtkey m' t = evtkey (tm k) (base_time (tm k)) + 10.
Proof.
  apply (tmevtb_enqueue_time k (TM_CYC 0) 10 call_cychdr_cb 0 (k_heap _ _ Example.kernel_KInv) eq_refl);
    [unfold TMAX_RELTIM; lia|by vm_compute].
Defined.

Lemma wait_ended_witness :
  ∃ b s', wait_release 1 k = RET b s' ∧ wait_over Example.states k 1 0 false E_RLWAI b s'.
Proof.
  apply (wait_ended Example.states k 1 0 (WOBJ (SEMQ 0)) false Timer Example.kernel_KInv eq_refl); done.
Defined.

Lemma init_wait_queue_correct_witness :
  ∃ b s' g', init_wait_queue (SEMQ 0) k = RET b s' ∧ KInv g' s' ∧ settled g' ∧ wq s' (SEMQ 0) = [] ∧
    (∀ t, t ∈ wq k (SEMQ 0) → g' t = Runnable ∨ g' t = Suspended) ∧
    (∀ t, t ∉ wq k (SEMQ 0) → g' t = Example.states t) ∧ obj s' = obj k ∧
    (b = true → dspflg k = true) ∧ (b = false → dspflg k = true → p_schedtsk s' = p_schedtsk k).
Proof.
  apply (init_wait_queue_correct Example.states k (SEMQ 0) Example.kernel_KInv); [apply Example.kernel_Inv|done|done].
Defined.

(** The example kernel with a new frame, 1. *)
Definition k1 : State := upd_winfo 1 (fun _ => winfo_init) (k <| next_frame := 2%nat |>).

Lemma k1_KInv : KInv Example.states k1.
Proof.
  apply (fresh_winfo kernel_inv Example.states k 1 (fun _ => winfo_init) 2 Example.kernel_Inv); [|simpl; lia].
  by intros [|[|t]].
Qed.

Lemma wobj_make_wait_tmout_correct_witness :
  let tmr := Timer in
  ∃ s', (set_tstat 0 (enc (Waiting 1 (WOBJ (SEMQ 0)) false NoTimer)) ;;; wobj_make_wait_tmout (SEMQ 0) 1 20) k1 = RET () s' ∧
    KInv (<[0%nat := Waiting 1 (WOBJ (SEMQ 0)) false tmr]> Example.states) s' ∧
    (is_Some (evt (tm s') (TM_TSK 1)) ↔ 0 < 20) ∧
    (∀ x, x ∈ wq s' (SEMQ 0) ↔ x = 0%nat ∨ x ∈ wq k1 (SEMQ 0)) ∧
    (bits (wobjatr k1 (SEMQ 0)) TA_TPRI = true → pri_sorted (tcb_table s') (wq s' (SEMQ 0))) ∧
    (∀ p, 0%nat ∉ wq s' (RDQ p)) ∧ p_schedtsk s' ≠ Some 0%nat.
Proof.
  apply (wobj_make_wait_tmout_correct Example.states k1 0 1 (SEMQ 0) 20 k1_KInv); try done; [simpl; lia|by intros [|[|t]]].
Defined.
