(* ===== verification/Calls.v ===== *)
(** * Theorems about the service calls

    Every service call, made in a state that satisfies the invariant of the
    whole kernel and in any context, runs without undefined behaviour, gives
    the processor away only in states others may find, and returns in a state
    that satisfies the invariant in the calling context it began with. *)

From S2P Require Import Prelude Queue Data Kmonad TimeEvent Task Wait Core Release Service Transit Object Handler Kmm Semaphore Eventflag Dataqueue Mutex MutexCalls TaskManage TaskManageProof TaskSync TaskExcept SysManage TaskRefer Mempfix MempfixProof Pridataq PridataqProof Mailbox MailboxProof Cyclic Alarm SignalTime Interrupt Startup Kernel.
Open Scope Z_scope.

Section calls.
Context {cfg : Config}.
Implicit Types (s : State) (g : nat → tst) (t w i : nat) (q : qid).

Definition safe {A} (m : K A) s : Prop :=
  wp (rely kernel_inv) (guar kernel_inv) (fun _ s' => OK kernel_inv s' ∧ same_ctx s s') (m s).

(** C28: The semaphore calls: no count leaves its range, nobody waits while a
    resource is free, no assertion fails and no WINFO is misread, whatever
    other tasks and handlers do in between. *)
Theorem semaphore_calls s (semid tmout : Z) (pk : T_CSEM) (HOK : OK kernel_inv s) (Htmo : tmout ≤ TMAX_RELTIM) :
  safe (acre_sem pk) s ∧ safe (del_sem semid) s ∧ safe (sig_sem semid) s ∧ safe (isig_sem semid) s ∧
  safe (wai_sem semid) s ∧ safe (pol_sem semid) s ∧ safe (twai_sem semid tmout) s ∧ safe (ini_sem semid) s ∧
  safe (ref_sem semid) s.
Proof.
  split_and!; [by apply (acre_sem_ok kernel_inv)|by apply (del_sem_ok kernel_inv)|by apply (sig_sem_ok kernel_inv)|by apply (isig_sem_ok kernel_inv)|by apply (wai_sem_ok kernel_inv)|
    by apply (pol_sem_ok kernel_inv)|by apply (twai_sem_ok kernel_inv)|by apply (ini_sem_ok kernel_inv)|by apply (ref_sem_ok kernel_inv)].
Qed.

(** C29: The event flag calls: after each of them no task waits for a pattern
    that is there, and a flag without TA_WMUL has at most one waiter. *)
Theorem eventflag_calls s (flgid ptn wfmode tmout : Z) (pk : T_CFLG) (HOK : OK kernel_inv s) (Htmo : tmout ≤ TMAX_RELTIM) :
  safe (acre_flg pk) s ∧ safe (del_flg flgid) s ∧ safe (set_flg flgid ptn) s ∧ safe (iset_flg flgid ptn) s ∧
  safe (clr_flg flgid ptn) s ∧ safe (wai_flg flgid ptn wfmode) s ∧ safe (pol_flg flgid ptn wfmode) s ∧
  safe (twai_flg flgid ptn wfmode tmout) s ∧ safe (ini_flg flgid) s ∧ safe (ref_flg flgid) s.
Proof.
  split_and!; [by apply (acre_flg_ok kernel_inv)|by apply (del_flg_ok kernel_inv)|by apply (set_flg_ok kernel_inv)|by apply (iset_flg_ok kernel_inv)|by apply (clr_flg_ok kernel_inv)|
    by apply (wai_flg_ok kernel_inv)|by apply (pol_flg_ok kernel_inv)|by apply (twai_flg_ok kernel_inv)|by apply (ini_flg_ok kernel_inv)|by apply (ref_flg_ok kernel_inv)].
Qed.

(** C30: The data queue calls: the ring buffer stays in its bounds, senders wait
    only when it is full, receivers only when it is empty, and never both. *)
Theorem dataqueue_calls s (dtqid data tmout : Z) (pk : T_CDTQ)
    (HOK : OK kernel_inv s) (Htmo : tmout ≤ TMAX_RELTIM) (Hcnt : 0 ≤ Dataqueue.c_dtqcnt pk < 2^32) :
  safe (acre_dtq pk) s ∧ safe (del_dtq dtqid) s ∧ safe (snd_dtq dtqid data) s ∧ safe (psnd_dtq dtqid data) s ∧
  safe (ipsnd_dtq dtqid data) s ∧ safe (tsnd_dtq dtqid data tmout) s ∧ safe (fsnd_dtq dtqid data) s ∧
  safe (ifsnd_dtq dtqid data) s ∧ safe (rcv_dtq dtqid) s ∧ safe (prcv_dtq dtqid) s ∧
  safe (trcv_dtq dtqid tmout) s ∧ safe (ini_dtq dtqid) s ∧ safe (ref_dtq dtqid) s.
Proof.
  split_and!; [by apply (acre_dtq_ok kernel_inv)|by apply (del_dtq_ok kernel_inv)|by apply (snd_dtq_ok kernel_inv)|by apply (psnd_dtq_ok kernel_inv)|by apply (ipsnd_dtq_ok kernel_inv)|
    by apply (tsnd_dtq_ok kernel_inv)|by apply (fsnd_dtq_ok kernel_inv)|by apply (ifsnd_dtq_ok kernel_inv)|by apply (rcv_dtq_ok kernel_inv)|by apply (prcv_dtq_ok kernel_inv)|
    by apply (trcv_dtq_ok kernel_inv)|by apply (ini_dtq_ok kernel_inv)|by apply (ref_dtq_ok kernel_inv)].
Qed.

(** C32: The mutex calls: a mutex is in the list of the task that has locked it
    and of no other, the priority of every task is its base priority raised to
    the ceilings of the mutexes it holds, and nobody waits for a free mutex.
    [del_mtx] keeps this for a mutex nobody has locked, [ini_mtx] for one that
    exists; the code tests neither. *)
Theorem mutex_calls s (mtxid tmout : Z) (pk : T_CMTX) (HOK : OK kernel_inv s) (Htmo : tmout ≤ TMAX_RELTIM) :
  safe (acre_mtx pk) s ∧ safe (loc_mtx mtxid) s ∧ safe (ploc_mtx mtxid) s ∧ safe (tloc_mtx mtxid tmout) s ∧
  safe (unl_mtx mtxid) s ∧ safe (ref_mtx mtxid) s ∧
  (p_loctsk (mtxcb s (INDEX mtxid)) = None → safe (del_mtx mtxid) s) ∧
  (¬ mtx_gone s (INDEX mtxid) → safe (ini_mtx mtxid) s).
Proof.
  split_and!; [by apply (acre_mtx_ok kernel_inv)|by apply (loc_mtx_ok kernel_inv)|by apply (ploc_mtx_ok kernel_inv)|by apply (tloc_mtx_ok kernel_inv)|
    by apply (unl_mtx_ok kernel_inv)|by apply (ref_mtx_ok kernel_inv)|by apply (del_mtx_ok kernel_inv)|by apply (ini_mtx_ok kernel_inv)].
Qed.

(** C31: The task management calls: creating, deleting, starting, ending and
    terminating tasks and changing their base priority. A task that ends leaves
    its queue and its timer and gives every mutex back, its waiting tasks
    getting them; the base priority stays compatible with the ceilings of the
    mutexes the task holds or awaits. *)
Theorem task_manage_calls s (tskid tskpri : Z) (pk : T_CTSK) (HOK : OK kernel_inv s)
    (Hatr : 0 ≤ TARGET_TSKATR < 2^31) (Hround : ∀ n, 0 ≤ ROUND_STK_T n) :
  safe (acre_tsk pk) s ∧ safe (del_tsk tskid) s ∧ safe (act_tsk tskid) s ∧ safe (iact_tsk tskid) s ∧
  safe (can_act tskid) s ∧ safe ext_tsk s ∧ safe (ter_tsk tskid) s ∧ safe (chg_pri tskid tskpri) s ∧
  safe (get_pri tskid) s ∧ safe get_inf s.
Proof.
  split_and!; [by apply (acre_tsk_ok kernel_inv)|by apply (del_tsk_ok kernel_inv)|by apply (act_tsk_ok kernel_inv)|by apply (iact_tsk_ok kernel_inv)|
    by apply (can_act_ok kernel_inv)|by apply (ext_tsk_ok kernel_inv)|by apply (ter_tsk_ok kernel_inv)|by apply (chg_pri_ok kernel_inv)|
    by apply (get_pri_ok kernel_inv)|by apply (get_inf_ok kernel_inv)].
Qed.

(** C33: The calls of fixed-sized memory pools: a block is free or allocated and
    never both, the management areas of two pools are different, nobody waits
    while a block is free. [acre_mpf] is given sizes that do not overflow and
    an area that is not in use; the code tests neither. *)
Theorem mempfix_calls s (mpfid tmout blk : Z) (pk : T_CMPF) (HOK : OK kernel_inv s) (Htmo : tmout ≤ TMAX_RELTIM) :
  (new_mem_ok pk s → safe (acre_mpf pk) s) ∧ safe (del_mpf mpfid) s ∧ safe (get_mpf mpfid) s ∧ safe (pget_mpf mpfid) s ∧
  safe (tget_mpf mpfid tmout) s ∧ safe (rel_mpf mpfid blk) s ∧ safe (ini_mpf mpfid) s ∧ safe (ref_mpf mpfid) s.
Proof.
  split_and!; [by apply (acre_mpf_ok kernel_inv)|by apply (del_mpf_ok kernel_inv)|by apply (get_mpf_ok kernel_inv)|by apply (pget_mpf_ok kernel_inv)|
    by apply (tget_mpf_ok kernel_inv)|by apply (rel_mpf_ok kernel_inv)|by apply (ini_mpf_ok kernel_inv)|by apply (ref_mpf_ok kernel_inv)].
Qed.

(** C34: The calls of priority data queues: the data are a chain of different
    blocks in the order of their priorities, senders wait only when every block
    is used, receivers only when there are no data, and never both. [acre_pdq]
    is given a number of blocks whose size does not overflow and an area that
    is not in use; the code tests neither. *)
Theorem pridataq_calls s (pdqid data datapri tmout : Z) (pk : T_CPDQ) (HOK : OK kernel_inv s) (Htmo : tmout ≤ TMAX_RELTIM) :
  (new_pdq_mem_ok pk s → safe (acre_pdq pk) s) ∧ safe (del_pdq pdqid) s ∧ safe (snd_pdq pdqid data datapri) s ∧
  safe (psnd_pdq pdqid data datapri) s ∧ safe (ipsnd_pdq pdqid data datapri) s ∧ safe (tsnd_pdq pdqid data datapri tmout) s ∧
  safe (rcv_pdq pdqid) s ∧ safe (prcv_pdq pdqid) s ∧ safe (trcv_pdq pdqid tmout) s ∧ safe (ini_pdq pdqid) s ∧
  safe (ref_pdq pdqid) s.
Proof.
  split_and!; [by apply (acre_pdq_ok kernel_inv)|by apply (del_pdq_ok kernel_inv)|by apply (snd_pdq_ok kernel_inv)|by apply (psnd_pdq_ok kernel_inv)|
    by apply (ipsnd_pdq_ok kernel_inv)|by apply (tsnd_pdq_ok kernel_inv)|by apply (rcv_pdq_ok kernel_inv)|by apply (prcv_pdq_ok kernel_inv)|
    by apply (trcv_pdq_ok kernel_inv)|by apply (ini_pdq_ok kernel_inv)|by apply (ref_pdq_ok kernel_inv)].
Qed.

(** C35: The mailbox calls: the messages of a mailbox are a chain that ends, in
    the order of their priorities if the mailbox asks for that, no message is
    in two mailboxes and nobody waits while there is one. [snd_mbx] is given a
    message that is in no mailbox, as it cannot test that; then the walk to
    the place of the message ends. *)
Theorem mailbox_calls s (mbxid tmout pk_msg : Z) (pk : T_CMBX) (HOK : OK kernel_inv s) (Htmo : tmout ≤ TMAX_RELTIM) :
  safe (acre_mbx pk) s ∧ safe (del_mbx mbxid) s ∧
  (msg_free (obj s) pk_msg → ∃ n, ∀ fuel, (n ≤ fuel)%nat → safe (snd_mbx fuel mbxid pk_msg) s) ∧
  safe (rcv_mbx mbxid) s ∧ safe (prcv_mbx mbxid) s ∧ safe (trcv_mbx mbxid tmout) s ∧ safe (ini_mbx mbxid) s ∧
  safe (ref_mbx mbxid) s.
Proof.
  split_and!; [by apply (acre_mbx_ok kernel_inv)|by apply (del_mbx_ok kernel_inv)|by apply (snd_mbx_ok kernel_inv)|by apply (rcv_mbx_ok kernel_inv)|
    by apply (prcv_mbx_ok kernel_inv)|by apply (trcv_mbx_ok kernel_inv)|by apply (ini_mbx_ok kernel_inv)|by apply (ref_mbx_ok kernel_inv)].
Qed.

(** C36: The task synchronization calls: sleeping, waking, delaying, releasing,
    suspending and resuming keep every task in exactly the queue its state
    puts it in, with a timer exactly when it waits with a time-out. *)
Theorem task_sync_calls s (tskid tmout dlytim : Z) (HOK : OK kernel_inv s) (Htmo : tmout ≤ TMAX_RELTIM) :
  safe slp_tsk s ∧ safe (tslp_tsk tmout) s ∧ safe (wup_tsk tskid) s ∧ safe (iwup_tsk tskid) s ∧
  safe (can_wup tskid) s ∧ safe (rel_wai tskid) s ∧ safe (irel_wai tskid) s ∧ safe (sus_tsk tskid) s ∧
  safe (rsm_tsk tskid) s ∧ safe (dly_tsk dlytim) s.
Proof.
  split_and!; [by apply (slp_tsk_ok kernel_inv)|by apply (tslp_tsk_ok kernel_inv)|by apply (wup_tsk_ok kernel_inv)|by apply (iwup_tsk_ok kernel_inv)|by apply (can_wup_ok kernel_inv)|
    by apply (rel_wai_ok kernel_inv)|by apply (irel_wai_ok kernel_inv)|by apply (sus_tsk_ok kernel_inv)|by apply (rsm_tsk_ok kernel_inv)|by apply (dly_tsk_ok kernel_inv)].
Qed.

(** The task exception calls, with the calls of the task exception routine
    they may lead to. [rounds] bounds how often the routine is called in a
    row. *)
Theorem task_except_calls s (rounds : nat) (tskid rasptn : Z) (pk : T_DTEX) (HOK : OK kernel_inv s) :
  safe (def_tex tskid pk) s ∧ safe (ras_tex rounds tskid rasptn) s ∧ safe (iras_tex tskid rasptn) s ∧
  safe dis_tex s ∧ safe (ena_tex rounds) s ∧ safe (ref_tex tskid) s.
Proof.
  split_and!; [by apply (def_tex_ok kernel_inv)|by apply (ras_tex_ok kernel_inv)|by apply (iras_tex_ok kernel_inv)|by apply (dis_tex_ok kernel_inv)|by apply (ena_tex_ok kernel_inv)|by apply (ref_tex_ok kernel_inv)].
Qed.

(** C37: The system state calls and the interrupt calls: when dispatching is
    enabled again, the ready queue rotated or the interrupt mask changed, the
    task that should run gets the processor and the task exception routine that
    has become due is called; the service routines of an interrupt line stay in
    the order of their priority.  The calls that lock and unlock the processor
    do just that in their own context, nested or not, and nothing but answer
    E_CTX in the other; the sns_ calls report the state, which they leave
    alone, in any context.  ext_ker stops the kernel, with the processor locked
    and the invariant holding, and does not return. *)
Theorem system_calls s (rounds : nat) (tskpri isrid intno intpri : Z) (pk : T_CISR)
    (HOK : OK kernel_inv s) (Hatr : 0 ≤ TARGET_ISRATR < 2^31) :
  (safe (rot_rdq tskpri) s ∧ safe (irot_rdq tskpri) s ∧ safe get_tid s ∧ safe iget_tid s ∧ safe dis_dsp s ∧ safe ena_dsp s) ∧
  (loc_cpu s = (if sense_context s then RET E_CTX s else RET E_OK (with_lock true s)) ∧
    iloc_cpu s = (if sense_context s then RET E_OK (with_lock true s) else RET E_CTX s) ∧
    unl_cpu s = (if sense_context s then RET E_CTX s else RET E_OK (with_lock false s)) ∧
    iunl_cpu s = (if sense_context s then RET E_OK (with_lock false s) else RET E_CTX s) ∧
    ∀ b, OK kernel_inv (with_lock b s)) ∧
  (sns_ctx s = RET (sense_context s) s ∧ sns_loc s = RET (sense_lock s) s ∧ sns_dsp s = RET (disdsp s) s ∧
    sns_dpn s = RET (sense_context s || sense_lock s || negb (dspflg s)) s ∧ sns_ker s = RET (negb (c_kerflg (cpu s))) s) ∧
  (∃ s' k, ext_ker s = YIELD CallExitKernel s' k ∧ OK kernel_inv s' ∧ sense_context s' = sense_context s ∧
    sense_lock s' = true ∧ sns_ker s' = RET true s' ∧ ∀ s'', k s'' = UB) ∧
  (safe (acre_isr pk) s ∧ safe (del_isr isrid) s ∧ safe (dis_int intno) s ∧ safe (ena_int intno) s ∧
    safe get_ipm s ∧ safe (chg_ipm rounds intpri) s).
Proof.
  split; [split_and!; [by apply (rot_rdq_ok kernel_inv)|by apply (irot_rdq_ok kernel_inv)|by apply (get_tid_ok kernel_inv)|by apply (iget_tid_ok kernel_inv)|by apply (dis_dsp_ok kernel_inv)|by apply (ena_dsp_ok kernel_inv)]|].
  split; [destruct (lock_calls_eq s) as (E1 & E2 & E3 & E4); split_and!; [done..|]; intros b; by apply (OK_lock kernel_inv)|].
  split; [done|]. split.
  - eexists _, _. split; [reflexivity|]. split_and!; try done. apply (OK_cpu kernel_inv (with_lock true s)); [by apply (OK_lock kernel_inv)|done].
  - split_and!; [by apply (acre_isr_ok kernel_inv)|by apply (del_isr_ok kernel_inv)|by apply (dis_int_ok kernel_inv)|by apply (ena_int_ok kernel_inv)|by apply (get_ipm_ok kernel_inv)|by apply (chg_ipm_ok kernel_inv)].
Qed.

(** C38: The calls of cyclic and alarm handlers, from tasks and from handlers: a
    handler that is started, and no other, has its time event in the heap. *)
Theorem handler_calls s (cycid almid almtim : Z) (pkc : T_CCYC) (pka : T_CALM) (HOK : OK kernel_inv s) :
  safe (acre_cyc pkc) s ∧ safe (del_cyc cycid) s ∧ safe (sta_cyc cycid) s ∧ safe (stp_cyc cycid) s ∧ safe (ref_cyc cycid) s ∧
  safe (acre_alm pka) s ∧ safe (del_alm almid) s ∧ safe (sta_alm almid almtim) s ∧ safe (ista_alm almid almtim) s ∧
  safe (stp_alm almid) s ∧ safe (istp_alm almid) s ∧ safe (ref_alm almid) s.
Proof.
  split_and!; [by apply (acre_cyc_ok kernel_inv)|by apply (del_cyc_ok kernel_inv)|by apply (sta_cyc_ok kernel_inv)|by apply (stp_cyc_ok kernel_inv)|by apply (ref_cyc_ok kernel_inv)|
    by apply (acre_alm_ok kernel_inv)|by apply (del_alm_ok kernel_inv)|by apply (sta_alm_ok kernel_inv)|by apply (ista_alm_ok kernel_inv)|by apply (stp_alm_ok kernel_inv)|
    by apply (istp_alm_ok kernel_inv)|by apply (ref_alm_ok kernel_inv)].
Qed.

(** C2: The time tick, from an interrupt handler: the clock moves to the next
    time, and unless [rounds] is too small for the events that are due, every
    one of them has had its callback when the tick returns: whatever is then
    registered lies in the future. The callbacks wake tasks, call cyclic and
    alarm handlers and let interrupts in, and the invariant holds all along. *)
Theorem signal_time_correct s (rounds : nat)
    (HOK : OK kernel_inv s) (Hctx : sense_context s = true) (Hlock : sense_lock s = false) :
  wp (rely kernel_inv) (guar kernel_inv)
    (fun _ s' => OK kernel_inv s' ∧ same_ctx s s' ∧ tm_current_time (tm s') = tm_next_time (tm s) ∧
      tm_min_time (tm s') = tm_next_time (tm s) ∧ ∀ b (t : Z), evt (tm s') b = Some t → 0 < evtkey (tm s') t)
    (signal_time rounds s).
Proof.
  eapply wp_mono; [by apply (signal_time_ok kernel_inv)|]. intros _ s' ([? ?] & ? & ? & ?). done.
Qed.
End calls.

#[local] Existing Instance Example.cfg.
Notation k := Example.kernel.

Lemma semaphore_calls_witness : safe (twai_sem 1 10) k ∧ safe (sig_sem 1) k.
Proof. split; apply (semaphore_calls k 1 10 (mkT_CSEM 0 0 1) Example.kernel_OK); unfold TMAX_RELTIM; lia. Defined.
Lemma eventflag_calls_witness : safe (twai_flg 1 2 TWF_ORW 10) k ∧ safe (set_flg 1 2) k.
Proof. split; apply (eventflag_calls k 1 2 TWF_ORW 10 (mkT_CFLG 0 0) Example.kernel_OK); unfold TMAX_RELTIM; lia. Defined.
Lemma dataqueue_calls_witness : safe (tsnd_dtq 1 5 10) k ∧ safe (trcv_dtq 1 10) k ∧ safe (acre_dtq (mkT_CDTQ 0 4 0)) k.
Proof. split_and!; apply (dataqueue_calls k 1 5 10 (mkT_CDTQ 0 4 0) Example.kernel_OK); unfold TMAX_RELTIM; simpl; lia. Defined.
Lemma mutex_calls_witness : safe (tloc_mtx 1 10) k ∧ safe (del_mtx 1) k ∧ safe (ini_mtx 1) k.
Proof.
  destruct (mutex_calls k 1 10 (mkT_CMTX 0 0) Example.kernel_OK) as (_ & _ & _ & H1 & _ & _ & H2 & H3); [unfold TMAX_RELTIM; lia|].
  split_and!; [exact H1|apply H2; reflexivity|apply H3; vm_compute; congruence].
Defined.
Lemma task_manage_calls_witness : safe (acre_tsk (mkT_CTSK TA_ACT 0 4096 3 1024 0)) k ∧ safe (ter_tsk 2) k ∧ safe ext_tsk k ∧ safe (chg_pri 2 5) k.
Proof.
  assert (Hatr : 0 ≤ TARGET_TSKATR < 2^31) by (simpl; lia).
  assert (Hround : ∀ n, 0 ≤ ROUND_STK_T n) by (intros n; apply Z.mod_pos_bound; reflexivity).
  destruct (task_manage_calls k 2 5 (mkT_CTSK TA_ACT 0 4096 3 1024 0) Example.kernel_OK Hatr Hround) as (H1 & _ & _ & _ & _ & H2 & H3 & H4 & _).
  exact (conj H1 (conj H3 (conj H2 H4))).
Defined.
Lemma mempfix_calls_witness : safe (acre_mpf (mkT_CMPF 0 4 16 0 0)) k ∧ safe (tget_mpf 1 10) k ∧ safe (rel_mpf 1 4) k.
Proof.
  assert (Hnew : new_mem_ok (mkT_CMPF 0 4 16 0 0) k) by (vm_compute; split_and!; congruence).
  destruct (mempfix_calls k 1 10 4 (mkT_CMPF 0 4 16 0 0) Example.kernel_OK) as (H1 & _ & _ & _ & H2 & H3 & _); [unfold TMAX_RELTIM; lia|].
  exact (conj (H1 Hnew) (conj H2 H3)).
Defined.
Lemma pridataq_calls_witness : safe (acre_pdq (mkT_CPDQ 0 4 16 0)) k ∧ safe (tsnd_pdq 1 7 3 10) k ∧ safe (trcv_pdq 1 10) k.
Proof.
  assert (Hnew : new_pdq_mem_ok (mkT_CPDQ 0 4 16 0) k) by (vm_compute; split_and!; congruence).
  destruct (pridataq_calls k 1 7 3 10 (mkT_CPDQ 0 4 16 0) Example.kernel_OK) as (H1 & _ & _ & _ & _ & H2 & _ & _ & H3 & _); [unfold TMAX_RELTIM; lia|].
  exact (conj (H1 Hnew) (conj H2 H3)).
Defined.
Lemma mailbox_calls_witness : (∃ n, ∀ fuel, (n ≤ fuel)%nat → safe (snd_mbx fuel 1 8192) k) ∧ safe (trcv_mbx 1 10) k.
Proof.
  assert (Hmsg : msg_free (obj k) 8192).
  { split; [done|]. intros [|j] [He (L & Hc & Hx)]; [|by apply He].
    assert (L = []) as -> by (destruct L as [|m L]; [done|destruct Hc as (Hm & Hn & _); by destruct Hn]). by apply not_elem_of_nil in Hx. }
  destruct (mailbox_calls k 1 10 8192 (mkT_CMBX 0 1 0) Example.kernel_OK) as (_ & _ & H1 & _ & _ & H2 & _); [unfold TMAX_RELTIM; lia|].
  exact (conj (H1 Hmsg) H2).
Defined.
Lemma task_sync_calls_witness : safe (tslp_tsk 10) k ∧ safe (rel_wai 2) k ∧ safe (sus_tsk 2) k.
Proof. split_and!; apply (task_sync_calls k 2 10 10 Example.kernel_OK); unfold TMAX_RELTIM; lia. Defined.
Lemma task_except_calls_witness : safe (ras_tex 3 1 5) k ∧ safe (ena_tex 3) k.
Proof. split; apply (task_except_calls k 3 1 5 (mkT_DTEX 0 4096) Example.kernel_OK). Defined.
Lemma system_calls_witness :
  safe (rot_rdq 2) k ∧ safe ena_dsp k ∧ safe (acre_isr (mkT_CISR 0 0 40 4096 1)) k ∧ safe (chg_ipm 3 0) k ∧
  iunl_cpu k = RET E_CTX k ∧ iunl_cpu Example.handler = RET E_OK (with_lock false Example.handler).
Proof.
  destruct (system_calls k 3 2 1 40 0 (mkT_CISR 0 0 40 4096 1) Example.kernel_OK)
    as ((H1 & _ & _ & _ & _ & H2) & (_ & _ & _ & H5 & _) & _ & _ & (H3 & _ & _ & _ & _ & H4)); [vm_compute; split; congruence|].
  destruct (system_calls Example.handler 3 2 1 40 0 (mkT_CISR 0 0 40 4096 1) Example.handler_OK)
    as (_ & (_ & _ & _ & H6 & _) & _); [vm_compute; split; congruence|].
  exact (conj H1 (conj H2 (conj H3 (conj H4 (conj H5 H6))))).
Defined.
Lemma handler_calls_witness : safe (sta_cyc 1) k ∧ safe (sta_alm 1 20) k.
Proof. split; apply (handler_calls k 1 1 20 (mkT_CCYC 0 0 4096 10 0) (mkT_CALM 0 0 4096) Example.kernel_OK). Defined.

Lemma signal_time_correct_witness :
  wp (rely kernel_inv) (guar kernel_inv)
    (fun _ s' => OK kernel_inv s' ∧ same_ctx Example.handler s' ∧ tm_current_time (tm s') = 101 ∧ tm_min_time (tm s') = 101 ∧
      ∀ b (t : Z), evt (tm s') b = Some t → 0 < evtkey (tm s') t)
    (signal_time 7 Example.handler).
Proof. apply (signal_time_correct Example.handler 7 Example.handler_OK eq_refl eq_refl). Defined.
