(* ===== verification/Behaviour.v ===== *)
(** * Theorems about what the objects do

    For the operations that return without giving the processor away, the
    state they leave is compared with an abstract object: a counter with a
    queue, a list, a set of memory blocks, an association list. *)

From S2P Require Import Prelude Queue Data Kmonad TimeEvent Task Wait Core Release Service Object Kmm Semaphore Dataqueue Mutex MutexProof Interrupt Kernel.
Open Scope Z_scope.

Section behaviour.
Context {cfg : Config}.
Implicit Types (s : State) (g : nat → tst) (t w i : nat) (q : qid).

(** ** Semaphores *)

(** The abstract semaphore: the resources left and the tasks that wait. *)
Definition sem_view s i : Z * list nat := (semcnt (semcb s i), wq s (SEMQ i)).
Definition sem_signal (max : Z) (v : Z * list nat) : Z * (Z * list nat) :=
  match v with
  | (n, _ :: l) => (E_OK, (n, l))
  | (n, []) => if n <? max then (E_OK, (n + 1, [])) else (E_QOVR, (n, []))
  end.
Definition sem_take (v : Z * list nat) : Z * (Z * list nat) :=
  match v with (n, l) => if 0 <? n then (E_OK, (n - 1, l)) else (E_TMOUT, (n, l)) end.

(** The steps of [isig_sem] and [pol_sem] up to their tests of the queue and of
    the counter. *)
#[local] Ltac sem_body s He :=
  apply locked_RET; unfold kget; change (obj (with_lock true s)) with (obj s);
  try match goal with i := INDEX _ |- _ => fold i end; rewrite (proj2 (Z.eqb_neq _ _) He);
  unfold queue_empty, Fam.queue_empty; change (wq (with_lock true s)) with (wq s);
  change (semcb (with_lock true s)) with (semcb s).

(** The call of a handler that wakes the first task [t] of the queue. *)
Lemma isig_sem_wakes g s semid (i := INDEX semid) t l :
  Inv kernel_inv g (with_lock true s) → sense_context s = true → sense_lock s = false →
  VALID_ID tmax_semid semid = true → sematr (p_seminib (semcb s i)) ≠ TA_NOEXS → wq s (SEMQ i) = t :: l →
  ∃ s', isig_sem semid s = RET E_OK s' ∧ obj s' = obj s ∧ ∀ j, wq s' (SEMQ j) = without t (wq s (SEMQ j)).
Proof.
  intros HI Hc Hlock Hid He Hq.
  destruct (wake_head_with g (with_lock true s) (SEMQ i) t l (i_k _ _ _ HI) (i_settled _ _ _ HI) eq_refl Hq)
    as (s2 & w & susp & tmr & E1 & Hs2 & Hg & Hw & Hwk).
  destruct (Hwk s2 (touch_refl _ _)) as (b & s3 & E2 & HW).
  set (s4 := if b then upd_var (fun v => v <| v_reqflg := true |>) s3 else s3).
  exists (with_lock false s4). split_and!.
  - unfold isig_sem, CHECK_INTCTX_UNL, CHECK_SEMID, CHECK_ID, check. rewrite Hc, Hlock, Hid. simpl.
    sem_body s He. rewrite Hq. simpl. rewrite (bind_RET _ _ _ _ _ E1), (bind_RET _ _ _ _ _ E2). unfold s4. by destruct b.
  - unfold s4; destruct b; simpl; rewrite (fr_obj _ _ _ _ (wk_frame _ _ _ _ _ _ _ _ HW)); by subst s2.
  - intros j. change (wq s (SEMQ j)) with (wq (with_lock true s) (SEMQ j)).
    rewrite <- (wk_queue _ _ _ _ _ _ _ _ HW) by done. unfold s4. by destruct b.
Qed.

(** A state in which one semaphore has another count. *)
Lemma sem_view_count s i n s' :
  semcb s' = <[i := (semcb s i) <| semcnt := n |>]> (semcb s) → wq s' = wq s →
  sem_view s' i = (n, wq s (SEMQ i)) ∧ ∀ j, j ≠ i → sem_view s' j = sem_view s j.
Proof.
  intros E Ew. unfold sem_view. rewrite E, Ew. split; [by rewrite fn_lookup_insert|].
  intros j Hne. by rewrite fn_lookup_insert_ne.
Qed.

(** C27: [isig_sem] and [pol_sem] refine the abstract semaphore: the first
    waiting task gets the resource, else it is counted, else E_QOVR; a resource
    is taken if there is one, else E_TMOUT. No other semaphore changes. *)
Theorem semaphore_refinement s semid (i := INDEX semid)
    (HOK : OK kernel_inv s) (Hlock : sense_lock s = false)
    (Hid : VALID_ID tmax_semid semid = true) (He : sematr (p_seminib (semcb s i)) ≠ TA_NOEXS) :
  (sense_context s = true → ∃ s', isig_sem semid s = RET (sem_signal (maxsem (p_seminib (semcb s i))) (sem_view s i)).1 s' ∧
    sem_view s' i = (sem_signal (maxsem (p_seminib (semcb s i))) (sem_view s i)).2 ∧
    (∀ j, j ≠ i → sem_view s' j = sem_view s j)) ∧
  (sense_context s = false → ∃ s', pol_sem semid s = RET (sem_take (sem_view s i)).1 s' ∧
    sem_view s' i = (sem_take (sem_view s i)).2 ∧ (∀ j, j ≠ i → sem_view s' j = sem_view s j)).
Proof.
  destruct HOK as [g HI]. apply (Inv_lock kernel_inv g s true) in HI.
  destruct (sem_exists kernel_inv _ i (i_obj _ _ _ HI) He) as (_ & (O1 & O2 & O3 & O4) & _).
  change (semcb (with_lock true s) i) with (semcb s i) in *.
  assert (Hbound : 0 ≤ semcnt (semcb s i) ∧ maxsem (p_seminib (semcb s i)) < 2^32) by (unfold TMAX_MAXSEM in *; lia).
  change (sem_view s i) with (semcnt (semcb s i), wq s (SEMQ i)). split; intros Hc.
  - destruct (wq s (SEMQ i)) as [|t l] eqn:Hq; simpl.
    + unfold isig_sem, CHECK_INTCTX_UNL, CHECK_SEMID, CHECK_ID, check. rewrite Hc, Hlock, Hid. simpl.
      destruct (Z.ltb_spec (semcnt (semcb s i)) (maxsem (p_seminib (semcb s i)))) as [Hlt|Hge]; simpl.
      * eexists. split; [sem_body s He; fold i; rewrite Hq; simpl; rewrite (proj2 (Z.ltb_lt _ _) Hlt); reflexivity|].
        rewrite <- Hq. apply sem_view_count; [|done]. unfold u32. by rewrite Z.mod_small by lia.
      * exists (with_lock false (with_lock true s)). split; [|by unfold sem_view; simpl; rewrite ?Hq].
        sem_body s He. fold i. rewrite Hq. simpl. by rewrite (proj2 (Z.ltb_ge _ _) Hge).
    + destruct (isig_sem_wakes g s semid t l HI Hc Hlock Hid He Hq) as (s' & E & Ho & Hv).
      pose proof (wq_nodup _ _ (k_wq _ _ (i_k _ _ _ HI)) (SEMQ i)) as Hnd.
      change (wq (with_lock true s) (SEMQ i)) with (wq s (SEMQ i)) in Hnd. rewrite Hq in Hnd.
      exists s'. split; [done|]. unfold sem_view. split; [|intros j Hne]; rewrite Ho, Hv; f_equal.
      * rewrite Hq. by apply without_head.
      * apply without_id. intros Ht. assert (Ht2 : t ∈ wq s (SEMQ i)) by (rewrite Hq; left).
        apply (k_wq _ _ (i_k _ _ _ HI)) in Ht, Ht2. congruence.
  - unfold pol_sem, CHECK_TSKCTX_UNL, CHECK_SEMID, CHECK_ID, check. rewrite Hc, Hlock, Hid. simpl.
    destruct (Z.ltb_spec 0 (semcnt (semcb s i))) as [Hlt|Hge]; simpl.
    + eexists. split; [sem_body s He; rewrite (proj2 (Z.leb_le _ _)) by lia; reflexivity|].
      apply sem_view_count; [|done]. unfold u32. by rewrite Z.mod_small by lia.
    + exists (with_lock false (with_lock true s)). split; [|done].
      sem_body s He. by rewrite (proj2 (Z.leb_gt _ _)) by lia.
Qed.
(** ** Data queues *)

(** C5: A data queue is a first-in first-out list. [send_data] hands the data
    to the first receiver, or puts it behind the contents, or refuses exactly
    when nobody receives and the buffer is full. [receive_data] takes the
    first of the contents followed by what the waiting senders bring, in the
    order in which they wait, or refuses exactly when there is none. *)
Theorem dataqueue_fifo g s i (d : Z)
    (HI : Inv kernel_inv g s) (He : dtqatr (p_dtqinib (dtqcb s i)) ≠ TA_NOEXS) :
  (∃ r s', send_data i d s = RET r s' ∧
    match r, wq s (RDTQ i) with
    | None, R => s' = s ∧ R = [] ∧ Z.of_nat (length (contents s i)) = dtqcnt (p_dtqinib (dtqcb s i))
    | Some _, [] => contents s' i = contents s i ++ [d] ∧ wq s' = wq s
    | Some _, t :: l => wq s' (RDTQ i) = l ∧ contents s' i = contents s i ∧
        ∃ w, p_winfo (tcb_table s t) = Some w ∧ w_data (winfos s' w) = d ∧ winfo (winfos s' w) = WERCD E_OK
    end) ∧
  (∃ r s', receive_data i s = RET r s' ∧
    match r with
    | None => s' = s ∧ dtq_view s i = []
    | Some (d', _) => dtq_view s i = d' :: dtq_view s' i
    end).
Proof.
  destruct (dtq_exists kernel_inv s i (i_obj _ _ _ HI) He) as (_ & [HR _ _ _] & _).
  assert (Hlen : Z.of_nat (length (contents s i)) = dtq_count (dtqcb s i)).
  { unfold contents, dtq_contents. rewrite length_fmap, length_seqZ. destruct HR. lia. }
  split.
  - destruct (send_data_ok kernel_inv g s i d HI He) as (r & s' & E & Hr). exists r, s'. split; [exact E|].
    destruct r as [b|].
    + destruct Hr as [_ [(t & w & Hq & Hw & Hd & He' & Ho)|(Hq & _ & Hc & Hw)]]; rewrite Hq; [|done].
      split_and!; [done|unfold contents; by rewrite Ho|by exists w].
    + destruct Hr as (-> & Hq & Hc). by rewrite Hlen.
  - destruct (receive_data_ok kernel_inv g s i HI He) as (r & s' & E & Hr). exists r, s'. split; [exact E|].
    destruct r as [[d' b]|]; [by destruct Hr|]. destruct Hr as (-> & Hq & Hc). split; [done|].
    unfold dtq_view. rewrite Hq, app_nil_r. destruct (contents s i); [done|]. simpl in Hlen. lia.
Qed.

(** [force_send_data] always succeeds: with no receiver, the data goes
    behind the contents, of which the oldest is dropped when the buffer is
    full. *)
Theorem dataqueue_force g s i (d : Z)
    (HI : Inv kernel_inv g s) (He : dtqatr (p_dtqinib (dtqcb s i)) ≠ TA_NOEXS) (Hcnt : 0 < dtqcnt (p_dtqinib (dtqcb s i)))
    (Hrcv : wq s (RDTQ i) = []) :
  ∃ b s', force_send_data i d s = RET b s' ∧
    contents s' i = (if Z.of_nat (length (contents s i)) <? dtqcnt (p_dtqinib (dtqcb s i))
                     then contents s i else tail (contents s i)) ++ [d].
Proof.
  destruct (dtq_exists kernel_inv s i (i_obj _ _ _ HI) He) as (_ & [HR _ _ _] & _).
  assert (Hlen : Z.of_nat (length (contents s i)) = dtq_count (dtqcb s i)).
  { unfold contents, dtq_contents. rewrite length_fmap, length_seqZ. destruct HR. lia. }
  destruct (force_send_data_ok kernel_inv g s i d HI He Hcnt) as (b & s' & E & _ & Hc).
  exists b, s'. split; [exact E|]. rewrite Hlen. auto.
Qed.

(** ** Memory *)

Fixpoint mallocs (sizes : list Z) : K (list Z) :=
  match sizes with
  | [] => ret []
  | size :: sizes => p <- kernel_malloc size ;; ps <- mallocs sizes ;; ret (p :: ps)
  end.

Lemma mallocs_below sizes : ∀ s,
  Forall (fun z => 0 ≤ z) sizes → kmm ≤ o_kmm_brk (obj s) →
  ∃ ps s', mallocs sizes s = RET ps s' ∧ length ps = length sizes ∧
    (∀ k p z, ps !! k = Some p → sizes !! k = Some z → p ≠ 0 → kmm ≤ p ∧ p + z ≤ o_kmm_brk (obj s)) ∧
    (∀ j k pj pk zk, (j < k)%nat → ps !! j = Some pj → ps !! k = Some pk → sizes !! k = Some zk →
      pj ≠ 0 → pk ≠ 0 → pk + zk ≤ pj).
Proof.
  induction sizes as [|z sizes IH]; intros s Hz Hb.
  - exists [], s. split_and!; [done|done|by intros ? ? ?|by intros ? ? ? ? ? _ ?].
  - apply Forall_cons in Hz as [Hz Hzs]. simpl. unfold bind at 1. rewrite kernel_malloc_eq. simpl.
    destruct (Z.leb_spec z (o_kmm_brk (obj s) - kmm)) as [Hle|Hlt].
    + set (s1 := upd_obj _ s). destruct (IH s1 Hzs) as (ps & s' & E & Hl & H1 & H2); [simpl; lia|].
      exists (o_kmm_brk (obj s) - z :: ps), s'. rewrite (bind_RET _ _ _ _ _ E). split_and!; [done|simpl; lia| |].
      * intros [|k] p z' Hp Hz' Hp0; simpl in *.
        -- injection Hp as <-. injection Hz' as <-. lia.
        -- destruct (H1 k p z' Hp Hz' Hp0) as [? Ht]. simpl in Ht. lia.
      * intros [|j] [|k] pj pk zk Hjk Hj Hk Hzk Hj0 Hk0; simpl in *; try lia.
        -- injection Hj as <-. destruct (H1 k pk zk Hk Hzk Hk0) as [? Ht]. exact Ht.
        -- eapply (H2 j k); try done. lia.
    + destruct (IH s Hzs Hb) as (ps & s' & E & Hl & H1 & H2).
      exists (0 :: ps), s'. rewrite (bind_RET _ _ _ _ _ E). split_and!; [done|simpl; lia| |].
      * intros [|k] p z' Hp Hz' Hp0; simpl in *; [congruence|eauto].
      * intros [|j] [|k] pj pk zk Hjk Hj Hk Hzk Hj0 Hk0; simpl in *; try lia; [congruence|].
        eapply (H2 j k); try done. lia.
Qed.

(** The blocks that a sequence of calls of [kernel_malloc] hands out lie in
    the kernel's region and do not overlap; a call that finds no room returns
    NULL and does not spoil the later ones. *)
Theorem kernel_malloc_disjoint s (sizes : list Z)
    (HOK : kernel_inv s) (Hpos : Forall (fun z => 0 ≤ z) sizes) :
  ∃ ps s', mallocs sizes s = RET ps s' ∧ length ps = length sizes ∧
    (∀ k p z, ps !! k = Some p → sizes !! k = Some z → p ≠ 0 → kmm ≤ p ∧ p + z ≤ kmm + kmmsz) ∧
    (∀ j k pj pk zj zk, j ≠ k → ps !! j = Some pj → ps !! k = Some pk → sizes !! j = Some zj → sizes !! k = Some zk →
      pj ≠ 0 → pk ≠ 0 → pk + zk ≤ pj ∨ pj + zj ≤ pk).
Proof.
  destruct (kv_kmm _ HOK) as [Hk1 Hk2].
  destruct (mallocs_below sizes s Hpos Hk1) as (ps & s' & E & Hl & H1 & H2). exists ps, s'. split_and!; try done.
  - intros k p z Hp Hz Hp0. destruct (H1 k p z Hp Hz Hp0). lia.
  - intros j k pj pk zj zk Hne Hj Hk Hzj Hzk Hj0 Hk0. destruct (decide (j < k)%nat).
    + left. by eapply (H2 j k).
    + right. eapply (H2 k j); try done. lia.
Qed.

(** ** Interrupts *)

(** The binary search for the queue of an interrupt number ends and gives
    what a search of the whole list gives, when the list is in the order of the
    numbers, as the configurator writes it. *)
Theorem search_isr_queue_correct (intno : Z) (Hs : isr_list_sorted) :
  search_isr_queue intno = (fun r => snd (snd r)) <$> list_find (fun e => fst e = intno) isr_queue_list.
Proof.
  destruct (list_find (fun e => fst e = intno) isr_queue_list) as [[k [n o]]|] eqn:Hf; simpl.
  - apply list_find_Some in Hf as (Hk & <- & _). simpl. apply search_isr_queue_ok; [done|].
    by eapply list_elem_of_lookup_2.
  - apply list_find_None in Hf. rewrite Forall_forall in Hf. destruct (search_isr_queue intno) as [o|] eqn:Ho; [|done].
    apply search_isr_queue_ok in Ho; [|done]. by destruct (Hf _ Ho).
Qed.

(** ** Mutexes *)

(** [mutex_calc_priority] computes the highest of the base priority and
    the ceilings of the ceiling mutexes the task has locked. *)
Theorem mutex_calc_priority_correct t s :
  let v := mutex_calc_priority t s in let T := tcb_table s t in
  v ≤ bpriority T ∧
  (∀ i, i ∈ mutex_queue T → MTX_CEILING (mtxcb s i) = true → v ≤ ceilpri (p_mtxinib (mtxcb s i))) ∧
  (v = bpriority T ∨
   ∃ i, i ∈ mutex_queue T ∧ MTX_CEILING (mtxcb s i) = true ∧ v = ceilpri (p_mtxinib (mtxcb s i))).
Proof. apply calc_is. Qed.
(** A mutex created with [acre_mtx] gets the external ceiling priority
    where the rest of mutex.c, and the table the configurator writes, have the
    internal one, which is lower by one: the ceiling is one level too low. *)
Theorem acre_mtx_external_ceiling s i l (pk : T_CMTX)
    (Hctx : sense_context s = false) (Hlock : sense_lock s = false) (Hn : tnum_mtx ≠ 0%nat)
    (Hp : VALID_TPRI (c_ceilpri pk) = true) (Hfree : o_free_mtxcb (obj s) = i :: l) :
  ∃ s', acre_mtx pk s = RET (IDOF i) s' ∧
    ceilpri (p_mtxinib (mtxcb s' i)) = INT_PRIORITY (c_ceilpri pk) + 1.
Proof.
  unfold acre_mtx, CHECK_TSKCTX_UNL, CHECK_TPRI, CHECK_PAR, check. rewrite Hctx, Hlock, Hp. simpl.
  eexists. split.
  - apply locked_RET. unfold kget. change (obj (with_lock true s)) with (obj s). rewrite Hfree.
    rewrite (proj2 (Nat.eqb_neq _ _) Hn). simpl. unfold bind at 1, take_free, kget. simpl. rewrite Hfree. reflexivity.
  - simpl. rewrite !fn_lookup_insert. simpl. unfold VALID_TPRI, INT_PRIORITY, u32, TMIN_TPRI, TMAX_TPRI in *.
    apply andb_true_iff in Hp as [H1%Z.leb_le H2%Z.leb_le]. rewrite Z.mod_small; lia.
Qed.

(** C40: [del_mtx] of a mutex that is locked and that nobody awaits leaves it in
    the list of the task that holds it, while its control block goes to the
    free list: the invariant of the mutexes is broken. *)
Theorem del_mtx_dangling s mtxid t (i := INDEX mtxid)
    (HOK : kernel_inv s) (Hctx : sense_context s = false) (Hlock : sense_lock s = false)
    (Hid : VALID_ID tmax_mtxid mtxid = true) (Hdyn : tmax_smtxid < IDOF i)
    (He : ¬ mtx_gone s i) (Hloc : p_loctsk (mtxcb s i) = Some t) (Hq : wq s (MTXQ i) = []) :
  ∃ s', del_mtx mtxid s = RET E_OK s' ∧ mtx_gone s' i ∧ i ∈ o_free_mtxcb (obj s') ∧
    i ∈ mutex_queue (tcb_table s' t) ∧ ¬ mtx_inv s'.
Proof.
  assert (Hnf : i ∉ o_free_mtxcb (obj s)) by (intros Hf; by apply (mi_free _ _ _ (kv_mtx _ HOK)) in Hf).
  assert (Hin : i ∈ mutex_queue (tcb_table s t)) by (apply (mi_own _ _ _ (kv_mtx _ HOK)); [intros []|by split]).
  unfold del_mtx, CHECK_TSKCTX_UNL, CHECK_MTXID, CHECK_ID, check. rewrite Hctx, Hlock, Hid. simpl.
  set (s1 := with_lock true s).
  assert (E : init_wait_queue (MTXQ i) s1 = RET false s1).
  { unfold init_wait_queue, bind, kassert, kget. simpl. rewrite bool_decide_eq_true_2 by exact Hnf. simpl.
    change (wq s1 (MTXQ i)) with (wq s (MTXQ i)). rewrite Hq. simpl. unfold kget, queue_empty, Fam.queue_empty.
    change (wq s1 (MTXQ i)) with (wq s (MTXQ i)). by rewrite Hq. }
  eexists. split; [|split_and!].
  - apply locked_RET. unfold kget. fold i s1. change (mtxcb s1 i) with (mtxcb s i).
    rewrite (proj2 (Z.eqb_neq _ _) He), (proj2 (Z.ltb_lt _ _) Hdyn), (bind_RET _ _ _ _ _ E). reflexivity.
  - unfold mtx_gone. simpl. by rewrite fn_lookup_insert.
  - simpl. set_solver.
  - exact Hin.
  - intros Hm. destruct (proj1 (mi_own _ _ _ Hm t i (fun H => H)) Hin) as [Hg _]. apply Hg. unfold mtx_gone. simpl.
    by rewrite fn_lookup_insert.
Qed.

(** [ini_mtx] does not test whether the mutex exists: for one in the free
    list it takes the links of the free list for a wait queue. *)
Theorem ini_mtx_missing_check s mtxid
    (Hctx : sense_context s = false) (Hlock : sense_lock s = false) (Hid : VALID_ID tmax_mtxid mtxid = true)
    (Hfree : INDEX mtxid ∈ o_free_mtxcb (obj s)) : ini_mtx mtxid s = UB.
Proof.
  unfold ini_mtx, CHECK_TSKCTX_UNL, CHECK_MTXID, CHECK_ID, check. rewrite Hctx, Hlock, Hid. simpl.
  assert (E : init_wait_queue (MTXQ (INDEX mtxid)) (with_lock true s) = UB).
  { unfold init_wait_queue, bind, kassert. simpl. case_bool_decide as Hf; [by destruct Hf|done]. }
  unfold bind at 1, lock_cpu, upd. simpl. change (upd_cpu _ s) with (with_lock true s).
  unfold bind at 1 2. by rewrite E.
Qed.
End behaviour.

#[local] Existing Instance Example.cfg.
Notation k := Example.kernel.

Lemma semaphore_refinement_witness :
  (∃ s', isig_sem 1 Example.handler = RET E_OK s' ∧ sem_view s' 0 = (0, []) ∧
    ∀ j, j ≠ 0%nat → sem_view s' j = sem_view Example.handler j) ∧
  (∃ s', pol_sem 1 k = RET E_TMOUT s' ∧ sem_view s' 0 = (0, [1%nat]) ∧ ∀ j, j ≠ 0%nat → sem_view s' j = sem_view k j).
Proof.
  split.
  - apply (semaphore_refinement Example.handler 1 Example.handler_OK eq_refl eq_refl); done.
  - apply (semaphore_refinement k 1 Example.kernel_OK eq_refl eq_refl); done.
Defined.

Lemma dataqueue_fifo_witness :
  (∃ r s', send_data 0 7 k = RET r s' ∧
    match r, wq k (RDTQ 0) with
    | None, R => s' = k ∧ R = [] ∧ Z.of_nat (length (contents k 0)) = dtqcnt (p_dtqinib (dtqcb k 0%nat))
    | Some _, [] => contents s' 0 = contents k 0 ++ [7] ∧ wq s' = wq k
    | Some _, t :: l => wq s' (RDTQ 0) = l ∧ contents s' 0 = contents k 0 ∧
        ∃ w, p_winfo (tcb_table k t) = Some w ∧ w_data (winfos s' w) = 7 ∧ winfo (winfos s' w) = WERCD E_OK
    end) ∧
  (∃ r s', receive_data 0 k = RET r s' ∧
    match r with
    | None => s' = k ∧ dtq_view k 0 = []
    | Some (d', _) => dtq_view k 0 = d' :: dtq_view s' 0
    end).
Proof. apply (dataqueue_fifo Example.states k 0 7 Example.kernel_Inv). done. Defined.

Lemma dataqueue_force_witness :
  ∃ b s', force_send_data 0 7 k = RET b s' ∧
    contents s' 0 = (if Z.of_nat (length (contents k 0)) <? 2 then contents k 0 else tail (contents k 0)) ++ [7].
Proof. apply (dataqueue_force Example.states k 0 7 Example.kernel_Inv); done. Defined.

Lemma kernel_malloc_disjoint_witness :
  ∃ ps s', mallocs [100; 5000; 200] k = RET ps s' ∧ length ps = 3%nat ∧
    (∀ n p z, ps !! n = Some p → [100; 5000; 200] !! n = Some z → p ≠ 0 → 65536 ≤ p ∧ p + z ≤ 65536 + 4096) ∧
    (∀ j n pj pk zj zk, j ≠ n → ps !! j = Some pj → ps !! n = Some pk →
      [100; 5000; 200] !! j = Some zj → [100; 5000; 200] !! n = Some zk →
      pj ≠ 0 → pk ≠ 0 → pk + zk ≤ pj ∨ pj + zj ≤ pk).
Proof. apply (kernel_malloc_disjoint k [100; 5000; 200] Example.kernel_objs). repeat constructor; lia. Defined.

Lemma search_isr_queue_correct_witness :
  search_isr_queue 40 = Some 1%nat ∧
  search_isr_queue 40 = (fun r => snd (snd r)) <$> list_find (fun e => fst e = 40) isr_queue_list.
Proof.
  split; [reflexivity|]. apply (search_isr_queue_correct 40). unfold isr_list_sorted. simpl.
  repeat constructor; simpl; lia.
Defined.

Lemma acre_mtx_external_ceiling_witness :
  ∃ s', acre_mtx (mkT_CMTX TA_CEILING 5) k = RET 2 s' ∧
    ceilpri (p_mtxinib (mtxcb s' 1%nat)) = INT_PRIORITY 5 + 1.
Proof. apply (acre_mtx_external_ceiling k 1 [] (mkT_CMTX TA_CEILING 5)); done. Defined.

(** The example kernel with mutex 0 locked by task 0. *)
Definition locked : State := mq_st 0 (cons 0%nat) (lock_st 0 (Some 0%nat) k).

Lemma locked_inv : kernel_inv locked.
Proof.
  apply (kcomp_put k); [apply Example.kernel_objs| |].
  - eapply mframe_trans; [apply (lock_st_mstep Example.states k 0 (Some 0%nat) Example.kernel_KInv)|].
    eapply (ms_frame Example.states), mq_st_mstep, (lock_st_mstep Example.states k 0 (Some 0%nat) Example.kernel_KInv).
  - assert (Hd : ¬ dormant k 0) by done.
    pose proof (mtx_pre_acquire none none k 0 0 Example.kernel_mtx (fun H => H)) as Hm.
    apply (mtx_pre_good none none _ 0); [apply Hm; try done|].
    intros _. split_and!; [done| |by left]. intros i Hi _. simpl in Hi. apply list_elem_of_singleton in Hi as ->. done.
Qed.

Lemma del_mtx_dangling_witness :
  ∃ s', del_mtx 1 locked = RET E_OK s' ∧ mtx_gone s' 0 ∧ 0%nat ∈ o_free_mtxcb (obj s') ∧
    0%nat ∈ mutex_queue (tcb_table s' 0%nat) ∧ ¬ mtx_inv s'.
Proof. apply (del_mtx_dangling locked 1 0 locked_inv); done. Defined.

Lemma ini_mtx_missing_check_witness : ini_mtx 2 k = UB.
Proof. apply (ini_mtx_missing_check k 2); [done..|left]. Defined.
