(* ===== verification/Storage.v ===== *)
(** * Theorems about pools, mailboxes and priority data queues

    The objects that keep something for the tasks: blocks of memory, chains of
    messages, data with a priority.  Their calls are compared with operations
    on sets and lists. *)

From S2P Require Import Prelude Queue Data Kmonad TimeEvent Task Wait Core Release Service Object Kmm Mempfix MempfixProof Pridataq PridataqProof Mailbox MailboxProof Kernel.
Open Scope Z_scope.

Section storage.
Context {cfg : Config}.
Implicit Types (s : State) (g : nat → tst) (t w i : nat) (q : qid).

(** ** Fixed-sized memory pools *)

(** Block [k] of pool [i] is in the hands of the application. *)
Definition allocated s i (k : Z) : Prop := alloc (mpfcb s i) (o_mpfmb (obj s) (p_mpfmb (p_mpfinib (mpfcb s i)))) k.
Definition block_addr s i (k : Z) : Z := mpf (p_mpfinib (mpfcb s i)) + blksz (p_mpfinib (mpfcb s i)) * k.

Lemma blk_addr_block s i L k :
  pool_ok (mpfcb s i) (o_mpfmb (obj s) (p_mpfmb (p_mpfinib (mpfcb s i)))) L → 0 ≤ k < blkcnt (p_mpfinib (mpfcb s i)) →
  blk_addr (mpfcb s i) k = block_addr s i k.
Proof. intros [] Hk. unfold blk_addr, block_addr. f_equal. apply Z.mod_small. nia. Qed.

(** [rel_mpf] of an allocated block nobody waits for. *)
Lemma rel_mpf_eq s mpfid k (i := INDEX mpfid) :
  OK kernel_inv s → sense_context s = false → sense_lock s = false → VALID_ID tmax_mpfid mpfid = true →
  mpfatr (p_mpfinib (mpfcb s i)) ≠ TA_NOEXS → wq s (MPFQ i) = [] → allocated s i k →
  ∃ s', rel_mpf mpfid (block_addr s i k) s = RET E_OK s' ∧ OK kernel_inv s' ∧
    (∀ j, allocated s' i j ↔ allocated s i j ∧ j ≠ k) ∧
    fblkcnt (mpfcb s' i) = fblkcnt (mpfcb s i) + 1.
Proof.
  intros [g HI] Hctx Hlock Hid He Hq Ha. apply (Inv_lock kernel_inv g s true) in HI. set (s1 := with_lock true s) in *.
  destruct (mpf_exists kernel_inv s1 i (i_obj _ _ _ HI) He) as (_ & [[L HP] _] & _).
  change (mpfcb s1 i) with (mpfcb s i) in HP. change (obj s1) with (obj s) in HP.
  assert (Hk : 0 ≤ k < blkcnt (p_mpfinib (mpfcb s i))) by (destruct Ha, HP; lia).
  rewrite <- (blk_addr_block s i L k HP Hk). destruct (blk_addr_valid s _ L k HP Hk) as [Hidx Hval].
  pose proof (put_st_ok kernel_inv g s1 i L k HI He Hq HP Ha) as HI'. destruct (put_st_pool i k s1) as [E1 E2].
  destruct (pool_put _ _ L k HP Ha) as [HP' Hiff].
  exists (with_lock false (put_st i k s1)). split_and!.
  - unfold rel_mpf, CHECK_TSKCTX_UNL, CHECK_MPFID, CHECK_ID, check. rewrite Hctx, Hlock, Hid. simpl. apply locked_RET.
    unfold kget. fold i s1. change (mpfcb s1 i) with (mpfcb s i). rewrite (proj2 (Z.eqb_neq _ _) He).
    rewrite (proj2 (Z.eqb_neq _ _)) by (destruct HP; lia). change (blk_valid s1) with (blk_valid s).
    rewrite (proj2 Hval Ha), Hidx. unfold queue_empty, Fam.queue_empty. change (wq s1) with (wq s). rewrite Hq. reflexivity.
  - apply (OK_lock kernel_inv). by exists g.
  - intros j. unfold allocated. change (mpfcb (with_lock false (put_st i k s1)) i) with (mpfcb (put_st i k s1) i).
    change (obj (with_lock false (put_st i k s1))) with (obj (put_st i k s1)). rewrite E2, E1. apply Hiff.
  - change (mpfcb (with_lock false (put_st i k s1)) i) with (mpfcb (put_st i k s1) i). rewrite E1. simpl.
    pose proof (po_count _ _ _ HP) as Hc. pose proof (po_count _ _ _ HP') as Hc'. cbn -[u32] in Hc'. rewrite Hc', Hc. lia.
Qed.

(** C6: A pool hands out a free block and takes it back: [pget_mpf] of a pool
    with a free block returns the address of a block of the pool that was not
    allocated, which then is, and [rel_mpf] of that address brings the pool back
    to where it was: the same blocks are allocated and as many are free. *)
Theorem mempfix_roundtrip s mpfid (i := INDEX mpfid)
    (HOK : OK kernel_inv s) (Hctx : sense_context s = false) (Hlock : sense_lock s = false)
    (Hid : VALID_ID tmax_mpfid mpfid = true) (He : mpfatr (p_mpfinib (mpfcb s i)) ≠ TA_NOEXS)
    (Hfree : 0 < fblkcnt (mpfcb s i)) :
  ∃ k s1, pget_mpf mpfid s = RET (E_OK, Some (block_addr s i k)) s1 ∧
    0 ≤ k < blkcnt (p_mpfinib (mpfcb s i)) ∧ ¬ allocated s i k ∧ (∀ j, allocated s1 i j ↔ allocated s i j ∨ j = k) ∧
    ∃ s2, rel_mpf mpfid (block_addr s i k) s1 = RET E_OK s2 ∧ (∀ j, allocated s2 i j ↔ allocated s i j) ∧
      fblkcnt (mpfcb s2 i) = fblkcnt (mpfcb s i).
Proof.
  destruct HOK as [g HI]. apply (Inv_lock kernel_inv g s true) in HI. set (s0 := with_lock true s) in *.
  destruct (mpf_exists kernel_inv s0 i (i_obj _ _ _ HI) He) as (_ & [[L HP] Hw] & _).
  destruct (get_mpf_block_ok kernel_inv g s0 i HI He Hfree) as (s1 & E & HI1 & Hv & Hc & E1 & E2 & Eq).
  destruct (pool_take _ _ L HP Hfree) as (L' & HP' & Hr & Hna & Hal).
  set (k := next_block (mpfcb s0 i)) in *. exists k, (with_lock false s1).
  assert (Hini : p_mpfinib (mpfcb s1 i) = p_mpfinib (mpfcb s i)) by (rewrite E1; unfold taken; by destruct (negb _)).
  assert (Hall : ∀ j, allocated (with_lock false s1) i j ↔ allocated s i j ∨ j = k).
  { intros j. unfold allocated. change (mpfcb (with_lock false s1) i) with (mpfcb s1 i).
    change (obj (with_lock false s1)) with (obj s1). rewrite E2, E1. apply Hal. }
  split; [|split; [exact Hr|split; [exact Hna|split; [exact Hall|]]]].
  - unfold pget_mpf, CHECK_TSKCTX_UNL, CHECK_MPFID, CHECK_ID, check. rewrite Hctx, Hlock, Hid. simpl. apply locked_RET.
    unfold kget. fold i s0. change (mpfcb s0 i) with (mpfcb s i). rewrite (proj2 (Z.eqb_neq _ _) He), (proj2 (Z.ltb_lt _ _) Hfree), (bind_RET _ _ _ _ _ E).
    by rewrite (blk_addr_block s0 i L k HP Hr).
  - assert (Hq : wq s1 (MPFQ i) = []).
    { rewrite Eq. destruct (wq s0 (MPFQ i)) eqn:Hq; [done|]. assert (fblkcnt (mpfcb s i) = 0) by (by apply Hw). lia. }
    assert (Haddr : block_addr s i k = block_addr (with_lock false s1) i k) by (unfold block_addr; simpl; by rewrite Hini).
    rewrite Haddr. destruct (rel_mpf_eq (with_lock false s1) mpfid k) as (s2 & E3 & _ & H1 & H2); try done.
    + apply (OK_lock kernel_inv). by exists g.
    + unfold sense_context. simpl. rewrite Hc. exact Hctx.
    + change (mpfatr (p_mpfinib (mpfcb s1 i)) ≠ TA_NOEXS). by rewrite Hini.
    + apply Hall. by right.
    + exists s2. split; [exact E3|]. split.
      * intros j. fold i in H1. rewrite H1, Hall. destruct (decide (j = k)) as [->|]; naive_solver.
      * fold i in H2. rewrite H2. change (mpfcb (with_lock false s1) i) with (mpfcb s1 i). rewrite E1. pose proof (pool_length _ _ _ HP). destruct HP as [[? ?] ? ? _ _ _ _ HC].
        change (u32 (fblkcnt (mpfcb s i) - 1) + 1 = fblkcnt (mpfcb s i)). change (mpfcb s0 i) with (mpfcb s i) in *.
        unfold sizeof_MPFMB in *. unfold u32. rewrite Z.mod_small; lia.
Qed.

(** [rel_mpf] tells the blocks it has handed out from every other address:
    while nobody waits, it takes back an address exactly when it is the address
    of an allocated block, and answers E_PAR and changes nothing otherwise. *)
Theorem mempfix_release_checked s mpfid (blk : Z) (i := INDEX mpfid)
    (HOK : OK kernel_inv s) (Hctx : sense_context s = false) (Hlock : sense_lock s = false)
    (Hid : VALID_ID tmax_mpfid mpfid = true) (He : mpfatr (p_mpfinib (mpfcb s i)) ≠ TA_NOEXS)
    (Hq : wq s (MPFQ i) = []) (Hpool : 0 ≤ mpf (p_mpfinib (mpfcb s i))) (Hblk : 0 ≤ blk < 2^32) :
  (∃ k s', blk = block_addr s i k ∧ allocated s i k ∧ rel_mpf mpfid blk s = RET E_OK s' ∧
    ∀ j, allocated s' i j ↔ allocated s i j ∧ j ≠ k) ∨
  ((∀ k, allocated s i k → blk ≠ block_addr s i k) ∧ rel_mpf mpfid blk s = RET E_PAR s).
Proof.
  pose proof HOK as [g HI]. apply (Inv_lock kernel_inv g s true) in HI. set (s0 := with_lock true s) in *.
  destruct (mpf_exists kernel_inv s0 i (i_obj _ _ _ HI) He) as (_ & [[L HP] _] & _).
  change (mpfcb s0 i) with (mpfcb s i) in HP. change (obj s0) with (obj s) in HP.
  pose proof (po_sz _ _ _ HP) as [Hsz Hsz'].
  destruct (blk_valid s (mpfcb s i) blk) eqn:Hv; [left|right].
  - pose proof (blk_valid_alloc s _ L blk HP Hv) as Ha. set (k := blk_index (mpfcb s i) blk) in Ha.
    assert (Hb : blk = block_addr s i k).
    { unfold blk_valid in Hv. rewrite !andb_true_iff, Z.leb_le, !Z.eqb_eq in Hv. destruct Hv as [[[H1 H2] _] _].
      unfold k, block_addr, blk_index, blk_offset, u32 in *. rewrite (Z.mod_small (blk - _)) in * by lia.
      rewrite <- Z_div_exact_full_2; lia. }
    destruct (rel_mpf_eq s mpfid k HOK Hctx Hlock Hid He Hq Ha) as (s' & E & _ & H1 & _). exists k, s'. by rewrite Hb at 2.
  - split.
    + intros k Ha ->. assert (Hk : 0 ≤ k < blkcnt (p_mpfinib (mpfcb s i))) by (destruct Ha, HP; lia).
      destruct (blk_addr_valid s _ L k HP Hk) as [_ Hval]. rewrite (blk_addr_block s i L k HP Hk) in Hval.
      apply Hval in Ha. congruence.
    + unfold rel_mpf, CHECK_TSKCTX_UNL, CHECK_MPFID, CHECK_ID, check. rewrite Hctx, Hlock, Hid. simpl.
      rewrite <- (with_lock_same s Hlock) at 2. apply locked_RET.
      unfold kget. fold i s0. change (mpfcb s0 i) with (mpfcb s i). rewrite (proj2 (Z.eqb_neq _ _) He).
      rewrite (proj2 (Z.eqb_neq _ _)) by lia. change (blk_valid s0) with (blk_valid s). by rewrite Hv.
Qed.

(** ** Mailboxes *)

(** C7: A mailbox is a list of messages. [snd_mbx], nobody waiting, puts the
    message behind the others, or behind those whose priority is not lower if
    the mailbox keeps them in the order of their priorities; its walk ends
    when it may take more steps than there are messages. [prcv_mbx] takes
    the first message, or answers E_TMOUT when there is none. *)
Theorem mailbox_order s mbxid (fuel : nat) (m : Z) (L : list Z) (i := INDEX mbxid)
    (HOK : OK kernel_inv s) (Hctx : sense_context s = false) (Hlock : sense_lock s = false)
    (Hid : VALID_ID tmax_mbxid mbxid = true) (He : mbx_exists (obj s) i)
    (HL : box_ok (mbxcb s i) (o_msg (obj s)) L) :
  (wq s (MBXQ i) = [] → msg_free (obj s) m → (length L < fuel)%nat →
    (MPRI (mbxcb s i) = true → TMIN_MPRI ≤ MSGPRI s m ≤ maxmpri (p_mbxinib (mbxcb s i))) →
    ∃ s', snd_mbx fuel mbxid m s = RET E_OK s' ∧
      box_ok (mbxcb s' i) (o_msg (obj s')) (send_order (mbxcb s i) (o_msg (obj s)) L m)) ∧
  match L with
  | [] => prcv_mbx mbxid s = RET (E_TMOUT, None) s
  | x :: L' => ∃ s', prcv_mbx mbxid s = RET (E_OK, Some x) s' ∧ box_ok (mbxcb s' i) (o_msg (obj s')) L'
  end.
Proof.
  set (s0 := with_lock true s). assert (Heb : (mbxatr (p_mbxinib (mbxcb s0 i)) =? TA_NOEXS) = false) by (by apply Z.eqb_neq).
  assert (HL0 : box_ok (mbxcb s0 i) (o_msg (obj s0)) L) by exact HL. split.
  - intros Hq [Hn Hfree] Hfuel Hpri.
    assert (HmL : m ∉ L) by (intros Hx; apply (Hfree i); split; [done|]; exists L; split; [apply HL|done]).
    assert (Hpar : (negb (bits (mbxatr (p_mbxinib (mbxcb s0 i))) TA_MPRI) ||
      ((TMIN_MPRI <=? MSGPRI s0 m) && (MSGPRI s0 m <=? maxmpri (p_mbxinib (mbxcb s0 i))))) = true).
    { change (bits _ TA_MPRI) with (MPRI (mbxcb s i)). destruct (MPRI (mbxcb s i)) eqn:Hp; [simpl|done].
      change (MSGPRI s0 m) with (MSGPRI s m). change (mbxcb s0 i) with (mbxcb s i). specialize (Hpri eq_refl).
      rewrite andb_true_iff, !Z.leb_le. lia. }
    assert (Hsend : ∃ s1, (if bits (mbxatr (p_mbxinib (mbxcb s0 i))) TA_MPRI then enqueue_msg_pri fuel i m
        else set_pk_next m 0 ;;; (if negb (pk_head (mbxcb s0 i) =? 0) then set_pk_next (pk_last (mbxcb s0 i)) m
          else set_pk_head i m) ;;; set_pk_last i m) s0 = RET () s1 ∧ sent (obj s0) (obj s1) i L m).
    { destruct (bits _ TA_MPRI) eqn:Hp.
      - destruct (enqueue_msg_pri_ok s0 i m L fuel HL0) as (s1 & E & _ & HS); [lia|done..|]. by exists s1.
      - destruct (append_msg_ok s0 i m L HL0 HmL Hn Hp) as (s1 & E & _ & HS). by exists s1. }
    destruct Hsend as (s1 & E & HS). exists (with_lock false s1). split; [|apply HS].
    unfold snd_mbx, CHECK_TSKCTX_UNL, CHECK_MBXID, CHECK_ID, check. rewrite Hctx, Hlock, Hid. simpl. apply locked_RET.
    unfold kget at 1. fold i s0. rewrite Heb, Hpar. unfold queue_empty, Fam.queue_empty. change (wq s0) with (wq s). rewrite Hq.
    cbn [negb]. destruct (bits _ TA_MPRI); [by rewrite (bind_RET _ _ _ _ _ E)|by rewrite (seq3_RET _ _ _ _ _ _ E)].
  - assert (Hprcv : ∀ r s1, (if negb (pk_head (mbxcb s0 i) =? 0) then m <- take_msg i ;; ret (E_OK, Some m) else ret (E_TMOUT, None)) s0 = RET r s1 →
      prcv_mbx mbxid s = RET r (with_lock false s1)).
    { intros r s1 E. unfold prcv_mbx, CHECK_TSKCTX_UNL, CHECK_MBXID, CHECK_ID, check. rewrite Hctx, Hlock, Hid. simpl.
      apply locked_RET. unfold kget at 1. fold i s0. by rewrite Heb. }
    destruct L as [|x L].
    + pose proof (bo_chain _ _ _ HL0) as Hh. simpl in Hh. rewrite <- (with_lock_same s Hlock) at 2. apply Hprcv.
      change (pk_head (mbxcb s0 i)) with (pk_head (mbxcb s i)). by rewrite Hh.
    + pose proof (bo_chain _ _ _ HL0) as (Hh & Hx & _). destruct HOK as [g HI]. apply (Inv_lock kernel_inv g s true) in HI.
      destruct (take_msg_ok kernel_inv g s0 i HI He) as [E _]; [by rewrite Hh|].
      exists (with_lock false (take_st i s0)). split.
      * apply Hprcv. rewrite (proj2 (Z.eqb_neq _ _)) by (by rewrite Hh). cbn [negb]. rewrite (bind_RET _ _ _ _ _ E). by rewrite Hh.
      * pose proof (box_ok_tail _ _ _ _ HL0) as HT. rewrite <- Hh in HT. unfold take_st. simpl. by rewrite fn_lookup_insert.
Qed.

(** ** Priority data queues *)

Lemma pdq_holds_fun s i V V' : pdq_holds s i V → pdq_holds s i V' → V = V'.
Proof.
  intros (L & F & HB & ->) (L' & F' & HB' & ->). f_equal. eapply lchain_fun; [apply HB|apply HB'].
Qed.

(** C8: A priority data queue is a list of data in the order of their
    priorities. [send_pridata] hands the data to the first receiver, or puts
    them behind those of the same priority, or refuses exactly when nobody
    receives and every block is used. [receive_pridata] takes the first data,
    those of the first waiting sender then taking their place by priority, or
    those of the sender when there are no others, or refuses when there are
    none. *)
Theorem pridataq_order g s i (d : Z * Z)
    (HI : Inv kernel_inv g s) (He : pdqatr (p_pdqinib (pdqcb s i)) ≠ TA_NOEXS) :
  ∃ V, pdq_holds s i V ∧ prio_sorted snd V ∧
  (∃ r s', send_pridata i d.1 d.2 s = RET r s' ∧
    match r, wq s (RPDQ i) with
    | None, R => s' = s ∧ R = [] ∧ Z.of_nat (length V) = pdqcnt (p_pdqinib (pdqcb s i))
    | Some _, [] => pdq_holds s' i (pd_insert V d) ∧ wq s' = wq s
    | Some _, t :: l => wq s' (RPDQ i) = l ∧ pdq_holds s' i V ∧
        ∃ w, p_winfo (tcb_table s t) = Some w ∧ (w_data (winfos s' w), w_datapri (winfos s' w)) = d ∧
          winfo (winfos s' w) = WERCD E_OK
    end) ∧
  (∃ r s', receive_pridata i s = RET r s' ∧
    match r, V, wq s (SPDQ i) with
    | None, _, _ => s' = s ∧ V = [] ∧ wq s (SPDQ i) = []
    | Some (d', _), d0 :: V0, [] => d' = d0 ∧ pdq_holds s' i V0
    | Some (d', _), d0 :: V0, t :: l => d' = d0 ∧ pdq_holds s' i (pd_insert V0 (sender_pridata s t)) ∧ wq s' (SPDQ i) = l
    | Some (d', _), [], t :: l => d' = sender_pridata s t ∧ pdq_holds s' i [] ∧ wq s' (SPDQ i) = l
    | Some _, [], [] => False
    end).
Proof.
  destruct (pdq_exists kernel_inv s i (i_obj _ _ _ HI) He) as (_ & [(L & F & HB) _ _ _] & _).
  set (M := o_pdqmb (obj s) (p_pdqmb (p_pdqinib (pdqcb s i)))) in *.
  assert (HV : pdq_holds s i (pd_item M <$> L)) by (by exists L, F). exists (pd_item M <$> L). split; [done|]. split_and!.
  - pose proof (pq_sorted _ _ _ _ HB) as Hs. clear -Hs. induction Hs as [|x L Hs IH HF]; [constructor|].
    rewrite fmap_cons. constructor; [done|]. rewrite Forall_fmap. exact HF.
  - destruct (send_pridata_ok kernel_inv g s i d HI He) as (r & s' & E & Hr). exists r, s'. split; [exact E|].
    destruct r as [b|].
    + destruct Hr as [_ [(t & w & Hq & Hw & Hd & He' & Ho)|(Hq & _ & Hw & Hc)]]; rewrite Hq; [|split; [by apply Hc|done]].
      split_and!; [done|unfold pdq_holds; rewrite Ho; exact HV|by exists w].
    + destruct Hr as (-> & Hq & Hc). rewrite length_fmap. by rewrite <- Hc, (pq_count _ _ _ _ HB).
  - destruct (receive_pridata_ok kernel_inv g s i HI He) as (r & s' & E & Hr). exists r, s'. split; [exact E|].
    destruct r as [[d' b]|].
    + destruct Hr as [_ (V & V' & H1 & H2 & Hm)]. rewrite (pdq_holds_fun s i _ V HV H1).
      destruct V as [|d0 V0], (wq s (SPDQ i)) as [|t l]; [done|..].
      * destruct Hm as (-> & -> & ?). done.
      * by destruct Hm as [-> ->].
      * destruct Hm as (-> & -> & ?). done.
    + destruct Hr as (-> & Hq & Hc). rewrite Hq, (pq_count _ _ _ _ HB) in *. by destruct L.
Qed.
End storage.

#[local] Existing Instance Example.cfg.
Notation k := Example.kernel.

Lemma mempfix_roundtrip_witness :
  ∃ n s1, pget_mpf 1 k = RET (E_OK, Some (block_addr k 0 n)) s1 ∧
    0 ≤ n < 2 ∧ ¬ allocated k 0 n ∧ (∀ j, allocated s1 0 j ↔ allocated k 0 j ∨ j = n) ∧
    ∃ s2, rel_mpf 1 (block_addr k 0 n) s1 = RET E_OK s2 ∧ (∀ j, allocated s2 0 j ↔ allocated k 0 j) ∧ fblkcnt (mpfcb s2 0%nat) = 2.
Proof. apply (mempfix_roundtrip k 1 Example.kernel_OK eq_refl eq_refl eq_refl); [by vm_compute|reflexivity]. Defined.

Lemma mempfix_release_checked_witness :
  (∃ n s', 8 = block_addr k 0 n ∧ allocated k 0 n ∧ rel_mpf 1 8 k = RET E_OK s' ∧
    ∀ j, allocated s' 0 j ↔ allocated k 0 j ∧ j ≠ n) ∨
  ((∀ n, allocated k 0 n → 8 ≠ block_addr k 0 n) ∧ rel_mpf 1 8 k = RET E_PAR k).
Proof.
  apply (mempfix_release_checked k 1 8 Example.kernel_OK eq_refl eq_refl eq_refl); [by vm_compute|reflexivity|simpl; lia|lia].
Defined.

Lemma mailbox_order_witness :
  (∃ s', snd_mbx 1 1 8192 k = RET E_OK s' ∧ box_ok (mbxcb s' 0%nat) (o_msg (obj s')) [8192]) ∧
  prcv_mbx 1 k = RET (E_TMOUT, None) k.
Proof.
  assert (Hbox : box_ok (mbxcb k 0%nat) (o_msg (obj k)) []) by (by apply box_ok_empty).
  assert (Hmsg : msg_free (obj k) 8192).
  { split; [done|]. intros [|j] [He (L & Hc & Hx)]; [|by apply He].
    assert (L = []) as -> by (by eapply mchain_fun; [exact Hc|apply Hbox]). by apply not_elem_of_nil in Hx. }
  destruct (mailbox_order k 1 1 8192 [] Example.kernel_OK eq_refl eq_refl eq_refl) as [H1 H2]; [by vm_compute|exact Hbox|].
  split; [apply H1; [reflexivity|exact Hmsg|simpl; lia|by vm_compute]|exact H2].
Defined.

Lemma pridataq_order_witness :
  ∃ V, pdq_holds k 0 V ∧ ∃ r s', send_pridata 0 7 3 k = RET r s' ∧ pdq_holds s' 0 (pd_insert V (7, 3)).
Proof.
  destruct (pridataq_order Example.states k 0 (7, 3) Example.kernel_Inv) as (V & HV & _ & (r & s' & E & Hr) & _); [by vm_compute|].
  exists V. split; [exact HV|]. exists r, s'. split; [exact E|].
  assert (Hs : ∃ b s1, send_pridata 0 7 3 k = RET (Some b) s1) by (eexists _, _; vm_compute; reflexivity).
  destruct Hs as (b & s1 & E'). change (send_pridata 0 7 3 k = RET r s') in E. rewrite E in E'. injection E' as -> ->. apply Hr.
Defined.
