(* ===== verification/Ring.v ===== *)
(** * Ring buffers

    A ring buffer of [n] places keeps [count] entries from place [head] on;
    [tail] is the next place to write.  The system services keep characters
    and log entries in such buffers. *)

From S2P Require Import Prelude.
Open Scope Z_scope.

Section ring.
Context {A : Type} (n : Z).
Implicit Types (B : Z → A) (head tail count : Z).

Record ring_ok head tail count : Prop := {
  rg_size : 0 < n;
  rg_count : 0 ≤ count ≤ n;
  rg_head : 0 ≤ head < n;
  rg_tail : tail = (head + count) `mod` n }.

(** The entries, the oldest first. *)
Definition ring_contents B head count : list A := (fun i => B ((head + i) `mod` n)) <$> seqZ 0 count.

(** The next place. *)
Definition ring_next (p : Z) : Z := if p + 1 =? n then 0 else p + 1.

Lemma ring_mod a : 0 < n → 0 ≤ a < 2 * n → a `mod` n = if n <=? a then a - n else a.
Proof.
  intros Hn Ha. destruct (Z.leb_spec n a).
  - symmetry. apply (Z.mod_unique _ _ 1); lia.
  - apply Z.mod_small. lia.
Qed.

Lemma ring_next_mod p : 0 ≤ p < n → ring_next p = (p + 1) `mod` n.
Proof.
  intros Hp. unfold ring_next. rewrite ring_mod by lia.
  destruct (Z.eqb_spec (p + 1) n), (Z.leb_spec n (p + 1)); lia.
Qed.

Lemma ring_tail_bound head tail count : ring_ok head tail count → 0 ≤ tail < n.
Proof. intros [Hn _ _ ->]. by apply Z.mod_pos_bound. Qed.

Lemma ring_empty p : 0 < n → 0 ≤ p < n → ring_ok p p 0.
Proof. intros Hn Hp. split; [lia..|]. rewrite Z.add_0_r, Z.mod_small; lia. Qed.

Lemma ring_length B head count : 0 ≤ count → Z.of_nat (length (ring_contents B head count)) = count.
Proof. intros Hc. unfold ring_contents. rewrite length_fmap, length_seqZ. lia. Qed.

(** An entry is added. *)
Lemma ring_push B head tail count x :
  ring_ok head tail count → count < n →
  ring_ok head (ring_next tail) (count + 1) ∧
  ring_contents (<[tail := x]> B) head (count + 1) = ring_contents B head count ++ [x].
Proof.
  intros HR Hlt. pose proof (ring_tail_bound _ _ _ HR) as Ht. destruct HR as [Hn Hc Hh Htl]. split.
  - split; [lia..|]. rewrite ring_next_mod, Htl, Zplus_mod_idemp_l by lia. f_equal. lia.
  - unfold ring_contents. rewrite seqZ_app by lia. rewrite fmap_app. f_equal.
    + apply list_fmap_ext. intros k i Hi%list_elem_of_lookup_2%elem_of_seqZ. apply fn_lookup_insert_ne.
      rewrite Htl, !ring_mod by lia. destruct (Z.leb_spec n (head + count)), (Z.leb_spec n (head + i)); lia.
    + rewrite Z.add_0_l. simpl. rewrite Z.add_0_l, <- Htl. by rewrite fn_lookup_insert.
Qed.

(** The oldest entry is taken. *)
Lemma ring_pop B head tail count :
  ring_ok head tail count → 0 < count →
  ring_ok (ring_next head) tail (count - 1) ∧
  ring_contents B head count = B head :: ring_contents B (ring_next head) (count - 1).
Proof.
  intros [Hn Hc Hh Htl] Hpos. rewrite ring_next_mod by done.
  pose proof (Z.mod_pos_bound (head + 1) n Hn). split.
  - split; [lia..|]. rewrite Htl, Zplus_mod_idemp_l. f_equal. lia.
  - unfold ring_contents. replace count with (Z.succ (count - 1)) at 1 by lia. rewrite seqZ_cons by lia.
    simpl. f_equal; [by rewrite Z.add_0_r, Z.mod_small by lia|].
    replace (Z.pred (Z.succ (count - 1))) with (count - 1) by lia.
    rewrite <- (fmap_add_seqZ 1 0), <- list_fmap_compose. apply list_fmap_ext. intros k i _. simpl.
    rewrite Zplus_mod_idemp_l. do 2 f_equal. lia.
Qed.

(** A full buffer: the new entry replaces the oldest. *)
Lemma ring_replace B head tail x :
  ring_ok head tail n →
  ring_ok (ring_next tail) (ring_next tail) n ∧
  ring_contents (<[tail := x]> B) (ring_next tail) n = drop 1 (ring_contents B head n) ++ [x].
Proof.
  intros HR. pose proof HR as [Hn Hc Hh Htl].
  assert (tail = head) as ->.
  { rewrite Htl, ring_mod by lia. destruct (Z.leb_spec n (head + n)); lia. }
  destruct (ring_pop B head head n HR Hn) as [HR' E].
  destruct (ring_push B (ring_next head) head (n - 1) x HR') as [HR2 E2]; [lia|].
  replace (n - 1 + 1) with n in * by lia. split; [|by rewrite E, E2].
  destruct HR2 as [H1 H2 H3 H4]. by split.
Qed.
End ring.
