(* ===== verification/Syslog.v ===== *)
(** * System log (syssvc/syslog.c, library/log_output.c, library/vasyslog.c)

    The log buffer, the formatted output of an entry and the function [syslog]
    that makes an entry of a format and its arguments.  An [intptr_t] is a [Z]
    in the range of 32 bits.  [cstr] is the memory of strings: the characters
    at an address up to the NUL.  A function that prints returns the characters
    it passes to [putc]; [None] stands for undefined behaviour: an argument
    read that was never stored, a pointer that is no string, the negation of
    the least integer. *)

From Stdlib Require Import Ascii String.
From S2P Require Import Prelude Data Ring.
Open Scope Z_scope.

Definition s32 (x : Z) : Z := let y := u32 x in if y <? 2^31 then y else y - 2^32.

(** ** Data (include/t_syslog.h) *)

Definition LOG_TYPE_COMMENT := 1.
Definition LOG_TYPE_ASSERT := 2.
Definition TMAX_LOGINFO : nat := 6.
Definition LOG_MASK (prio : Z) : Z := u32 (Z.shiftl 1 prio).
Definition LOG_UPTO (prio : Z) : Z := u32 (u32 (Z.shiftl 1 (prio + 1)) - 1).

(** [loginfo] are the members that have been stored. *)
Record SYSLOG := mkSYSLOG { logtype : Z; logtim : Z; loginfo : list Z }.
#[export] Instance eta_SYSLOG : Eta SYSLOG := fun r => mkSYSLOG (logtype r) (logtim r) (loginfo r).

Definition TCNT_SYSLOG_BUFFER := 32.

(** The variables of syslog.c, and what [target_fput_log] has put out. *)
Record LOG := mkLOG {
  syslog_buffer : Z → SYSLOG;
  syslog_count : Z; syslog_head : Z; syslog_tail : Z; syslog_lost : Z;
  syslog_logmask : Z; syslog_lowmask_not : Z;
  low_output : list ascii }.
#[export] Instance eta_LOG : Eta LOG := fun r =>
  mkLOG (syslog_buffer r) (syslog_count r) (syslog_head r) (syslog_tail r) (syslog_lost r)
    (syslog_logmask r) (syslog_lowmask_not r) (low_output r).

Record T_SYSLOG_RLOG := mkT_SYSLOG_RLOG { r_count : Z; r_lost : Z; r_logmask : Z; r_lowmask : Z }.

(** ** Formatted output *)

Notation chars := (list ascii).

Definition CONVERT_BUFLEN : nat := 11.   (* (32 + 2) / 3 *)
Definition raddec : chars := list_ascii_of_string "0123456789".
Definition radhex : chars := list_ascii_of_string "0123456789abcdef".
Definition radHEX : chars := list_ascii_of_string "0123456789ABCDEF".

Definition digit (radchar : chars) (d : Z) : ascii := nth (Z.to_nat d) radchar "000"%char.

(** The loop that fills [buf] from the lowest digit on, [n] places are left. *)
Fixpoint convert_loop (n : nat) (radix : Z) (radchar : chars) (val : Z) : chars :=
  match n with
  | O => []
  | S n =>
      let val' := val / radix in
      digit radchar (val `mod` radix) ::
        (if negb (n =? 0)%nat && negb (val' =? 0) then convert_loop n radix radchar val' else [])
  end.

Definition convert (val radix : Z) (radchar : chars) (width : Z) (minus padzero : bool) : chars :=
  let buf := convert_loop CONVERT_BUFLEN radix radchar val in
  let width := if minus && (0 <? width) then width - 1 else width in
  (if minus && padzero then ["-"%char] else []) ++
  repeat (if padzero then "0"%char else " "%char) (Z.to_nat (width - Z.of_nat (length buf))) ++
  (if minus && negb padzero then ["-"%char] else []) ++
  reverse buf.

Definition is_digit (c : ascii) : bool := (48 <=? Z.of_nat (nat_of_ascii c)) && (Z.of_nat (nat_of_ascii c) <=? 57).

(** [while ('0' <= c && c <= '9') ...]: the width and the rest of the format. *)
Fixpoint scan_width (width : Z) (f : chars) : Z * chars :=
  match f with
  | c :: f' =>
      if is_digit c then scan_width (u32 (width * 10 + Z.of_nat (nat_of_ascii c) - 48)) f' else (width, f)
  | [] => (width, f)
  end.

Definition skip_l (f : chars) : chars :=
  match f with c :: f' => if (c =? "l")%char then f' else f | [] => f end.

(** What follows a [%]: [padzero], the width and the rest, which begins with
    the conversion character. *)
Definition scan_spec (f : chars) : bool * Z * chars :=
  let '(padzero, f) := match f with c :: f' => if (c =? "0")%char then (true, f') else (false, f) | [] => (false, f) end in
  let '(width, f) := scan_width 0 f in
  (padzero, width, skip_l f).

Section printf.
Context (cstr : Z → option chars).

(** One conversion: what is put out and the arguments that remain. *)
Definition conversion (c : ascii) (padzero : bool) (width : Z) (args : list Z) : option (chars * list Z) :=
  let arg (k : Z → option chars) : option (chars * list Z) :=
    match args with [] => None | val :: args => out ← k val; Some (out, args) end in
  match c with
  | "d"%char => arg (fun val =>
      if 0 <=? val then Some (convert (u32 val) 10 raddec width false padzero)
      else if val =? -2^31 then None
      else Some (convert (u32 (- val)) 10 raddec width true padzero))
  | "u"%char => arg (fun val => Some (convert (u32 val) 10 raddec width false padzero))
  | "x"%char | "p"%char => arg (fun val => Some (convert (u32 val) 16 radhex width false padzero))
  | "X"%char => arg (fun val => Some (convert (u32 val) 16 radHEX width false padzero))
  | "c"%char => arg (fun val => Some [ascii_of_nat (Z.to_nat (val `mod` 256))])
  | "s"%char => arg cstr
  | "%"%char => Some (["%"%char], args)
  | _ => Some ([], args)
  end.

Fixpoint syslog_printf_loop (fuel : nat) (f : chars) (args : list Z) : option chars :=
  match fuel with
  | O => None
  | S fuel =>
      match f with
      | [] => Some []
      | c :: f =>
          if negb (c =? "%")%char then out ← syslog_printf_loop fuel f args; Some (c :: out)
          else
            let '(padzero, width, f) := scan_spec f in
            match f with
            | [] => Some []      (* format--: the NUL ends the loop *)
            | c :: f =>
                '(o, args) ← conversion c padzero width args;
                out ← syslog_printf_loop fuel f args; Some (o ++ out)
            end
      end
  end.

(** Every turn of the loop takes a character of the format. *)
Definition syslog_printf (format : chars) (p_args : list Z) : option chars :=
  syslog_printf_loop (S (length format)) format p_args.

Definition assert_format : chars := list_ascii_of_string "%s:%u: Assertion `%s' failed.".

Definition syslog_print (p_syslog : SYSLOG) : option chars :=
  if logtype p_syslog =? LOG_TYPE_COMMENT then
    match loginfo p_syslog with
    | [] => None
    | format :: args => f ← cstr format; syslog_printf f args
    end
  else if logtype p_syslog =? LOG_TYPE_ASSERT then syslog_printf assert_format (loginfo p_syslog)
  else Some [].

Definition newline : ascii := "010"%char.

Definition syslog_lostmsg (lostlog : Z) : option chars :=
  out ← syslog_printf (list_ascii_of_string "%d messages are lost.") [s32 lostlog]; Some (out ++ [newline]).

(** ** The log buffer *)

Definition syslog_initialize (s : LOG) : LOG :=
  s <| syslog_count := 0 |> <| syslog_head := 0 |> <| syslog_tail := 0 |> <| syslog_lost := 0 |>
    <| syslog_logmask := 0 |> <| syslog_lowmask_not := 0 |>.

(** The entry is recorded. *)
Definition log_record (p : SYSLOG) (s : LOG) : LOG :=
  let s := s <| syslog_buffer ::= fun B => <[syslog_tail s := p]> B |> in
  let s := s <| syslog_tail ::= fun t => u32 (t + 1) |> in
  let s := if TCNT_SYSLOG_BUFFER <=? syslog_tail s then s <| syslog_tail := 0 |> else s in
  if syslog_count s <? TCNT_SYSLOG_BUFFER then s <| syslog_count ::= fun c => u32 (c + 1) |>
  else s <| syslog_head := syslog_tail s |> <| syslog_lost ::= fun l => u32 (l + 1) |>.

(** [now] is [_kernel_current_time]. *)
Definition syslog_wri_log (now prio : Z) (p_syslog : SYSLOG) (s : LOG) : option (Z * LOG) :=
  let p := p_syslog <| logtim := now |> in
  let s := if bits (syslog_logmask s) (LOG_MASK prio) then log_record p s else s in
  if bits (u32 (Z.lnot (syslog_lowmask_not s))) (LOG_MASK prio) then
    out ← syslog_print p; Some (E_OK, s <| low_output ::= fun o => o ++ out ++ [newline] |>)
  else Some (E_OK, s).

(** The number of lost entries becomes a signed integer. *)
Definition syslog_rea_log (s : LOG) : (Z * option SYSLOG) * LOG :=
  if 0 <? syslog_count s then
    let p := syslog_buffer s (syslog_head s) in
    let s := s <| syslog_count ::= fun c => u32 (c - 1) |> in
    let s := s <| syslog_head ::= fun h => u32 (h + 1) |> in
    let s := if TCNT_SYSLOG_BUFFER <=? syslog_head s then s <| syslog_head := 0 |> else s in
    let ercd := s32 (syslog_lost s) in
    ((ercd, Some p), s <| syslog_lost := 0 |>)
  else ((E_OBJ, None), s).

Definition syslog_msk_log (logmask lowmask : Z) (s : LOG) : Z * LOG :=
  (E_OK, s <| syslog_logmask := logmask |> <| syslog_lowmask_not := u32 (Z.lnot lowmask) |>).

Definition syslog_ref_log (s : LOG) : Z * T_SYSLOG_RLOG :=
  (E_OK, mkT_SYSLOG_RLOG (syslog_count s) (syslog_lost s) (syslog_logmask s) (u32 (Z.lnot (syslog_lowmask_not s)))).

(** ** [syslog] with a variable number of arguments

    The loop of vasyslog.c: [k] members of [loginfo] can still be stored,
    [ap] are the arguments not yet taken. *)
Definition takes_arg (c : ascii) : bool :=
  match c with "d"%char | "u"%char | "x"%char | "X"%char | "p"%char | "c"%char | "s"%char => true | _ => false end.

Fixpoint skip_digits (f : chars) : chars :=
  match f with c :: f' => if is_digit c then skip_digits f' else f | [] => f end.

Fixpoint collect (fuel : nat) (f : chars) (k : nat) (ap : list Z) : option (list Z) :=
  match fuel with
  | O => None
  | S fuel =>
      match f, k with
      | [], _ | _, O => Some []
      | c :: f, S k' =>
          if negb (c =? "%")%char then collect fuel f k ap
          else
            match skip_l (skip_digits f) with
            | [] => Some []
            | c :: f =>
                if takes_arg c then
                  match ap with [] => None | a :: ap => l ← collect fuel f k' ap; Some (a :: l) end
                else collect fuel f k ap
            end
      end
  end.

(** [ap] are the arguments, each as the [intptr_t] that is stored. *)
Definition syslog (now prio format : Z) (ap : list Z) (s : LOG) : option (Z * LOG) :=
  f ← cstr format;
  l ← collect (S (length f)) f (TMAX_LOGINFO - 1) ap;
  syslog_wri_log now prio (mkSYSLOG LOG_TYPE_COMMENT 0 (format :: l)) s.

(** The inline functions [_syslog_0] to [_syslog_6]. *)
Definition syslog_args (now prio type : Z) (args : list Z) (s : LOG) : option (Z * LOG) :=
  syslog_wri_log now prio (mkSYSLOG type 0 args) s.
End printf.
