(* ===== verification/SyslogProof.v ===== *)
(** * System log: the proofs

    Numbers are printed so that they can be read back; an entry prints what
    printing its format at once would print; the log buffer is a list of the
    latest entries with a count of the lost ones. *)

From Stdlib Require Import Ascii String.
From S2P Require Import Prelude Data Ring Syslog.
Open Scope Z_scope.

(** ** Reading numbers, the specification of the output *)

(** The value of a digit, its place in the table. *)
Fixpoint digit_value (radchar : chars) (c : ascii) : option Z :=
  match radchar with
  | [] => None
  | d :: l => if (c =? d)%char then Some 0 else v ← digit_value l c; Some (v + 1)
  end.

Fixpoint read_digits (radix : Z) (radchar : chars) (acc : Z) (l : chars) : option Z :=
  match l with
  | [] => Some acc
  | c :: l => v ← digit_value radchar c; read_digits radix radchar (acc * radix + v) l
  end.

Fixpoint skip_spaces (l : chars) : chars :=
  match l with c :: l' => if (c =? " ")%char then skip_spaces l' else l | [] => [] end.

(** Spaces, a sign and at least one digit. *)
Definition read_number (radix : Z) (radchar : chars) (l : chars) : option Z :=
  match skip_spaces l with
  | [] => None
  | c :: l =>
      if (c =? "-")%char then match l with [] => None | _ => Z.opp <$> read_digits radix radchar 0 l end
      else read_digits radix radchar 0 (c :: l)
  end.

(** A table of digits. *)
Record digits_ok (radix : Z) (radchar : chars) : Prop := {
  dg_radix : 10 ≤ radix;
  dg_value : ∀ d, 0 ≤ d < radix → digit_value radchar (digit radchar d) = Some d;
  dg_plain : ∀ d, 0 ≤ d < radix → digit radchar d ≠ " "%char ∧ digit radchar d ≠ "-"%char;
  dg_zero : digit_value radchar "0"%char = Some 0 }.

Lemma digits_check radix radchar :
  10 ≤ radix → digit_value radchar "0"%char = Some 0 →
  forallb (fun d => bool_decide (digit_value radchar (digit radchar d) = Some d) &&
    negb (digit radchar d =? " ")%char && negb (digit radchar d =? "-")%char) (seqZ 0 radix) = true →
  digits_ok radix radchar.
Proof.
  intros Hr Hz Hc. rewrite forallb_forall in Hc.
  assert (Hin : ∀ d, 0 ≤ d < radix → In d (seqZ 0 radix)) by (intros d Hd; apply list_elem_of_In, elem_of_seqZ; lia).
  split; [done| |..|done]; intros d Hd; specialize (Hc d (Hin d Hd)) as H; rewrite !andb_true_iff, !negb_true_iff, bool_decide_eq_true, !Ascii.eqb_neq in H; tauto.
Qed.

Lemma dec_ok : digits_ok 10 raddec.
Proof. by apply digits_check. Qed.
Lemma hex_ok : digits_ok 16 radhex.
Proof. by apply digits_check. Qed.
Lemma HEX_ok : digits_ok 16 radHEX.
Proof. by apply digits_check. Qed.

Section digits.
Context {radix : Z} {radchar : chars} (Hd : digits_ok radix radchar).

Lemma read_digits_app acc l1 l2 :
  read_digits radix radchar acc (l1 ++ l2) = v ← read_digits radix radchar acc l1; read_digits radix radchar v l2.
Proof.
  revert acc. induction l1 as [|c l1 IH]; intros acc; simpl; [done|].
  destruct (digit_value radchar c); simpl; [apply IH|done].
Qed.

(** The buffer is long enough when the value has at most [n] digits. *)
Lemma convert_loop_value n : ∀ val,
  0 ≤ val < radix ^ Z.of_nat n → (0 < n)%nat →
  read_digits radix radchar 0 (reverse (convert_loop n radix radchar val)) = Some val.
Proof.
  pose proof (dg_radix _ _ Hd) as Hr. induction n as [|n IH]; intros val Hv Hn; [lia|]. cbn [convert_loop].
  pose proof (Z.mod_pos_bound val radix ltac:(lia)) as Hm.
  pose proof (Z.div_mod val radix ltac:(lia)) as Hdm.
  assert (Hq : 0 ≤ val / radix) by (apply Z.div_pos; lia).
  rewrite reverse_cons, read_digits_app.
  assert (Hrest : read_digits radix radchar 0 (reverse (if negb (n =? 0)%nat && negb (val / radix =? 0)
    then convert_loop n radix radchar (val / radix) else [])) = Some (val / radix)).
  { destruct (Nat.eqb_spec n 0) as [->|Hn0]; simpl.
    - change (radix ^ Z.of_nat 1) with (radix ^ 1) in Hv. rewrite Z.pow_1_r in Hv. by rewrite Z.div_small.
    - destruct (Z.eqb_spec (val / radix) 0) as [->|Hne]; simpl; [done|]. apply IH; [|lia].
      rewrite Nat2Z.inj_succ, Z.pow_succ_r in Hv by lia. split; [done|]. apply Z.div_lt_upper_bound; lia. }
  rewrite Hrest. simpl. rewrite (dg_value _ _ Hd) by done. simpl. f_equal. lia.
Qed.

Lemma convert_loop_plain n : ∀ val c, 0 ≤ val →
  c ∈ convert_loop n radix radchar val → c ≠ " "%char ∧ c ≠ "-"%char.
Proof.
  pose proof (dg_radix _ _ Hd) as Hr. induction n as [|n IH]; intros val c Hv; simpl; [by intros ?%not_elem_of_nil|].
  intros [->|Hc]%elem_of_cons.
  - apply (dg_plain _ _ Hd), Z.mod_pos_bound. lia.
  - destruct (_ && _); [|by apply not_elem_of_nil in Hc]. eapply IH; [|done]. apply Z.div_pos; lia.
Qed.

Lemma convert_loop_cons n val : (0 < n)%nat → reverse (convert_loop n radix radchar val) ≠ [].
Proof. destruct n; [lia|]. intros _. simpl. rewrite reverse_cons. by destruct (reverse _). Qed.

Lemma skip_spaces_repeat k l : skip_spaces (repeat " "%char k ++ l) = skip_spaces l.
Proof. induction k; [done|]. exact IHk. Qed.

Lemma read_zeros k l : read_digits radix radchar 0 (repeat "0"%char k ++ l) = read_digits radix radchar 0 l.
Proof. induction k as [|k IH]; [done|]. cbn [repeat app read_digits]. rewrite (dg_zero _ _ Hd). exact IH. Qed.

(** A list of digits is read as the number it is. *)
Lemma read_number_digits l v :
  l ≠ [] → (∀ c, c ∈ l → c ≠ " "%char ∧ c ≠ "-"%char) → read_digits radix radchar 0 l = Some v →
  read_number radix radchar l = Some v ∧ read_number radix radchar ("-"%char :: l) = Some (- v).
Proof.
  intros Hl Hp Hv. destruct l as [|c l]; [done|]. destruct (Hp c) as [H1 H2]; [left|].
  unfold read_number. simpl skip_spaces. rewrite (proj2 (Ascii.eqb_neq _ _) H1), (proj2 (Ascii.eqb_neq _ _) H2). by rewrite Hv.
Qed.

Lemma convert_read val width minus padzero :
  0 ≤ val < 2^32 →
  read_number radix radchar (convert val radix radchar width minus padzero) = Some (if minus then - val else val).
Proof.
  intros Hv. pose proof (dg_radix _ _ Hd) as Hr. unfold convert.
  set (k := Z.to_nat _). set (buf := convert_loop _ _ _ _).
  assert (Hval : read_digits radix radchar 0 (reverse buf) = Some val).
  { apply convert_loop_value; [|unfold CONVERT_BUFLEN; lia]. split; [lia|].
    apply Z.lt_le_trans with (10 ^ 11); [lia|]. by apply Z.pow_le_mono_l. }
  assert (Hp : ∀ c, c ∈ reverse buf → c ≠ " "%char ∧ c ≠ "-"%char).
  { intros c Hc. rewrite elem_of_reverse in Hc. eapply convert_loop_plain; [|exact Hc]. lia. }
  assert (Hn : reverse buf ≠ []) by (apply convert_loop_cons; unfold CONVERT_BUFLEN; lia).
  assert (Hz : repeat "0"%char k ++ reverse buf ≠ []) by (by destruct k, (reverse buf)).
  assert (Hpz : ∀ c, c ∈ repeat "0"%char k ++ reverse buf → c ≠ " "%char ∧ c ≠ "-"%char).
  { intros c [Hc|Hc]%elem_of_app; [|by apply Hp]. apply list_elem_of_In, repeat_spec in Hc as ->. done. }
  destruct (read_number_digits _ val Hz Hpz) as [Z1 Z2]; [by rewrite read_zeros|].
  destruct (read_number_digits _ _ Hn Hp Hval) as [N1 N2].
  destruct minus, padzero; simpl; try done; unfold read_number; rewrite ?app_nil_l, skip_spaces_repeat; done.
Qed.

(** The output is as wide as asked. *)
Lemma convert_width val width minus padzero :
  width ≤ Z.of_nat (length (convert val radix radchar width minus padzero)).
Proof.
  unfold convert. rewrite !length_app, repeat_length, length_reverse.
  destruct minus, padzero, (Z.ltb_spec 0 width); simpl; lia.
Qed.
End digits.

(** ** Formats *)

Section format.
Context (cstr : Z → option chars).
Implicit Types (f out : chars) (args ap : list Z).

Lemma printf_one spec c padzero width x o :
  scan_spec (spec ++ [c]) = (padzero, width, [c]) → conversion cstr c padzero width [x] = Some (o, []) →
  syslog_printf cstr ("%"%char :: spec ++ [c]) [x] = Some o.
Proof.
  intros Hs Hc. unfold syslog_printf. cbn [length syslog_printf_loop]. change (negb ("%" =? "%")%char) with false. cbv iota.
  rewrite Hs, Hc. simpl. by rewrite app_nil_r.
Qed.

(** C10: The numbers that [syslog_printf] puts out can be read back: with
    [%d] any integer but the least one, with [%u], [%x], [%X] and [%p] any
    word, whatever the width and the padding in the format; and the output is
    at least as wide as the format asks. *)
Theorem printf_number_roundtrip spec c padzero width x :
  scan_spec (spec ++ [c]) = (padzero, width, [c]) → - 2^31 < x < 2^31 →
  ∀ radix radchar,
    c = "d"%char ∧ radix = 10 ∧ radchar = raddec ∨ c = "u"%char ∧ radix = 10 ∧ radchar = raddec ∨
    (c = "x"%char ∨ c = "p"%char) ∧ radix = 16 ∧ radchar = radhex ∨ c = "X"%char ∧ radix = 16 ∧ radchar = radHEX →
  ∃ out, syslog_printf cstr ("%"%char :: spec ++ [c]) [x] = Some out ∧
    read_number radix radchar out = Some (if (c =? "d")%char then x else u32 x) ∧ width ≤ Z.of_nat (length out).
Proof.
  intros Hs Hx radix radchar Hc. assert (Hu : 0 ≤ u32 x < 2^32) by (apply Z.mod_pos_bound; lia).
  assert (H : ∃ v minus, conversion cstr c padzero width [x] = Some (convert v radix radchar width minus padzero, []) ∧
    0 ≤ v < 2^32 ∧ (if minus then - v else v) = (if (c =? "d")%char then x else u32 x) ∧ digits_ok radix radchar).
  { destruct Hc as [(-> & -> & ->)|[(-> & -> & ->)|[([->| ->] & -> & ->)|(-> & -> & ->)]]]; simpl;
      [|exists (u32 x), false; eauto using dec_ok, hex_ok, HEX_ok..].
    destruct (Z.leb_spec 0 x).
    - exists x, false. unfold u32. rewrite Z.mod_small by lia. split_and!; try lia; [done|apply dec_ok].
    - rewrite (proj2 (Z.eqb_neq x _)) by lia. exists (- x), true. unfold u32. rewrite Z.mod_small by lia.
      split_and!; try lia; [done|apply dec_ok]. }
  destruct H as (v & minus & Hcv & Hv & <- & Hd). eexists. split; [by eapply printf_one|].
  split; [by apply convert_read|apply convert_width].
Qed.

(** *** Printing later *)

Lemma skip_l_length f : (length (skip_l f) ≤ length f)%nat.
Proof. unfold skip_l. destruct f as [|c f]; [done|]. destruct (c =? "l")%char; simpl; lia. Qed.

Lemma skip_digits_length f : (length (skip_digits f) ≤ length f)%nat.
Proof. induction f as [|c f IH]; [done|]. simpl. destruct (is_digit c); simpl; lia. Qed.

Lemma scan_width_rest f : ∀ w, (scan_width w f).2 = skip_digits f.
Proof. induction f as [|c f IH]; intros w; [done|]. simpl. destruct (is_digit c); [apply IH|done]. Qed.

(** [syslog] and [syslog_printf] find the same conversions. *)
Lemma scan_spec_rest f : (scan_spec f).2 = skip_l (skip_digits f).
Proof.
  unfold scan_spec. destruct f as [|c f]; [done|]. destruct (Ascii.eqb_spec c "0") as [->|Hc].
  - pose proof (scan_width_rest f 0) as Hw. destruct (scan_width 0 f) as [w r]. simpl in *. by rewrite Hw.
  - pose proof (scan_width_rest (c :: f) 0) as Hw. destruct (scan_width 0 (c :: f)) as [w r]. cbn [snd] in *. by rewrite Hw.
Qed.

Lemma rest_shorter f c f' : skip_l (skip_digits f) = c :: f' → (length f' < length f)%nat.
Proof.
  intros E. pose proof (skip_l_length (skip_digits f)) as H1. pose proof (skip_digits_length f) as H2.
  rewrite E in H1. simpl in H1. lia.
Qed.

(** The number of arguments a format takes. *)
Fixpoint nargs_loop (fuel : nat) f : nat :=
  match fuel, f with
  | S fuel, c :: f =>
      if negb (c =? "%")%char then nargs_loop fuel f
      else match skip_l (skip_digits f) with
        | [] => O
        | c :: f => if takes_arg c then S (nargs_loop fuel f) else nargs_loop fuel f
        end
  | _, _ => O
  end.
Definition nargs f : nat := nargs_loop (S (length f)) f.

Lemma conversion_args c padzero width :
  (takes_arg c = true ∧ ∃ k : Z → option chars, ∀ args,
    conversion cstr c padzero width args = match args with [] => None | a :: r => o ← k a; Some (o, r) end) ∨
  (takes_arg c = false ∧ ∃ o, ∀ args, conversion cstr c padzero width args = Some (o, args)).
Proof.
  destruct c as [[] [] [] [] [] [] [] []];
    first [right; split; [reflexivity|eexists; intros args; reflexivity]
          |left; split; [reflexivity|eexists; intros [|a r]; [reflexivity|reflexivity]]].
Qed.

(** What [syslog] collects is what [syslog_printf] will ask for. *)
Lemma collect_ok fuel : ∀ f k ap,
  (length f < fuel)%nat → (nargs_loop fuel f `min` k ≤ length ap)%nat →
  collect fuel f k ap = Some (take (nargs_loop fuel f `min` k) ap).
Proof.
  induction fuel as [|fuel IH]; intros f k ap Hf Hap; [lia|].
  destruct f as [|c f]; [by destruct k|]. simpl in Hf.
  destruct k as [|k]; [by rewrite Nat.min_0_r|]. cbn [collect nargs_loop] in *.
  destruct (negb (c =? "%")%char); [apply IH; lia|].
  destruct (skip_l (skip_digits f)) as [|c' f'] eqn:Hr; [done|]. apply rest_shorter in Hr.
  destruct (takes_arg c'); [|apply IH; lia]. destruct ap as [|a ap]; simpl in *; [lia|].
  rewrite IH by lia. done.
Qed.

(** [syslog_printf] reads the first arguments only, and all of them. *)
Lemma printf_loop_args fuel : ∀ f args,
  (length f < fuel)%nat →
  syslog_printf_loop cstr fuel f args =
    if (nargs_loop fuel f <=? length args)%nat then syslog_printf_loop cstr fuel f (take (nargs_loop fuel f) args) else None.
Proof.
  induction fuel as [|fuel IH]; intros f args Hf; [lia|].
  destruct f as [|c f]; [done|]. cbn [syslog_printf_loop nargs_loop]. simpl in Hf.
  destruct (negb (c =? "%")%char).
  { rewrite IH by lia. by destruct (_ <=? _)%nat. }
  pose proof (scan_spec_rest f) as Hsp. destruct (scan_spec f) as [[padzero width] f1]. simpl in Hsp. rewrite <- Hsp.
  destruct f1 as [|c' f']; [done|]. symmetry in Hsp. apply rest_shorter in Hsp.
  destruct (conversion_args c' padzero width) as [[-> [k Hk]]|[-> [o Ho]]].
  - rewrite Hk. destruct args as [|a args]; [done|]. simpl take. simpl length. rewrite Hk.
    destruct (k a) as [o|]; simpl; [|by destruct (_ <=? _)%nat]. rewrite IH by lia.
    change (S ?n <=? S ?m)%nat with (n <=? m)%nat. by destruct (_ <=? _)%nat.
  - rewrite !Ho. simpl. rewrite IH by lia. by destruct (_ <=? _)%nat.
Qed.

Lemma print_comment tim format args :
  syslog_print cstr (mkSYSLOG LOG_TYPE_COMMENT tim (format :: args)) = f ← cstr format; syslog_printf cstr f args.
Proof. done. Qed.

(** C11: [syslog] records an entry that prints later, whatever its time, what
    [syslog_printf] would print at once from the same format and arguments, as
    long as the format takes at most five arguments and they are there.  With
    more, the entry holds only five and printing it reads past [loginfo]:
    [syslog] stops collecting without an error. *)
Theorem syslog_prints_later now prio format f ap :
  cstr format = Some f → (nargs f ≤ length ap)%nat →
  ∃ p, (∀ s, syslog cstr now prio format ap s = syslog_wri_log cstr now prio p s) ∧
    ∀ tim, syslog_print cstr (p <| logtim := tim |>) =
      if (nargs f <=? TMAX_LOGINFO - 1)%nat then syslog_printf cstr f ap else None.
Proof.
  intros Hf Hap. unfold nargs in *. set (n := nargs_loop _ f) in *.
  exists (mkSYSLOG LOG_TYPE_COMMENT 0 (format :: take (n `min` (TMAX_LOGINFO - 1)) ap)). split.
  { intros s. unfold syslog. rewrite Hf. cbn [mbind option_bind]. rewrite collect_ok; fold n; [done|lia..]. }
  intros tim. etransitivity; [exact (print_comment tim format _)|].
  rewrite Hf. cbn [mbind option_bind]. unfold syslog_printf.
  rewrite (printf_loop_args _ f (take _ ap)) by lia. fold n. rewrite length_take, take_take.
  destruct (Nat.leb_spec n (TMAX_LOGINFO - 1)) as [Hle|Hlt].
  - rewrite (proj2 (Nat.leb_le _ _)) by lia. rewrite (printf_loop_args _ f ap) by lia. fold n.
    rewrite (proj2 (Nat.leb_le _ _)) by lia. do 2 f_equal. lia.
  - by rewrite (proj2 (Nat.leb_gt _ _)) by lia.
Qed.
End format.

(** ** The log buffer *)

Section log.
Context (cstr : Z → option chars).
Implicit Types (s : LOG) (p : SYSLOG).

(** The buffer is a ring, the counter of lost entries fits its type. *)
Record LogInv s : Prop := {
  lg_ring : ring_ok TCNT_SYSLOG_BUFFER (syslog_head s) (syslog_tail s) (syslog_count s);
  lg_lost : 0 ≤ syslog_lost s < 2^32 }.

Definition log_contents s : list SYSLOG :=
  ring_contents TCNT_SYSLOG_BUFFER (syslog_buffer s) (syslog_head s) (syslog_count s).

Lemma syslog_initialize_ok s : LogInv (syslog_initialize s) ∧ log_contents (syslog_initialize s) = [].
Proof. split; [|done]. split; simpl; [by apply ring_empty|lia]. Qed.

(** The code's way to the next place. *)
Lemma next_place x : 0 ≤ x < TCNT_SYSLOG_BUFFER →
  (if TCNT_SYSLOG_BUFFER <=? u32 (x + 1) then 0 else u32 (x + 1)) = ring_next TCNT_SYSLOG_BUFFER x.
Proof.
  unfold ring_next, u32, TCNT_SYSLOG_BUFFER. intros Hx. rewrite Z.mod_small by lia.
  destruct (Z.leb_spec 32 (x + 1)), (Z.eqb_spec (x + 1) 32); lia.
Qed.

(** The oldest entry makes room and is counted as lost when the buffer is
    full. *)
Lemma log_record_ok p s : LogInv s →
  let full := negb (syslog_count s <? TCNT_SYSLOG_BUFFER) in
  LogInv (log_record p s) ∧
  log_contents (log_record p s) = (if full then drop 1 (log_contents s) else log_contents s) ++ [p] ∧
  syslog_lost (log_record p s) = (if full then u32 (syslog_lost s + 1) else syslog_lost s) ∧
  syslog_logmask (log_record p s) = syslog_logmask s.
Proof.
  intros [HR HL] full. pose proof (ring_tail_bound _ _ _ _ HR) as Ht. pose proof (rg_count _ _ _ _ HR) as Hc.
  assert (Htail : syslog_tail (log_record p s) = ring_next TCNT_SYSLOG_BUFFER (syslog_tail s)).
  { rewrite <- next_place by done. unfold log_record. simpl.
    destruct (_ <=? u32 _); simpl; by destruct (_ <? _). }
  assert (Hbuf : syslog_buffer (log_record p s) = <[syslog_tail s := p]> (syslog_buffer s)).
  { unfold log_record. simpl. destruct (_ <=? u32 _); simpl; by destruct (_ <? _). }
  assert (Hmask : syslog_logmask (log_record p s) = syslog_logmask s).
  { unfold log_record. simpl. destruct (_ <=? u32 _); simpl; by destruct (_ <? _). }
  subst full. destruct (Z.ltb_spec (syslog_count s) TCNT_SYSLOG_BUFFER) as [Hlt|Hge]; simpl.
  - assert (Hrest : syslog_count (log_record p s) = syslog_count s + 1 ∧ syslog_head (log_record p s) = syslog_head s ∧
        syslog_lost (log_record p s) = syslog_lost s).
    { apply Z.ltb_lt in Hlt as Hb. unfold log_record. simpl. destruct (_ <=? u32 _); simpl; rewrite Hb; simpl;
        (split_and!; [|done..]); unfold u32, TCNT_SYSLOG_BUFFER in *; rewrite Z.mod_small by lia; lia. }
    destruct Hrest as (Hcnt & Hhd & Hls). destruct (ring_push _ (syslog_buffer s) _ _ _ p HR Hlt) as [HR' E].
    split_and!; [split; [by rewrite Hhd, Htail, Hcnt|by rewrite Hls]| |done..].
    unfold log_contents. by rewrite Hbuf, Hhd, Hcnt.
  - assert (Hfull : syslog_count s = TCNT_SYSLOG_BUFFER) by lia.
    assert (Hrest : syslog_count (log_record p s) = syslog_count s ∧ syslog_head (log_record p s) = syslog_tail (log_record p s) ∧
        syslog_lost (log_record p s) = u32 (syslog_lost s + 1)).
    { apply Z.ltb_ge in Hge as Hb. unfold log_record. simpl. destruct (_ <=? u32 _); simpl; by rewrite Hb. }
    destruct Hrest as (Hcnt & Hhd & Hls). rewrite Hfull in HR.
    destruct (ring_replace _ (syslog_buffer s) _ _ p HR) as [HR' E].
    split_and!; [split|..]; rewrite ?Hls; try done.
    + by rewrite Hhd, Htail, Hcnt, Hfull.
    + by apply Z.mod_pos_bound.
    + unfold log_contents. by rewrite Hbuf, Hhd, Htail, Hcnt, Hfull.
Qed.

Lemma syslog_rea_log_ok s : LogInv s →
  match log_contents s with
  | [] => syslog_rea_log s = ((E_OBJ, None), s)
  | p :: l => ∃ s', syslog_rea_log s = ((s32 (syslog_lost s), Some p), s') ∧ LogInv s' ∧ log_contents s' = l ∧
      syslog_lost s' = 0 ∧ syslog_logmask s' = syslog_logmask s
  end.
Proof.
  intros [HR HL]. pose proof (rg_count _ _ _ _ HR) as [Hc0 _].
  pose proof (ring_length TCNT_SYSLOG_BUFFER (syslog_buffer s) (syslog_head s) _ Hc0) as Hlen.
  fold (log_contents s) in Hlen. unfold syslog_rea_log. destruct (Z.ltb_spec 0 (syslog_count s)) as [Hpos|Hz].
  - destruct (ring_pop _ (syslog_buffer s) _ _ _ HR Hpos) as [HR' E]. pose proof (rg_head _ _ _ _ HR) as Hh.
    pose proof (rg_count _ _ _ _ HR) as Hc. unfold log_contents at 1. rewrite E. simpl.
    pose proof (next_place _ Hh) as Hn. unfold TCNT_SYSLOG_BUFFER in Hc.
    assert (u32 (syslog_count s - 1) = syslog_count s - 1) as Hcnt by (unfold u32; rewrite Z.mod_small; lia).
    destruct (_ <=? u32 _); simpl; eexists; (split; [reflexivity|]); unfold log_contents; simpl; rewrite <- Hn in *;
      rewrite Hcnt; (split_and!; [split; simpl; [by rewrite ?Hcnt|lia]|done..]).
  - destruct (log_contents s) as [|q l]; [done|]. simpl in Hlen. lia.
Qed.

(** A sequence of calls. *)
Inductive log_call :=
  | c_wri_log (now prio : Z) (p : SYSLOG)
  | c_rea_log
  | c_msk_log (logmask lowmask : Z).

(** What the calls read, with the number returned. *)
Fixpoint log_run (l : list log_call) s : option (list (Z * SYSLOG) * LOG) :=
  match l with
  | [] => Some ([], s)
  | c_wri_log now prio p :: l => '(_, s) ← syslog_wri_log cstr now prio p s; log_run l s
  | c_rea_log :: l =>
      match syslog_rea_log s with
      | ((n, Some p), s) => '(r, s) ← log_run l s; Some ((n, p) :: r, s)
      | ((_, None), s) => log_run l s
      end
  | c_msk_log logmask lowmask :: l => log_run l (syslog_msk_log logmask lowmask s).2
  end.

(** The entries that were to be recorded. *)
Fixpoint recorded (mask : Z) (l : list log_call) : list SYSLOG :=
  match l with
  | [] => []
  | c_wri_log now prio p :: l =>
      (if bits mask (LOG_MASK prio) then [p <| logtim := now |>] else []) ++ recorded mask l
  | c_rea_log :: l => recorded mask l
  | c_msk_log logmask _ :: l => recorded logmask l
  end.

(** The low level output of an entry is defined. *)
Definition call_prints (c : log_call) : Prop :=
  match c with c_wri_log now _ p => is_Some (syslog_print cstr (p <| logtim := now |>)) | _ => True end.

(** A part of what was recorded: lost entries and the entry that was read
    after them. *)
Definition lost_then_read (g : list SYSLOG) (r : Z * SYSLOG) : list SYSLOG := g ++ [r.2].

Lemma wri_log_ok now prio p s : LogInv s → call_prints (c_wri_log now prio p) →
  ∃ s' g l, syslog_wri_log cstr now prio p s = Some (E_OK, s') ∧ LogInv s' ∧ syslog_logmask s' = syslog_logmask s ∧
    log_contents s = g ++ l ∧
    log_contents s' = l ++ (if bits (syslog_logmask s) (LOG_MASK prio) then [p <| logtim := now |>] else []) ∧
    syslog_lost s' = u32 (syslog_lost s + Z.of_nat (length g)).
Proof.
  intros HI [o Ho]. unfold syslog_wri_log. destruct (log_record_ok (p <| logtim := now |>) s HI) as (HI' & Hc & Hl & Hm).
  pose proof (rg_count _ _ _ _ (lg_ring _ HI)) as [Hc0 Hc1].
  pose proof (ring_length TCNT_SYSLOG_BUFFER (syslog_buffer s) (syslog_head s) _ Hc0) as Hlen. fold (log_contents s) in Hlen.
  assert (Hkeep : u32 (syslog_lost s + 0) = syslog_lost s) by (pose proof (lg_lost _ HI); unfold u32; rewrite Z.mod_small; lia).
  set (s1 := if bits (syslog_logmask s) _ then _ else s).
  assert (∃ g l, LogInv s1 ∧ syslog_logmask s1 = syslog_logmask s ∧ log_contents s = g ++ l ∧
    log_contents s1 = l ++ (if bits (syslog_logmask s) (LOG_MASK prio) then [p <| logtim := now |>] else []) ∧
    syslog_lost s1 = u32 (syslog_lost s + Z.of_nat (length g))) as (g & l & H1 & H2 & H3 & H4 & H5).
  { subst s1. destruct (bits _ _).
    - destruct (syslog_count s <? TCNT_SYSLOG_BUFFER) eqn:Hf; simpl in Hc, Hl.
      + exists [], (log_contents s). split_and!; try done. rewrite Hl. symmetry. exact Hkeep.
      + apply Z.ltb_ge in Hf. destruct (log_contents s) as [|e l]; [unfold TCNT_SYSLOG_BUFFER in *; simpl in Hlen; lia|].
        by exists [e], l.
    - exists [], (log_contents s). split_and!; [done..|by rewrite app_nil_r|symmetry; exact Hkeep]. }
  destruct (bits (u32 _) _).
  - rewrite Ho. eexists _, g, l. split; [reflexivity|]. split_and!; try done. by destruct H1.
  - eexists _, g, l. split; [reflexivity|]. done.
Qed.

Lemma u32_add_length c (L g : list SYSLOG) :
  c = u32 (Z.of_nat (length L)) → u32 (c + Z.of_nat (length g)) = u32 (Z.of_nat (length (L ++ g))).
Proof. intros ->. unfold u32. rewrite Zplus_mod_idemp_l, length_app. f_equal. lia. Qed.

(** The general form: [L] are the entries lost since the last read. *)
Lemma log_run_ok calls : ∀ s L, LogInv s → syslog_lost s = u32 (Z.of_nat (length L)) → Forall call_prints calls →
  ∃ reads s' gs L', log_run calls s = Some (reads, s') ∧ LogInv s' ∧
    L ++ log_contents s ++ recorded (syslog_logmask s) calls =
      concat (zip_with lost_then_read gs reads) ++ L' ++ log_contents s' ∧
    Forall2 (fun g r => r.1 = s32 (u32 (Z.of_nat (length g)))) gs reads ∧
    syslog_lost s' = u32 (Z.of_nat (length L')).
Proof.
  induction calls as [|c calls IH]; intros s L HI HL Hp.
  { exists [], s, [], L. rewrite app_nil_r. by split_and!. }
  apply Forall_cons in Hp as [Hc Hp]. destruct c as [now prio p| |logmask lowmask]; cbn [log_run recorded].
  - destruct (wri_log_ok now prio p s HI Hc) as (s1 & g & l & E & HI1 & Hm & H1 & H2 & H3). rewrite E. simpl.
    destruct (IH s1 (L ++ g) HI1) as (reads & s' & gs & L' & -> & HI' & HE & HF & HL'); [|done|].
    { rewrite H3. by apply u32_add_length. }
    exists reads, s', gs, L'. split_and!; try done. rewrite <- HE, H1, H2, Hm, <- !app_assoc. done.
  - pose proof (syslog_rea_log_ok s HI) as H. destruct (log_contents s) as [|p l] eqn:Hls.
    + rewrite H. destruct (IH s L HI HL Hp) as (reads & s' & gs & L' & -> & HI' & HE & HF & HL').
      rewrite Hls in HE. by exists reads, s', gs, L'.
    + destruct H as (s1 & -> & HI1 & H1 & H2 & H3).
      destruct (IH s1 [] HI1) as (reads & s' & gs & L' & -> & HI' & HE & HF & HL'); [done..|].
      exists ((s32 (syslog_lost s), p) :: reads), s', (L :: gs), L'. split_and!; try done.
      * simpl. unfold lost_then_read at 1. simpl. rewrite <- !app_assoc, <- HE, H1, H3. done.
      * constructor; [simpl; by rewrite HL|done].
  - destruct (IH (syslog_msk_log logmask lowmask s).2 L) as (reads & s' & gs & L' & -> & HI' & HE & HF & HL'); [|done..|].
    { by destruct HI. }
    by exists reads, s', gs, L'.
Qed.

(** C9: No recorded entry disappears and none is invented.  After any sequence
    of calls from the initialization, the entries that were to be recorded
    under the masks of the moment are, in their order: for each entry that was
    read, the entries lost before it and the entry itself; the entries lost
    since; the entries in the buffer, at most 32.  The number a read returns
    is the number of entries lost just before, as a 32-bit integer, so that
    2^31 losses look like an error. *)
Theorem syslog_accounts calls s0 :
  Forall call_prints calls →
  ∃ reads s gs g, log_run calls (syslog_initialize s0) = Some (reads, s) ∧
    recorded 0 calls = concat (zip_with lost_then_read gs reads) ++ g ++ log_contents s ∧
    Forall2 (fun g r => r.1 = s32 (u32 (Z.of_nat (length g)))) gs reads ∧
    syslog_lost s = u32 (Z.of_nat (length g)) ∧
    Z.of_nat (length (log_contents s)) = syslog_count s ∧ syslog_count s ≤ TCNT_SYSLOG_BUFFER.
Proof.
  intros Hp. destruct (syslog_initialize_ok s0) as [HI Hc].
  destruct (log_run_ok calls _ [] HI eq_refl Hp) as (reads & s & gs & g & E & HI' & HE & HF & HL).
  rewrite Hc in HE. destruct (rg_count _ _ _ _ (lg_ring _ HI')) as [H0 H1].
  exists reads, s, gs, g. split_and!; try done. by apply ring_length.
Qed.
End log.

(** ** Witnesses *)
Module SyslogExample.
Definition strings (a : Z) : option chars :=
  if a =? 100 then Some (list_ascii_of_string "%05d: %s %c%% %lx") else
  if a =? 200 then Some (list_ascii_of_string "task") else None.

Lemma printf_number_roundtrip_witness :
  ∃ out, syslog_printf strings (list_ascii_of_string "%08d") [-1234] = Some out ∧
    read_number 10 raddec out = Some (-1234) ∧ 8 ≤ Z.of_nat (length out).
Proof.
  apply (printf_number_roundtrip strings (list_ascii_of_string "08") "d"%char true 8 (-1234)).
  - reflexivity.
  - lia.
  - left. split_and!; reflexivity.
Defined.

Lemma syslog_prints_later_witness :
  ∃ p, (∀ s, syslog strings 7 3 100 [-42; 200; 65; 255] s = syslog_wri_log strings 7 3 p s) ∧
    syslog_print strings (p <| logtim := 7 |>) = Some (list_ascii_of_string "-0042: task A% ff").
Proof.
  destruct (syslog_prints_later strings 7 3 100 (list_ascii_of_string "%05d: %s %c%% %lx") [-42; 200; 65; 255])
    as (p & E & H); [reflexivity|apply Nat.leb_le; reflexivity|].
  exists p. split; [exact E|]. rewrite H. reflexivity.
Defined.

(** Forty entries into the buffer of 32: eight are lost. *)
Definition calls : list log_call :=
  c_msk_log 8 0 :: (c_wri_log 1 3 <$> replicate 40 (mkSYSLOG LOG_TYPE_COMMENT 0 [200])) ++ [c_rea_log].

Definition blank : LOG := mkLOG (fun _ => mkSYSLOG 0 0 []) 9 9 9 9 9 9 [].

Lemma syslog_accounts_witness :
  ∃ reads s gs g, log_run strings calls (syslog_initialize blank) = Some (reads, s) ∧
    recorded 0 calls = concat (zip_with lost_then_read gs reads) ++ g ++ log_contents s ∧
    Forall2 (fun g r => r.1 = s32 (u32 (Z.of_nat (length g)))) gs reads ∧
    syslog_lost s = u32 (Z.of_nat (length g)) ∧
    Z.of_nat (length (log_contents s)) = syslog_count s ∧ syslog_count s ≤ TCNT_SYSLOG_BUFFER ∧
    reads.*1 = [8] ∧ syslog_count s = 31.
Proof.
  assert (Hp : Forall (call_prints strings) calls).
  { repeat constructor; eexists; reflexivity. }
  destruct (syslog_accounts strings calls blank Hp) as (reads & s & gs & g & E & H1 & H2 & H3 & H4 & H5).
  exists reads, s, gs, g. split_and!; try assumption.
  - vm_compute in E. injection E as <- _. reflexivity.
  - vm_compute in E. injection E as _ <-. reflexivity.
Defined.
End SyslogExample.
