(* ===== verification/Serial.v ===== *)
(** * Serial interface driver (syssvc/serial.c)

    One serial port: its control block with the receive and transmit buffers,
    the callbacks the device driver makes from its interrupt handlers, and the
    service calls, which tasks run concurrently.

    The device driver (the functions [sio_*], one implementation per target) is
    the class [SIO]; the kernel, for a callback, is the class [SEM] with
    its [isig_sem].  A service call is a [prog]: a sequence of accesses to the
    control block and of calls that wait for a semaphore or signal one, each
    access and each piece of code between [loc_cpu] and [unl_cpu] being one
    step.  [loc_cpu] and [unl_cpu] return [E_OK] to a task, so that their error
    exits are left out.  [dpn] is what [sns_dpn] returns.  A character is its
    code, from 0 to 255. *)

From S2P Require Import Prelude Data Syslog.
Open Scope Z_scope.

(** ** Constants *)

Definition FC_STOP := 19.     (* '\023', control-S *)
Definition FC_START := 17.    (* '\021', control-Q *)
Definition BUFCNT_STOP (bufsz : Z) : Z := u32 (bufsz * 3) / 4.
Definition BUFCNT_START (bufsz : Z) : Z := bufsz / 2.

Definition IOCTL_ECHO := 1.
Definition IOCTL_CRLF := 16.
Definition IOCTL_FCSND := 256.
Definition IOCTL_FCANY := 512.
Definition IOCTL_FCRCV := 1024.

Definition SIO_RDY_SND := 1.
Definition SIO_RDY_RCV := 2.

(** The main error code (include/t_stddef.h), the low byte as a signed number. *)
Definition MERCD (ercd : Z) : Z := let y := ercd `mod` 256 in if y <? 128 then y else y - 256.

Definition LF := 10.   (* '\n' *)
Definition CR := 13.   (* '\r' *)

(** ** The device driver and the kernel *)

Class SIO (D : Type) := {
  sio_opn_por : D → D;
  sio_cls_por : D → D;
  sio_snd_chr : Z → D → bool * D;
  sio_rcv_chr : D → Z * D;
  sio_ena_cbr : Z → D → D;
  sio_dis_cbr : Z → D → D }.

(** The semaphores of a port: [snd_semid] and [rcv_semid]. *)
Inductive side := SND | RCV.
#[export] Instance side_dec : EqDecision side.
Proof. solve_decision. Defined.

Class SEM (S : Type) := sem_isig : side → S → Z * S.

(** ** Data *)

(** The members of [SPINIB] that are not constants of the port's identity, and
    [SPCB], with the contents of the two buffers. *)
Record SPCB (D : Type) := mkSPCB {
  rcv_bufsz : Z; rcv_buffer : Z → Z;
  snd_bufsz : Z; snd_buffer : Z → Z;
  p_siopcb : D;
  openflag : bool; errorflag : bool; ioctl : Z;
  rcv_read_ptr : Z; rcv_write_ptr : Z; rcv_count : Z; rcv_fc_chr : Z; rcv_stopped : bool;
  snd_read_ptr : Z; snd_write_ptr : Z; snd_count : Z; snd_stopped : bool }.
Arguments mkSPCB {D}.
Arguments rcv_bufsz {D}. Arguments rcv_buffer {D}. Arguments snd_bufsz {D}. Arguments snd_buffer {D}.
Arguments p_siopcb {D}. Arguments openflag {D}. Arguments errorflag {D}. Arguments ioctl {D}.
Arguments rcv_read_ptr {D}. Arguments rcv_write_ptr {D}. Arguments rcv_count {D}. Arguments rcv_fc_chr {D}.
Arguments rcv_stopped {D}. Arguments snd_read_ptr {D}. Arguments snd_write_ptr {D}. Arguments snd_count {D}.
Arguments snd_stopped {D}.
#[export] Instance eta_SPCB D : Eta (SPCB D) := fun r =>
  mkSPCB (rcv_bufsz r) (rcv_buffer r) (snd_bufsz r) (snd_buffer r) (p_siopcb r) (openflag r) (errorflag r) (ioctl r)
    (rcv_read_ptr r) (rcv_write_ptr r) (rcv_count r) (rcv_fc_chr r) (rcv_stopped r)
    (snd_read_ptr r) (snd_write_ptr r) (snd_count r) (snd_stopped r).

Record T_SERIAL_RPOR := mkT_SERIAL_RPOR { reacnt : Z; wricnt : Z }.

Definition INC_PTR (ptr bufsz : Z) : Z := let ptr := u32 (ptr + 1) in if ptr =? bufsz then 0 else ptr.

(** ** The pieces of code that run without interruption *)

Section serial.
Context {D : Type} `{SIO D}.
Implicit Types (p : SPCB D).

Definition serial_snd_chr (c : Z) p : bool * SPCB D :=
  let '(b, d) := sio_snd_chr c (p_siopcb p) in
  if b then (true, p <| p_siopcb := d |>) else (false, p <| p_siopcb := sio_ena_cbr SIO_RDY_SND d |>).

(** The locked part of [serial_wri_chr]: was the buffer filled? *)
Definition wri_chr_locked (c : Z) p : bool * SPCB D :=
  let '(sent, p) :=
    if (snd_count p =? 0) && negb (snd_stopped p) then serial_snd_chr c p else (false, p) in
  if sent then (false, p)
  else
    let p := p <| snd_buffer ::= fun B => <[snd_write_ptr p := c]> B |> in
    let p := p <| snd_write_ptr := INC_PTR (snd_write_ptr p) (snd_bufsz p) |> in
    let p := p <| snd_count := u32 (snd_count p + 1) |> in
    (snd_count p =? snd_bufsz p, p).

(** The locked part of [serial_rea_chr]: the character, and was the buffer
    emptied? *)
Definition rea_chr_locked p : (Z * bool) * SPCB D :=
  let c := rcv_buffer p (rcv_read_ptr p) in
  let p := p <| rcv_read_ptr := INC_PTR (rcv_read_ptr p) (rcv_bufsz p) |> in
  let p := p <| rcv_count := u32 (rcv_count p - 1) |> in
  let buffer_empty := rcv_count p =? 0 in
  let p :=
    if rcv_stopped p && (rcv_count p <=? BUFCNT_START (rcv_bufsz p)) then
      let '(b, p) := serial_snd_chr FC_START p in
      let p := if b then p else p <| rcv_fc_chr := FC_START |> in
      p <| rcv_stopped := false |>
    else p in
  ((c, buffer_empty), p).

(** ** Callbacks *)

Section callbacks.
Context {S : Type} `{SEM S}.

(** [if (isig_sem(...) < 0) errorflag = true] *)
Definition signal (sd : side) (ps : SPCB D * S) : SPCB D * S :=
  let '(p, s) := ps in
  let '(ercd, s) := sem_isig sd s in
  (if ercd <? 0 then p <| errorflag := true |> else p, s).

(** A character of the transmit buffer has been given to the device. *)
Definition snd_taken (ps : SPCB D * S) : SPCB D * S :=
  let '(p, s) := ps in
  let p := p <| snd_read_ptr := INC_PTR (snd_read_ptr p) (snd_bufsz p) |> in
  let '(p, s) := if snd_count p =? snd_bufsz p then signal SND (p, s) else (p, s) in
  (p <| snd_count := u32 (snd_count p - 1) |>, s).

Definition sio_irdy_snd (ps : SPCB D * S) : SPCB D * S :=
  let '(p, s) := ps in
  if negb (rcv_fc_chr p =? 0) then
    let p := p <| p_siopcb := (sio_snd_chr (rcv_fc_chr p) (p_siopcb p)).2 |> in
    (p <| rcv_fc_chr := 0 |>, s)
  else if negb (snd_stopped p) && (0 <? snd_count p) then
    let p := p <| p_siopcb := (sio_snd_chr (snd_buffer p (snd_read_ptr p)) (p_siopcb p)).2 |> in
    snd_taken (p, s)
  else (p <| p_siopcb ::= sio_dis_cbr SIO_RDY_SND |>, s).

(** The character is put into the receive buffer. *)
Definition rcv_store (c : Z) (ps : SPCB D * S) : SPCB D * S :=
  let '(p, s) := ps in
  let p := p <| rcv_buffer ::= fun B => <[rcv_write_ptr p := c]> B |> in
  let p := p <| rcv_write_ptr := INC_PTR (rcv_write_ptr p) (rcv_bufsz p) |> in
  let '(p, s) := if rcv_count p =? 0 then signal RCV (p, s) else (p, s) in
  (p <| rcv_count := u32 (rcv_count p + 1) |>, s).

Definition sio_irdy_rcv (ps : SPCB D * S) : SPCB D * S :=
  let '(p, s) := ps in
  let '(x, d) := sio_rcv_chr (p_siopcb p) in
  let c := x `mod` 256 in
  let p := p <| p_siopcb := d |> in
  if bits (ioctl p) IOCTL_FCSND && (c =? FC_STOP) then (p <| snd_stopped := true |>, s)
  else if snd_stopped p && ((c =? FC_START) || bits (ioctl p) IOCTL_FCANY) then
    let p := p <| snd_stopped := false |> in
    if 0 <? snd_count p then
      let c := snd_buffer p (snd_read_ptr p) in
      let '(b, p) := serial_snd_chr c p in
      if b then snd_taken (p, s) else (p, s)
    else (p, s)
  else if bits (ioctl p) IOCTL_FCSND && (c =? FC_START) then (p, s)
  else if rcv_count p =? rcv_bufsz p then (p, s)
  else
    let '(p, s) := rcv_store c (p, s) in
    if bits (ioctl p) IOCTL_FCRCV && negb (rcv_stopped p) && (BUFCNT_STOP (rcv_bufsz p) <=? rcv_count p) then
      let '(b, p) := serial_snd_chr FC_STOP p in
      let p := if b then p else p <| rcv_fc_chr := FC_STOP |> in
      (p <| rcv_stopped := true |>, s)
    else (p, s).
End callbacks.

(** ** Opening, closing, and the access for the last output *)

Definition serial_initialize p : SPCB D := p <| openflag := false |>.

(** [serial_opn_por] with [dis_dsp], [loc_cpu], [unl_cpu] and [ena_dsp]
    returning [E_OK]. *)
Definition serial_opn_por (dpn : bool) (TNUM_PORT portid : Z) p : Z * SPCB D :=
  if dpn then (E_CTX, p)
  else if negb ((1 <=? portid) && (portid <=? TNUM_PORT)) then (E_ID, p)
  else if openflag p then (E_OBJ, p)
  else
    let p := p <| ioctl := Z.lor (Z.lor (Z.lor IOCTL_ECHO IOCTL_CRLF) IOCTL_FCSND) IOCTL_FCRCV |> in
    let p := p <| rcv_read_ptr := 0 |> <| rcv_write_ptr := 0 |> <| rcv_count := 0 |> <| rcv_fc_chr := 0 |> <| rcv_stopped := false |> in
    let p := p <| snd_read_ptr := 0 |> <| snd_write_ptr := 0 |> <| snd_count := 0 |> <| snd_stopped := false |> in
    let p := p <| p_siopcb ::= sio_opn_por |> in
    let p := p <| p_siopcb ::= sio_ena_cbr SIO_RDY_RCV |> in
    (E_OK, p <| openflag := true |> <| errorflag := false |>).

(** [ini_sem] is what the two calls of [ini_sem] return. *)
Definition serial_cls_por (dpn : bool) (TNUM_PORT portid : Z) (ini_sem : side → Z) p : Z * SPCB D :=
  if dpn then (E_CTX, p)
  else if negb ((1 <=? portid) && (portid <=? TNUM_PORT)) then (E_ID, p)
  else if negb (openflag p) then (E_OBJ, p)
  else
    let p := p <| p_siopcb ::= sio_cls_por |> in
    let p := p <| openflag := false |> in
    if (ini_sem SND <? 0) || (ini_sem RCV <? 0) then (E_SYS, p <| errorflag := true |>) else (E_OK, p).

Definition serial_get_chr (TNUM_PORT portid : Z) p : option Z * SPCB D :=
  if (1 <=? portid) && (portid <=? TNUM_PORT) && openflag p && (0 <? snd_count p) then
    let c := snd_buffer p (snd_read_ptr p) in
    let p := p <| snd_read_ptr := INC_PTR (snd_read_ptr p) (snd_bufsz p) |> in
    (Some c, p <| snd_count := u32 (snd_count p - 1) |>)
  else (None, p).

(** ** Accesses, one step each *)

Inductive op : Type → Type :=
  | get_openflag : op bool
  | get_errorflag : op bool
  | set_errorflag : op unit
  | get_ioctl : op Z
  | set_ioctl (v : Z) : op unit
  | get_rcv_count : op Z
  | get_snd_count : op Z
  | wri_chr (c : Z) : op bool
  | rea_chr : op (Z * bool).

Definition exec {B} (o : op B) p : B * SPCB D :=
  match o in op B return B * SPCB D with
  | get_openflag => (openflag p, p)
  | get_errorflag => (errorflag p, p)
  | set_errorflag => (tt, p <| errorflag := true |>)
  | get_ioctl => (ioctl p, p)
  | set_ioctl v => (tt, p <| ioctl := v |>)
  | get_rcv_count => (rcv_count p, p)
  | get_snd_count => (snd_count p, p)
  | wri_chr c => wri_chr_locked c p
  | rea_chr => rea_chr_locked p
  end.
End serial.

(** ** Service calls *)

Inductive prog (A : Type) : Type :=
  | Ret (a : A)
  | Op {B : Type} (o : op B) (k : B → prog A)
  | Wai (sd : side) (k : Z → prog A)      (* wai_sem *)
  | Sig (sd : side) (k : Z → prog A).     (* sig_sem *)
Arguments Ret {A}. Arguments Op {A B}. Arguments Wai {A}. Arguments Sig {A}.

Fixpoint pbind {A B} (m : prog A) (f : A → prog B) : prog B :=
  match m with
  | Ret a => f a
  | Op o k => Op o (fun x => pbind (k x) f)
  | Wai sd k => Wai sd (fun x => pbind (k x) f)
  | Sig sd k => Sig sd (fun x => pbind (k x) f)
  end.

Declare Scope serial_scope.
Delimit Scope serial_scope with serial.
Notation "x <~ m ;; n" := (pbind m (fun x => n)) (at level 100, m at next level, right associativity) : serial_scope.
Definition access {B} (o : op B) : prog B := Op o Ret.
Open Scope serial_scope.

Definition wait_sem (sd : side) : prog Z := Wai sd Ret.
Definition signal_sem (sd : side) : prog Z := Sig sd Ret.

Definition gen_ercd_sys : prog Z := _ <~ access set_errorflag ;; Ret E_SYS.

Definition gen_ercd_wait (rercd : Z) : prog Z :=
  if (MERCD rercd =? E_RLWAI) || (MERCD rercd =? E_DLT) then Ret rercd
  else _ <~ access set_errorflag ;; Ret E_SYS.

(** The body of [serial_wri_chr], [rec] being the recursive call. *)
Definition serial_wri_chr_body (rec : Z → prog Z) (c : Z) : prog Z :=
  let send := full <~ access (wri_chr c) ;; Ret (if full then 1 else 0) in
  if c =? LF then
    io <~ access get_ioctl ;;
    if bits io IOCTL_CRLF then
      rercd <~ rec CR ;;
      if rercd <? 0 then Ret rercd
      else if negb (rercd =? 0) then
        rercd <~ wait_sem SND ;;
        if rercd <? 0 then gen_ercd_wait rercd else send
      else send
    else send
  else send.

(** The recursion stops at the second call; [Ret 0] is never reached. *)
Definition serial_wri_chr : Z → prog Z := serial_wri_chr_body (serial_wri_chr_body (fun _ => Ret 0)).

(** [while (wricnt < len)] and the rest; [buf] are the characters not yet
    taken. *)
Fixpoint wri_loop (buf : list Z) (wricnt : Z) (buffer_full : bool) : prog Z :=
  let error_exit ercd := Ret (if 0 <? wricnt then s32 wricnt else ercd) in
  match buf with
  | [] =>
      if negb buffer_full then
        rercd <~ signal_sem SND ;;
        if rercd <? 0 then ercd <~ gen_ercd_sys ;; error_exit ercd else error_exit E_OK
      else error_exit E_OK
  | c :: buf =>
      let write :=
        rercd <~ serial_wri_chr c ;;
        if rercd <? 0 then error_exit rercd else wri_loop buf (u32 (wricnt + 1)) (negb (rercd =? 0)) in
      if buffer_full then
        rercd <~ wait_sem SND ;;
        if rercd <? 0 then ercd <~ gen_ercd_wait rercd ;; error_exit ercd else write
      else write
  end.

(** The tests at the beginning of the service calls. *)
Definition check_port {A} (dpn : bool) (TNUM_PORT portid : Z) (error : Z → A) (rest : prog A) : prog A :=
  if dpn then Ret (error E_CTX)
  else if negb ((1 <=? portid) && (portid <=? TNUM_PORT)) then Ret (error E_ID)
  else
    opened <~ access get_openflag ;;
    if negb opened then Ret (error E_OBJ)
    else
      err <~ access get_errorflag ;;
      if err then Ret (error E_SYS) else rest.

Definition serial_wri_dat (dpn : bool) (TNUM_PORT portid : Z) (buf : list Z) : prog Z :=
  check_port dpn TNUM_PORT portid (fun e => e) (wri_loop buf 0 true).

(** [while (reacnt < len)] and the rest, [n] being [len - reacnt] and [buf] the
    characters stored so far. *)
Fixpoint rea_loop (n : nat) (reacnt : Z) (buf : list Z) (buffer_empty : bool) : prog (Z * list Z) :=
  match n with
  | O =>
      let error_exit ercd := Ret (if 0 <? reacnt then s32 reacnt else ercd, buf) in
      if negb buffer_empty then
        rercd <~ signal_sem RCV ;;
        if rercd <? 0 then ercd <~ gen_ercd_sys ;; error_exit ercd else error_exit E_OK
      else error_exit E_OK
  | S n =>
      let read :=
        x <~ access rea_chr ;;
        let '(c, buffer_empty) := x in
        let buf := buf ++ [c] in
        let reacnt := u32 (reacnt + 1) in
        let error_exit ercd := Ret (if 0 <? reacnt then s32 reacnt else ercd, buf) in
        io <~ access get_ioctl ;;
        if bits io IOCTL_ECHO then
          rercd <~ wait_sem SND ;;
          if rercd <? 0 then ercd <~ gen_ercd_wait rercd ;; error_exit ercd
          else
            rercd <~ serial_wri_chr c ;;
            if rercd <? 0 then error_exit rercd
            else if rercd =? 0 then
              rercd <~ signal_sem SND ;;
              if rercd <? 0 then ercd <~ gen_ercd_sys ;; error_exit ercd else rea_loop n reacnt buf buffer_empty
            else rea_loop n reacnt buf buffer_empty
        else rea_loop n reacnt buf buffer_empty in
      if buffer_empty then
        rercd <~ wait_sem RCV ;;
        if rercd <? 0 then
          ercd <~ gen_ercd_wait rercd ;; Ret (if 0 <? reacnt then s32 reacnt else ercd, buf)
        else read
      else read
  end.

Definition serial_rea_dat (dpn : bool) (TNUM_PORT portid : Z) (len : nat) : prog (Z * list Z) :=
  check_port dpn TNUM_PORT portid (fun e => (e, [])) (rea_loop len 0 [] true).

Definition serial_ctl_por (dpn : bool) (TNUM_PORT portid v : Z) : prog Z :=
  check_port dpn TNUM_PORT portid (fun e => e) (_ <~ access (set_ioctl v) ;; Ret E_OK).

Definition serial_ref_por (dpn : bool) (TNUM_PORT portid : Z) : prog (Z * option T_SERIAL_RPOR) :=
  check_port dpn TNUM_PORT portid (fun e => (e, None))
    (r <~ access get_rcv_count ;; w <~ access get_snd_count ;; Ret (E_OK, Some (mkT_SERIAL_RPOR r w))).
