(* ===== verification/SerialProof.v ===== *)
(** * Serial interface driver: the proofs

    A port with the tasks that use it, as a system of steps: the steps of the
    service calls, the interrupts, the moves of the device, and [rel_wai].
    What is written goes out in order, what arrives is read in order, and the
    two semaphores are never signalled too often. *)

From S2P Require Import Prelude Data Ring Syslog Serial.
Open Scope Z_scope.

(** ** The device, as the driver relies on it

    [sent] are the characters put out since the beginning, [cbr] the callbacks
    that are allowed, [snd_ready] whether the transmit register is free, [rcv_ready]
    whether a character has arrived.
    [sio_move] are the moves of the hardware: a character leaves, one
    arrives. *)

Class SIOLaws (D : Type) `{SIO D} := {
  sent : D → list Z;
  cbr : Z → D → bool;
  snd_ready : D → bool;
  rcv_ready : D → bool;
  sio_event : Type;
  sio_move : sio_event → D → D;
  snd_chr_law : ∀ c d, (sio_snd_chr c d).1 = snd_ready d ∧
    sent (sio_snd_chr c d).2 = sent d ++ (if snd_ready d then [c] else []) ∧
    ∀ r, cbr r (sio_snd_chr c d).2 = cbr r d;
  rcv_chr_law : ∀ d, sent (sio_rcv_chr d).2 = sent d ∧ ∀ r, cbr r (sio_rcv_chr d).2 = cbr r d;
  ena_cbr_law : ∀ x d, x = SIO_RDY_SND ∨ x = SIO_RDY_RCV →
    sent (sio_ena_cbr x d) = sent d ∧ ∀ r, cbr r (sio_ena_cbr x d) = (r =? x) || cbr r d;
  dis_cbr_law : ∀ x d, x = SIO_RDY_SND ∨ x = SIO_RDY_RCV →
    sent (sio_dis_cbr x d) = sent d ∧ ∀ r, cbr r (sio_dis_cbr x d) = negb (r =? x) && cbr r d;
  opn_por_law : ∀ d, sent (sio_opn_por d) = sent d;
  move_law : ∀ e d, sent (sio_move e d) = sent d ∧ ∀ r, cbr r (sio_move e d) = cbr r d }.

(** The line: data, with characters of the flow control in between. *)
Inductive mixed : list Z → list Z → Prop :=
  | mixed_nil : mixed [] []
  | mixed_data c x l : mixed x l → mixed (c :: x) (c :: l)
  | mixed_fc c x l : c = FC_STOP ∨ c = FC_START → mixed x l → mixed x (c :: l).

Lemma mixed_app x1 l1 x2 l2 : mixed x1 l1 → mixed x2 l2 → mixed (x1 ++ x2) (l1 ++ l2).
Proof. induction 1; intros H2; simpl; [done|apply mixed_data; auto|apply mixed_fc; auto]. Qed.
Lemma mixed_one c : mixed [c] [c].
Proof. repeat constructor. Qed.
Lemma mixed_fc_one c : c = FC_STOP ∨ c = FC_START → mixed [] [c].
Proof. intros Hc. apply mixed_fc; [done|constructor]. Qed.

(** ** The buffers of the port *)

Section port.
Context {D : Type} `{SIOLaws D}.
Implicit Types (p : SPCB D).

Definition snd_contents p : list Z := ring_contents (snd_bufsz p) (snd_buffer p) (snd_read_ptr p) (snd_count p).
Definition rcv_contents p : list Z := ring_contents (rcv_bufsz p) (rcv_buffer p) (rcv_read_ptr p) (rcv_count p).

Record RingsOK p : Prop := {
  rk_snd : ring_ok (snd_bufsz p) (snd_read_ptr p) (snd_write_ptr p) (snd_count p);
  rk_rcv : ring_ok (rcv_bufsz p) (rcv_read_ptr p) (rcv_write_ptr p) (rcv_count p);
  rk_ssz : snd_bufsz p < 2^32;
  rk_rsz : rcv_bufsz p < 2^32;
  rk_fc : rcv_fc_chr p = 0 ∨ rcv_fc_chr p = FC_STOP ∨ rcv_fc_chr p = FC_START }.

Definition line p := sent (p_siopcb p).

(** A step from [p] to [p'] in which [put] is written to the port, [got] read
    from it and [acc] accepted from the line. *)
Record moved p p' (put got acc : list Z) : Prop := {
  mv_rings : RingsOK p';
  mv_snd : ∃ l x, line p' = line p ++ l ∧ mixed x l ∧ snd_contents p ++ put = x ++ snd_contents p';
  mv_rcv : rcv_contents p ++ acc = got ++ rcv_contents p';
  mv_open : openflag p' = openflag p;
  mv_err : errorflag p' = errorflag p;
  mv_ssz : snd_bufsz p' = snd_bufsz p;
  mv_rsz : rcv_bufsz p' = rcv_bufsz p }.

Lemma moved_refl p : RingsOK p → moved p p [] [] [].
Proof.
  intros HR. split; try done; [|by rewrite app_nil_r].
  exists [], []. split_and!; [by rewrite app_nil_r|constructor|by rewrite app_nil_r].
Qed.

Lemma moved_trans p1 p2 p3 put1 put2 got1 got2 acc1 acc2 :
  moved p1 p2 put1 got1 acc1 → moved p2 p3 put2 got2 acc2 →
  moved p1 p3 (put1 ++ put2) (got1 ++ got2) (acc1 ++ acc2).
Proof.
  intros [R1 (l1 & x1 & L1 & M1 & S1) E1 O1 F1 Z1 Y1] [R2 (l2 & x2 & L2 & M2 & S2) E2 O2 F2 Z2 Y2].
  split; try congruence.
  - exists (l1 ++ l2), (x1 ++ x2). split_and!; [by rewrite L2, L1, app_assoc|by apply mixed_app|].
    by rewrite app_assoc, S1, <- !app_assoc, S2.
  - by rewrite app_assoc, E1, <- !app_assoc, E2.
Qed.

Lemma INC_PTR_next sz ptr : sz < 2^32 → 0 ≤ ptr < sz → INC_PTR ptr sz = ring_next sz ptr.
Proof. intros Hs Hp. unfold INC_PTR, ring_next, u32. by rewrite Z.mod_small by lia. Qed.

Lemma u32_small x : 0 ≤ x < 2^32 → u32 x = x.
Proof. apply Z.mod_small. Qed.

(** [serial_snd_chr] touches the device only; a character it could not send
    makes the driver call back. *)
Lemma serial_snd_chr_ok c p :
  ∃ d, serial_snd_chr c p = (snd_ready (p_siopcb p), p <| p_siopcb := d |>) ∧
    sent d = line p ++ (if snd_ready (p_siopcb p) then [c] else []) ∧
    ∀ r, cbr r d = (negb (snd_ready (p_siopcb p)) && (r =? SIO_RDY_SND)) || cbr r (p_siopcb p).
Proof.
  unfold serial_snd_chr. destruct (snd_chr_law c (p_siopcb p)) as (H1 & H2 & H3).
  destruct (sio_snd_chr c (p_siopcb p)) as [b d]. simpl in *. subst b.
  destruct (snd_ready (p_siopcb p)); eexists; (split; [reflexivity|]); [done|].
  destruct (ena_cbr_law SIO_RDY_SND d) as [H4 H5]; [by left|]. rewrite H4. split; [done|]. intros r. by rewrite H5, H3.
Qed.

(** Only the device, the flow control and the settings change. *)
Lemma moved_line p d l fc (st st' : bool) v :
  RingsOK p → fc = 0 ∨ fc = FC_STOP ∨ fc = FC_START → sent d = line p ++ l → mixed [] l →
  moved p (p <| p_siopcb := d |> <| rcv_fc_chr := fc |> <| rcv_stopped := st |> <| snd_stopped := st' |> <| ioctl := v |>) [] [] [].
Proof.
  intros [HS HR Z1 Z2 _] Hfc Hd Hm. split; try done.
  - exists l, []. split_and!; [done..|by rewrite app_nil_r].
  - by rewrite app_nil_r.
Qed.

Lemma moved_quiet p d fc (st st' : bool) v :
  RingsOK p → fc = 0 ∨ fc = FC_STOP ∨ fc = FC_START → sent d = line p →
  moved p (p <| p_siopcb := d |> <| rcv_fc_chr := fc |> <| rcv_stopped := st |> <| snd_stopped := st' |> <| ioctl := v |>) [] [] [].
Proof. intros HR Hfc Hd. eapply moved_line; [done..| |constructor]. by rewrite Hd, app_nil_r. Qed.

(** A character is put into the transmit buffer. *)
Lemma snd_put_ok c p : RingsOK p → snd_count p < snd_bufsz p →
  let p1 := p <| snd_buffer ::= fun B => <[snd_write_ptr p := c]> B |> in
  let p2 := p1 <| snd_write_ptr := INC_PTR (snd_write_ptr p1) (snd_bufsz p1) |> in
  moved p (p2 <| snd_count := u32 (snd_count p2 + 1) |>) [c] [] [].
Proof.
  intros [HS HR Z1 Z2 Hfc] Hlt p1 p2. pose proof (ring_tail_bound _ _ _ _ HS) as Ht. pose proof (rg_count _ _ _ _ HS) as Hc.
  destruct (ring_push _ (snd_buffer p) _ _ _ c HS Hlt) as [HS' E].
  split; try done.
  - split; try done. simpl. rewrite u32_small by lia. by rewrite INC_PTR_next by lia.
  - exists [], []. split_and!; [by rewrite app_nil_r|constructor|]. unfold snd_contents. simpl.
    by rewrite u32_small by lia.
  - by rewrite app_nil_r.
Qed.

Lemma wri_chr_ok c p : RingsOK p → snd_count p < snd_bufsz p →
  ∃ p', wri_chr_locked c p = (snd_count p' =? snd_bufsz p', p') ∧ moved p p' [c] [] [] ∧ rcv_count p' = rcv_count p.
Proof.
  intros HR Hlt. unfold wri_chr_locked. destruct ((snd_count p =? 0) && negb (snd_stopped p)) eqn:Hd.
  - apply andb_true_iff in Hd as [Hz _]. apply Z.eqb_eq in Hz.
    destruct (serial_snd_chr_ok c p) as (d & -> & Hs & _).
    set (p1 := p <| p_siopcb := d |>). assert (HR1 : RingsOK p1) by (by destruct HR).
    destruct (snd_ready (p_siopcb p)).
    + exists p1. split_and!; [|split; try done|done].
      * subst p1. simpl. by rewrite (proj2 (Z.eqb_neq _ _)) by lia.
      * exists [c], [c]. split_and!; [done|apply mixed_one|]. unfold snd_contents. simpl. by rewrite Hz.
      * by rewrite app_nil_r.
    + eexists. split; [reflexivity|]. split; [|done]. rewrite app_nil_r in Hs.
      refine (moved_trans _ p1 _ [] [c] [] [] [] [] _ (snd_put_ok c p1 HR1 Hlt)).
      apply (moved_quiet p d (rcv_fc_chr p) (rcv_stopped p) (snd_stopped p) (ioctl p) HR); [by destruct HR|done].
  - eexists. split; [reflexivity|]. split; [|done]. by apply snd_put_ok.
Qed.

(** A character that waits is flow control; one is sent or begins to wait. *)
Lemma fc_ok c p (b : bool) : RingsOK p → c = FC_STOP ∨ c = FC_START →
  ∃ p', (let '(sent, p1) := serial_snd_chr c p in (if sent then p1 else p1 <| rcv_fc_chr := c |>) <| rcv_stopped := b |>) = p' ∧
    moved p p' [] [] [] ∧ snd_count p' = snd_count p ∧ rcv_count p' = rcv_count p.
Proof.
  intros HR Hc. destruct (serial_snd_chr_ok c p) as (d & -> & Hs & _). eexists. split; [reflexivity|].
  destruct (snd_ready (p_siopcb p)); split_and!; try done.
  - apply (moved_line p d [c] (rcv_fc_chr p) b (snd_stopped p) (ioctl p) HR); [by destruct HR|done|by apply mixed_fc_one].
  - rewrite app_nil_r in Hs. apply (moved_quiet p d c b (snd_stopped p) (ioctl p) HR); [by right|done].
Qed.

(** A character is taken from the receive buffer. *)
Lemma rcv_get_ok p : RingsOK p → 0 < rcv_count p →
  let p1 := p <| rcv_read_ptr := INC_PTR (rcv_read_ptr p) (rcv_bufsz p) |> in
  let p2 := p1 <| rcv_count := u32 (rcv_count p1 - 1) |> in
  moved p p2 [] [rcv_buffer p (rcv_read_ptr p)] [] ∧ rcv_count p2 = rcv_count p - 1.
Proof.
  intros [HS HR Z1 Z2 Hfc] Hpos p1 p2. pose proof (rg_count _ _ _ _ HR) as Hc. pose proof (rg_head _ _ _ _ HR) as Hh.
  assert (Hu : u32 (rcv_count p - 1) = rcv_count p - 1) by (apply u32_small; lia).
  destruct (ring_pop _ (rcv_buffer p) _ _ _ HR Hpos) as [HR' E]. split; [|by subst p2].
  split; try done.
  - split; try done. simpl. rewrite Hu. by rewrite INC_PTR_next by lia.
  - exists [], []. split_and!; [by rewrite app_nil_r|constructor|by rewrite app_nil_r].
  - rewrite app_nil_r. unfold rcv_contents. simpl. rewrite Hu, INC_PTR_next by lia. done.
Qed.

Lemma rea_chr_ok p : RingsOK p → 0 < rcv_count p →
  ∃ c p', rea_chr_locked p = ((c, rcv_count p' =? 0), p') ∧ moved p p' [] [c] [] ∧ snd_count p' = snd_count p.
Proof.
  intros HR Hpos. unfold rea_chr_locked. destruct (rcv_get_ok p HR Hpos) as [Hm Hc].
  set (p2 := _ <| rcv_count := _ |>) in *. destruct (rcv_stopped p2 && _).
  - destruct (fc_ok FC_START p2 false) as (p' & E & Hm' & Hs & Hr); [by destruct Hm|by right|].
    destruct (serial_snd_chr FC_START p2) as [b p3]. subst p'. eexists _, _. split; [by rewrite <- Hr|].
    split; [by apply (moved_trans _ _ _ _ _ _ _ _ _ Hm Hm')|done].
  - eexists _, p2. split; [reflexivity|]. done.
Qed.

(** *** The callbacks *)

Section callbacks.
Context {S : Type} `{SEM S}.

(** The signals that go with a step from [p] to [p']. *)
Definition signals p p' (s s' : S) : Prop :=
  (if (snd_count p =? snd_bufsz p) && negb (snd_count p' =? snd_bufsz p) then sem_isig SND s = (E_OK, s')
   else if (rcv_count p =? 0) && negb (rcv_count p' =? 0) then sem_isig RCV s = (E_OK, s')
   else s' = s) ∧
  (snd_count p' = snd_count p ∨ rcv_count p' = rcv_count p) ∧ snd_count p' ≤ snd_count p ∧ rcv_count p ≤ rcv_count p'.

(** The kernel takes the signals. *)
Definition can_signal p (s : S) : Prop :=
  (snd_count p = snd_bufsz p → (sem_isig SND s).1 = E_OK) ∧ (rcv_count p = 0 → (sem_isig RCV s).1 = E_OK).

Lemma snd_taken_ok p (s : S) d : RingsOK p → 0 < snd_count p → can_signal p s →
  sent d = line p ++ [snd_buffer p (snd_read_ptr p)] →
  ∃ p' s', snd_taken (p <| p_siopcb := d |>, s) = (p', s') ∧ moved p p' [] [] [] ∧ signals p p' s s' ∧
    p_siopcb p' = d ∧ snd_count p' = snd_count p - 1 ∧ snd_stopped p' = snd_stopped p ∧ rcv_fc_chr p' = rcv_fc_chr p.
Proof.
  intros [HS HR Z1 Z2 Hfc] Hpos [Hcs _] Hd. pose proof (rg_count _ _ _ _ HS) as Hc. pose proof (rg_head _ _ _ _ HS) as Hh.
  assert (Hu : u32 (snd_count p - 1) = snd_count p - 1) by (apply u32_small; lia).
  destruct (ring_pop _ (snd_buffer p) _ _ _ HS Hpos) as [HS' E].
  set (p' := p <| p_siopcb := d |> <| snd_read_ptr := INC_PTR (snd_read_ptr p) (snd_bufsz p) |> <| snd_count := u32 (snd_count p - 1) |>).
  assert (Hm : moved p p' [] [] []).
  { split; try done.
    - split; try done. simpl. rewrite Hu. by rewrite INC_PTR_next by lia.
    - exists [snd_buffer p (snd_read_ptr p)], [snd_buffer p (snd_read_ptr p)]. split_and!; [done|apply mixed_one|].
      rewrite app_nil_r. unfold snd_contents. simpl. rewrite Hu, INC_PTR_next by lia. done.
    - by rewrite app_nil_r. }
  unfold snd_taken. simpl. unfold signals. destruct (Z.eqb_spec (snd_count p) (snd_bufsz p)) as [Hf|Hf]; simpl.
  - specialize (Hcs Hf). destruct (sem_isig SND s) as [e s']. simpl in Hcs. subst e. simpl.
    exists p', s'. split_and!; [done|done| |by right|subst p'; simpl; lia..|done|done|done|done].
    subst p'. simpl. by rewrite Hu, (proj2 (Z.eqb_neq _ _)) by lia.
  - exists p', s. split_and!; try done; [|by right|subst p'; simpl; lia]. subst p'. simpl. by rewrite andb_comm; destruct (rcv_count p =? 0).
Qed.

Lemma signals_none p p' (s : S) : snd_count p' = snd_count p → rcv_count p' = rcv_count p → signals p p' s s.
Proof.
  intros E1 E2. split; [|split; [by left|lia]]. rewrite E1, E2, !andb_negb_r. done.
Qed.

Lemma sio_irdy_snd_ok p (s : S) : RingsOK p → snd_ready (p_siopcb p) = true → can_signal p s →
  ∃ p' s', sio_irdy_snd (p, s) = (p', s') ∧ moved p p' [] [] [] ∧ signals p p' s s'.
Proof.
  intros HR Hrdy Hcs. unfold sio_irdy_snd. destruct (Z.eqb_spec (rcv_fc_chr p) 0) as [Hz|Hz]; simpl.
  - destruct (negb (snd_stopped p) && (0 <? snd_count p)) eqn:Hc.
    + apply andb_true_iff in Hc as [_ Hc]. apply Z.ltb_lt in Hc.
      destruct (snd_chr_law (snd_buffer p (snd_read_ptr p)) (p_siopcb p)) as (_ & Hs & _). rewrite Hrdy in Hs.
      destruct (snd_taken_ok p s _ HR Hc Hcs Hs) as (p' & s' & E & Hm & Hsig & _). by exists p', s'.
    + eexists _, s. split; [reflexivity|]. destruct (dis_cbr_law SIO_RDY_SND (p_siopcb p)) as [Hs _]; [by left|].
      split; [|by apply signals_none].
      apply (moved_quiet p _ (rcv_fc_chr p) (rcv_stopped p) (snd_stopped p) (ioctl p) HR); [by left|done].
  - eexists _, s. split; [reflexivity|]. destruct (snd_chr_law (rcv_fc_chr p) (p_siopcb p)) as (_ & Hs & _).
    rewrite Hrdy in Hs. split; [|by apply signals_none]. pose proof (rk_fc _ HR) as [|Hfc]; [done|].
    apply (moved_line p _ [rcv_fc_chr p] 0 (rcv_stopped p) (snd_stopped p) (ioctl p) HR); [by left|done|by apply mixed_fc_one].
Qed.

Lemma rcv_store_ok c p (s : S) : RingsOK p → rcv_count p < rcv_bufsz p → can_signal p s →
  ∃ p' s', rcv_store c (p, s) = (p', s') ∧ moved p p' [] [] [c] ∧ signals p p' s s' ∧
    snd_count p' = snd_count p ∧ rcv_count p' = rcv_count p + 1.
Proof.
  intros [HS HR Z1 Z2 Hfc] Hlt [_ Hcs]. pose proof (rg_count _ _ _ _ HR) as Hc. pose proof (ring_tail_bound _ _ _ _ HR) as Ht.
  assert (Hu : u32 (rcv_count p + 1) = rcv_count p + 1) by (apply u32_small; lia).
  destruct (ring_push _ (rcv_buffer p) _ _ _ c HR Hlt) as [HR' E].
  set (p' := p <| rcv_buffer ::= fun B => <[rcv_write_ptr p := c]> B |>
    <| rcv_write_ptr := INC_PTR (rcv_write_ptr p) (rcv_bufsz p) |> <| rcv_count := u32 (rcv_count p + 1) |>).
  assert (Hm : moved p p' [] [] [c]).
  { split; try done.
    - split; try done. simpl. rewrite Hu. by rewrite INC_PTR_next by lia.
    - exists [], []. split_and!; [by rewrite app_nil_r|constructor|by rewrite app_nil_r].
    - unfold rcv_contents. simpl. by rewrite Hu. }
  unfold rcv_store. simpl. unfold signals. destruct (Z.eqb_spec (rcv_count p) 0) as [Hz|Hz]; simpl.
  - specialize (Hcs Hz). destruct (sem_isig RCV s) as [e s']. simpl in Hcs. subst e. simpl.
    exists p', s'. split_and!; [done|done| |by left|subst p'; simpl; lia..|done|done].
    subst p'. simpl. rewrite Hu, (proj2 (Z.eqb_neq _ 0)) by lia. simpl. by destruct (snd_count p =? snd_bufsz p).
  - exists p', s. split_and!; try done; [|by left|subst p'; simpl; lia]. subst p'. simpl. by destruct (snd_count p =? snd_bufsz p).
Qed.

(** Which characters from the line reach the reader. *)
Definition rcv_accepts p (c : Z) : bool :=
  negb (bits (ioctl p) IOCTL_FCSND && ((c =? FC_STOP) || (c =? FC_START))) &&
  negb (snd_stopped p && ((c =? FC_START) || bits (ioctl p) IOCTL_FCANY)) &&
  negb (rcv_count p =? rcv_bufsz p).

Lemma signals_trans p1 p2 p3 (s s' : S) : signals p1 p2 s s' →
  snd_count p3 = snd_count p2 → rcv_count p3 = rcv_count p2 → signals p1 p3 s s'.
Proof. intros [Ha Hb] E1 E2. unfold signals. by rewrite E1, E2. Qed.

(** The end of [sio_irdy_rcv]: the character is stored, the line is told to
    stop. *)
Lemma rcv_store_stop_ok c p (s : S) : RingsOK p → rcv_count p < rcv_bufsz p → can_signal p s →
  ∃ p' s', (let '(p, s) := rcv_store c (p, s) in
    if bits (ioctl p) IOCTL_FCRCV && negb (rcv_stopped p) && (BUFCNT_STOP (rcv_bufsz p) <=? rcv_count p) then
      let '(b, p) := serial_snd_chr FC_STOP p in
      let p := if b then p else p <| rcv_fc_chr := FC_STOP |> in
      (p <| rcv_stopped := true |>, s)
    else (p, s)) = (p', s') ∧ moved p p' [] [] [c] ∧ signals p p' s s'.
Proof.
  intros HR Hlt Hcs. destruct (rcv_store_ok c p s HR Hlt Hcs) as (p1 & s1 & -> & Hm & Hsig & Hs & Hr).
  destruct (bits (ioctl p1) IOCTL_FCRCV && _ && _); [|by exists p1, s1].
  destruct (fc_ok FC_STOP p1 true) as (p' & E & Hm' & Hs' & Hr'); [by destruct Hm|by left|].
  destruct (serial_snd_chr FC_STOP p1) as [b p2]. simpl in E. exists p', s1. split; [by rewrite <- E|].
  split; [apply (moved_trans _ _ _ _ _ _ _ _ _ Hm Hm')|by eapply signals_trans].
Qed.

Lemma sio_irdy_rcv_ok p (s : S) : RingsOK p → can_signal p s →
  let c := (sio_rcv_chr (p_siopcb p)).1 `mod` 256 in
  ∃ p' s', sio_irdy_rcv (p, s) = (p', s') ∧ moved p p' [] [] (if rcv_accepts p c then [c] else []) ∧ signals p p' s s'.
Proof.
  intros HR Hcs c. unfold sio_irdy_rcv, rcv_accepts. destruct (rcv_chr_law (p_siopcb p)) as [Hsent _]. subst c.
  destruct (sio_rcv_chr (p_siopcb p)) as [x d]. simpl in Hsent |- *. set (c := x `mod` 256).
  set (p1 := p <| p_siopcb := d |>).
  assert (Hq : ∀ b : bool, moved p (p1 <| snd_stopped := b |>) [] [] []).
  { intros b. apply (moved_quiet p d (rcv_fc_chr p) (rcv_stopped p) b (ioctl p) HR); [by destruct HR|done]. }
  assert (HR1 : RingsOK p1) by (by destruct HR).
  destruct (bits (ioctl p) IOCTL_FCSND && (c =? FC_STOP)) eqn:H1'.
  { apply andb_true_iff in H1' as [-> ->]. simpl. eexists _, s. split; [reflexivity|]. split; [apply Hq|by apply signals_none]. }
  destruct (snd_stopped p && _) eqn:H2'; simpl.
  { rewrite andb_false_r. simpl. destruct (Z.ltb_spec 0 (snd_count p)) as [Hpos|].
    2: { eexists _, s. split; [reflexivity|]. split; [apply Hq|by apply signals_none]. }
    set (p2 := p1 <| snd_stopped := false |>).
    destruct (serial_snd_chr_ok (snd_buffer p (snd_read_ptr p)) p2) as (d' & -> & Hs & _).
    destruct (snd_ready (p_siopcb p2)).
    - destruct (snd_taken_ok p2 s d') as (p' & s' & E & Hm & Hsig & _); [by destruct HR|done|done|done|].
      exists p', s'. split; [exact E|]. split; [|exact Hsig]. apply (moved_trans _ _ _ _ _ _ _ _ _ (Hq false) Hm).
    - eexists _, s. split; [reflexivity|]. rewrite app_nil_r in Hs. split; [|by apply signals_none].
      apply (moved_quiet p d' (rcv_fc_chr p) (rcv_stopped p) false (ioctl p) HR); [by destruct HR|by rewrite Hs]. }
  assert (Hx : bits (ioctl p) IOCTL_FCSND && ((c =? FC_STOP) || (c =? FC_START)) = bits (ioctl p) IOCTL_FCSND && (c =? FC_START)).
  { by destruct (bits (ioctl p) IOCTL_FCSND), (c =? FC_STOP). }
  rewrite Hx. rewrite andb_true_r. destruct (bits (ioctl p) IOCTL_FCSND && (c =? FC_START)); simpl.
  { eexists _, s. split; [reflexivity|]. split; [|by apply signals_none]. apply (Hq (snd_stopped p)). }
  pose proof (rg_count _ _ _ _ (rk_rcv _ HR)) as Hc. destruct (Z.eqb_spec (rcv_count p) (rcv_bufsz p)) as [Hf|Hf]; simpl.
  { eexists _, s. split; [reflexivity|]. split; [|by apply signals_none]. apply (Hq (snd_stopped p)). }
  destruct (rcv_store_stop_ok c p1 s HR1) as (p' & s' & E & Hm & Hsig); [simpl; lia|done|].
  exists p', s'. split; [exact E|]. split; [|exact Hsig]. apply (moved_trans _ _ _ _ _ _ _ _ _ (Hq (snd_stopped p)) Hm).
Qed.
End callbacks.
End port.
