(* ===== verification/SerialSystem.v ===== *)
(** * A serial port and the tasks that use it

    The tasks run the service calls of serial.c on one port that stays open,
    interrupts and the hardware come in between, and a waiting task may be
    released by [rel_wai].  The semaphores are those of serial.cfg, with a
    maximum of 1; that [wai_sem], [sig_sem] and [isig_sem] behave as assumed
    here is what Behaviour.v shows of semaphore.c. *)

From S2P Require Import Prelude Data Ring Syslog Serial SerialProof.
Open Scope Z_scope.

(** ** Tasks and semaphores *)

Inductive call := c_wri_dat (buf : list Z) | c_rea_dat (len : nat) | c_ctl_por (v : Z) | c_ref_por.

(** The program of a call, and its result with the characters read. *)
Definition result : Type := Z * list Z.
Definition program (TNUM_PORT portid : Z) (c : call) : prog result :=
  match c with
  | c_wri_dat buf => r <~ serial_wri_dat false TNUM_PORT portid buf ;; Ret (r, [])
  | c_rea_dat len => serial_rea_dat false TNUM_PORT portid len
  | c_ctl_por v => r <~ serial_ctl_por false TNUM_PORT portid v ;; Ret (r, [])
  | c_ref_por => r <~ serial_ref_por false TNUM_PORT portid ;; Ret (r.1, [])
  end.

Inductive thread :=
  | Idle (last : option (call * result))
  | Running (c : call) (m : prog result)
  | Waiting (c : call) (sd : side) (k : Z → prog result).

(** The count and the queue of each semaphore, and the tasks. *)
Record KS := mkKS { ks_cnt : side → Z; ks_wait : side → list nat; ks_thr : nat → thread }.
#[export] Instance eta_KS : Eta KS := fun r => mkKS (ks_cnt r) (ks_wait r) (ks_thr r).

Definition wake (t : nat) (ks : KS) : KS :=
  match ks_thr ks t with
  | Waiting c sd k => ks <| ks_thr ::= fun f => <[t := Running c (k E_OK)]> f |>
  | _ => ks
  end.

Definition sem_signal (sd : side) (ks : KS) : Z * KS :=
  match ks_wait ks sd with
  | t :: l => (E_OK, wake t (ks <| ks_wait ::= fun f => <[sd := l]> f |>))
  | [] =>
      if ks_cnt ks sd <? 1 then (E_OK, ks <| ks_cnt ::= fun f => <[sd := ks_cnt ks sd + 1]> f |>)
      else (E_QOVR, ks)
  end.
#[export] Instance ks_sem : SEM KS := sem_signal.

(** [pos] is the place in the queue that the priority of the task gives. *)
Definition sem_wait (sd : side) (t pos : nat) (c : call) (k : Z → prog result) (ks : KS) : KS :=
  if 1 <=? ks_cnt ks sd then
    ks <| ks_cnt ::= fun f => <[sd := ks_cnt ks sd - 1]> f |> <| ks_thr ::= fun f => <[t := Running c (k E_OK)]> f |>
  else
    ks <| ks_wait ::= fun f => <[sd := take pos (f sd) ++ t :: drop pos (f sd)]> f |>
       <| ks_thr ::= fun f => <[t := Waiting c sd k]> f |>.

(** ** Rights to a buffer

    The signal of a semaphore is a right: to write while the transmit buffer is
    not full, to read while the receive buffer is not empty.  Whoever fills or
    empties the buffer gives the right back, and the interrupt handler passes it
    on when the buffer is usable again. *)

Definition rights : Type := bool * bool.
Definition has (sd : side) (T : rights) : bool := match sd with SND => T.1 | RCV => T.2 end.
Definition put (sd : side) (b : bool) (T : rights) : rights := match sd with SND => (b, T.2) | RCV => (T.1, b) end.

Definition op_wp {B} (o : op B) (T : rights) : (B → rights → Prop) → Prop :=
  match o in op B return (B → rights → Prop) → Prop with
  | get_openflag => fun Q => Q true T
  | get_errorflag => fun Q => Q false T
  | set_errorflag => fun Q => False
  | get_ioctl => fun Q => ∀ v, Q v T
  | set_ioctl v => fun Q => Q tt T
  | get_rcv_count => fun Q => ∀ n, Q n T
  | get_snd_count => fun Q => ∀ n, Q n T
  | wri_chr c => fun Q => T.1 = true ∧ ∀ full, Q full (negb full, T.2)
  | rea_chr => fun Q => T.2 = true ∧ ∀ c empty, Q (c, empty) (T.1, negb empty)
  end.

(** [m] uses its rights properly and ends in [Q]; [rel] tells whether a wait has
    been released. *)
Fixpoint pwp {A} (m : prog A) (rel : bool) (T : rights) (Q : bool → rights → A → Prop) : Prop :=
  match m with
  | Ret a => Q rel T a
  | Op o k => op_wp o T (fun x T => pwp (k x) rel T Q)
  | Wai sd k => has sd T = false ∧ pwp (k E_OK) rel (put sd true T) Q ∧ pwp (k E_RLWAI) true T Q
  | Sig sd k => has sd T = true ∧ pwp (k E_OK) rel (put sd false T) Q
  end.

Lemma op_wp_mono {B} (o : op B) T (Q Q' : B → rights → Prop) :
  (∀ x T, Q x T → Q' x T) → op_wp o T Q → op_wp o T Q'.
Proof. intros HQ. destruct o; simpl; naive_solver. Qed.

Lemma pwp_mono {A} (m : prog A) (Q Q' : bool → rights → A → Prop) : (∀ rel T a, Q rel T a → Q' rel T a) →
  ∀ rel T, pwp m rel T Q → pwp m rel T Q'.
Proof.
  intros HQ. induction m as [a|B o k IH|sd k IH|sd k IH]; intros rel T; simpl.
  - apply HQ.
  - apply op_wp_mono. intros x T'. apply IH.
  - intros (H1 & H2 & H3). auto.
  - intros (H1 & H2). auto.
Qed.

Lemma pwp_bind {A B} (m : prog A) (f : A → prog B) Q :
  ∀ rel T, pwp m rel T (fun rel T a => pwp (f a) rel T Q) → pwp (pbind m f) rel T Q.
Proof.
  induction m as [a|C o k IH|sd k IH|sd k IH]; intros rel T; simpl.
  - done.
  - apply op_wp_mono. intros x T'. apply IH.
  - intros (H1 & H2 & H3). auto.
  - intros (H1 & H2). auto.
Qed.

(** *** The service calls *)

Lemma wri_chr_send_wp c rel rcv Q :
  (∀ full : bool, Q rel (negb full, rcv) (if full then 1 else 0)) →
  pwp (full <~ access (wri_chr c) ;; Ret (if full then 1 else 0)) rel (true, rcv) Q.
Proof. intros HQ. simpl. split; [done|]. intros full. apply HQ. Qed.

Lemma serial_wri_chr_wp c rel rcv Q :
  (∀ full : bool, Q rel (negb full, rcv) (if full then 1 else 0)) → Q true (false, rcv) E_RLWAI →
  pwp (serial_wri_chr c) rel (true, rcv) Q.
Proof.
  intros H1 H2. unfold serial_wri_chr at 1, serial_wri_chr_body at 1.
  destruct (c =? LF); [|by apply wri_chr_send_wp].
  simpl. intros v. destruct (bits v IOCTL_CRLF); [|by apply wri_chr_send_wp].
  simpl. split; [done|]. intros [] ; simpl.
  - split; [done|]. split; [|done]. split; [done|]. intros full. apply H1.
  - split; [done|]. intros full. apply H1.
Qed.

(** The end of a call: no right is left, unless the reader was released. *)
Definition finished (rel : bool) (T : rights) : Prop := T.1 = false ∧ (T.2 = true → rel = true).

Lemma s32_small x : 0 ≤ x < 2^31 → s32 x = x.
Proof.
  intros Hx. unfold s32, u32. rewrite Z.mod_small by lia. simpl. by rewrite (proj2 (Z.ltb_lt _ _)) by lia.
Qed.

Lemma wri_loop_wp buf : ∀ n rel full, Z.of_nat n + Z.of_nat (length buf) < 2^31 → (n = O → full = true) →
  pwp (wri_loop buf (Z.of_nat n) full) rel (negb full, false)
    (fun rel T r => finished rel T ∧ (rel = false → r = Z.of_nat (n + length buf))).
Proof.
  induction buf as [|c buf IH]; intros n rel full Hlen Hn; cbn [wri_loop length] in *.
  - assert (Hr : (if 0 <? Z.of_nat n then s32 (Z.of_nat n) else E_OK) = Z.of_nat (n + 0)).
    { rewrite Nat.add_0_r. destruct (Z.ltb_spec 0 (Z.of_nat n)); [by apply s32_small; lia|]. unfold E_OK. lia. }
    destruct full; simpl; [by rewrite Hr|]. by rewrite Hr.
  - assert (Hw : ∀ rel, pwp (rercd <~ serial_wri_chr c ;;
        (if rercd <? 0 then Ret (if 0 <? Z.of_nat n then s32 (Z.of_nat n) else rercd)
         else wri_loop buf (u32 (Z.of_nat n + 1)) (negb (rercd =? 0)))) rel (true, false)
        (fun rel T r => finished rel T ∧ (rel = false → r = Z.of_nat (n + S (length buf))))).
    { intros rel'. apply pwp_bind, serial_wri_chr_wp; [|by simpl].
      intros full'. rewrite u32_small by lia. replace (Z.of_nat n + 1) with (Z.of_nat (S n)) by lia.
      replace (n + S (length buf))%nat with (S n + length buf)%nat by lia.
      destruct full'; simpl; apply IH; lia || done. }
    destruct full; [|apply Hw]. simpl. split; [done|]. split; [apply Hw|by simpl].
Qed.

(** The echo of a character that was read. *)
Lemma echo_wp c rel (rcv : bool) (fail : Z → result) (rest : prog result) Q :
  pwp rest rel (false, rcv) Q → (∀ r, Q true (false, rcv) (fail r)) →
  pwp (rercd <~ wait_sem SND ;;
      (if rercd <? 0 then ercd <~ gen_ercd_wait rercd ;; Ret (fail ercd)
       else rercd <~ serial_wri_chr c ;;
        (if rercd <? 0 then Ret (fail rercd)
         else if rercd =? 0 then rercd <~ signal_sem SND ;; (if rercd <? 0 then ercd <~ gen_ercd_sys ;; Ret (fail ercd) else rest)
         else rest))) rel (false, rcv) Q.
Proof.
  intros Hrest Hfail. simpl. split; [done|]. split; [|apply Hfail].
  apply pwp_bind, serial_wri_chr_wp; [|apply Hfail]. intros []; simpl; [done|]. split; done.
Qed.

Lemma rea_loop_wp n : ∀ buf rel empty, Z.of_nat n + Z.of_nat (length buf) < 2^31 → (buf = [] → empty = true) →
  pwp (rea_loop n (Z.of_nat (length buf)) buf empty) rel (false, negb empty)
    (fun rel T r => finished rel T ∧
      (rel = false → r.1 = Z.of_nat (length buf + n) ∧ length r.2 = (length buf + n)%nat)).
Proof.
  induction n as [|n IH]; intros buf rel empty Hlen Hbuf; cbn [rea_loop].
  - assert (Hr : (if 0 <? Z.of_nat (length buf) then s32 (Z.of_nat (length buf)) else E_OK) = Z.of_nat (length buf + 0)).
    { rewrite Nat.add_0_r. destruct (Z.ltb_spec 0 (Z.of_nat (length buf))); [by apply s32_small; lia|]. unfold E_OK. lia. }
    destruct empty; simpl; rewrite Hr; split_and!; try done; lia.
  - rewrite !u32_small by lia.
    set (read := pbind (access rea_chr) _).
    assert (Hread : ∀ rel, pwp read rel (false, true) (fun rel T r => finished rel T ∧
        (rel = false → r.1 = Z.of_nat (length buf + S n) ∧ length r.2 = (length buf + S n)%nat))).
    { clear rel empty Hbuf. intros rel. subst read. simpl. split; [done|]. intros c empty v.
      assert (Hrest : pwp (rea_loop n (Z.of_nat (length buf) + 1) (buf ++ [c]) empty) rel (false, negb empty) (fun rel T r => finished rel T ∧
        (rel = false → r.1 = Z.of_nat (length buf + S n) ∧ length r.2 = (length buf + S n)%nat))).
      { replace (Z.of_nat (length buf) + 1) with (Z.of_nat (length (buf ++ [c]))) by (rewrite length_app; simpl; lia).
        replace (length buf + S n)%nat with (length (buf ++ [c]) + n)%nat by (rewrite length_app; simpl; lia).
        apply IH; [rewrite length_app; simpl; lia|by destruct buf]. }
      destruct (bits v IOCTL_ECHO); [|done]. apply (echo_wp c rel (negb empty)
        (fun e => (if 0 <? Z.of_nat (length buf) + 1 then s32 (Z.of_nat (length buf) + 1) else e, buf ++ [c]))
        (rea_loop n (Z.of_nat (length buf) + 1) (buf ++ [c]) empty)); [done|]. intros r. by split. }
    destruct empty; [|apply Hread]. simpl. split; [done|]. split; [apply Hread|by split].
Qed.

Lemma check_port_wp {A} TNUM_PORT portid (error : Z → A) (rest : prog A) rel T Q :
  1 ≤ portid ≤ TNUM_PORT → pwp rest rel T Q → pwp (check_port false TNUM_PORT portid error rest) rel T Q.
Proof.
  intros Hp HQ. unfold check_port. rewrite (proj2 (Z.leb_le _ _)), (proj2 (Z.leb_le _ _)) by lia. simpl. done.
Qed.

(** What a call returns when no wait is released: everything was written, or
    as much was read as was asked for. *)
Definition call_ok (c : call) : bool :=
  match c with
  | c_wri_dat buf => Z.of_nat (length buf) <? 2^31
  | c_rea_dat len => Z.of_nat len <? 2^31
  | _ => true
  end.
Definition returns (c : call) (r : result) : Prop :=
  match c with
  | c_wri_dat buf => r.1 = Z.of_nat (length buf)
  | c_rea_dat len => r.1 = Z.of_nat len ∧ length r.2 = len
  | c_ctl_por _ | c_ref_por => r.1 = E_OK
  end.

Definition final (c : call) (rel : bool) (T : rights) (r : result) : Prop :=
  finished rel T ∧ (rel = false → returns c r).

Lemma program_wp TNUM_PORT portid c : 1 ≤ portid ≤ TNUM_PORT → call_ok c = true →
  pwp (program TNUM_PORT portid c) false (false, false) (final c).
Proof.
  intros Hp Hc. destruct c as [buf|len|v|]; cbn [call_ok] in Hc; rewrite ?Z.ltb_lt in Hc; unfold program, serial_wri_dat, serial_rea_dat, serial_ctl_por, serial_ref_por.
  - apply pwp_bind, check_port_wp; [done|].
    eapply pwp_mono; [|apply (wri_loop_wp buf 0 false true); [lia|done]]. intros rel T r [H1 H2]. by split.
  - apply check_port_wp; [done|]. eapply pwp_mono; [|apply (rea_loop_wp len [] false true); [simpl; lia|done]].
    intros rel T r [H1 H2]. by split.
  - by apply pwp_bind, check_port_wp.
  - by apply pwp_bind, check_port_wp.
Qed.

(** ** The system *)

(** Who has the right to write, and the right to read. *)
Implicit Types (owner : side → option nat) (T : rights) (rel : bool) (ks : KS) (sd : side) (t : nat).

Definition rights_of owner t : rights := (bool_decide (owner SND = Some t), bool_decide (owner RCV = Some t)).

Lemma has_rights_of owner t sd : has sd (rights_of owner t) = bool_decide (owner sd = Some t).
Proof. by destruct sd. Qed.

Lemma rights_eq T T' : (∀ sd, has sd T = has sd T') → T = T'.
Proof. destruct T, T'. intros HT. f_equal; [apply (HT SND)|apply (HT RCV)]. Qed.

Lemma has_put sd sd' b T : has sd' (put sd b T) = if decide (sd = sd') then b else has sd' T.
Proof. by destruct sd, sd'. Qed.

Definition own owner sd : Z := if owner sd then 1 else 0.

(** A thread with its rights. *)
Definition thread_ok rel T (th : thread) : Prop :=
  match th with
  | Idle last => T = (false, false) ∧ ∀ c r, last = Some (c, r) → rel = false → returns c r
  | Running c m => ∃ rel', (rel' = true → rel = true) ∧ pwp m rel' T (final c)
  | Waiting c sd k => ∃ rel', (rel' = true → rel = true) ∧ has sd T = false ∧
      pwp (k E_OK) rel' (put sd true T) (final c) ∧ pwp (k E_RLWAI) true T (final c)
  end.

Definition waits_for sd (th : thread) : Prop := match th with Waiting _ sd' _ => sd' = sd | _ => False end.

(** The semaphores and the tasks are consistent; [x] is a task about which
    nothing is said. *)
Record KOK rel (x : option nat) ks owner : Prop := {
  ko_thr : ∀ t, x ≠ Some t → thread_ok rel (rights_of owner t) (ks_thr ks t);
  ko_wait : ∀ sd t, t ∈ ks_wait ks sd ↔ waits_for sd (ks_thr ks t);
  ko_nodup : ∀ sd, NoDup (ks_wait ks sd);
  ko_cnt : ∀ sd, 0 ≤ ks_cnt ks sd;
  ko_zero : ∀ sd, ks_wait ks sd ≠ [] → ks_cnt ks sd = 0 }.

Lemma KOK_open rel ks owner t : KOK rel None ks owner → KOK rel (Some t) ks owner.
Proof. intros [H1 H2 H3 H4 H5]. split; try done. intros t' _. by apply H1. Qed.

Lemma KOK_owner rel ks owner owner' t :
  KOK rel (Some t) ks owner → (∀ t', t' ≠ t → rights_of owner' t' = rights_of owner t') → KOK rel (Some t) ks owner'.
Proof. intros [H1 H2 H3 H4 H5] HO. split; try done. intros t' Ht. rewrite HO by congruence. by apply H1. Qed.

Lemma KOK_cnt rel x ks owner sd n : KOK rel x ks owner → 0 ≤ n → ks_wait ks sd = [] →
  KOK rel x (ks <| ks_cnt ::= fun f => <[sd := n]> f |>) owner.
Proof.
  intros [H1 H2 H3 H4 H5] Hn Hw. split; try done; simpl; intros sd'.
  - destruct (decide (sd = sd')) as [->|Hne]; [by rewrite fn_lookup_insert|by rewrite fn_lookup_insert_ne].
  - intros Hw'. rewrite fn_lookup_insert_ne; [by apply H5|]. intros ->. by rewrite Hw in Hw'.
Qed.

(** The task gets its next piece of program. *)
Lemma KOK_set rel ks owner t th :
  KOK rel (Some t) ks owner → (∀ sd, ¬ waits_for sd (ks_thr ks t)) → (∀ sd, ¬ waits_for sd th) →
  thread_ok rel (rights_of owner t) th →
  KOK rel None (ks <| ks_thr ::= fun f => <[t := th]> f |>) owner.
Proof.
  intros [H1 H2 H3 H4 H5] Hold Hnew Hth. split; try done; simpl.
  - intros t' _. destruct (decide (t = t')) as [->|Hne]; [by rewrite fn_lookup_insert|].
    rewrite fn_lookup_insert_ne by done. apply H1. congruence.
  - intros sd t'. rewrite H2. destruct (decide (t = t')) as [->|Hne]; [|by rewrite fn_lookup_insert_ne].
    rewrite fn_lookup_insert. split; intros Hw; [by apply Hold in Hw|by apply Hnew in Hw].
Qed.

Lemma KOK_rel rel x ks owner : KOK rel x ks owner → KOK true x ks owner.
Proof.
  intros [H1 H2 H3 H4 H5]. split; try done. intros t Hx. specialize (H1 t Hx).
  destruct (ks_thr ks t); simpl in *; [by destruct H1|destruct H1 as (r & _ & H1); by exists r|].
  destruct H1 as (r & _ & H1). by exists r.
Qed.

(** *** Passing a right on *)

Definition same_but sd (ks ks' : KS) owner owner' : Prop :=
  ∀ sd', sd' ≠ sd → ks_cnt ks' sd' = ks_cnt ks sd' ∧ owner' sd' = owner sd'.

Lemma give_rights owner sd t t' : owner sd = None →
  rights_of (<[sd := Some t]> owner) t' = if decide (t' = t) then put sd true (rights_of owner t') else rights_of owner t'.
Proof.
  intros Ho. apply rights_eq. intros sd'. rewrite has_rights_of. destruct (decide (sd = sd')) as [<-|Hne].
  - rewrite fn_lookup_insert. destruct (decide (t' = t)) as [->|Ht].
    + by rewrite has_put, decide_True, bool_decide_eq_true_2.
    + rewrite has_rights_of, Ho, !bool_decide_eq_false_2; congruence.
  - rewrite fn_lookup_insert_ne by done. destruct (decide (t' = t)); by rewrite ?has_put, ?decide_False, has_rights_of.
Qed.

Lemma sem_signal_ok rel x ks owner sd :
  KOK rel x ks owner → (∀ t, x = Some t → ∀ sd, ¬ waits_for sd (ks_thr ks t)) → ks_cnt ks sd = 0 → owner sd = None →
  ∃ ks' owner', sem_signal sd ks = (E_OK, ks') ∧ KOK rel x ks' owner' ∧
    ks_cnt ks' sd + own owner' sd = 1 ∧ same_but sd ks ks' owner owner' ∧
    ∀ t, (∀ sd, ¬ waits_for sd (ks_thr ks t)) → ks_thr ks' t = ks_thr ks t ∧ rights_of owner' t = rights_of owner t.
Proof.
  intros HK Hx Hc Ho. pose proof HK as [H1 H2 H3 H4 H5]. unfold sem_signal. destruct (ks_wait ks sd) as [|t l] eqn:Hw.
  - rewrite Hc. simpl. eexists _, owner. split; [reflexivity|]. split; [apply KOK_cnt; [done|lia|done]|]. simpl.
    rewrite fn_lookup_insert. unfold own. rewrite Ho. split_and!; [done| |done].
    intros sd' Hne. simpl. by rewrite fn_lookup_insert_ne.
  - assert (Ht : waits_for sd (ks_thr ks t)) by (apply H2; rewrite Hw; left).
    assert (Hxt : x ≠ Some t) by (intros ->; by apply (Hx t eq_refl sd)).
    pose proof (H1 t Hxt) as Hok. unfold wake. simpl. destruct (ks_thr ks t) as [| |c sd' k] eqn:Hthr; try done.
    simpl in Ht. subst sd'. destruct Hok as (r & Hr & Hs & Hk & _).
    eexists _, (<[sd := Some t]> owner). split; [reflexivity|]. split_and!.
    + split; simpl.
      * intros t' Ht'. rewrite give_rights by done. destruct (decide (t' = t)) as [->|Hne].
        { rewrite fn_lookup_insert. by exists r. }
        rewrite fn_lookup_insert_ne by done. by apply H1.
      * intros sd' t'. destruct (decide (t' = t)) as [->|Hne].
        { rewrite fn_lookup_insert. simpl. split; [|done]. intros Hin. destruct (decide (sd = sd')) as [<-|Hsd].
          - rewrite fn_lookup_insert in Hin. specialize (H3 sd). rewrite Hw in H3. by apply NoDup_cons in H3 as [].
          - rewrite fn_lookup_insert_ne in Hin by done. apply H2 in Hin. rewrite Hthr in Hin. by apply Hsd. }
        rewrite (fn_lookup_insert_ne _ t) by done. rewrite <- H2. destruct (decide (sd = sd')) as [<-|Hsd].
        { rewrite fn_lookup_insert, Hw. set_solver. }
        by rewrite fn_lookup_insert_ne.
      * intros sd'. destruct (decide (sd = sd')) as [<-|Hsd]; [|by rewrite fn_lookup_insert_ne].
        rewrite fn_lookup_insert. specialize (H3 sd). rewrite Hw in H3. by apply NoDup_cons in H3 as [].
      * done.
      * intros sd'. destruct (decide (sd = sd')) as [<-|Hsd]; [done|]. rewrite fn_lookup_insert_ne by done. apply H5.
    + simpl. rewrite Hc. unfold own. by rewrite fn_lookup_insert.
    + intros sd' Hne. simpl. by rewrite fn_lookup_insert_ne.
    + intros t' Hn. simpl. assert (t' ≠ t) by (intros ->; apply (Hn sd); by rewrite Hthr).
      rewrite fn_lookup_insert_ne, give_rights, decide_False by done. done.
Qed.

(** The rights of [t] become [T'], a part of what they were. *)
Definition lose owner t T' : side → option nat :=
  fun sd => if bool_decide (owner sd = Some t) && negb (has sd T') then None else owner sd.

Lemma lose_rights owner t T' : (∀ sd, has sd T' = true → has sd (rights_of owner t) = true) →
  rights_of (lose owner t T') t = T' ∧ (∀ t', t' ≠ t → rights_of (lose owner t T') t' = rights_of owner t') ∧
  ∀ sd, own (lose owner t T') sd = own owner sd - Z.b2z (has sd (rights_of owner t)) + Z.b2z (has sd T').
Proof.
  intros Hle. split_and!.
  - apply rights_eq. intros sd. specialize (Hle sd). rewrite has_rights_of in *. unfold lose.
    case_bool_decide as Ho; destruct (has sd T'); simpl; try done.
    + by apply bool_decide_eq_true_2.
    + by specialize (Hle eq_refl).
    + by apply bool_decide_eq_false_2.
  - intros t' Ht. apply rights_eq. intros sd. rewrite !has_rights_of. unfold lose.
    destruct (decide (owner sd = Some t)) as [Ho|Ho]; [|by rewrite (bool_decide_eq_false_2 _ Ho)].
    rewrite (bool_decide_eq_true_2 _ Ho). destruct (has sd T'); simpl; [done|].
    rewrite Ho. rewrite !bool_decide_eq_false_2; congruence.
  - intros sd. specialize (Hle sd). rewrite has_rights_of in *. unfold lose, own.
    case_bool_decide as Ho; destruct (has sd T'); simpl; try rewrite Ho; simpl; try lia.
Qed.

Section system.
Context {D : Type} `{SIOLaws D}.
Implicit Types (p : SPCB D).

(** What stands for the right while nobody may have it: a full transmit buffer,
    an empty receive buffer. *)
Definition slot p sd : Z :=
  Z.b2z (match sd with SND => snd_count p =? snd_bufsz p | RCV => rcv_count p =? 0 end).

Definition puts {B} (o : op B) : list Z := match o with wri_chr c => [c] | _ => [] end.
Definition gots {B} (o : op B) : B → list Z :=
  match o in op B return B → list Z with rea_chr => fun x => [x.1] | _ => fun _ => [] end.

Lemma exec_ok {B} (o : op B) T p (Q : B → rights → Prop) :
  op_wp o T Q → RingsOK p → openflag p = true → errorflag p = false →
  (∀ sd, has sd T = true → slot p sd = 0) →
  ∃ x p' T', exec o p = (x, p') ∧ Q x T' ∧ moved p p' (puts o) (gots o x) [] ∧
    (∀ sd, Z.b2z (has sd T') + slot p' sd = Z.b2z (has sd T) + slot p sd) ∧
    ∀ sd, has sd T' = true → has sd T = true.
Proof.
  intros HQ HR Ho He Hs.
  assert (Hid : ∀ (x : B) T', Q x T' → T' = T → exec o p = (x, p) → puts o = [] → gots o x = [] →
    ∃ x p' T', exec o p = (x, p') ∧ Q x T' ∧ moved p p' (puts o) (gots o x) [] ∧
    (∀ sd, Z.b2z (has sd T') + slot p' sd = Z.b2z (has sd T) + slot p sd) ∧ ∀ sd, has sd T' = true → has sd T = true).
  { intros x T' HQ' -> Hex Hp Hg. exists x, p, T. rewrite Hp, Hg. split_and!; try done. by apply moved_refl. }
  pose proof (rg_count _ _ _ _ (rk_snd _ HR)) as Hcs. pose proof (rg_count _ _ _ _ (rk_rcv _ HR)) as Hcr.
  destruct o; simpl in HQ.
  - apply (Hid true T); [done..|by simpl; rewrite Ho|done|done].
  - apply (Hid false T); [done..|by simpl; rewrite He|done|done].
  - done.
  - by apply (Hid (ioctl p) T).
  - exists tt, (p <| ioctl := v |>), T. split_and!; try done. simpl.
    apply (moved_quiet p (p_siopcb p) (rcv_fc_chr p) (rcv_stopped p) (snd_stopped p) v HR); [by destruct HR|done].
  - by apply (Hid (rcv_count p) T).
  - by apply (Hid (snd_count p) T).
  - destruct HQ as [HT HQ]. specialize (Hs SND HT) as Hs'. unfold slot in Hs'.
    destruct (Z.eqb_spec (snd_count p) (snd_bufsz p)) as [|Hne]; [done|].
    destruct (wri_chr_ok c p HR) as (p' & E & Hm & Hr); [lia|]. eexists _, p', _. split; [exact E|]. split; [apply HQ|].
    split; [done|]. destruct T as [s r]. simpl in HT. subst s. unfold slot. rewrite Hr, (mv_ssz _ _ _ _ _ Hm). split.
    + intros []; simpl; [|done]. rewrite (proj2 (Z.eqb_neq _ _) Hne). by destruct (snd_count p' =? snd_bufsz p).
    + intros []; simpl; done.
  - destruct HQ as [HT HQ]. specialize (Hs RCV HT) as Hs'. unfold slot in Hs'.
    destruct (Z.eqb_spec (rcv_count p) 0) as [|Hne]; [done|].
    destruct (rea_chr_ok p HR) as (c & p' & E & Hm & Hr); [lia|]. eexists _, p', _. split; [exact E|]. split; [apply HQ|].
    split; [done|]. destruct T as [s r]. simpl in HT. subst r. unfold slot. rewrite Hr, (mv_ssz _ _ _ _ _ Hm). split.
    + intros []; simpl; [done|]. rewrite (proj2 (Z.eqb_neq _ _) Hne). by destruct (rcv_count p' =? 0).
    + intros []; simpl; done.
Qed.

(** [w_put], [w_got], [w_acc]: what the tasks have written and read, and what
    was accepted from the line; [w_rel]: was a waiting task released? *)
Record W := mkW { w_port : SPCB D; w_ks : KS; w_put : list Z; w_got : list Z; w_acc : list Z; w_rel : bool }.
#[export] Instance eta_W : Eta W := fun r => mkW (w_port r) (w_ks r) (w_put r) (w_got r) (w_acc r) (w_rel r).

Inductive event :=
  | E_call (t : nat) (c : call)
  | E_run (t pos : nat)
  | E_rel (t : nat)
  | E_irq_snd
  | E_irq_rcv
  | E_dev (e : sio_event).

Context (TNUM_PORT portid : Z) (Hport : 1 ≤ portid ≤ TNUM_PORT).

Definition set_thread t (th : thread) (w : W) : W := w <| w_ks ::= fun ks => ks <| ks_thr ::= fun f => <[t := th]> f |> |>.

Definition run_step t (pos : nat) (w : W) : option W :=
  match ks_thr (w_ks w) t with
  | Running c (Ret r) => Some (set_thread t (Idle (Some (c, r))) w)
  | Running c (Op o k) =>
      let '(x, p) := exec o (w_port w) in
      Some (set_thread t (Running c (k x))
        (w <| w_port := p |> <| w_put ::= fun l => l ++ puts o |> <| w_got ::= fun l => l ++ gots o x |>))
  | Running c (Wai sd k) => Some (w <| w_ks := sem_wait sd t pos c k (w_ks w) |>)
  | Running c (Sig sd k) =>
      let '(ercd, ks) := sem_signal sd (w_ks w) in Some (set_thread t (Running c (k ercd)) (w <| w_ks := ks |>))
  | _ => None
  end.

(** [None]: the event cannot happen. *)
Definition step (e : event) (w : W) : option W :=
  match e with
  | E_call t c =>
      match ks_thr (w_ks w) t with
      | Idle _ => if call_ok c then Some (set_thread t (Running c (program TNUM_PORT portid c)) w) else None
      | _ => None
      end
  | E_run t pos => run_step t pos w
  | E_rel t =>
      match ks_thr (w_ks w) t with
      | Waiting c sd k => Some (set_thread t (Running c (k E_RLWAI))
          (w <| w_ks ::= fun ks => ks <| ks_wait ::= fun f => <[sd := without t (f sd)]> f |> |> <| w_rel := true |>))
      | _ => None
      end
  | E_irq_snd =>
      if cbr SIO_RDY_SND (p_siopcb (w_port w)) && snd_ready (p_siopcb (w_port w)) then
        let '(p, ks) := sio_irdy_snd (w_port w, w_ks w) in Some (w <| w_port := p |> <| w_ks := ks |>)
      else None
  | E_irq_rcv =>
      if cbr SIO_RDY_RCV (p_siopcb (w_port w)) && rcv_ready (p_siopcb (w_port w)) then
        let c := (sio_rcv_chr (p_siopcb (w_port w))).1 `mod` 256 in
        let '(p, ks) := sio_irdy_rcv (w_port w, w_ks w) in
        Some (w <| w_port := p |> <| w_ks := ks |>
                <| w_acc ::= fun l => l ++ (if rcv_accepts (w_port w) c then [c] else []) |>)
      else None
  | E_dev e => Some (w <| w_port ::= fun p => p <| p_siopcb ::= sio_move e |> |>)
  end.

Definition run (l : list event) (w : W) : option W := foldl (fun o e => w ← o; step e w) (Some w) l.

(** *** The invariant *)

(** For each side, the right is at the semaphore, with a task, or in the slot;
    the right to read may be lost when a waiting task was released: [m] is 0
    when it is known to be lost, and 1 otherwise. *)
Definition rights_left (m : Z) sd : Z := match sd with SND => 1 | RCV => m end.
Definition balanced m rel ks owner p : Prop :=
  ∀ sd, ks_cnt ks sd + own owner sd + slot p sd ≤ rights_left m sd ∧ m ≤ 1 ∧
    (rel = false ∨ sd = SND → ks_cnt ks sd + own owner sd + slot p sd = 1).

Record Inv0 m (p0 : SPCB D) owner (w : W) : Prop := {
  iv_ks : KOK (w_rel w) None (w_ks w) owner;
  iv_bal : balanced m (w_rel w) (w_ks w) owner (w_port w);
  iv_port : moved p0 (w_port w) (w_put w) (w_got w) (w_acc w);
  iv_open : openflag (w_port w) = true;
  iv_err : errorflag (w_port w) = false }.
Definition Inv m p0 w : Prop := ∃ owner, Inv0 m p0 owner w.

Lemma slot_nonneg p sd : 0 ≤ slot p sd ≤ 1.
Proof. unfold slot. destruct (match sd with SND => _ | RCV => _ end); simpl; lia. Qed.
Lemma own_some owner sd t : owner sd = Some t → own owner sd = 1.
Proof. unfold own. by intros ->. Qed.
Lemma own_nonneg owner sd : 0 ≤ own owner sd ≤ 1.
Proof. unfold own. destruct (owner sd); lia. Qed.

Lemma own_same owner owner' sd : owner' sd = owner sd → own owner' sd = own owner sd.
Proof. unfold own. by intros ->. Qed.

Lemma balanced_le m rel ks owner p sd : balanced m rel ks owner p → ks_cnt ks sd + own owner sd + slot p sd ≤ 1.
Proof. intros HB. destruct (HB sd) as (H1' & H2' & _). destruct sd; simpl in *; lia. Qed.

(** A task with the right: no signal has been given, and the buffer can be
    used. *)
Lemma has_alone m rel ks owner p t sd : KOK rel None ks owner → balanced m rel ks owner p →
  has sd (rights_of owner t) = true → owner sd = Some t ∧ ks_cnt ks sd = 0 ∧ slot p sd = 0.
Proof.
  intros HK HB HT. rewrite has_rights_of, bool_decide_eq_true in HT. split; [done|].
  pose proof (own_some _ _ _ HT). pose proof (ko_cnt _ _ _ _ HK sd). pose proof (slot_nonneg p sd).
  pose proof (balanced_le _ _ _ _ _ sd HB). lia.
Qed.

Lemma running_not_waiting ks t c m : ks_thr ks t = Running c m → ∀ sd, ¬ waits_for sd (ks_thr ks t).
Proof. by intros -> ? []. Qed.

Lemma step_ret m p0 owner w t c r : Inv0 m p0 owner w → ks_thr (w_ks w) t = Running c (Ret r) →
  Inv m p0 (set_thread t (Idle (Some (c, r))) w).
Proof.
  intros [HK HB HP HO HE] Ht. pose proof (ko_thr _ _ _ _ HK t ltac:(done)) as Hth. rewrite Ht in Hth.
  destruct Hth as (r' & Hr & [Hfin1 Hfin2] & Hret).
  destruct (lose_rights owner t (false, false)) as (Hl1 & Hl2 & Hl3); [by intros []|].
  exists (lose owner t (false, false)). split; try done.
  - apply KOK_set; [|by eapply running_not_waiting|by intros ? []|].
    + eapply KOK_owner; [by apply KOK_open|done].
    + rewrite Hl1. split; [done|]. intros c' x Hx Hrel. injection Hx as <- <-. apply Hret. destruct r'; [|done].
      pose proof (Hr eq_refl). simpl in *. congruence.
  - intros sd. simpl. rewrite Hl3. destruct (HB sd) as (H1' & Hm1 & H2'). destruct sd; simpl in *.
    + rewrite Hfin1 in *. simpl. split; [lia|]. split; [done|]. intros Hx. rewrite <- H2' by done. lia.
    + destruct (bool_decide (owner RCV = Some t)); simpl in *; [|split; [lia|split; [done|intros Hx; rewrite <- H2' by done; lia]]].
      split; [lia|]. split; [done|]. intros [Hrel|]; [|done]. rewrite Hr in Hrel; [done|by apply Hfin2].
Qed.

Lemma step_op m p0 owner w t c B (o : op B) k : Inv0 m p0 owner w → ks_thr (w_ks w) t = Running c (Op o k) →
  ∃ x p, exec o (w_port w) = (x, p) ∧
    Inv m p0 (set_thread t (Running c (k x)) (w <| w_port := p |> <| w_put ::= fun l => l ++ puts o |> <| w_got ::= fun l => l ++ gots o x |>)).
Proof.
  intros [HK HB HP HO HE] Ht. pose proof (ko_thr _ _ _ _ HK t ltac:(done)) as Hth. rewrite Ht in Hth.
  destruct Hth as (r' & Hr & Hwp). simpl in Hwp.
  destruct (exec_ok o _ (w_port w) _ Hwp (mv_rings _ _ _ _ _ HP) HO HE) as (x & p & T' & Ex & HQ & Hm & Hs & Hle).
  { intros sd Hsd. by apply (has_alone _ _ _ _ _ _ _ HK HB) in Hsd as (_ & _ & ->). }
  destruct (lose_rights owner t T' Hle) as (Hl1 & Hl2 & Hl3).
  exists x, p. split; [done|]. exists (lose owner t T'). split; simpl.
  - apply KOK_set; [|by eapply running_not_waiting|by intros ? []|].
    + eapply KOK_owner; [by apply KOK_open|done].
    + rewrite Hl1. by exists r'.
  - intros sd. simpl. rewrite Hl3. specialize (Hs sd). destruct (HB sd) as (H1' & Hm1 & H2').
    split; [lia|]. split; [done|]. intros Hx. rewrite <- H2' by done. lia.
  - rewrite <- (app_nil_r (w_acc w)). by eapply moved_trans.
  - by rewrite (mv_open _ _ _ _ _ Hm).
  - by rewrite (mv_err _ _ _ _ _ Hm).
Qed.

Lemma step_sig m p0 owner w t c sd k : Inv0 m p0 owner w → ks_thr (w_ks w) t = Running c (Sig sd k) →
  ∃ ks, sem_signal sd (w_ks w) = (E_OK, ks) ∧ Inv m p0 (set_thread t (Running c (k E_OK)) (w <| w_ks := ks |>)).
Proof.
  intros [HK HB HP HO HE] Ht. pose proof (ko_thr _ _ _ _ HK t ltac:(done)) as Hth. rewrite Ht in Hth.
  destruct Hth as (r' & Hr & Hhas & Hwp). destruct (has_alone _ _ _ _ _ _ _ HK HB Hhas) as (Ho & Hc & Hslot).
  destruct (lose_rights owner t (put sd false (rights_of owner t))) as (Hl1 & Hl2 & Hl3).
  { intros sd'. rewrite has_put. by destruct (decide (sd = sd')). }
  set (owner1 := lose owner t _) in *.
  assert (HK1 : KOK (w_rel w) (Some t) (w_ks w) owner1) by (eapply KOK_owner; [by apply KOK_open|done]).
  assert (Ho1 : owner1 sd = None).
  { subst owner1. unfold lose. by rewrite has_put, decide_True, (bool_decide_eq_true_2 _ Ho). }
  assert (Hnw : ∀ t', Some t = Some t' → ∀ sd, ¬ waits_for sd (ks_thr (w_ks w) t')).
  { intros t' [= <-]. by eapply running_not_waiting. }
  destruct (sem_signal_ok _ _ _ _ sd HK1 Hnw Hc Ho1) as (ks & owner2 & E & HK2 & Hsum & Hsame & Hothers).
  exists ks. split; [done|]. exists owner2. destruct (Hothers t (Hnw t eq_refl)) as [Hthr Hrt]. split; simpl; try done.
  - apply KOK_set; [done|rewrite Hthr; by apply Hnw|by intros ? []|]. rewrite Hrt, Hl1. by exists r'.
  - intros sd'. simpl. destruct (decide (sd' = sd)) as [->|Hne].
    { destruct (HB sd) as (H1' & Hm1 & _). rewrite (own_some _ _ _ Ho) in H1'. split_and!; lia. }
    destruct (Hsame sd' Hne) as [-> Ho2]. rewrite (own_same _ _ _ Ho2), Hl3, has_put, decide_False by done.
    destruct (HB sd') as (H1' & Hm1 & H2'). split; [lia|]. split; [done|]. intros Hx. rewrite <- H2' by done. lia.
Qed.

Lemma thread_not_waiting rel x ks owner t sd : KOK rel x ks owner → (∀ sd, ¬ waits_for sd (ks_thr ks t)) → t ∉ ks_wait ks sd.
Proof. intros HK Hn Hin. by apply (ko_wait _ _ _ _ HK) in Hin as ?%Hn. Qed.

(** The task enters the queue. *)
Lemma KOK_enqueue rel ks owner t pos c sd k :
  KOK rel (Some t) ks owner → (∀ sd, ¬ waits_for sd (ks_thr ks t)) → ks_cnt ks sd = 0 →
  thread_ok rel (rights_of owner t) (Waiting c sd k) →
  KOK rel None (ks <| ks_wait ::= fun f => <[sd := take pos (f sd) ++ t :: drop pos (f sd)]> f |>
                   <| ks_thr ::= fun f => <[t := Waiting c sd k]> f |>) owner.
Proof.
  intros HK Hold Hc Hth. pose proof HK as [H1' H2' H3' H4' H5'].
  assert (Hperm : take pos (ks_wait ks sd) ++ t :: drop pos (ks_wait ks sd) ≡ₚ t :: ks_wait ks sd).
  { by rewrite <- Permutation_middle, take_drop. }
  split; simpl; [| | |done|].
  - intros t' _. destruct (decide (t = t')) as [<-|Hne]; [by rewrite fn_lookup_insert|].
    rewrite fn_lookup_insert_ne by done. apply H1'. congruence.
  - intros sd' t'. destruct (decide (sd = sd')) as [<-|Hsd].
    + rewrite fn_lookup_insert, Hperm, elem_of_cons, H2'. destruct (decide (t = t')) as [<-|Hne].
      * rewrite fn_lookup_insert. simpl. tauto.
      * rewrite fn_lookup_insert_ne by done. naive_solver.
    + rewrite fn_lookup_insert_ne, H2' by done. destruct (decide (t = t')) as [<-|Hne]; [|by rewrite fn_lookup_insert_ne].
      rewrite fn_lookup_insert. simpl. split; [by intros ?%Hold|done].
  - intros sd'. destruct (decide (sd = sd')) as [<-|Hsd]; [|by rewrite fn_lookup_insert_ne].
    rewrite fn_lookup_insert, Hperm. apply NoDup_cons. split; [by eapply thread_not_waiting|done].
  - intros sd'. destruct (decide (sd = sd')) as [<-|Hsd]; [done|]. rewrite fn_lookup_insert_ne by done. apply H5'.
Qed.

Lemma step_wai m p0 owner w t pos c sd k : Inv0 m p0 owner w → ks_thr (w_ks w) t = Running c (Wai sd k) →
  Inv m p0 (w <| w_ks := sem_wait sd t pos c k (w_ks w) |>).
Proof.
  intros [HK HB HP HO HE] Ht. pose proof (ko_thr _ _ _ _ HK t ltac:(done)) as Hth. rewrite Ht in Hth.
  destruct Hth as (r' & Hr & Hhas & Hwp & Hwp'). assert (Hold := running_not_waiting _ _ _ _ Ht).
  unfold sem_wait. pose proof (ko_cnt _ _ _ _ HK sd) as Hpos. pose proof (balanced_le _ _ _ _ _ sd HB) as Hle.
  pose proof (slot_nonneg (w_port w) sd) as Hsl. pose proof (own_nonneg owner sd) as Hon.
  destruct (Z.leb_spec 1 (ks_cnt (w_ks w) sd)) as [Hc|Hc].
  - assert (Ho : owner sd = None) by (unfold own in *; destruct (owner sd); [lia|done]).
    assert (Hw : ks_wait (w_ks w) sd = []).
    { destruct (ks_wait (w_ks w) sd) eqn:E; [done|]. rewrite (ko_zero _ _ _ _ HK sd) in Hc; [lia|by rewrite E]. }
    exists (<[sd := Some t]> owner). split; simpl; try done.
    + apply (KOK_set _ ((w_ks w) <| ks_cnt ::= fun f => <[sd := ks_cnt (w_ks w) sd - 1]> f |>)); [|done|by intros ? []|].
      * apply KOK_cnt; [|lia|done]. eapply KOK_owner; [by apply KOK_open|].
        intros t' Hne. by rewrite give_rights, decide_False.
      * rewrite give_rights, decide_True by done. by exists r'.
    + intros sd'. simpl. destruct (decide (sd = sd')) as [<-|Hne].
      * destruct (HB sd) as (H1' & Hm1 & H2'). rewrite fn_lookup_insert. unfold own in *. rewrite fn_lookup_insert.
        rewrite Ho in *. split_and!; [lia|done|]. intros Hx. rewrite <- H2' by done. lia.
      * rewrite fn_lookup_insert_ne by done. rewrite (own_same owner); [apply HB|by rewrite fn_lookup_insert_ne].
  - exists owner. split; simpl; try done. apply KOK_enqueue; [by apply KOK_open|done|lia|]. by exists r'.
Qed.

Lemma step_call m p0 owner w t last c : Inv0 m p0 owner w → ks_thr (w_ks w) t = Idle last → call_ok c = true →
  Inv m p0 (set_thread t (Running c (program TNUM_PORT portid c)) w).
Proof.
  intros [HK HB HP HO HE] Ht Hc. pose proof (ko_thr _ _ _ _ HK t ltac:(done)) as Hth. rewrite Ht in Hth.
  destruct Hth as [HT _]. exists owner. split; try done.
  apply KOK_set; [by apply KOK_open|by rewrite Ht; intros ? []|by intros ? []|].
  exists false. split; [done|]. rewrite HT. by apply program_wp.
Qed.

Lemma step_rel m p0 owner w t c sd k : Inv0 m p0 owner w → ks_thr (w_ks w) t = Waiting c sd k →
  Inv m p0 (set_thread t (Running c (k E_RLWAI))
    (w <| w_ks ::= fun ks => ks <| ks_wait ::= fun f => <[sd := without t (f sd)]> f |> |> <| w_rel := true |>)).
Proof.
  intros [HK HB HP HO HE] Ht. pose proof (ko_thr _ _ _ _ HK t ltac:(done)) as Hth. rewrite Ht in Hth.
  destruct Hth as (r' & Hr & Hhas & _ & Hwp). exists owner. split; simpl; try done.
  - destruct (KOK_rel _ _ _ _ HK) as [H1' H2' H3' H4' H5']. split; simpl; [| | |done|].
    + intros t' _. destruct (decide (t = t')) as [<-|Hne]; [|by rewrite fn_lookup_insert_ne; [apply H1'|]].
      rewrite fn_lookup_insert. by exists true.
    + intros sd' t'. destruct (decide (t = t')) as [<-|Hne].
      * rewrite fn_lookup_insert. simpl. split; [|done]. destruct (decide (sd = sd')) as [<-|Hsd].
        { rewrite fn_lookup_insert. unfold without. rewrite list_elem_of_filter. by intros []. }
        rewrite fn_lookup_insert_ne, H2', Ht by done. apply Hsd.
      * rewrite (fn_lookup_insert_ne _ t) by done. rewrite <- H2'. destruct (decide (sd = sd')) as [<-|Hsd].
        { rewrite fn_lookup_insert. unfold without. rewrite list_elem_of_filter. naive_solver. }
        by rewrite fn_lookup_insert_ne.
    + intros sd'. destruct (decide (sd = sd')) as [<-|Hsd]; [|by rewrite fn_lookup_insert_ne].
      rewrite fn_lookup_insert. by apply NoDup_filter.
    + intros sd'. destruct (decide (sd = sd')) as [<-|Hsd]; [|by rewrite fn_lookup_insert_ne; [apply H5'|]].
      rewrite fn_lookup_insert. intros Hw. apply H5'. intros E. rewrite E in Hw. by apply Hw.
  - intros sd'. simpl. destruct (HB sd') as (Ha & Hm1 & Hb). split_and!; [done..|]. intros [|Hs]; [done|]. apply Hb. by right.
Qed.

(** *** Interrupts *)

Lemma slot_one p sd : slot p sd = 1 ↔ match sd with SND => snd_count p = snd_bufsz p | RCV => rcv_count p = 0 end.
Proof.
  unfold slot. destruct sd.
  - destruct (Z.eqb_spec (snd_count p) (snd_bufsz p)); simpl; split; intros; congruence || lia.
  - destruct (Z.eqb_spec (rcv_count p) 0); simpl; split; intros; congruence || lia.
Qed.

Lemma slot_eq p p' sd : (slot p sd = 1 ↔ slot p' sd = 1) → slot p' sd = slot p sd.
Proof. pose proof (slot_nonneg p sd). pose proof (slot_nonneg p' sd). intros [? ?]. lia. Qed.

(** In terms of the slots: one right leaves its slot with a signal, or the
    slots stay as they are. *)
Lemma signals_slots p p' ks ks' put got acc : RingsOK p → moved p p' put got acc → signals p p' ks ks' →
  (∃ sd, slot p sd = 1 ∧ slot p' sd = 0 ∧ (∀ sd', sd' ≠ sd → slot p' sd' = slot p sd') ∧ sem_isig sd ks = (E_OK, ks')) ∨
  (ks' = ks ∧ ∀ sd, slot p' sd = slot p sd).
Proof.
  intros HR Hm [Hsig (Hone & Hles & Hler)]. pose proof (mv_ssz _ _ _ _ _ Hm) as Hz.
  pose proof (rg_count _ _ _ _ (rk_snd _ HR)) as Hcs. pose proof (rg_count _ _ _ _ (rk_rcv _ HR)) as Hcr.
  destruct ((snd_count p =? snd_bufsz p) && negb (snd_count p' =? snd_bufsz p)) eqn:Es;
    [|destruct ((rcv_count p =? 0) && negb (rcv_count p' =? 0)) eqn:Er];
    rewrite ?andb_true_iff, ?andb_false_iff, ?negb_true_iff, ?negb_false_iff, ?Z.eqb_eq, ?Z.eqb_neq in *.
  - left. exists SND. split_and!; [by apply slot_one, Es| |intros [] ?; [done|]|done].
    + unfold slot. rewrite Hz. by rewrite (proj2 (Z.eqb_neq _ _) (proj2 Es)).
    + apply slot_eq. rewrite !slot_one. lia.
  - left. exists RCV. split_and!; [by apply slot_one, Er| |intros [] ?; [|done]|done].
    + unfold slot. by rewrite (proj2 (Z.eqb_neq _ _) (proj2 Er)).
    + apply slot_eq. rewrite !slot_one. lia.
  - right. split; [done|]. intros sd. apply slot_eq. rewrite !slot_one. destruct sd; lia.
Qed.

(** The right is in the slot: the semaphore takes the signal. *)
Lemma signal_slot m rel ks owner p sd : KOK rel None ks owner → balanced m rel ks owner p → slot p sd = 1 →
  ∃ ks' owner', sem_isig sd ks = (E_OK, ks') ∧ KOK rel None ks' owner' ∧
    ks_cnt ks' sd + own owner' sd = 1 ∧ same_but sd ks ks' owner owner'.
Proof.
  intros HK HB Hs. pose proof (balanced_le _ _ _ _ _ sd HB) as Hle. pose proof (ko_cnt _ _ _ _ HK sd). pose proof (own_nonneg owner sd).
  destruct (sem_signal_ok rel None ks owner sd HK) as (ks' & owner' & E & HK' & Hsum & Hsame & _); [done|lia| |by exists ks', owner'].
  unfold own in *. destruct (owner sd); [lia|done].
Qed.

Lemma can_signal_ok m rel ks owner p : KOK rel None ks owner → balanced m rel ks owner p → can_signal p ks.
Proof.
  intros HK HB. split; intros Hx.
  - destruct (signal_slot m rel ks owner p SND HK HB) as (ks' & owner' & -> & _); [by apply slot_one|done].
  - destruct (signal_slot m rel ks owner p RCV HK HB) as (ks' & owner' & -> & _); [by apply slot_one|done].
Qed.

(** What an interrupt handler does to the buffers, it does to the rights. *)
Lemma signals_balanced m rel ks owner p p' ks' put got acc :
  KOK rel None ks owner → balanced m rel ks owner p → RingsOK p → moved p p' put got acc → signals p p' ks ks' →
  ∃ owner', KOK rel None ks' owner' ∧ balanced m rel ks' owner' p'.
Proof.
  intros HK HB HR Hm Hsig. destruct (signals_slots _ _ _ _ _ _ _ HR Hm Hsig) as [(sd & Hs & Hs' & Hsl & E)|[-> Hsl]].
  - destruct (signal_slot m rel ks owner p sd HK HB Hs) as (ks1 & owner' & E1 & HK' & Hsum & Hsame).
    rewrite E1 in E. injection E as ->. exists owner'. split; [done|]. intros sd'.
    destruct (decide (sd' = sd)) as [->|Hne].
    { destruct (HB sd) as (H1' & Hm1 & _). pose proof (ko_cnt _ _ _ _ HK sd). pose proof (own_nonneg owner sd). split_and!; lia. }
    destruct (Hsame sd' Hne) as [-> Ho]. rewrite (own_same _ _ _ Ho), (Hsl sd' Hne). apply HB.
  - exists owner. split; [done|]. intros sd. rewrite Hsl. apply HB.
Qed.

(** *** Every event *)

Lemma step_irq m p0 owner w p' ks' acc : Inv0 m p0 owner w →
  moved (w_port w) p' [] [] acc → signals (w_port w) p' (w_ks w) ks' →
  Inv m p0 (w <| w_port := p' |> <| w_ks := ks' |> <| w_acc ::= fun l => l ++ acc |>).
Proof.
  intros [HK HB HP HO HE] Hm Hsig.
  destruct (signals_balanced _ _ _ _ _ _ _ _ _ _ HK HB (mv_rings _ _ _ _ _ HP) Hm Hsig) as (owner' & HK' & HB').
  exists owner'. split; simpl; [done|done| | |].
  - rewrite <- (app_nil_r (w_put w)), <- (app_nil_r (w_got w)). by eapply moved_trans.
  - by rewrite (mv_open _ _ _ _ _ Hm).
  - by rewrite (mv_err _ _ _ _ _ Hm).
Qed.

Lemma step_inv m p0 e w w' : Inv m p0 w → step e w = Some w' → Inv m p0 w'.
Proof.
  intros [owner HI]. pose proof HI as [HK HB HP HO HE]. destruct e as [t c|t pos|t| | |e]; cbn [step].
  - destruct (ks_thr (w_ks w) t) eqn:Ht; try done. destruct (call_ok c) eqn:Hc; intros [= <-]. by eapply step_call.
  - unfold run_step. destruct (ks_thr (w_ks w) t) as [|c m'|] eqn:Ht; try done. destruct m' as [r|B o k|sd k|sd k].
    + intros [= <-]. by eapply step_ret.
    + destruct (step_op m p0 owner w t c B o k HI Ht) as (x & p & -> & HI'). by intros [= <-].
    + intros [= <-]. by eapply step_wai.
    + destruct (step_sig m p0 owner w t c sd k HI Ht) as (ks & -> & HI'). by intros [= <-].
  - destruct (ks_thr (w_ks w) t) eqn:Ht; intros [= <-]. by eapply step_rel.
  - destruct (_ && _) eqn:Hg; [|done]. apply andb_true_iff in Hg as [_ Hrdy].
    destruct (sio_irdy_snd_ok _ (w_ks w) (mv_rings _ _ _ _ _ HP) Hrdy (can_signal_ok _ _ _ _ _ HK HB)) as (p' & ks' & -> & Hm & Hsig).
    intros [= <-]. destruct (step_irq m p0 owner w p' ks' [] HI Hm Hsig) as [owner' [K1 K2 K3 K4 K5]].
    exists owner'. split; try done. simpl in K3. by rewrite app_nil_r in K3.
  - destruct (_ && _) eqn:Hg; [|done].
    destruct (sio_irdy_rcv_ok _ (w_ks w) (mv_rings _ _ _ _ _ HP) (can_signal_ok _ _ _ _ _ HK HB)) as (p' & ks' & -> & Hm & Hsig).
    intros [= <-]. by eapply step_irq.
  - intros [= <-]. destruct (move_law e (p_siopcb (w_port w))) as [Hs _]. exists owner. split; try done. simpl.
    rewrite <- (app_nil_r (w_put w)), <- (app_nil_r (w_got w)), <- (app_nil_r (w_acc w)). eapply moved_trans; [done|].
    pose proof (mv_rings _ _ _ _ _ HP) as HR.
    apply (moved_quiet (w_port w) _ (rcv_fc_chr (w_port w)) (rcv_stopped (w_port w)) (snd_stopped (w_port w)) (ioctl (w_port w)) HR);
      [by destruct HR|done].
Qed.

Lemma run_app l l' w : run (l ++ l') w = w ← run l w; run l' w.
Proof.
  unfold run. rewrite foldl_app. destruct (foldl _ (Some w) l) as [w'|]; simpl; [done|].
  by induction l' as [|e l' IH]; simpl.
Qed.

Lemma run_cons e l w : run (e :: l) w = w ← step e w; run l w.
Proof. apply (run_app [e] l). Qed.

Lemma run_inv m p0 l : ∀ w w', Inv m p0 w → run l w = Some w' → Inv m p0 w'.
Proof.
  induction l as [|e l IH]; intros w w' HI; [by intros [= <-]|]. rewrite run_cons.
  destruct (step e w) as [w1|] eqn:E; [|done]. simpl. apply IH. by eapply step_inv.
Qed.

(** ** The start: the port has just been opened *)

(** The semaphores as serial.cfg creates them, no task in a service call. *)
Definition KS0 : KS := mkKS (fun sd => match sd with SND => 1 | RCV => 0 end) (fun _ => []) (fun _ => Idle None).
Definition w0 p : W := mkW p KS0 [] [] [] false.

Record sizes_ok p : Prop := {
  sz_snd : 0 < snd_bufsz p < 2^32;
  sz_rcv : 0 < rcv_bufsz p < 2^32 }.

Lemma serial_opn_por_ok dpn p p' : sizes_ok p → serial_opn_por dpn TNUM_PORT portid p = (E_OK, p') →
  RingsOK p' ∧ snd_count p' = 0 ∧ rcv_count p' = 0 ∧ line p' = line p ∧ openflag p' = true ∧ errorflag p' = false ∧
  snd_bufsz p' = snd_bufsz p ∧ rcv_bufsz p' = rcv_bufsz p.
Proof.
  intros [Hs Hr]. unfold serial_opn_por. destruct dpn; [done|]. destruct (negb _); [done|]. destruct (openflag p); [done|].
  intros [= <-]. simpl. split_and!; try done.
  - split; simpl; [apply ring_empty; lia|apply ring_empty; lia|lia|lia|by left].
  - unfold line. simpl. by rewrite (proj1 (ena_cbr_law _ _ (or_intror eq_refl))), opn_por_law.
Qed.

Lemma start_inv p0 : RingsOK p0 → snd_count p0 = 0 → rcv_count p0 = 0 → openflag p0 = true → errorflag p0 = false →
  Inv 1 p0 (w0 p0).
Proof.
  intros HR Hs Hr Ho He. exists (fun _ => None). split; simpl; try done.
  - split; simpl; [by intros t _|by intros [] t; rewrite elem_of_nil|intros; apply NoDup_nil_2|by intros []|done].
  - intros sd. simpl. unfold slot, own. pose proof (rg_size _ _ _ _ (rk_snd _ HR)).
    destruct sd; simpl; [rewrite Hs, (proj2 (Z.eqb_neq 0 _)) by lia; simpl; lia|rewrite Hr; simpl; lia].
  - by apply moved_refl.
Qed.
End system.
