(* ===== verification/SerialCorrect.v ===== *)
(** * Serial interface driver: what holds of a port

    The theorems about serial.c, for any device that behaves as [SIOLaws] says,
    and a simple device for the examples. *)

From S2P Require Import Prelude Data Ring Syslog Serial SerialProof SerialSystem.
Open Scope Z_scope.

Section correct.
Context {D : Type} `{SIOLaws D} (TNUM_PORT portid : Z).
Implicit Types (p : SPCB D) (w : @W D).

(** [w] is reached by the events [l] from the moment the port [p] is opened. *)
Definition reached p (l : list (@event D _ _)) w : Prop :=
  ∃ p', serial_opn_por false TNUM_PORT portid p = (E_OK, p') ∧ run TNUM_PORT portid l (w0 p') = Some w.

(** A property of the state that the events lead to, by evaluation. *)
Definition ends p (l : list (@event D _ _)) (P : @W D → bool) : bool :=
  match serial_opn_por false TNUM_PORT portid p with
  | (ercd, p') => (ercd =? E_OK) && match run TNUM_PORT portid l (w0 p') with Some w => P w | None => false end
  end.

Lemma ends_reached p l P : ends p l P = true → ∃ w, reached p l w ∧ P w = true.
Proof.
  unfold ends, reached. destruct (serial_opn_por false TNUM_PORT portid p) as [ercd p'].
  destruct (Z.eqb_spec ercd E_OK) as [->|]; [|done]. simpl. destruct (run TNUM_PORT portid l (w0 p')) as [w|] eqn:E; [|done].
  intros HP. exists w. split; [|done]. by exists p'.
Qed.

Lemma opened_portid p p' : serial_opn_por false TNUM_PORT portid p = (E_OK, p') → 1 ≤ portid ≤ TNUM_PORT.
Proof. unfold serial_opn_por. destruct (Z.leb_spec 1 portid), (Z.leb_spec portid TNUM_PORT); simpl; intros; try done; lia. Qed.

Lemma reached_inv p l w : sizes_ok p → reached p l w →
  ∃ p0, Inv 1 p0 w ∧ line p0 = line p ∧ snd_contents p0 = [] ∧ rcv_contents p0 = [] ∧ 1 ≤ portid ≤ TNUM_PORT.
Proof.
  intros Hsz (p0 & Hopn & Hrun). pose proof (opened_portid _ _ Hopn) as Hport.
  destruct (serial_opn_por_ok TNUM_PORT portid false p p0 Hsz Hopn) as (HR & Hs & Hr & Hl & Ho & He & _).
  exists p0. split_and!; try done; [|unfold snd_contents; by rewrite Hs|unfold rcv_contents; by rewrite Hr|lia..].
  eapply run_inv; [done|by apply start_inv|done].
Qed.

(** C12: However the tasks, the interrupts and the hardware take turns, on a port
    that stays open: the driver never sees an error, in particular no semaphore
    is signalled beyond its maximum; what tasks have written is, in the order of
    writing, what has gone out, characters of the flow control left out,
    followed by the transmit buffer; what was accepted from the line is what
    tasks have read followed by the receive buffer; and when no waiting task was
    released, every call that has returned has written all its characters or
    read as many as it was asked for. *)
Theorem serial_port_safe p l w : sizes_ok p → reached p l w →
  errorflag (w_port w) = false ∧ (∀ sd, 0 ≤ ks_cnt (w_ks w) sd ≤ 1) ∧
  (∃ out x, line (w_port w) = line p ++ out ∧ mixed x out ∧ w_put w = x ++ snd_contents (w_port w)) ∧
  w_acc w = w_got w ++ rcv_contents (w_port w) ∧
  ∀ t c r, ks_thr (w_ks w) t = Idle (Some (c, r)) → w_rel w = false → returns c r.
Proof.
  intros Hsz Hw. destruct (reached_inv p l w Hsz Hw) as (p0 & (owner & [HK HB HP HO HE]) & Hl & Hs & Hr & Hp).
  split_and!; [done| | | |].
  - intros sd. pose proof (balanced_le _ _ _ _ _ sd HB). pose proof (ko_cnt _ _ _ _ HK sd).
    pose proof (own_nonneg owner sd). pose proof (slot_nonneg (w_port w) sd). lia.
  - destruct (mv_snd _ _ _ _ _ HP) as (out & x & H1' & H2' & H3'). exists out, x. rewrite H1', Hl. by rewrite Hs in H3'.
  - pose proof (mv_rcv _ _ _ _ _ HP) as H1'. by rewrite Hr in H1'.
  - intros t c r Ht Hrel. pose proof (ko_thr _ _ _ _ HK t ltac:(done)) as Hth. rewrite Ht in Hth. by apply (proj2 Hth).
Qed.

(** Nobody waits in vain.  A task that waits to write does so because the
    transmit buffer is full or another task is writing, and a task that waits to
    read because the receive buffer is empty or another task is reading - as
    long as no waiting task was released, for the readers. *)
Theorem serial_wait_reason p l w t c sd k : sizes_ok p → reached p l w →
  ks_thr (w_ks w) t = Waiting c sd k → w_rel w = false ∨ sd = SND →
  match sd with SND => snd_count (w_port w) = snd_bufsz (w_port w) | RCV => rcv_count (w_port w) = 0 end ∨
  ∃ t', t' ≠ t ∧ match ks_thr (w_ks w) t' with Idle _ => False | Running _ _ => True | Waiting _ sd' _ => sd' ≠ sd end.
Proof.
  intros Hsz Hw Ht Hrel. destruct (reached_inv p l w Hsz Hw) as (p0 & (owner & [HK HB HP HO HE]) & _).
  assert (Hin : t ∈ ks_wait (w_ks w) sd) by (apply (ko_wait _ _ _ _ HK); by rewrite Ht).
  assert (Hc : ks_cnt (w_ks w) sd = 0) by (apply (ko_zero _ _ _ _ HK); intros E; rewrite E in Hin; by apply not_elem_of_nil in Hin).
  destruct (HB sd) as (_ & _ & Hsum). specialize (Hsum Hrel). unfold own in Hsum.
  destruct (owner sd) as [t'|] eqn:Ho; [right|left; apply slot_one; lia].
  pose proof (ko_thr _ _ _ _ HK t' ltac:(done)) as Hth. pose proof (has_rights_of owner t' sd) as Hhas.
  rewrite Ho, bool_decide_eq_true_2 in Hhas by done.
  exists t'. split; [intros ->; rewrite Ht in Hth; destruct Hth as (_ & _ & Hx & _); congruence|].
  destruct (ks_thr (w_ks w) t') as [last|c' m'|c' sd' k']; [|done|].
  - destruct Hth as [HT _]. rewrite HT in Hhas. by destruct sd.
  - destruct Hth as (_ & _ & Hx & _). intros ->. congruence.
Qed.

(** *** Emptying the transmit buffer *)

Definition quiet_event (e : @event D _ _) : Prop := e = E_irq_snd ∨ ∃ x, e = E_dev x.

(** Characters still to be sent by interrupts. *)
Definition pending p : Z := snd_count p + Z.b2z (negb (rcv_fc_chr p =? 0)).

Lemma irq_snd_progress m p0 owner w : Inv0 m p0 owner w → snd_ready (p_siopcb (w_port w)) = true →
  cbr SIO_RDY_SND (p_siopcb (w_port w)) = true → snd_stopped (w_port w) = false → 0 < snd_count (w_port w) →
  ∃ w', step TNUM_PORT portid E_irq_snd w = Some w' ∧ w_put w' = w_put w ∧ pending (w_port w') = pending (w_port w) - 1 ∧
    snd_stopped (w_port w') = false ∧ cbr SIO_RDY_SND (p_siopcb (w_port w')) = true.
Proof.
  intros [HK HB HP HO HE] Hrdy Hcbr Hst Hpos. cbn [step]. rewrite Hcbr, Hrdy. simpl andb. cbv iota.
  pose proof (can_signal_ok _ _ _ _ _ HK HB) as Hcs. pose proof (mv_rings _ _ _ _ _ HP) as HR.
  unfold sio_irdy_snd, pending. set (p := w_port w) in *. destruct (Z.eqb_spec (rcv_fc_chr p) 0) as [Hz|Hz].
  - simpl negb. cbv iota. rewrite Hst, (proj2 (Z.ltb_lt _ _) Hpos). simpl andb. cbv iota.
    destruct (snd_chr_law (snd_buffer p (snd_read_ptr p)) (p_siopcb p)) as (_ & Hs & Hb). rewrite Hrdy in Hs.
    destruct (snd_taken_ok p (w_ks w) _ HR Hpos Hcs Hs) as (p' & s' & -> & _ & _ & Hd & Hc & Hst' & Hfc).
    eexists. split; [reflexivity|]. simpl. rewrite Hd, Hb, Hc, Hst', Hfc, Hz. simpl. split_and!; [done|lia|done|done].
  - simpl negb. cbv iota. eexists. split; [reflexivity|]. simpl. destruct (snd_chr_law (rcv_fc_chr p) (p_siopcb p)) as (_ & _ & Hb).
    rewrite Hb. split_and!; [done|lia|done|done].
Qed.

(** C13: While the driver is called back and the other side has not stopped it,
    the transmit buffer empties: after finitely many interrupts, the transmit
    register becoming free before each, everything written has gone out. *)
Theorem serial_drains p l w : sizes_ok p → reached p l w →
  (∀ d : D, ∃ e, snd_ready (sio_move e d) = true) →
  cbr SIO_RDY_SND (p_siopcb (w_port w)) = true → snd_stopped (w_port w) = false →
  ∃ l' w' out, Forall quiet_event l' ∧ run TNUM_PORT portid l' w = Some w' ∧ snd_count (w_port w') = 0 ∧
    line (w_port w') = line p ++ out ∧ mixed (w_put w) out.
Proof.
  intros Hsz Hw Hdev Hcbr Hst. destruct (reached_inv p l w Hsz Hw) as (p0 & HI & Hl & Hs & _ & Hport). clear Hw l.
  assert (Hput : ∃ l' w', Forall quiet_event l' ∧ run TNUM_PORT portid l' w = Some w' ∧ snd_count (w_port w') = 0 ∧ w_put w' = w_put w).
  { remember (Z.to_nat (pending (w_port w))) as n eqn:Hn. revert w HI Hcbr Hst Hn.
    induction n as [|n IH]; intros w HI Hcbr Hst Hn.
    all: destruct HI as [owner HI]; pose proof (rg_count _ _ _ _ (rk_snd _ (mv_rings _ _ _ _ _ (iv_port _ _ _ _ HI)))) as Hc.
    all: destruct (Z.eq_dec (snd_count (w_port w)) 0) as [Hz|Hz]; [by exists [], w|].
    all: assert (0 ≤ Z.b2z (negb (rcv_fc_chr (w_port w) =? 0))) as Hb by (destruct (negb _); simpl; lia).
    { unfold pending in Hn. lia. }
    destruct (Hdev (p_siopcb (w_port w))) as [e He].
    set (w1 := w <| w_port ::= fun p => p <| p_siopcb ::= sio_move e |> |>).
    destruct (move_law e (p_siopcb (w_port w))) as [_ Hm].
    assert (HI1 : Inv 1 p0 w1) by (eapply (step_inv TNUM_PORT portid Hport 1 p0 (E_dev e) w); [by exists owner|done]).
    destruct HI1 as [owner1 HI1].
    destruct (irq_snd_progress 1 p0 owner1 w1 HI1) as (w2 & Hstep & Hp2 & Hn2 & Hst2 & Hcbr2); [done|by simpl; rewrite Hm|done|simpl; lia|].
    destruct (IH w2) as (l' & w' & Hq & Hrun & Hz' & Hp'); [by eapply step_inv; [|exists owner1|]|done|done| |].
    { rewrite Hn2. change (pending (w_port w1)) with (pending (w_port w)). lia. }
    exists (E_dev e :: E_irq_snd :: l'), w'. split_and!; [|rewrite run_cons; change (step TNUM_PORT portid (E_dev e) w) with (Some w1); cbn [mbind option_bind]; by rewrite run_cons, Hstep|done|by rewrite Hp'].
    constructor; [right; by eexists|]. constructor; [by left|done]. }
  destruct Hput as (l' & w' & Hq & Hrun & Hz & Hp). exists l', w'.
  assert (HI' : Inv 1 p0 w') by by eapply run_inv. destruct HI' as (owner & [HK HB HP HO HE]).
  destruct (mv_snd _ _ _ _ _ HP) as (out & x & H1' & H2' & H3'). exists out. split_and!; try done; [by rewrite H1', Hl|].
  rewrite Hs in H3'. simpl in H3'. rewrite <- Hp, H3'. unfold snd_contents. rewrite Hz. by rewrite app_nil_r.
Qed.

(** *** Two faults *)

(** Characters wait, nobody stops the driver, and it is not called back. *)
Definition stalled p : Prop :=
  0 < snd_count p ∧ rcv_stopped p = false ∧ cbr SIO_RDY_SND (p_siopcb p) = false.

Lemma exec_stalled {B} (o : op B) p : stalled p → RingsOK p → (snd_count p < snd_bufsz p ∨ puts o = []) →
  stalled (exec o p).2 ∧ line (exec o p).2 = line p.
Proof.
  intros (Hc & Hs & Hb) HR Hroom. pose proof (rg_count _ _ _ _ (rk_snd _ HR)) as Hcs. pose proof (rk_ssz _ HR).
  destruct o; simpl; try (split; [by split_and!|done]).
  - destruct Hroom as [Hlt|]; [|done]. unfold wri_chr_locked. rewrite (proj2 (Z.eqb_neq (snd_count p) 0)) by lia. simpl.
    split; [|done]. split_and!; simpl; [rewrite u32_small; lia|done|done].
  - unfold rea_chr_locked. simpl. rewrite Hs. simpl. split; [by split_and!|done].
Qed.

Lemma step_stalled m p0 e w w' : 1 ≤ portid ≤ TNUM_PORT → Inv m p0 w → stalled (w_port w) → e ≠ E_irq_rcv →
  step TNUM_PORT portid e w = Some w' → stalled (w_port w') ∧ line (w_port w') = line (w_port w).
Proof.
  intros Hport [owner [HK HB HP HO HE]] Hst He. destruct e as [t c|t pos|t| | |e]; cbn [step].
  - destruct (ks_thr (w_ks w) t); try done. destruct (call_ok c); by intros [= <-].
  - unfold run_step. destruct (ks_thr (w_ks w) t) as [|c m'|] eqn:Ht; try done. destruct m' as [r|B o k|sd k|sd k].
    + by intros [= <-].
    + pose proof (exec_stalled o (w_port w) Hst (mv_rings _ _ _ _ _ HP)) as Hex. destruct (exec o (w_port w)) as [x p].
      intros [= <-]. apply Hex.
      pose proof (ko_thr _ _ _ _ HK t ltac:(done)) as Hth. rewrite Ht in Hth. destruct Hth as (r' & _ & Hwp). simpl in Hwp.
      destruct o; try (by right). left. destruct Hwp as [HT _].
      destruct (has_alone _ _ _ _ _ t SND HK HB HT) as (_ & _ & Hsl).
      pose proof (rg_count _ _ _ _ (rk_snd _ (mv_rings _ _ _ _ _ HP))). unfold slot in Hsl.
      destruct (Z.eqb_spec (snd_count (w_port w)) (snd_bufsz (w_port w))); [done|lia].
    + by intros [= <-].
    + destruct (sem_signal sd (w_ks w)) as [x ks]. by intros [= <-].
  - destruct (ks_thr (w_ks w) t); try done. by intros [= <-].
  - destruct Hst as (_ & _ & ->). done.
  - done.
  - intros [= <-]. destruct (move_law e (p_siopcb (w_port w))) as [Hl Hb]. destruct Hst as (H1' & H2' & H3').
    split; [split_and!; try done; simpl; by rewrite Hb|done].
Qed.

Lemma run_stalled m p0 l : ∀ w w', 1 ≤ portid ≤ TNUM_PORT → Inv m p0 w → stalled (w_port w) → Forall (fun e => e ≠ E_irq_rcv) l →
  run TNUM_PORT portid l w = Some w' → stalled (w_port w') ∧ line (w_port w') = line (w_port w).
Proof.
  induction l as [|e l IH]; intros w w' Hport HI Hst Hl; [by intros [= <-]|]. rewrite run_cons.
  apply Forall_cons in Hl as [He Hl]. destruct (step TNUM_PORT portid e w) as [w1|] eqn:E; [|done]. simpl.
  intros Hrun. destruct (step_stalled m p0 e w w1 Hport HI Hst He E) as [Hst1 Hl1]. rewrite <- Hl1.
  eapply IH; [done|by eapply step_inv|done|done|done].
Qed.

(** The right to read is lost. *)
Lemma step_lost p0 e w w' : 1 ≤ portid ≤ TNUM_PORT → Inv 0 p0 w → step TNUM_PORT portid e w = Some w' → w_got w' = w_got w.
Proof.
  intros Hport [owner [HK HB HP HO HE]]. destruct e as [t c|t pos|t| | |e]; cbn [step].
  - destruct (ks_thr (w_ks w) t); try done. destruct (call_ok c); by intros [= <-].
  - unfold run_step. destruct (ks_thr (w_ks w) t) as [|c m'|] eqn:Ht; try done. destruct m' as [r|B o k|sd k|sd k].
    + by intros [= <-].
    + destruct (exec o (w_port w)) as [x p]. intros [= <-]. simpl.
      pose proof (ko_thr _ _ _ _ HK t ltac:(done)) as Hth. rewrite Ht in Hth. destruct Hth as (r' & _ & Hwp). simpl in Hwp.
      destruct o; simpl; try (by rewrite app_nil_r). destruct Hwp as [HT _].
      destruct (has_alone _ _ _ _ _ t RCV HK HB HT) as (Ho & _). destruct (HB RCV) as [Hsum _]. simpl in Hsum.
      rewrite (own_some _ _ _ Ho) in Hsum. pose proof (ko_cnt _ _ _ _ HK RCV). pose proof (slot_nonneg (w_port w) RCV). lia.
    + by intros [= <-].
    + destruct (sem_signal sd (w_ks w)) as [x ks]. by intros [= <-].
  - destruct (ks_thr (w_ks w) t); try done. by intros [= <-].
  - destruct (_ && _); [|done]. destruct (sio_irdy_snd (w_port w, w_ks w)). by intros [= <-].
  - destruct (_ && _); [|done]. destruct (sio_irdy_rcv (w_port w, w_ks w)). by intros [= <-].
  - by intros [= <-].
Qed.

Lemma run_lost p0 l : ∀ w w', 1 ≤ portid ≤ TNUM_PORT → Inv 0 p0 w → run TNUM_PORT portid l w = Some w' → w_got w' = w_got w.
Proof.
  induction l as [|e l IH]; intros w w' Hport HI; [by intros [= <-]|]. rewrite run_cons.
  destruct (step TNUM_PORT portid e w) as [w1|] eqn:E; [|done]. simpl.
  intros Hrun. rewrite <- (step_lost p0 e w w1 Hport HI E). eapply IH; [done|by eapply step_inv|done].
Qed.

(** No signal, no task in a call, and characters to read. *)
Lemma lost_inv p0 w : Inv 1 p0 w → ks_cnt (w_ks w) RCV = 0 → rcv_count (w_port w) ≠ 0 →
  (∀ t, match ks_thr (w_ks w) t with Idle _ => True | _ => False end) → Inv 0 p0 w.
Proof.
  intros [owner [HK HB HP HO HE]] Hc Hr Hidle. exists owner. split; try done.
  assert (Ho : owner RCV = None).
  { destruct (owner RCV) as [t|] eqn:Ho; [|done]. pose proof (has_rights_of owner t RCV) as Hh.
    rewrite Ho, bool_decide_eq_true_2 in Hh by done. pose proof (ko_thr _ _ _ _ HK t ltac:(done)) as Hth.
    specialize (Hidle t). destruct (ks_thr (w_ks w) t); try done. destruct Hth as [HT _]. by rewrite HT in Hh. }
  assert (Hsl : slot (w_port w) RCV = 0) by (unfold slot; by rewrite (proj2 (Z.eqb_neq _ _) Hr)).
  assert (Hown : own owner RCV = 0) by (unfold own; by rewrite Ho).
  intros []; [destruct (HB SND) as (H1' & H2' & H3')|destruct (HB RCV) as (H1' & H2' & H3')]; simpl in *.
  - split_and!; [lia|lia|done].
  - split_and!; [lia|lia|]. intros Hx. by apply H3'.
Qed.
End correct.

(** ** A simple device

    A transmit register that is free or not, and the characters that have
    arrived. *)

Module Uart.
Record UART := mkUART { u_line : list Z; u_free : bool; u_rx : list Z; u_cbr : Z → bool }.
#[export] Instance eta_UART : Eta UART := fun r => mkUART (u_line r) (u_free r) (u_rx r) (u_cbr r).

#[export] Instance uart_sio : SIO UART := {
  sio_opn_por d := d;
  sio_cls_por d := d;
  sio_snd_chr c d :=
    if u_free d then (true, d <| u_line ::= fun l => l ++ [c] |> <| u_free := false |>) else (false, d);
  sio_rcv_chr d := match u_rx d with [] => (-1, d) | c :: l => (c, d <| u_rx := l |>) end;
  sio_ena_cbr x d := d <| u_cbr ::= fun f r => (r =? x) || f r |>;
  sio_dis_cbr x d := d <| u_cbr ::= fun f r => negb (r =? x) && f r |> }.

Inductive uart_event := tx_done | rx (c : Z).

Definition uart_move (e : uart_event) (d : UART) : UART :=
  match e with tx_done => d <| u_free := true |> | rx c => d <| u_rx ::= fun l => l ++ [c] |> end.

#[export] Instance uart_laws : SIOLaws UART.
Proof.
  refine {| sent := u_line; cbr r d := u_cbr d r; snd_ready := u_free;
    rcv_ready d := match u_rx d with [] => false | _ => true end; sio_event := uart_event; sio_move := uart_move |}.
  - intros c d. simpl. destruct (u_free d) eqn:E; simpl; rewrite ?E, ?app_nil_r; done.
  - intros d. simpl. by destruct (u_rx d).
  - done.
  - done.
  - done.
  - by intros [] d.
Defined.

Definition port : SPCB UART :=
  mkSPCB 4 (fun _ => 0) 4 (fun _ => 0) (mkUART [] true [] (fun _ => false)) false false 0 0 0 0 0 false 0 0 0 false.
Definition opened : SPCB UART := (serial_opn_por false 1 1 port).2.

Lemma port_sizes : sizes_ok port.
Proof. split; simpl; lia. Qed.

Definition runs (t n : nat) : list (@event UART _ _) := replicate n (E_run t 0).

(** Task 0 writes three characters. *)
Definition write3 : list (@event UART _ _) := E_call 0 (c_wri_dat [1; 2; 3]) :: runs 0 8.

(** The other side sends STOP and then START, the register becoming free in
    between. *)
Definition stop_start : list (@event UART _ _) :=
  write3 ++ [E_dev (rx FC_STOP); E_irq_rcv; E_dev tx_done; E_irq_snd; E_dev (rx FC_START); E_irq_rcv].

(** Two characters arrive, task 1 begins to write, task 0 reads and is released
    from the wait for the echo, task 1 ends. *)
Definition echo_release : list (@event UART _ _) :=
  [E_dev (rx 97); E_irq_rcv; E_dev (rx 98); E_irq_rcv; E_call 1 (c_wri_dat [1])] ++ runs 1 3 ++
  [E_call 0 (c_rea_dat 2)] ++ runs 0 6 ++ [E_rel 0] ++ runs 0 1 ++ runs 1 3.

Definition idle (th : thread) : bool := match th with Idle _ => true | _ => false end.

(** C14: A stopped driver that is started again can stall.  The transmit callback
    was disabled while it was stopped; [sio_irdy_rcv] gives one character to the
    free register and does not enable the callback again.  Whatever the tasks and
    the hardware do afterwards, nothing goes out, as long as nothing arrives. *)
Theorem serial_resume_stalls :
  ∃ l w, reached 1 1 port l w ∧ w_rel w = false ∧ snd_contents (w_port w) = [3] ∧ snd_stopped (w_port w) = false ∧
    ∀ l' w', Forall (fun e => e ≠ E_irq_rcv) l' → run 1 1 l' w = Some w' → line (w_port w') = [1; 2].
Proof.
  exists stop_start. destruct (ends_reached 1 1 port stop_start (fun w =>
    bool_decide (w_rel w = false ∧ snd_contents (w_port w) = [3] ∧ snd_stopped (w_port w) = false ∧
      0 < snd_count (w_port w) ∧ rcv_stopped (w_port w) = false ∧ u_cbr (p_siopcb (w_port w)) 1 = false ∧
      line (w_port w) = [1; 2]))) as (w & Hw & HP); [vm_compute; reflexivity|].
  apply bool_decide_eq_true in HP as (H1 & H2 & H3 & H4 & H5 & H6 & H7).
  destruct (reached_inv 1 1 port _ w port_sizes Hw) as (p0 & HI & _ & _ & _ & Hport).
  exists w. split_and!; try done. intros l' w' Hl Hrun. rewrite <- H7.
  by eapply (run_stalled 1 1 1 p0 l' w w').
Qed.

(** C15: A reader that is released from the wait for its echo keeps the right to
    read.  [serial_rea_dat] leaves at [error_exit] without [sig_sem], and returns
    the number of characters read so far as if nothing had happened.  From then
    on no task ever reads a character of this port again, although there are
    some. *)
Theorem serial_echo_leak :
  ∃ l w, reached 1 1 port l w ∧ rcv_contents (w_port w) = [98] ∧
    ks_thr (w_ks w) 0 = Idle (Some (c_rea_dat 2, (1, [97]))) ∧
    ∀ l' w', run 1 1 l' w = Some w' → w_got w' = [97].
Proof.
  exists echo_release. destruct (ends_reached 1 1 port echo_release (fun w =>
    bool_decide (rcv_contents (w_port w) = [98] ∧ ks_cnt (w_ks w) RCV = 0 ∧ rcv_count (w_port w) ≠ 0 ∧ w_got w = [97]) &&
      match ks_thr (w_ks w) 0 with Idle (Some (c_rea_dat n, (r, x))) => bool_decide (n = 2%nat ∧ r = 1 ∧ x = [97]) | _ => false end))
    as (w & Hw & HP); [vm_compute; reflexivity|].
  apply andb_true_iff in HP as [HP H5]. apply bool_decide_eq_true in HP as (H1 & H2 & H3 & H4).
  destruct (reached_inv 1 1 port _ w port_sizes Hw) as (p0 & HI & _ & _ & _ & Hport).
  assert (Hthr : ∀ t, (idle ∘ (fun ks => ks_thr ks t) ∘ w_ks) <$> run 1 1 echo_release (w0 opened) = Some true)
    by (intros [|[|t]]; vm_compute; reflexivity).
  assert (Hidle : ∀ t, match ks_thr (w_ks w) t with Idle _ => True | _ => False end).
  { intros t. specialize (Hthr t). destruct Hw as (p' & Hopn & Hrun).
    assert (p' = opened) as -> by (unfold opened; by rewrite Hopn).
    rewrite Hrun in Hthr. simpl in Hthr. by destruct (ks_thr (w_ks w) t). }
  assert (Ht : ks_thr (w_ks w) 0 = Idle (Some (c_rea_dat 2, (1, [97])))).
  { destruct (ks_thr (w_ks w) 0) as [[[[] [r x]]|]| |]; try done. apply bool_decide_eq_true in H5. destruct H5 as (-> & -> & ->). done. }
  exists w. split_and!; try done. intros l' w' Hrun. rewrite <- H4.
  eapply (run_lost 1 1 p0 l' w w' Hport); [by apply lost_inv|done].
Qed.

(** Witnesses *)
Lemma serial_port_safe_witness : ∃ w, reached 1 1 port write3 w ∧ errorflag (w_port w) = false ∧
  ∀ c r, ks_thr (w_ks w) 0 = Idle (Some (c, r)) → returns c r.
Proof.
  destruct (ends_reached 1 1 port write3 (fun w => negb (w_rel w))) as (w & Hw & HP); [vm_compute; reflexivity|].
  apply negb_true_iff in HP.
  destruct (serial_port_safe 1 1 port write3 w port_sizes Hw) as (H1 & _ & _ & _ & H2).
  exists w. split_and!; [exact Hw|exact H1|]. intros c r Hr. exact (H2 0%nat c r Hr HP).
Defined.

(** Task 1 waits while task 0 writes. *)
Definition two_writers : list (@event UART _ _) :=
  E_call 0 (c_wri_dat [1; 2; 3]) :: runs 0 4 ++ E_call 1 (c_wri_dat [4]) :: runs 1 3.

Lemma serial_wait_reason_witness : ∃ w t', reached 1 1 port two_writers w ∧ t' ≠ 1%nat ∧
  match ks_thr (w_ks w) t' with Idle _ => False | Running _ _ => True | Waiting _ sd' _ => sd' ≠ SND end.
Proof.
  destruct (ends_reached 1 1 port two_writers (fun w => match ks_thr (w_ks w) 1 with Waiting _ SND _ => true | _ => false end &&
    negb (snd_count (w_port w) =? snd_bufsz (w_port w)))) as (w & Hw & HP); [vm_compute; reflexivity|].
  apply andb_true_iff in HP as [HP Hne]. apply negb_true_iff, Z.eqb_neq in Hne.
  destruct (ks_thr (w_ks w) 1) as [| |c [] k] eqn:Ht; try discriminate.
  destruct (serial_wait_reason 1 1 port two_writers w 1 c SND k port_sizes Hw Ht (or_intror eq_refl)) as [Hf|(t' & Hn & Ht')];
    [by apply Hne in Hf|].
  exists w, t'. split_and!; assumption.
Defined.

Lemma serial_drains_witness : ∃ w l' w' out, reached 1 1 port write3 w ∧ Forall quiet_event l' ∧
  run 1 1 l' w = Some w' ∧ snd_count (w_port w') = 0 ∧ line (w_port w') = out ∧ mixed [1; 2; 3] out.
Proof.
  destruct (ends_reached 1 1 port write3 (fun w => bool_decide (w_put w = [1; 2; 3]) && negb (snd_stopped (w_port w)) &&
    u_cbr (p_siopcb (w_port w)) 1)) as (w & Hw & HP); [vm_compute; reflexivity|].
  apply andb_true_iff in HP as [[Hput Hst]%andb_true_iff Hcb]. apply bool_decide_eq_true in Hput. apply negb_true_iff in Hst.
  destruct (serial_drains 1 1 port write3 w port_sizes Hw) as (l' & w' & out & H1 & H2 & H3 & H4 & H5);
    [intros d; by exists tx_done|exact Hcb|exact Hst|].
  rewrite Hput in H5. exists w, l', w', out. split_and!; assumption.
Defined.
End Uart.
