(* ===== verification/Logtask.v ===== *)
(** * System log task (syssvc/logtask.c)

    The end of the log task: what is still in the transmit buffer of the serial
    port and in the log buffer goes out through the low level output; and the
    test of [logtask_flush].  The log and the port are the two states; at the
    termination of the kernel nothing else runs. *)

From Stdlib Require Import Ascii String.
From S2P Require Import Prelude Data Ring Syslog SyslogProof Serial SerialProof SerialSystem SerialCorrect.
Open Scope Z_scope.

Section logtask.
Context (cstr : Z → option chars) {D : Type} `{SIO D} (TNUM_PORT logtask_portid : Z).
Implicit Types (p : SPCB D) (s : LOG).

Definition char_of (c : Z) : ascii := ascii_of_nat (Z.to_nat c).

(** [for (;;)]: [None] is another round, after [dly_tsk]; [rpor] is what
    [serial_ref_por] returns. *)
Definition flush_test (count : Z) (rpor : Z * option T_SERIAL_RPOR) s : option Z :=
  if (syslog_ref_log s).1 <? 0 then Some E_SYS
  else if r_count (syslog_ref_log s).2 <=? count then
    if count =? 0 then
      if rpor.1 <? 0 then Some E_SYS
      else match rpor.2 with Some r => if wricnt r =? 0 then Some E_OK else None | None => Some E_SYS end
    else Some E_OK
  else None.

(** [while (serial_get_chr(...)) target_fput_log(c)] *)
Fixpoint drain_port (fuel : nat) p : option (chars * SPCB D) :=
  match fuel with
  | O => None
  | S fuel =>
      match serial_get_chr TNUM_PORT logtask_portid p with
      | (Some c, p) => '(out, p) ← drain_port fuel p; Some (char_of c :: out, p)
      | (None, p) => Some ([], p)
      end
  end.

Definition buffered_messages : chars := list_ascii_of_string "-- buffered messages --" ++ [newline].

(** One entry: the message about lost entries, and the entry. *)
Definition put_entry (rercd : Z) (logbuf : SYSLOG) : option chars :=
  lost ← (if 0 <? rercd then syslog_lostmsg cstr (u32 rercd) else Some []);
  out ← (if LOG_TYPE_COMMENT <=? logtype logbuf then out ← syslog_print cstr logbuf; Some (out ++ [newline]) else Some []);
  Some (lost ++ out).

(** [while ((rercd = syslog_rea_log(&logbuf)) >= 0)] *)
Fixpoint drain_log (fuel : nat) (msgflg : bool) s : option (chars * LOG) :=
  match fuel with
  | O => None
  | S fuel =>
      match syslog_rea_log s with
      | ((rercd, Some logbuf), s) =>
          if rercd <? 0 then Some ([], s)
          else
            head ← (if msgflg then Some [] else syslog_printf cstr buffered_messages []);
            out ← put_entry rercd logbuf;
            '(rest, s) ← drain_log fuel true s;
            Some (head ++ out ++ rest, s)
      | ((rercd, None), s) => Some ([], s)
      end
  end.

(** One more turn than characters, and one more than entries. *)
Definition logtask_terminate p s : option (SPCB D * LOG) :=
  '(out1, p') ← drain_port (S (Z.to_nat (snd_count p))) p;
  '(out2, s') ← drain_log (S (Z.to_nat (syslog_count s))) false s;
  Some (p', s' <| low_output ::= fun l => l ++ out1 ++ out2 |>).
End logtask.

(** ** Nothing is left *)

Section proofs.
Context (cstr : Z → option chars) {D : Type} `{SIOLaws D} (TNUM_PORT portid : Z) (Hport : 1 ≤ portid ≤ TNUM_PORT).
Implicit Types (p : SPCB D) (s : LOG).

Lemma serial_get_chr_ok p : RingsOK p → openflag p = true →
  match snd_contents p with
  | [] => serial_get_chr TNUM_PORT portid p = (None, p)
  | c :: l => ∃ p', serial_get_chr TNUM_PORT portid p = (Some c, p') ∧ RingsOK p' ∧ openflag p' = true ∧
      snd_contents p' = l ∧ rcv_contents p' = rcv_contents p ∧ snd_count p' = snd_count p - 1
  end.
Proof.
  intros [HS HR Z1 Z2 Hfc] Ho. pose proof (rg_count _ _ _ _ HS) as Hc. pose proof (rg_head _ _ _ _ HS) as Hh.
  unfold serial_get_chr. rewrite (proj2 (Z.leb_le _ _)), (proj2 (Z.leb_le _ _)), Ho by lia. simpl andb.
  unfold snd_contents at 1. destruct (Z.ltb_spec 0 (snd_count p)) as [Hpos|Hz].
  - destruct (ring_pop _ (snd_buffer p) _ _ _ HS Hpos) as [HS' E]. rewrite E.
    assert (Hu : u32 (snd_count p - 1) = snd_count p - 1) by (apply u32_small; lia).
    eexists. split; [reflexivity|]. split_and!; try done.
    + split; try done. simpl. rewrite Hu. by rewrite INC_PTR_next by lia.
    + unfold snd_contents. simpl. rewrite Hu, INC_PTR_next by lia. done.
  - by replace (snd_count p) with 0 by lia.
Qed.

Lemma drain_port_S fuel p : drain_port TNUM_PORT portid (S fuel) p =
  match serial_get_chr TNUM_PORT portid p with
  | (Some c, p) => '(out, p) ← drain_port TNUM_PORT portid fuel p; Some (char_of c :: out, p)
  | (None, p) => Some ([], p)
  end.
Proof. done. Qed.

Lemma drain_port_ok n : ∀ p, RingsOK p → openflag p = true → n = Z.to_nat (snd_count p) →
  ∃ p', drain_port TNUM_PORT portid (S n) p = Some (char_of <$> snd_contents p, p') ∧ snd_count p' = 0 ∧
    rcv_contents p' = rcv_contents p.
Proof.
  induction n as [|n IH]; intros p HR Ho Hn; pose proof (serial_get_chr_ok p HR Ho) as Hget;
    pose proof (rg_count _ _ _ _ (rk_snd _ HR)) as Hc; pose proof (ring_length (snd_bufsz p) (snd_buffer p) (snd_read_ptr p) _ (proj1 Hc)) as Hlen;
    fold (snd_contents p) in Hlen; rewrite drain_port_S; destruct (snd_contents p) as [|c l]; simpl in Hlen; try lia.
  - rewrite Hget. exists p. split_and!; [done|lia|done].
  - destruct Hget as (p' & -> & HR' & Ho' & <- & Hrcv & Hcnt).
    destruct (IH p' HR' Ho') as (p2 & -> & Hz & Hr2); [lia|]. exists p2. split_and!; [done|done|by rewrite Hr2].
Qed.

(** What the entries print, the first with the number [lost] of entries lost
    before it. *)
Fixpoint entries_text (lost : Z) (l : list SYSLOG) : option chars :=
  match l with
  | [] => Some []
  | q :: l => out ← put_entry cstr lost q; rest ← entries_text 0 l; Some (out ++ rest)
  end.

Lemma drain_log_S fuel msgflg s : drain_log cstr (S fuel) msgflg s =
  match syslog_rea_log s with
  | ((rercd, Some logbuf), s) =>
      if rercd <? 0 then Some ([], s)
      else
        head ← (if msgflg then Some [] else syslog_printf cstr buffered_messages []);
        out ← put_entry cstr rercd logbuf;
        '(rest, s) ← drain_log cstr fuel true s;
        Some (head ++ out ++ rest, s)
  | ((rercd, None), s) => Some ([], s)
  end.
Proof. done. Qed.

Lemma drain_log_ok n : ∀ msgflg s text, LogInv s → syslog_lost s < 2^31 → n = Z.to_nat (syslog_count s) →
  entries_text (syslog_lost s) (log_contents s) = Some text →
  ∃ s', drain_log cstr (S n) msgflg s =
      Some ((if msgflg || (syslog_count s =? 0) then [] else buffered_messages) ++ text, s') ∧
    LogInv s' ∧ syslog_count s' = 0 ∧ low_output s' = low_output s.
Proof.
  induction n as [|n IH]; intros msgflg s text HI Hl Hn Htext; pose proof (syslog_rea_log_ok s HI) as Hrea;
    pose proof (rg_count _ _ _ _ (lg_ring _ HI)) as [Hc _]; pose proof (lg_lost _ HI) as Hl0;
    pose proof (ring_length TCNT_SYSLOG_BUFFER (syslog_buffer s) (syslog_head s) _ Hc) as Hlen;
    fold (log_contents s) in Hlen; rewrite drain_log_S; destruct (log_contents s) as [|q l]; simpl in Hlen; try lia.
  - rewrite Hrea. injection Htext as <-. exists s. replace (syslog_count s) with 0 by lia. simpl. by rewrite orb_true_r.
  - destruct Hrea as (s1 & E & HI1 & Hc1 & Hl1 & _). assert (Hlow : low_output s1 = low_output s).
    { replace s1 with (syslog_rea_log s).2 by (by rewrite E). unfold syslog_rea_log.
      destruct (0 <? syslog_count s); [|done]. simpl. by destruct (TCNT_SYSLOG_BUFFER <=? _). }
    rewrite E. assert (Hs32 : s32 (syslog_lost s) = syslog_lost s).
    { unfold s32, u32. rewrite Z.mod_small by lia. simpl. by rewrite (proj2 (Z.ltb_lt _ _)) by lia. }
    rewrite Hs32, (proj2 (Z.ltb_ge _ _)), (proj2 (Z.eqb_neq (syslog_count s) 0)), orb_false_r by lia.
    cbn [entries_text] in Htext. destruct (put_entry cstr (syslog_lost s) q) as [out|]; [|done]. simpl in Htext.
    destruct (entries_text 0 l) as [rest|] eqn:Er; [|done]. injection Htext as <-.
    destruct (IH true s1 rest HI1) as (s' & -> & HI' & Hz & Hlow'); [lia| |by rewrite Hl1, Hc1|].
    { destruct (ring_length TCNT_SYSLOG_BUFFER (syslog_buffer s1) (syslog_head s1) _ (proj1 (rg_count _ _ _ _ (lg_ring _ HI1)))).
      fold (log_contents s1). rewrite Hc1. lia. }
    exists s'. simpl. destruct msgflg; simpl; by rewrite Hlow', Hlow.
Qed.

(** C16: The end of the log task empties both buffers: the characters the serial
    driver had not sent and the entries nobody had read go out in their order,
    the entries under a heading and after the number of the lost ones. *)
Theorem logtask_terminate_drains p s text : RingsOK p → openflag p = true → LogInv s → syslog_lost s < 2^31 →
  entries_text (syslog_lost s) (log_contents s) = Some text →
  ∃ p' s', logtask_terminate cstr TNUM_PORT portid p s = Some (p', s') ∧ snd_count p' = 0 ∧ syslog_count s' = 0 ∧
    low_output s' = low_output s ++ (char_of <$> snd_contents p) ++
      (if syslog_count s =? 0 then [] else buffered_messages) ++ text.
Proof.
  intros HR Ho HI Hl Htext. destruct (drain_port_ok _ p HR Ho eq_refl) as (p' & E1 & Hz & _).
  destruct (drain_log_ok _ false s text HI Hl eq_refl Htext) as (s' & E2 & _ & Hz2 & Hlow).
  exists p', (s' <| low_output ::= fun l => l ++ (char_of <$> snd_contents p) ++ (if syslog_count s =? 0 then [] else buffered_messages) ++ text |>).
  unfold logtask_terminate. rewrite E1. cbn [mbind option_bind]. rewrite E2. simpl. split_and!; [done|done|done|by rewrite Hlow].
Qed.
End proofs.

(** ** Witness *)
Module LogtaskExample.
Import Uart SyslogExample.

(** Two characters not sent, two entries not read. *)
Definition port2 : SPCB UART := opened <| snd_buffer := fun i => 65 + i |> <| snd_write_ptr := 2 |> <| snd_count := 2 |>.
Definition log2 : LOG :=
  log_record (mkSYSLOG LOG_TYPE_COMMENT 1 [200]) (log_record (mkSYSLOG LOG_TYPE_COMMENT 2 [200]) (syslog_initialize blank)).

Lemma port2_rings : RingsOK port2.
Proof. split; simpl; [by split|by split|lia|lia|by left]. Qed.

Lemma log2_inv : LogInv log2.
Proof. apply log_record_ok, log_record_ok, syslog_initialize_ok. Qed.

Lemma logtask_terminate_drains_witness : ∃ p' s', logtask_terminate strings 1 1 port2 log2 = Some (p', s') ∧
  snd_count p' = 0 ∧ syslog_count s' = 0 ∧
  low_output s' = list_ascii_of_string "AB-- buffered messages --" ++ newline ::
    (list_ascii_of_string "task" ++ [newline]) ++ list_ascii_of_string "task" ++ [newline].
Proof.
  destruct (logtask_terminate_drains strings 1 1 ltac:(lia) port2 log2
    ((list_ascii_of_string "task" ++ [newline]) ++ list_ascii_of_string "task" ++ [newline]) port2_rings eq_refl log2_inv)
    as (p' & s' & H1 & H2 & H3 & H4); [vm_compute; reflexivity|vm_compute; reflexivity|].
  exists p', s'. split_and!; [exact H1|exact H2|exact H3|]. rewrite H4. vm_compute. reflexivity.
Defined.
End LogtaskExample.
