(* ===== verification/Scif.v ===== *)
(** * Driver of the serial device (arch/arm_gcc/rza1/scif.c)

    The registers of the SCIF are reached through [sil_reh_mem] and the like,
    which are the class [REGS]: what a read returns and what an access does is
    up to the hardware.  The functions of chip_serial.c with the names of the
    device driver interface call those of scif.c of the same name; [scif_sio] is
    that interface.  Addresses are numbers of bytes. *)

From S2P Require Import Prelude Data Syslog Serial.
Open Scope Z_scope.

Class REGS (M : Type) := {
  sil_reh_mem : Z → M → Z * M;
  sil_wrh_mem : Z → Z → M → M;
  sil_reb_mem : Z → M → Z * M;
  sil_wrb_mem : Z → Z → M → M }.

(** ** Registers *)

Definition REG_SCSMR := 0x00.
Definition REG_SCBRR := 0x04.
Definition REG_SCSCR := 0x08.
Definition REG_SCFTDR := 0x0C.
Definition REG_SCFSR := 0x10.
Definition REG_SCFRDR := 0x14.
Definition REG_SCFCR := 0x18.
Definition REG_SCLSR := 0x24.
Definition REG_SCEMR := 0x28.

Definition SCSMR_CKS1 := 0x0000.
Definition SCSCR_TIE := 0x0080.
Definition SCSCR_RIE := 0x0040.
Definition SCSCR_TE := 0x0020.
Definition SCSCR_RE := 0x0010.
Definition SCSCR_INTCLK := 0x0000.
Definition SCFSR_ER := 0x0080.
Definition SCFSR_TEND := 0x0040.
Definition SCFSR_TDFE := 0x0020.
Definition SCFSR_BRK := 0x0010.
Definition SCFSR_RDF := 0x0002.
Definition SCFCR_RSTRG_15 := 0x0000.
Definition SCFCR_RTRG_1 := 0x0000.
Definition SCFCR_TTRG_8 := 0x0000.
Definition SCFCR_TFRST := 0x0004.
Definition SCFCR_RFRST := 0x0002.
Definition SCLSR_ORER := 0x0001.

Definition u16 (x : Z) : Z := x `mod` 2^16.
Definition UART_CLK := 66670000.

(** ** Data *)

Record SIOPINIB := mkSIOPINIB { port : Z; bps_setting : Z }.

Record SIOPCB := mkSIOPCB {
  p_siopinib : SIOPINIB; exinf : Z; siop_openflag : bool; sendflag : bool; getready : bool; putready : bool;
  is_initialized : bool }.
#[export] Instance eta_SIOPCB : Eta SIOPCB := fun r =>
  mkSIOPCB (p_siopinib r) (exinf r) (siop_openflag r) (sendflag r) (getready r) (putready r) (is_initialized r).

(** ** Functions *)

Section scif.
Context {M : Type} `{REGS M}.
Implicit Types (p_siopcb : SIOPCB) (m : M).

Definition base p_siopcb : Z := port (p_siopinib p_siopcb).

(** Reads the status and resets the error flags: the beginning of
    [scif_getready] and of [scif_getchar]. *)
Definition scif_status p_siopcb m : Z * M :=
  let '(fsrval, m) := sil_reh_mem (base p_siopcb + REG_SCFSR) m in
  let '(lsrval, m) := sil_reh_mem (base p_siopcb + REG_SCLSR) m in
  let '(fsrval, m) :=
    if bits fsrval (Z.lor SCFSR_ER SCFSR_BRK) then
      let fsrval := Z.land fsrval (Z.lnot (Z.lor SCFSR_ER SCFSR_BRK)) in
      (fsrval, sil_wrh_mem (base p_siopcb + REG_SCFSR) fsrval m)
    else (fsrval, m) in
  let m :=
    if bits lsrval SCLSR_ORER then
      let lsrval := Z.land lsrval (Z.lnot SCLSR_ORER) in sil_wrh_mem (base p_siopcb + REG_SCLSR) lsrval m
    else m in
  (fsrval, m).

Definition scif_getready p_siopcb m : bool * M :=
  let '(fsrval, m) := scif_status p_siopcb m in (bits fsrval SCFSR_RDF, m).

Definition scif_putready p_siopcb m : bool * M :=
  let '(fsrval, m) := sil_reh_mem (base p_siopcb + REG_SCFSR) m in (bits fsrval SCFSR_TDFE, m).

Definition scif_getchar p_siopcb m : option Z * M :=
  let '(fsrval, m) := scif_status p_siopcb m in
  if bits fsrval SCFSR_RDF then
    let '(read_data, m) := sil_reb_mem (base p_siopcb + REG_SCFRDR) m in
    let fsrval := Z.land fsrval (Z.lnot SCFSR_RDF) in
    (Some read_data, sil_wrh_mem (base p_siopcb + REG_SCFSR) fsrval m)
  else (None, m).

Definition scif_putchar p_siopcb (c : Z) m : M :=
  let m := sil_wrb_mem (base p_siopcb + REG_SCFTDR) c m in
  sil_wrh_mem (base p_siopcb + REG_SCFSR) (u16 (Z.lnot (Z.lor SCFSR_TEND SCFSR_TDFE))) m.

(** [scif_enable_send], [scif_disable_send], [scif_enable_rcv] and
    [scif_disable_rcv]: a bit of SCSCR is set or cleared. *)
Definition scscr_set p_siopcb (bit : Z) m : M :=
  let '(scrval, m) := sil_reh_mem (base p_siopcb + REG_SCSCR) m in
  sil_wrh_mem (base p_siopcb + REG_SCSCR) (Z.lor scrval bit) m.
Definition scscr_clear p_siopcb (bit : Z) m : M :=
  let '(scrval, m) := sil_reh_mem (base p_siopcb + REG_SCSCR) m in
  sil_wrh_mem (base p_siopcb + REG_SCSCR) (Z.land scrval (Z.lnot bit)) m.
Definition scif_enable_send p_siopcb m : M := scscr_set p_siopcb SCSCR_TIE m.
Definition scif_disable_send p_siopcb m : M := scscr_clear p_siopcb SCSCR_TIE m.
Definition scif_enable_rcv p_siopcb m : M := scscr_set p_siopcb SCSCR_RIE m.
Definition scif_disable_rcv p_siopcb m : M := scscr_clear p_siopcb SCSCR_RIE m.

(** [while (... & SCFSR_RDF)]: [None] when [fuel] turns were not enough. *)
Fixpoint discard_input (fuel : nat) (inib : SIOPINIB) m : option M :=
  match fuel with
  | O => None
  | S fuel =>
      let '(fsrval, m) := sil_reh_mem (port inib + REG_SCFSR) m in
      if bits fsrval SCFSR_RDF then
        let '(_, m) := sil_reb_mem (port inib + REG_SCFRDR) m in
        discard_input fuel inib (sil_wrh_mem (port inib + REG_SCFSR) (u16 (Z.lnot SCFSR_RDF)) m)
      else Some m
  end.

(** The divisor of the bit rate; [None]: division by zero. *)
Definition bps_divisor (inib : SIOPINIB) : option Z :=
  if u32 (32 * bps_setting inib) =? 0 then None
  else Some (u16 (u32 (UART_CLK / u32 (32 * bps_setting inib) - 1))).

Definition scif_init_siopinib (fuel : nat) (inib : SIOPINIB) m : option (Z * M) :=
  fsrval ← bps_divisor inib;
  if 255 <? fsrval then Some (1, m)
  else
    let reg r := port inib + r in
    let m := sil_wrh_mem (reg REG_SCSCR) 0 m in
    let m := sil_wrh_mem (reg REG_SCFCR) (Z.lor SCFCR_TFRST SCFCR_RFRST) m in
    let m := (sil_reh_mem (reg REG_SCFSR) m).2 in
    let m := (sil_reh_mem (reg REG_SCLSR) m).2 in
    let m := sil_wrh_mem (reg REG_SCFSR) 0 m in
    let m := sil_wrh_mem (reg REG_SCLSR) 0 m in
    let m := sil_wrh_mem (reg REG_SCSCR) SCSCR_INTCLK m in
    let m := sil_wrh_mem (reg REG_SCSMR) SCSMR_CKS1 m in
    let m := sil_wrh_mem (reg REG_SCEMR) 0 m in
    let m := sil_wrb_mem (reg REG_SCBRR) fsrval m in
    let m := sil_wrh_mem (reg REG_SCFCR) (Z.lor (Z.lor SCFCR_RSTRG_15 SCFCR_RTRG_1) SCFCR_TTRG_8) m in
    let m := sil_wrh_mem (reg REG_SCSCR) (Z.lor (Z.lor SCSCR_TE SCSCR_RE) SCSCR_INTCLK) m in
    m ← discard_input fuel inib m;
    Some (0, sil_wrh_mem (reg REG_SCFSR) 0 m).

(** One entry of the table of [scif_initialize]. *)
Definition scif_initialize (inib : SIOPINIB) p_siopcb : SIOPCB :=
  p_siopcb <| p_siopinib := inib |> <| siop_openflag := false |> <| sendflag := false |>.

Definition scif_init (fuel : nat) (inib : SIOPINIB) p_siopcb m : option (SIOPCB * M) :=
  if negb (is_initialized p_siopcb) then
    '(_, m) ← scif_init_siopinib fuel inib m; Some (p_siopcb <| is_initialized := true |>, m)
  else Some (p_siopcb, m).

Definition scif_opn_por (fuel : nat) (exinf' : Z) p_siopcb m : option (SIOPCB * M) :=
  '(p_siopcb, m) ← scif_init fuel (p_siopinib p_siopcb) p_siopcb m;
  Some (p_siopcb <| exinf := exinf' |> <| putready := false |> <| getready := false |> <| siop_openflag := true |>, m).

(** [port] is a pointer to 16-bit registers: the offset counts twice. *)
Definition scif_cls_por p_siopcb m : M := sil_wrh_mem (base p_siopcb + 2 * REG_SCSCR) 0 m.

(** Interrupts are accepted between two turns: [window]. *)
Fixpoint scif_pol_putc (window : M → M) (fuel : nat) (c : Z) (inib : SIOPINIB) m : option M :=
  match fuel with
  | O => None
  | S fuel =>
      let '(fsrval, m) := sil_reh_mem (port inib + REG_SCFSR) m in
      if bits fsrval SCFSR_TDFE then
        let m := sil_wrb_mem (port inib + REG_SCFTDR) c m in
        Some (sil_wrh_mem (port inib + REG_SCFSR) (u16 (Z.lnot (Z.lor SCFSR_TEND SCFSR_TDFE))) m)
      else scif_pol_putc window fuel c inib (window m)
  end.

Definition scif_snd_chr p_siopcb (c : Z) m : bool * M :=
  let '(ready, m) := scif_putready p_siopcb m in
  if ready then (true, scif_putchar p_siopcb c m) else (false, m).

Definition scif_rcv_chr p_siopcb m : Z * M :=
  let '(ready, m) := scif_getready p_siopcb m in
  if ready then
    match scif_getchar p_siopcb m with
    | (Some rxdata, m) => (rxdata, m)
    | (None, m) => (-1, m)
    end
  else (-1, m).

Definition scif_ena_cbr p_siopcb (cbrtn : Z) m : M :=
  if cbrtn =? SIO_RDY_SND then scif_enable_send p_siopcb m
  else if cbrtn =? SIO_RDY_RCV then scif_enable_rcv p_siopcb m
  else m.

Definition scif_dis_cbr p_siopcb (cbrtn : Z) m : M :=
  if cbrtn =? SIO_RDY_SND then scif_disable_send p_siopcb m
  else if cbrtn =? SIO_RDY_RCV then scif_disable_rcv p_siopcb m
  else m.

(** ** The interface of the device driver *)

(** The port's control block, which [scif_initialize] has given its
    [p_siopinib], and the registers. *)
Record CHIP_of (inib : SIOPINIB) := mkCHIP { blk : SIOPCB; regs : M }.
Arguments mkCHIP {inib}. Arguments blk {inib}. Arguments regs {inib}.
#[export] Instance eta_CHIP_of inib : Eta (CHIP_of inib) := fun r => mkCHIP (blk r) (regs r).

Section chip.
Context (inib : SIOPINIB).
Notation CHIP := (CHIP_of inib).

Definition cb (d : CHIP) : SIOPCB := (blk d) <| p_siopinib := inib |>.

(** A port is opened after [scif_init] was called for the banner, or with a
    device that stops delivering characters within [fuel] of them. *)
Definition chip_opn_por (fuel : nat) (d : CHIP) : CHIP :=
  match scif_opn_por fuel (exinf (cb d)) (cb d) (regs d) with Some (cb, m) => mkCHIP cb m | None => d end.

#[export] Instance scif_sio : SIO CHIP := {
  sio_opn_por := chip_opn_por 32;
  sio_cls_por d := d <| regs ::= scif_cls_por (cb d) |>;
  sio_snd_chr c d := let '(b, m) := scif_snd_chr (cb d) c (regs d) in (b, d <| regs := m |>);
  sio_rcv_chr d := let '(c, m) := scif_rcv_chr (cb d) (regs d) in (c, d <| regs := m |>);
  sio_ena_cbr x d := d <| regs ::= scif_ena_cbr (cb d) x |>;
  sio_dis_cbr x d := d <| regs ::= scif_dis_cbr (cb d) x |> }.

(** *** The interrupt service routines, with the callbacks of serial.c *)
Section isr.
Context {S : Type} `{SEM S}.

Definition scif_tx_isr (ps : SPCB CHIP * S) : SPCB CHIP * S :=
  let '(p, s) := ps in
  let '(ready, m) := scif_putready (cb (p_siopcb p)) (regs (p_siopcb p)) in
  let p := p <| p_siopcb ::= fun d => d <| regs := m |> |> in
  if ready then sio_irdy_snd (p, s) else (p, s).

(** [while (scif_getready(...)) scif_irdy_rcv(...)] *)
Fixpoint scif_rx_isr (fuel : nat) (ps : SPCB CHIP * S) : option (SPCB CHIP * S) :=
  match fuel with
  | O => None
  | Datatypes.S fuel =>
      let '(p, s) := ps in
      let '(ready, m) := scif_getready (cb (p_siopcb p)) (regs (p_siopcb p)) in
      let p := p <| p_siopcb ::= fun d => d <| regs := m |> |> in
      if ready then scif_rx_isr fuel (sio_irdy_rcv (p, s)) else Some (p, s)
  end.
End isr.
End chip.
End scif.
Arguments mkCHIP {M inib}. Arguments blk {M inib}. Arguments regs {M inib}. Arguments cb {M inib}.
