(* ===== verification/ScifProof.v ===== *)
(** * Driver of the serial device: the proofs

    With the behaviour of the SCIF that its manual documents ([SCIFHW]), the
    functions of scif.c are a device driver as the serial interface driver needs
    it ([SIOLaws]), so that the theorems of SerialCorrect.v hold of the two
    together. *)

From S2P Require Import Prelude Data Bits Ring Syslog Serial SerialProof SerialSystem SerialCorrect Scif.
Open Scope Z_scope.

(** ** The hardware

    [tx] are the characters written to SCFTDR; [reg] what a 16-bit read of an
    address returns.  SCSCR keeps what is written to it; reading a register
    does not change TDFE; [hw_move] are the moves of the hardware. *)
Class SCIFHW (M : Type) `{REGS M} (b : Z) := {
  tx : M → list Z;
  reg : Z → M → Z;
  hw_event : Type;
  hw_move : hw_event → M → M;
  hw_range : ∀ a m, 0 ≤ reg a m < 2^16;
  hw_reh : ∀ a m, (sil_reh_mem a m).1 = reg a m ∧ tx (sil_reh_mem a m).2 = tx m ∧
    reg (b + REG_SCSCR) (sil_reh_mem a m).2 = reg (b + REG_SCSCR) m ∧
    bits (reg (b + REG_SCFSR) (sil_reh_mem a m).2) SCFSR_TDFE = bits (reg (b + REG_SCFSR) m) SCFSR_TDFE;
  hw_wrh : ∀ a v m, tx (sil_wrh_mem a v m) = tx m ∧
    (a ≠ b + REG_SCSCR → reg (b + REG_SCSCR) (sil_wrh_mem a v m) = reg (b + REG_SCSCR) m);
  hw_scscr : ∀ v m, 0 ≤ v < 2^16 → reg (b + REG_SCSCR) (sil_wrh_mem (b + REG_SCSCR) v m) = v;
  hw_reb : ∀ a m, tx (sil_reb_mem a m).2 = tx m ∧ reg (b + REG_SCSCR) (sil_reb_mem a m).2 = reg (b + REG_SCSCR) m;
  hw_wrb : ∀ a v m, tx (sil_wrb_mem a v m) = (if a =? b + REG_SCFTDR then tx m ++ [v] else tx m) ∧
    reg (b + REG_SCSCR) (sil_wrb_mem a v m) = reg (b + REG_SCSCR) m;
  hw_move_law : ∀ e m, tx (hw_move e m) = tx m ∧ reg (b + REG_SCSCR) (hw_move e m) = reg (b + REG_SCSCR) m }.

Section scif.
Context {M : Type} {HR : REGS M} (inib : SIOPINIB) `{!SCIFHW M (port inib)}.
Implicit Types (m : M) (d : @CHIP_of M inib).

Definition scscr m : Z := reg (port inib + REG_SCSCR) m.
Definition tdfe m : bool := bits (reg (port inib + REG_SCFSR) m) SCFSR_TDFE.

(** An access that neither sends a character nor touches SCSCR. *)
Definition quiet m m' : Prop := tx m' = tx m ∧ scscr m' = scscr m.

Lemma quiet_refl m : quiet m m.
Proof. done. Qed.
Lemma quiet_trans m1 m2 m3 : quiet m1 m2 → quiet m2 m3 → quiet m1 m3.
Proof. unfold quiet. intros [-> ->] [-> ->]. done. Qed.

Lemma quiet_reh a m : quiet m (sil_reh_mem a m).2.
Proof. destruct (hw_reh a m) as (_ & H1 & H2 & _). by split. Qed.
Lemma quiet_reb a m : quiet m (sil_reb_mem a m).2.
Proof. destruct (hw_reb a m). by split. Qed.
Lemma quiet_wrh a v m : a ≠ port inib + REG_SCSCR → quiet m (sil_wrh_mem a v m).
Proof. intros Ha. destruct (hw_wrh a v m). split; [done|]. auto. Qed.

Lemma status_ok cb m : base cb = port inib → quiet m (scif_status cb m).2.
Proof.
  intros Hb. unfold scif_status. rewrite Hb. pose proof (quiet_reh (port inib + REG_SCFSR) m) as Q1.
  destruct (sil_reh_mem (port inib + REG_SCFSR) m) as [f m1]. simpl in Q1.
  pose proof (quiet_reh (port inib + REG_SCLSR) m1) as Q2. destruct (sil_reh_mem (port inib + REG_SCLSR) m1) as [l m2]. simpl in Q2.
  assert (Q3 : ∀ v, quiet m2 (sil_wrh_mem (port inib + REG_SCFSR) v m2)) by (intros v; apply quiet_wrh; unfold REG_SCFSR, REG_SCSCR; lia).
  assert (Q4 : ∀ v m, quiet m (sil_wrh_mem (port inib + REG_SCLSR) v m)) by (intros v m'; apply quiet_wrh; unfold REG_SCLSR, REG_SCSCR; lia).
  destruct (bits f _); destruct (bits l _); simpl; eauto using quiet_trans.
Qed.

Lemma getready_ok cb m : base cb = port inib → quiet m (scif_getready cb m).2.
Proof. intros Hb. unfold scif_getready. pose proof (status_ok cb m Hb). by destruct (scif_status cb m). Qed.

Lemma getchar_ok cb m : base cb = port inib → quiet m (scif_getchar cb m).2.
Proof.
  intros Hb. unfold scif_getchar. pose proof (status_ok cb m Hb) as Q1. destruct (scif_status cb m) as [f m1]. simpl in Q1.
  destruct (bits f _); [|done]. pose proof (quiet_reb (base cb + REG_SCFRDR) m1) as Q2.
  destruct (sil_reb_mem (base cb + REG_SCFRDR) m1) as [c m2]. simpl in *. eapply quiet_trans; [done|].
  eapply quiet_trans; [done|]. apply quiet_wrh. rewrite Hb. unfold REG_SCFSR, REG_SCSCR. lia.
Qed.

Lemma rcv_chr_quiet cb m : base cb = port inib → quiet m (scif_rcv_chr cb m).2.
Proof.
  intros Hb. unfold scif_rcv_chr. pose proof (getready_ok cb m Hb) as Q1. destruct (scif_getready cb m) as [b m1]. simpl in Q1.
  destruct b; [|done]. pose proof (getchar_ok cb m1 Hb) as Q2. destruct (scif_getchar cb m1) as [[c|] m2]; simpl in *; by eapply quiet_trans.
Qed.

(** A character is sent when the transmit FIFO has room, and only then. *)
Lemma snd_chr_scif cb c m : base cb = port inib →
  (scif_snd_chr cb c m).1 = tdfe m ∧ tx (scif_snd_chr cb c m).2 = tx m ++ (if tdfe m then [c] else []) ∧
  scscr (scif_snd_chr cb c m).2 = scscr m.
Proof.
  intros Hb. unfold scif_snd_chr, scif_putready. rewrite Hb. destruct (hw_reh (port inib + REG_SCFSR) m) as (H1 & _).
  pose proof (quiet_reh (port inib + REG_SCFSR) m) as [Q1 Q2]. destruct (sil_reh_mem (port inib + REG_SCFSR) m) as [f m1]. simpl in *.
  subst f. change (bits (reg _ m) SCFSR_TDFE) with (tdfe m). destruct (tdfe m); simpl; [|by rewrite app_nil_r].
  unfold scif_putchar. rewrite Hb. destruct (quiet_wrh (port inib + REG_SCFSR) (u16 (Z.lnot (Z.lor SCFSR_TEND SCFSR_TDFE)))
    (sil_wrb_mem (port inib + REG_SCFTDR) c m1)) as [-> ->]; [unfold REG_SCFSR, REG_SCSCR; lia|].
  destruct (hw_wrb (port inib + REG_SCFTDR) c m1) as [E1 E2]. rewrite Z.eqb_refl in E1. unfold scscr. rewrite E1, E2, Q1.
  split_and!; [done|done|exact Q2].
Qed.

(** The callbacks are the bits of SCSCR. *)
Definition scif_cbr (r : Z) d : bool :=
  if r =? SIO_RDY_SND then bits (scscr (regs d)) SCSCR_TIE
  else if r =? SIO_RDY_RCV then bits (scscr (regs d)) SCSCR_RIE else false.

Lemma scscr_set_ok cb k m : base cb = port inib → 0 ≤ k < 16 →
  tx (scscr_set cb (2^k) m) = tx m ∧ scscr (scscr_set cb (2^k) m) = Z.lor (scscr m) (2^k).
Proof.
  intros Hb Hk. unfold scscr_set. rewrite Hb. destruct (hw_reh (port inib + REG_SCSCR) m) as (H1 & H2 & _).
  destruct (sil_reh_mem (port inib + REG_SCSCR) m) as [v m1]. simpl in *. subst v.
  split; [by rewrite (proj1 (hw_wrh _ _ _))|]. unfold scscr. rewrite hw_scscr; [done|]. apply lor_range; [done|apply hw_range|].
  split; [apply Z.pow_nonneg; lia|apply Z.pow_lt_mono_r; lia].
Qed.

Lemma scscr_clear_ok cb k m : base cb = port inib → 0 ≤ k < 16 →
  tx (scscr_clear cb (2^k) m) = tx m ∧ scscr (scscr_clear cb (2^k) m) = Z.land (scscr m) (Z.lnot (2^k)).
Proof.
  intros Hb Hk. unfold scscr_clear. rewrite Hb. destruct (hw_reh (port inib + REG_SCSCR) m) as (H1 & H2 & _).
  destruct (sil_reh_mem (port inib + REG_SCSCR) m) as [v m1]. simpl in *. subst v.
  split; [by rewrite (proj1 (hw_wrh _ _ _))|]. unfold scscr. rewrite hw_scscr; [done|]. apply land_range; [done|apply hw_range].
Qed.

(** Opening sends nothing. *)
Lemma discard_input_tx fuel : ∀ m m', discard_input fuel inib m = Some m' → tx m' = tx m.
Proof.
  induction fuel as [|fuel IH]; intros m m'; [done|]. simpl. destruct (quiet_reh (port inib + REG_SCFSR) m) as [Q1 _].
  destruct (sil_reh_mem (port inib + REG_SCFSR) m) as [f m1]. simpl in Q1. destruct (bits f _); [|by intros [= <-]].
  destruct (quiet_reb (port inib + REG_SCFRDR) m1) as [Q2 _]. destruct (sil_reb_mem (port inib + REG_SCFRDR) m1) as [c m2].
  simpl in Q2. intros H'. apply IH in H'. by rewrite H', (proj1 (hw_wrh _ _ _)), Q2.
Qed.

Lemma init_tx fuel m x m' : scif_init_siopinib fuel inib m = Some (x, m') → tx m' = tx m.
Proof.
  unfold scif_init_siopinib. destruct (bps_divisor inib) as [v|]; [|done]. simpl. destruct (255 <? v); [by intros [= _ <-]|].
  destruct (discard_input fuel inib _) as [m1|] eqn:E; [|done]. simpl. intros [= _ <-].
  apply discard_input_tx in E. rewrite (proj1 (hw_wrh _ _ _)), E, !(proj1 (hw_wrh _ _ _)).
  assert (Hw : ∀ m, tx (sil_wrb_mem (port inib + REG_SCBRR) v m) = tx m).
  { intros m2. rewrite (proj1 (hw_wrb _ _ _)). by rewrite (proj2 (Z.eqb_neq _ _)) by (unfold REG_SCBRR, REG_SCFTDR; lia). }
  rewrite Hw, !(proj1 (hw_wrh _ _ _)), (proj1 (quiet_reh _ _)), (proj1 (quiet_reh _ _)), !(proj1 (hw_wrh _ _ _)). done.
Qed.

Lemma opn_por_tx fuel x cb m cb' m' : p_siopinib cb = inib → scif_opn_por fuel x cb m = Some (cb', m') → tx m' = tx m.
Proof.
  intros Hb. unfold scif_opn_por, scif_init. rewrite Hb. destruct (is_initialized cb); simpl; [by intros [= _ <-]|].
  destruct (scif_init_siopinib fuel inib m) as [[v m1]|] eqn:E; [|done]. simpl. intros [= _ <-]. by eapply init_tx.
Qed.

(** *** The laws *)

Implicit Types (c x r : Z).

Lemma base_cb d : base (cb d) = port inib.
Proof. done. Qed.

Lemma tie_bit : SCSCR_TIE = 2^7.
Proof. done. Qed.
Lemma rie_bit : SCSCR_RIE = 2^6.
Proof. done. Qed.

Lemma cbr_eq d d' : scscr (regs d') = scscr (regs d) → ∀ r, scif_cbr r d' = scif_cbr r d.
Proof. unfold scif_cbr. by intros ->. Qed.

Lemma scif_snd_law c d : (sio_snd_chr c d).1 = tdfe (regs d) ∧
  tx (regs (sio_snd_chr c d).2) = tx (regs d) ++ (if tdfe (regs d) then [c] else []) ∧
  ∀ r, scif_cbr r (sio_snd_chr c d).2 = scif_cbr r d.
Proof.
  destruct (snd_chr_scif (cb d) c (regs d) (base_cb d)) as (H1 & H2 & H3). simpl.
  destruct (scif_snd_chr (cb d) c (regs d)) as [b m]. simpl in *. split_and!; [done|done|by apply cbr_eq].
Qed.

Lemma scif_rcv_law d : tx (regs (sio_rcv_chr d).2) = tx (regs d) ∧ ∀ r, scif_cbr r (sio_rcv_chr d).2 = scif_cbr r d.
Proof.
  destruct (rcv_chr_quiet (cb d) (regs d) (base_cb d)) as [H1 H2]. simpl.
  destruct (scif_rcv_chr (cb d) (regs d)) as [c m]. simpl in *. split; [done|by apply cbr_eq].
Qed.

Lemma scif_ena_law x d : x = SIO_RDY_SND ∨ x = SIO_RDY_RCV →
  tx (regs (sio_ena_cbr x d)) = tx (regs d) ∧ ∀ r, scif_cbr r (sio_ena_cbr x d) = (r =? x) || scif_cbr r d.
Proof.
  intros Hx. unfold scif_cbr. simpl. unfold scif_ena_cbr.
  destruct Hx as [-> | ->]; simpl; unfold scif_enable_send, scif_enable_rcv; rewrite ?tie_bit, ?rie_bit.
  - destruct (scscr_set_ok (cb d) 7 (regs d) (base_cb d)) as [H1 H2]; [lia|]. split; [done|]. intros r. rewrite H2, !bits_lor by done.
    unfold SIO_RDY_SND, SIO_RDY_RCV. destruct (Z.eqb_spec r 1), (Z.eqb_spec r 2); subst; done.
  - destruct (scscr_set_ok (cb d) 6 (regs d) (base_cb d)) as [H1 H2]; [lia|]. split; [done|]. intros r. rewrite H2, !bits_lor by done.
    unfold SIO_RDY_SND, SIO_RDY_RCV. destruct (Z.eqb_spec r 1), (Z.eqb_spec r 2); subst; done.
Qed.

Lemma scif_dis_law x d : x = SIO_RDY_SND ∨ x = SIO_RDY_RCV →
  tx (regs (sio_dis_cbr x d)) = tx (regs d) ∧ ∀ r, scif_cbr r (sio_dis_cbr x d) = negb (r =? x) && scif_cbr r d.
Proof.
  intros Hx. unfold scif_cbr. simpl. unfold scif_dis_cbr.
  destruct Hx as [-> | ->]; simpl; unfold scif_disable_send, scif_disable_rcv; rewrite ?tie_bit, ?rie_bit.
  - destruct (scscr_clear_ok (cb d) 7 (regs d) (base_cb d)) as [H1 H2]; [lia|]. split; [done|]. intros r. rewrite H2, !bits_clear by done.
    unfold SIO_RDY_SND, SIO_RDY_RCV. destruct (Z.eqb_spec r 1), (Z.eqb_spec r 2); subst; done.
  - destruct (scscr_clear_ok (cb d) 6 (regs d) (base_cb d)) as [H1 H2]; [lia|]. split; [done|]. intros r. rewrite H2, !bits_clear by done.
    unfold SIO_RDY_SND, SIO_RDY_RCV. destruct (Z.eqb_spec r 1), (Z.eqb_spec r 2); subst; done.
Qed.

Lemma scif_opn_law d : tx (regs (sio_opn_por d)) = tx (regs d).
Proof.
  simpl. unfold chip_opn_por. destruct (scif_opn_por 32 _ (cb d) (regs d)) as [[cb' m']|] eqn:E; [|done].
  by apply opn_por_tx in E.
Qed.
End scif.

(** ** The serial interface driver on the SCIF *)

#[export] Instance scif_laws {M : Type} {HR : REGS M} (inib : SIOPINIB) (HW : SCIFHW M (port inib)) :
  @SIOLaws (@CHIP_of M inib) (scif_sio inib).
Proof.
  refine (@Build_SIOLaws _ (scif_sio inib) (fun d => tx (regs d)) (scif_cbr inib) (fun d => tdfe inib (regs d))
    (fun d => (scif_getready (cb d) (regs d)).1) hw_event (fun e d => d <| regs ::= hw_move e |>) _ _ _ _ _ _).
  - apply scif_snd_law.
  - apply scif_rcv_law.
  - apply scif_ena_law.
  - apply scif_dis_law.
  - apply scif_opn_law.
  - intros e d. destruct (hw_move_law e (regs d)) as [H1 H2]. split; [done|]. by apply cbr_eq.
Defined.

Section scif_serial.
Context {M : Type} {HR : REGS M} (inib : SIOPINIB) {HW : SCIFHW M (port inib)} (TNUM_PORT portid : Z).

(** C17: The serial interface driver on top of scif.c, the hardware behaving as
    documented: the characters written to the transmit FIFO since the port was
    opened are, characters of the flow control left out, the characters the
    tasks have written, in order, up to those still in the transmit buffer.
    Nothing is lost or doubled between the two drivers, and the FIFO is written
    to only when it has room. *)
Theorem scif_port_output (p : SPCB (@CHIP_of M inib)) l w : sizes_ok p → reached TNUM_PORT portid p l w →
  (∃ out x, tx (regs (p_siopcb (w_port w))) = tx (regs (p_siopcb p)) ++ out ∧ mixed x out ∧
    w_put w = x ++ snd_contents (w_port w)) ∧
  ∀ (d : @CHIP_of M inib) c, (scif_snd_chr (cb d) c (regs d)).1 = tdfe inib (regs d) ∧
    tx (scif_snd_chr (cb d) c (regs d)).2 = tx (regs d) ++ (if tdfe inib (regs d) then [c] else []).
Proof.
  intros Hsz Hw. split.
  - destruct (reached_inv TNUM_PORT portid p l w Hsz Hw) as (p0 & (owner & HI) & Hl & Hs & _).
    destruct (mv_snd _ _ _ _ _ (iv_port _ _ _ _ HI)) as (out & x & H1 & H2 & H3). exists out, x.
    unfold line in H1, Hl. simpl in H1, Hl. rewrite H1, Hl. by rewrite Hs in H3.
  - intros d c. destruct (snd_chr_scif inib (cb d) c (regs d) (base_cb inib d)) as (H1 & H2 & _). done.
Qed.

(** Closing a port leaves the device running: [scif_cls_por] adds the offset
    of SCSCR to a pointer to 16-bit registers, which is the address of SCFSR.
    SCSCR keeps its value and both interrupts their state; the status flags are
    cleared instead. *)
Theorem scif_cls_por_status (d : @CHIP_of M inib) :
  scif_cls_por (cb d) (regs d) = sil_wrh_mem (port inib + REG_SCFSR) 0 (regs d) ∧
  scscr inib (regs (sio_cls_por d)) = scscr inib (regs d) ∧ ∀ r, scif_cbr inib r (sio_cls_por d) = scif_cbr inib r d.
Proof.
  assert (Hq : scscr inib (regs (sio_cls_por d)) = scscr inib (regs d)).
  { apply (quiet_wrh inib). rewrite base_cb. unfold REG_SCSCR. lia. }
  split_and!; [done|done|by apply cbr_eq].
Qed.
End scif_serial.

(** ** Witness: registers that keep what is written *)
Module ScifExample.
Record HW := mkHW { h_reg : Z → Z; h_tx : list Z }.
#[export] Instance eta_HW : Eta HW := fun r => mkHW (h_reg r) (h_tx r).

Definition inib : SIOPINIB := mkSIOPINIB 0xE8007000 115200.
Definition FSR : Z := port inib + REG_SCFSR.

(** Writing 0 to a status flag clears it, writing 1 leaves it. *)
#[export] Instance hw_regs : REGS HW := {
  sil_reh_mem a m := (u16 (h_reg m a), m);
  sil_wrh_mem a v m := m <| h_reg ::= fun f => <[a := if a =? FSR then Z.land (f FSR) v else v]> f |>;
  sil_reb_mem a m := (0, m);
  sil_wrb_mem a v m := m <| h_tx ::= fun l => if a =? port inib + REG_SCFTDR then l ++ [v] else l |> }.

(** The FIFO gets room. *)
Definition room (_ : unit) (m : HW) : HW := m <| h_reg ::= fun f => <[FSR := SCFSR_TDFE]> f |>.

#[export] Instance hw_laws : SCIFHW HW (port inib).
Proof.
  refine (@Build_SCIFHW _ hw_regs (port inib) h_tx (fun a m => u16 (h_reg m a)) unit room _ _ _ _ _ _ _).
  - intros a m. by apply Z.mod_pos_bound.
  - done.
  - intros a v m. split; [done|]. intros Ha. simpl. by rewrite fn_lookup_insert_ne.
  - intros v m Hv. simpl. rewrite fn_lookup_insert. unfold u16. by rewrite Z.mod_small.
  - done.
  - intros a v m. done.
  - done.
Defined.

(** The banner has initialized the device; one character fits the FIFO. *)
Definition chip : @CHIP_of HW inib :=
  mkCHIP (mkSIOPCB inib 0 false false false false true) (mkHW (fun a => if a =? FSR then SCFSR_TDFE else 0) []).
Definition scif_port : SPCB (@CHIP_of HW inib) :=
  mkSPCB 4 (fun _ => 0) 4 (fun _ => 0) chip false false 0 0 0 0 0 false 0 0 0 false.

(** A task writes two characters; the second goes out with an interrupt. *)
Definition write2 : list (@event (@CHIP_of HW inib) _ _) :=
  E_call 0 (c_wri_dat [65; 66]) :: replicate 7 (E_run 0 0) ++ [E_dev tt; E_irq_snd].

Lemma scif_port_output_witness : ∃ w, reached 1 1 scif_port write2 w ∧
  tx (regs (p_siopcb (w_port w))) = [65; 66] ∧ ∃ x, mixed x [65; 66] ∧ w_put w = x ++ snd_contents (w_port w).
Proof.
  destruct (ends_reached 1 1 scif_port write2 (fun w => bool_decide (h_tx (regs (p_siopcb (w_port w))) = [65; 66])))
    as (w & Hw & HP); [vm_compute; reflexivity|].
  apply bool_decide_eq_true in HP.
  destruct (scif_port_output inib 1 1 scif_port write2 w) as [(out & x & H1 & H2 & H3) _]; [split; simpl; lia|exact Hw|].
  assert (Htx : tx (regs (p_siopcb (w_port w))) = [65; 66]) by exact HP.
  exists w. split; [exact Hw|]. split; [exact Htx|]. exists x. rewrite Htx in H1. simpl in H1. subst out. split; assumption.
Defined.
End ScifExample.
