(* ===== verification/Gic.v ===== *)
(** * Interrupt controller (arch/arm_gcc/rza1/gic.c, gic.h, chip_config.c,
    chip_config.h)

    The driver of the interrupt controller of the RZ/A1H, the interrupt masks
    and the attributes of interrupt lines, and [initialize_interrupt] of the
    kernel.  The 32-bit registers are reached through [sil_rew_mem] and
    [sil_wrw_mem], which are the class [GICREGS]: what a read returns and what
    an access does is up to the hardware.  The driver takes an interrupt number
    as [uint8_t], the kernel as [unsigned int]: the conversions at the calls
    are [u8]. *)

From S2P Require Import Prelude Data Bits.
Open Scope Z_scope.

Class GICREGS (M : Type) := {
  sil_rew_mem : Z → M → Z * M;
  sil_wrw_mem : Z → Z → M → M }.

(** ** Constants *)

Definition GIC_PRI_LEVEL := 32.
Definition GICC_PMR_OFFSET := 0x03.
Definition GICC_PMR_MASK := 0x1f.
Definition GICC_CTLR_ENABLEGRP0 := 0x01.
Definition GICC_CTLR_ENABLEGRP1 := 0x02.
Definition GICD_CTLR_ENABLE := 0x01.
Definition GIC_MIN_PRIORITY := GICC_PMR_MASK.
Definition GICD_ICFGRn_EDGE := 0x02.
Definition GICD_ICFGRn_LEVEL := 0x00.
Definition GICD_ICFGRn_N_N := 0x00.
Definition GICD_ICFGRn_1_N := 0x01.

(** RZ/A1H. *)
Definition GIC_TMIN_INTNO := 0.
Definition GIC_TMAX_INTNO := 586.
Definition GIC_TNUM_INT := 587.

Definition ASP_GICD_BASE := 0xE8201000.
Definition ASP_GICD_ICDDCR := ASP_GICD_BASE.
Definition ASP_GICD_ICDISER := ASP_GICD_BASE + 0x100.
Definition ASP_GICD_ICDICER := ASP_GICD_BASE + 0x180.
Definition ASP_GICD_ICDISPR := ASP_GICD_BASE + 0x200.
Definition ASP_GICD_ICDICPR := ASP_GICD_BASE + 0x280.
Definition ASP_GICD_ICDIPR := ASP_GICD_BASE + 0x400.
Definition ASP_GICD_ICDIPTR := ASP_GICD_BASE + 0x800.
Definition ASP_GICD_ICDICFR := ASP_GICD_BASE + 0xC00.
Definition ASP_GICD_ICDSGIR := ASP_GICD_BASE + 0xF00.

Definition ASP_NUM_ICDICER_ENTRY := (GIC_TNUM_INT + 31) / 32.
Definition ASP_NUM_ICDICPR_ENTRY := (GIC_TNUM_INT + 31) / 32.
Definition ASP_NUM_ICDIPR_ENTRY := (GIC_TNUM_INT + 3) / 4.
Definition ASP_NUM_ICDIPTR_ENTRY := (GIC_TNUM_INT + 3) / 4.
Definition ASP_NUM_ICDICFR_ENTRY := (GIC_TNUM_INT + 15) / 16.

Definition ASP_GICC_BASE := 0xE8202000.
Definition ASP_GICC_ICCICR := ASP_GICC_BASE.
Definition ASP_GICC_ICCPMR := ASP_GICC_BASE + 0x004.
Definition ASP_GICC_ICCBPR := ASP_GICC_BASE + 0x008.
Definition ASP_GICC_ICCIAR := ASP_GICC_BASE + 0x00C.
Definition ASP_GICC_ICCEOIR := ASP_GICC_BASE + 0x010.

Definition intc_icdicfrn_table : list Z :=
  [ 0xAAAAAAAA; 0x00000055; 0xFFFD5555; 0x555FFFFF; 0x55555555; 0x55555555; 0x55555555; 0x55555555;
    0x5555F555; 0x55555555; 0x55555555; 0xF5555555; 0xF555F555; 0x5555F555; 0x55555555; 0x55555555;
    0x55555555; 0xFD555555; 0x55555557; 0x55555555; 0x55555555; 0x5F555555; 0xFD55555F; 0x55555557;
    0x55555555; 0x55555555; 0x55555555; 0x55555555; 0x55555555; 0x55555555; 0x55555555; 0x55555555;
    0x55555555; 0x55555555; 0x55555555; 0x55555555; 0x00155555 ].

(** Attributes of interrupt lines (include/kernel.h). *)
Definition TA_ENAINT := 0x01.
Definition TA_EDGE := 0x02.

Definition RZA1_TMIN_INTPRI := - (GIC_PRI_LEVEL - 1).
Definition RZA1_TMAX_INTPRI := -1.

Record INHINIB := mkINHINIB { inhno : Z; inhatr : Z; int_entry : Z }.
Record INTINIB := mkINTINIB { intno : Z; intatr : Z; intpri : Z }.

(** ** The driver *)

Section gic.
Context {M : Type} `{GICREGS M}.
Implicit Types (m : M) (id : Z).

Definition gicc_set_priority (pri : Z) m : M := sil_wrw_mem ASP_GICC_ICCPMR (u32 (Z.shiftl pri GICC_PMR_OFFSET)) m.

Definition gicc_current_priority m : Z * M :=
  let '(pmr, m) := sil_rew_mem ASP_GICC_ICCPMR m in (Z.shiftr pmr GICC_PMR_OFFSET, m).

Definition gicc_set_bp (mask_bit : Z) m : M := sil_wrw_mem ASP_GICC_ICCBPR (u32 mask_bit) m.

Definition gicc_init m : M :=
  let m := sil_wrw_mem ASP_GICC_ICCICR 0 m in
  let m := gicc_set_priority GIC_MIN_PRIORITY m in
  let m := gicc_set_bp 0 m in
  let '(ack, m) := sil_rew_mem ASP_GICC_ICCIAR m in
  let m := sil_wrw_mem ASP_GICC_ICCEOIR ack m in
  sil_wrw_mem ASP_GICC_ICCICR (Z.lor GICC_CTLR_ENABLEGRP1 GICC_CTLR_ENABLEGRP0) m.

Definition gicc_stop m : M := sil_wrw_mem ASP_GICC_ICCICR 0 m.

(** [offset_addr] and [1 << offset_bit] of the registers with a bit for each
    interrupt. *)
Definition id_addr id : Z := u16 (id / 32 * 4).
Definition id_bit id : Z := u32 (Z.shiftl 1 (id `mod` 32)).

Definition gicd_disable_int id m : M := sil_wrw_mem (ASP_GICD_ICDICER + id_addr id) (id_bit id) m.
Definition gicd_enable_int id m : M := sil_wrw_mem (ASP_GICD_ICDISER + id_addr id) (id_bit id) m.
Definition gicd_clear_pending id m : M := sil_wrw_mem (ASP_GICD_ICDICPR + id_addr id) (id_bit id) m.
Definition gicd_set_pending id m : M := sil_wrw_mem (ASP_GICD_ICDISPR + id_addr id) (id_bit id) m.

Definition gicd_probe_int id m : bool * M :=
  let '(state, m) := sil_rew_mem (ASP_GICD_ICDISPR + id_addr id) m in
  (Z.land state (id_bit id) =? id_bit id, m).

Definition gicd_config id (is_edge is_1_n : bool) m : M :=
  if id <? 416 then m
  else
    let config := if is_edge then GICD_ICFGRn_EDGE else GICD_ICFGRn_LEVEL in
    let config := if is_1_n then Z.lor config GICD_ICFGRn_1_N else Z.lor config GICD_ICFGRn_N_N in
    let offset_addr := u16 (id / 16 * 4) in
    let offset_bit := u16 (id `mod` 16 * 2) in
    let '(cfgr_reg_val, m) := sil_rew_mem (ASP_GICD_ICDICFR + offset_addr) m in
    let cfgr_reg_val := Z.land cfgr_reg_val (u32 (Z.lnot (Z.shiftl 0x03 offset_bit))) in
    let cfgr_reg_val := Z.lor cfgr_reg_val (u32 (Z.shiftl (Z.land 0x03 config) offset_bit)) in
    sil_wrw_mem (ASP_GICD_ICDICFR + offset_addr) cfgr_reg_val m.

Definition gicd_set_priority id (pri : Z) m : M :=
  let offset_addr := u16 (id / 4 * 4) in
  let offset_bit := u16 (id `mod` 4 * 8 + GICC_PMR_OFFSET) in
  let '(pr_reg_val, m) := sil_rew_mem (ASP_GICD_ICDIPR + offset_addr) m in
  let pr_reg_val := Z.land pr_reg_val (u32 (Z.lnot (Z.shiftl GICC_PMR_MASK offset_bit))) in
  let pr_reg_val := Z.lor pr_reg_val (u32 (Z.shiftl (Z.land GICC_PMR_MASK pri) offset_bit)) in
  sil_wrw_mem (ASP_GICD_ICDIPR + offset_addr) pr_reg_val m.

Definition gicd_set_target id (cpus : Z) m : M :=
  let offset_addr := u32 (id / 4 * 4) in
  let offset_bit := u32 (id `mod` 4 * 8) in
  let '(itr_reg_val, m) := sil_rew_mem (ASP_GICD_ICDIPTR + offset_addr) m in
  let itr_reg_val := Z.land itr_reg_val (u32 (Z.lnot (Z.shiftl 0xf offset_bit))) in
  let itr_reg_val := Z.lor itr_reg_val (u32 (Z.shiftl cpus offset_bit)) in
  sil_wrw_mem (ASP_GICD_ICDIPTR + offset_addr) itr_reg_val m.

(** [for (i = lo; i < hi; i++) sil_wrw_mem(base + 4 * i, val(i))]. *)
Definition wrw_loop (base : Z) (val : Z → Z) (lo hi : Z) m : M :=
  foldl (fun m i => sil_wrw_mem (base + 4 * i) (val i) m) m (seqZ lo (hi - lo)).

Definition gicd_init m : M :=
  let m := sil_wrw_mem ASP_GICD_ICDDCR 0 m in
  let m := wrw_loop ASP_GICD_ICDICFR (fun i => nth (Z.to_nat i) intc_icdicfrn_table 0) 0 ASP_NUM_ICDICFR_ENTRY m in
  let m := wrw_loop ASP_GICD_ICDIPR (fun _ => 0xffffffff) 0 ASP_NUM_ICDIPR_ENTRY m in
  let m := wrw_loop ASP_GICD_ICDIPTR (fun _ => 0x01010101) ASP_NUM_ICDIPTR_ENTRY (GIC_TNUM_INT / 4) m in
  let m := wrw_loop ASP_GICD_ICDICER (fun _ => 0xffffffff) 0 ASP_NUM_ICDICER_ENTRY m in
  let m := wrw_loop ASP_GICD_ICDICPR (fun _ => 0xffffffff) 0 ASP_NUM_ICDICPR_ENTRY m in
  sil_wrw_mem ASP_GICD_ICDDCR GICD_CTLR_ENABLE m.

Definition gicd_stop m : M := sil_wrw_mem ASP_GICD_ICDDCR 0 m.

Definition gic_raise_sgi (cpu id : Z) m : M := sil_wrw_mem ASP_GICD_ICDSGIR (u32 (Z.lor (Z.shiftl cpu 16) id)) m.

(** ** Interrupt masks and interrupt lines *)

Definition EXT_IPM (iipm : Z) : Z := iipm - GICC_PMR_MASK.
Definition INT_IPM (ipm : Z) : Z := u8 (ipm + GICC_PMR_MASK).

Definition current_iipm m : Z * M := let '(iipm, m) := gicc_current_priority m in (u8 iipm, m).
Definition set_iipm (iipm : Z) m : M := gicc_set_priority iipm m.
Definition x_set_ipm (ipm : Z) m : M := set_iipm (INT_IPM ipm) m.
Definition x_get_ipm m : Z * M := let '(iipm, m) := current_iipm m in (EXT_IPM iipm, m).

Definition VALID_INTNO (intno : Z) : bool := (GIC_TMIN_INTNO <=? intno) && (intno <=? GIC_TMAX_INTNO).

Section lines.
(** [cfgint_tbl], which the configurator generates. *)
Context (cfgint : Z → bool).

Definition x_disable_int (intno : Z) m : bool * M :=
  if negb (cfgint intno) then (false, m) else (true, gicd_disable_int (u8 intno) m).

Definition x_enable_int (intno : Z) m : bool * M :=
  if negb (cfgint intno) then (false, m) else (true, gicd_enable_int (u8 intno) m).

Definition x_clear_int (intno : Z) m : M := gicd_clear_pending (u8 intno) m.
Definition x_probe_int (intno : Z) m : bool * M := gicd_probe_int (u8 intno) m.

(** [None]: an assertion fails. *)
Definition x_config_int (intno intatr intpri : Z) m : option M :=
  if negb (VALID_INTNO intno) then None
  else if negb ((RZA1_TMIN_INTPRI <=? intpri) && (intpri <=? RZA1_TMAX_INTPRI)) then None
  else
    let m := (x_disable_int intno m).2 in
    let m :=
      if bits intatr TA_EDGE then x_clear_int intno (gicd_config (u8 intno) true true m)
      else gicd_config (u8 intno) false true m in
    let m := gicd_set_priority (u8 intno) (INT_IPM intpri) m in
    let m := gicd_set_target (u8 intno) 1 m in
    Some (if bits intatr TA_ENAINT then (x_enable_int intno m).2 else m).

Definition x_define_inh (inhno int_entry : Z) m : option M :=
  if (GIC_TMIN_INTNO <=? inhno) && (inhno <=? GIC_TMAX_INTNO) then Some m else None.

(** The tables [inhinib_table] and [intinib_table], which the configurator
    generates. *)
Definition initialize_interrupt (inhinib_table : list INHINIB) (intinib_table : list INTINIB) m : option M :=
  m ← foldl (fun r p => m ← r; x_define_inh (inhno p) (int_entry p) m) (Some m) inhinib_table;
  foldl (fun r p => m ← r; x_config_int (intno p) (intatr p) (intpri p) m) (Some m) intinib_table.
End lines.
End gic.
