(* ===== verification/GicProof.v ===== *)
(** * Interrupt controller: the proofs

    With the behaviour of the controller that its architecture documents
    ([GICHW]), what the driver and the initialization of the interrupts do to
    each interrupt line, and that the interrupt masks which the kernel keeps
    in its state are those of the hardware. *)

From S2P Require Import Prelude Data Bits Gic.
Open Scope Z_scope.

(** ** The hardware

    Interrupt lines; the software generated interrupts 0 to 15 may not have
    an enable bit. *)
Definition line (i : Z) : Prop := 16 ≤ i < GIC_TNUM_INT.

Definition pri_addr (i : Z) : Z := ASP_GICD_ICDIPR + 4 * (i / 4).
Definition target_addr (i : Z) : Z := ASP_GICD_ICDIPTR + 4 * (i / 4).
Definition config_addr (i : Z) : Z := ASP_GICD_ICDICFR + 4 * (i / 16).

(** Registers that keep what is written to them ([impl]: the implemented
    bits), and those which also the driver only reads or initializes. *)
Definition plain (a : Z) : Prop :=
  a = ASP_GICC_ICCPMR ∨ ∃ i, 0 ≤ i < GIC_TNUM_INT ∧ (a = pri_addr i ∨ a = target_addr i).
Definition stored (a : Z) : Prop := plain a ∨ ∃ i, 0 ≤ i < GIC_TNUM_INT ∧ a = config_addr i.

(** Addresses as numbers. *)
Ltac addr := unfold line, pri_addr, target_addr, config_addr, id_addr, ASP_GICC_ICCPMR, ASP_GICC_BASE, ASP_GICD_ICDISER,
  ASP_GICD_ICDICER, ASP_GICD_ICDISPR, ASP_GICD_ICDICPR, ASP_GICD_ICDIPR, ASP_GICD_ICDIPTR, ASP_GICD_ICDICFR, ASP_GICD_BASE, GIC_TNUM_INT in *.

Class GICHW (M : Type) `{GICREGS M} := {
  enabled : M → Z → bool;
  pending : M → Z → bool;
  word : M → Z → Z;
  impl : Z → Z;
  hw_word : ∀ a m, plain a → 0 ≤ word m a < 2^32 ∧ Z.land (word m a) (impl a) = word m a;
  hw_rd_range : ∀ a m, 0 ≤ (sil_rew_mem a m).1 < 2^32;
  hw_rd : ∀ a m, stored a → (sil_rew_mem a m).1 = word m a;
  hw_rd_pending : ∀ i m, 0 ≤ i < GIC_TNUM_INT →
    Z.testbit (sil_rew_mem (ASP_GICD_ICDISPR + 4 * (i / 32)) m).1 (i `mod` 32) = pending m i;
  hw_rd_same : ∀ a m, (∀ i, line i → enabled (sil_rew_mem a m).2 i = enabled m i) ∧
    (∀ a', stored a' → word (sil_rew_mem a m).2 a' = word m a');
  hw_wr_enabled : ∀ a v m i, line i → 0 ≤ v < 2^32 →
    enabled (sil_wrw_mem a v m) i =
      if a =? ASP_GICD_ICDISER + 4 * (i / 32) then enabled m i || Z.testbit v (i `mod` 32)
      else if a =? ASP_GICD_ICDICER + 4 * (i / 32) then enabled m i && negb (Z.testbit v (i `mod` 32))
      else enabled m i;
  hw_wr_word : ∀ a v m, plain a → 0 ≤ v < 2^32 → word (sil_wrw_mem a v m) a = Z.land v (impl a);
  hw_wr_other : ∀ a v m a', stored a' → a ≠ a' → word (sil_wrw_mem a v m) a' = word m a';
  (* 32 priorities, in the upper bits of a byte *)
  hw_impl_pri : ∀ i, 0 ≤ i < GIC_TNUM_INT → field (8 * (i `mod` 4) + 3) 5 (impl (pri_addr i)) = 31;
  hw_impl_pmr : Z.shiftr (impl ASP_GICC_ICCPMR) 3 = 31 }.

Section gic.
Context {M : Type} `{HW : GICHW M}.
Implicit Types (m : M) (i id : Z).

(** ** What the registers say of a line *)

Definition pri m i : Z := field (8 * (i `mod` 4) + 3) 5 (word m (pri_addr i)).
Definition target m i : Z := field (8 * (i `mod` 4)) 4 (word m (target_addr i)).
Definition edge_bits m i : Z := field (2 * (i `mod` 16)) 2 (word m (config_addr i)).
Definition pmr m : Z := Z.shiftr (word m ASP_GICC_ICCPMR) 3.
(** The controller signals an interrupt to the processor. *)
Definition signals m i : bool := enabled m i && pending m i && (pri m i <? pmr m).

(** The registers of [m'] are those of [m] but for the address [a]. *)
Definition same_words (a : Z → Prop) m m' : Prop := ∀ a', stored a' → ¬ a a' → word m' a' = word m a'.
Definition same_enabled m m' : Prop := ∀ i, line i → enabled m' i = enabled m i.

Lemma addr_u16 id k : 0 ≤ id < 256 → 0 < k → u16 (id / k * 4) = 4 * (id / k).
Proof.
  intros Hid Hk. assert (0 ≤ id / k ≤ 255) by (split; [apply Z.div_pos; lia|apply Z.div_le_upper_bound; nia]).
  unfold u16. rewrite Z.mod_small; lia.
Qed.

Lemma id_bit_testbit id b : 0 ≤ id → 0 ≤ b < 32 → Z.testbit (id_bit id) b = (b =? id `mod` 32).
Proof.
  intros Hid Hb. pose proof (Z.mod_pos_bound id 32). unfold id_bit. rewrite testbit_u32 by lia.
  rewrite Z.shiftl_mul_pow2, Z.mul_1_l, Z.pow2_bits_eqb by lia.
  destruct (Z.ltb_spec b 32), (Z.eqb_spec (id `mod` 32) b), (Z.eqb_spec b (id `mod` 32)); lia || done.
Qed.

Lemma same_id i id : (4 * (i / 32) =? 4 * (id / 32)) && (i `mod` 32 =? id `mod` 32) = (i =? id).
Proof.
  destruct (Z.eqb_spec i id) as [->|Hne]; [by rewrite !Z.eqb_refl|].
  apply andb_false_iff. pose proof (Z.div_mod i 32). pose proof (Z.div_mod id 32).
  destruct (Z.eqb_spec (i `mod` 32) (id `mod` 32)); [left|by right]. apply Z.eqb_neq. intros ?. apply Hne. lia.
Qed.

(** *** Addresses *)

Lemma line_div i k : 0 ≤ i < GIC_TNUM_INT → 0 < k → 0 ≤ i / k ∧ k * (i / k) ≤ i.
Proof. intros Hi Hk. split; [apply Z.div_pos; lia|]. apply Z.mul_div_le. lia. Qed.

(** The registers with a bit for each interrupt are not among the stored
    ones. *)
Lemma stored_high a : stored a → a = ASP_GICC_ICCPMR ∨ ASP_GICD_ICDIPR ≤ a < ASP_GICD_ICDICFR + 4 * 38.
Proof.
  intros [[->|(i & Hi & [->| ->])]|(i & Hi & ->)]; [by left|right..].
  - destruct (line_div i 4 Hi); [lia|]. addr. lia.
  - destruct (line_div i 4 Hi); [lia|]. addr. lia.
  - destruct (line_div i 16 Hi); [lia|]. addr. lia.
Qed.

Lemma pri_stored i : 0 ≤ i < GIC_TNUM_INT → plain (pri_addr i).
Proof. intros Hi. right. eauto. Qed.
Lemma target_stored i : 0 ≤ i < GIC_TNUM_INT → plain (target_addr i).
Proof. intros Hi. right. eauto. Qed.
Lemma line_int i : line i → 0 ≤ i < GIC_TNUM_INT.
Proof. unfold line. lia. Qed.
Hint Resolve pri_stored target_stored line_int : gic.

(** *** The bits that enable an interrupt *)

Lemma wr_enabled_quiet a v m : ¬ ASP_GICD_ICDISER ≤ a < ASP_GICD_ICDISPR → 0 ≤ v < 2^32 → same_enabled m (sil_wrw_mem a v m).
Proof.
  intros Ha Hv i Hi. rewrite hw_wr_enabled by done. pose proof (line_div i 32 (line_int i Hi)). pose proof (Z.div_lt_upper_bound i 32 19).
  repeat match goal with |- context [?a =? ?b] => destruct (Z.eqb_spec a b); [addr; lia|] end. done.
Qed.

Lemma bit_write_words base id m :
  0 ≤ id < 256 → ASP_GICD_ICDISER ≤ base ≤ ASP_GICD_ICDICPR →
  same_words (fun _ => False) m (sil_wrw_mem (base + id_addr id) (id_bit id) m).
Proof.
  intros Hid Hb a Ha _. apply hw_wr_other; [done|]. apply stored_high in Ha. unfold id_addr. rewrite addr_u16 by lia.
  pose proof (Z.div_lt_upper_bound id 32 8). addr. lia.
Qed.

Lemma gicd_enable_ok id m : 0 ≤ id < 256 →
  same_words (fun _ => False) m (gicd_enable_int id m) ∧
  ∀ i, line i → enabled (gicd_enable_int id m) i = enabled m i || (i =? id).
Proof.
  intros Hid. split; [apply bit_write_words; [done|addr; lia]|]. intros i Hi. unfold gicd_enable_int.
  rewrite hw_wr_enabled by (done || apply u32_range). unfold id_addr. rewrite addr_u16, id_bit_testbit by (lia || by apply Z.mod_pos_bound).
  rewrite <- (same_id i id). destruct (line_div i 32) as [? _]; [by apply line_int|lia|]. pose proof (Z.div_lt_upper_bound id 32 8).
  destruct (Z.eqb_spec (4 * (i / 32)) (4 * (id / 32))) as [E|E];
    destruct (Z.eqb_spec (ASP_GICD_ICDISER + 4 * (id / 32)) (ASP_GICD_ICDISER + 4 * (i / 32))); try lia; simpl; [done|].
  destruct (Z.eqb_spec (ASP_GICD_ICDISER + 4 * (id / 32)) (ASP_GICD_ICDICER + 4 * (i / 32))); [|by rewrite orb_false_r].
  addr. lia.
Qed.

Lemma gicd_disable_ok id m : 0 ≤ id < 256 →
  same_words (fun _ => False) m (gicd_disable_int id m) ∧
  ∀ i, line i → enabled (gicd_disable_int id m) i = enabled m i && negb (i =? id).
Proof.
  intros Hid. split; [apply bit_write_words; [done|addr; lia]|]. intros i Hi. unfold gicd_disable_int.
  rewrite hw_wr_enabled by (done || apply u32_range). unfold id_addr. rewrite addr_u16, id_bit_testbit by (lia || by apply Z.mod_pos_bound).
  rewrite <- (same_id i id). pose proof (Z.div_lt_upper_bound i 32 19). pose proof (Z.div_pos id 32).
  destruct (Z.eqb_spec (ASP_GICD_ICDICER + 4 * (id / 32)) (ASP_GICD_ICDISER + 4 * (i / 32))); [addr; lia|].
  destruct (Z.eqb_spec (4 * (i / 32)) (4 * (id / 32))) as [E|E];
    destruct (Z.eqb_spec (ASP_GICD_ICDICER + 4 * (id / 32)) (ASP_GICD_ICDICER + 4 * (i / 32))); try lia; simpl; [done|].
  by rewrite andb_true_r.
Qed.

Lemma gicd_clear_ok id m : 0 ≤ id < 256 →
  same_words (fun _ => False) m (gicd_clear_pending id m) ∧ same_enabled m (gicd_clear_pending id m).
Proof.
  intros Hid. split; [apply bit_write_words; [done|addr; lia]|].
  apply wr_enabled_quiet; [|apply u32_range]. unfold id_addr. rewrite addr_u16 by lia.
  pose proof (Z.div_pos id 32). addr. lia.
Qed.

Lemma gicd_probe_ok id m : 0 ≤ id < 256 → (gicd_probe_int id m).1 = pending m id.
Proof.
  intros Hid. unfold gicd_probe_int, id_addr. rewrite addr_u16 by lia.
  rewrite <- hw_rd_pending by (unfold GIC_TNUM_INT; lia).
  destruct (sil_rew_mem (ASP_GICD_ICDISPR + 4 * (id / 32)) m) as [st m']. simpl.
  pose proof (Z.mod_pos_bound id 32). unfold id_bit.
  rewrite Z.shiftl_1_l, u32_id, land_pow2 by (lia || (split; [apply Z.pow_nonneg; lia|apply Z.pow_lt_mono_r; lia])).
  destruct (Z.testbit st (id `mod` 32)); [apply Z.eqb_refl|]. apply Z.eqb_neq. pose proof (Z.pow_pos_nonneg 2 (id `mod` 32)). lia.
Qed.

(** *** Reading and writing a register *)

Lemma rmw_ok a o w v m : plain a → 0 ≤ o → 0 ≤ w →
  let m' := sil_wrw_mem a (put_field o w v (sil_rew_mem a m).1) (sil_rew_mem a m).2 in
  same_words (eq a) m m' ∧ same_enabled m m' ∧ word m' a = Z.land (put_field o w v (word m a)) (impl a).
Proof.
  intros Hp Ho Hw m'. assert (Hs : stored a) by (by left).
  destruct (hw_rd_same a m) as [Hen Hwd]. destruct (hw_word a m Hp) as [Hr _].
  assert (Hv : 0 ≤ put_field o w v (sil_rew_mem a m).1 < 2^32).
  { rewrite hw_rd by done. by apply put_field_range. }
  split_and!.
  - intros a' Ha' Hne. unfold m'. rewrite hw_wr_other by done. by apply Hwd.
  - intros i Hi. unfold m'. rewrite (wr_enabled_quiet a) by (done || apply stored_high in Hs; addr; lia). by apply Hen.
  - unfold m'. rewrite hw_wr_word by done. by rewrite hw_rd by done.
Qed.

Lemma byte_place i j : 0 ≤ i → 0 ≤ j → i / 4 = j / 4 → i ≠ j →
  0 ≤ i `mod` 4 < 4 ∧ 0 ≤ j `mod` 4 < 4 ∧ i `mod` 4 ≠ j `mod` 4.
Proof.
  intros Hi Hj E Hne. pose proof (Z.div_mod i 4). pose proof (Z.div_mod j 4).
  split_and!; [apply Z.mod_pos_bound; lia..|]. lia.
Qed.

Lemma land_31 x : 0 ≤ x < 2^5 → Z.land x 31 = x.
Proof. intros Hx. change 31 with (Z.ones 5). rewrite Z.land_ones by lia. by apply Z.mod_small. Qed.

Lemma gicd_set_priority_ok id p m : 0 ≤ id < 256 → 0 ≤ p < 32 →
  let m' := gicd_set_priority id p m in
  same_words (eq (pri_addr id)) m m' ∧ same_enabled m m' ∧
  ∀ i, 0 ≤ i < GIC_TNUM_INT → pri m' i = if i =? id then p else pri m i.
Proof.
  intros Hid Hp m'.
  assert (Hpl : plain (pri_addr id)) by (apply pri_stored; unfold GIC_TNUM_INT; lia).
  pose proof (Z.mod_pos_bound id 4) as Hmod.
  assert (Ho : u16 (id `mod` 4 * 8 + GICC_PMR_OFFSET) = 8 * (id `mod` 4) + 3).
  { unfold u16, GICC_PMR_OFFSET. rewrite Z.mod_small; lia. }
  assert (E : m' = sil_wrw_mem (pri_addr id) (put_field (8 * (id `mod` 4) + 3) 5 p (sil_rew_mem (pri_addr id) m).1)
    (sil_rew_mem (pri_addr id) m).2).
  { unfold m', gicd_set_priority. rewrite addr_u16, Ho by lia. change (ASP_GICD_ICDIPR + 4 * (id / 4)) with (pri_addr id).
    by destruct (sil_rew_mem (pri_addr id) m). }
  destruct (rmw_ok (pri_addr id) (8 * (id `mod` 4) + 3) 5 p m Hpl) as (Hw & He & Hv); [lia..|]. rewrite <- E in Hw, He, Hv.
  split_and!; [done..|]. intros i Hi. unfold pri. pose proof (Z.mod_pos_bound i 4) as Hmi.
  destruct (Z.eq_dec (i / 4) (id / 4)) as [Eq|Ne].
  - assert (Ea : pri_addr i = pri_addr id) by (unfold pri_addr; lia).
    pose proof (hw_impl_pri i Hi) as Hm. rewrite Ea in Hm |- *.
    rewrite Hv, field_land, Hm, land_31 by (lia || by apply field_range).
    destruct (Z.eqb_spec i id) as [->|Hne]; [apply field_put_same; lia|].
    destruct (byte_place i id) as (? & ? & ?); [lia..|]. apply field_put_other; lia.
  - rewrite (Hw (pri_addr i)); [|left; by apply pri_stored|unfold pri_addr; lia].
    destruct (Z.eqb_spec i id) as [->|]; done.
Qed.

Lemma gicd_set_target_ok id m : 0 ≤ id < 256 →
  let m' := gicd_set_target id 1 m in
  same_words (eq (target_addr id)) m m' ∧ same_enabled m m' ∧
  ∀ i, 0 ≤ i < GIC_TNUM_INT → target m' i =
    if i =? id then Z.land 1 (field (8 * (i `mod` 4)) 4 (impl (target_addr i))) else target m i.
Proof.
  intros Hid m'.
  assert (Hpl : plain (target_addr id)) by (apply target_stored; unfold GIC_TNUM_INT; lia).
  pose proof (Z.mod_pos_bound id 4) as Hmod. pose proof (Z.div_lt_upper_bound id 4 64) as Hdiv. pose proof (Z.div_pos id 4) as Hpos.
  assert (E : m' = sil_wrw_mem (target_addr id) (put_field (8 * (id `mod` 4)) 4 1 (sil_rew_mem (target_addr id) m).1)
    (sil_rew_mem (target_addr id) m).2).
  { unfold m', gicd_set_target. rewrite (u32_id (id / 4 * 4)), (u32_id (id `mod` 4 * 8)) by lia.
    replace (ASP_GICD_ICDIPTR + id / 4 * 4) with (target_addr id) by (unfold target_addr; lia).
    replace (id `mod` 4 * 8) with (8 * (id `mod` 4)) by lia.
    by destruct (sil_rew_mem (target_addr id) m). }
  destruct (rmw_ok (target_addr id) (8 * (id `mod` 4)) 4 1 m Hpl) as (Hw & He & Hv); [lia..|]. rewrite <- E in Hw, He, Hv.
  split_and!; [done..|]. intros i Hi. unfold target. pose proof (Z.mod_pos_bound i 4) as Hmi.
  destruct (Z.eq_dec (i / 4) (id / 4)) as [Eq|Ne].
  - assert (Ea : target_addr i = target_addr id) by (unfold target_addr; lia).
    rewrite Ea, Hv, field_land by lia.
    destruct (Z.eqb_spec i id) as [->|Hne]; [rewrite field_put_same; [done|lia..]|].
    destruct (byte_place i id) as (? & ? & ?); [lia..|]. rewrite field_put_other by lia.
    rewrite <- field_land by lia. by rewrite (proj2 (hw_word _ m Hpl)).
  - rewrite (Hw (target_addr i)); [|left; by apply target_stored|unfold target_addr; lia].
    destruct (Z.eqb_spec i id) as [->|]; done.
Qed.

(** ** Interrupt lines *)

(** What the controller knows of a line. *)
Record view := mkView { v_enabled : bool; v_pri : Z; v_target : Z; v_edge : Z }.
#[export] Instance eta_view : Eta view := fun r => mkView (v_enabled r) (v_pri r) (v_target r) (v_edge r).
Definition view_of m i : view := mkView (enabled m i) (pri m i) (target m i) (edge_bits m i).
(** The target field of a line that is sent to processor 0. *)
Definition cpu0 i : Z := Z.land 1 (field (8 * (i `mod` 4)) 4 (impl (target_addr i))).

Lemma same_words_views (A : Z → Prop) m m' i : same_words A m m' → 0 ≤ i < GIC_TNUM_INT →
  (¬ A (pri_addr i) → pri m' i = pri m i) ∧ (¬ A (target_addr i) → target m' i = target m i) ∧
  (¬ A (config_addr i) → edge_bits m' i = edge_bits m i) ∧ (¬ A ASP_GICC_ICCPMR → pmr m' = pmr m).
Proof.
  intros HS Hi. unfold pri, target, edge_bits, pmr. split_and!; intros Ha; rewrite HS; try done.
  - left. by apply pri_stored.
  - left. by apply target_stored.
  - right. eauto.
  - left. by left.
Qed.

Lemma addr_apart i j : 0 ≤ i < GIC_TNUM_INT → 0 ≤ j < GIC_TNUM_INT →
  pri_addr i ≠ target_addr j ∧ pri_addr i ≠ config_addr j ∧ target_addr i ≠ config_addr j ∧
  pri_addr i ≠ ASP_GICC_ICCPMR ∧ target_addr i ≠ ASP_GICC_ICCPMR.
Proof.
  intros Hi Hj. pose proof (line_div i 4 Hi). pose proof (line_div j 4 Hj). pose proof (line_div j 16 Hj).
  addr. lia.
Qed.

(** The steps of [x_config_int] on the view of a line. *)
Section steps.
Context (id : Z) (Hid : 0 ≤ id < 256).
Implicit Types (V : view).

Lemma id_int : 0 ≤ id < GIC_TNUM_INT.
Proof. unfold GIC_TNUM_INT. lia. Qed.

Lemma enable_view m i : line i →
  view_of (gicd_enable_int id m) i = (if i =? id then (view_of m i) <| v_enabled := true |> else view_of m i) ∧
  pmr (gicd_enable_int id m) = pmr m.
Proof.
  intros Hi. destruct (gicd_enable_ok id m Hid) as [Hw He].
  destruct (same_words_views _ _ _ i Hw (line_int i Hi)) as (H1 & H2 & H3 & H4). split; [|apply H4; tauto].
  unfold view_of. rewrite He, H1, H2, H3 by tauto. destruct (i =? id); [by rewrite orb_true_r|by rewrite orb_false_r].
Qed.

Lemma disable_view m i : line i →
  view_of (gicd_disable_int id m) i = (if i =? id then (view_of m i) <| v_enabled := false |> else view_of m i) ∧
  pmr (gicd_disable_int id m) = pmr m.
Proof.
  intros Hi. destruct (gicd_disable_ok id m Hid) as [Hw He].
  destruct (same_words_views _ _ _ i Hw (line_int i Hi)) as (H1 & H2 & H3 & H4). split; [|apply H4; tauto].
  unfold view_of. rewrite He, H1, H2, H3 by tauto. destruct (i =? id); [by rewrite andb_false_r|by rewrite andb_true_r].
Qed.

Lemma clear_view m i : line i →
  view_of (gicd_clear_pending id m) i = view_of m i ∧ pmr (gicd_clear_pending id m) = pmr m.
Proof.
  intros Hi. destruct (gicd_clear_ok id m Hid) as [Hw He].
  destruct (same_words_views _ _ _ i Hw (line_int i Hi)) as (H1 & H2 & H3 & H4). split; [|apply H4; tauto].
  unfold view_of. by rewrite He, H1, H2, H3 by tauto.
Qed.

Lemma priority_view p m i : 0 ≤ p < 32 → line i →
  view_of (gicd_set_priority id p m) i = (if i =? id then (view_of m i) <| v_pri := p |> else view_of m i) ∧
  pmr (gicd_set_priority id p m) = pmr m.
Proof.
  intros Hp Hi. destruct (gicd_set_priority_ok id p m Hid Hp) as (Hw & He & Hv).
  destruct (same_words_views _ _ _ i Hw (line_int i Hi)) as (_ & H2 & H3 & H4).
  destruct (addr_apart id i id_int (line_int i Hi)) as (A1 & A2 & A3 & A4 & A5). split; [|by apply H4].
  unfold view_of. rewrite He, Hv, H2, H3 by (done || by apply line_int). by destruct (i =? id).
Qed.

Lemma target_view m i : line i →
  view_of (gicd_set_target id 1 m) i = (if i =? id then (view_of m i) <| v_target := cpu0 i |> else view_of m i) ∧
  pmr (gicd_set_target id 1 m) = pmr m.
Proof.
  intros Hi. destruct (gicd_set_target_ok id m Hid) as (Hw & He & Hv).
  destruct (same_words_views _ _ _ i Hw (line_int i Hi)) as (H1 & _ & H3 & H4).
  destruct (addr_apart id i id_int (line_int i Hi)) as (A1 & A2 & A3 & A4 & A5).
  destruct (addr_apart i id (line_int i Hi) id_int) as (B1 & B2 & B3 & B4 & B5). split; [|by apply H4].
  unfold view_of. rewrite He, Hv, H1, H3 by (done || by apply line_int). by destruct (i =? id).
Qed.

(** An identifier is a [uint8_t], so the test at the beginning always holds. *)
Lemma gicd_config_nothing is_edge is_1_n m : gicd_config id is_edge is_1_n m = m.
Proof. unfold gicd_config. destruct (Z.ltb_spec id 416); [done|lia]. Qed.
End steps.

Definition valid_intpri (p : Z) : Prop := RZA1_TMIN_INTPRI ≤ p ≤ RZA1_TMAX_INTPRI.

Lemma INT_IPM_ok p : RZA1_TMIN_INTPRI ≤ p ≤ 0 → INT_IPM p = p + 31 ∧ 0 ≤ p + 31 < 32.
Proof.
  unfold RZA1_TMIN_INTPRI, GIC_PRI_LEVEL, INT_IPM, GICC_PMR_MASK. intros Hp. split; [|lia]. apply u8_id. lia.
Qed.

Lemma x_config_int_views cfgint n atr p m :
  cfgint n = true → VALID_INTNO n = true → valid_intpri p →
  ∃ m', x_config_int cfgint n atr p m = Some m' ∧ pmr m' = pmr m ∧
    ∀ i, line i → view_of m' i =
      if i =? u8 n then mkView (bits atr TA_ENAINT) (p + 31) (cpu0 i) (edge_bits m i) else view_of m i.
Proof.
  intros Hc Hn Hp. unfold x_config_int. rewrite Hn. simpl.
  assert (Hr : (RZA1_TMIN_INTPRI <=? p) && (p <=? RZA1_TMAX_INTPRI) = true).
  { destruct Hp. apply andb_true_iff. split; by apply Z.leb_le. }
  rewrite Hr. simpl. eexists. split; [done|].
  pose proof (u8_range n) as Hid. change (2^8) with 256 in Hid.
  destruct (INT_IPM_ok p) as [-> Hp']; [destruct Hp; unfold RZA1_TMAX_INTPRI in *; lia|].
  unfold x_disable_int, x_enable_int, x_clear_int. rewrite Hc. simpl. rewrite !gicd_config_nothing by done.
  assert (Hl : line 16) by (unfold line, GIC_TNUM_INT; lia). split.
  - destruct (bits atr TA_ENAINT), (bits atr TA_EDGE);
      by rewrite ?(proj2 (enable_view _ Hid _ _ Hl)), (proj2 (target_view _ Hid _ _ Hl)), (proj2 (priority_view _ Hid _ _ _ Hp' Hl)),
        ?(proj2 (clear_view _ Hid _ _ Hl)), (proj2 (disable_view _ Hid _ _ Hl)).
  - intros i Hi. destruct (bits atr TA_ENAINT), (bits atr TA_EDGE);
      rewrite ?(proj1 (enable_view _ Hid _ _ Hi)), (proj1 (target_view _ Hid _ _ Hi)), (proj1 (priority_view _ Hid _ _ _ Hp' Hi)),
        ?(proj1 (clear_view _ Hid _ _ Hi)), (proj1 (disable_view _ Hid _ _ Hi)); by destruct (i =? u8 n).
Qed.

(** ** Initialization of the controller *)

Lemma wrw_loop_inv (P : Z → M → Prop) base val lo hi m :
  lo ≤ hi → P lo m →
  (∀ i m, lo ≤ i < hi → P i m → P (i + 1) (sil_wrw_mem (base + 4 * i) (val i) m)) →
  P hi (wrw_loop base val lo hi m).
Proof.
  intros Hle H0 Hstep. unfold wrw_loop. remember (Z.to_nat (hi - lo)) as n eqn:En.
  revert lo m Hle H0 Hstep En. induction n as [|n IH]; intros lo m Hle H0 Hstep En.
  - replace hi with lo in * by lia. by rewrite seqZ_nil by lia.
  - rewrite seqZ_cons by lia. simpl. replace (Z.pred (hi - lo)) with (hi - Z.succ lo) by lia.
    apply IH; [lia| |intros; apply Hstep; [lia|done]|lia]. replace (Z.succ lo) with (lo + 1) by lia. apply Hstep; [lia|done].
Qed.

Lemma same_words_trans (A : Z → Prop) m1 m2 m3 : same_words A m1 m2 → same_words A m2 m3 → same_words A m1 m3.
Proof. intros H1 H2 a Ha Hn. rewrite H2 by done. by apply H1. Qed.
Lemma same_words_weaken (A B : Z → Prop) m1 m2 : (∀ a, A a → B a) → same_words A m1 m2 → same_words B m1 m2.
Proof. intros HAB H1 a Ha Hn. apply H1; [done|]. intros ?. by apply Hn, HAB. Qed.
Lemma same_enabled_trans m1 m2 m3 : same_enabled m1 m2 → same_enabled m2 m3 → same_enabled m1 m3.
Proof. intros H1 H2 i Hi. rewrite H2 by done. by apply H1. Qed.

Lemma wr_words a v m : same_words (eq a) m (sil_wrw_mem a v m).
Proof. intros a' Ha Hne. by apply hw_wr_other. Qed.

(** A loop over registers that do not enable interrupts. *)
Lemma wrw_loop_quiet base val n m : 0 ≤ n → (∀ i, 0 ≤ val i < 2^32) →
  (∀ i, 0 ≤ i < n → ¬ ASP_GICD_ICDISER ≤ base + 4 * i < ASP_GICD_ICDISPR) →
  same_words (fun a => ∃ i, 0 ≤ i < n ∧ a = base + 4 * i) m (wrw_loop base val 0 n m) ∧
  same_enabled m (wrw_loop base val 0 n m).
Proof.
  intros Hn Hv Hq.
  apply (wrw_loop_inv (fun k m' => same_words (fun a => ∃ i, 0 ≤ i < n ∧ a = base + 4 * i) m m' ∧ same_enabled m m')).
  - done.
  - split; [by intros a Ha _|by intros i Hi].
  - intros i m1 Hi [Hw He]. split.
    + eapply same_words_trans; [done|]. eapply same_words_weaken; [|apply wr_words]. intros a <-. eauto.
    + eapply same_enabled_trans; [done|]. apply wr_enabled_quiet; [by apply Hq|done].
Qed.

(** The loop that sets all priorities. *)
Lemma wrw_loop_pri m :
  let m' := wrw_loop ASP_GICD_ICDIPR (fun _ => 0xffffffff) 0 ASP_NUM_ICDIPR_ENTRY m in
  ∀ i, 0 ≤ i < GIC_TNUM_INT → pri m' i = 31.
Proof.
  intros m'. cut (∀ j, 0 ≤ j < GIC_TNUM_INT → j / 4 < ASP_NUM_ICDIPR_ENTRY → pri m' j = 31).
  { intros Hc i Hi. apply Hc; [done|]. apply Z.div_lt_upper_bound; [lia|]. change ASP_NUM_ICDIPR_ENTRY with 147. unfold GIC_TNUM_INT in *. lia. }
  unfold m'.
  apply (wrw_loop_inv (fun k m' => ∀ j, 0 ≤ j < GIC_TNUM_INT → j / 4 < k → pri m' j = 31)).
  - done.
  - intros j Hj Hlt. pose proof (Z.div_pos j 4). lia.
  - intros i m1 Hi HP j Hj Hlt. unfold pri. destruct (Z.eq_dec (j / 4) i) as [E|Ne].
    + assert (Ea : ASP_GICD_ICDIPR + 4 * i = pri_addr j) by (unfold pri_addr; lia). rewrite Ea.
      pose proof (Z.mod_pos_bound j 4) as Hm.
      rewrite hw_wr_word by (apply pri_stored, Hj || done). rewrite field_land, hw_impl_pri by (done || lia).
      change (field (8 * j `mod` 4 + 3) 5 0xffffffff) with (Z.land (Z.shiftr (Z.ones 32) (8 * j `mod` 4 + 3)) (Z.ones 5)).
      change 31 with (Z.ones 5). bitwise b; done.
    + rewrite hw_wr_other; [apply HP; [done|lia]|left; by apply pri_stored|]. unfold pri_addr. lia.
Qed.

(** The loop that disables all interrupts. *)
Lemma wrw_loop_disable m :
  let m' := wrw_loop ASP_GICD_ICDICER (fun _ => 0xffffffff) 0 ASP_NUM_ICDICER_ENTRY m in
  same_words (fun _ => False) m m' ∧ ∀ i, line i → enabled m' i = false.
Proof.
  intros m'. cut (same_words (fun _ => False) m m' ∧ ∀ j, line j → j / 32 < ASP_NUM_ICDICER_ENTRY → enabled m' j = false).
  { intros [Hw Hc]. split; [done|]. intros i Hi. apply Hc; [done|]. apply Z.div_lt_upper_bound; [lia|].
    change ASP_NUM_ICDICER_ENTRY with 19. unfold line, GIC_TNUM_INT in *. lia. }
  unfold m'.
  apply (wrw_loop_inv (fun k m' => same_words (fun _ => False) m m' ∧ ∀ j, line j → j / 32 < k → enabled m' j = false)).
  - done.
  - split; [by intros a Ha _|]. intros j Hj Hlt. pose proof (line_div j 32 (line_int j Hj)). lia.
  - intros i m1 Hi [Hw HP]. split.
    + intros a Ha Hn. rewrite hw_wr_other; [by apply Hw|done|]. apply stored_high in Ha.
      change ASP_NUM_ICDICER_ENTRY with 19 in Hi. addr. lia.
    + intros j Hj Hlt. rewrite hw_wr_enabled by done. pose proof (line_div j 32 (line_int j Hj)) as Hd. pose proof (Z.div_lt_upper_bound j 32 19).
      change ASP_NUM_ICDICER_ENTRY with 19 in Hi.
      destruct (Z.eqb_spec (ASP_GICD_ICDICER + 4 * i) (ASP_GICD_ICDISER + 4 * (j / 32))); [addr; lia|].
      destruct (Z.eqb_spec (ASP_GICD_ICDICER + 4 * i) (ASP_GICD_ICDICER + 4 * (j / 32))); [|apply HP; [done|lia]].
      change 0xffffffff with (Z.ones 32). pose proof (Z.mod_pos_bound j 32). rewrite Z.ones_spec_low by lia. by rewrite andb_false_r.
Qed.

Lemma icdicfrn_range (i : nat) : 0 ≤ nth i intc_icdicfrn_table 0 < 2^32.
Proof.
  assert (HF : Forall (fun v => 0 ≤ v < 2^32) intc_icdicfrn_table) by (repeat constructor; lia).
  destruct (nth_in_or_default i intc_icdicfrn_table 0) as [Hin| ->]; [|lia].
  rewrite Forall_forall in HF. apply HF. by apply list_elem_of_In.
Qed.

(** Every line is disabled and has the lowest priority.  The loop over the
    target registers starts behind the last one: they keep what they had. *)
Lemma gicd_init_ok m i : line i →
  enabled (gicd_init m) i = false ∧ pri (gicd_init m) i = 31 ∧ target (gicd_init m) i = target m i.
Proof.
  intros Hi. pose proof (line_int i Hi) as Hi'. unfold gicd_init.
  set (m1 := sil_wrw_mem ASP_GICD_ICDDCR 0 m).
  set (m2 := wrw_loop ASP_GICD_ICDICFR _ _ _ m1).
  set (m3 := wrw_loop ASP_GICD_ICDIPR _ _ _ m2).
  change (wrw_loop ASP_GICD_ICDIPTR _ _ _ m3) with m3.
  set (m5 := wrw_loop ASP_GICD_ICDICER _ _ _ m3).
  set (m6 := wrw_loop ASP_GICD_ICDICPR _ _ _ m5).
  pose proof (wr_words ASP_GICD_ICDDCR 0 m) as W1. fold m1 in W1.
  pose proof (wr_words ASP_GICD_ICDDCR GICD_CTLR_ENABLE m6) as W7.
  assert (E7 : same_enabled m6 (sil_wrw_mem ASP_GICD_ICDDCR GICD_CTLR_ENABLE m6)).
  { apply wr_enabled_quiet; [unfold ASP_GICD_ICDDCR; addr; lia|done]. }
  destruct (wrw_loop_quiet ASP_GICD_ICDICFR (fun i => nth (Z.to_nat i) intc_icdicfrn_table 0) ASP_NUM_ICDICFR_ENTRY m1) as [W2 _];
    [done|intros ?; apply icdicfrn_range|change ASP_NUM_ICDICFR_ENTRY with 37; addr; lia|]. fold m2 in W2.
  destruct (wrw_loop_quiet ASP_GICD_ICDIPR (fun _ => 0xffffffff) ASP_NUM_ICDIPR_ENTRY m2) as [W3 _];
    [done|done|change ASP_NUM_ICDIPR_ENTRY with 147; addr; lia|]. fold m3 in W3.
  pose proof (wrw_loop_pri m2 i Hi') as P3. fold m3 in P3.
  destruct (wrw_loop_disable m3) as [W5 D5]. fold m5 in W5, D5.
  destruct (wrw_loop_quiet ASP_GICD_ICDICPR (fun _ => 0xffffffff) ASP_NUM_ICDICPR_ENTRY m5) as [W6 E6];
    [done|done|change ASP_NUM_ICDICPR_ENTRY with 19; addr; lia|]. fold m6 in W6, E6.
  pose proof (line_div i 4 Hi') as Hd. pose proof (Z.div_lt_upper_bound i 4 147) as Hd'.
  change ASP_NUM_ICDICFR_ENTRY with 37 in W2. change ASP_NUM_ICDIPR_ENTRY with 147 in W3. change ASP_NUM_ICDICPR_ENTRY with 19 in W6.
  assert (Hpri : stored (pri_addr i)) by (left; by apply pri_stored).
  assert (Htgt : stored (target_addr i)) by (left; by apply target_stored).
  split_and!.
  - rewrite E7, E6 by done. by apply D5.
  - unfold pri in *. rewrite W7, W6, W5; try done; try tauto; try (intros (k & Hk & E); addr; lia); unfold ASP_GICD_ICDDCR; addr; lia.
  - unfold target. rewrite W7, W6, W5, W3, W2, W1; try done; try tauto; try (intros (k & Hk & E); addr; lia); unfold ASP_GICD_ICDDCR; addr; lia.
Qed.

Lemma set_pmr_ok p m : 0 ≤ p < 32 →
  same_words (eq ASP_GICC_ICCPMR) m (gicc_set_priority p m) ∧ same_enabled m (gicc_set_priority p m) ∧
  pmr (gicc_set_priority p m) = p.
Proof.
  intros Hp. unfold gicc_set_priority. rewrite u32_id by (unfold GICC_PMR_OFFSET; rewrite Z.shiftl_mul_pow2; lia). split_and!.
  - apply wr_words.
  - apply wr_enabled_quiet; [addr; lia|]. unfold GICC_PMR_OFFSET. rewrite Z.shiftl_mul_pow2; lia.
  - unfold pmr. rewrite hw_wr_word; [|by left|unfold GICC_PMR_OFFSET; rewrite Z.shiftl_mul_pow2; lia].
    rewrite Z.shiftr_land, hw_impl_pmr. unfold GICC_PMR_OFFSET. rewrite Z.shiftr_shiftl_l by lia. apply land_31. lia.
Qed.

(** Writes and reads that concern neither a line nor the mask. *)
Lemma quiet_write a v m : ¬ stored a → ¬ ASP_GICD_ICDISER ≤ a < ASP_GICD_ICDISPR → 0 ≤ v < 2^32 →
  same_words (fun _ => False) m (sil_wrw_mem a v m) ∧ same_enabled m (sil_wrw_mem a v m).
Proof.
  intros Hs Ha Hv. split; [|by apply wr_enabled_quiet]. intros a' Ha' _. apply hw_wr_other; [done|]. by intros ->.
Qed.

Lemma gicc_init_ok m :
  same_words (eq ASP_GICC_ICCPMR) m (gicc_init m) ∧ same_enabled m (gicc_init m) ∧ pmr (gicc_init m) = 31.
Proof.
  unfold gicc_init, gicc_set_bp.
  set (m1 := sil_wrw_mem ASP_GICC_ICCICR 0 m). set (m2 := gicc_set_priority GIC_MIN_PRIORITY m1).
  set (m3 := sil_wrw_mem ASP_GICC_ICCBPR (u32 0) m2).
  destruct (hw_rd_same ASP_GICC_ICCIAR m3) as [R4 W4]. pose proof (hw_rd_range ASP_GICC_ICCIAR m3) as Hack.
  destruct (sil_rew_mem ASP_GICC_ICCIAR m3) as [ack m4]. simpl in *.
  set (m5 := sil_wrw_mem ASP_GICC_ICCEOIR ack m4).
  assert (Hns : ∀ a, a = ASP_GICC_ICCICR ∨ a = ASP_GICC_ICCBPR ∨ a = ASP_GICC_ICCEOIR → ¬ stored a ∧ ¬ ASP_GICD_ICDISER ≤ a < ASP_GICD_ICDISPR).
  { intros a Ha. split; [intros Hs%stored_high|]; unfold ASP_GICC_ICCICR, ASP_GICC_ICCBPR, ASP_GICC_ICCEOIR in *; addr; lia. }
  destruct (quiet_write ASP_GICC_ICCICR 0 m) as [W1 E1]; [by apply Hns; auto..|done|]. fold m1 in W1, E1.
  destruct (set_pmr_ok GIC_MIN_PRIORITY m1) as (W2 & E2 & P2); [done|]. fold m2 in W2, E2, P2.
  destruct (quiet_write ASP_GICC_ICCBPR (u32 0) m2) as [W3 E3]; [by apply Hns; auto..|done|]. fold m3 in W3, E3.
  destruct (quiet_write ASP_GICC_ICCEOIR ack m4) as [W5 E5]; [by apply Hns; auto..|done|]. fold m5 in W5, E5.
  destruct (quiet_write ASP_GICC_ICCICR 3 m5) as [W6 E6]; [by apply Hns; auto..|done|].
  change (Z.lor GICC_CTLR_ENABLEGRP1 GICC_CTLR_ENABLEGRP0) with 3.
  assert (HP : stored ASP_GICC_ICCPMR) by (left; by left).
  split_and!.
  - intros a Ha Hn. rewrite W6, W5, W4, W3, W2, W1; done || tauto.
  - intros i Hi. rewrite E6, E5, R4, E3, E2, E1; done.
  - unfold pmr in *. rewrite W6, W5, W4, W3; done || tauto.
Qed.

(** ** The priority mask *)

Lemma valid_intpri_ipm p : valid_intpri p → RZA1_TMIN_INTPRI ≤ p ≤ 0.
Proof. unfold valid_intpri, RZA1_TMAX_INTPRI. lia. Qed.

Lemma pmr_range m : 0 ≤ pmr m < 32.
Proof.
  destruct (hw_word ASP_GICC_ICCPMR m) as [Hr Hi]; [by left|].
  unfold pmr. rewrite <- Hi, Z.shiftr_land, hw_impl_pmr. change 31 with (Z.ones 5). rewrite Z.land_ones by lia.
  apply Z.mod_pos_bound. lia.
Qed.

Lemma get_ipm_pmr m : (x_get_ipm m).1 = pmr m - 31.
Proof.
  unfold x_get_ipm, current_iipm, gicc_current_priority.
  pose proof (hw_rd ASP_GICC_ICCPMR m) as E. destruct (sil_rew_mem ASP_GICC_ICCPMR m) as [v m1]. simpl in *.
  rewrite E by (left; by left). unfold EXT_IPM. change (Z.shiftr (word m ASP_GICC_ICCPMR) GICC_PMR_OFFSET) with (pmr m).
  rewrite u8_id; [done|]. pose proof (pmr_range m). lia.
Qed.

Lemma set_ipm_ok p m : RZA1_TMIN_INTPRI ≤ p ≤ 0 →
  pmr (x_set_ipm p m) = p + 31 ∧ ∀ i, line i → view_of (x_set_ipm p m) i = view_of m i.
Proof.
  intros Hp. unfold x_set_ipm, set_iipm. destruct (INT_IPM_ok p Hp) as [-> Hr].
  destruct (set_pmr_ok (p + 31) m Hr) as (W & E & P). split; [done|]. intros i Hi.
  destruct (same_words_views _ _ _ i W (line_int i Hi)) as (H1 & H2 & H3 & _).
  destruct (addr_apart i i) as (_ & _ & _ & A1 & A2); [by apply line_int..|]. unfold view_of.
  assert (A3 : ASP_GICC_ICCPMR ≠ config_addr i) by (pose proof (line_div i 16 (line_int i Hi)); addr; lia).
  by rewrite E, H1, H2, H3 by (done || by intros ?).
Qed.
End gic.
