(* ===== verification/IntLines.v ===== *)
(** * Interrupt lines: from the tables of the configurator to the controller

    What [initialize_interrupt] makes of the tables, what the priority mask
    does to configured lines, and that the state the kernel keeps of the
    interrupts is that of the controller; and the lines that the 8-bit
    interrupt numbers of the driver leave out. *)

From stdpp Require Import relations.
From S2P Require Import Prelude Data Bits Kmonad Interrupt Kernel Gic GicProof.
Open Scope Z_scope.

Section lines.
Context {M : Type} `{HW : GICHW M} (cfgint : Z → bool).
Implicit Types (m : M) (i : Z) (e : INTINIB).

(** What the configurator checks of a line. *)
Definition valid_line e : Prop :=
  cfgint (intno e) = true ∧ VALID_INTNO (intno e) = true ∧ valid_intpri (intpri e).
Definition valid_inh (p : INHINIB) : Prop := GIC_TMIN_INTNO ≤ inhno p ≤ GIC_TMAX_INTNO.

(** The views after the entries of a table, one after the other. *)
Definition config_view i (V : view) e : view :=
  if i =? u8 (intno e) then mkView (bits (intatr e) TA_ENAINT) (intpri e + 31) (cpu0 i) (v_edge V) else V.

Lemma config_lines_ok (tbl : list INTINIB) m : Forall valid_line tbl →
  ∃ m', foldl (fun r p => m ← r; x_config_int cfgint (intno p) (intatr p) (intpri p) m) (Some m) tbl = Some m' ∧
    pmr m' = pmr m ∧ ∀ i, line i → view_of m' i = foldl (config_view i) (view_of m i) tbl.
Proof.
  intros HF. revert m. induction HF as [|e tbl (Hc & Hn & Hp) _ IH]; intros m; [by exists m|]. simpl.
  destruct (x_config_int_views cfgint (intno e) (intatr e) (intpri e) m Hc Hn Hp) as (m1 & -> & Hpmr & Hv). simpl.
  destruct (IH m1) as (m' & -> & Hpmr' & Hv'). exists m'. split_and!; [done|congruence|].
  intros i Hi. rewrite Hv', Hv by done. done.
Qed.

Lemma config_view_none i V (tbl : list INTINIB) :
  (∀ e, e ∈ tbl → u8 (intno e) ≠ i) → foldl (config_view i) V tbl = V.
Proof.
  revert V. induction tbl as [|e tbl IH]; intros V Hne; [done|]. simpl. rewrite IH by (intros ? ?; apply Hne; by right).
  unfold config_view. destruct (Z.eqb_spec i (u8 (intno e))) as [->|]; [|done]. by destruct (Hne e ltac:(left)).
Qed.

Lemma config_view_edge i V (tbl : list INTINIB) : v_edge (foldl (config_view i) V tbl) = v_edge V.
Proof.
  revert V. induction tbl as [|e tbl IH]; intros V; [done|]. simpl. rewrite IH. unfold config_view. by destruct (i =? _).
Qed.

(** A line with a number of its own. *)
Lemma config_view_one V (tbl : list INTINIB) e :
  Forall (fun e => 0 ≤ intno e < 256) tbl → NoDup (intno <$> tbl) → e ∈ tbl →
  foldl (config_view (intno e)) V tbl = mkView (bits (intatr e) TA_ENAINT) (intpri e + 31) (cpu0 (intno e)) (v_edge V).
Proof.
  intros HF Hnd Hin. revert V. induction tbl as [|e' tbl IH]; [by apply not_elem_of_nil in Hin|]. intros V. simpl.
  apply Forall_cons in HF as [He' HF]. apply NoDup_cons in Hnd as [Hn' Hnd].
  apply elem_of_cons in Hin as [->|Hin].
  - rewrite config_view_none.
    + unfold config_view. rewrite u8_id by done. by rewrite Z.eqb_refl.
    + intros e2 He2 E. apply Hn'. rewrite <- E. rewrite Forall_forall in HF. rewrite u8_id by (by apply HF).
      by apply list_elem_of_fmap_2.
  - rewrite IH by done. f_equal. unfold config_view. by destruct (_ =? _).
Qed.

Lemma define_inh_ok (tbl : list INHINIB) m : Forall valid_inh tbl →
  foldl (fun r p => m ← r; x_define_inh (inhno p) (int_entry p) m) (Some m) tbl = Some m.
Proof.
  intros HF. induction HF as [|p tbl [H1 H2] _ IH]; [done|]. simpl. unfold x_define_inh at 2.
  rewrite (proj2 (Z.leb_le _ _) H1), (proj2 (Z.leb_le _ _) H2). apply IH.
Qed.

(** The controller after its initialization, as far as lines go. *)
Lemma gic_init_ok m i : line i →
  enabled (gicc_init (gicd_init m)) i = false ∧ pri (gicc_init (gicd_init m)) i = 31.
Proof.
  intros Hi. destruct (gicc_init_ok (gicd_init m)) as (W & E & _). destruct (gicd_init_ok m i Hi) as (H1 & H2 & _).
  destruct (addr_apart i i) as (_ & _ & _ & A & _); [by apply line_int..|]. split; [by rewrite E|].
  unfold pri in *. rewrite W; [done|left; apply pri_stored, line_int, Hi|by intros ?].
Qed.

Lemma initialize_interrupt_views inhs tbl m : Forall valid_inh inhs → Forall valid_line tbl →
  ∃ m', initialize_interrupt cfgint inhs tbl m = Some m' ∧ pmr m' = pmr m ∧
    ∀ i, line i → view_of m' i = foldl (config_view i) (view_of m i) tbl.
Proof.
  intros Hi Hl. unfold initialize_interrupt. rewrite define_inh_ok by done. simpl. by apply config_lines_ok.
Qed.

(** ** The tables *)

(** C19: after the initialization of the controller and
    [initialize_interrupt], for tables with interrupt numbers below 256, each
    once: every line of the table is enabled if its attribute says so, has
    its priority and goes to processor 0; every other line is disabled with
    the lowest priority; the priority mask lets every interrupt pass
    (TIPM_ENAALL); and no trigger mode is changed, whatever TA_EDGE says. *)
Theorem initialize_interrupt_correct inhs tbl m :
  Forall valid_inh inhs → Forall valid_line tbl →
  Forall (fun e => 0 ≤ intno e < 256) tbl → NoDup (intno <$> tbl) →
  ∃ m', initialize_interrupt cfgint inhs tbl (gicc_init (gicd_init m)) = Some m' ∧
    (x_get_ipm m').1 = 0 ∧
    (∀ e, e ∈ tbl → line (intno e) →
      enabled m' (intno e) = bits (intatr e) TA_ENAINT ∧ pri m' (intno e) = INT_IPM (intpri e) ∧
      target m' (intno e) = cpu0 (intno e)) ∧
    (∀ i, line i → i ∉ (intno <$> tbl) → enabled m' i = false ∧ pri m' i = INT_IPM 0) ∧
    (∀ i, line i → edge_bits m' i = edge_bits (gicc_init (gicd_init m)) i).
Proof.
  intros Hinh Hl Hlt Hnd. destruct (initialize_interrupt_views inhs tbl (gicc_init (gicd_init m)) Hinh Hl) as (m' & E & Hp & Hv).
  exists m'. split_and!; [done|..].
  - rewrite get_ipm_pmr, Hp. by destruct (gicc_init_ok (gicd_init m)) as (_ & _ & ->).
  - intros e He Hle. pose proof (Hv _ Hle) as V. rewrite (config_view_one _ _ _ Hlt Hnd He) in V.
    rewrite Forall_forall in Hl. destruct (Hl e He) as (_ & _ & Hpri).
    injection V as H1 H2 H3 _. rewrite (proj1 (INT_IPM_ok _ (valid_intpri_ipm _ Hpri))). done.
  - intros i Hi Hn. pose proof (Hv _ Hi) as V. rewrite config_view_none in V.
    + injection V as H1 H2 _ _. rewrite H1, H2. by apply gic_init_ok.
    + intros e He Eu. apply Hn. rewrite Forall_forall in Hlt. rewrite u8_id in Eu by (by apply Hlt). subst i. by apply list_elem_of_fmap_2.
  - intros i Hi. pose proof (f_equal v_edge (Hv i Hi)) as V. by rewrite config_view_edge in V.
Qed.

(** ** Interrupt numbers from 256 on *)

(** What the kernel and its users do with the controller. *)
Inductive drv : M → M → Prop :=
  | drv_dis n m : drv m (x_disable_int cfgint n m).2
  | drv_ena n m : drv m (x_enable_int cfgint n m).2
  | drv_clr n m : drv m (x_clear_int n m)
  | drv_prb n m : drv m (x_probe_int n m).2
  | drv_cfg n atr p m m' : x_config_int cfgint n atr p m = Some m' → drv m m'
  | drv_set p m : RZA1_TMIN_INTPRI ≤ p ≤ 0 → drv m (x_set_ipm p m)
  | drv_get m : drv m (x_get_ipm m).2.

Lemma u8_lt n : 0 ≤ u8 n < 256.
Proof. apply u8_range. Qed.

Lemma drv_high m m' i : drv m m' → line i → 256 ≤ i → enabled m' i = enabled m i.
Proof.
  intros Hd Hi Hge. assert (Hne : ∀ n, (i =? u8 n) = false) by (intros n; apply Z.eqb_neq; pose proof (u8_lt n); lia).
  assert (Hdis : ∀ n m, enabled (x_disable_int cfgint n m).2 i = enabled m i).
  { intros n m0. unfold x_disable_int. destruct (cfgint n); [|done]. simpl.
    by rewrite (proj2 (gicd_disable_ok _ _ (u8_lt n))), Hne, andb_true_r. }
  assert (Hena : ∀ n m, enabled (x_enable_int cfgint n m).2 i = enabled m i).
  { intros n m0. unfold x_enable_int. destruct (cfgint n); [|done]. simpl.
    by rewrite (proj2 (gicd_enable_ok _ _ (u8_lt n))), Hne, orb_false_r. }
  assert (Hclr : ∀ n m, enabled (x_clear_int n m) i = enabled m i) by (intros n m0; by apply (gicd_clear_ok _ _ (u8_lt n))).
  destruct Hd as [| | |n m| n atr p m m' E|p m Hp|m]; [apply Hdis|apply Hena|apply Hclr|..].
  - unfold x_probe_int, gicd_probe_int. destruct (hw_rd_same (ASP_GICD_ICDISPR + id_addr (u8 n)) m) as [He _].
    destruct (sil_rew_mem _ m). by apply He.
  - unfold x_config_int in E. destruct (negb (VALID_INTNO n)); [done|]. destruct ((RZA1_TMIN_INTPRI <=? p) && (p <=? RZA1_TMAX_INTPRI)) eqn:Er; [|done].
    apply andb_true_iff in Er as [E1%Z.leb_le E2%Z.leb_le]. destruct (INT_IPM_ok p) as [Ep Hp]; [unfold RZA1_TMAX_INTPRI in *; lia|].
    simpl in E. rewrite !gicd_config_nothing in E by apply u8_lt. injection E as <-.
    set (m1 := if bits atr TA_EDGE then _ else _).
    assert (H1 : enabled m1 i = enabled m i) by (unfold m1; destruct (bits atr TA_EDGE); by rewrite ?Hclr, Hdis).
    rewrite Ep. destruct (gicd_set_priority_ok (u8 n) (p + 31) m1 (u8_lt n) Hp) as (_ & He2 & _).
    destruct (gicd_set_target_ok (u8 n) (gicd_set_priority (u8 n) (p + 31) m1) (u8_lt n)) as (_ & He3 & _).
    destruct (bits atr TA_ENAINT); by rewrite ?Hena, He3, He2.
  - unfold x_set_ipm, set_iipm. destruct (INT_IPM_ok p Hp) as [-> Hr]. by apply (set_pmr_ok (p + 31) m Hr).
  - unfold x_get_ipm, current_iipm, gicc_current_priority. destruct (hw_rd_same ASP_GICC_ICCPMR m) as [He _].
    destruct (sil_rew_mem ASP_GICC_ICCPMR m). by apply He.
Qed.

(** C26: once the controller is initialized, no sequence of configurations,
    of dis_int, ena_int and the other operations ever enables an interrupt
    line from 256 on, although [VALID_INTNO] accepts the numbers up to 586:
    [gicd_enable_int] takes the number as [uint8_t].  What enabling such a
    line does instead is to enable line [n mod 256], and it reports
    success. *)
Theorem interrupts_from_256_stay_disabled n m m' :
  rtc drv (gicc_init (gicd_init m)) m' → line n → 256 ≤ n → cfgint n = true →
  VALID_INTNO n = true ∧ enabled m' n = false ∧
  (x_enable_int cfgint n m').1 = true ∧ enabled (x_enable_int cfgint n m').2 n = false ∧
  (line (u8 n) → enabled (x_enable_int cfgint n m').2 (u8 n) = true).
Proof.
  intros Hr Hn Hge Hc.
  assert (He : enabled m' n = false).
  { remember (gicc_init (gicd_init m)) as m0 eqn:E0. assert (H0 : enabled m0 n = false) by (subst; by apply gic_init_ok). clear E0.
    induction Hr as [|x y z Hxy _ IH]; [done|]. apply IH. by rewrite (drv_high x y n). }
  split_and!.
  - unfold VALID_INTNO. unfold line, GIC_TNUM_INT in Hn. apply andb_true_iff. split; apply Z.leb_le; unfold GIC_TMIN_INTNO, GIC_TMAX_INTNO; lia.
  - done.
  - unfold x_enable_int. by rewrite Hc.
  - by rewrite (drv_high m' _ n (drv_ena n m')).
  - intros Hu. unfold x_enable_int. rewrite Hc. simpl. rewrite (proj2 (gicd_enable_ok _ _ (u8_lt n))) by done.
    by rewrite Z.eqb_refl, orb_true_r.
Qed.
End lines.

(** ** The priority mask and the interrupts that pass *)

Section mask.
Context {M : Type} `{HW : GICHW M} (cfgint : Z → bool).
Implicit Types (m : M) (i : Z).

(** C25: a line below 256 that was configured with priority [q], after which
    the mask was set to [p]: the mask reads back as [p]; a pending interrupt
    of the line is signalled exactly when the line is enabled and [q] is a
    higher priority than the mask ([q < p]; TIPM_ENAALL masks nothing), and
    the pending interrupts of all other lines as their own settings say. *)
Theorem priority_mask_correct n atr q p m :
  cfgint n = true → line n → n < 256 → valid_intpri q → RZA1_TMIN_INTPRI ≤ p ≤ TIPM_ENAALL →
  ∃ m', x_config_int cfgint n atr q m = Some m' ∧
    (x_get_ipm (x_set_ipm p m')).1 = p ∧
    signals (x_set_ipm p m') n = bits atr TA_ENAINT && pending (x_set_ipm p m') n && (q <? p) ∧
    ∀ i, line i → i ≠ n →
      signals (x_set_ipm p m') i = enabled m i && pending (x_set_ipm p m') i && (pri m i <? INT_IPM p).
Proof.
  intros Hc Hn Hlt Hq Hp.
  assert (HV : VALID_INTNO n = true).
  { apply andb_true_iff. unfold line, GIC_TNUM_INT, GIC_TMIN_INTNO, GIC_TMAX_INTNO in *. split; apply Z.leb_le; lia. }
  destruct (x_config_int_views cfgint n atr q m Hc HV Hq) as (m' & E & _ & Hv). exists m'. split; [done|].
  destruct (set_ipm_ok p m' Hp) as [Hpmr Hsame]. rewrite get_ipm_pmr, Hpmr. split; [lia|].
  rewrite u8_id in Hv by (unfold line in Hn; lia).
  destruct (INT_IPM_ok p Hp) as [EI _]. unfold signals. rewrite Hpmr, EI. split.
  - specialize (Hsame n Hn). rewrite Hv, Z.eqb_refl in Hsame by done. injection Hsame as -> -> _ _.
    f_equal. destruct (Z.ltb_spec (q + 31) (p + 31)), (Z.ltb_spec q p); lia || done.
  - intros i Hi Hne. specialize (Hsame i Hi). rewrite Hv in Hsame by done. rewrite (proj2 (Z.eqb_neq i n) Hne) in Hsame.
    by injection Hsame as -> -> _ _.
Qed.
End mask.

(** ** The kernel's state is that of the controller *)

Section kernel.
Context {cfg : Config} {M : Type} `{HW : GICHW M}.
Implicit Types (s : State) (m : M).

(** The mask, and the lines with attributes that the driver can reach. *)
Definition IntRel s m : Prop :=
  (x_get_ipm m).1 = c_ipm (cpu s) ∧
  ∀ i, line i → i < 256 → cfgint_tbl i = true → enabled m i = negb (c_int_disabled (cpu s) i).

Lemma IntRel_views s m m' : IntRel s m → pmr m' = pmr m → (∀ i, line i → view_of m' i = view_of m i) → IntRel s m'.
Proof.
  intros [H1 H2] Hp Hv. split; [by rewrite get_ipm_pmr, Hp, <- get_ipm_pmr|].
  intros i Hi Hlt Hc. specialize (Hv i Hi). injection Hv as -> _ _ _. by apply H2.
Qed.

(** The lock of the processor is not in the controller. *)
Lemma IntRel_lock s m b : IntRel s m → IntRel (upd_cpu (fun c => c <| c_lock := b |>) s) m.
Proof. done. Qed.

Lemma IntRel_disabled s m n b (m' : M) : 0 ≤ n < 256 → IntRel s m → cfgint_tbl n = true → pmr m' = pmr m →
  (∀ i, line i → enabled m' i = if i =? n then negb b else enabled m i) →
  IntRel (upd_cpu (fun c => c <| c_int_disabled ::= fun D => <[n := b]> D |>) s) m'.
Proof.
  intros Hn [H1 H2] Hc Hp He. split; [rewrite get_ipm_pmr, Hp, <- get_ipm_pmr; done|].
  intros i Hi Hlt Hci. rewrite He by done. simpl. destruct (Z.eqb_spec i n) as [->|Hne].
  - by rewrite fn_lookup_insert.
  - rewrite fn_lookup_insert_ne by done. by apply H2.
Qed.

Lemma x_disable_rel s m n : 0 ≤ n < 256 → IntRel s m → cfgint_tbl n = true →
  IntRel (upd_cpu (fun c => c <| c_int_disabled ::= fun D => <[n := true]> D |>) s) (x_disable_int cfgint_tbl n m).2.
Proof.
  intros Hn HR Hc. unfold x_disable_int. rewrite Hc. simpl. rewrite u8_id by done.
  assert (Hl : line 16) by (unfold line, GIC_TNUM_INT; lia).
  apply (IntRel_disabled _ m); [done..|by apply (disable_view n Hn m 16)|].
  intros i Hi. rewrite (proj2 (gicd_disable_ok n m Hn)) by done. destruct (i =? n); [by rewrite andb_false_r|by rewrite andb_true_r].
Qed.

Lemma x_enable_rel s m n : 0 ≤ n < 256 → IntRel s m → cfgint_tbl n = true →
  IntRel (upd_cpu (fun c => c <| c_int_disabled ::= fun D => <[n := false]> D |>) s) (x_enable_int cfgint_tbl n m).2.
Proof.
  intros Hn HR Hc. unfold x_enable_int. rewrite Hc. simpl. rewrite u8_id by done.
  assert (Hl : line 16) by (unfold line, GIC_TNUM_INT; lia).
  apply (IntRel_disabled _ m); [done..|by apply (enable_view n Hn m 16)|].
  intros i Hi. rewrite (proj2 (gicd_enable_ok n m Hn)) by done. destruct (i =? n); [by rewrite orb_true_r|by rewrite orb_false_r].
Qed.

Lemma x_set_ipm_rel s m p : RZA1_TMIN_INTPRI ≤ p ≤ 0 → IntRel s m →
  IntRel (upd_cpu (fun c => c <| c_ipm := p |>) s) (x_set_ipm p m).
Proof.
  intros Hp [H1 H2]. destruct (set_ipm_ok p m Hp) as [Hpmr Hv]. split; [rewrite get_ipm_pmr, Hpmr; simpl; lia|].
  intros i Hi Hlt Hc. specialize (Hv i Hi). injection Hv as -> _ _ _. by apply H2.
Qed.

(** C18: while the interrupts of the kernel's state are those of the
    controller, dis_int and ena_int for numbers below 256 and chg_ipm (to a
    mask other than TIPM_ENAALL, which also dispatches) return what the chip's
    functions say, and afterwards the state is again that of the controller
    on which those functions have run; get_ipm returns the hardware's mask. *)
Theorem interrupt_state_refinement s m n rounds p :
  IntRel s m → sense_context s = false →
  VALID_INTNO_DISINT n = true → 0 ≤ n < 256 → RZA1_TMIN_INTPRI = TMIN_INTPRI → TMIN_INTPRI ≤ p < TIPM_ENAALL →
  (∃ s', dis_int n s = RET (if (x_disable_int cfgint_tbl n m).1 then E_OK else E_OBJ) s' ∧
    IntRel s' (x_disable_int cfgint_tbl n m).2) ∧
  (∃ s', ena_int n s = RET (if (x_enable_int cfgint_tbl n m).1 then E_OK else E_OBJ) s' ∧
    IntRel s' (x_enable_int cfgint_tbl n m).2) ∧
  (sense_lock s = false →
    (∃ s', chg_ipm rounds p s = RET E_OK s' ∧ IntRel s' (x_set_ipm p m)) ∧
    (∃ s', get_ipm s = RET (E_OK, Some (x_get_ipm m).1) s' ∧ IntRel s' m)).
Proof.
  intros HR Hctx Hv Hn Hmin Hp.
  split_and!; [..|intros Hl; split].
  - unfold dis_int, CHECK_TSKCTX, CHECK_INTNO_DISINT, CHECK_PAR, check, kget. rewrite Hctx, Hv. simpl.
    unfold set_int_disabled. destruct (cfgint_tbl n) eqn:Hc; simpl.
    + pose proof (x_disable_rel s m n Hn HR Hc) as HR'. unfold x_disable_int at 1. rewrite Hc.
      destruct (sense_lock s); eexists; (split; [done|exact HR']).
    + unfold x_disable_int. rewrite Hc. destruct (sense_lock s); eexists; (split; [done|exact HR]).
  - unfold ena_int, CHECK_TSKCTX, CHECK_INTNO_DISINT, CHECK_PAR, check, kget. rewrite Hctx, Hv. simpl.
    unfold set_int_disabled. destruct (cfgint_tbl n) eqn:Hc; simpl.
    + pose proof (x_enable_rel s m n Hn HR Hc) as HR'. unfold x_enable_int at 1. rewrite Hc.
      destruct (sense_lock s); eexists; (split; [done|exact HR']).
    + unfold x_enable_int. rewrite Hc. destruct (sense_lock s); eexists; (split; [done|exact HR]).
  - unfold chg_ipm, CHECK_TSKCTX_UNL, CHECK_INTPRI_CHGIPM, VALID_INTPRI_CHGIPM, CHECK_PAR, check. rewrite Hctx, Hl. simpl.
    rewrite (proj2 (Z.leb_le TMIN_INTPRI p)), (proj2 (Z.leb_le p TIPM_ENAALL)) by lia. simpl.
    rewrite (proj2 (Z.eqb_neq p TIPM_ENAALL)) by lia.
    eexists. split; [done|]. unfold TIPM_ENAALL in Hp. apply (x_set_ipm_rel s m p); [lia|done].
  - unfold get_ipm, CHECK_TSKCTX_UNL, check, kget. rewrite Hctx, Hl. simpl.
    eexists. unfold get_ipm_. simpl. split; [by rewrite (proj1 HR)|done].
Qed.
End kernel.

(** ** A controller *)

Module GicExample.

(** Enable bits, words of pending bits, the other registers. *)
Record GIC := mkGIC { en : Z → bool; pend : Z → Z; regs : Z → Z }.

Definition imp (a : Z) : Z :=
  if (ASP_GICD_ICDIPR <=? a) && (a <? ASP_GICD_ICDIPTR) then 0xF8F8F8F8
  else if a =? ASP_GICC_ICCPMR then 0xF8 else 0xFFFFFFFF.
Definition wd (c : GIC) (a : Z) : Z := Z.land (u32 (regs c a)) (imp a).
Definition is_pending_reg (a : Z) : bool := (ASP_GICD_ICDISPR <=? a) && (a <? ASP_GICD_ICDICPR).

#[export] Instance example_regs : GICREGS GIC := {|
  sil_rew_mem a c :=
    (if is_pending_reg a then u32 (pend c ((a - ASP_GICD_ICDISPR) / 4)) else wd c a, c);
  sil_wrw_mem a v c :=
    mkGIC (fun i =>
        if a =? ASP_GICD_ICDISER + 4 * (i / 32) then en c i || Z.testbit v (i `mod` 32)
        else if a =? ASP_GICD_ICDICER + 4 * (i / 32) then en c i && negb (Z.testbit v (i `mod` 32))
        else en c i)
      (pend c) (<[a := v]> (regs c)) |}.

Lemma imp_range a : 0 ≤ imp a < 2^32.
Proof. unfold imp. destruct (_ && _); [lia|]. destruct (_ =? _); lia. Qed.

Lemma wd_range c a : 0 ≤ wd c a < 2^32.
Proof. apply land_range; [done|]. apply u32_range. Qed.

Lemma stored_not_pending a : stored a → is_pending_reg a = false.
Proof.
  intros [->|Ha]%stored_high; [done|]. apply andb_false_iff. right. apply Z.ltb_ge. addr. unfold ASP_GICD_ICDICPR, ASP_GICD_BASE. lia.
Qed.

#[export, refine] Instance example_gic : GICHW GIC := {|
  enabled c := en c;
  pending c i := Z.testbit (u32 (pend c (i / 32))) (i `mod` 32);
  word := wd;
  impl := imp |}.
Proof.
  - intros a c _. split; [apply wd_range|]. unfold wd. rewrite <- Z.land_assoc. by rewrite Z.land_diag.
  - intros a c. simpl. destruct (is_pending_reg a); [apply u32_range|apply wd_range].
  - intros a c Ha. simpl. by rewrite stored_not_pending.
  - intros i c Hi. simpl. pose proof (line_div i 32 Hi). pose proof (Z.div_lt_upper_bound i 32 19).
    assert (E : is_pending_reg (ASP_GICD_ICDISPR + 4 * (i / 32)) = true).
    { apply andb_true_iff. split; [apply Z.leb_le|apply Z.ltb_lt]; unfold ASP_GICD_ICDICPR; addr; lia. }
    rewrite E. do 3 f_equal. replace (_ - _) with ((i / 32) * 4) by lia. by apply Z.div_mul.
  - done.
  - done.
  - intros a v c _ Hv. unfold wd. simpl. rewrite fn_lookup_insert. by rewrite u32_id.
  - intros a v c a' _ Hne. unfold wd. simpl. by rewrite fn_lookup_insert_ne.
  - intros i Hi. pose proof (line_div i 4 Hi). pose proof (Z.div_lt_upper_bound i 4 147).
    assert (E : imp (pri_addr i) = 0xF8F8F8F8).
    { unfold imp. replace (_ && _) with true; [done|]. symmetry. apply andb_true_iff. split; [apply Z.leb_le|apply Z.ltb_lt]; addr; lia. }
    rewrite E. assert (i `mod` 4 = 0 ∨ i `mod` 4 = 1 ∨ i `mod` 4 = 2 ∨ i `mod` 4 = 3) as [->|[->|[->| ->]]]; [|done..].
    pose proof (Z.mod_pos_bound i 4). lia.
  - done.
Defined.

Definition reset : GIC := mkGIC (fun _ => false) (fun _ => 0) (fun _ => 0).
Definition all_lines (_ : Z) : bool := true.
Definition tables : list INTINIB := [mkINTINIB 134 TA_ENAINT (-4); mkINTINIB 229 (Z.lor TA_ENAINT TA_EDGE) (-2)].
Definition handlers : list INHINIB := [mkINHINIB 134 0 0x1000].

Ltac small := repeat match goal with
  | |- Forall _ _ => constructor
  | |- _ ∧ _ => split
  end; unfold valid_line, valid_inh, valid_intpri, line, GIC_TNUM_INT, GIC_TMIN_INTNO, GIC_TMAX_INTNO, RZA1_TMIN_INTPRI, RZA1_TMAX_INTPRI, GIC_PRI_LEVEL; simpl; try done; try lia.

Lemma initialize_interrupt_correct_witness :
  ∃ m', initialize_interrupt all_lines handlers tables (gicc_init (gicd_init reset)) = Some m' ∧
    (x_get_ipm m').1 = 0 ∧
    (∀ e, e ∈ tables → line (intno e) →
      enabled m' (intno e) = bits (intatr e) TA_ENAINT ∧ pri m' (intno e) = INT_IPM (intpri e) ∧
      target m' (intno e) = cpu0 (intno e)) ∧
    (∀ i, line i → i ∉ (intno <$> tables) → enabled m' i = false ∧ pri m' i = INT_IPM 0) ∧
    (∀ i, line i → edge_bits m' i = edge_bits (gicc_init (gicd_init reset)) i).
Proof.
  apply (initialize_interrupt_correct all_lines handlers tables reset); [small..|].
  apply NoDup_cons; split; [|apply NoDup_singleton]. simpl. rewrite list_elem_of_singleton. lia.
Defined.

Lemma interrupts_from_256_stay_disabled_witness :
  let m' := (x_enable_int all_lines 300 (gicc_init (gicd_init reset))).2 in
  VALID_INTNO 359 = true ∧ enabled m' 359 = false ∧
  (x_enable_int all_lines 359 m').1 = true ∧ enabled (x_enable_int all_lines 359 m').2 359 = false ∧
  (line (u8 359) → enabled (x_enable_int all_lines 359 m').2 (u8 359) = true).
Proof.
  apply (interrupts_from_256_stay_disabled all_lines 359 reset); [|small..].
  apply rtc_once, (drv_ena all_lines 300).
Defined.

Lemma priority_mask_correct_witness :
  ∃ m', x_config_int all_lines 134 TA_ENAINT (-4) reset = Some m' ∧
    (x_get_ipm (x_set_ipm (-3) m')).1 = -3 ∧
    signals (x_set_ipm (-3) m') 134 = bits TA_ENAINT TA_ENAINT && pending (x_set_ipm (-3) m') 134 && (-4 <? -3) ∧
    ∀ i, line i → i ≠ 134 →
      signals (x_set_ipm (-3) m') i = enabled reset i && pending (x_set_ipm (-3) m') i && (pri reset i <? INT_IPM (-3)).
Proof. apply (priority_mask_correct all_lines 134 TA_ENAINT (-4) (-3) reset); small. Defined.

(** The example kernel, whose only line with attributes is 33. *)
Import Kernel.Example.
Definition running : GIC := mkGIC (fun i => i =? 33) (fun _ => 0) (fun a => if a =? ASP_GICC_ICCPMR then 0xF8 else 0).

Lemma running_rel : IntRel kernel running.
Proof. split; [done|]. intros i _ _ Hi. simpl in *. by rewrite Hi. Qed.

Lemma interrupt_state_refinement_witness :
  (∃ s', dis_int 33 kernel = RET E_OK s' ∧ IntRel s' (x_disable_int cfgint_tbl 33 running).2) ∧
  (∃ s', ena_int 33 kernel = RET E_OK s' ∧ IntRel s' (x_enable_int cfgint_tbl 33 running).2) ∧
  (sense_lock kernel = false →
    (∃ s', chg_ipm 0 (-2) kernel = RET E_OK s' ∧ IntRel s' (x_set_ipm (-2) running)) ∧
    (∃ s', get_ipm kernel = RET (E_OK, Some (x_get_ipm running).1) s' ∧ IntRel s' running)).
Proof.
  refine (interrupt_state_refinement kernel running 33 0 (-2) running_rel _ _ _ _ _); small.
Defined.
End GicExample.
