(* ===== verification/Exception.v ===== *)
(** * The context in which a CPU exception occurred (core_kernel.h,
    core_config.h of arch/arm_gcc/common)

    The entry code stores the interrupted context in a frame on the stack;
    [xsns_dpn] and [xsns_xpn] of the kernel look at it through
    [exc_sense_intmask]. *)

From S2P Require Import Prelude Data Bits Kmonad Core SysManage Interrupt Kernel.
Open Scope Z_scope.

Definition CPSR_IRQ_BIT := 0x80.
Definition CPSR_FIQ_BIT := 0x40.
Definition CPSR_CPULOCK := CPSR_IRQ_BIT.
Definition CPSR_INTLOCK := Z.lor CPSR_FIQ_BIT CPSR_IRQ_BIT.

(** The fields of the frame that the kernel reads. *)
Record exc_frame_t := mk_exc_frame { nest_count : Z; exc_ipm : Z; cpsr : Z }.
Implicit Types f : exc_frame_t.

Definition exc_sense_context f : bool := negb (nest_count f =? 0).
(** [(PRI)] of an unsigned word. *)
Definition exc_get_ipm f : Z := let x := u32 (exc_ipm f) in if x <? 2^31 then x else x - 2^32.
Definition exc_get_sr f : Z := cpsr f.
Definition exc_sense_lock f : bool := Z.land (exc_get_sr f) CPSR_CPULOCK =? CPSR_CPULOCK.
Definition exc_sense_int_lock f : bool := Z.land (exc_get_sr f) CPSR_INTLOCK =? CPSR_INTLOCK.
Definition exc_sense_intmask f : bool :=
  negb (exc_sense_context f) && (exc_get_ipm f =? 0) && negb (exc_sense_lock f) && negb (exc_sense_int_lock f).

(** On this target the initialization of the exceptions is empty. *)
Definition initialize_exception : K () := ret ().

(** The frame tells of the state [s]: the nesting, the mask, and the IRQ bit
    of the status register, which is the lock of the processor. *)
Definition frame_of (s : State) f : Prop :=
  exc_sense_context f = sense_context s ∧ exc_get_ipm f = c_ipm (cpu s) ∧ Z.testbit (cpsr f) 7 = sense_lock s.

Lemma exc_sense_lock_bit f : exc_sense_lock f = Z.testbit (cpsr f) 7.
Proof.
  unfold exc_sense_lock, exc_get_sr, CPSR_CPULOCK, CPSR_IRQ_BIT. change 0x80 with (2^7). rewrite land_pow2 by lia.
  by destruct (Z.testbit (cpsr f) 7).
Qed.

(** With all interrupts locked the processor is locked. *)
Lemma exc_int_lock_lock f : exc_sense_int_lock f = true → exc_sense_lock f = true.
Proof.
  unfold exc_sense_int_lock, exc_get_sr. rewrite exc_sense_lock_bit. intros E%Z.eqb_eq.
  apply (f_equal (fun x => Z.testbit x 7)) in E. rewrite Z.land_spec in E. change (Z.testbit CPSR_INTLOCK 7) with true in E.
  by rewrite andb_true_r in E.
Qed.

Lemma exc_intmask_of s f : frame_of s f →
  exc_sense_intmask f = negb (sense_context s) && (c_ipm (cpu s) =? 0) && negb (sense_lock s).
Proof.
  intros (E1 & E2 & E3). unfold exc_sense_intmask. rewrite E1, E2, <- E3, <- exc_sense_lock_bit.
  destruct (exc_sense_int_lock f) eqn:E; [rewrite (exc_int_lock_lock f E)|]; simpl; by rewrite ?andb_false_r, ?andb_true_r.
Qed.

Section exc.
Context {cfg : Config}.

(** An exception handler asks in the state [s'] about the interrupted state
    [s]: while the kernel runs and the dispatching of [s] follows from its mask
    and [disdsp], [xsns_dpn] returns what [sns_dpn] would have returned in
    [s]; and [xsns_xpn] returns false only if the interrupted task was in
    such a state with its exceptions enabled. *)
Theorem xsns_dpn_is_sns_dpn s s' f :
  frame_of s f → c_kerflg (cpu s') = true → disdsp s' = disdsp s → p_runtsk s' = p_runtsk s →
  dspflg s = negb (disdsp s) && (c_ipm (cpu s) =? 0) →
  (∃ b, sns_dpn s = RET b s ∧ xsns_dpn (exc_sense_intmask f) s' = RET b s') ∧
  (∀ t, p_runtsk s = Some t → xsns_xpn (exc_sense_intmask f) s' =
    RET (sense_context s || sense_lock s || negb (c_ipm (cpu s) =? 0) || negb (enatex (tcb_table s' t))) s').
Proof.
  intros Hf Hk Hd Hr Hdsp. unfold sns_dpn, xsns_dpn, xsns_xpn, kget, deref. rewrite (exc_intmask_of s f Hf), Hk, Hd, Hr, Hdsp.
  destruct (sense_context s), (sense_lock s), (disdsp s), (c_ipm (cpu s) =? 0); simpl; (split; [by eexists|intros t Ht; by rewrite ?Ht]).
Qed.
End exc.

(** An exception of the example's running task. *)
Lemma xsns_dpn_is_sns_dpn_witness :
  let s := Kernel.Example.kernel in
  (∃ b, sns_dpn s = RET b s ∧ xsns_dpn (exc_sense_intmask (mk_exc_frame 0 0 0x13)) s = RET b s) ∧
  (∀ t, p_runtsk s = Some t → xsns_xpn (exc_sense_intmask (mk_exc_frame 0 0 0x13)) s =
    RET (sense_context s || sense_lock s || negb (c_ipm (cpu s) =? 0) || negb (enatex (tcb_table s t))) s).
Proof. apply (xsns_dpn_is_sns_dpn Kernel.Example.kernel Kernel.Example.kernel); try reflexivity. by split_and!. Defined.
