(* ===== verification/Messagebuf.v ===== *)
(** * Message buffers (extension/messagebuf/kernel/messagebuf.c, messagebuf.h)

    Messages of any length in a ring of bytes, each behind a word with its
    length, and the tasks that wait to send and to receive.  What the message
    buffer needs of the kernel (completing a wait, the priorities) is the class
    [MBFKERNEL]: the extension has kernel files of its own.  A message is the
    list of its bytes, [msgsz] its length; the memory is the function from the
    offset in the area to the byte. *)

From S2P Require Import Prelude Data.
Open Scope Z_scope.

(** ** The area of the buffer *)

Record MBFINIB := mkMBFINIB { mbfatr : Z; maxmsz : Z; mbfsz : Z }.
Record MBFCB := mkMBFCB {
  p_mbfinib : MBFINIB; mbuffer : Z → Z; fmbfsz : Z; mbf_head : Z; mbf_tail : Z; smbfcnt : Z }.
#[export] Instance eta_MBFCB : Eta MBFCB := fun r =>
  mkMBFCB (p_mbfinib r) (mbuffer r) (fmbfsz r) (mbf_head r) (mbf_tail r) (smbfcnt r).

Definition sizeof_uint_t := 4.
Definition TOPPERS_ROUND_SZ (sz unit : Z) : Z := u32 (Z.land (u32 (sz + unit - 1)) (Z.lnot (unit - 1))).

(** [memcpy] to [mbuffer[off]], and from it. *)
Definition write_bytes (off : Z) (l : list Z) (mb : Z → Z) : Z → Z :=
  fun i => if off <=? i then nth (Z.to_nat (i - off)) l (mb i) else mb i.
Definition read_bytes (off n : Z) (mb : Z → Z) : list Z := mb <$> seqZ off n.

(** A word in memory, the least significant byte first. *)
Definition word_bytes (x : Z) : list Z :=
  [x `mod` 2^8; (x / 2^8) `mod` 2^8; (x / 2^16) `mod` 2^8; (x / 2^24) `mod` 2^8].
Definition word_of (l : list Z) : Z := foldr (fun b x => b + 2^8 * x) 0 l.

Section area.
Implicit Types (c : MBFCB) (msg : list Z).
Notation size c := (mbfsz (p_mbfinib c)).

(** One entry of the table of [initialize_messagebuf]. *)
Definition initialize_mbfcb (inib : MBFINIB) c : MBFCB :=
  c <| p_mbfinib := inib |> <| fmbfsz := mbfsz inib |> <| mbf_head := 0 |> <| mbf_tail := 0 |> <| smbfcnt := 0 |>.

(** [if (pos >= mbfsz) pos = 0]. *)
Definition wrap c (pos : Z) : Z := if size c <=? pos then 0 else pos.

Definition enqueue_message c msg : bool * MBFCB :=
  let msgsz := Z.of_nat (length msg) in
  let allocsz := u32 (sizeof_uint_t + TOPPERS_ROUND_SZ msgsz sizeof_uint_t) in
  if allocsz <=? fmbfsz c then
    let c := c <| mbuffer ::= write_bytes (mbf_tail c) (word_bytes msgsz) |> in
    let c := c <| mbf_tail := wrap c (u32 (mbf_tail c + sizeof_uint_t)) |> in
    let remsz := u32 (size c - mbf_tail c) in
    let '(c, msg) :=
      if remsz <? msgsz then
        (c <| mbuffer ::= write_bytes (mbf_tail c) (take (Z.to_nat remsz) msg) |> <| mbf_tail := 0 |>,
         drop (Z.to_nat remsz) msg)
      else (c, msg) in
    let msgsz := Z.of_nat (length msg) in
    let c := c <| mbuffer ::= write_bytes (mbf_tail c) msg |> in
    let c := c <| mbf_tail := wrap c (u32 (mbf_tail c + TOPPERS_ROUND_SZ msgsz sizeof_uint_t)) |> in
    (true, c <| fmbfsz := u32 (fmbfsz c - allocsz) |> <| smbfcnt := u32 (smbfcnt c + 1) |>)
  else (false, c).

(** [None]: the assertion that there is a message fails. *)
Definition dequeue_message c : option (list Z * MBFCB) :=
  if 0 <? smbfcnt c then
    let msgsz := word_of (read_bytes (mbf_head c) sizeof_uint_t (mbuffer c)) in
    let c := c <| mbf_head := wrap c (u32 (mbf_head c + sizeof_uint_t)) |> in
    let remsz := u32 (size c - mbf_head c) in
    let '(c, part, copysz) :=
      if remsz <? msgsz then
        (c <| mbf_head := 0 |>, read_bytes (mbf_head c) remsz (mbuffer c), msgsz - remsz)
      else (c, [], msgsz) in
    let msg := part ++ read_bytes (mbf_head c) copysz (mbuffer c) in
    let c := c <| mbf_head := wrap c (u32 (mbf_head c + TOPPERS_ROUND_SZ copysz sizeof_uint_t)) |> in
    Some (msg, c <| fmbfsz := u32 (fmbfsz c + (sizeof_uint_t + TOPPERS_ROUND_SZ msgsz sizeof_uint_t)) |>
      <| smbfcnt := u32 (smbfcnt c - 1) |>)
  else None.
End area.

(** ** Sending and receiving *)

(** What message buffers use of the kernel. *)
Class MBFKERNEL (S : Type) := {
  wait_complete : nat → S → bool * S;
  make_non_wait_ini : nat → S → bool * S;
  priority : S → nat → Z;
  runtsk : S → nat }.

(** A message buffer, the wait information blocks of the waiting tasks
    ([smsg]: what a task sends, [rmsg]: what a receiver got, none while it
    waits), and the rest of the kernel. *)
Record MBF (S : Type) := mkMBF {
  mcb : MBFCB; swait_queue : list nat; rwait_queue : list nat; smsg : nat → list Z; rmsg : nat → option (list Z);
  rest : S }.
Arguments mkMBF {S}. Arguments mcb {S}. Arguments swait_queue {S}. Arguments rwait_queue {S}.
Arguments smsg {S}. Arguments rmsg {S}. Arguments rest {S}.
#[export] Instance eta_MBF S : Eta (MBF S) := fun r =>
  mkMBF (mcb r) (swait_queue r) (rwait_queue r) (smsg r) (rmsg r) (rest r).

Section messagebuf.
Context {S : Type} `{MBFKERNEL S}.
Implicit Types (b : MBF S) (msg : list Z) (t : nat).

Definition completed t b : bool * MBF S :=
  let '(d, s) := wait_complete t (rest b) in (d, b <| rest := s |>).

Definition have_precedence b : bool :=
  match swait_queue b with
  | [] => true
  | t :: _ => bits (mbfatr (p_mbfinib (mcb b))) TA_TPRI && (priority (rest b) (runtsk (rest b)) <? priority (rest b) t)
  end.

(** The result, [*p_dspreq] and the state. *)
Definition send_message msg b : bool * bool * MBF S :=
  match rwait_queue b with
  | t :: q =>
      let b := b <| rwait_queue := q |> in
      let b := b <| rmsg ::= fun R => <[t := Some msg]> R |> in
      let '(d, b) := completed t b in (true, d, b)
  | [] =>
      if have_precedence b then
        let '(ok, c) := enqueue_message (mcb b) msg in (ok, false, b <| mcb := c |>)
      else (false, false, b)
  end.

(** [while (!queue_empty(&(p_mbfcb->swait_queue)))]: every turn but the last
    takes a task from the queue [q]. *)
Fixpoint signal_loop (q : list nat) (dspreq : bool) b : bool * MBF S :=
  match q with
  | [] => (dspreq, b)
  | t :: q =>
      let '(ok, c) := enqueue_message (mcb b) (smsg b t) in
      if ok then
        let b := b <| mcb := c |> in
        let b := b <| swait_queue := q |> in
        let '(d, b) := completed t b in
        signal_loop q (if d : bool then true else dspreq) b
      else (dspreq, b <| mcb := c |>)
  end.
Definition messagebuf_signal b : bool * MBF S := signal_loop (swait_queue b) false b.

(** The message (its length is the result; none is [0U]), [*p_dspreq] and the
    state.  [None]: the assertion of [dequeue_message]. *)
Definition receive_message b : option (list Z * bool * MBF S) :=
  if 0 <? smbfcnt (mcb b) then
    '(msg, c) ← dequeue_message (mcb b);
    let '(d, b) := messagebuf_signal (b <| mcb := c |>) in Some (msg, d, b)
  else
    match swait_queue b with
    | t :: q =>
        let b := b <| swait_queue := q |> in
        let '(d, b) := completed t b in Some (smsg b t, d, b)
    | [] => Some ([], false, b)
    end.

(** The hooks of the wait module: a sender has left the queue, and the
    priority of one has changed. *)
Definition messagebuf_dequeue_wobj b : bool * MBF S := messagebuf_signal b.
Definition messagebuf_change_priority b : bool * MBF S := messagebuf_signal b.

(** [queue_insert_tpri] and [queue_insert_prev], as the attribute says. *)
Definition swait_insert t b : MBF S :=
  b <| swait_queue ::= fun q =>
    if bits (mbfatr (p_mbfinib (mcb b))) TA_TPRI
    then insert_before_first (fun t' => priority (rest b) t <? priority (rest b) t') t q
    else q ++ [t] |>.

(** ** The service calls, inside the lock of the processor

    [Ret ercd dspreq]: the call dispatches when [dspreq] says so and returns
    [ercd]; [Waits]: the calling task waits and [make_wait] has been called for
    it. *)
Inductive outcome := Ret (ercd : Z) (dspreq : bool) | Waits.

Definition snd_mbf msg b : outcome * MBF S :=
  if negb ((0 <? Z.of_nat (length msg)) && (Z.of_nat (length msg) <=? maxmsz (p_mbfinib (mcb b)))) then (Ret E_PAR false, b)
  else
    match send_message msg b with
    | (true, d, b) => (Ret E_OK d, b)
    | (false, _, b) =>
        let t := runtsk (rest b) in
        let b := b <| smsg ::= fun R => <[t := msg]> R |> in
        (Waits, swait_insert t b)
    end.

Definition psnd_mbf msg b : outcome * MBF S :=
  if negb ((0 <? Z.of_nat (length msg)) && (Z.of_nat (length msg) <=? maxmsz (p_mbfinib (mcb b)))) then (Ret E_PAR false, b)
  else
    match send_message msg b with
    | (true, d, b) => (Ret E_OK d, b)
    | (false, _, b) => (Ret E_TMOUT false, b)
    end.

Definition tsnd_mbf msg (tmout : Z) b : outcome * MBF S :=
  if negb (TMO_FEVR <=? tmout) then (Ret E_PAR false, b)
  else if tmout =? TMO_POL then psnd_mbf msg b
  else snd_mbf msg b.

(** The result of [rcv_mbf] and the like, and the message. *)
Definition rcv_mbf b : option (outcome * list Z * MBF S) :=
  '(msg, d, b) ← receive_message b;
  if 0 <? Z.of_nat (length msg) then Some (Ret (Z.of_nat (length msg)) d, msg, b)
  else
    let t := runtsk (rest b) in
    let b := b <| rwait_queue ::= fun q => q ++ [t] |> in
    Some (Waits, [], b <| rmsg ::= fun R => <[t := None]> R |>).

Definition prcv_mbf b : option (outcome * list Z * MBF S) :=
  '(msg, d, b) ← receive_message b;
  if 0 <? Z.of_nat (length msg) then Some (Ret (Z.of_nat (length msg)) d, msg, b)
  else Some (Ret E_TMOUT false, [], b).

Definition trcv_mbf (tmout : Z) b : option (outcome * list Z * MBF S) :=
  if negb (TMO_FEVR <=? tmout) then Some (Ret E_PAR false, [], b)
  else if tmout =? TMO_POL then prcv_mbf b
  else rcv_mbf b.

(** [init_wait_queue]: every task of the queue is released with E_DLT. *)
Definition init_queue (q : list nat) (s : S) : bool * S :=
  foldl (fun '(d, s) t => let '(d', s) := make_non_wait_ini t s in (d || d', s)) (false, s) q.

Definition ini_mbf b : outcome * MBF S :=
  let '(d1, s) := init_queue (swait_queue b) (rest b) in
  let '(d2, s) := init_queue (rwait_queue b) s in
  let c := initialize_mbfcb (p_mbfinib (mcb b)) (mcb b) in
  (Ret E_OK (d1 || d2), b <| mcb := c |> <| swait_queue := [] |> <| rwait_queue := [] |> <| rest := s |>).

(** What [ref_mbf] reports: the first waiting tasks, the number of messages
    and the free bytes. *)
Definition ref_mbf b : option nat * option nat * Z * Z :=
  (head (swait_queue b), head (rwait_queue b), smbfcnt (mcb b), fmbfsz (mcb b)).
End messagebuf.
