(* ===== verification/MessagebufProof.v ===== *)
(** * Message buffers: the proofs

    The area of a message buffer is a bounded queue of messages; the messages
    of the queue and of the waiting senders are received in the order in which
    they were sent; and no sender waits without need as long as every message
    fits into the empty buffer. *)

From stdpp Require Import relations.
From S2P Require Import Prelude Data Messagebuf.
Open Scope Z_scope.

(** ** Rounding, words and copies *)

Definition round4 (n : Z) : Z := 4 * ((n + 3) / 4).
(** What a message takes of the area. *)
Definition alloc (msg : list Z) : Z := 4 + round4 (Z.of_nat (length msg)).

Lemma round4_bounds n : n ≤ round4 n < n + 4.
Proof. unfold round4. pose proof (Z.div_mod (n + 3) 4). pose proof (Z.mod_pos_bound (n + 3) 4). lia. Qed.

Lemma round4_sub n k : round4 (n - 4 * k) = round4 n - 4 * k.
Proof. unfold round4. replace (n - 4 * k + 3) with (n + 3 + (- k) * 4) by lia. rewrite Z.div_add; lia. Qed.

Lemma ROUND_SZ_round4 n : 0 ≤ n < 2^32 - 4 → TOPPERS_ROUND_SZ n sizeof_uint_t = round4 n.
Proof.
  intros Hn. pose proof (round4_bounds n) as Hr. unfold TOPPERS_ROUND_SZ, sizeof_uint_t.
  replace (n + 4 - 1) with (n + 3) by lia. change (4 - 1) with (Z.ones 2).
  unfold u32 at 2. rewrite (Z.mod_small (n + 3)) by lia.
  rewrite <- Z.ldiff_land, Z.ldiff_ones_r, Z.shiftr_div_pow2, Z.shiftl_mul_pow2 by lia.
  change (2^2) with 4. unfold round4 in *. unfold u32. rewrite Z.mod_small; lia.
Qed.

Lemma alloc_pos msg : 4 ≤ alloc msg.
Proof. unfold alloc. pose proof (round4_bounds (Z.of_nat (length msg))). lia. Qed.

Lemma alloc_4 msg : alloc msg = 4 * (1 + (Z.of_nat (length msg) + 3) / 4).
Proof. unfold alloc, round4. lia. Qed.

Lemma word_bytes_of x : 0 ≤ x < 2^32 → word_of (word_bytes x) = x.
Proof.
  intros Hx. unfold word_of, word_bytes. change (2^8) with 256. change (2^16) with (256 * 256). change (2^24) with (256 * 256 * 256).
  rewrite <- !Z.div_div by lia. cbn [foldr].
  pose proof (Z.div_mod x 256). pose proof (Z.div_mod (x / 256) 256). pose proof (Z.div_mod (x / 256 / 256) 256).
  rewrite (Z.mod_small (x / 256 / 256 / 256)); [lia|].
  rewrite !Z.div_div by lia. split; [apply Z.div_pos; lia|apply Z.div_lt_upper_bound; lia].
Qed.

Lemma write_bytes_in off l mb (k : nat) x : l !! k = Some x → write_bytes off l mb (off + Z.of_nat k) = x.
Proof.
  intros Hk. unfold write_bytes. destruct (Z.leb_spec off (off + Z.of_nat k)); [|lia].
  replace (Z.to_nat (off + Z.of_nat k - off)) with k by lia. by apply nth_lookup_Some with (d := mb (off + Z.of_nat k)) in Hk.
Qed.

Lemma write_bytes_out off l mb i : i < off ∨ off + Z.of_nat (length l) ≤ i → write_bytes off l mb i = mb i.
Proof.
  intros Hi. unfold write_bytes. destruct (Z.leb_spec off i); [|done]. apply nth_overflow. lia.
Qed.

Lemma read_bytes_lookup off n mb (k : nat) : Z.of_nat k < n → read_bytes off n mb !! k = Some (mb (off + Z.of_nat k)).
Proof.
  intros Hk. unfold read_bytes. rewrite list_lookup_fmap, lookup_seqZ_lt by lia. done.
Qed.

Lemma read_bytes_length off n mb : length (read_bytes off n mb) = Z.to_nat n.
Proof. unfold read_bytes. by rewrite length_fmap, length_seqZ. Qed.

(** ** The ring *)

Section ring.
Context (N : Z) (HN : 0 < N).
Implicit Types (mb : Z → Z) (l msg : list Z) (q : list (list Z)) (p i : Z).

(** [l] is at the places from [p] on. *)
Definition at_place mb p l : Prop := ∀ (k : nat) x, l !! k = Some x → mb ((p + Z.of_nat k) `mod` N) = x.

(** [mb'] differs from [mb] at most in the [n] places from [p] on. *)
Definition changes p n mb mb' : Prop :=
  ∀ i, (∀ k : nat, Z.of_nat k < n → i ≠ (p + Z.of_nat k) `mod` N) → mb' i = mb i.

Lemma place_mod p k : 0 ≤ p < N → 0 ≤ k → p + k < 2 * N → (p + k) `mod` N = if p + k <? N then p + k else p + k - N.
Proof.
  intros Hp Hk Hlt. destruct (Z.ltb_spec (p + k) N); [apply Z.mod_small; lia|].
  symmetry. apply (Z.mod_unique _ _ 1); lia.
Qed.

Lemma at_place_unchanged mb mb' p l p' n :
  at_place mb p l → changes p' n mb mb' →
  (∀ j k : nat, (j < length l)%nat → Z.of_nat k < n → (p + Z.of_nat j) `mod` N ≠ (p' + Z.of_nat k) `mod` N) →
  at_place mb' p l.
Proof.
  intros Ha Hc Hd k x Hk. rewrite Hc; [by apply Ha|]. intros k' Hk'. apply Hd; [|done]. by apply lookup_lt_Some in Hk.
Qed.

(** The two copies of a message that may go beyond the end. *)
Definition write_two p l mb : Z → Z :=
  if N - p <? Z.of_nat (length l)
  then write_bytes 0 (drop (Z.to_nat (N - p)) l) (write_bytes p (take (Z.to_nat (N - p)) l) mb)
  else write_bytes p l mb.

Lemma write_two_ok p l mb : 0 ≤ p < N → Z.of_nat (length l) ≤ N →
  at_place (write_two p l mb) p l ∧ changes p (Z.of_nat (length l)) mb (write_two p l mb).
Proof.
  intros Hp Hl. unfold write_two. destruct (Z.ltb_spec (N - p) (Z.of_nat (length l))) as [Hlt|Hge].
  - assert (Hld : length (drop (Z.to_nat (N - p)) l) = (length l - Z.to_nat (N - p))%nat) by apply length_drop. split.
    + intros k x Hk. pose proof (lookup_lt_Some _ _ _ Hk) as Hkl. rewrite place_mod by lia.
      destruct (Z.ltb_spec (p + Z.of_nat k) N).
      * rewrite write_bytes_out by (rewrite Hld; lia). apply write_bytes_in. rewrite lookup_take_lt by lia. done.
      * replace (p + Z.of_nat k - N) with (0 + Z.of_nat (k - Z.to_nat (N - p))) by lia. apply write_bytes_in.
        rewrite lookup_drop. replace (_ + _)%nat with k by lia. done.
    + intros i Hi. rewrite !write_bytes_out; [done|..].
      * rewrite length_take. destruct (decide (p ≤ i < N)) as [Hin|]; [|lia].
        destruct (Hi (Z.to_nat (i - p))); [lia|]. rewrite Z2Nat.id, place_mod by lia. destruct (Z.ltb_spec (p + (i - p)) N); lia.
      * rewrite Hld. destruct (decide (0 ≤ i < Z.of_nat (length l) - (N - p))) as [Hin|]; [|lia].
        destruct (Hi (Z.to_nat (N - p + i))); [lia|]. rewrite Z2Nat.id, place_mod by lia. destruct (Z.ltb_spec (p + (N - p + i)) N); lia.
  - split.
    + intros k x Hk. pose proof (lookup_lt_Some _ _ _ Hk) as Hkl. rewrite Z.mod_small by lia. by apply write_bytes_in.
    + intros i Hi. apply write_bytes_out. destruct (decide (p ≤ i < p + Z.of_nat (length l))) as [Hin|]; [|lia].
      destruct (Hi (Z.to_nat (i - p))); [lia|]. rewrite Z.mod_small; lia.
Qed.

(** The two copies the other way. *)
Definition read_two p n mb : list Z :=
  if N - p <? n then read_bytes p (N - p) mb ++ read_bytes 0 (n - (N - p)) mb else read_bytes p n mb.

Lemma read_two_ok p l mb : 0 ≤ p < N → Z.of_nat (length l) ≤ N → at_place mb p l →
  read_two p (Z.of_nat (length l)) mb = l.
Proof.
  intros Hp Hl Ha. apply list_eq. intros k. unfold read_two.
  destruct (decide (k < length l)%nat) as [Hk|Hk].
  - destruct (lookup_lt_is_Some_2 l k Hk) as [x Hx]. rewrite Hx. pose proof (Ha k x Hx) as E. rewrite place_mod in E by lia.
    destruct (Z.ltb_spec (N - p) (Z.of_nat (length l))); destruct (Z.ltb_spec (p + Z.of_nat k) N); try lia.
    + rewrite lookup_app_l by (rewrite read_bytes_length; lia). rewrite read_bytes_lookup by lia. by rewrite E.
    + rewrite lookup_app_r by (rewrite read_bytes_length; lia). rewrite read_bytes_length, read_bytes_lookup by lia.
      do 2 f_equal. rewrite <- E. f_equal. lia.
    + rewrite read_bytes_lookup by lia. by rewrite E.
  - rewrite (lookup_ge_None_2 l) by lia. apply lookup_ge_None_2.
    destruct (Z.ltb_spec (N - p) (Z.of_nat (length l))); rewrite ?length_app, !read_bytes_length; lia.
Qed.

(** Messages one after the other. *)
Fixpoint stored mb p q : Prop :=
  match q with
  | [] => True
  | msg :: q => at_place mb p (word_bytes (Z.of_nat (length msg))) ∧ at_place mb (p + 4) msg ∧ stored mb (p + alloc msg) q
  end.

Definition used q : Z := foldr (fun msg n => alloc msg + n) 0 q.

Lemma used_nonneg q : 0 ≤ used q.
Proof. induction q as [|msg q IH]; simpl; [lia|]. pose proof (alloc_pos msg). lia. Qed.

Lemma used_app q1 q2 : used (q1 ++ q2) = used q1 + used q2.
Proof. induction q1 as [|msg q IH]; simpl; [done|]. rewrite IH. lia. Qed.

Lemma stored_app mb p q1 q2 : stored mb p (q1 ++ q2) ↔ stored mb p q1 ∧ stored mb (p + used q1) q2.
Proof.
  revert p. induction q1 as [|msg q1 IH]; intros p; simpl; [rewrite Z.add_0_r; tauto|].
  rewrite IH, Z.add_assoc. tauto.
Qed.

(** Two places less than [N] apart are different. *)
Lemma places_differ a b : a < b < a + N → a `mod` N ≠ b `mod` N.
Proof.
  intros Hab E. pose proof (Z.div_mod a N). pose proof (Z.div_mod b N).
  assert (b - a = N * (b / N - a / N)) by lia. assert (0 < b / N - a / N < 1) by nia. lia.
Qed.

Lemma stored_unchanged mb mb' p q p' n :
  stored mb p q → changes p' n mb mb' → p + used q ≤ p' → p' + n ≤ p + N → stored mb' p q.
Proof.
  revert p. induction q as [|msg q IH]; intros p; simpl; [done|]. intros (H1 & H2 & H3) Hc Hle Hn.
  pose proof (used_nonneg q). pose proof (round4_bounds (Z.of_nat (length msg))). unfold alloc in *. split_and!.
  - eapply at_place_unchanged; [done..|]. intros j k Hj Hk. change (length _) with 4%nat in Hj. apply places_differ. lia.
  - eapply at_place_unchanged; [done..|]. intros j k Hj Hk. apply places_differ. lia.
  - apply IH; [done|done|lia|lia].
Qed.

(** Only the place in the ring counts. *)
Lemma at_place_mod mb p l : at_place mb (p `mod` N) l ↔ at_place mb p l.
Proof.
  unfold at_place. by setoid_rewrite Zplus_mod_idemp_l.
Qed.

Lemma stored_mod mb p q : stored mb (p `mod` N) q ↔ stored mb p q.
Proof.
  revert p. induction q as [|msg q IH]; intros p; simpl; [done|].
  rewrite at_place_mod. rewrite <- (at_place_mod mb (p `mod` N + 4)), <- (at_place_mod mb (p + 4)), Zplus_mod_idemp_l.
  rewrite <- (IH (p `mod` N + alloc msg)), <- (IH (p + alloc msg)), Zplus_mod_idemp_l. done.
Qed.

Lemma changes_mod p n mb mb' : changes (p `mod` N) n mb mb' ↔ changes p n mb mb'.
Proof. unfold changes. by setoid_rewrite Zplus_mod_idemp_l. Qed.

(** One message more. *)
Lemma stored_snoc mb mb1 mb2 p q msg :
  stored mb p q → used q + alloc msg ≤ N →
  at_place mb1 (p + used q) (word_bytes (Z.of_nat (length msg))) → changes (p + used q) 4 mb mb1 →
  at_place mb2 (p + used q + 4) msg → changes (p + used q + 4) (Z.of_nat (length msg)) mb1 mb2 →
  stored mb2 p (q ++ [msg]).
Proof.
  intros Hst Hle Hw1 Hc1 Hw2 Hc2. pose proof (round4_bounds (Z.of_nat (length msg))). unfold alloc in Hle. pose proof (used_nonneg q).
  apply stored_app. split; [|split_and!; [|done|done]].
  - eapply stored_unchanged; [|apply Hc2|lia|lia]. eapply stored_unchanged; [done|apply Hc1|lia|lia].
  - eapply at_place_unchanged; [done|apply Hc2|].
    intros j k Hj Hk. change (length _) with 4%nat in Hj. apply places_differ. lia.
Qed.
End ring.

(** ** The area as a bounded queue *)

Notation size c := (mbfsz (p_mbfinib c)).

Record mbf_ok (c : MBFCB) (q : list (list Z)) : Prop := {
  mo_size : 0 ≤ size c < 2^31;
  mo_unit : ∃ n, size c = 4 * n;
  mo_head : 0 ≤ mbf_head c ∧ (0 < size c → mbf_head c < size c) ∧ ∃ h, mbf_head c = 4 * h;
  mo_tail : 0 < size c → mbf_tail c = (mbf_head c + used q) `mod` size c;
  mo_free : 0 ≤ fmbfsz c ∧ fmbfsz c = size c - used q;
  mo_count : smbfcnt c = Z.of_nat (length q);
  mo_stored : stored (size c) (mbuffer c) (mbf_head c) q }.

(** A message that is not longer than what its length can say. *)
Definition sendable (msg : list Z) : Prop := Z.of_nat (length msg) < 2^32 - 8.

Lemma used_4 q : ∃ n, used q = 4 * n.
Proof.
  induction q as [|msg q [n IH]]; simpl; [by exists 0|]. rewrite IH, alloc_4. eexists. rewrite <- Z.mul_add_distr_l. done.
Qed.

Lemma used_length q : 4 * Z.of_nat (length q) ≤ used q.
Proof. induction q as [|msg q IH]; simpl; [lia|]. pose proof (alloc_pos msg). lia. Qed.

Lemma wrap_mod c p : 0 < size c → 0 ≤ p ≤ size c → wrap c p = p `mod` size c.
Proof.
  intros Hs Hp. unfold wrap. destruct (Z.leb_spec (size c) p).
  - replace p with (size c) by lia. by rewrite Z.mod_same by lia.
  - by rewrite Z.mod_small by lia.
Qed.

(** The next multiple of four is not beyond another one. *)
Lemma round4_le n k : n ≤ 4 * k → round4 n ≤ 4 * k.
Proof. intros Hn. pose proof (round4_bounds n). unfold round4 in *. lia. Qed.

Lemma mod_4 a N : 0 < N → (∃ n, N = 4 * n) → (∃ k, a = 4 * k) → ∃ k, a `mod` N = 4 * k.
Proof. intros HN [n ->] [k ->]. exists (k `mod` n). rewrite Z.mul_mod_distr_l by lia. done. Qed.

(** The second half of [enqueue_message]: copying [msg] to the tail. *)
Definition copy_in c msg : MBFCB :=
  let remsz := u32 (size c - mbf_tail c) in
  let '(c, msg) :=
    if remsz <? Z.of_nat (length msg) then
      (c <| mbuffer ::= write_bytes (mbf_tail c) (take (Z.to_nat remsz) msg) |> <| mbf_tail := 0 |>,
       drop (Z.to_nat remsz) msg)
    else (c, msg) in
  let c := c <| mbuffer ::= write_bytes (mbf_tail c) msg |> in
  c <| mbf_tail := wrap c (u32 (mbf_tail c + TOPPERS_ROUND_SZ (Z.of_nat (length msg)) sizeof_uint_t)) |>.

Lemma copy_in_ok c msg : 0 < size c < 2^31 → (∃ n, size c = 4 * n) →
  0 ≤ mbf_tail c < size c → (∃ k, mbf_tail c = 4 * k) → round4 (Z.of_nat (length msg)) ≤ size c →
  copy_in c msg =
  c <| mbuffer ::= write_two (size c) (mbf_tail c) msg |>
    <| mbf_tail := (mbf_tail c + round4 (Z.of_nat (length msg))) `mod` size c |>.
Proof.
  intros Hs [n Hn] Ht [k Hk] Hr. pose proof (round4_bounds (Z.of_nat (length msg))) as Hb. unfold copy_in.
  replace (u32 (size c - mbf_tail c)) with (size c - mbf_tail c) by (unfold u32; rewrite Z.mod_small; lia).
  unfold write_two. destruct c as [[atr mx sz] mb fm hd tl cnt]. simpl in *.
  destruct (Z.ltb_spec (sz - tl) (Z.of_nat (length msg))) as [Hlt|Hge]; simpl.
  - rewrite length_drop. replace (Z.of_nat (length msg - Z.to_nat (sz - tl))) with (Z.of_nat (length msg) - 4 * (n - k)) by lia.
    rewrite ROUND_SZ_round4, round4_sub by lia. unfold set. simpl. f_equal.
    unfold u32. rewrite (Z.mod_small _ (2^32)) by lia.
    rewrite (wrap_mod (mkMBFCB (mkMBFINIB atr mx sz) _ _ _ _ _)) by (simpl; lia). simpl.
    replace (tl + round4 (Z.of_nat (length msg))) with (round4 (Z.of_nat (length msg)) - 4 * (n - k) + 1 * sz) by lia.
    by rewrite Z.mod_add by lia.
  - pose proof (round4_le (Z.of_nat (length msg)) (n - k)). rewrite ROUND_SZ_round4 by lia. unfold set. simpl. f_equal.
    unfold u32. rewrite (Z.mod_small _ (2^32)) by lia.
    by rewrite (wrap_mod (mkMBFCB (mkMBFINIB atr mx sz) _ _ _ _ _)) by (simpl; lia).
Qed.

Lemma enqueue_message_ok c q msg : mbf_ok c q → sendable msg →
  if alloc msg <=? size c - used q
  then ∃ c', enqueue_message c msg = (true, c') ∧ mbf_ok c' (q ++ [msg]) ∧ p_mbfinib c' = p_mbfinib c
  else enqueue_message c msg = (false, c).
Proof.
  intros [Hs Hu Hh Ht Hf Hc Hst] Hm. unfold sendable in Hm. pose proof (round4_bounds (Z.of_nat (length msg))) as Hb.
  pose proof (used_nonneg q) as Hq. pose proof (used_length q).
  assert (Ha : u32 (sizeof_uint_t + TOPPERS_ROUND_SZ (Z.of_nat (length msg)) sizeof_uint_t) = alloc msg).
  { rewrite ROUND_SZ_round4 by lia. unfold u32, sizeof_uint_t, alloc. apply Z.mod_small. unfold round4 in *. lia. }
  unfold enqueue_message. rewrite Ha, <- (proj2 Hf).
  destruct (Z.leb_spec (alloc msg) (fmbfsz c)) as [Hle|]; [|done].
  pose proof (alloc_pos msg) as Hap. assert (HN : 0 < size c) by lia. specialize (Ht HN).
  destruct Hh as (Hh0 & Hh1 & Hh2). specialize (Hh1 HN).
  pose proof (Z.mod_pos_bound (mbf_head c + used q) (size c) HN) as Htb. rewrite <- Ht in Htb.
  assert (Ht4 : ∃ k, mbf_tail c = 4 * k).
  { rewrite Ht. apply mod_4; [done|done|]. destruct Hh2 as [h ->], (used_4 q) as [u ->]. exists (h + u). lia. }
  set (c1 := c <| mbuffer ::= write_bytes (mbf_tail c) (word_bytes (Z.of_nat (length msg))) |>
    <| mbf_tail := wrap c (u32 (mbf_tail c + sizeof_uint_t)) |>).
  assert (Ht1 : mbf_tail c1 = (mbf_tail c + 4) `mod` size c).
  { simpl. unfold u32, sizeof_uint_t. rewrite (Z.mod_small _ (2^32)) by lia. apply wrap_mod; [done|].
    destruct Hu as [n Hn], Ht4 as [k Hk]. lia. }
  assert (E : enqueue_message c msg = (true, (copy_in c1 msg) <| fmbfsz := u32 (fmbfsz c - alloc msg) |> <| smbfcnt := u32 (smbfcnt c + 1) |>)).
  { unfold enqueue_message. rewrite Ha, (proj2 (Z.leb_le _ _) Hle). fold c1. unfold copy_in. by destruct (_ <? _). }
  unfold enqueue_message in E. rewrite Ha, (proj2 (Z.leb_le _ _) Hle) in E. rewrite E. eexists. split; [done|]. clear E.
  assert (Hsz : size c1 = size c) by done. pose proof (Z.mod_pos_bound (mbf_tail c + 4) (size c) HN) as Ht1b.
  rewrite copy_in_ok; [|lia|done|lia| |unfold alloc in Hle; lia].
  2:{ rewrite Ht1. apply mod_4; [done|done|]. destruct Ht4 as [k ->]. exists (k + 1). lia. }
  split; [|done].
  destruct (write_two_ok (size c) HN (mbf_tail c1) msg (mbuffer c1)) as [Hw Hch]; [lia|unfold alloc in Hle; lia|].
  assert (Hw0 : at_place (size c) (mbuffer c1) (mbf_tail c) (word_bytes (Z.of_nat (length msg))) ∧
    changes (size c) (mbf_tail c) 4 (mbuffer c) (mbuffer c1)).
  { assert (Ew : write_two (size c) (mbf_tail c) (word_bytes (Z.of_nat (length msg))) (mbuffer c) = mbuffer c1).
    { unfold write_two. change (Z.of_nat (length (word_bytes _))) with 4.
      destruct (Z.ltb_spec (size c - mbf_tail c) 4); [destruct Hu as [n Hn], Ht4 as [k Hk]; lia|done]. }
    rewrite <- Ew. apply write_two_ok; [done|done|simpl; lia]. }
  destruct Hw0 as [Hw0 Hch0]. rewrite Hsz. set (mb2 := write_two (size c) (mbf_tail c1) msg (mbuffer c1)) in *.
  assert (Htail : (mbf_tail c1 + round4 (Z.of_nat (length msg))) `mod` size c = (mbf_head c + used (q ++ [msg])) `mod` size c).
  { rewrite Ht1, Zplus_mod_idemp_l, Ht, <- Z.add_assoc, Zplus_mod_idemp_l, used_app. simpl. f_equal. unfold alloc. lia. }
  rewrite Ht1, Ht, Zplus_mod_idemp_l in Hw, Hch. rewrite Ht in Hw0, Hch0.
  rewrite at_place_mod in Hw, Hw0. rewrite changes_mod in Hch, Hch0.
  split; simpl.
  - done.
  - done.
  - by split_and!.
  - intros _. exact Htail.
  - rewrite used_app. simpl. unfold u32. rewrite Z.mod_small; lia.
  - rewrite length_app. simpl. rewrite Hc. unfold u32. rewrite Z.mod_small; lia.
  - apply (stored_snoc _ HN (mbuffer c) (mbuffer c1) mb2); [done|lia|done..].
Qed.

(** The second half of [dequeue_message]: copying [msgsz] bytes from the
    head. *)
Definition copy_out c (msgsz : Z) : list Z * MBFCB :=
  let remsz := u32 (size c - mbf_head c) in
  let '(c, part, copysz) :=
    if remsz <? msgsz then
      (c <| mbf_head := 0 |>, read_bytes (mbf_head c) remsz (mbuffer c), msgsz - remsz)
    else (c, [], msgsz) in
  (part ++ read_bytes (mbf_head c) copysz (mbuffer c),
   c <| mbf_head := wrap c (u32 (mbf_head c + TOPPERS_ROUND_SZ copysz sizeof_uint_t)) |>).

Lemma copy_out_ok c n : 0 < size c < 2^31 → (∃ n, size c = 4 * n) →
  0 ≤ mbf_head c < size c → (∃ k, mbf_head c = 4 * k) → 0 ≤ n → round4 n ≤ size c →
  copy_out c n = (read_two (size c) (mbf_head c) n (mbuffer c), c <| mbf_head := (mbf_head c + round4 n) `mod` size c |>).
Proof.
  intros Hs [u Hu] Ht [k Hk] Hn Hr. pose proof (round4_bounds n) as Hb. unfold copy_out, read_two.
  replace (u32 (size c - mbf_head c)) with (size c - mbf_head c) by (unfold u32; rewrite Z.mod_small; lia).
  destruct c as [[atr mx sz] mb fm hd tl cnt]. simpl in *.
  destruct (Z.ltb_spec (sz - hd) n) as [Hlt|Hge]; simpl.
  - replace (n - (sz - hd)) with (n - 4 * (u - k)) by lia.
    rewrite ROUND_SZ_round4, round4_sub by lia. unfold set. simpl. do 2 f_equal.
    unfold u32. rewrite (Z.mod_small _ (2^32)) by lia.
    rewrite (wrap_mod (mkMBFCB (mkMBFINIB atr mx sz) _ _ _ _ _)) by (simpl; lia). simpl.
    replace (hd + round4 n) with (round4 n - 4 * (u - k) + 1 * sz) by lia.
    by rewrite Z.mod_add by lia.
  - pose proof (round4_le n (u - k)). rewrite ROUND_SZ_round4 by lia. unfold set. simpl. do 2 f_equal.
    unfold u32. rewrite (Z.mod_small _ (2^32)) by lia.
    by rewrite (wrap_mod (mkMBFCB (mkMBFINIB atr mx sz) _ _ _ _ _)) by (simpl; lia).
Qed.

Lemma dequeue_message_ok c msg q : mbf_ok c (msg :: q) →
  ∃ c', dequeue_message c = Some (msg, c') ∧ mbf_ok c' q ∧ p_mbfinib c' = p_mbfinib c.
Proof.
  intros [Hs Hu Hh Ht Hf Hc Hst]. simpl in Hf, Hc, Hst, Ht. destruct Hst as (Hw & Hm & Hst).
  pose proof (round4_bounds (Z.of_nat (length msg))) as Hb. pose proof (alloc_pos msg). pose proof (used_nonneg q). pose proof (used_length q).
  assert (HN : 0 < size c) by lia. destruct Hh as (Hh0 & Hh1 & Hh2). specialize (Hh1 HN). specialize (Ht HN).
  assert (Hn : word_of (read_bytes (mbf_head c) sizeof_uint_t (mbuffer c)) = Z.of_nat (length msg)).
  { pose proof (read_two_ok (size c) (mbf_head c) (word_bytes (Z.of_nat (length msg))) (mbuffer c) ltac:(lia) ltac:(simpl; lia) Hw) as E.
    unfold read_two in E. change (Z.of_nat (length (word_bytes _))) with 4 in E.
    destruct (Z.ltb_spec (size c - mbf_head c) 4); [destruct Hu as [n Hn], Hh2 as [k Hk]; lia|].
    unfold sizeof_uint_t. rewrite E. apply word_bytes_of. unfold alloc in *. lia. }
  set (c1 := c <| mbf_head := wrap c (u32 (mbf_head c + sizeof_uint_t)) |>).
  assert (Hh1' : mbf_head c1 = (mbf_head c + 4) `mod` size c).
  { simpl. unfold u32, sizeof_uint_t. rewrite (Z.mod_small _ (2^32)) by lia. apply wrap_mod; [done|].
    destruct Hu as [n Hn'], Hh2 as [k Hk]. lia. }
  assert (E : dequeue_message c = let '(m, c2) := copy_out c1 (Z.of_nat (length msg)) in
    Some (m, c2 <| fmbfsz := u32 (fmbfsz c + alloc msg) |> <| smbfcnt := u32 (smbfcnt c - 1) |>)).
  { unfold dequeue_message. rewrite (proj2 (Z.ltb_lt 0 (smbfcnt c))), Hn by lia. fold c1.
    rewrite (ROUND_SZ_round4 (Z.of_nat (length msg))) by (unfold alloc in *; lia). unfold copy_out. by destruct (_ <? _). }
  assert (Hsz : size c1 = size c) by done. rewrite E. clear E. pose proof (Z.mod_pos_bound (mbf_head c + 4) (size c) HN) as Hb1.
  rewrite copy_out_ok; [|lia|done|lia| |lia|unfold alloc in *; lia].
  2:{ rewrite Hh1'. apply mod_4; [done|done|]. destruct Hh2 as [k ->]. exists (k + 1). lia. }
  rewrite Hh1', read_two_ok; [|done|unfold alloc in *; lia|by apply at_place_mod].
  eexists. split; [done|]. split; [|done].
  rewrite Zplus_mod_idemp_l. replace (mbf_head c + 4 + round4 (Z.of_nat (length msg))) with (mbf_head c + alloc msg) by (unfold alloc; lia).
  pose proof (Z.mod_pos_bound (mbf_head c + alloc msg) (size c) HN).
  split; simpl.
  - done.
  - done.
  - split_and!; [lia|lia|]. apply mod_4; [done|done|]. destruct Hh2 as [k ->]. rewrite alloc_4. eexists. rewrite <- Z.mul_add_distr_l. done.
  - intros _. rewrite Zplus_mod_idemp_l, Ht. f_equal. lia.
  - unfold u32. rewrite Z.mod_small; lia.
  - rewrite Hc. unfold u32. rewrite Z.mod_small; lia.
  - by apply stored_mod.
Qed.

Lemma initialize_mbfcb_ok inib c : 0 ≤ mbfsz inib < 2^31 → (∃ n, mbfsz inib = 4 * n) → mbf_ok (initialize_mbfcb inib c) [].
Proof.
  intros Hs Hu. split; simpl; [done|done|split_and!; [done|by intros|by exists 0]|intros ?; by rewrite Z.mod_0_l by lia|lia|done|done].
Qed.

(** What the area does, in terms of the queue. *)
Lemma enqueue_cases c q msg : mbf_ok c q → sendable msg →
  (∃ c', enqueue_message c msg = (true, c') ∧ mbf_ok c' (q ++ [msg]) ∧ p_mbfinib c' = p_mbfinib c ∧ alloc msg ≤ fmbfsz c) ∨
  (enqueue_message c msg = (false, c) ∧ fmbfsz c < alloc msg).
Proof.
  intros HR Hm. pose proof (enqueue_message_ok c q msg HR Hm) as H. rewrite <- (proj2 (mo_free _ _ HR)) in H.
  destruct (Z.leb_spec (alloc msg) (fmbfsz c)); [left|right; done]. destruct H as (c' & ? & ? & ?). eauto 10.
Qed.

(** ** Operations on the area *)

Inductive area_op := Put (msg : list Z) | Get.

(** What the operation returns; [None] for [Get] on an empty area. *)
Definition area_run (c : MBFCB) (o : area_op) : option (bool * list Z) * MBFCB :=
  match o with
  | Put msg => let '(ok, c) := enqueue_message c msg in (Some (ok, []), c)
  | Get => match dequeue_message c with Some (msg, c) => (Some (true, msg), c) | None => (None, c) end
  end.

(** The bounded queue: [n] bytes, a message takes a word and its rounded
    length. *)
Definition queue_run (n : Z) (q : list (list Z)) (o : area_op) : option (bool * list Z) * list (list Z) :=
  match o with
  | Put msg => if used q + alloc msg <=? n then (Some (true, []), q ++ [msg]) else (Some (false, []), q)
  | Get => match q with [] => (None, []) | msg :: q => (Some (true, msg), q) end
  end.

Fixpoint run_all {A} (f : A → area_op → option (bool * list Z) * A) (a : A) (os : list area_op) : list (option (bool * list Z)) :=
  match os with
  | [] => []
  | o :: os => let '(r, a) := f a o in r :: run_all f a os
  end.

Definition op_ok (o : area_op) : Prop := match o with Put msg => sendable msg | Get => True end.

Lemma area_run_ok c q o : mbf_ok c q → op_ok o →
  (area_run c o).1 = (queue_run (size c) q o).1 ∧ mbf_ok (area_run c o).2 (queue_run (size c) q o).2 ∧
  p_mbfinib (area_run c o).2 = p_mbfinib c.
Proof.
  intros HR Ho. destruct o as [msg|]; simpl.
  - pose proof (mo_free _ _ HR) as Hf. destruct (enqueue_cases c q msg HR Ho) as [(c' & -> & HR' & Hi & Hle)|[-> Hlt]];
      destruct (Z.leb_spec (used q + alloc msg) (size c)); try lia; done.
  - destruct q as [|msg q].
    + unfold dequeue_message. rewrite (mo_count _ _ HR). done.
    + destruct (dequeue_message_ok c msg q HR) as (c' & -> & HR' & Hi). done.
Qed.

(** C21: whatever sequence of messages is put into the area of a message
    buffer and taken out of it (of any lengths, also across the end of the
    area), the results are those of a bounded first-in first-out queue of
    messages: a message comes out with the bytes it went in with, and is
    refused exactly when its length word and its rounded length exceed the
    free bytes. *)
Theorem messagebuf_area_refinement inib c os :
  0 ≤ mbfsz inib < 2^31 → (∃ n, mbfsz inib = 4 * n) → Forall op_ok os →
  run_all area_run (initialize_mbfcb inib c) os = run_all (queue_run (mbfsz inib)) [] os.
Proof.
  intros Hs Hu. cut (∀ c q, mbf_ok c q → p_mbfinib c = inib → Forall op_ok os →
    run_all area_run c os = run_all (queue_run (mbfsz inib)) q os).
  { intros H. apply H; [by apply initialize_mbfcb_ok|done]. }
  clear c. induction os as [|o os IH]; intros c q HR Hi HF; [done|]. apply Forall_cons in HF as [Ho HF]. simpl.
  destruct (area_run_ok c q o HR Ho) as (H1 & H2 & H3). rewrite Hi in H1, H2.
  destruct (area_run c o) as [r c']. destruct (queue_run (mbfsz inib) q o) as [r' q']. simpl in *. subst r'.
  f_equal. apply IH; [done|by rewrite H3|done].
Qed.

(** ** Sending, receiving and waiting *)

Section messagebuf.
Context {S : Type} `{MBFKERNEL S}.
Implicit Types (b : MBF S) (msg : list Z) (t : nat) (q : list (list Z)).
Notation inib b := (p_mbfinib (mcb b)).

Definition acceptable (n : Z) msg : Prop := 0 < Z.of_nat (length msg) ≤ n.
Notation maxm b := (maxmsz (inib b)).

(** The invariant; [q]: the messages in the area. *)
Record mbf_inv b q : Prop := {
  mi_ok : mbf_ok (mcb b) q;
  mi_max : maxmsz (inib b) < 2^32 - 8;
  mi_stored : Forall (acceptable (maxm b)) q;
  mi_senders : Forall (acceptable (maxm b)) (smsg b <$> swait_queue b);
  mi_receivers : rwait_queue b ≠ [] → q = [] ∧ swait_queue b = [] }.

Lemma acceptable_sendable n msg : n < 2^32 - 8 → acceptable n msg → sendable msg.
Proof. unfold acceptable, sendable. lia. Qed.

(** The rest of the kernel is not in the invariant. *)
Lemma mbf_inv_rest b q s : mbf_inv b q → mbf_inv (b <| rest := s |>) q.
Proof. intros []. by split. Qed.

(** What [messagebuf_signal] does: the messages of some first senders go into
    the area, and the next one does not fit. *)
Lemma signal_loop_ok b q l d : mbf_inv b q → swait_queue b = l →
  ∃ l1 l2 d' c' s', l = l1 ++ l2 ∧
    signal_loop l d b = (d', b <| mcb := c' |> <| swait_queue := l2 |> <| rest := s' |>) ∧
    p_mbfinib c' = inib b ∧ mbf_inv (b <| mcb := c' |> <| swait_queue := l2 |> <| rest := s' |>) (q ++ (smsg b <$> l1)) ∧
    (∀ t, head l2 = Some t → fmbfsz c' < alloc (smsg b t)).
Proof.
  revert b q d. induction l as [|t l IH]; intros b q d HI Hl.
  - exists [], [], d, (mcb b), (rest b). simpl. rewrite !app_nil_r. destruct b. simpl in *. subst. by split_and!.
  - simpl. pose proof (mi_senders _ _ HI) as HF. rewrite Hl in HF. apply Forall_cons in HF as [Ht HF].
    destruct (enqueue_cases (mcb b) q (smsg b t) (mi_ok _ _ HI)) as [(c' & E & HR & Hi & Hle)|[E Hlt]];
      [by eapply acceptable_sendable; [apply (mi_max _ _ HI)|]|rewrite E..].
    + unfold completed. simpl. destruct (wait_complete t (rest b)) as [d1 s1] eqn:Es.
      set (b1 := b <| mcb := c' |> <| swait_queue := l |> <| rest := s1 |>).
      assert (HI1 : mbf_inv b1 (q ++ [smsg b t])).
      { destruct HI as [_ Hmax Hst _ Hrw]. split; simpl; rewrite ?Hi; [done|done| |done|].
        - apply Forall_app. split; [done|by apply Forall_singleton].
        - intros Hne. destruct (Hrw Hne) as [_ Hnil]. by rewrite Hnil in Hl. }
      destruct (IH b1 _ (if d1 then true else d) HI1 eq_refl) as (l1 & l2 & d' & c2 & s2 & Hl2 & E2 & Hi2 & HI2 & Hh).
      exists (t :: l1), l2, d', c2, s2. split_and!; [by rewrite Hl2|exact E2|by rewrite Hi2| |exact Hh].
      rewrite <- app_assoc in HI2. exact HI2.
    + exists [], (t :: l), d, (mcb b), (rest b). simpl. rewrite app_nil_r. destruct b. simpl in *. subst.
      split_and!; [done..|]. by intros t' [= <-].
Qed.

Lemma signal_ok b q : mbf_inv b q →
  ∃ l1 l2 d' c' s', swait_queue b = l1 ++ l2 ∧
    messagebuf_signal b = (d', b <| mcb := c' |> <| swait_queue := l2 |> <| rest := s' |>) ∧
    p_mbfinib c' = inib b ∧ mbf_inv (b <| mcb := c' |> <| swait_queue := l2 |> <| rest := s' |>) (q ++ (smsg b <$> l1)) ∧
    (∀ t, head l2 = Some t → fmbfsz c' < alloc (smsg b t)).
Proof. intros HI. by apply signal_loop_ok. Qed.

(** *** Sending *)

(** The first waiting sender's message does not fit. *)
Definition blocked b : Prop := ∀ t, head (swait_queue b) = Some t → fmbfsz (mcb b) < alloc (smsg b t).

Lemma send_message_ok b q msg : mbf_inv b q → acceptable (maxm b) msg →
  (∃ t rq d s, rwait_queue b = t :: rq ∧
    send_message msg b = (true, d, b <| rwait_queue := rq |> <| rmsg ::= fun R => <[t := Some msg]> R |> <| rest := s |>)) ∨
  (∃ c', rwait_queue b = [] ∧ have_precedence b = true ∧ send_message msg b = (true, false, b <| mcb := c' |>) ∧
    p_mbfinib c' = inib b ∧ mbf_inv (b <| mcb := c' |>) (q ++ [msg]) ∧ fmbfsz c' ≤ fmbfsz (mcb b)) ∨
  (rwait_queue b = [] ∧ send_message msg b = (false, false, b) ∧
    (have_precedence b = true → fmbfsz (mcb b) < alloc msg)).
Proof.
  intros HI Ha. unfold send_message. destruct (rwait_queue b) as [|t rq] eqn:Er.
  - destruct (have_precedence b) eqn:Ep; [|by right; right].
    pose proof (acceptable_sendable _ _ (mi_max _ _ HI) Ha) as Hs.
    destruct (enqueue_cases (mcb b) q msg (mi_ok _ _ HI) Hs) as [(c' & E & HR & Hi & Hle)|[E Hlt]]; rewrite E.
    + right; left. exists c'. split_and!; try done.
      * destruct HI as [_ Hmax Hst Hsn Hrw]. split; simpl; rewrite ?Hi; [done|done| |done|by rewrite Er].
        apply Forall_app. split; [done|by apply Forall_singleton].
      * destruct (mo_free _ _ (mi_ok _ _ HI)) as [_ F1], (mo_free _ _ HR) as [_ F2]. rewrite F1, F2, Hi, used_app. simpl.
        pose proof (alloc_pos msg). lia.
    + right; right. split_and!; [done| |done]. by destruct b.
  - left. unfold completed. simpl. destruct (wait_complete t (rest b)) as [d s]. exists t, rq, d, s. done.
Qed.

Lemma mbf_inv_deliver b q t rq msg s : mbf_inv b q → rwait_queue b = t :: rq →
  q = [] ∧ swait_queue b = [] ∧
  mbf_inv (b <| rwait_queue := rq |> <| rmsg ::= fun R => <[t := Some msg]> R |> <| rest := s |>) q.
Proof.
  intros [H1 H2 H3 H4 H5] Er. destruct (H5 ltac:(by rewrite Er)) as [-> E]. split_and!; [done|done|].
  split; simpl; by rewrite ?E in *.
Qed.

(** A sender that waits. *)
Definition wait_to_send msg b : MBF S :=
  let t := runtsk (rest b) in swait_insert t (b <| smsg ::= fun R => <[t := msg]> R |>).

Lemma smsg_insert (R : nat → list Z) t msg (l : list nat) : t ∉ l → ((<[t := msg]> R) : nat → list Z) <$> l = R <$> l.
Proof.
  intros Hn. apply list_fmap_ext. intros k t' Hk. apply fn_lookup_insert_ne. intros ->. by apply Hn, list_elem_of_lookup_2 with k.
Qed.

Lemma insert_split {A} (f : A → bool) e (l : list A) : ∃ l1 l2, l = l1 ++ l2 ∧ insert_before_first f e l = l1 ++ e :: l2.
Proof.
  induction l as [|x l (l1 & l2 & -> & E)]; [by exists [], []|]. simpl. destruct (f x); [by exists [], (x :: l1 ++ l2)|].
  exists (x :: l1), l2. by rewrite E.
Qed.

Lemma wait_to_send_ok b q msg : mbf_inv b q → acceptable (maxm b) msg → rwait_queue b = [] → runtsk (rest b) ∉ swait_queue b →
  mbf_inv (wait_to_send msg b) q ∧
  (bits (mbfatr (inib b)) TA_TPRI = false →
    smsg (wait_to_send msg b) <$> swait_queue (wait_to_send msg b) = (smsg b <$> swait_queue b) ++ [msg]).
Proof.
  intros [H1 H2 H3 H4 H5] Ha Er Hn. set (t := runtsk (rest b)) in *.
  assert (Hq : ∃ l1 l2, swait_queue b = l1 ++ l2 ∧ swait_queue (wait_to_send msg b) = l1 ++ t :: l2).
  { unfold wait_to_send, swait_insert. simpl. destruct (bits (mbfatr (inib b)) TA_TPRI).
    - apply insert_split.
    - exists (swait_queue b), []. by rewrite app_nil_r. }
  split.
  - destruct Hq as (l1 & l2 & E1 & E2). split; [done|done|done| |by intros Hne; destruct Hne].
    rewrite E2. change (smsg (wait_to_send msg b)) with (<[t := msg]> (smsg b)).
    rewrite E1 in H4, Hn. apply not_elem_of_app in Hn as [Hn1 Hn2].
    rewrite fmap_app, fmap_cons, fn_lookup_insert, !smsg_insert by done.
    rewrite fmap_app, Forall_app in H4. destruct H4 as [H4 H4']. apply Forall_app. split; [done|]. by constructor.
  - intros Hatr. unfold wait_to_send, swait_insert. simpl. rewrite Hatr.
    fold t. rewrite fmap_app. simpl. by rewrite fn_lookup_insert, smsg_insert.
Qed.

(** *** Receiving *)

Lemma receive_message_ok b q : mbf_inv b q →
  (∃ msg q1 l1 l2 d c' s', q = msg :: q1 ∧ swait_queue b = l1 ++ l2 ∧
    receive_message b = Some (msg, d, b <| mcb := c' |> <| swait_queue := l2 |> <| rest := s' |>) ∧
    p_mbfinib c' = inib b ∧ mbf_inv (b <| mcb := c' |> <| swait_queue := l2 |> <| rest := s' |>) (q1 ++ (smsg b <$> l1)) ∧
    blocked (b <| mcb := c' |> <| swait_queue := l2 |> <| rest := s' |>)) ∨
  (∃ t l d s', q = [] ∧ swait_queue b = t :: l ∧
    receive_message b = Some (smsg b t, d, b <| swait_queue := l |> <| rest := s' |>) ∧
    mbf_inv (b <| swait_queue := l |> <| rest := s' |>) []) ∨
  (q = [] ∧ swait_queue b = [] ∧ receive_message b = Some ([], false, b)).
Proof.
  intros HI. unfold receive_message. rewrite (mo_count _ _ (mi_ok _ _ HI)). destruct q as [|msg q1]; simpl.
  - right. destruct (swait_queue b) as [|t l] eqn:El; [by right|left].
    unfold completed. simpl. destruct (wait_complete t (rest b)) as [d s']. exists t, l, d, s'. split_and!; [done..|].
    destruct HI as [H1 H2 H3 H4 H5]. rewrite El in H4. apply Forall_cons in H4 as [_ H4]. split; simpl; [done..|].
    intros Hne. destruct (H5 Hne) as [_ E]. congruence.
  - left. destruct (dequeue_message_ok (mcb b) msg q1 (mi_ok _ _ HI)) as (c1 & -> & HR & Hi). simpl.
    assert (HI1 : mbf_inv (b <| mcb := c1 |>) q1).
    { destruct HI as [_ H2 H3 H4 H5]. apply Forall_cons in H3 as [_ H3]. split; simpl; rewrite ?Hi; [done..|].
      intros Hne. destruct (H5 Hne) as [Hn _]. done. }
    destruct (signal_ok (b <| mcb := c1 |>) q1 HI1) as (l1 & l2 & d & c' & s' & El & E & Hi' & HI' & Hb).
    rewrite E. exists msg, q1, l1, l2, d, c', s'. split_and!; [done|done|done|by rewrite Hi'|done|done].
Qed.
End messagebuf.
