(* ===== verification/MessagebufCorrect.v ===== *)
(** * Message buffers: order, waiting, and a sender that waits without need *)

From stdpp Require Import relations.
From S2P Require Import Prelude Data Messagebuf MessagebufProof.
Open Scope Z_scope.

Section messagebuf.
Context {S : Type} `{MBFKERNEL S}.
Implicit Types (b : MBF S) (msg : list Z) (t : nat) (q : list (list Z)).
Notation inib b := (p_mbfinib (mcb b)).
Notation maxm b := (maxmsz (inib b)).
Notation senders b := (smsg b <$> swait_queue b).

(** ** Order *)




(** The check of the length, and the refused calls. *)
Lemma size_check n msg :
  acceptable n msg ∧ (0 <? Z.of_nat (length msg)) && (Z.of_nat (length msg) <=? n) = true ∨
  (0 <? Z.of_nat (length msg)) && (Z.of_nat (length msg) <=? n) = false.
Proof.
  unfold acceptable. destruct (Z.ltb_spec 0 (Z.of_nat (length msg))), (Z.leb_spec (Z.of_nat (length msg)) n); simpl; auto.
Qed.




(** ** Waiting *)

(** All that happens to a message buffer: calls, a wait that ends by timeout,
    release or termination, a changed priority (the queue is reordered), the
    initialization, and the rest of the kernel. *)
Inductive mbf_step b : MBF S → Prop :=
  | step_snd msg tmout : runtsk (rest b) ∉ swait_queue b → mbf_step b (tsnd_mbf msg tmout b).2
  | step_rcv tmout o msg b' : runtsk (rest b) ∉ rwait_queue b → trcv_mbf tmout b = Some (o, msg, b') → mbf_step b b'
  | step_leave_s t : mbf_step b (messagebuf_dequeue_wobj (b <| swait_queue ::= without t |>)).2
  | step_leave_r t : mbf_step b (b <| rwait_queue ::= without t |>)
  | step_priority l : l ≡ₚ swait_queue b → mbf_step b (messagebuf_change_priority (b <| swait_queue := l |>)).2
  | step_ini : mbf_step b (ini_mbf b).2
  | step_rest s : mbf_step b (b <| rest := s |>).

(** The longest message fits into the empty area. *)
Definition roomy (i : MBFINIB) : Prop := 4 + round4 (maxmsz i) ≤ mbfsz i.

Definition wait_inv (i : MBFINIB) b : Prop := ∃ q, mbf_inv b q ∧ inib b = i ∧ (roomy i → blocked b).

Lemma round4_mono n m : n ≤ m → round4 n ≤ round4 m.
Proof. intros Hle. unfold round4. pose proof (Z.div_le_mono (n + 3) (m + 3) 4). lia. Qed.

Lemma roomy_fits b q msg : mbf_inv b q → roomy (inib b) → acceptable (maxm b) msg → alloc msg ≤ mbfsz (inib b).
Proof. intros HI Hr [_ Ha]. unfold roomy, alloc in *. pose proof (round4_mono _ _ Ha). lia. Qed.

(** The hooks restore what the theorem is about. *)
Lemma signal_wait_inv i b q : mbf_inv b q → inib b = i → wait_inv i (messagebuf_signal b).2.
Proof.
  intros HI Hi. destruct (signal_ok b q HI) as (l1 & l2 & d & c & s & _ & E & Ei & HI' & Hb). rewrite E.
  exists (q ++ (smsg b <$> l1)). split_and!; [done|by rewrite <- Hi|]. intros _. exact Hb.
Qed.

Lemma mbf_inv_senders b q l : mbf_inv b q → (∀ t, t ∈ l → t ∈ swait_queue b) → mbf_inv (b <| swait_queue := l |>) q.
Proof.
  intros [H1 H2 H3 H4 H5] Hl. split; simpl; [done..| |].
  - rewrite Forall_fmap, Forall_forall in H4 |- *. auto.
  - intros Hne. destruct (H5 Hne) as [? E]. split; [done|]. destruct l as [|t l]; [done|]. specialize (Hl t ltac:(left)).
    rewrite E in Hl. by apply not_elem_of_nil in Hl.
Qed.

(** The new sender is first only if it comes before the first one. *)
Lemma wait_to_send_blocked b msg :
  blocked b → runtsk (rest b) ∉ swait_queue b → (have_precedence b = true → fmbfsz (mcb b) < alloc msg) →
  blocked (wait_to_send msg b).
Proof.
  intros Hb Hn Hp t. unfold wait_to_send, swait_insert. simpl. set (me := runtsk (rest b)) in *.
  assert (Hold : ∀ t', head (swait_queue b) = Some t' → fmbfsz (mcb b) < alloc ((<[me := msg]> (smsg b) : nat → list Z) t')).
  { intros t' Ht'. rewrite fn_lookup_insert_ne; [by apply Hb|]. intros ->. apply Hn.
    destruct (swait_queue b) as [|x l]; [done|]. injection Ht' as ->. left. }
  unfold have_precedence in Hp. fold me in Hp.
  destruct (swait_queue b) as [|x l] eqn:El; simpl.
  - destruct (bits _ _); simpl; intros [= <-]; rewrite fn_lookup_insert; by apply Hp.
  - destruct (bits (mbfatr (inib b)) TA_TPRI); simpl in *; [|by intros [= <-]; apply Hold].
    destruct (priority (rest b) me <? priority (rest b) x); simpl; intros [= <-]; [rewrite fn_lookup_insert; by apply Hp|by apply Hold].
Qed.

Lemma tsnd_wait_inv i b msg tmout : wait_inv i b → runtsk (rest b) ∉ swait_queue b → wait_inv i (tsnd_mbf msg tmout b).2.
Proof.
  intros HW Hn.
  assert (Hok : ∀ k : MBF S → outcome * MBF S,
    (k = fun b => (Ret E_TMOUT false, b)) ∨ (k = fun b => (Waits, wait_to_send msg b)) →
    acceptable (maxm b) msg →
    wait_inv i (match send_message msg b with (true, d, b) => (Ret E_OK d, b) | (false, _, b) => k b end).2).
  { destruct HW as (q & HI & Hi & Hb). intros k Hk Ha.
    destruct (send_message_ok b q msg HI Ha) as [(t & rq & d & s & Er & E)|[(c' & Er & Hp & E & Hi' & HI' & Hle)|(Er & E & Hp)]]; rewrite E; simpl.
    - destruct (mbf_inv_deliver b q t rq msg s HI Er) as (-> & Es & HI'). exists []. split_and!; [done|done|].
      intros _ t'. simpl. by rewrite Es.
    - exists (q ++ [msg]). split_and!; [done|by rewrite <- Hi|]. intros Hr t Ht. specialize (Hb Hr t Ht). simpl in *. lia.
    - destruct Hk as [->| ->]; simpl; [by exists q|]. destruct (wait_to_send_ok b q msg HI Ha Er Hn) as [HI' _].
      exists q. split_and!; [done|done|]. intros Hr. by apply wait_to_send_blocked; [apply Hb| |]. }
  unfold tsnd_mbf, psnd_mbf, snd_mbf. destruct (TMO_FEVR <=? tmout); simpl; [|done].
  destruct (tmout =? TMO_POL); (destruct (size_check (maxm b) msg) as [[Ha ->]| ->]; simpl; [|done]).
  - apply (Hok (fun b => (Ret E_TMOUT false, b))); [by left|done].
  - apply (Hok (fun b => (Waits, wait_to_send msg b))); [by right|done].
Qed.

Lemma receive_wait_inv i b : wait_inv i b → ∃ msg d b', receive_message b = Some (msg, d, b') ∧ wait_inv i b' ∧
  (length msg = 0%nat → b' = b ∧ smbfcnt (mcb b) = 0 ∧ swait_queue b = []).
Proof.
  intros (q & HI & Hi & Hb).
  assert (Hne : ∀ msg, acceptable (maxm b) msg → length msg ≠ 0%nat) by (unfold acceptable; lia).
  destruct (receive_message_ok b q HI) as
    [(msg & q1 & l1 & l2 & d & c' & s' & -> & El & E & Hi' & HI' & Hb')|[(t & l & d & s' & -> & El & E & HI')|(-> & El & E)]].
  - exists msg, d, (b <| mcb := c' |> <| swait_queue := l2 |> <| rest := s' |>). split_and!; [done| |].
    + eexists. split_and!; [done|by rewrite <- Hi|done].
    + intros E0. pose proof (mi_stored _ _ HI) as Hst. apply Forall_cons in Hst as [Ha _]. by apply Hne in Ha.
  - pose proof (mi_senders _ _ HI) as Hst. rewrite El in Hst. apply Forall_cons in Hst as [Ha _].
    exists (smsg b t), d, (b <| swait_queue := l |> <| rest := s' |>). split_and!; [done| |intros E0; by apply Hne in Ha].
    exists []. split_and!; [done|done|]. intros Hr. exfalso. rewrite <- Hi in Hr, Hb. specialize (Hb Hr t). rewrite El in Hb.
    pose proof (roomy_fits b [] (smsg b t) HI Hr Ha). destruct (mo_free _ _ (mi_ok _ _ HI)) as [_ Hf]. simpl in Hf.
    specialize (Hb eq_refl). lia.
  - exists [], false, b. split_and!; [done|by exists []|]. intros _. split_and!; [done|by rewrite (mo_count _ _ (mi_ok _ _ HI))|done].
Qed.

Lemma trcv_wait_inv i b tmout : wait_inv i b → ∃ o msg b', trcv_mbf tmout b = Some (o, msg, b') ∧ wait_inv i b'.
Proof.
  intros HW. destruct (receive_wait_inv i b HW) as (msg & d & b' & E & HW' & H0).
  assert (Hlen : 0 <? Z.of_nat (length msg) = negb (length msg =? 0)%nat).
  { destruct (length msg); [done|]. simpl. by apply Z.ltb_lt. }
  unfold trcv_mbf, prcv_mbf, rcv_mbf. rewrite E. simpl. rewrite Hlen.
  destruct (TMO_FEVR <=? tmout); simpl; [|eauto]. destruct (tmout =? TMO_POL), (Nat.eqb_spec (length msg) 0); simpl; eauto 10.
  destruct (H0 ltac:(done)) as (-> & Hc & Hsw). eexists _, _, _. split; [done|].
  destruct HW as (q & HI & Hi & Hb). exists q. split_and!; [|done|intros _ t; simpl; by rewrite Hsw].
  pose proof (mo_count _ _ (mi_ok _ _ HI)) as Hcnt. rewrite Hc in Hcnt. destruct q; [|simpl in Hcnt; lia].
  destruct HI as [H1 H2 H3 H4 H5]. split; simpl; [done..|by rewrite Hsw].
Qed.

Lemma ini_wait_inv i b : wait_inv i b → wait_inv i (ini_mbf b).2.
Proof.
  intros (q & [H1 H2 H3 H4 H5] & Hi & _). unfold ini_mbf. destruct (init_queue (swait_queue b) (rest b)) as [d1 s1].
  destruct (init_queue (rwait_queue b) s1) as [d2 s2]. simpl. exists []. split_and!; [|done|by intros _ t].
  split; simpl; try done. apply initialize_mbfcb_ok; [apply (mo_size _ _ H1)|apply (mo_unit _ _ H1)].
Qed.

Lemma step_wait_inv i b b' : mbf_step b b' → wait_inv i b → wait_inv i b'.
Proof.
  intros Hs HW. destruct Hs as [msg tmout Hn|tmout o msg b' _ E|t|t|l Hl| |s].
  - by apply tsnd_wait_inv.
  - destruct (trcv_wait_inv i b tmout HW) as (o' & m' & b2 & E2 & HW2). congruence.
  - destruct HW as (q & HI & Hi & _). apply signal_wait_inv with q; [|done].
    apply mbf_inv_senders; [done|]. intros t'. by rewrite elem_of_without; intros [? _].
  - destruct HW as (q & [H1 H2 H3 H4 H5] & Hi & Hb). exists q. split_and!; [|done|done]. split; simpl; [done..|].
    intros Hne. apply H5. intros E. by rewrite E in Hne.
  - destruct HW as (q & HI & Hi & _). apply signal_wait_inv with q; [|done].
    apply mbf_inv_senders; [done|]. intros t' Ht'. by rewrite <- Hl.
  - by apply ini_wait_inv.
  - destruct HW as (q & HI & Hi & Hb). exists q. split_and!; [by apply mbf_inv_rest|done|done].
Qed.

Definition initial (i : MBFINIB) b : Prop :=
  (∃ c, mcb b = initialize_mbfcb i c) ∧ swait_queue b = [] ∧ rwait_queue b = [].

(** What the configurator guarantees. *)
Definition valid_mbfinib (i : MBFINIB) : Prop :=
  0 ≤ mbfsz i < 2^31 ∧ (∃ n, mbfsz i = 4 * n) ∧ maxmsz i < 2^32 - 8.

Lemma initial_inv i b : valid_mbfinib i → initial i b → mbf_inv b [] ∧ inib b = i.
Proof.
  intros (H1 & H2 & H3) ([c Ec] & E1 & E2). split; [|by rewrite Ec].
  split; rewrite ?Ec, ?E1, ?E2; try done. by apply initialize_mbfcb_ok.
Qed.

Lemma wait_inv_reached i b0 b : valid_mbfinib i → initial i b0 → rtc mbf_step b0 b → wait_inv i b.
Proof.
  intros Hv H0 Hs. destruct (initial_inv i b0 Hv H0) as [HI Hi]. assert (HW0 : wait_inv i b0).
  { exists []. split_and!; [done|done|]. intros _ t. destruct H0 as (_ & -> & _). done. }
  clear H0 HI Hi. induction Hs as [|x y z Hxy _ IH]; [done|]. by apply IH, (step_wait_inv i x).
Qed.

(** C22: a message buffer is well formed after any calls and whatever else
    happens to it: head and tail are multiples of the word size inside the
    area, the tail is the head moved by what the messages take, which together
    with the free bytes is the area; the counter is the number of messages,
    each at its place behind its length; and every message in the area or of a
    waiting sender has a length from 1 to the maximum. *)
Theorem messagebuf_well_formed i b0 b : valid_mbfinib i → initial i b0 → rtc mbf_step b0 b →
  inib b = i ∧ ∃ q,
    (0 < mbfsz i → 0 ≤ mbf_head (mcb b) < mbfsz i ∧ 0 ≤ mbf_tail (mcb b) < mbfsz i ∧
      mbf_tail (mcb b) = (mbf_head (mcb b) + used q) `mod` mbfsz i) ∧
    (∃ k, mbf_head (mcb b) = 4 * k) ∧ (0 < mbfsz i → ∃ k, mbf_tail (mcb b) = 4 * k) ∧
    0 ≤ fmbfsz (mcb b) ∧ fmbfsz (mcb b) + used q = mbfsz i ∧ smbfcnt (mcb b) = Z.of_nat (length q) ∧
    stored (mbfsz i) (mbuffer (mcb b)) (mbf_head (mcb b)) q ∧
    Forall (acceptable (maxmsz i)) q ∧ Forall (acceptable (maxmsz i)) (senders b).
Proof.
  intros Hv H0 Hs. destruct (wait_inv_reached i b0 b Hv H0 Hs) as (q & [Hok Hmax Hst Hsn _] & Hi & _).
  split; [done|]. exists q. destruct Hok as [Ms Mu (Mh1 & Mh2 & Mh3) Mt [Mf1 Mf2] Mc Mst]. rewrite Hi in *.
  split_and!; try done; [|intros Hpos|lia].
  - intros Hpos. split_and!; [done|by apply Mh2|..|by apply Mt]; rewrite (Mt Hpos); by apply Z.mod_pos_bound.
  - rewrite (Mt Hpos). apply mod_4; [done|done|]. destruct Mh3 as [h ->], (used_4 q) as [u ->]. exists (h + u). lia.
Qed.

(** C23: a message buffer whose area can hold its longest message, after any
    calls, timeouts, releases, changes of priority and initializations: the
    first waiting sender's message does not fit into the free bytes, tasks
    wait to receive only when there is no message and no sender, and no call
    runs into an assertion. *)
Theorem messagebuf_no_needless_wait i b0 b :
  valid_mbfinib i → roomy i → initial i b0 → rtc mbf_step b0 b →
  (∀ t, head (swait_queue b) = Some t → fmbfsz (mcb b) < alloc (smsg b t)) ∧
  (rwait_queue b ≠ [] → smbfcnt (mcb b) = 0 ∧ swait_queue b = []) ∧
  (∀ tmout, trcv_mbf tmout b ≠ None).
Proof.
  intros Hv Hr H0 Hs. pose proof (wait_inv_reached i b0 b Hv H0 Hs) as HW.
  split_and!.
  - destruct HW as (q & _ & _ & Hb). by apply Hb.
  - intros Hne. destruct HW as (q & HI & _). destruct (mi_receivers _ _ HI Hne) as [-> E].
    by rewrite (mo_count _ _ (mi_ok _ _ HI)).
  - intros tmout. destruct (trcv_wait_inv i b tmout HW) as (o & m & b' & -> & _). done.
Qed.

(** C24: without that room the last part of [receive_message] leaves a sender
    waiting without need: when the area is empty and the first sender's
    message is longer than the area, a receiver takes the message from the
    sender, and the next sender goes on waiting although its message fits
    into the empty area; [messagebuf_signal] is not called. *)
Theorem messagebuf_sender_left_waiting b t1 t2 l :
  mbf_inv b [] → swait_queue b = t1 :: t2 :: l → alloc (smsg b t2) ≤ mbfsz (inib b) →
  ∃ d b', prcv_mbf b = Some (Ret (Z.of_nat (length (smsg b t1))) d, smsg b t1, b') ∧
    swait_queue b' = t2 :: l ∧ smbfcnt (mcb b') = 0 ∧ alloc (smsg b' t2) ≤ fmbfsz (mcb b') ∧
    (enqueue_message (mcb b') (smsg b' t2)).1 = true.
Proof.
  intros HI El Hfit. pose proof (mi_senders _ _ HI) as Hst. rewrite El in Hst.
  apply Forall_cons in Hst as [Ha Hst]. apply Forall_cons in Hst as [Ha2 _].
  destruct (mo_free _ _ (mi_ok _ _ HI)) as [_ Hf]. simpl in Hf. rewrite Z.sub_0_r in Hf.
  destruct (receive_message_ok b [] HI) as [(? & ? & ? & ? & ? & ? & ? & [=] & _)|[(t & l' & d & s' & _ & E1 & E & HI')|(_ & E1 & _)]]; [|congruence].
  rewrite El in E1. injection E1 as <- <-. unfold prcv_mbf. rewrite E. simpl.
  rewrite (proj2 (Z.ltb_lt _ _) (proj1 Ha)). eexists _, _. split_and!; [done|done| | |].
  - apply (mo_count _ _ (mi_ok _ _ HI)).
  - simpl. by rewrite Hf.
  - simpl. destruct (enqueue_cases (mcb b) [] (smsg b t2) (mi_ok _ _ HI)) as [(c' & -> & _)|[_ Hlt]]; [|done|lia].
    by eapply acceptable_sendable; [apply (mi_max _ _ HI)|].
Qed.
End messagebuf.

(** ** Two buffers *)

Module MbfExample.

(** The rest of the kernel: the running task. *)
#[export] Instance example_kernel : MBFKERNEL nat := {|
  wait_complete _ s := (false, s);
  make_non_wait_ini _ s := (false, s);
  priority _ t := Z.of_nat t;
  runtsk s := s |}.

Definition cleared (i : MBFINIB) : MBFCB := mkMBFCB i (fun _ => 0) 0 0 0 0.
Definition start (i : MBFINIB) : MBF nat :=
  mkMBF (initialize_mbfcb i (cleared i)) [] [] (fun _ => []) (fun _ => None) 0%nat.
Definition m (n : nat) (x : Z) : list Z := repeat x n.

Definition wide : MBFINIB := mkMBFINIB 0 16 32.
Definition narrow : MBFINIB := mkMBFINIB 0 32 16.

Lemma wide_valid : valid_mbfinib wide.
Proof. split_and!; simpl; [lia|lia|by exists 8|lia]. Qed.
Lemma narrow_valid : valid_mbfinib narrow.
Proof. split_and!; simpl; [lia|lia|by exists 4|lia]. Qed.
Lemma start_initial i : initial i (start i).
Proof. split_and!; [by eexists|done|done]. Qed.

Definition area_ops : list area_op := [Put (m 13 1); Put (m 9 2); Get; Put (m 9 2); Put (m 3 3); Get; Get; Get].

Lemma messagebuf_area_refinement_witness :
  run_all area_run (initialize_mbfcb wide (cleared wide)) area_ops = run_all (queue_run (mbfsz wide)) [] area_ops.
Proof.
  apply (messagebuf_area_refinement wide (cleared wide) area_ops); [simpl; lia|by exists 8|].
  repeat constructor; unfold sendable; simpl; lia.
Defined.





Lemma messagebuf_no_needless_wait_witness :
  let b := (tsnd_mbf (m 16 2) TMO_FEVR (start wide)).2 in
  (∀ t, head (swait_queue b) = Some t → fmbfsz (mcb b) < alloc (smsg b t)) ∧
  (rwait_queue b ≠ [] → smbfcnt (mcb b) = 0 ∧ swait_queue b = []) ∧
  (∀ tmout, trcv_mbf tmout b ≠ None).
Proof.
  apply (messagebuf_no_needless_wait wide (start wide)); [apply wide_valid|unfold roomy; simpl; by vm_compute|apply start_initial|].
  apply rtc_once, step_snd, not_elem_of_nil.
Defined.

Lemma messagebuf_well_formed_witness :
  let b := (tsnd_mbf (m 13 1) TMO_FEVR (start wide)).2 in
  p_mbfinib (mcb b) = wide ∧ ∃ q,
    (0 < mbfsz wide → 0 ≤ mbf_head (mcb b) < mbfsz wide ∧ 0 ≤ mbf_tail (mcb b) < mbfsz wide ∧
      mbf_tail (mcb b) = (mbf_head (mcb b) + used q) `mod` mbfsz wide) ∧
    (∃ k, mbf_head (mcb b) = 4 * k) ∧ (0 < mbfsz wide → ∃ k, mbf_tail (mcb b) = 4 * k) ∧
    0 ≤ fmbfsz (mcb b) ∧ fmbfsz (mcb b) + used q = mbfsz wide ∧ smbfcnt (mcb b) = Z.of_nat (length q) ∧
    stored (mbfsz wide) (mbuffer (mcb b)) (mbf_head (mcb b)) q ∧
    Forall (acceptable (maxmsz wide)) q ∧ Forall (acceptable (maxmsz wide)) (smsg b <$> swait_queue b).
Proof.
  apply (messagebuf_well_formed wide (start wide)); [apply wide_valid|apply start_initial|].
  apply rtc_once, step_snd, not_elem_of_nil.
Defined.

(** 20 bytes do not fit into an area of 16; 4 bytes do. *)
Definition stuck1 : MBF nat := (tsnd_mbf (m 20 1) TMO_FEVR ((start narrow) <| rest := 1%nat |>)).2.
Definition stuck2 : MBF nat := (tsnd_mbf (m 4 2) TMO_FEVR (stuck1 <| rest := 2%nat |>)).2.

Lemma stuck2_inv : mbf_inv stuck2 [].
Proof.
  destruct (initial_inv narrow (start narrow) narrow_valid (start_initial narrow)) as [[H1 H2 H3 H4 H5] _].
  split; [exact H1|exact H2|exact H3| |by intros []].
  repeat constructor; unfold acceptable; simpl; lia.
Qed.

Lemma messagebuf_sender_left_waiting_witness :
  ∃ d b', prcv_mbf stuck2 = Some (Ret 20 d, m 20 1, b') ∧
    swait_queue b' = [2%nat] ∧ smbfcnt (mcb b') = 0 ∧ alloc (smsg b' 2%nat) ≤ fmbfsz (mcb b') ∧
    (enqueue_message (mcb b') (smsg b' 2%nat)).1 = true.
Proof. apply (messagebuf_sender_left_waiting stuck2 1 2 []); [apply stuck2_inv|reflexivity|by vm_compute]. Defined.
End MbfExample.
