(* ===== verification/Histogram.v ===== *)
(** * Distribution of execution times (library/histogram.c)

    One histogram ([histcb_table[histid - TMIN_HISTID]]) whose area has
    [maxval + 1] counters.  A time is what [HIST_GET_TIM] ([get_utm]) returns.
    [None]: a counter outside the area is accessed. *)

From S2P Require Import Prelude Data.
Open Scope Z_scope.

Record HISTCB := mkHISTCB { begin_time : Z; maxval : Z; histarea : list Z; over : Z; under : Z }.
#[export] Instance eta_HISTCB : Eta HISTCB := fun r => mkHISTCB (begin_time r) (maxval r) (histarea r) (over r) (under r).

(** A line of the output. *)
Inductive hist_line := Counter (val count : Z) | OverMax (maxval count : Z) | OverIntMax (count : Z).

Section histogram.
Implicit Types (h : HISTCB).

Definition INT_MAX := 2^31 - 1.

Definition init_hist (max : Z) h : HISTCB :=
  h <| histarea := replicate (Z.to_nat (max + 1)) 0 |> <| maxval := max |> <| over := 0 |> <| under := 0 |>.

Definition begin_measure (time : Z) h : HISTCB := h <| begin_time := time |>.

(** [p_histcb->histarea[val]++]. *)
Definition count_at (val : Z) h : option HISTCB :=
  n ← histarea h !! Z.to_nat val; Some (h <| histarea ::= <[Z.to_nat val := u32 (n + 1)]> |>).

(** [HIST_CONV_TIM(end_time - begin_time) - 3]. *)
Definition measured (end_time : Z) h : Z := u32 (u32 (end_time - begin_time h) - 3).

Definition end_measure (end_time : Z) h : option HISTCB :=
  let val := measured end_time h in
  if val <=? maxval h then
    let val := u32 (val + 5) in
    let val := val / 10 in
    let val := u32 (val * 10) in
    count_at val h
  else if 10000 <=? val then
    let val := u32 (val + 500) in
    let val := val / 1000 in
    count_at val h
  else if val <=? INT_MAX then Some (h <| over ::= fun n => u32 (n + 1) |>)
  else Some (h <| under ::= fun n => u32 (n + 1) |>).

Definition print_hist h : list hist_line :=
  omap (fun '(i, n) => if 0 <? n then Some (Counter (Z.of_nat i) n) else None) (imap pair (histarea h)) ++
  (if 0 <? over h then [OverMax (maxval h) (over h)] else []) ++
  (if 0 <? under h then [OverIntMax (under h)] else []).

(** ** What is counted *)

Definition hist_ok h : Prop := 0 ≤ maxval h < 2^31 ∧ length (histarea h) = Z.to_nat (maxval h + 1).

(** The number of measurements that the histogram holds. *)
Definition total h : Z := foldr Z.add 0 (histarea h) + over h + under h.

(** The counter that a measured time goes to. *)
Definition bucket (val : Z) h : option Z :=
  if val <=? maxval h then Some ((val + 5) / 10 * 10)
  else if 10000 <=? val then Some ((u32 (val + 500)) / 1000) else None.

Lemma sum_insert (l : list Z) (i : nat) n x : l !! i = Some n → foldr Z.add 0 (<[i := x]> l) = foldr Z.add 0 l + (x - n).
Proof. revert i. induction l as [|y l IH]; intros [|i]; simpl; intros E; try done; [injection E as ->; lia|]. rewrite (IH i E). lia. Qed.

Lemma sum_bounds (l : list Z) (i : nat) n : Forall (fun x => 0 ≤ x) l → l !! i = Some n → 0 ≤ n ≤ foldr Z.add 0 l.
Proof.
  intros HF. revert i. induction HF as [|x l Hx HF IH]; intros i; [done|].
  assert (0 ≤ foldr Z.add 0 l) by (clear IH; induction HF; simpl; lia).
  destruct i as [|i]; simpl; [intros [= ->]; lia|]. intros E. specialize (IH i E). lia.
Qed.

Lemma count_at_ok val h : hist_ok h → Forall (fun x => 0 ≤ x) (histarea h) → 0 ≤ over h → 0 ≤ under h → total h < 2^32 - 1 → 0 ≤ val →
  if val <=? maxval h
  then ∃ h', count_at val h = Some h' ∧ hist_ok h' ∧ total h' = total h + 1 ∧ over h' = over h ∧ under h' = under h ∧
    (∃ n, histarea h !! Z.to_nat val = Some n ∧ histarea h' = <[Z.to_nat val := n + 1]> (histarea h))
  else count_at val h = None.
Proof.
  intros [Hm Hl] HF Ho Hu Ht Hv. unfold count_at. destruct (Z.leb_spec val (maxval h)).
  - destruct (lookup_lt_is_Some_2 (histarea h) (Z.to_nat val)) as [n En]; [lia|]. rewrite En. simpl.
    pose proof (sum_bounds _ _ _ HF En). unfold total in Ht.
    assert (E : u32 (n + 1) = n + 1) by (unfold u32; apply Z.mod_small; lia). rewrite E.
    eexists. split_and!; [done|split; simpl; [done|by rewrite length_insert]| |done|done|by exists n].
    unfold total. simpl. rewrite (sum_insert _ _ n) by done. lia.
  - by rewrite lookup_ge_None_2 by lia.
Qed.

(** The end of a measurement, for a histogram that can count one more: it is
    counted exactly once, in the counter of the time rounded to tens, or of
    the thousands from 10000 on, or among those over the maximum; and it
    runs outside the area exactly when that counter is beyond [maxval], which
    the rounding up and the thousands can be.  The number of suspected time
    reversals never changes: a negative difference is one of the large
    values that the branch for 10000 takes. *)
Theorem end_measure_correct time h :
  hist_ok h → Forall (fun x => 0 ≤ x) (histarea h) → 0 ≤ over h → 0 ≤ under h → total h < 2^32 - 1 →
  match bucket (measured time h) h with
  | Some val =>
      if val <=? maxval h
      then ∃ h', end_measure time h = Some h' ∧ total h' = total h + 1 ∧ over h' = over h ∧ under h' = under h ∧
        (∃ n, histarea h !! Z.to_nat val = Some n ∧ histarea h' = <[Z.to_nat val := n + 1]> (histarea h))
      else end_measure time h = None
  | None => ∃ h', end_measure time h = Some h' ∧ total h' = total h + 1 ∧ histarea h' = histarea h ∧
      over h' = over h + 1 ∧ under h' = under h
  end.
Proof.
  intros HH HF Ho Hu Ht. pose proof HH as [Hm _]. unfold bucket, end_measure.
  assert (Hr : 0 ≤ measured time h < 2^32) by (apply Z.mod_pos_bound; lia). set (v := measured time h) in *.
  destruct (Z.leb_spec v (maxval h)) as [Hle|Hgt].
  - assert (Hd : 0 ≤ (v + 5) / 10 ∧ 10 * ((v + 5) / 10) ≤ v + 5) by (split; [apply Z.div_pos; lia|apply Z.mul_div_le; lia]).
    assert (E1 : u32 (v + 5) = v + 5) by (unfold u32; apply Z.mod_small; lia).
    assert (E2 : u32 ((v + 5) / 10 * 10) = (v + 5) / 10 * 10) by (unfold u32; apply Z.mod_small; lia). rewrite E1, E2.
    pose proof (count_at_ok ((v + 5) / 10 * 10) h HH HF Ho Hu Ht ltac:(lia)) as C.
    destruct (_ <=? maxval h); [|done]. destruct C as (h' & ? & ? & ? & ? & ? & ?). eauto 10.
  - destruct (Z.leb_spec 10000 v).
    + assert (0 ≤ u32 (v + 500)) by (apply Z.mod_pos_bound; lia).
      pose proof (count_at_ok (u32 (v + 500) / 1000) h HH HF Ho Hu Ht ltac:(apply Z.div_pos; lia)) as C.
      destruct (_ <=? maxval h); [|done]. destruct C as (h' & ? & ? & ? & ? & ? & ?). eauto 10.
    + destruct (Z.leb_spec v INT_MAX); [|unfold INT_MAX in *; lia].
      assert (0 ≤ foldr Z.add 0 (histarea h)) by (clear -HF; induction HF; simpl; lia). unfold total in Ht.
      assert (E : u32 (over h + 1) = over h + 1) by (unfold u32; apply Z.mod_small; lia).
      eexists. split; [done|]. unfold total. simpl. rewrite E. split_and!; try done. lia.
Qed.
End histogram.

(** A maximum of 7 and a time of 7: the counter is number 10. *)
Definition hist7 : HISTCB := begin_measure 100 (init_hist 7 (mkHISTCB 0 0 [] 0 0)).

Lemma end_measure_correct_witness : end_measure 110 hist7 = None.
Proof.
  assert (W : if 10 <=? maxval hist7
      then ∃ h', end_measure 110 hist7 = Some h' ∧ total h' = total hist7 + 1 ∧ over h' = over hist7 ∧ under h' = under hist7 ∧
        (∃ n, histarea hist7 !! Z.to_nat 10 = Some n ∧ histarea h' = <[Z.to_nat 10 := n + 1]> (histarea hist7))
      else end_measure 110 hist7 = None).
  { apply (end_measure_correct 110 hist7); [by split; [simpl; lia|]|repeat constructor; lia|done|done|done]. }
  exact W.
Defined.
